(* ===== verification/_CoqProject ===== *)
-Q . S2P
Prelude.v
PyDict.v
Vocab.v
Ids.v
KeyMaterial.v
Canonical.v
CanonicalFacts.v
CanonicalProps.v
Models.v
Samples.v
ModelFacts.v
KeyLifecycle.v
Queue.v
QueueFacts.v
QueueProps.v
Journal.v
JournalFacts.v
JournalProps.v
Runtime.v
Account.v
AccountFacts.v
AccountSteps.v
AccountRefinement.v
AccountSamples.v
AccountProps.v
AccountRuns.v
Replay.v
ReplayFacts.v
ReplayProps.v
RuntimeState.v
RuntimeStateFacts.v
RuntimeStateProps.v
Quiescence.v
OwnerProps.v
Auth.v
AuthProps.v
Wire.v
GatewayState.v
GatewayOps.v
Activation.v
ActivationSpec.v
ActivationFacts.v
ActivationSteps.v
ActivationProps.v
ActivationSamples.v
Routing.v
Circuits.v
RoutingProps.v
CircuitProps.v
Admission.v
AdmissionFacts.v
AdmissionTurns.v
AdmissionProps.v
AdmissionTermination.v
AdmissionSamples.v
KeyControl.v
KeyControlFacts.v
KeyControlRevisions.v
KeyControlProps.v
Adapter.v
AdapterProps.v
Ingress.v
IngressState.v
IngressFacts.v
IngressProps.v
IngressRequests.v
PyJson.v
PyJsonFacts.v
Profiler.v
ProfilerFacts.v
Multipart.v
MultipartProps.v
ProfilerProps.v
ModelDump.v
Config.v
ConfigProps.v
Impact.v
ImpactProps.v
Streaming.v
StreamingProps.v
