(* ===== verification/Prelude.v ===== *)
(** * LLMMaxxing: a verification development

    LLMMaxxing is a gateway that admits OpenAI-style requests, authorizes them
    against a signed policy bundle and dispatches them to provider accounts
    within the accounts' limits.  This library models the parts of
    [src/src/llmmaxxing] that decide who may send what where, what is sent, and
    what survives a crash, and proves what makes them correct.  Paths below are
    relative to that directory; a definition has the name of the Python function
    it translates, in a Module named after its class.

    ** The program's parts and where they are modelled

    - Vocabularies and typed values.  [core/reasons.py] and
      [core/state_machines.py] are [Vocab]; [core/ids.py] is [Ids];
      [core/models.py], the Pydantic models of the bundle and of an
      authorization ceiling with all their validators, is [Models] (a validator
      is a function to [result]), and their JSON documents [ModelDump];
      [core/key_material.py] is [KeyMaterial] and [core/key_lifecycle.py] is
      [KeyLifecycle].
    - Configuration.  [config/schema.py] and [config/compile.py] are [Config]:
      what an operator writes, and its compilation into the next bundle.
      [config/plan.py] and [config/signing.py] are [Impact]: the plan of a change
      with its fences, and the envelope that is signed and verified.
    - Control plane.  [control/keys.py] is [KeyControl]: the commands on client
      keys, each of which returns a revision of the record.
    - Ingress.  [gateway/ingress.py] is [Ingress] (limits, and the validation of a
      request's target, headers and framing) and [IngressState] (the counters,
      leases, reservations and retained bodies, and the reading of a body).
    - Profiling.  [gateway/profiler.py] is [PyJson] (Python's JSON parser and
      writer), [Profiler] (the scan for limits, the profile and the rewriting of a
      JSON body) and [Multipart] (the same for multipart bodies, the workers and
      the executor with its scratch reservations).
    - Authentication.  [gateway/auth.py] is [Auth]: the credential presented is
      parsed, verified against the records of an [AuthRuntimeView], and the
      resulting [AuthenticatedClient] is checked again while it is queued.
    - Routing.  [gateway/routing.py] is [Routing] (failure classification, the
      send budget of a request, the route engine that turns a client and a
      profile into a ceiling and filters its legs against the operational view)
      and [Circuits] (the controller that trips, probes and closes circuits
      through the runtime's compare-and-swap).
    - Scheduling.  [gateway/scheduler.py] is [Queue] (the weighted deficit
      round-robin queue, [WDRRQueue]) and [Admission] (the admission controller:
      admission, previews, the pump, leases, the shadow path).
    - The account runtime.  [gateway/runtime_state.py] is [Runtime] (data and
      housekeeping of one account), [Account] (the calls of [AccountRuntime]),
      [Replay] (snapshots and replay of one account) and [RuntimeState] (the
      owner of all accounts: publications, checkpoints, recovery, views).
    - The journal.  [gateway/journal.py] is [Journal]: the records, the checks of
      their payloads, append, segments, checkpoints, compaction and recovery.
    - The upstream.  [adapters/litellm] is [Adapter]: the adapter's contract,
      deployment generations, the guard manifest, the dispatch that is prepared
      and the receipt that is reconciled.  [gateway/streaming.py] is [Streaming]:
      the pool of attempt permits, and the relay of a response.
    - Activation.  [core/canonical.py] is [Canonical] (canonical JSON, bundle
      hashes) and [core/wire.py] is [Wire] (the signed commands, approvals,
      acknowledgements and receipts, and their verification).
      [gateway/activation.py] is [GatewayState] (the database, the files and what
      the process keeps: class [GatewayLocalState]), [GatewayOps] (its methods)
      and [Activation] (the takeover coordinator, the gate and the service that
      executes commands).

    A request flows through them in this order.  Its head is validated
    ([Ingress.validate_http_request]), the client is authenticated ([Auth]), its
    body is read and retained ([IngressState.read_retained_body]) and profiled
    ([Multipart.Executor.profile]), and its ceiling is computed
    ([Routing.RouteEngine.authorize]); the admission controller queues it
    ([Admission.take_in], [Queue]) and the pump previews it against the operational
    view of the owner ([RuntimeState]), proposes the next request
    ([Queue.WDRRQueue.propose]), authorizes it again under the activation gate,
    selects a leg ([Routing]), reserves it on its account
    ([Account.AccountOps.try_reserve], which appends to the [Journal] before it
    grants) and hands out the lease.  The dispatch is prepared for the certified
    deployment of that leg ([Adapter.prepare_dispatch]), the body is rewritten
    with its alias and fence ([Multipart.Executor.rewrite]), sent under an attempt
    permit, and the answer is relayed ([Streaming]).  The lease is dispatched and
    finished through the account; failures go through [Routing.FailureClassifier]
    to [Circuits].  A restart reads the journal back ([Journal.recover]), loads
    the last checkpoint and replays the rest ([Replay], [RuntimeState]).

    What is authorized changes only by commands of the control plane.  A
    configuration is compiled against the bundle in force ([Config]), planned and
    signed ([Impact]).  [Activation.execute] authenticates a command ([Wire]), takes
    the gate, and changes the database in one transaction that also records the
    command at the head of its digest chain; the bundle in force and the denies are
    what [LocalState.permits] and [LocalState.current_auth_view] answer from, the
    first for the dispatch, the second for [Auth].

    ** How the code is represented

    Fallible functions return [result], with one constructor of [exn] per
    exception class.  A method that mutates its object is a computation of the
    monad [M]: it returns the new state whether it raises or not, since Python
    keeps the mutations made before a [raise].  A [dict] is the insertion-ordered
    association list of [PyDict].  Integers are Python's, unbounded; their bounds
    are those the validators check.  The locks make the calls of one object
    atomic, so concurrency is the interleaving of calls; a function that awaits
    takes what its awaits give, and what other tasks do meanwhile, as an argument.

    What the source takes from elsewhere is a parameter of the definitions that
    use it: SHA-256 and HMAC ([record_digest], [profile_digest],
    [resolution_digest], [binding_sha], [text_sha], [bundle_digest],
    [observation_sha], [sha256], [hmac_sha256]), the clock, the random source and
    the mints of identifiers ([clock], [mint], and the readings that are
    arguments), the disk ([JournalIO] and the answers [writer] holds), the
    generation gate of the route engine ([gate]), what may be published before the
    activation gate is granted ([publication]), [json.loads] where the bytes are
    signed ([loads]) and [float] of a numeral ([parse_float]), Pydantic's
    conversions and its part in reading a bundle (classes [Pydantic] and
    [BundleCodec]), signatures (class [Ed25519]), the messages of the ASGI server
    and of the HTTP client ([Turn], [Stream.Turn]), the process pool ([Awaits]), and
    for one call of the activation service the points where the process fails or
    is cancelled and what the other holders of the gate do ([Circumstances]).  No
    theorem assumes a digest to be injective: where a collision could break the
    claim, the collision is one of the cases of the conclusion.

    ** What the theorems show

    - Values: keys format and parse back ([KeyMaterial]); ceilings intersect to
      contractions and bundles are referentially closed ([ModelFacts]); a
      credential generation is never reused and tombstones stay
      ([KeyLifecycle]); identifier types are disjoint ([Ids]).
    - [ConfigProps]: compiling adds policies of least authority and changes nothing
      else.  [ImpactProps]: a plan verifies against its own base and no other; the
      keys it does not list keep their authority, decision by decision; what was
      planned can be signed and verifies.
    - [KeyControlFacts], [KeyControlRevisions], [KeyControlProps]: each command is
      its edge of the lifecycle and an accepted revision; an issued key opens, a
      rotation hands over, a stopped key never opens again.
    - [IngressFacts], [IngressProps], [IngressRequests]: the counts are those of
      the leases held under every interleaving; a body is read byte for byte or
      leaves nothing behind; which requests pass validation.
    - [PyJsonFacts], [ProfilerFacts], [MultipartProps], [ProfilerProps]: the body
      sent upstream, JSON or multipart, reads back as the request's with the alias
      and the fence, none of the fields a request may not set, and the rest as it
      was; scratch is given back however a request ends.
    - [AuthProps]: the reference decision of canonical verification, and the
      soundness of every accepted identity.
    - [QueueFacts], [QueueProps]: the queue's invariant, what it proposes, the
      aging bound, class shares, completeness, the equivalence of a restored queue,
      and a run that starves the oldest request.
    - [AccountFacts] to [AccountRuns]: an account machine as a step relation
      ([AccountSteps]) that every call refines ([AccountRefinement],
      [AccountRuns]), so that invariants hold by rule induction; grants within
      the limits, durability before grant, idempotent resolution, the bound of
      the ledger, exact retry times, single use of a half-open probe.
    - [JournalFacts], [JournalProps]: reading the files back loses nothing and
      exposes tampering up to a digest collision.
    - [ReplayFacts], [ReplayProps]: a snapshot round trip, and the refinement of
      the live account by checkpoint and replay.
    - [RuntimeStateFacts], [RuntimeStateProps], [Quiescence], [OwnerProps]: what a
      publication does to the books and to every account, and that a restart
      leaves nothing in flight.
    - [RoutingProps], [CircuitProps]: a selection is authorized and eligible,
      shadow legs are apart, a blocking cause means blocked primaries, the send
      budget, unambiguous classification, and the controller as a refinement of
      the circuit machine.
    - [AdmissionFacts], [AdmissionTurns], [AdmissionProps],
      [AdmissionTermination], [AdmissionSamples]: what is in force under the gate
      licenses every dispatch, permits are conserved, the stores stay sound
      whatever the calls, and every turn of the pump makes progress but the retry
      after a denial, which can go on for ever.
    - [AdapterProps]: a dispatch is fenced to the certified deployment it was
      prepared for, and what is certified can be dispatched.
    - [StreamingProps]: the permits of each partition are those held, within its
      limit, and no waiting task misses its wake-up; a response is relayed byte for
      byte, begun once, and never completed when it was cut short.
    - [CanonicalFacts], [CanonicalProps]: canonical bytes determine the document
      and are determined by it.
    - [ActivationSpec]: the policy a gateway enforces as a state machine whose only
      steps are commands, with what never goes back by rule induction.
      [ActivationFacts], [ActivationSteps]: most operations are calm (they leave
      the durable policy and the values kept of it in agreement and as they were),
      and each handler is calm or one step.  [ActivationProps]: every run of the
      service, with failures anywhere, refines the machine; generations and floors
      never fall; a command is answered once; a denied subject is not permitted; an
      unhealthy gateway authenticates nobody; commands of an older fence change
      nothing.

    A property with hypotheses is followed by its witness, evaluated on the
    values of the Modules and files named [...Samples].  Examples named in the
    findings evaluate behaviours that differ from the documentation.

    ** Fuel and bounds

    [Queue.WDRRQueue.choose_class] visits the two scarcity classes and two units
    suffice ([propose_complete] shows that a proposal never fails).
    [Admission.pump_loop] returns [None] when its turns run out: [pump_bounded]
    gives the number of turns after which it has returned unless a turn retried a
    denied request, and [pump_livelock] a pump that no number of turns ends.  The
    scans of text take the length of the text as their fuel, which each step
    shortens: [PyJsonFacts] proves that a document it wrote is read back, and the
    profiler's scan and stack likewise.  [IngressState.read_loop] takes the limit
    of body events, as the code counts it.

    ** What is not modelled

    The event loop, threads and locks, group commit of concurrent appends, and a
    task cancelled inside the pump (a caller cancelled while it awaits its
    dispatch is modelled).  Of the local state of activation, the export for
    diagnostics, the WAL checkpoint and closing; the database is tables of rows
    with an atomic commit, and its own failures are left out.  The JSON Schemas
    that are emitted.  The ASGI application, the emergency socket, storage,
    telemetry, the discovery client and router check of the LiteLLM adapter and
    the command line are input and output around the parts above. *)
From Stdlib Require Export ZArith Lia.
From stdpp Require Export base tactics relations list strings sorting.
From coqutil Require Export Datatypes.RecordSetters.
Export DoubleBraceUpdate.
#[global] Open Scope Z_scope.
#[global] Arguments constant {_} _ _ /.
#[global] Set Default Goal Selector "!".

(** ** Exceptions and fallible code

    One constructor per exception class the modelled code raises; the message
    is the literal of the [raise] statement. *)
Inductive exn :=
| ValueError (msg : string)
| KeyError (msg : string)
| RuntimeError (msg : string)
| TimeoutError (msg : string)
| IndexError (msg : string)
| AssertionError
| AccountBindingConflict (msg : string)
| CredentialAttestationRollback (msg : string)
| InvalidLeaseTransition (msg : string)
| JournalUnavailable (msg : string)
| AdmissionUnavailable (msg : string)
| ClientAuthenticationError
| TypeError (msg : string)
| OSError (msg : string)
| DatabaseError (msg : string)
| CancelledError
| SignatureVerificationError (msg : string)
| UnknownTrustEpoch
| UnknownSigningKey
| UnknownChannelEpoch
| UnknownChannelKey
| CommandChainGap
| DuplicateCommand
| CommandInstallationMismatch
| CommandBootMismatch
| StaleSecurityEpoch
| StaleFenceEpoch
| StopIteration
| JSONDecodeError
| UnicodeDecodeError
| IngressError (status : Z) (code : string)
| ProfileError (status : Z) (code : string)
| DispatchError (code : string) (critical retryable : bool)
| StalePreview (msg : string)
| StopAsyncIteration
| HTTPError (msg : string)
| ResponseAlreadyStarted
| UpstreamStreamError (msg : string)
| DownstreamStreamError (msg : string)
| DownstreamDisconnected.

#[export] Instance exn_eq_dec : EqDecision exn.
Proof. solve_decision. Defined.

(** [except ValueError] catches its subclasses. *)
Definition is_value_error (e : exn) : bool :=
  match e with
  | ValueError _ | AccountBindingConflict _ | CredentialAttestationRollback _
  | InvalidLeaseTransition _ | ClientAuthenticationError | SignatureVerificationError _
  | UnknownTrustEpoch | UnknownSigningKey | UnknownChannelEpoch | UnknownChannelKey
  | CommandChainGap | DuplicateCommand | CommandInstallationMismatch | CommandBootMismatch
  | StaleSecurityEpoch | StaleFenceEpoch | JSONDecodeError | UnicodeDecodeError | IngressError _ _
  | ProfileError _ _ | StalePreview _ => true
  | _ => false
  end.

Inductive result (A : Type) :=
| Ok (a : A)
| Err (e : exn).
Arguments Ok {_} _.
Arguments Err {_} _.

#[export] Instance result_eq_dec {A} `{EqDecision A} : EqDecision (result A).
Proof. solve_decision. Defined.

#[export] Instance result_ret : MRet result := λ _ a, Ok a.
#[export] Instance result_bind : MBind result := λ _ _ f m,
  match m with Ok a => f a | Err e => Err e end.

(** A [for] loop that threads an accumulator and may raise. *)
Fixpoint fold_result {S A} (f : S → A → result S) (s : S) (l : list A) : result S :=
  match l with
  | [] => mret s
  | x :: l => s' ← f s x; fold_result f s' l
  end.

(** [if c: raise e] *)
Definition raise_if (c : bool) (e : exn) : result unit :=
  if c then Err e else Ok tt.

Definition is_ok {A} (r : result A) : bool :=
  match r with Ok _ => true | Err _ => false end.

Lemma bind_Ok {A B} (m : result A) (f : A → result B) b :
  m ≫= f = Ok b ↔ ∃ a, m = Ok a ∧ f a = Ok b.
Proof.
  destruct m as [a|e]; cbn; split; [by eauto | | done |].
  - by intros (a' & [= ->] & ?).
  - by intros (a' & [=] & ?).
Qed.

Lemma raise_if_Ok c e u : raise_if c e = Ok u ↔ c = false.
Proof. destruct c, u; cbn; naive_solver. Qed.

(** ** State that survives an exception

    Python keeps the mutations made before a [raise]; [M S A] returns the
    state in both cases. *)
Definition M (S A : Type) : Type := S → S * result A.

#[export] Instance M_ret {S} : MRet (M S) := λ _ a s, (s, Ok a).
#[export] Instance M_bind {S} : MBind (M S) := λ _ _ f m s,
  match m s with
  | (s', Ok a) => f a s'
  | (s', Err e) => (s', Err e)
  end.

Definition get {S} : M S S := λ s, (s, Ok s).
Definition put {S} (s' : S) : M S unit := λ _, (s', Ok tt).
Definition modify {S} (f : S → S) : M S unit := λ s, (f s, Ok tt).
Definition raise {S A} (e : exn) : M S A := λ s, (s, Err e).
Definition lift {S A} (r : result A) : M S A := λ s, (s, r).

(** [for x in l: f(x)] *)
Fixpoint for_each {S A} (f : A → M S unit) (l : list A) : M S unit :=
  match l with
  | [] => mret tt
  | x :: l => f x;; for_each f l
  end.

(** What a method reads of its object. *)
Definition reads {S A} (f : S → result A) : M S A := λ s, (s, f s).
(** [try: m] [except caught as error: handler(error)] *)
Definition catch {S A} (caught : exn → bool) (m : M S A) (handler : exn → M S A) : M S A := λ s,
  match m s with
  | (s, Err e) => if caught e then handler e s else (s, Err e)
  | done => done
  end.
(** [except BaseException: cleanup; raise] *)
Definition on_error {S A} (m : M S A) (cleanup : M S unit) : M S A :=
  catch (λ _, true) m (λ e, cleanup;; raise e).

Lemma M_bind_Ok {S A B} (m : M S A) (f : A → M S B) s s' b :
  (m ≫= f) s = (s', Ok b) ↔ ∃ s1 a, m s = (s1, Ok a) ∧ f a s1 = (s', Ok b).
Proof.
  unfold mbind, M_bind. destruct (m s) as [s1 [a|e]]; split; [by eauto | | done |].
  - intros (s2 & a2 & Heq & Hf). by injection Heq as <- <-.
  - by intros (s2 & a2 & Heq & Hf).
Qed.

Lemma M_bind_Err {S A B} (m : M S A) (f : A → M S B) s s' e :
  (m ≫= f) s = (s', Err e) ↔
  m s = (s', Err e) ∨ ∃ s1 a, m s = (s1, Ok a) ∧ f a s1 = (s', Err e).
Proof.
  unfold mbind, M_bind. destruct (m s) as [s1 [a|e']]; split; [by eauto 10 | | |].
  - intros [Heq|(s2 & a2 & Heq & Hf)]; [done|]. by injection Heq as <- <-.
  - intros Heq. left. by injection Heq as <- <-.
  - intros [Heq|(s2 & a2 & Heq & Hf)]; [|done]. by injection Heq as <- <-.
Qed.

Lemma M_bind_cases {S A B} (m : M S A) (f : A → M S B) s s' r :
  (m ≫= f) s = (s', r) →
  (∃ s1 a, m s = (s1, Ok a) ∧ f a s1 = (s', r)) ∨ (∃ e, m s = (s', Err e) ∧ r = Err e).
Proof.
  unfold mbind, M_bind. destruct (m s) as [s1 [a|e]] eqn:E; intros H; [by eauto|].
  injection H as <- <-. eauto.
Qed.

(** ** Specifications of stateful code

    [spec I m Q]: [m] keeps [I], whether it raises or not, and what it returns
    satisfies [Q]. *)
Definition spec {S A} (I : S → Prop) (m : M S A) (Q : A → Prop) : Prop :=
  ∀ s s' r, I s → m s = (s', r) → I s' ∧ ∀ a, r = Ok a → Q a.

Section Spec.
Context {S : Type} (I : S → Prop).

Lemma spec_bind {A B} (m : M S A) (f : A → M S B) Q R :
  spec I m Q → (∀ a, Q a → spec I (f a) R) → spec I (m ≫= f) R.
Proof.
  intros Hm Hf s s' r Hs H. apply M_bind_cases in H as [(s1 & a & H1 & H2)|(e & H1 & ->)].
  - destruct (Hm _ _ _ Hs H1) as [Hs1 Ha]. by eapply Hf; [apply Ha|..].
  - destruct (Hm _ _ _ Hs H1) as [Hs1 _]. done.
Qed.

Lemma spec_weaken {A} (m : M S A) (Q R : A → Prop) :
  spec I m Q → (∀ a, Q a → R a) → spec I m R.
Proof. intros Hm HQ s s' r Hs H. destruct (Hm _ _ _ Hs H) as [Hs' Ha]. eauto. Qed.

Lemma spec_ret {A} (a : A) (Q : A → Prop) : Q a → spec I (mret a) Q.
Proof. intros HQ s s' r Hs [= <- <-]. split; [done|]. by intros a' [= <-]. Qed.

Lemma spec_raise {A} e (Q : A → Prop) : spec I (raise e) Q.
Proof. by intros s s' r Hs [= <- <-]. Qed.

Lemma spec_lift {A} (r : result A) (Q : A → Prop) : (∀ a, r = Ok a → Q a) → spec I (lift r) Q.
Proof. by intros HQ s s' r' Hs [= <- <-]. Qed.

Lemma spec_modify (f : S → S) (Q : unit → Prop) :
  (∀ s, I s → I (f s)) → Q tt → spec I (modify f) Q.
Proof. intros Hf HQ s s' r Hs [= <- <-]. split; [auto|]. by intros []. Qed.

Lemma spec_get : spec I get I.
Proof. intros s s' r Hs [= <- <-]. split; [done|]. by intros a [= <-]. Qed.

Lemma spec_for_each {A} (f : A → M S unit) l :
  (∀ x, x ∈ l → spec I (f x) (λ _, True)) → spec I (for_each f l) (λ _, True).
Proof.
  induction l as [|x l IH]; intros Hf; [by apply spec_ret|].
  eapply spec_bind; [apply Hf; by left|]. intros [] _. apply IH. intros y Hy. apply Hf. by right.
Qed.

Lemma spec_if {A} (b : bool) (m1 m2 : M S A) Q :
  (b = true → spec I m1 Q) → (b = false → spec I m2 Q) → spec I (if b then m1 else m2) Q.
Proof. destruct b; auto. Qed.
End Spec.

Lemma on_error_Ok {S A} (m : M S A) h s s' a : on_error m h s = (s', Ok a) → m s = (s', Ok a).
Proof.
  unfold on_error, catch. destruct (m s) as [s1 [b|e]]; [done|].
  intros (s2 & [] & _ & [=])%M_bind_Ok.
Qed.

(** ** Computations related to a preorder on states *)
Definition keeps {S A} (R : relation S) (m : M S A) : Prop :=
  ∀ s s' r, m s = (s', r) → R s s'.

Section Keeps.
Context {S : Type} (R : relation S) `{!PreOrder R}.

Lemma keeps_seq {A B} (m : M S A) (k : A → M S B) :
  keeps R m → (∀ a, keeps R (k a)) → keeps R (m ≫= k).
Proof.
  intros Hm Hk s s' r [(s1 & a & H1 & H2)|(e & H1 & _)]%M_bind_cases; [|by eapply Hm].
  etrans; [by eapply Hm|by eapply Hk].
Qed.
Lemma keeps_ret {A} (a : A) : keeps R (mret a).
Proof. by intros s s' r [= <- _]. Qed.
Lemma keeps_raise {A} e : keeps R (raise (A := A) e).
Proof. by intros s s' r [= <- _]. Qed.
Lemma keeps_lift {A} (r : result A) : keeps R (lift r).
Proof. by intros s s' r' [= <- _]. Qed.
Lemma keeps_get : keeps R get.
Proof. by intros s s' r [= <- _]. Qed.
Lemma keeps_modify (g : S → S) : (∀ s, R s (g s)) → keeps R (modify g).
Proof. by intros Hg s s' r [= <- _]. Qed.
(** What a computation reads it may rely on. *)
Lemma keeps_read {A} (k : S → M S A) :
  (∀ s s' r, k s s = (s', r) → R s s') → keeps R (s ← get; k s).
Proof. intros Hk s s' r H. by eapply Hk. Qed.
Lemma keeps_reads {A} (f : S → result A) : keeps R (reads f).
Proof. by intros s s' r [= <- _]. Qed.
Lemma keeps_for_each {A} (f : A → M S unit) l : (∀ x, keeps R (f x)) → keeps R (for_each f l).
Proof. intros Hf. induction l as [|x l IH]; [apply keeps_ret|]. by apply keeps_seq. Qed.
Lemma keeps_catch {A} c (m : M S A) (h : exn → M S A) :
  keeps R m → (∀ e, keeps R (h e)) → keeps R (catch c m h).
Proof.
  intros Hm Hh s s' r H. unfold catch in H. destruct (m s) as [s1 [a|e]] eqn:E.
  - injection H as <- _. by eapply Hm.
  - destruct (c e); [etrans; [by eapply Hm|by eapply Hh]|]. injection H as <- _. by eapply Hm.
Qed.
Lemma keeps_on_error {A} (m : M S A) h : keeps R m → keeps R h → keeps R (on_error m h).
Proof.
  intros Hm Hh. apply keeps_catch; [done|]. intros e.
  apply keeps_seq; [done|]. intros []. apply keeps_raise.
Qed.
Lemma keeps_weaken {A} (R' : relation S) (m : M S A) : (∀ s s', R s s' → R' s s') → keeps R m → keeps R' m.
Proof. intros HR Hm s s' r H. eauto. Qed.
End Keeps.

(** Split a computation into its steps. *)
Create HintDb keeps discriminated.
Ltac keeps := repeat first
  [ progress intros
  | solve [eauto 3 with keeps]
  | apply keeps_seq; [apply _| |]
  | apply keeps_ret; apply _
  | apply keeps_raise; apply _
  | apply keeps_lift; apply _
  | apply keeps_get; apply _
  | apply keeps_reads; apply _
  | apply keeps_for_each; [apply _|]
  | apply keeps_catch; [apply _| |]
  | apply keeps_on_error; [apply _| |]
  | match goal with
    | |- keeps _ (let _ := ?x in _) => cbv zeta
    | |- keeps _ (if ?b then _ else _) => destruct b
    | |- keeps _ (match ?x with _ => _ end) => destruct x
    end ].

(** What every iteration keeps, the loop keeps, whether it raises or not. *)
Lemma for_each_inv {S A} (I : S → Prop) (f : A → M S unit) l s s' r :
  (∀ x s s' r, x ∈ l → I s → f x s = (s', r) → I s') → I s → for_each f l s = (s', r) → I s'.
Proof.
  intros Hf Hs H. eapply (spec_for_each I f l); [|exact Hs|exact H].
  intros x Hx t t' r' Ht Hm. split; [by eapply Hf|done].
Qed.

Lemma for_each_cons {S A} (f : A → M S unit) x l s s' :
  for_each f (x :: l) s = (s', Ok tt) →
  ∃ s1, f x s = (s1, Ok tt) ∧ for_each f l s1 = (s', Ok tt).
Proof. intros (s1 & [] & Hx & H)%M_bind_Ok. eauto. Qed.

Lemma pair_result {A B} (p : A * B) b : p.2 = b → p = (p.1, b).
Proof. destruct p. by intros <-. Qed.

(** The Stdlib string order is Python's [str] order on the ASCII identifiers
    of this program. *)
Definition str_leb : string → string → bool := String.leb.

(** ** Boolean total orders, used as sort keys *)
Class BoolOrder {A} (leb : A → A → bool) : Prop := {
  leb_total : ∀ x y, leb x y = true ∨ leb y x = true;
  leb_trans : ∀ x y z, leb x y = true → leb y z = true → leb x z = true;
  leb_antisym : ∀ x y, leb x y = true → leb y x = true → x = y;
}.

Lemma leb_refl {A} {leb : A → A → bool} `{!BoolOrder leb} x : leb x x = true.
Proof. by destruct (leb_total x x). Qed.

#[export] Instance Zleb_order : BoolOrder Z.leb.
Proof. split; intros; lia. Qed.

Lemma str_compare_lt_trans s1 : ∀ s2 s3,
  String.compare s1 s2 ≠ Gt → String.compare s2 s3 ≠ Gt →
  String.compare s1 s3 ≠ Gt.
Proof.
  induction s1 as [|a s1 IH]; intros [|b s2] [|c s3]; cbn; try done.
  unfold Ascii.compare.
  destruct (N.compare_spec (Ascii.N_of_ascii a) (Ascii.N_of_ascii b));
  destruct (N.compare_spec (Ascii.N_of_ascii b) (Ascii.N_of_ascii c));
  destruct (N.compare_spec (Ascii.N_of_ascii a) (Ascii.N_of_ascii c));
    try lia; try done; eauto.
Qed.

#[export] Instance str_leb_order : BoolOrder str_leb.
Proof.
  split.
  - apply String.leb_total.
  - intros x y z. unfold str_leb, String.leb.
    pose proof (str_compare_lt_trans x y z) as Ht.
    destruct (String.compare x y), (String.compare y z), (String.compare x z);
      try done; exfalso; by apply Ht.
  - intros x y L1 L2. by apply String.leb_antisym.
Qed.

(** Lexicographic order on pairs: Python tuple comparison. *)
Definition pair_leb {A B} `{EqDecision A} (la : A → A → bool) (lb : B → B → bool)
    (p q : A * B) : bool :=
  if decide (p.1 = q.1) then lb p.2 q.2 else la p.1 q.1.

#[export] Instance pair_leb_order {A B} `{EqDecision A} la lb :
  BoolOrder la → BoolOrder lb → BoolOrder (@pair_leb A B _ la lb).
Proof.
  intros Ha Hb. split; unfold pair_leb.
  - intros [a b] [a' b']; cbn. repeat case_decide; subst; try done.
    + apply leb_total.
    + apply leb_total.
  - intros [a b] [a' b'] [a'' b'']; cbn.
    repeat case_decide; subst; try done; intros L1 L2.
    + by eapply leb_trans.
    + by destruct (leb_antisym _ _ L1 L2).
    + by eapply leb_trans.
  - intros [a b] [a' b']; cbn. repeat case_decide; subst; try done; intros L1 L2.
    + f_equal. by apply leb_antisym.
    + by destruct (leb_antisym _ _ L1 L2).
Qed.

(** ** [sorted(items, key=...)] and [min(items, key=...)]

    Python's sort is stable and [min] returns the first minimal element. *)
Section Sorting.
Context {A K : Type} (key : A → K) (leb : K → K → bool) `{!BoolOrder leb}.

Fixpoint insert_by (x : A) (l : list A) : list A :=
  match l with
  | [] => [x]
  | y :: l' => if leb (key x) (key y) then x :: l else y :: insert_by x l'
  end.

Definition sorted_by (l : list A) : list A := foldr insert_by [] l.

Definition min2_by (x y : A) : A := if leb (key x) (key y) then x else y.

Definition min_by (l : list A) : option A :=
  match l with [] => None | x :: l' => Some (foldl min2_by x l') end.

Definition key_le (x y : A) : Prop := leb (key x) (key y) = true.

#[local] Instance key_le_trans : Transitive key_le.
Proof. intros x y z. unfold key_le. apply leb_trans. Qed.

Lemma leb_flip x y : leb x y = false → leb y x = true.
Proof. destruct (leb_total x y); congruence. Qed.

Lemma insert_by_perm x l : insert_by x l ≡ₚ x :: l.
Proof.
  induction l as [|y l IH]; cbn; [done|].
  destruct (leb _ _); [done|]. rewrite IH. apply Permutation_swap.
Qed.

Lemma sorted_by_perm l : sorted_by l ≡ₚ l.
Proof. induction l as [|x l IH]; cbn; [done|]. by rewrite insert_by_perm, IH. Qed.

Lemma insert_by_sorted x l :
  StronglySorted key_le l → StronglySorted key_le (insert_by x l).
Proof.
  induction 1 as [|y l Hs IH Hy]; cbn; [by repeat constructor|].
  destruct (leb (key x) (key y)) eqn:E.
  - repeat constructor; try done.
    eapply Forall_impl; [exact Hy|]. intros z. by apply transitivity.
  - constructor; [done|]. rewrite insert_by_perm. constructor; [|done].
    by apply leb_flip.
Qed.

Lemma sorted_by_sorted l : StronglySorted key_le (sorted_by l).
Proof. induction l; cbn; [constructor|]. by apply insert_by_sorted. Qed.

Lemma elem_of_sorted_by x l : x ∈ sorted_by l ↔ x ∈ l.
Proof. by rewrite sorted_by_perm. Qed.

Lemma length_sorted_by l : length (sorted_by l) = length l.
Proof. by rewrite sorted_by_perm. Qed.

Lemma sorted_by_id l : StronglySorted key_le l → sorted_by l = l.
Proof.
  induction 1 as [|x l Hs IH Hx]; [done|].
  change (sorted_by (x :: l)) with (insert_by x (sorted_by l)). rewrite IH.
  destruct l as [|y l]; cbn; [done|].
  apply Forall_cons in Hx as [Hxy _]. unfold key_le in Hxy. by rewrite Hxy.
Qed.

(** Two permutations of items with distinct keys sort to the same list. *)
Lemma key_sorted_unique l1 l2 :
  NoDup (key <$> l1) → l1 ≡ₚ l2 →
  StronglySorted key_le l1 → StronglySorted key_le l2 → l1 = l2.
Proof.
  revert l2. induction l1 as [|x l1 IH]; intros l2 Hnd Hp Hs1 Hs2.
  { by apply Permutation_nil_l in Hp as ->. }
  destruct l2 as [|y l2]; [by apply Permutation_nil_r in Hp|].
  inversion Hs1 as [|? ? Hs1' Hx]; inversion Hs2 as [|? ? Hs2' Hy]; subst.
  cbn in Hnd. apply NoDup_cons in Hnd as [Hnx Hnd].
  assert (x = y) as ->.
  { assert (x ∈ y :: l2) as Hxin by (rewrite <-Hp; left).
    assert (y ∈ x :: l1) as Hyin by (rewrite Hp; left).
    apply elem_of_cons in Hxin as [|Hxin]; [done|].
    apply elem_of_cons in Hyin as [|Hyin]; [done|].
    rewrite Forall_forall in Hx, Hy.
    destruct Hnx. rewrite (leb_antisym (key x) (key y)); [|by apply Hx|by apply Hy].
    by apply list_elem_of_fmap_2. }
  f_equal. apply IH; try done. by apply Permutation_cons_inv in Hp.
Qed.

Lemma sorted_by_unique l1 l2 :
  NoDup (key <$> l1) → l1 ≡ₚ l2 → sorted_by l1 = sorted_by l2.
Proof.
  intros Hnd Hp. apply key_sorted_unique; auto using sorted_by_sorted.
  - by rewrite sorted_by_perm.
  - by rewrite !sorted_by_perm.
Qed.

Lemma foldl_min2_spec l x :
  let m := foldl min2_by x l in
  (m = x ∨ m ∈ l) ∧ key_le m x ∧ ∀ y, y ∈ l → key_le m y.
Proof.
  revert x. induction l as [|y l IH]; intros x; cbn.
  { split_and!; [by left|apply leb_refl|]. by intros y ?%elem_of_nil. }
  destruct (IH (min2_by x y)) as (Hin & Hle & Hall).
  assert (key_le (min2_by x y) x ∧ key_le (min2_by x y) y) as [Hx Hy].
  { unfold min2_by, key_le. destruct (leb (key x) (key y)) eqn:E.
    - split; [apply leb_refl|done].
    - split; [by apply leb_flip|apply leb_refl]. }
  split_and!.
  - destruct Hin as [->|]; [|by right; right].
    unfold min2_by. destruct (leb _ _); [by left|right; left].
  - by etrans.
  - intros z [->|]%elem_of_cons; [by etrans|by apply Hall].
Qed.

Lemma min_by_spec l m :
  min_by l = Some m → m ∈ l ∧ ∀ y, y ∈ l → key_le m y.
Proof.
  destruct l as [|x l]; cbn; [done|]. intros [= <-].
  destruct (foldl_min2_spec l x) as ([->|Hin] & Hle & Hall).
  - split; [left|]. intros y [->|]%elem_of_cons; [apply leb_refl|by apply Hall].
  - split; [by right|]. intros y [->|]%elem_of_cons; [done|by apply Hall].
Qed.

Lemma min_by_None l : min_by l = None ↔ l = [].
Proof. by destruct l. Qed.

Lemma min_by_unique l m :
  NoDup (key <$> l) → m ∈ l → (∀ y, y ∈ l → key_le m y) → min_by l = Some m.
Proof.
  intros Hnd Hin Hle. destruct (min_by l) as [m'|] eqn:E.
  - destruct (min_by_spec _ _ E) as [Hin' Hle']. f_equal.
    apply list_elem_of_lookup in Hin as [i Hi], Hin' as [j Hj].
    assert (key m = key m') as Hk.
    { apply leb_antisym; [apply Hle|apply Hle']; apply list_elem_of_lookup; eauto. }
    assert (i = j) as ->; [|congruence].
    eapply NoDup_lookup; [exact Hnd| |]; rewrite list_lookup_fmap.
    + by rewrite Hi.
    + by rewrite Hj, Hk.
  - apply min_by_None in E as ->. by apply elem_of_nil in Hin.
Qed.

Lemma min_by_key_perm l1 l2 : l1 ≡ₚ l2 → key <$> min_by l1 = key <$> min_by l2.
Proof.
  intros Hp. destruct (min_by l1) as [m1|] eqn:E1, (min_by l2) as [m2|] eqn:E2; cbn.
  - destruct (min_by_spec _ _ E1) as [Hi1 Hl1], (min_by_spec _ _ E2) as [Hi2 Hl2].
    f_equal. apply leb_antisym; [apply Hl1; by rewrite Hp|apply Hl2; by rewrite <-Hp].
  - apply min_by_None in E2. subst. apply Permutation_nil_r in Hp. by subst.
  - apply min_by_None in E1. subst. apply Permutation_nil_l in Hp. by subst.
  - done.
Qed.

Lemma min_by_perm l1 l2 :
  NoDup (key <$> l1) → l1 ≡ₚ l2 → min_by l1 = min_by l2.
Proof.
  intros Hnd Hp. destruct (min_by l2) as [m|] eqn:E.
  - destruct (min_by_spec _ _ E) as [Hin Hle]. apply min_by_unique; [done|..].
    + by rewrite Hp.
    + intros y. rewrite Hp. apply Hle.
  - apply min_by_None in E as ->. by apply Permutation_nil_r in Hp as ->.
Qed.
End Sorting.

Lemma sorted_by_ext {A K} (key key' : A → K) leb (l : list A) :
  (∀ x, key x = key' x) → sorted_by key leb l = sorted_by key' leb l.
Proof.
  intros Hk. unfold sorted_by. induction l as [|x l IH]; [done|].
  cbn. rewrite IH. generalize (foldr (insert_by key' leb) [] l).
  intros l'. induction l' as [|y l' IH']; [done|]. cbn. by rewrite !Hk, IH'.
Qed.

#[export] Instance Lfilter_perm {A} (f : A → bool) :
  Proper (Permutation ==> Permutation) (List.filter f).
Proof.
  induction 1 as [|x l1 l2 _ IH|x y l|l1 l2 l3 _ IH1 _ IH2]; cbn; [done|..].
  - by case_match; rewrite IH.
  - repeat case_match; try done. apply Permutation_swap.
  - by etrans.
Qed.

Lemma remove_dups_perm {A} `{EqDecision A} (l1 l2 : list A) :
  l1 ≡ₚ l2 → remove_dups l1 ≡ₚ remove_dups l2.
Proof.
  intros Hp. apply NoDup_Permutation; [apply NoDup_remove_dups..|].
  intros x. rewrite !elem_of_remove_dups. by rewrite Hp.
Qed.

(** ** Automation *)
Create Rewrite HintDb boolprop.
#[export] Hint Rewrite orb_false_iff orb_true_iff andb_true_iff andb_false_iff
  negb_true_iff negb_false_iff @bool_decide_eq_true @bool_decide_eq_false
  Z.leb_le Z.leb_gt Z.ltb_lt Z.ltb_ge Z.eqb_eq Z.eqb_neq
  forallb_forall : boolprop.

(** Turn boolean tests into propositions. *)
Ltac bprop := autorewrite with boolprop in *.
Tactic Notation "bprop" "in" hyp(H) := autorewrite with boolprop in H.

(** Invert one accepted step of fallible code. *)
Ltac inv_ok_step H :=
  lazymatch type of H with
  | mbind (λ _, _) (raise_if _ _) = Ok _ =>
      let G := fresh "G" in
      apply bind_Ok in H as (? & G & H); apply raise_if_Ok in G; cbv beta in H
  | mbind _ _ = Ok _ =>
      let G := fresh "G" in apply bind_Ok in H as (? & G & H); cbv beta in H
  | raise_if _ _ = Ok _ => apply raise_if_Ok in H
  end.
Ltac inv_ok H :=
  repeat inv_ok_step H;
  try lazymatch type of H with
    | mret _ = Ok _ => injection H as H
    | Ok _ = Ok _ => injection H as H
    end.

(** Invert one accepted step of stateful code. *)
Ltac inv_M_step H :=
  lazymatch type of H with
  | mbind _ _ _ = (_, Ok _) =>
      let G := fresh "R" in
      apply M_bind_Ok in H as (? & ? & G & H); cbv beta in H
  end.
Ltac inv_M H := repeat inv_M_step H.

Ltac bool_atom x :=
  lazymatch x with andb _ _ => fail | orb _ _ => fail | _ => idtac end.

(** Case analysis on the operands of the boolean connectives of the goal. *)
Ltac bool_cases :=
  repeat match goal with
    | |- context [andb ?x _] => bool_atom x; destruct x; cbn [andb orb]
    | |- context [orb ?x _] => bool_atom x; destruct x; cbn [andb orb]
    end; try reflexivity; try done.

(** Run an accepted guard forward: the guard is known not to raise. *)
Lemma raise_if_pass {B} c e (k : result B) : c = false → (raise_if c e;; k) = k.
Proof. by intros ->. Qed.

Lemma filter_ext_elem {A} (P Q : A → Prop) `{∀ x, Decision (P x)} `{∀ x, Decision (Q x)} (l : list A) :
  (∀ x, x ∈ l → P x ↔ Q x) → filter P l = filter Q l.
Proof.
  induction l as [|x l IH]; intros Hpq; [done|].
  rewrite !filter_cons. rewrite IH by (intros; apply Hpq; by right).
  pose proof (Hpq x ltac:(left)). repeat case_decide; tauto.
Qed.

Lemma filter_twice {A} (P : A → Prop) `{∀ x, Decision (P x)} (l : list A) :
  filter P (filter P l) = filter P l.
Proof. rewrite list_filter_filter. apply filter_ext_elem. tauto. Qed.

Lemma filter_all {A} (P : A → Prop) `{∀ x, Decision (P x)} (l : list A) :
  (∀ x, x ∈ l → P x) → filter P l = l.
Proof.
  induction l as [|x l IH]; intros Hp; [done|].
  rewrite filter_cons_True by (apply Hp; left). f_equal. apply IH.
  intros y Hy. apply Hp. by right.
Qed.

Lemma filter_self {A} `{EqDecision A} (l : list A) : filter (.∈ l) l = l.
Proof. by apply filter_all. Qed.

(** Keeping the members of what was kept keeps the same items. *)
Lemma filter_elem_of_idemp {A} `{EqDecision A} (P : A → Prop) `{∀ x, Decision (P x)} (l : list A) :
  filter (.∈ filter P l) l = filter P l.
Proof. apply filter_ext_elem. intros x Hx. rewrite list_elem_of_filter. tauto. Qed.

Lemma StronglySorted_sublist {A} (R : relation A) l1 l2 :
  sublist l1 l2 → StronglySorted R l2 → StronglySorted R l1.
Proof.
  induction 1 as [|x l1 l2 Hs IH|x l1 l2 Hs IH]; intros Hss; [done|..];
    apply StronglySorted_inv in Hss as [Hss Hx]; [|by apply IH].
  constructor; [by apply IH|]. rewrite Forall_forall in *.
  intros y Hy. apply Hx. by eapply elem_of_sublist.
Qed.

(** A comprehension that keeps a key yields a subsequence of the keys. *)
Lemma omap_key_sublist {A B K} (f : A → option B) (k : A → K) (k' : B → K) (l : list A) :
  (∀ x y, f x = Some y → k' y = k x) → sublist (k' <$> omap f l) (k <$> l).
Proof.
  intros Hf. induction l as [|x l IH]; cbn; [done|].
  destruct (f x) as [y|] eqn:E; cbn.
  - rewrite (Hf _ _ E). by constructor.
  - by constructor.
Qed.

Lemma StronglySorted_key {A K} (key : A → K) leb (l : list A) :
  StronglySorted (key_le key leb) l ↔ StronglySorted (λ x y, leb x y = true) (key <$> l).
Proof.
  induction l as [|x l IH]; cbn; [by split; constructor|].
  rewrite !StronglySorted_cons, IH, Forall_fmap. done.
Qed.

(** Items of a list with distinct keys are determined by their key. *)
Lemma NoDup_key_inj {A K} (f : A → K) (l : list A) x y :
  NoDup (f <$> l) → x ∈ l → y ∈ l → f x = f y → x = y.
Proof.
  intros Hn (i & Hi)%list_elem_of_lookup (j & Hj)%list_elem_of_lookup Hf.
  assert (i = j) as ->; [|congruence].
  eapply NoDup_lookup; [exact Hn| |]; rewrite list_lookup_fmap.
  - by rewrite Hi.
  - by rewrite Hj, Hf.
Qed.

Lemma existsb_false {A} (f : A → bool) (l : list A) :
  existsb f l = false ↔ ∀ x, x ∈ l → f x = false.
Proof.
  induction l as [|x l IH]; cbn.
  { split; [|done]. by intros _ x ?%elem_of_nil. }
  rewrite orb_false_iff, IH. split.
  - intros [Hx Hl] y [->|Hy]%elem_of_cons; auto.
  - intros Hf. split; [|intros y Hy]; apply Hf; [left|by right].
Qed.

Lemma sublist_filter_bool {A} (f : A → bool) (l : list A) : sublist (List.filter f l) l.
Proof. induction l as [|x l IH]; cbn; [done|]. destruct (f x); by constructor. Qed.

Lemma existsb_perm {A} (f : A → bool) (l l' : list A) : l ≡ₚ l' → existsb f l = existsb f l'.
Proof.
  induction 1 as [|x l l' _ IH|x y l|l l' l'' _ IH _ IH']; cbn; [done|by rewrite IH| |congruence].
  by destruct (f x), (f y).
Qed.
