(* ===== verification/PyDict.v ===== *)
(** * Python dictionaries

    A Python [dict] keeps its insertion order, and the program iterates its
    dictionaries; a dictionary is therefore an association list: lookup,
    in-place update (the key keeps its position), append of a new key and
    removal.  [dict_ok] (no duplicate key) holds of every dictionary built by
    these operations. *)
From S2P Require Export Prelude.

Abbreviation dict K V := (list (K * V)).

Section PyDict.
Context {K : Type} `{EqDecision K} {V : Type}.
Implicit Types (d : dict K V) (k : K) (v : V).

(** [d.get(k)] *)
Fixpoint dget k d : option V :=
  match d with
  | [] => None
  | (k', v) :: d' => if decide (k = k') then Some v else dget k d'
  end.

(** [d[k] = v] *)
Fixpoint dset k v d : dict K V :=
  match d with
  | [] => [(k, v)]
  | (k', v') :: d' =>
      if decide (k = k') then (k', v) :: d' else (k', v') :: dset k v d'
  end.

(** [d.pop(k, None)] and [del d[k]] *)
Fixpoint ddel k d : dict K V :=
  match d with
  | [] => []
  | (k', v') :: d' => if decide (k = k') then d' else (k', v') :: ddel k d'
  end.

Definition dkeys d : list K := d.*1.
Definition dvalues d : list V := d.*2.

(** [k in d] *)
Definition dmem k d : bool := bool_decide (is_Some (dget k d)).

(** [{key(x): val(x) for x in l}]: a later item overwrites an earlier one. *)
Definition dict_of (l : list (K * V)) : dict K V :=
  foldl (λ d p, dset p.1 p.2 d) [] l.

Definition dget_or k v d : V := default v (dget k d).

Definition dict_ok d : Prop := NoDup (dkeys d).

Lemma dget_None k d : dget k d = None ↔ k ∉ dkeys d.
Proof.
  unfold dkeys. induction d as [|[k' v] d IH]; cbn.
  { split; [intros _; apply not_elem_of_nil|done]. }
  rewrite not_elem_of_cons. destruct (decide (k = k')); [|tauto].
  split; [done|]. by intros [? _].
Qed.

Lemma dget_is_Some k d : is_Some (dget k d) ↔ k ∈ dkeys d.
Proof.
  destruct (dget k d) eqn:E.
  - split; [|by eauto]. intros _. destruct (decide (k ∈ dkeys d)) as [|Hn]; [done|].
    apply dget_None in Hn. congruence.
  - apply dget_None in E. split; [by intros []|done].
Qed.

Lemma dmem_true k d : dmem k d = true ↔ k ∈ dkeys d.
Proof. unfold dmem. by rewrite bool_decide_eq_true, dget_is_Some. Qed.

Lemma dmem_false k d : dmem k d = false ↔ dget k d = None.
Proof. unfold dmem. by rewrite bool_decide_eq_false, <-eq_None_not_Some. Qed.

Lemma dget_elem_of k v d : dget k d = Some v → (k, v) ∈ d.
Proof.
  induction d as [|[k' v'] d IH]; cbn; [done|]. case_decide; subst.
  - intros [= ->]. left.
  - intros. right. by apply IH.
Qed.

Lemma dget_value k v d : dget k d = Some v → v ∈ dvalues d.
Proof. intros H%dget_elem_of. unfold dvalues. by apply (list_elem_of_fmap_2 snd) in H. Qed.

Lemma elem_of_dget k v d : dict_ok d → (k, v) ∈ d ↔ dget k d = Some v.
Proof.
  intros Hok. split; [|apply dget_elem_of].
  induction d as [|[k' v'] d IH]; cbn; [by intros ?%elem_of_nil|].
  unfold dict_ok, dkeys in *. cbn in Hok. apply NoDup_cons in Hok as [Hn Hok].
  intros [[= -> ->]|Hin]%elem_of_cons; case_decide; subst; try done.
  - destruct Hn. by apply (list_elem_of_fmap_2 fst) in Hin.
  - by apply IH.
Qed.

Lemma elem_of_dvalues v d : dict_ok d → v ∈ dvalues d ↔ ∃ k, dget k d = Some v.
Proof.
  intros Hok. unfold dvalues. rewrite list_elem_of_fmap. split.
  - intros ([k v'] & -> & Hin). exists k. by apply elem_of_dget.
  - intros [k Hk]. exists (k, v). split; [done|]. by apply dget_elem_of.
Qed.

Lemma dget_dset_eq k v d : dget k (dset k v d) = Some v.
Proof.
  induction d as [|[k' v'] d IH]; cbn; [by rewrite decide_True|].
  case_decide; cbn; [by rewrite decide_True|by rewrite decide_False].
Qed.

Lemma dget_dset_ne k k' v d : k ≠ k' → dget k' (dset k v d) = dget k' d.
Proof.
  intros Hne. induction d as [|[k2 v2] d IH]; cbn.
  - by rewrite decide_False by congruence.
  - destruct (decide (k = k2)) as [->|]; cbn.
    + by rewrite !decide_False by congruence.
    + by rewrite IH.
Qed.

Lemma dget_dset k k' v d :
  dget k' (dset k v d) = if decide (k = k') then Some v else dget k' d.
Proof. case_decide; subst; [apply dget_dset_eq|by apply dget_dset_ne]. Qed.

Lemma dkeys_dset_old k v d : k ∈ dkeys d → dkeys (dset k v d) = dkeys d.
Proof.
  unfold dkeys. induction d as [|[k' v'] d IH]; cbn; [by intros ?%elem_of_nil|].
  rewrite elem_of_cons. case_decide; subst; cbn; [done|].
  intros [->|Hin]; [done|]. by rewrite IH.
Qed.

Lemma dset_new k v d : k ∉ dkeys d → dset k v d = d ++ [(k, v)].
Proof.
  unfold dkeys. induction d as [|[k' v'] d IH]; cbn; [done|].
  rewrite not_elem_of_cons. intros [Hne Hn]. rewrite decide_False by congruence.
  by rewrite IH.
Qed.

Lemma elem_of_dkeys_dset k k' v d : k' ∈ dkeys (dset k v d) ↔ k' = k ∨ k' ∈ dkeys d.
Proof.
  rewrite <-!dget_is_Some, dget_dset. destruct (decide (k = k')) as [->|].
  - split; [by left|by eauto].
  - split; [by right|]. by intros [->|].
Qed.

Lemma dict_ok_nil : dict_ok [].
Proof. constructor. Qed.

Lemma dict_ok_dset k v d : dict_ok d → dict_ok (dset k v d).
Proof.
  unfold dict_ok. intros Hok. destruct (decide (k ∈ dkeys d)) as [Hin|Hn].
  - by rewrite dkeys_dset_old.
  - rewrite dset_new by done. unfold dkeys. rewrite fmap_app.
    apply NoDup_app. split_and!; [done| |apply NoDup_singleton].
    intros x Hx ->%list_elem_of_singleton. done.
Qed.

Lemma ddel_sublist k d : sublist (ddel k d) d.
Proof.
  induction d as [|[k' v] d IH]; cbn; [done|]. case_decide.
  - by constructor.
  - by constructor.
Qed.

Lemma elem_of_ddel p k d : p ∈ ddel k d → p ∈ d.
Proof. intros Hp. eapply elem_of_sublist; [exact Hp|apply ddel_sublist]. Qed.

Lemma dict_ok_ddel k d : dict_ok d → dict_ok (ddel k d).
Proof.
  unfold dict_ok, dkeys. intros Hok.
  eapply sublist_NoDup; [exact Hok|]. apply fmap_sublist, ddel_sublist.
Qed.

Lemma dget_ddel_eq k d : dict_ok d → dget k (ddel k d) = None.
Proof.
  unfold dict_ok, dkeys. induction d as [|[k' v] d IH]; cbn; [done|].
  intros [Hn Hok]%NoDup_cons. case_decide; subst; cbn.
  - by apply dget_None.
  - rewrite decide_False by congruence. by apply IH.
Qed.

Lemma dget_ddel_ne k k' d : k ≠ k' → dget k' (ddel k d) = dget k' d.
Proof.
  intros Hne. induction d as [|[k2 v2] d IH]; cbn; [done|].
  destruct (decide (k = k2)) as [->|]; cbn.
  - by rewrite decide_False by congruence.
  - by rewrite IH.
Qed.

Lemma dget_ddel k k' d : dict_ok d →
  dget k' (ddel k d) = if decide (k = k') then None else dget k' d.
Proof. intros. case_decide; subst; [by apply dget_ddel_eq|by apply dget_ddel_ne]. Qed.

Lemma ddel_perm k v d : dget k d = Some v → d ≡ₚ (k, v) :: ddel k d.
Proof.
  induction d as [|[k' v'] d IH]; cbn; [done|]. case_decide; subst.
  - intros [= ->]. done.
  - intros Hk. rewrite (IH Hk) at 1. apply Permutation_swap.
Qed.

Lemma ddel_absent k d : dget k d = None → ddel k d = d.
Proof.
  induction d as [|[k' v'] d IH]; cbn; [done|]. case_decide; [done|].
  intros Hk. by rewrite IH.
Qed.

Lemma dset_perm_old k v w d : dget k d = Some v → dset k w d ≡ₚ (k, w) :: ddel k d.
Proof.
  induction d as [|[k' v'] d IH]; cbn; [done|]. case_decide; subst; [done|].
  intros Hk. rewrite (IH Hk). apply Permutation_swap.
Qed.

Lemma dset_id k v d : dget k d = Some v → dset k v d = d.
Proof.
  induction d as [|[k' v'] d IH]; cbn; [done|]. case_decide; subst.
  - by intros [= ->].
  - intros Hk. by rewrite IH.
Qed.

Lemma dset_perm_new k w d : dget k d = None → dset k w d ≡ₚ (k, w) :: d.
Proof.
  intros Hk%dget_None. rewrite dset_new by done. by rewrite Permutation_app_comm.
Qed.

Lemma length_dset_new k v d : dget k d = None → length (dset k v d) = S (length d).
Proof. intros Hk. by rewrite dset_perm_new. Qed.

Lemma length_ddel k v d : dget k d = Some v → length d = S (length (ddel k d)).
Proof. intros Hk. by rewrite (ddel_perm _ _ _ Hk) at 1. Qed.

Lemma dget_perm k d1 d2 : dict_ok d1 → d1 ≡ₚ d2 → dget k d1 = dget k d2.
Proof.
  intros Hok Hp. assert (dict_ok d2) as Hok2.
  { unfold dict_ok, dkeys in *. by rewrite <-Hp. }
  apply option_eq. intros v. rewrite <-!elem_of_dget by done. by rewrite Hp.
Qed.

Lemma dict_of_app l p : dict_of (l ++ [p]) = dset p.1 p.2 (dict_of l).
Proof. unfold dict_of. by rewrite foldl_app. Qed.

Lemma dict_ok_dict_of l : dict_ok (dict_of l).
Proof.
  induction l as [|p l IH] using rev_ind; [apply dict_ok_nil|].
  rewrite dict_of_app. by apply dict_ok_dset.
Qed.

Lemma dget_dict_of k v l : dget k (dict_of l) = Some v → (k, v) ∈ l.
Proof.
  induction l as [|[k' v'] l IH] using rev_ind; [done|].
  rewrite dict_of_app, dget_dset, elem_of_app. cbn. case_decide; subst.
  - intros [= ->]. right. left.
  - intros Hg. left. by apply IH.
Qed.

(** Building a dictionary from items with distinct keys keeps them all, in
    order. *)
Lemma dict_of_id l : dict_ok l → dict_of l = l.
Proof.
  induction l as [|p l IH] using rev_ind; [done|].
  unfold dict_ok, dkeys. rewrite fmap_app, NoDup_app. intros (Hl & Hn & _).
  rewrite dict_of_app, IH by done. rewrite dset_new.
  - by destruct p.
  - intros Hin. apply (Hn _ Hin). left.
Qed.
End PyDict.

Create HintDb pydict discriminated.
Create Rewrite HintDb pydict.
#[export] Hint Resolve dict_ok_nil dict_ok_dset dict_ok_ddel dict_ok_dict_of : pydict.
#[export] Hint Rewrite @dget_dset_eq @dget_dset @dget_ddel using (auto with pydict) : pydict.

(** Simplify dictionary lookups in the goal. *)
Ltac dict_simpl := autorewrite with pydict in *; repeat case_decide; simplify_eq/=.
#[global] Arguments dget_or : simpl never.
#[global] Arguments dict_of : simpl never.
