(* ===== verification/Vocab.v ===== *)
(** * Closed vocabularies and pure state machines

    [core/reasons.py] (the closed enumerations) and [core/state_machines.py]
    (key lifecycle and activation pipeline as transition tables). *)
From S2P Require Export PyDict.

(** ** [core/reasons.py] *)
Inductive TerminalOutcome :=
| AUTHZ_DENIED | AUTH_STATE_UNAVAILABLE | UNSUPPORTED_REQUEST
| BACKPRESSURE_REJECTED | ROUTE_UNAVAILABLE | DEADLINE_EXCEEDED
| UPSTREAM_FAILED | CLIENT_CANCELLED | RESPONSE_STREAM_FAILED | COMPLETED.

Module RouteTrigger.
Inductive t :=
| PRIMARY | CAPACITY_SPILL | FAILURE_FALLBACK | QUOTA_FALLBACK
| MANUAL_EMERGENCY | SHADOW.
#[global] Instance eq_dec : EqDecision t.
Proof. solve_decision. Defined.
End RouteTrigger.
Abbreviation RouteTrigger := RouteTrigger.t.

Inductive RouteStrategy := ORDERED_CAPACITY.

Inductive EndpointKind :=
| CHAT | TEXT | EMBEDDINGS | RERANK | AUDIO_SPEECH | AUDIO_TRANSCRIPTION | IMAGE.

Module DispatchCause.
Inductive t :=
| PRIMARY | CAPACITY | FAILURE | QUOTA | MANUAL_EMERGENCY | SHADOW.
#[global] Instance eq_dec : EqDecision t.
Proof. solve_decision. Defined.
End DispatchCause.
Abbreviation DispatchCause := DispatchCause.t.

Module FailureCause.
Inductive t := CAPACITY | TRANSIENT_FAILURE | QUOTA | UNKNOWN.
#[global] Instance eq_dec : EqDecision t.
Proof. solve_decision. Defined.
End FailureCause.
Abbreviation FailureCause := FailureCause.t.

Module FailureScope.
Inductive t := ACCOUNT | DEPLOYMENT | UNKNOWN.
#[global] Instance eq_dec : EqDecision t.
Proof. solve_decision. Defined.
End FailureScope.
Abbreviation FailureScope := FailureScope.t.

Module Modality.
Inductive t :=
| CHAT | TEXT | RESPONSES | MESSAGES | EMBEDDING | RERANK | AUDIO_SPEECH
| AUDIO_TRANSCRIPTION | AUDIO_TRANSLATION | IMAGE.
#[global] Instance eq_dec : EqDecision t.
Proof. solve_decision. Defined.
End Modality.
Abbreviation Modality := Modality.t.

Module QuotaDimensionStatus.
Inductive t := KNOWN | UNKNOWN | ATTESTED_ABSENT.
#[global] Instance eq_dec : EqDecision t.
Proof. solve_decision. Defined.
End QuotaDimensionStatus.
Abbreviation QuotaDimensionStatus := QuotaDimensionStatus.t.

Module RequiredFeature.
Inductive t :=
| ORDERED_CAPACITY | WEIGHTED_FAIR_QUEUE | EXPIRY_DENY_OVERLAY
| EMERGENCY_LEG_ACTIVATION | SHADOW_LEGS | CREDENTIAL_GENERATION_FENCE.
#[global] Instance eq_dec : EqDecision t.
Proof. solve_decision. Defined.
End RequiredFeature.
Abbreviation RequiredFeature := RequiredFeature.t.

(** [MAX_MIN_READER = (1, 0)] *)
Definition MAX_MIN_READER : Z * Z := (1, 0).

#[export] Instance TerminalOutcome_eq_dec : EqDecision TerminalOutcome.
Proof. solve_decision. Defined.
#[export] Instance RouteStrategy_eq_dec : EqDecision RouteStrategy.
Proof. solve_decision. Defined.
#[export] Instance EndpointKind_eq_dec : EqDecision EndpointKind.
Proof. solve_decision. Defined.

(** ** [core/state_machines.py] *)
Module KeyLifecycleState.
Inductive t := DRAFT | ENABLED | SUSPENDED | REVOKED.
#[global] Instance eq_dec : EqDecision t.
Proof. solve_decision. Defined.
End KeyLifecycleState.
Abbreviation KeyLifecycleState := KeyLifecycleState.t.

Module CredentialVerifierStatus.
Inductive t := ACTIVE | RETIRING | RETIRED | EXPIRED.
#[global] Instance eq_dec : EqDecision t.
Proof. solve_decision. Defined.
End CredentialVerifierStatus.
Abbreviation CredentialVerifierStatus := CredentialVerifierStatus.t.

Module AccountState.
Inductive t := DRAFT | ACTIVE | DISABLED | TOMBSTONED.
#[global] Instance eq_dec : EqDecision t.
Proof. solve_decision. Defined.
Definition value (s : t) : string :=
  match s with
  | DRAFT => "draft" | ACTIVE => "active" | DISABLED => "disabled" | TOMBSTONED => "tombstoned"
  end.
End AccountState.
Abbreviation AccountState := AccountState.t.

Inductive ActivationStage :=
| PREPARING_BACKEND | BACKEND_READY | STAGING_GATEWAY | GATEWAY_STAGED
| COMMITTING | APPLIED.
#[export] Instance ActivationStage_eq_dec : EqDecision ActivationStage.
Proof. solve_decision. Defined.

(** [_KEY_TRANSITIONS] *)
Definition KEY_TRANSITIONS : dict (KeyLifecycleState * string) KeyLifecycleState :=
  let D := KeyLifecycleState.DRAFT in let E := KeyLifecycleState.ENABLED in
  let S := KeyLifecycleState.SUSPENDED in let R := KeyLifecycleState.REVOKED in
  [ ((D, "activate"), E); ((E, "suspend"), S); ((S, "resume"), E);
    ((D, "revoke"), R); ((E, "revoke"), R); ((S, "revoke"), R);
    ((R, "revoke"), R) ].

Definition key_transition (state : KeyLifecycleState) (event : string)
    : result KeyLifecycleState :=
  match dget (state, event) KEY_TRANSITIONS with
  | Some next => Ok next
  | None => Err (ValueError "illegal key lifecycle event")
  end.

(** [_ACTIVATION_ORDER] *)
Definition ACTIVATION_ORDER : list ActivationStage :=
  [PREPARING_BACKEND; BACKEND_READY; STAGING_GATEWAY; GATEWAY_STAGED;
   COMMITTING; APPLIED].

(** [tuple.index] *)
Fixpoint py_index {A} `{EqDecision A} (x : A) (l : list A) : option nat :=
  match l with
  | [] => None
  | y :: l' => if decide (y = x) then Some O else S <$> py_index x l'
  end.

Definition next_activation_stage (stage : ActivationStage) : result ActivationStage :=
  match py_index stage ACTIVATION_ORDER with
  | None => Err (ValueError "tuple.index(x): x not in tuple")
  | Some index =>
      match ACTIVATION_ORDER !! S index with
      | None => Err (ValueError "activation stage is terminal")
      | Some next => Ok next
      end
  end.

(** *** Runs of the two machines *)

(** Apply events in order; an illegal event stops the run. *)
Fixpoint key_run (state : KeyLifecycleState) (events : list string)
    : result KeyLifecycleState :=
  match events with
  | [] => Ok state
  | e :: es => s ← key_transition state e; key_run s es
  end.

(** One legal lifecycle edge, by rule. *)
Inductive key_step : KeyLifecycleState → KeyLifecycleState → Prop :=
| step_activate : key_step KeyLifecycleState.DRAFT KeyLifecycleState.ENABLED
| step_suspend : key_step KeyLifecycleState.ENABLED KeyLifecycleState.SUSPENDED
| step_resume : key_step KeyLifecycleState.SUSPENDED KeyLifecycleState.ENABLED
| step_revoke s : key_step s KeyLifecycleState.REVOKED.

Fixpoint stage_run (n : nat) (stage : ActivationStage) : result ActivationStage :=
  match n with
  | O => Ok stage
  | S n => s ← next_activation_stage stage; stage_run n s
  end.

Lemma key_transition_step s e s' : key_transition s e = Ok s' → key_step s s'.
Proof.
  unfold key_transition. destruct (dget (s, e) KEY_TRANSITIONS) as [x|] eqn:E;
    [|done]. intros [= ->].
  apply dget_elem_of in E. unfold KEY_TRANSITIONS in E.
  repeat (apply elem_of_cons in E as [E|E]; [injection E as -> -> ->; constructor|]).
  by apply elem_of_nil in E.
Qed.

Lemma key_step_transition s s' : key_step s s' → ∃ e, key_transition s e = Ok s'.
Proof.
  destruct 1 as [| | |[]];
    [by exists "activate"|by exists "suspend"|by exists "resume"|..]; by exists "revoke".
Qed.

Lemma key_run_reachable es : ∀ s s', key_run s es = Ok s' → rtc key_step s s'.
Proof.
  induction es as [|e es IH]; intros s s'; cbn.
  - intros [= ->]. done.
  - intros (s1 & Ht & Hr)%bind_Ok. econstructor; [|by apply IH].
    by eapply key_transition_step.
Qed.

Lemma key_revoked_terminal s : rtc key_step KeyLifecycleState.REVOKED s →
  s = KeyLifecycleState.REVOKED.
Proof.
  remember KeyLifecycleState.REVOKED as r eqn:Er. induction 1 as [|x y z Hxy _ IH]; [done|].
  subst. assert (y = KeyLifecycleState.REVOKED) as -> by (by inversion Hxy). by apply IH.
Qed.

Lemma key_draft_source s : ¬ key_step s KeyLifecycleState.DRAFT.
Proof. by inversion 1. Qed.

(** The key lifecycle table implements exactly the lifecycle edges
    DRAFT → ENABLED ↔ SUSPENDED with revocation from every state: an accepted
    event takes a legal edge, every legal edge is taken by some event, a run
    of events never leaves REVOKED, and no run re-enters DRAFT. *)
Theorem key_lifecycle_correct :
  (∀ s s', key_step s s' ↔ ∃ e, key_transition s e = Ok s') ∧
  (∀ es s, key_run KeyLifecycleState.REVOKED es = Ok s → s = KeyLifecycleState.REVOKED) ∧
  (∀ e es s s', key_run s (e :: es) = Ok s' → s' ≠ KeyLifecycleState.DRAFT).
Proof.
  split_and!.
  - intros s s'. split; [apply key_step_transition|].
    intros [e He]. by eapply key_transition_step.
  - intros es s Hr. by apply key_revoked_terminal, (key_run_reachable es).
  - intros e es s s' Hr. cbn in Hr. apply bind_Ok in Hr as (s1 & Ht & Hr).
    apply key_transition_step in Ht. apply key_run_reachable in Hr.
    destruct (rtc_inv_r _ _ Hr) as [->|(y & _ & Hy)]; intros ->.
    + by apply key_draft_source in Ht.
    + by apply key_draft_source in Hy.
Qed.

(** The activation pipeline is strictly linear: from stage number [i] it
    reaches stage number [i + n] in [n] advances, and the advance after APPLIED
    (exactly the sixth from the start) is refused. *)
Theorem activation_pipeline_linear (i n : nat) (stage : ActivationStage) :
  ACTIVATION_ORDER !! i = Some stage →
  match ACTIVATION_ORDER !! (i + n)%nat with
  | Some final => stage_run n stage = Ok final
  | None => ∃ e, stage_run n stage = Err e
  end.
Proof.
  assert (∀ j s, ACTIVATION_ORDER !! j = Some s → py_index s ACTIVATION_ORDER = Some j) as Hidx.
  { intros [|[|[|[|[|[|j]]]]]] s; cbn; by intros [= <-]. }
  revert i stage. induction n as [|n IH]; intros i stage Hi; cbn [stage_run].
  { by rewrite Nat.add_0_r, Hi. }
  rewrite <-Nat.add_succ_comm. unfold next_activation_stage. rewrite (Hidx _ _ Hi).
  destruct (ACTIVATION_ORDER !! S i) as [s|] eqn:E; cbn [mbind result_bind].
  - by apply IH.
  - destruct (ACTIVATION_ORDER !! (S i + n)%nat) eqn:E2; [|by eauto].
    apply lookup_ge_None in E. apply lookup_lt_Some in E2. lia.
Qed.

(** From PREPARING_BACKEND, five advances apply the bundle. *)
Lemma activation_pipeline_linear_witness :
  stage_run 5 PREPARING_BACKEND = Ok APPLIED ∧ ∃ e, stage_run 6 PREPARING_BACKEND = Err e.
Proof.
  split.
  - exact (activation_pipeline_linear 0 5 PREPARING_BACKEND eq_refl).
  - exact (activation_pipeline_linear 0 6 PREPARING_BACKEND eq_refl).
Defined.
