(* ===== verification/Ids.v ===== *)
(** * Typed identifiers

    [core/ids.py]: an identifier is a string made of its type's prefix and a
    body of fixed shape (a UUID4 or a SHA-256 hex digest).  The regular
    expressions of the source use only literals, character classes and fixed
    repetitions, so a pattern is a list of character classes and [re.fullmatch]
    is positionwise membership. *)
From S2P Require Export Vocab.
From Stdlib Require Import Ascii.

Definition charclass : Type := ascii → bool.
Definition in_range (lo hi c : ascii) : bool :=
  (N.leb (N_of_ascii lo) (N_of_ascii c) && N.leb (N_of_ascii c) (N_of_ascii hi))%N.

(** [[0-9a-f]] *)
Definition hex_class : charclass := λ c, in_range "0" "9" c || in_range "a" "f" c.
(** [[89ab]] *)
Definition variant_class : charclass := λ c, in_range "8" "9" c || in_range "a" "b" c.
Definition literal (s : string) : list charclass :=
  (λ c d, Ascii.eqb c d) <$> String.list_ascii_of_string s.

Fixpoint match_classes (p : list charclass) (cs : list ascii) : bool :=
  match p, cs with
  | [], [] => true
  | f :: p', c :: cs' => f c && match_classes p' cs'
  | _, _ => false
  end.

Definition fullmatch (p : list charclass) (text : string) : bool :=
  match_classes p (String.list_ascii_of_string text).

Definition HEX64_PATTERN : list charclass := replicate 64 hex_class.
Definition UUID4_PATTERN : list charclass :=
  replicate 8 hex_class ++ literal "-" ++ replicate 4 hex_class ++ literal "-4" ++
  replicate 3 hex_class ++ literal "-" ++ [variant_class] ++ replicate 3 hex_class ++
  literal "-" ++ replicate 12 hex_class.

(** The subclasses of [_UuidId] and [_DigestId]. *)
Inductive IdType :=
| AccountId | RequestId | AttemptId | EventId | GatewayBootId | InstallationId
| CommandId | AckId | AuthLeaseId | ProbeToken | RouteGroupId | RouteLegId
| PolicyRevisionId | DeploymentGenerationId | BundleHash.

Definition id_prefix (cls : IdType) : string :=
  match cls with
  | AccountId => "acc_" | RequestId => "req_" | AttemptId => "att_"
  | EventId => "evt_" | GatewayBootId => "boot_" | InstallationId => "inst_"
  | CommandId => "cmd_" | AckId => "ack_" | AuthLeaseId => "al_"
  | ProbeToken => "probe_" | RouteGroupId => "rg_" | RouteLegId => "leg_"
  | PolicyRevisionId => "pol_" | DeploymentGenerationId => "dg1_"
  | BundleHash => "bh_"
  end.

Definition body_pattern (cls : IdType) : list charclass :=
  match cls with
  | DeploymentGenerationId | BundleHash => HEX64_PATTERN
  | _ => UUID4_PATTERN
  end.

Definition id_pattern (cls : IdType) : list charclass :=
  literal (id_prefix cls) ++ body_pattern cls.

(** [_TypedId.__new__] on a given value. *)
Definition typed_id_new (cls : IdType) (text : string) : result string :=
  if fullmatch (id_pattern cls) text then Ok text
  else Err (ValueError "is not a valid identifier").

(** [_fresh_body]: a UUID4 from [uuid.uuid4()] for the UUID types; digest ids
    cannot be minted. *)
Definition fresh_body (cls : IdType) (uuid4 : string) : result string :=
  match cls with
  | DeploymentGenerationId | BundleHash =>
      Err (ValueError "must be built from a digest via from_digest()")
  | _ => Ok uuid4
  end.

(** [cls.new()] *)
Definition id_new (cls : IdType) (uuid4 : string) : result string :=
  body ← fresh_body cls uuid4;
  typed_id_new cls (String.append (id_prefix cls) body).

(** [_DigestId.from_digest] *)
Definition from_digest (cls : IdType) (digest : string) : result string :=
  typed_id_new cls (String.append (id_prefix cls) digest).

Definition valid_id (cls : IdType) (text : string) : Prop :=
  fullmatch (id_pattern cls) text = true.

(** ** Lemmas *)
Lemma list_ascii_append s1 s2 :
  String.list_ascii_of_string (String.append s1 s2) =
  String.list_ascii_of_string s1 ++ String.list_ascii_of_string s2.
Proof. induction s1 as [|a s1 IH]; [done|]. simpl. by rewrite IH. Qed.

Lemma match_classes_app p q cs :
  match_classes (p ++ q) cs = true ↔
  ∃ cs1 cs2, cs = cs1 ++ cs2 ∧ match_classes p cs1 = true ∧ match_classes q cs2 = true.
Proof.
  revert cs. induction p as [|f p IH]; intros cs; cbn.
  { split; [by exists [], cs|]. by intros ([|? ?] & ? & -> & ? & ?). }
  destruct cs as [|c cs].
  { split; [done|]. by intros ([|? ?] & ? & ? & ? & ?). }
  rewrite andb_true_iff, IH. split.
  - intros (Hf & cs1 & cs2 & -> & ? & ?). exists (c :: cs1), cs2. cbn. by rewrite Hf.
  - intros ([|c' cs1] & cs2 & Heq & Hm & ?); [done|]. injection Heq as -> ->.
    apply andb_true_iff in Hm as [??]. eauto 10.
Qed.

Lemma match_literal s cs :
  match_classes (literal s) cs = true ↔ cs = String.list_ascii_of_string s.
Proof.
  unfold literal. revert cs. induction s as [|a s IH]; intros [|c cs]; cbn; try done.
  rewrite andb_true_iff, Ascii.eqb_eq, IH. naive_solver.
Qed.

Lemma list_ascii_inj s1 s2 :
  String.list_ascii_of_string s1 = String.list_ascii_of_string s2 → s1 = s2.
Proof.
  intros Heq. rewrite <-(String.string_of_list_ascii_of_string s1), Heq.
  apply String.string_of_list_ascii_of_string.
Qed.

(** A valid identifier is its type's prefix followed by a matching body. *)
Lemma valid_id_split cls text :
  valid_id cls text ↔ ∃ body, text = String.append (id_prefix cls) body ∧
    fullmatch (body_pattern cls) body = true.
Proof.
  unfold valid_id, fullmatch, id_pattern. rewrite match_classes_app. split.
  - intros (cs1 & cs2 & Heq & Hp%match_literal & Hb).
    exists (String.string_of_list_ascii cs2).
    rewrite String.list_ascii_of_string_of_list_ascii. split; [|done].
    apply list_ascii_inj. rewrite Heq, Hp, list_ascii_append.
    by rewrite String.list_ascii_of_string_of_list_ascii.
  - intros (body & -> & Hb). rewrite list_ascii_append. eexists _, _.
    split; [done|]. by rewrite match_literal.
Qed.

Lemma prefix_append p s : String.prefix p (String.append p s) = true.
Proof.
  induction p as [|a p IH]; [by destruct s|]. simpl.
  by destruct (ascii_dec a a).
Qed.

Lemma prefix_comparable p : ∀ q s, String.prefix p s = true → String.prefix q s = true →
  String.prefix p q = true ∨ String.prefix q p = true.
Proof.
  induction p as [|a p IH]; intros [|b q] [|c s]; simpl; auto; try discriminate.
  destruct (ascii_dec a c) as [->|]; [|discriminate].
  destruct (ascii_dec b c) as [->|]; [|discriminate].
  destruct (ascii_dec c c); [apply IH|contradiction].
Qed.

Lemma id_prefix_free k1 k2 :
  String.prefix (id_prefix k1) (id_prefix k2) = true → k1 = k2.
Proof. destruct k1, k2; first [reflexivity|discriminate]. Qed.

Lemma valid_id_type_unique k1 k2 text : valid_id k1 text → valid_id k2 text → k1 = k2.
Proof.
  intros (b1 & H1 & _)%valid_id_split (b2 & H2 & _)%valid_id_split.
  destruct (prefix_comparable (id_prefix k1) (id_prefix k2) text).
  - rewrite H1. apply prefix_append.
  - rewrite H2. apply prefix_append.
  - by apply id_prefix_free.
  - symmetry. by apply id_prefix_free.
Qed.

Lemma typed_id_new_Ok cls text t :
  typed_id_new cls text = Ok t ↔ t = text ∧ valid_id cls text.
Proof. unfold typed_id_new, valid_id. destruct (fullmatch _ _); naive_solver. Qed.

(** Identifier types are disjoint and never silently coerced: the
    constructor returns its argument unchanged or raises, no text is accepted
    by the constructors of two different id types, and wrapping a body under a
    type's prefix is accepted exactly when the body has the type's shape. *)
Theorem typed_ids_disjoint (k1 k2 : IdType) (text body t1 t2 : string) :
  typed_id_new k1 text = Ok t1 → typed_id_new k2 text = Ok t2 →
  k1 = k2 ∧ t1 = text ∧
  (is_ok (from_digest k1 body) = true ↔ fullmatch (body_pattern k1) body = true).
Proof.
  intros [-> Hv1]%typed_id_new_Ok [-> Hv2]%typed_id_new_Ok. split_and!; [|done|].
  - by eapply valid_id_type_unique.
  - unfold from_digest, typed_id_new.
    destruct (fullmatch (id_pattern k1) _) eqn:E; cbn; split; try done; intros Hb.
    + apply valid_id_split in E as (b & Heq & Hb').
      assert (b = body) as ->; [|done].
      apply (f_equal String.list_ascii_of_string) in Heq.
      rewrite !list_ascii_append in Heq. apply (inj (app _)) in Heq.
      symmetry. by apply list_ascii_inj.
    + exfalso. enough (valid_id k1 (String.append (id_prefix k1) body)) by congruence.
      apply valid_id_split. eauto.
Qed.

(** The account id of the source's test-suite form is accepted. *)
Lemma typed_ids_disjoint_witness :
  let text : string := "acc_00000000-0000-4000-8000-000000000001" in
  AccountId = AccountId ∧ text = text ∧
  (is_ok (from_digest AccountId "00000000-0000-4000-8000-000000000002") = true ↔
   fullmatch (body_pattern AccountId) "00000000-0000-4000-8000-000000000002" = true).
Proof.
  intros text.
  exact (typed_ids_disjoint AccountId AccountId text
    "00000000-0000-4000-8000-000000000002" text text eq_refl eq_refl).
Defined.
