(* ===== verification/KeyMaterial.v ===== *)
(** * Client-key material

    [core/key_material.py]: the grammar of client keys.  Bytes are lists of
    8-bit characters; the parts of Python's [base64] module the file calls are
    written out on 6-bit digits.  HMAC-SHA-256 is the parameter [hmac_sha256]
    of the functions that take a digest. *)
From S2P Require Export Ids.
From Stdlib Require Import Ascii.

Definition bytes : Type := list ascii.
Definition byte_value (c : ascii) : Z := Z.of_N (N_of_ascii c).
Definition byte_of (z : Z) : ascii := ascii_of_N (Z.to_N z).

Definition CLIENT_KEY_DOMAIN : bytes :=
  String.list_ascii_of_string "llmmaxxing-client-key-v1" ++ [byte_of 0].
Definition LEGACY_CLIENT_KEY_DOMAIN : bytes :=
  String.list_ascii_of_string "llmmaxxing-legacy-client-key-v1" ++ [byte_of 0].
Definition MAX_LEGACY_TOKEN_BYTES : Z := 512.
Definition KEY_ID_BYTES : nat := 16.
Definition SECRET_BYTES : nat := 32.

Definition InvalidClientKeyMaterial : exn := ValueError "invalid client key".

(** ** Base64 *)

(** The alphabet with [altchars=b"-_"]; the standard characters stay
    accepted on input. *)
Definition alphabet : list ascii := String.list_ascii_of_string
  "ABCDEFGHIJKLMNOPQRSTUVWXYZabcdefghijklmnopqrstuvwxyz0123456789-_".
Definition digit_char (z : Z) : ascii := nth (Z.to_nat z) alphabet "A"%char.
Definition char_digit (c : ascii) : option Z :=
  let z := byte_value c in
  if in_range "A" "Z" c then Some (z - 65)
  else if in_range "a" "z" c then Some (z - 71)
  else if in_range "0" "9" c then Some (z + 4)
  else if Ascii.eqb c "-" || Ascii.eqb c "+" then Some 62
  else if Ascii.eqb c "_" || Ascii.eqb c "/" then Some 63
  else None.

(** Six-bit digits of bytes; the last group has no padding. *)
Fixpoint digits (l : list Z) : list Z :=
  match l with
  | a :: b :: c :: l =>
      a / 4 :: a mod 4 * 16 + b / 16 :: b mod 16 * 4 + c / 64 :: c mod 64 :: digits l
  | [a; b] => [a / 4; a mod 4 * 16 + b / 16; b mod 16 * 4]
  | [a] => [a / 4; a mod 4 * 16]
  | [] => []
  end.

(** The bytes of digits; the spare bits of the last group are ignored, and one
    digit alone is refused. *)
Fixpoint undigits (l : list Z) : option (list Z) :=
  match l with
  | a :: b :: c :: d :: l =>
      rest ← undigits l;
      Some (a * 4 + b / 16 :: b mod 16 * 16 + c / 4 :: c mod 4 * 64 + d :: rest)
  | [a; b; c] => Some [a * 4 + b / 16; b mod 16 * 16 + c / 4]
  | [a; b] => Some [a * 4 + b / 16]
  | [_] => None
  | [] => Some []
  end.

(** [_encode] *)
Definition encode (value : bytes) : list ascii := digit_char <$> digits (byte_value <$> value).

(** [base64.b64decode(value + padding, altchars, validate=True)] *)
Definition b64decode (value : list ascii) : option bytes :=
  match mapM (M := option) char_digit value ≫= undigits with
  | Some bs => Some (byte_of <$> bs)
  | None => None
  end.

(** [_decode_canonical] *)
Definition decode_canonical (value : list ascii) (expected_bytes : nat) : result bytes :=
  match b64decode value with
  | None => Err InvalidClientKeyMaterial
  | Some decoded =>
      raise_if (negb (Nat.eqb (length decoded) expected_bytes) ||
                negb (bool_decide (encode decoded = value))) InvalidClientKeyMaterial;;
      mret decoded
  end.

(** [bytes.hex()], [bytes.fromhex()] *)
Definition hex_char (z : Z) : ascii :=
  nth (Z.to_nat z) (String.list_ascii_of_string "0123456789abcdef") "0"%char.
Definition hex_list (b : bytes) : list ascii :=
  b ≫= λ c, [hex_char (byte_value c / 16); hex_char (byte_value c mod 16)].
Definition hex (b : bytes) : string := String.string_of_list_ascii (hex_list b).

Definition hex_digit (c : ascii) : option Z :=
  let z := byte_value c in
  if in_range "0" "9" c then Some (z - 48)
  else if in_range "a" "f" c then Some (z - 87)
  else if in_range "A" "F" c then Some (z - 55)
  else None.
Fixpoint unhex (l : list ascii) : option bytes :=
  match l with
  | [] => Some []
  | a :: b :: l =>
      h ← hex_digit a; k ← hex_digit b; rest ← unhex l;
      Some (byte_of (h * 16 + k) :: rest)
  | [_] => None
  end.
Definition fromhex (s : string) : result bytes :=
  match unhex (String.list_ascii_of_string s) with
  | Some b => Ok b
  | None => Err (ValueError "non-hexadecimal number found in fromhex() arg")
  end.

(** ** The grammar *)
Module ParsedClientKey.
Record t := mk { key_id : string; key_id_bytes : bytes; secret : bytes }.
#[global] Instance eq_dec : EqDecision t.
Proof. solve_decision. Defined.
End ParsedClientKey.
Abbreviation ParsedClientKey := ParsedClientKey.t.

Module ParsedLegacyClientKey.
Record t := mk { token : bytes }.
#[global] Instance eq_dec : EqDecision t.
Proof. solve_decision. Defined.
End ParsedLegacyClientKey.
Abbreviation ParsedLegacyClientKey := ParsedLegacyClientKey.t.

(** [[A-Za-z0-9_-]] *)
Definition token_class : charclass := λ c,
  in_range "A" "Z" c || in_range "a" "z" c || in_range "0" "9" c ||
  Ascii.eqb c "_" || Ascii.eqb c "-".
Definition TOKEN_RE : list charclass :=
  literal "lmxk1." ++ replicate 22 token_class ++ literal "." ++ replicate 43 token_class.

(** [match.group(1)], [match.group(2)] *)
Definition group1 (l : list ascii) : list ascii := take 22 (drop 6 l).
Definition group2 (l : list ascii) : list ascii := drop 29 l.

Definition parse_client_key_material (value : string) : result ParsedClientKey :=
  let l := String.list_ascii_of_string value in
  raise_if (negb (fullmatch TOKEN_RE value)) InvalidClientKeyMaterial;;
  key_id_bytes ← decode_canonical (group1 l) KEY_ID_BYTES;
  secret ← decode_canonical (group2 l) SECRET_BYTES;
  mret (ParsedClientKey.mk (hex key_id_bytes) key_id_bytes secret).

(** [^sk-[\x21-\x7e]{5,509}$] *)
Definition printable : charclass := λ c, (33 <=? byte_value c) && (byte_value c <=? 126).
Definition legacy_token_matches (l : list ascii) : bool :=
  match_classes (literal "sk-") (take 3 l) && forallb printable (drop 3 l) &&
  (5 <=? Z.of_nat (length (drop 3 l))) && (Z.of_nat (length (drop 3 l)) <=? 509).

(** A string holds the characters below U+0100; [encode("ascii")] refuses those
    from U+0080. *)
Definition parse_legacy_client_key_material (value : string) : result ParsedLegacyClientKey :=
  let encoded := String.list_ascii_of_string value in
  raise_if (existsb (λ c, 128 <=? byte_value c) encoded) InvalidClientKeyMaterial;;
  raise_if (negb (legacy_token_matches encoded) ||
            (MAX_LEGACY_TOKEN_BYTES <? Z.of_nat (length encoded)) ||
            existsb (λ c, (byte_value c <=? 32) || (byte_value c =? 127)) encoded)
    InvalidClientKeyMaterial;;
  mret (ParsedLegacyClientKey.mk encoded).

Definition format_client_key (key_id secret : bytes) : result string :=
  raise_if (negb (Nat.eqb (length key_id) KEY_ID_BYTES) ||
            negb (Nat.eqb (length secret) SECRET_BYTES))
    (ValueError "client key requires 128-bit ID and 256-bit secret");;
  mret (String.string_of_list_ascii
    (String.list_ascii_of_string "lmxk1." ++ encode key_id ++ ["."%char] ++ encode secret)).

Section Verifiers.
Context (hmac_sha256 : bytes → bytes → bytes).

Definition compute_client_key_verifier (pepper key_id secret : bytes) : result bytes :=
  raise_if (negb (Nat.eqb (length key_id) KEY_ID_BYTES) ||
            negb (Nat.eqb (length secret) SECRET_BYTES))
    (ValueError "client key verifier requires 128-bit ID and 256-bit secret");;
  mret (hmac_sha256 pepper (CLIENT_KEY_DOMAIN ++ key_id ++ secret)).

Definition compute_legacy_key_fingerprint (pepper value : bytes) : result bytes :=
  raise_if ((Z.of_nat (length pepper) <? 32) ||
            (MAX_LEGACY_TOKEN_BYTES <? Z.of_nat (length value)) ||
            negb (match_classes (literal "sk-") (take 3 value)))
    (ValueError "invalid legacy client key fingerprint input");;
  mret (hmac_sha256 pepper (LEGACY_CLIENT_KEY_DOMAIN ++ value)).
End Verifiers.

(** ** Round trips *)
Module KeyMaterialFacts.

Lemma byte_value_range c : 0 ≤ byte_value c < 256.
Proof. unfold byte_value. pose proof (N_ascii_bounded c). lia. Qed.

Lemma byte_of_value c : byte_of (byte_value c) = c.
Proof. unfold byte_of, byte_value. by rewrite N2Z.id, ascii_N_embedding. Qed.

Lemma byte_value_of z : 0 ≤ z < 256 → byte_value (byte_of z) = z.
Proof.
  intros Hz. unfold byte_of, byte_value. rewrite N_ascii_embedding by lia. lia.
Qed.

(** Division facts by [lia]. *)
Ltac div_lia := Z.div_mod_to_equations; lia.

Lemma joined_div x y n : 0 ≤ y < n → (x * n + y) / n = x.
Proof. intros H. rewrite Z.div_add_l, Z.div_small by lia. lia. Qed.

Lemma joined_mod x y n : 0 ≤ y < n → (x * n + y) mod n = y.
Proof. intros H. rewrite Z.add_comm, Z.mod_add, Z.mod_small by lia. lia. Qed.

Lemma split_byte z n : n ≠ 0 → z / n * n + z mod n = z.
Proof. intros H. rewrite (Z.div_mod z n H) at 3. lia. Qed.

Lemma undigits_digits l : Forall (λ z, 0 ≤ z < 256) l → undigits (digits l) = Some l.
Proof.
  assert (∀ a b, 0 ≤ a < 256 → 0 ≤ b < 256 →
    a / 4 * 4 + (a mod 4 * 16 + b / 16) / 16 = a) as H1.
  { intros a b Ha Hb. rewrite joined_div by div_lia. by apply split_byte. }
  assert (∀ a b c, 0 ≤ b < 256 → 0 ≤ c < 256 →
    (a mod 4 * 16 + b / 16) mod 16 * 16 + (b mod 16 * 4 + c / 64) / 4 = b) as H2.
  { intros a b c Hb Hc. rewrite joined_mod, joined_div by div_lia. by apply split_byte. }
  assert (∀ b c, 0 ≤ c < 256 → (b mod 16 * 4 + c / 64) mod 4 * 64 + c mod 64 = c) as H3.
  { intros b c Hc. rewrite joined_mod by div_lia. by apply split_byte. }
  revert l. fix IH 1. intros [|a [|b [|c l]]] Hl; cbn; rewrite ?Forall_cons in Hl; [done|..].
  - destruct Hl as [Ha _]. specialize (H1 a 0 Ha). rewrite Z.div_0_l, Z.add_0_r in H1 by lia.
    f_equal. f_equal. apply H1. lia.
  - destruct Hl as (Ha & Hb & _). specialize (H2 a b 0 Hb).
    rewrite Z.div_0_l, Z.add_0_r in H2 by lia. by rewrite H1, H2 by lia.
  - destruct Hl as (Ha & Hb & Hc & Hl). rewrite (IH l Hl). cbn. by rewrite H1, H2, H3.
Qed.

(** The four shapes of a 6-bit digit. *)
Lemma digit_high a : 0 ≤ a < 256 → 0 ≤ a / 4 < 64.
Proof. intros. div_lia. Qed.
Lemma digit_two a b : 0 ≤ b < 256 → 0 ≤ a mod 4 * 16 + b / 16 < 64.
Proof. intros. pose proof (Z.mod_pos_bound a 4). div_lia. Qed.
Lemma digit_three b c : 0 ≤ c < 256 → 0 ≤ b mod 16 * 4 + c / 64 < 64.
Proof. intros. pose proof (Z.mod_pos_bound b 16). div_lia. Qed.
Lemma digit_low c : 0 ≤ c mod 64 < 64.
Proof. apply Z.mod_pos_bound. lia. Qed.
Lemma digit_two_end a : 0 ≤ a mod 4 * 16 < 64.
Proof. pose proof (Z.mod_pos_bound a 4). lia. Qed.
Lemma digit_three_end b : 0 ≤ b mod 16 * 4 < 64.
Proof. pose proof (Z.mod_pos_bound b 16). lia. Qed.
Create HintDb digit discriminated.
#[local] Hint Resolve digit_high digit_two digit_three digit_low digit_two_end digit_three_end
  : digit.

Lemma digits_range l : Forall (λ z, 0 ≤ z < 256) l → Forall (λ z, 0 ≤ z < 64) (digits l).
Proof.
  revert l. fix IH 1. intros [|a [|b [|c l]]] Hl; cbn; rewrite ?Forall_cons in Hl; [done|..].
  - destruct Hl as [Ha _]. repeat apply Forall_cons_2; auto with digit.
  - destruct Hl as (Ha & Hb & _). repeat apply Forall_cons_2; auto with digit.
  - destruct Hl as (Ha & Hb & Hc & Hl). repeat apply Forall_cons_2; auto with digit.
Qed.

Lemma forallb_range (f : Z → bool) n : forallb (λ i, f (Z.of_nat i)) (seq 0 n) = true →
  ∀ z, 0 ≤ z < Z.of_nat n → f z = true.
Proof.
  intros H z Hz. rewrite <-(Z2Nat.id z) by lia.
  apply (proj1 (forallb_forall _ _) H (Z.to_nat z)). apply in_seq. lia.
Qed.

Lemma char_digit_char z : 0 ≤ z < 64 → char_digit (digit_char z) = Some z.
Proof.
  intros Hz. pose proof (forallb_range (λ z, match char_digit (digit_char z) with
    Some d => d =? z | None => false end) 64 eq_refl z Hz) as H. cbn beta in H.
  destruct (char_digit _); [|done]. by apply Z.eqb_eq in H as ->.
Qed.

Lemma b64decode_encode b : b64decode (encode b) = Some b.
Proof.
  assert (Forall (λ z, 0 ≤ z < 256) (byte_value <$> b)) as Hb.
  { apply Forall_fmap, Forall_true, byte_value_range. }
  unfold b64decode, encode.
  assert (∀ l, Forall (λ z, 0 ≤ z < 64) l → mapM char_digit (digit_char <$> l) = Some l) as Hm.
  { intros l Hl. induction Hl as [|z l Hz _ IH]; [done|]. cbn [fmap list_fmap mapM].
    by rewrite char_digit_char, IH by done. }
  rewrite Hm by by apply digits_range. cbn. rewrite undigits_digits by done.
  f_equal. rewrite <-list_fmap_compose. rewrite <-(list_fmap_id b) at 2.
  apply list_fmap_ext. intros i c _. apply byte_of_value.
Qed.

Lemma decode_encode b n : length b = n → decode_canonical (encode b) n = Ok b.
Proof.
  intros <-. unfold decode_canonical. rewrite b64decode_encode, Nat.eqb_refl.
  by rewrite bool_decide_true.
Qed.

Lemma decode_canonical_Ok v n b : decode_canonical v n = Ok b → length b = n ∧ encode b = v.
Proof.
  unfold decode_canonical. destruct (b64decode v) as [b'|]; [|done]. intros H. inv_ok H. subst b'.
  bprop in G. destruct G as [G1 G2]. by rewrite Nat.eqb_eq in G1.
Qed.

(** Encoded text is made of token characters. *)
Lemma encode_class b : forallb token_class (encode b) = true.
Proof.
  apply forallb_forall. intros c Hc. apply list_elem_of_In, list_elem_of_fmap in Hc as (z & -> & Hz).
  assert (0 ≤ z < 64) as Hr.
  { apply (proj1 (Forall_forall (λ z, 0 ≤ z < 64) (digits (byte_value <$> b)))); [|done].
    apply digits_range, Forall_fmap, Forall_true, byte_value_range. }
  apply (forallb_range (λ z, token_class (digit_char z)) 64); [by vm_compute|done].
Qed.

Lemma length_encode_id b : length b = KEY_ID_BYTES → length (encode b) = 22%nat.
Proof. intros H. do 16 (destruct b as [|? b]; [done|]). by destruct b. Qed.
Lemma length_encode_secret b : length b = SECRET_BYTES → length (encode b) = 43%nat.
Proof. intros H. do 32 (destruct b as [|? b]; [done|]). by destruct b. Qed.

Lemma match_replicate f n cs :
  match_classes (replicate n f) cs = true ↔ length cs = n ∧ forallb f cs = true.
Proof.
  revert cs. induction n as [|n IH]; intros [|c cs]; cbn; try (by intuition congruence).
  rewrite !andb_true_iff, IH. split; [|lia || intuition congruence].
  intuition congruence.
Qed.

(** What the token pattern matches. *)
Lemma token_matches value : fullmatch TOKEN_RE value = true ↔
  ∃ x y, String.list_ascii_of_string value =
      String.list_ascii_of_string "lmxk1." ++ x ++ ["."%char] ++ y ∧
    length x = 22%nat ∧ length y = 43%nat ∧
    forallb token_class x = true ∧ forallb token_class y = true.
Proof.
  unfold fullmatch, TOKEN_RE. rewrite match_classes_app. setoid_rewrite match_classes_app.
  setoid_rewrite match_classes_app. setoid_rewrite match_literal.
  setoid_rewrite match_replicate. split.
  - intros (? & ? & -> & -> & x & ? & -> & [Hx Hcx] & ? & y & -> & -> & Hy & Hcy).
    by exists x, y.
  - intros (x & y & Hv & Hx & Hy & Hcx & Hcy). rewrite Hv.
    exists (String.list_ascii_of_string "lmxk1."), (x ++ ["."%char] ++ y). split_and!; [done..|].
    exists x, (["."%char] ++ y). split_and!; [done..|]. by exists ["."%char], y.
Qed.

Lemma hex_digit_char z : 0 ≤ z < 16 → hex_digit (hex_char z) = Some z.
Proof.
  intros Hz. pose proof (forallb_range (λ z, match hex_digit (hex_char z) with
    Some d => d =? z | None => false end) 16 eq_refl z Hz) as H. cbn beta in H.
  destruct (hex_digit _); [|done]. by apply Z.eqb_eq in H as ->.
Qed.

Lemma fromhex_hex b : fromhex (hex b) = Ok b.
Proof.
  unfold fromhex, hex. rewrite String.list_ascii_of_string_of_list_ascii.
  enough (unhex (hex_list b) = Some b) as -> by done.
  induction b as [|c b IH]; [done|].
  pose proof (byte_value_range c).
  change (hex_list (c :: b)) with
    (hex_char (byte_value c / 16) :: hex_char (byte_value c mod 16) :: hex_list b).
  cbn [unhex]. rewrite !hex_digit_char by div_lia. cbn [mbind option_bind]. rewrite IH.
  cbn [mbind option_bind]. by rewrite split_byte, byte_of_value by done.
Qed.

Lemma hex_inj a b : hex a = hex b → a = b.
Proof. intros H. pose proof (fromhex_hex a) as Ha. rewrite H, fromhex_hex in Ha. by injection Ha. Qed.

Lemma format_Ok k s v : format_client_key k s = Ok v →
  length k = KEY_ID_BYTES ∧ length s = SECRET_BYTES ∧
  String.list_ascii_of_string v =
    String.list_ascii_of_string "lmxk1." ++ encode k ++ ["."%char] ++ encode s.
Proof.
  unfold format_client_key. intros H. inv_ok H. subst v. bprop in G.
  cbn [String.list_ascii_of_string]. rewrite String.list_ascii_of_string_of_list_ascii. destruct G as [G1 G2].
  rewrite Nat.eqb_eq in G1, G2. done.
Qed.

Lemma format_lengths k s : length k = KEY_ID_BYTES → length s = SECRET_BYTES →
  format_client_key k s = Ok (String.string_of_list_ascii
    (String.list_ascii_of_string "lmxk1." ++ encode k ++ ["."%char] ++ encode s)).
Proof. intros Hk Hs. unfold format_client_key. by rewrite Hk, Hs. Qed.

Lemma parse_format k s v : format_client_key k s = Ok v →
  parse_client_key_material v = Ok (ParsedClientKey.mk (hex k) k s).
Proof.
  intros (Hk & Hs & Hv)%format_Ok. unfold parse_client_key_material.
  pose proof (length_encode_id k Hk) as Hek.
  assert (fullmatch TOKEN_RE v = true) as ->.
  { apply token_matches. exists (encode k), (encode s).
    auto using length_encode_secret, encode_class. }
  rewrite Hv. cbn [negb raise_if mbind].
  change (group1 _) with (take 22 (encode k ++ ["."%char] ++ encode s)).
  change (group2 _) with (drop 23 (encode k ++ ["."%char] ++ encode s)).
  rewrite take_app_length' by done. rewrite drop_app_ge, Hek by (rewrite Hek; lia).
  cbn [Nat.sub drop app]. rewrite decode_encode by done. cbn [mbind result_bind].
  by rewrite drop_0, decode_encode by done.
Qed.

Lemma parse_Ok v p : parse_client_key_material v = Ok p →
  p.(ParsedClientKey.key_id) = hex p.(ParsedClientKey.key_id_bytes) ∧
  format_client_key p.(ParsedClientKey.key_id_bytes) p.(ParsedClientKey.secret) = Ok v.
Proof.
  unfold parse_client_key_material. intros H. inv_ok H. subst p. cbn. split; [done|].
  apply decode_canonical_Ok in G0 as [Hk Ek], G1 as [Hs Es].
  rewrite format_lengths, Ek, Es by done. bprop in G.
  apply token_matches in G as (ks & ss & Hv & Hx & Hy & _). rewrite Hv. f_equal.
  rewrite <-(String.string_of_list_ascii_of_string v), Hv. f_equal.
  unfold group1, group2.
  change (drop 6 _) with (ks ++ ["."%char] ++ ss).
  change (drop 29 _) with (drop 23 (ks ++ ["."%char] ++ ss)).
  rewrite take_app_length' by done. rewrite drop_app_ge, Hx by (rewrite Hx; lia). done.
Qed.

Lemma parse_Err v e : parse_client_key_material v = Err e → e = InvalidClientKeyMaterial.
Proof.
  unfold parse_client_key_material, decode_canonical, raise_if.
  repeat (case_match; cbn [mbind result_bind mret result_ret]); naive_solver.
Qed.

End KeyMaterialFacts.

(** A client key is a canonical encoding: every 128-bit id and 256-bit
    secret are written as one token that parses back to them, a token that
    parses is exactly the one its parts are written as (so two tokens never
    carry the same parts), anything else raises [InvalidClientKeyMaterial], and
    the printed id decodes to the id. *)
Theorem key_material_round_trip :
  (∀ id secret, length id = KEY_ID_BYTES → length secret = SECRET_BYTES →
    ∃ token, format_client_key id secret = Ok token ∧
      parse_client_key_material token = Ok (ParsedClientKey.mk (hex id) id secret)) ∧
  (∀ token, match parse_client_key_material token with
    | Ok p => p.(ParsedClientKey.key_id) = hex p.(ParsedClientKey.key_id_bytes) ∧
        format_client_key p.(ParsedClientKey.key_id_bytes) p.(ParsedClientKey.secret) = Ok token
    | Err e => e = InvalidClientKeyMaterial
    end) ∧
  (∀ id, fromhex (hex id) = Ok id).
Proof.
  split_and!.
  - intros id secret Hi Hs. pose proof (KeyMaterialFacts.format_lengths id secret Hi Hs) as H.
    eexists. split; [exact H|]. by apply KeyMaterialFacts.parse_format.
  - intros token. destruct (parse_client_key_material token) as [p|e] eqn:E.
    + by apply KeyMaterialFacts.parse_Ok.
    + by apply KeyMaterialFacts.parse_Err in E.
  - apply KeyMaterialFacts.fromhex_hex.
Qed.

Lemma key_material_round_trip_witness :
  ∃ token, format_client_key (replicate 16 "7"%char) (replicate 32 "k"%char) = Ok token ∧
    parse_client_key_material token =
      Ok (ParsedClientKey.mk (hex (replicate 16 "7"%char)) (replicate 16 "7"%char)
        (replicate 32 "k"%char)).
Proof. apply (proj1 key_material_round_trip); reflexivity. Defined.

(** A non-canonical final character is refused, although base64 decodes it. *)
Example non_canonical_refused :
  is_ok (parse_client_key_material
    "lmxk1.AAAAAAAAAAAAAAAAAAAAAA.AAAAAAAAAAAAAAAAAAAAAAAAAAAAAAAAAAAAAAAAAAA") = true ∧
  parse_client_key_material
    "lmxk1.AAAAAAAAAAAAAAAAAAAAAB.AAAAAAAAAAAAAAAAAAAAAAAAAAAAAAAAAAAAAAAAAAA" =
    Err InvalidClientKeyMaterial.
Proof. by vm_compute. Qed.
