(* ===== verification/Canonical.v ===== *)
(** * Canonical JSON

    [core/canonical.py]: the RFC 8785 serialization of JSON values, the order
    normalisation of bundle collections and the domain-separated hash.  A Python
    [str] is the list of its code points; bytes are those of [KeyMaterial].  A
    finite float is what [repr(abs(value))] reads, which determines it, with its
    sign.  SHA-256 is the parameter [sha256]. *)
From S2P Require Export KeyMaterial PyDict.
From Stdlib Require Import Ascii.

(** ** Strings *)
Definition ustr : Type := list Z.
Definition ascii_text (s : string) : ustr := byte_value <$> String.list_ascii_of_string s.
Definition literal_bytes (s : string) : bytes := String.list_ascii_of_string s.

Definition is_surrogate (c : Z) : bool := (0xD800 <=? c) && (c <=? 0xDFFF).
(** [str.encode()]: UTF-8 has no encoding of a lone surrogate. *)
Definition utf8_char (c : Z) : list Z :=
  if c <? 0x80 then [c]
  else if c <? 0x800 then [0xC0 + c / 64; 0x80 + c mod 64]
  else if c <? 0x10000 then [0xE0 + c / 4096; 0x80 + c / 64 mod 64; 0x80 + c mod 64]
  else [0xF0 + c / 262144; 0x80 + c / 4096 mod 64; 0x80 + c / 64 mod 64; 0x80 + c mod 64].
Definition encodable (s : ustr) : bool := forallb (λ c, negb (is_surrogate c)) s.
Definition surrogate_error : exn := ValueError "surrogates not allowed".
Definition encode_utf8 (s : ustr) : result bytes :=
  raise_if (negb (encodable s)) surrogate_error;;
  mret (byte_of <$> (s ≫= utf8_char)).

(** [key.encode("utf-16-be")]: two bytes for each code unit. *)
Definition utf16_char (c : Z) : list Z :=
  if c <? 0x10000 then [c / 256; c mod 256]
  else let h := 0xD800 + (c - 0x10000) / 1024 in let l := 0xDC00 + (c - 0x10000) mod 1024 in
       [h / 256; h mod 256; l / 256; l mod 256].
Definition utf16_be (s : ustr) : list Z := s ≫= utf16_char.

(** The order of Python's [bytes] and [str]. *)
Fixpoint lex_leb (l1 l2 : list Z) : bool :=
  match l1, l2 with
  | [], _ => true
  | _ :: _, [] => false
  | x :: l1, y :: l2 => if x =? y then lex_leb l1 l2 else x <? y
  end.

(** ** Numbers *)
(** [repr] of a positive finite float: [whole[.frac][e±exponent]]. *)
Module FloatRepr.
Record t := mk { whole : list Z; frac : list Z; exponent : Z }.
#[global] Instance eq_dec : EqDecision t.
Proof. solve_decision. Defined.
(** The shape of a [repr]: digits, no leading zero but in a lone [0], which is
    never followed by an exponent. *)
Definition ok (r : t) : Prop :=
  Forall (λ d, 0 ≤ d ≤ 9) (whole r ++ frac r) ∧ whole r ≠ [] ∧
  (whole r = [0] ∧ exponent r = 0 ∨ head (whole r) ≠ Some 0).
End FloatRepr.
Abbreviation FloatRepr := FloatRepr.t.

Inductive non_finite := NaN | Infinity (negative : bool).
Inductive float :=
| Finite (negative : bool) (abs : FloatRepr)
| NonFinite (value : non_finite).

Definition digit_text (d : Z) : ascii := byte_of (48 + d).
Definition decimal_text (ds : list Z) : bytes := digit_text <$> ds.
(** [str(n)] for [0 <= n]. *)
Fixpoint decimal_loop (fuel : nat) (n : Z) (acc : list Z) : list Z :=
  match fuel with
  | O => acc
  | S fuel => if n <? 10 then n :: acc else decimal_loop fuel (n / 10) (n mod 10 :: acc)
  end.
Definition decimal (n : Z) : list Z := decimal_loop (S (Z.to_nat (Z.log2 n))) n [].
Definition sign_text (negative : bool) : bytes := if negative then literal_bytes "-" else [].
Definition str_int (z : Z) : bytes := sign_text (z <? 0) ++ decimal_text (decimal (Z.abs z)).

Fixpoint lstrip (l : list Z) : list Z :=
  match l with
  | d :: l' => if d =? 0 then lstrip l' else l
  | [] => []
  end.
Definition rstrip (l : list Z) : list Z := rev (lstrip (rev l)).
Definition zeros (n : Z) : list Z := replicate (Z.to_nat n) 0.
Definition zlen {A} (l : list A) : Z := Z.of_nat (length l).

(** [digits] and [n], the position of the first significant digit. *)
Definition significant (r : FloatRepr) : list Z :=
  match rstrip (lstrip (FloatRepr.whole r ++ FloatRepr.frac r)) with [] => [0] | l => l end.
Definition point (r : FloatRepr) : Z :=
  if bool_decide (FloatRepr.whole r = [0])
  then - (zlen (FloatRepr.frac r) - zlen (lstrip (FloatRepr.frac r)))
  else zlen (FloatRepr.whole r) + FloatRepr.exponent r.

(** [_es6_number] *)
Definition es6_layout (digits : list Z) (n : Z) : bytes :=
  let k := zlen digits in
  if (k <=? n) && (n <=? 21) then decimal_text (digits ++ zeros (n - k))
  else if (0 <? n) && (n <=? 21) then
    decimal_text (take (Z.to_nat n) digits) ++ literal_bytes "." ++
    decimal_text (drop (Z.to_nat n) digits)
  else if (-6 <? n) && (n <=? 0) then
    literal_bytes "0." ++ decimal_text (zeros (- n) ++ digits)
  else
    decimal_text (take 1 digits) ++
    (if 1 <? k then literal_bytes "." ++ decimal_text (drop 1 digits) else []) ++
    literal_bytes "e" ++ literal_bytes (if 0 <=? n - 1 then "+" else "-") ++
    decimal_text (decimal (Z.abs (n - 1))).
Definition is_zero (r : FloatRepr) : bool :=
  forallb (λ d, d =? 0) (FloatRepr.whole r ++ FloatRepr.frac r).
Definition es6_number (value : float) : result bytes :=
  match value with
  | NonFinite _ => Err (ValueError "non-finite number is not representable in canonical JSON")
  | Finite negative r =>
      if is_zero r then mret (literal_bytes "0")
      else mret (sign_text negative ++ es6_layout (significant r) (point r))
  end.

(** ** Values *)
Inductive Json :=
| JNull
| JBool (b : bool)
| JStr (s : ustr)
| JInt (z : Z)
| JFloat (f : float)
| JArr (l : list Json)
| JObj (d : dict ustr Json).

Definition MAX_SAFE_INTEGER : Z := Z.shiftl 1 53 - 1.

(** [json.dumps(value, ensure_ascii=False)] *)
Definition escape (c : Z) : list Z :=
  if c =? 34 then ascii_text "\" ++ [34]
  else if c =? 92 then ascii_text "\\"
  else if c =? 10 then ascii_text "\n"
  else if c =? 13 then ascii_text "\r"
  else if c =? 9 then ascii_text "\t"
  else if c =? 12 then ascii_text "\f"
  else if c =? 8 then ascii_text "\b"
  else if c <? 32 then ascii_text "\u00" ++ (byte_value <$> [hex_char (c / 16); hex_char (c mod 16)])
  else [c].
Definition dumps_str (s : ustr) : ustr := [34] ++ (s ≫= escape) ++ [34].

(** [all(...)] of a list of answers, the first exception winning. *)
Fixpoint sequence {A} (l : list (result A)) : result (list A) :=
  match l with
  | [] => mret []
  | r :: l => x ← r; xs ← sequence l; mret (x :: xs)
  end.

(** [b",".join(parts)] *)
Fixpoint join_comma (parts : list bytes) : bytes :=
  match parts with
  | [] => []
  | [p] => p
  | p :: parts => p ++ literal_bytes "," ++ join_comma parts
  end.

(** [sorted(value.items(), key=lambda kv: kv[0].encode("utf-16-be"))] *)
Definition sorted_items {A} (d : dict ustr A) : result (list (ustr * A)) :=
  raise_if (negb (forallb encodable (dkeys d))) surrogate_error;;
  mret (sorted_by (λ p, utf16_be p.1) lex_leb d).

(** The parts are computed before they are joined: what a part raises is raised
    where the code computes it. *)
Definition serialize_str (s : ustr) : result bytes := encode_utf8 (dumps_str s).
Definition member (p : ustr * result bytes) : result bytes :=
  k ← serialize_str p.1; v ← p.2; mret (k ++ literal_bytes ":" ++ v).

(** [_serialize] *)
Fixpoint serialize (value : Json) : result bytes :=
  match value with
  | JNull => mret (literal_bytes "null")
  | JBool true => mret (literal_bytes "true")
  | JBool false => mret (literal_bytes "false")
  | JStr s => serialize_str s
  | JInt z =>
      if (- MAX_SAFE_INTEGER <=? z) && (z <=? MAX_SAFE_INTEGER) then mret (str_int z)
      else Err (ValueError "integer exceeds the ECMAScript safe integer range")
  | JFloat f => es6_number f
  | JArr l =>
      parts ← sequence (List.map serialize l);
      mret (literal_bytes "[" ++ join_comma parts ++ literal_bytes "]")
  | JObj d =>
      items ← sorted_items (List.map (λ p : ustr * Json, let (k, v) := p in (k, serialize v)) d);
      parts ← sequence (member <$> items);
      mret (literal_bytes "{" ++ join_comma parts ++ literal_bytes "}")
  end.
Definition canonical_json_bytes (value : Json) : result bytes := serialize value.

(** ** Bundle collections *)
Definition jget (k : string) (v : Json) : result Json :=
  match v with
  | JObj d => match dget (ascii_text k) d with Some v => Ok v | None => Err (KeyError k) end
  | _ => Err (TypeError "indices must be integers")
  end.
(** [(leg["order"], leg["leg_id"])], compared as an integer and a string. *)
Definition leg_key (v : Json) : result (Z * ustr) :=
  o ← jget "order" v; i ← jget "leg_id" v;
  match o, i with
  | JInt o, JStr i => mret (o, i)
  | _, _ => Err (TypeError "not supported between these instances")
  end.
Definition leg_leb : Z * ustr → Z * ustr → bool := pair_leb Z.leb lex_leb.

(** [sorted(l, key=key)]: the keys are computed first. *)
Definition sorted_with {A K} (key : A → result K) (leb : K → K → bool) (l : list A) :
    result (list A) :=
  keyed ← sequence ((λ x, k ← key x; mret (k, x)) <$> l);
  mret (snd <$> sorted_by fst leb keyed).
Definition bytes_leb (b1 b2 : bytes) : bool := lex_leb (byte_value <$> b1) (byte_value <$> b2).

Definition sort_member (p : ustr * result Json) : result (ustr * Json) :=
  v ← p.2; mret (p.1, v).
(** [_sort_collections] *)
Fixpoint sort_collections (value : Json) (field_name : option ustr) : result Json :=
  match value with
  | JObj d =>
      items ← sequence (sort_member <$>
        List.map (λ p : ustr * Json, let (k, v) := p in (k, sort_collections v (Some k))) d);
      mret (JObj items)
  | JArr l =>
      normalized ← sequence (List.map (λ v, sort_collections v None) l);
      l ← (if bool_decide (field_name = Some (ascii_text "legs"))
           then sorted_with leg_key leg_leb normalized
           else sorted_with serialize bytes_leb normalized);
      mret (JArr l)
  | v => mret v
  end.

(** ** Hashing *)
Section Hashing.
Context (sha256 : bytes → bytes).

Definition BUNDLE_DOMAIN : bytes := literal_bytes "llmmaxxing.bundle.v1" ++ [byte_of 0].

Definition content_hash (payload domain : bytes) : result string :=
  raise_if (negb (bool_decide (last domain = Some (byte_of 0))))
    (ValueError "hash domain must be NUL-terminated for unambiguous framing");;
  mret (hex (sha256 (domain ++ payload))).
Definition bundle_hash (payload : bytes) : result string :=
  digest ← content_hash payload BUNDLE_DOMAIN;
  from_digest BundleHash digest.
End Hashing.

(** [canonical_bundle_bytes]: [validated_dump] is Pydantic's dump of the bundle
    validated again. *)
Definition canonical_bundle_bytes {B} (validated_dump : B → result Json) (bundle : B) :
    result bytes :=
  dumped ← validated_dump bundle;
  normalized ← sort_collections dumped None;
  canonical_json_bytes normalized.
