(* ===== verification/CanonicalFacts.v ===== *)
(** * Facts about canonical JSON

    Decimal numerals and their values, the text of numbers and strings, and the
    prefix property of each: a text that is followed by a delimiter is determined
    by any longer text it begins. *)
From S2P Require Export Canonical.
From Stdlib Require Import Ascii.
#[local] Open Scope Z_scope.

#[local] Arguments decimal : simpl never.
#[local] Arguments byte_value : simpl never.
#[local] Arguments digit_text : simpl never.

(** ** Bytes *)
Lemma byte_of_inj l1 : ∀ l2, Forall (λ z, 0 ≤ z < 256) l1 → Forall (λ z, 0 ≤ z < 256) l2 →
  byte_of <$> l1 = byte_of <$> l2 → l1 = l2.
Proof.
  induction l1 as [|x l1 IH]; intros [|y l2] H1 H2 [=]; [done|].
  apply Forall_cons in H1 as [Hx H1], H2 as [Hy H2]. f_equal; [|by apply IH].
  rewrite <-(KeyMaterialFacts.byte_value_of x), <-(KeyMaterialFacts.byte_value_of y) by done. by f_equal.
Qed.

(** Two texts of a class, each before a byte outside it. *)
Lemma span_unique {A} (P : A → Prop) (t1 : list A) : ∀ t2 r1 r2,
  Forall P t1 → Forall P t2 →
  (∀ x, head r1 = Some x → ¬ P x) → (∀ x, head r2 = Some x → ¬ P x) →
  t1 ++ r1 = t2 ++ r2 → t1 = t2 ∧ r1 = r2.
Proof.
  induction t1 as [|x t1 IH]; intros [|y t2] r1 r2 H1 H2 N1 N2 H; cbn in *.
  - done.
  - subst r1. apply Forall_cons in H2 as [Hy _]. by destruct (N1 y).
  - subst r2. apply Forall_cons in H1 as [Hx _]. by destruct (N2 x).
  - injection H as <- H. apply Forall_cons in H1 as [_ H1], H2 as [_ H2].
    destruct (IH t2 r1 r2) as [-> ->]; done.
Qed.

(** ** Decimal digits *)
Definition digit_ok (d : Z) : Prop := 0 ≤ d ≤ 9.
Definition int_of (ds : list Z) : Z := foldl (λ n d, 10 * n + d) 0 ds.

Lemma foldl_int a ds : foldl (λ n d, 10 * n + d) a ds = a * 10 ^ zlen ds + int_of ds.
Proof.
  unfold int_of, zlen. revert a. induction ds as [|d ds IH]; intros a; [cbn; lia|].
  cbn [foldl length]. rewrite (IH (10 * a + d)), (IH (10 * 0 + d)). rewrite Nat2Z.inj_succ, Z.pow_succ_r by lia. lia.
Qed.
Lemma int_of_app l1 l2 : int_of (l1 ++ l2) = int_of l1 * 10 ^ zlen l2 + int_of l2.
Proof. unfold int_of at 1. by rewrite foldl_app, foldl_int. Qed.
Lemma int_of_cons d l : int_of (d :: l) = d * 10 ^ zlen l + int_of l.
Proof. apply (int_of_app [d] l). Qed.
Lemma int_of_zeros n : int_of (zeros n) = 0.
Proof.
  unfold zeros. induction (Z.to_nat n) as [|k IH]; [done|]. cbn [replicate].
  rewrite int_of_cons, IH. lia.
Qed.
Lemma zlen_app {A} (l1 l2 : list A) : zlen (l1 ++ l2) = zlen l1 + zlen l2.
Proof. unfold zlen. rewrite length_app. lia. Qed.
Lemma zlen_zeros n : 0 ≤ n → zlen (zeros n) = n.
Proof. intros H. unfold zlen, zeros. rewrite length_replicate. lia. Qed.
Lemma zlen_nonneg {A} (l : list A) : 0 ≤ zlen l.
Proof. unfold zlen. lia. Qed.
Lemma zlen_pos {A} (l : list A) : l ≠ [] → 0 < zlen l.
Proof. destruct l; [done|]. unfold zlen. cbn. lia. Qed.
Lemma zeros_ok n : Forall digit_ok (zeros n).
Proof. apply Forall_replicate. unfold digit_ok. lia. Qed.

Lemma int_of_bound ds : Forall digit_ok ds → 0 ≤ int_of ds < 10 ^ zlen ds.
Proof.
  induction 1 as [|d ds Hd _ IH]; [done|]. rewrite int_of_cons. unfold digit_ok in Hd.
  replace (zlen (d :: ds)) with (Z.succ (zlen ds)) by (unfold zlen; cbn; lia).
  rewrite Z.pow_succ_r by apply zlen_nonneg. nia.
Qed.

(** Numerals of the same length are their digits. *)
Lemma int_of_inj l1 : ∀ l2, Forall digit_ok l1 → Forall digit_ok l2 → length l1 = length l2 →
  int_of l1 = int_of l2 → l1 = l2.
Proof.
  induction l1 as [|x l1 IH]; intros [|y l2] H1 H2 Hl; try done.
  injection Hl as Hl. apply Forall_cons in H1 as [Hx H1], H2 as [Hy H2]. rewrite !int_of_cons.
  pose proof (int_of_bound _ H1). pose proof (int_of_bound _ H2).
  assert (zlen l1 = zlen l2) as E by (unfold zlen; lia). rewrite E in *. intros Hi.
  assert (x = y) as -> by nia. f_equal. apply IH; try done. nia.
Qed.

(** A numeral with no leading zero. *)
Definition lead_ok (ds : list Z) : Prop := ∃ d l, ds = d :: l ∧ d ≠ 0.

Lemma lead_bound ds : Forall digit_ok ds → lead_ok ds → 10 ^ (zlen ds - 1) ≤ int_of ds.
Proof.
  intros H (d & l & -> & Hd). apply Forall_cons in H as [Hd' H]. rewrite int_of_cons.
  replace (zlen (d :: l) - 1) with (zlen l) by (unfold zlen; cbn; lia).
  pose proof (int_of_bound _ H). unfold digit_ok in Hd'.
  assert (0 < 10 ^ zlen l) by (apply Z.pow_pos_nonneg; [lia|apply zlen_nonneg]). nia.
Qed.

Lemma lead_inj l1 l2 : Forall digit_ok l1 → Forall digit_ok l2 → lead_ok l1 → lead_ok l2 →
  int_of l1 = int_of l2 → l1 = l2.
Proof.
  intros H1 H2 L1 L2 E. apply int_of_inj; try done.
  pose proof (lead_bound _ H1 L1). pose proof (lead_bound _ H2 L2).
  pose proof (int_of_bound _ H1). pose proof (int_of_bound _ H2).
  pose proof (zlen_nonneg l1). pose proof (zlen_nonneg l2).
  assert (zlen l1 - 1 < zlen l2) by (apply (Z.pow_lt_mono_r_iff 10); lia).
  assert (zlen l2 - 1 < zlen l1) by (apply (Z.pow_lt_mono_r_iff 10); lia).
  unfold zlen in *. lia.
Qed.

(** [str(n)] *)
Lemma decimal_loop_spec fuel : ∀ n acc, 0 ≤ n < 2 ^ Z.of_nat fuel → (0 < fuel)%nat →
  Forall digit_ok acc →
  Forall digit_ok (decimal_loop fuel n acc) ∧
  int_of (decimal_loop fuel n acc) = n * 10 ^ zlen acc + int_of acc ∧
  (n ≠ 0 → lead_ok (decimal_loop fuel n acc)) ∧ (n = 0 → decimal_loop fuel n acc = 0 :: acc).
Proof.
  induction fuel as [|fuel IH]; intros n acc Hn Hf Ha; [lia|]. cbn [decimal_loop].
  destruct (n <? 10) eqn:E; bprop.
  - split_and!.
    + constructor; [unfold digit_ok; lia|done].
    + apply int_of_cons.
    + intros Hn0. by exists n, acc.
    + by intros ->.
  - assert (2 ^ Z.of_nat (S fuel) = 2 * 2 ^ Z.of_nat fuel) as Hp
      by (rewrite Nat2Z.inj_succ, Z.pow_succ_r; lia).
    pose proof (Z.div_mod n 10 ltac:(lia)). pose proof (Z.mod_pos_bound n 10 ltac:(lia)).
    assert (0 < fuel)%nat by (destruct fuel; [cbn in Hn; lia|lia]).
    destruct (IH (n / 10) (n mod 10 :: acc)) as (I1 & I2 & I3 & _); [nia|lia| |].
    { constructor; [unfold digit_ok; lia|done]. }
    split_and!; [done| | |lia].
    + rewrite I2, int_of_cons. replace (zlen (n mod 10 :: acc)) with (Z.succ (zlen acc))
        by (unfold zlen; cbn; lia).
      rewrite Z.pow_succ_r by apply zlen_nonneg. nia.
    + intros _. apply I3. lia.
Qed.

Lemma decimal_spec n : 0 ≤ n →
  Forall digit_ok (decimal n) ∧ int_of (decimal n) = n ∧ (n ≠ 0 → lead_ok (decimal n)) ∧
  (n = 0 → decimal n = [0]).
Proof.
  intros Hn. unfold decimal.
  assert (0 ≤ n < 2 ^ Z.of_nat (S (Z.to_nat (Z.log2 n)))) as Hb.
  { split; [done|]. rewrite Nat2Z.inj_succ, Z2Nat.id by apply Z.log2_nonneg.
    destruct (decide (n = 0)) as [->|]; [done|]. apply Z.log2_spec. lia. }
  destruct (decimal_loop_spec _ n [] Hb) as (H1 & H2 & H3 & H4); [lia|apply Forall_nil_2|].
  split_and!; try done. rewrite H2. change (n * 1 + 0 = n). lia.
Qed.
Lemma decimal_ok n : 0 ≤ n → Forall digit_ok (decimal n).
Proof. apply decimal_spec. Qed.
Lemma decimal_inj n m : 0 ≤ n → 0 ≤ m → decimal n = decimal m → n = m.
Proof.
  intros Hn Hm E. destruct (decimal_spec n Hn) as (_ & <- & _), (decimal_spec m Hm) as (_ & <- & _).
  by rewrite E.
Qed.

(** ** The value of a float *)
Definition mantissa (r : FloatRepr) : Z := int_of (FloatRepr.whole r ++ FloatRepr.frac r).
Definition scale (r : FloatRepr) : Z := FloatRepr.exponent r - zlen (FloatRepr.frac r).
(** [mantissa r * 10 ^ scale r], compared without leaving the integers. *)
Definition same_value (r1 r2 : FloatRepr) : Prop :=
  mantissa r1 * 10 ^ Z.max 0 (scale r1 - scale r2) = mantissa r2 * 10 ^ Z.max 0 (scale r2 - scale r1).

(** Zeros around the digits. *)
Lemma lstrip_spec l : ∃ n, 0 ≤ n ∧ l = zeros n ++ lstrip l ∧
  (lstrip l = [] ∨ lead_ok (lstrip l)).
Proof.
  induction l as [|d l (n & Hn & E & IH)]; [by exists 0; split_and!; [lia|done|left]|].
  cbn. destruct (d =? 0) eqn:Ed; bprop.
  - subst d. exists (n + 1). split_and!; [lia| |done]. rewrite E at 1.
    unfold zeros. by rewrite Z2Nat.inj_add, Nat.add_comm by lia.
  - exists 0. split_and!; [lia|done|right]. by exists d, l.
Qed.
Lemma zeros_rev n : rev (zeros n) = zeros n.
Proof.
  unfold zeros. induction (Z.to_nat n) as [|k IH]; [done|]. cbn. rewrite IH.
  by rewrite <-replicate_cons_app.
Qed.
Lemma rstrip_spec l : ∃ n, 0 ≤ n ∧ l = rstrip l ++ zeros n ∧
  (rstrip l = [] ∨ ∃ l' d, rstrip l = l' ++ [d] ∧ d ≠ 0).
Proof.
  destruct (lstrip_spec (rev l)) as (n & Hn & E & H). unfold rstrip.
  exists n. split_and!; [done| |].
  - rewrite <-(rev_involutive l) at 1. rewrite E at 1. by rewrite rev_app_distr, zeros_rev.
  - destruct H as [->|(d & l' & -> & Hd)]; [by left|right]. exists (rev l'), d. by cbn.
Qed.

(** A numeral without zeros around it. *)
Definition stripped (ds : list Z) : Prop :=
  Forall digit_ok ds ∧ lead_ok ds ∧ ∃ l d, ds = l ++ [d] ∧ d ≠ 0.

Lemma strip_both l : Forall digit_ok l → int_of l ≠ 0 →
  ∃ a t, 0 ≤ a ∧ 0 ≤ t ∧ l = zeros a ++ rstrip (lstrip l) ++ zeros t ∧ stripped (rstrip (lstrip l)) ∧
    lstrip l = rstrip (lstrip l) ++ zeros t.
Proof.
  intros Hl Hi. destruct (lstrip_spec l) as (a & Ha & E1 & L).
  destruct (rstrip_spec (lstrip l)) as (t & Ht & E2 & T).
  destruct L as [L|(d & l' & L & Hd)].
  { rewrite L, app_nil_r in E1. by rewrite E1, int_of_zeros in Hi. }
  destruct T as [T|(l2 & d2 & T & Hd2)].
  { rewrite T in E2. cbn in E2. rewrite L in E2. unfold zeros in E2.
    destruct (Z.to_nat t); [done|]. by injection E2. }
  assert (Forall digit_ok (rstrip (lstrip l))) as Hr.
  { rewrite E1 in Hl. apply Forall_app in Hl as [_ Hl]. rewrite E2 in Hl.
    by apply Forall_app in Hl as [Hl _]. }
  exists a, t. split_and!; try done; [by rewrite <-E2|]. split_and!; [done| |by exists l2, d2].
  revert E2 T. generalize (rstrip (lstrip l)). intros x E2 ->. rewrite L in E2.
  destruct l2 as [|y l2]; injection E2 as <- _; by eexists _, _.
Qed.

(** The value of a float is that of its significant digits at its point. *)
Lemma significant_spec r : FloatRepr.ok r → is_zero r = false →
  stripped (significant r) ∧ ∃ t, 0 ≤ t ∧
    mantissa r = int_of (significant r) * 10 ^ t ∧ scale r + t = point r - zlen (significant r).
Proof.
  intros (Hd & Hw & Hs) Hz. set (l := FloatRepr.whole r ++ FloatRepr.frac r) in *.
  assert (int_of l ≠ 0) as Hi.
  { intros E. unfold is_zero in Hz. fold l in Hz. destruct (lstrip_spec l) as (a & Ha & El & [L|L]).
    - rewrite L, app_nil_r in El. apply Bool.not_true_iff_false in Hz. destruct Hz.
      rewrite El. unfold zeros. induction (Z.to_nat a); [done|]. cbn. done.
    - rewrite El, int_of_app, int_of_zeros in E. pose proof (lead_bound (lstrip l)) as B.
      rewrite El in Hd. apply Forall_app in Hd as [_ Hd]. specialize (B Hd L).
      assert (0 < 10 ^ (zlen (lstrip l) - 1)); [|lia].
      apply Z.pow_pos_nonneg; [lia|]. destruct L as (d & l' & -> & _). unfold zlen. cbn. lia. }
  destruct (strip_both l Hd Hi) as (a & t & Ha & Ht & E & S & El).
  assert (significant r = rstrip (lstrip l)) as ->.
  { unfold significant. fold l. destruct S as (_ & (d & l' & -> & _) & _). done. }
  split; [done|]. exists t. split_and!; [done| |].
  - unfold mantissa. fold l. rewrite E at 1.
    by rewrite int_of_app, int_of_zeros, int_of_app, int_of_zeros, zlen_zeros, Z.add_0_r by done.
  - unfold scale, point. set (s := rstrip (lstrip l)) in *.
    destruct Hs as [[Hw0 He]|Hs].
    + rewrite bool_decide_eq_true_2 by done. rewrite He.
      assert (lstrip (FloatRepr.frac r) = lstrip l) as -> by (subst l; by rewrite Hw0).
      rewrite El, zlen_app, zlen_zeros by done. lia.
    + rewrite bool_decide_eq_false_2 by (intros Hw0; by rewrite Hw0 in Hs).
      assert (lstrip l = l) as El'.
      { subst l. destruct (FloatRepr.whole r) as [|d w]; [done|]. cbn in *.
        destruct (d =? 0) eqn:Ed; [|done]. bprop. congruence. }
      rewrite El' in El. apply (f_equal zlen) in El. subst l.
      rewrite !zlen_app, zlen_zeros in El by done. lia.
Qed.

Lemma pow10_le s1 s2 a1 a2 : 0 ≤ a1 → 0 ≤ a2 → s1 mod 10 ≠ 0 → s1 * 10 ^ a1 = s2 * 10 ^ a2 → a2 ≤ a1.
Proof.
  intros H1 H2 Hm E. destruct (decide (a2 ≤ a1)) as [|Hlt]; [done|].
  replace a2 with (Z.succ (a2 - a1 - 1) + a1) in E by lia.
  rewrite Z.pow_add_r, Z.mul_assoc in E by lia.
  apply Z.mul_reg_r in E; [|apply Z.pow_nonzero; lia].
  destruct Hm. rewrite E, Z.pow_succ_r by lia.
  replace (s2 * (10 * 10 ^ (a2 - a1 - 1))) with (s2 * 10 ^ (a2 - a1 - 1) * 10) by lia.
  apply Z.mod_mul. lia.
Qed.
Lemma pow10_unique s1 s2 a1 a2 : 0 ≤ a1 → 0 ≤ a2 → s1 mod 10 ≠ 0 → s2 mod 10 ≠ 0 →
  s1 * 10 ^ a1 = s2 * 10 ^ a2 → a1 = a2 ∧ s1 = s2.
Proof.
  intros H1 H2 M1 M2 E. pose proof (pow10_le _ _ _ _ H1 H2 M1 E).
  pose proof (pow10_le _ _ _ _ H2 H1 M2 (eq_sym E)). assert (a1 = a2) as -> by lia.
  split; [done|]. eapply Z.mul_reg_r; [|exact E]. apply Z.pow_nonzero; lia.
Qed.

Lemma stripped_mod ds : stripped ds → int_of ds mod 10 ≠ 0.
Proof.
  intros (Hd & _ & l & d & -> & Hd0). rewrite int_of_app. apply Forall_app in Hd as [_ Hd].
  apply Forall_cons in Hd as [Hd _]. unfold digit_ok in Hd.
  change (int_of [d]) with d. change (10 ^ zlen [d]) with 10.
  rewrite Z.add_comm, Z.mod_add, Z.mod_small; lia.
Qed.

Theorem same_value_significant r1 r2 : FloatRepr.ok r1 → FloatRepr.ok r2 →
  is_zero r1 = false → is_zero r2 = false →
  same_value r1 r2 ↔ significant r1 = significant r2 ∧ point r1 = point r2.
Proof.
  intros H1 H2 Z1 Z2.
  destruct (significant_spec r1 H1 Z1) as (S1 & t1 & T1 & M1 & P1).
  destruct (significant_spec r2 H2 Z2) as (S2 & t2 & T2 & M2 & P2).
  unfold same_value. rewrite M1, M2, <-!Z.mul_assoc, <-!Z.pow_add_r by lia. split.
  - intros E. apply pow10_unique in E as [Ea Es]; [|lia|lia|by apply stripped_mod..].
    destruct S1 as (D1 & L1 & _), S2 as (D2 & L2 & _).
    assert (significant r1 = significant r2) as Eq by (by apply lead_inj). split; [done|].
    rewrite Eq in *. lia.
  - intros [Es Ep]. rewrite Es in *. f_equal. f_equal. lia.
Qed.

Lemma zero_mantissa r : FloatRepr.ok r → is_zero r = true ↔ mantissa r = 0.
Proof.
  intros H. split.
  - unfold is_zero, mantissa. intros E.
    induction (FloatRepr.whole r ++ FloatRepr.frac r) as [|d l IH]; [done|].
    apply andb_true_iff in E as [Ed E]. apply Z.eqb_eq in Ed as ->.
    rewrite int_of_cons, IH by done. lia.
  - intros M. destruct (is_zero r) eqn:E; [done|].
    destruct (significant_spec r H E) as (S & t & Ht & M' & _).
    apply stripped_mod in S. rewrite M in M'.
    assert (10 ^ t ≠ 0) by (apply Z.pow_nonzero; lia). destruct S.
    symmetry in M'. apply Z.mul_eq_0 in M' as [->|]; done.
Qed.

(** ** The text of a number *)
Definition exponent_text (e : Z) : bytes :=
  literal_bytes "e" ++ literal_bytes (if 0 <=? e then "+" else "-") ++ decimal_text (decimal (Z.abs e)).
Definition repr_text (r : FloatRepr) : bytes :=
  decimal_text (FloatRepr.whole r) ++
  (if bool_decide (FloatRepr.frac r = []) then []
   else literal_bytes "." ++ decimal_text (FloatRepr.frac r)) ++
  (if FloatRepr.exponent r =? 0 then [] else exponent_text (FloatRepr.exponent r)).

(** The numeral that [es6_layout] writes. *)
Definition layout_repr (ds : list Z) (n : Z) : FloatRepr :=
  let k := zlen ds in
  if (k <=? n) && (n <=? 21) then FloatRepr.mk (ds ++ zeros (n - k)) [] 0
  else if (0 <? n) && (n <=? 21) then FloatRepr.mk (take (Z.to_nat n) ds) (drop (Z.to_nat n) ds) 0
  else if (-6 <? n) && (n <=? 0) then FloatRepr.mk [0] (zeros (- n) ++ ds) 0
  else FloatRepr.mk (take 1 ds) (drop 1 ds) (n - 1).

Lemma zlen_drop {A} n (l : list A) : 0 ≤ n ≤ zlen l → zlen (drop (Z.to_nat n) l) = zlen l - n.
Proof. unfold zlen. rewrite length_drop. lia. Qed.
Lemma zlen_take {A} n (l : list A) : 0 ≤ n ≤ zlen l → zlen (take (Z.to_nat n) l) = n.
Proof. unfold zlen. rewrite length_take. lia. Qed.
Lemma zlen_nil {A} (l : list A) : zlen l = 0 ↔ l = [].
Proof. destruct l; unfold zlen; cbn; [done|]. split; [lia|done]. Qed.

Lemma layout_text ds n : ds ≠ [] → es6_layout ds n = repr_text (layout_repr ds n).
Proof.
  intros Hds. pose proof (zlen_pos ds Hds) as Hk. unfold es6_layout, layout_repr, repr_text.
  destruct ((zlen ds <=? n) && (n <=? 21)) eqn:E1; [by cbn; rewrite !app_nil_r|].
  destruct ((0 <? n) && (n <=? 21)) eqn:E2.
  { bprop. cbn. rewrite bool_decide_eq_false_2, app_nil_r; [done|].
    intros H%zlen_nil. rewrite zlen_drop in H by lia. lia. }
  destruct ((-6 <? n) && (n <=? 0)) eqn:E3.
  { cbn. rewrite bool_decide_eq_false_2, app_nil_r; [done|]. by intros [_ ?]%app_eq_nil. }
  cbn [FloatRepr.whole FloatRepr.frac FloatRepr.exponent].
  destruct (n - 1 =? 0) eqn:E4; bprop; [lia|]. f_equal. f_equal.
  case_bool_decide as Hd; destruct (1 <? zlen ds) eqn:E5; bprop; try done.
  - apply zlen_nil in Hd. rewrite (zlen_drop 1) in Hd by lia. lia.
  - destruct Hd. apply zlen_nil. rewrite (zlen_drop 1); lia.
Qed.

Lemma stripped_cons ds : stripped ds → ∃ d l, ds = d :: l ∧ d ≠ 0.
Proof. by intros (_ & H & _). Qed.

Lemma layout_repr_ok ds n : stripped ds → FloatRepr.ok (layout_repr ds n).
Proof.
  intros S. pose proof S as (Hd & (d & l & E & Hd0) & _).
  assert (zlen ds = 1 + zlen l) as Hk by (rewrite E; unfold zlen; cbn; lia).
  pose proof (zlen_nonneg l). unfold layout_repr, FloatRepr.ok.
  destruct ((zlen ds <=? n) && (n <=? 21)) eqn:E1;
    [|destruct ((0 <? n) && (n <=? 21)) eqn:E2; [|destruct ((-6 <? n) && (n <=? 0)) eqn:E3]];
    cbn [FloatRepr.whole FloatRepr.frac FloatRepr.exponent].
  - rewrite app_nil_r. split_and!; [by apply Forall_app; split; [|apply zeros_ok]|by subst|right].
    subst. cbn. congruence.
  - rewrite take_drop. bprop. assert (Z.to_nat n = Datatypes.S (Z.to_nat (n - 1))) as -> by lia. subst.
    split_and!; [done|done|right; cbn; congruence].
  - split_and!; [|done|by left]. constructor; [unfold digit_ok; lia|].
    apply Forall_app. split; [apply zeros_ok|done].
  - rewrite take_drop. subst. split_and!; [done|done|right; cbn; congruence].
Qed.

Lemma lstrip_zeros n l : lstrip (zeros n ++ l) = lstrip l.
Proof. unfold zeros. by induction (Z.to_nat n). Qed.
Lemma lstrip_lead ds : lead_ok ds → lstrip ds = ds.
Proof. intros (d & l & -> & Hd). cbn. destruct (d =? 0) eqn:E; bprop; done. Qed.
Lemma rev_lead ds : stripped ds → lead_ok (rev ds).
Proof. intros (_ & _ & l & d & -> & Hd). rewrite rev_app_distr. by exists d, (rev l). Qed.
Lemma rstrip_zeros ds n : stripped ds → rstrip (ds ++ zeros n) = ds.
Proof.
  intros S. unfold rstrip. rewrite rev_app_distr, zeros_rev, lstrip_zeros, lstrip_lead by (by apply rev_lead).
  apply rev_involutive.
Qed.
Lemma rstrip_stripped ds : stripped ds → rstrip ds = ds.
Proof. intros S. rewrite <-(app_nil_r ds) at 1. by apply (rstrip_zeros ds 0). Qed.

Lemma significant_of r ds n m : stripped ds →
  FloatRepr.whole r ++ FloatRepr.frac r = zeros n ++ ds ++ zeros m → significant r = ds.
Proof.
  intros S E. unfold significant. rewrite E, lstrip_zeros, lstrip_lead, rstrip_zeros by
    (try done; destruct S as (_ & (d & l & -> & Hd) & _); by exists d, (l ++ zeros m)).
  by destruct S as (_ & (d & l & -> & _) & _).
Qed.

(** The layouts only put zeros around the digits. *)
Lemma layout_repr_digits ds n : ∃ a b, 0 ≤ b ∧
  FloatRepr.whole (layout_repr ds n) ++ FloatRepr.frac (layout_repr ds n) = zeros a ++ ds ++ zeros b.
Proof.
  unfold layout_repr. repeat case_match; bprop; cbn [FloatRepr.whole FloatRepr.frac].
  - exists 0, (n - zlen ds). split; [lia|]. cbn. by rewrite app_nil_r.
  - exists 0, 0. split; [lia|]. cbn. by rewrite take_drop, app_nil_r.
  - exists (1 - n), 0. split; [lia|]. cbn. replace (1 - n) with (1 + - n) by lia.
    unfold zeros. rewrite Z2Nat.inj_add by lia. by rewrite app_nil_r.
  - exists 0, 0. split; [lia|]. change (zeros 0) with (@nil Z). by rewrite take_drop, app_nil_r.
Qed.
Lemma layout_repr_significant ds n : stripped ds → significant (layout_repr ds n) = ds.
Proof.
  intros S. destruct (layout_repr_digits ds n) as (a & b & _ & E). by eapply significant_of.
Qed.

Lemma layout_repr_point ds n : stripped ds → point (layout_repr ds n) = n.
Proof.
  intros S. pose proof S as (Hd & (d & l & E & Hd0) & _).
  assert (zlen ds = 1 + zlen l) as Hk by (rewrite E; unfold zlen; cbn; lia).
  pose proof (zlen_nonneg l). unfold layout_repr. repeat case_match; bprop; unfold point;
    cbn [FloatRepr.whole FloatRepr.frac FloatRepr.exponent].
  - rewrite bool_decide_eq_false_2 by (subst; cbn; congruence). rewrite zlen_app, zlen_zeros; lia.
  - rewrite bool_decide_eq_false_2, zlen_take by
      (try lia; assert (Z.to_nat n = Datatypes.S (Z.to_nat (n - 1))) as -> by lia; subst; cbn; congruence). lia.
  - rewrite bool_decide_eq_true_2, lstrip_zeros, lstrip_lead by (done || by exists d, l).
    rewrite zlen_app, zlen_zeros; lia.
  - rewrite bool_decide_eq_false_2 by (subst; cbn; congruence). rewrite (zlen_take 1); lia.
Qed.

Lemma layout_repr_nonzero ds n : stripped ds → is_zero (layout_repr ds n) = false.
Proof.
  intros S. apply Bool.not_true_iff_false. intros H.
  apply zero_mantissa in H; [|by apply layout_repr_ok].
  destruct (layout_repr_digits ds n) as (a & b & Hb & E).
  unfold mantissa in H. rewrite E, int_of_app, int_of_zeros, int_of_app, int_of_zeros in H.
  apply stripped_mod in S. rewrite zlen_zeros in H by done.
  assert (10 ^ b ≠ 0) by (apply Z.pow_nonzero; lia).
  assert (int_of ds = 0) as E0 by nia. by rewrite E0 in S.
Qed.

(** ** Reading a numeral *)
Definition is_digit (c : ascii) : Prop := 48 ≤ byte_value c ≤ 57.
(** What may follow a value: the end, or a separator. *)
Definition delimiters : list ascii := literal_bytes ",]}".
Definition delimited (r : bytes) : Prop := ∀ c, head r = Some c → c ∈ delimiters.

Lemma digit_text_value d : digit_ok d → byte_value (digit_text d) = 48 + d.
Proof. unfold digit_ok. intros H. apply KeyMaterialFacts.byte_value_of. lia. Qed.
Lemma decimal_text_digits ds : Forall digit_ok ds → Forall is_digit (decimal_text ds).
Proof.
  intros H. apply Forall_fmap. eapply Forall_impl; [exact H|]. intros d Hd. unfold is_digit; cbn.
  rewrite digit_text_value by done. unfold digit_ok in Hd. lia.
Qed.
Lemma decimal_text_inj l1 : ∀ l2, Forall digit_ok l1 → Forall digit_ok l2 →
  decimal_text l1 = decimal_text l2 → l1 = l2.
Proof.
  induction l1 as [|x l1 IH]; intros [|y l2] H1 H2 [=]; [done|].
  apply Forall_cons in H1 as [Hx H1], H2 as [Hy H2]. f_equal; [|by apply IH].
  pose proof (digit_text_value x Hx). pose proof (digit_text_value y Hy).
  enough (48 + x = 48 + y) by lia. congruence.
Qed.

(** Digits before a byte that is none. *)
Definition after_digits (r : bytes) : Prop := ∀ c, head r = Some c → ¬ is_digit c.
Lemma decimal_text_prefix l1 l2 r1 r2 : Forall digit_ok l1 → Forall digit_ok l2 →
  after_digits r1 → after_digits r2 →
  decimal_text l1 ++ r1 = decimal_text l2 ++ r2 → l1 = l2 ∧ r1 = r2.
Proof.
  intros H1 H2 N1 N2 E.
  apply (span_unique is_digit) in E as [E ->]; auto using decimal_text_digits.
  split; [|done]. by apply decimal_text_inj.
Qed.

Lemma delimited_byte c r : delimited (c :: r) → c ∈ delimiters.
Proof. intros H. by apply H. Qed.
(** No byte of a list is a separator: by evaluation. *)
Lemma not_delimiter c r : forallb (λ d, negb (Ascii.eqb c d)) delimiters = true →
  ¬ delimited (c :: r).
Proof.
  intros H D%delimited_byte. rewrite forallb_forall in H. apply list_elem_of_In, H in D.
  by rewrite Ascii.eqb_refl in D.
Qed.
Lemma delimited_after r : delimited r → after_digits r.
Proof.
  intros H c Hc%H. unfold delimiters, literal_bytes in Hc. cbn in Hc.
  rewrite !elem_of_cons in Hc. destruct Hc as [->|[->|[->|Hc%elem_of_nil]]]; [..|done];
    unfold is_digit; vm_compute; intuition congruence.
Qed.
Lemma after_digits_byte c r : (byte_value c < 48 ∨ 57 < byte_value c) → after_digits (c :: r).
Proof. intros H d [= <-]. unfold is_digit. lia. Qed.

(** The two parts after the whole digits. *)
Definition frac_text (frac : list Z) : bytes :=
  if bool_decide (frac = []) then [] else literal_bytes "." ++ decimal_text frac.
Definition exp_text (e : Z) : bytes := if e =? 0 then [] else exponent_text e.

Lemma exp_text_after e r : delimited r → after_digits (exp_text e ++ r).
Proof.
  intros H. unfold exp_text. destruct (e =? 0); [by apply delimited_after|].
  apply after_digits_byte. right. vm_compute. done.
Qed.
Lemma frac_text_after f e r : delimited r → after_digits (frac_text f ++ exp_text e ++ r).
Proof.
  intros H. unfold frac_text. case_bool_decide; [by apply exp_text_after|].
  apply after_digits_byte. left. vm_compute. done.
Qed.

Lemma exp_text_prefix e1 e2 r1 r2 : delimited r1 → delimited r2 →
  exp_text e1 ++ r1 = exp_text e2 ++ r2 → e1 = e2 ∧ r1 = r2.
Proof.
  intros D1 D2. unfold exp_text.
  assert (∀ c r, delimited r → r = literal_bytes "e" ++ c → False) as Hne.
  { intros c r D ->. by eapply not_delimiter, D. }
  destruct (e1 =? 0) eqn:E1, (e2 =? 0) eqn:E2; bprop; intros E; cbn [app] in E.
  - by subst.
  - destruct (Hne _ _ D1 E).
  - symmetry in E. destruct (Hne _ _ D2 E).
  - unfold exponent_text in E. injection E as E.
    pose proof (decimal_ok (Z.abs e1) ltac:(lia)). pose proof (decimal_ok (Z.abs e2) ltac:(lia)).
    destruct (0 <=? e1) eqn:G1, (0 <=? e2) eqn:G2; bprop; injection E as E; try done;
      (apply decimal_text_prefix in E as [E ->]; auto using delimited_after);
      (apply decimal_inj in E; [|lia|lia]); (split; [lia|done]).
Qed.

Lemma frac_text_prefix f1 f2 e1 e2 r1 r2 : Forall digit_ok f1 → Forall digit_ok f2 →
  delimited r1 → delimited r2 →
  frac_text f1 ++ exp_text e1 ++ r1 = frac_text f2 ++ exp_text e2 ++ r2 →
  f1 = f2 ∧ e1 = e2 ∧ r1 = r2.
Proof.
  intros F1 F2 D1 D2. unfold frac_text.
  assert (∀ e r c, delimited r → exp_text e ++ r = literal_bytes "." ++ c → False) as Hne.
  { intros e r c D. unfold exp_text. destruct (e =? 0); [|done]. cbn [app]. intros ->.
    by eapply not_delimiter, D. }
  do 2 case_bool_decide; cbn [app]; intros E.
  - subst. by apply exp_text_prefix in E as [-> ->].
  - destruct (Hne _ _ _ D1 E).
  - symmetry in E. destruct (Hne _ _ _ D2 E).
  - injection E as E. apply decimal_text_prefix in E as [-> E]; auto using exp_text_after.
    by apply exp_text_prefix in E as [-> ->].
Qed.

Lemma repr_text_prefix r1 r2 t1 t2 : FloatRepr.ok r1 → FloatRepr.ok r2 →
  delimited t1 → delimited t2 → repr_text r1 ++ t1 = repr_text r2 ++ t2 → r1 = r2 ∧ t1 = t2.
Proof.
  intros (D1 & _) (D2 & _) T1 T2. apply Forall_app in D1 as [W1 F1], D2 as [W2 F2].
  change (repr_text r1) with (decimal_text (FloatRepr.whole r1) ++ frac_text (FloatRepr.frac r1) ++
    exp_text (FloatRepr.exponent r1)).
  change (repr_text r2) with (decimal_text (FloatRepr.whole r2) ++ frac_text (FloatRepr.frac r2) ++
    exp_text (FloatRepr.exponent r2)).
  rewrite <-!app_assoc. intros E.
  apply decimal_text_prefix in E as [Ew E]; auto using frac_text_after.
  apply frac_text_prefix in E as (Ef & Ee & ->); [|done..].
  destruct r1, r2; cbn in *. by subst.
Qed.

(** ** Numbers of JSON *)
Definition numeral (v : Json) : option (bool * FloatRepr) :=
  match v with
  | JInt z => Some (z <? 0, FloatRepr.mk (decimal (Z.abs z)) [] 0)
  | JFloat (Finite negative r) => Some (negative, r)
  | _ => None
  end.
(** The same real number: zero has no sign. *)
Definition same_number (p q : bool * FloatRepr) : Prop :=
  same_value p.2 q.2 ∧ (mantissa p.2 = 0 ∨ p.1 = q.1).

(** The numeral and the sign that are written. *)
Definition written (p : bool * FloatRepr) : bool * FloatRepr :=
  if is_zero p.2 then (false, FloatRepr.mk [0] [] 0)
  else (p.1, layout_repr (significant p.2) (point p.2)).
Definition number_text (p : bool * FloatRepr) : bytes := sign_text p.1 ++ repr_text p.2.

Lemma stripped_nonempty ds : stripped ds → ds ≠ [].
Proof. by intros (d & l & -> & _)%stripped_cons. Qed.

Lemma decimal_repr_ok z : FloatRepr.ok (FloatRepr.mk (decimal (Z.abs z)) [] 0).
Proof.
  destruct (decimal_spec (Z.abs z) ltac:(lia)) as (D & _ & L & Z0). unfold FloatRepr.ok; cbn.
  rewrite app_nil_r. split_and!; [done|..].
  - destruct (decide (Z.abs z = 0)) as [E|E]; [by rewrite Z0|].
    by destruct (L E) as (d & l & -> & _).
  - destruct (decide (Z.abs z = 0)) as [E|E]; [by left; rewrite Z0|right].
    destruct (L E) as (d & l & -> & Hd). cbn. congruence.
Qed.

(** A whole number that is not zero: its digits, less the zeros at the end. *)
Lemma decimal_significant z : z ≠ 0 →
  let r := FloatRepr.mk (decimal (Z.abs z)) [] 0 in
  ∃ t, 0 ≤ t ∧ decimal (Z.abs z) = significant r ++ zeros t ∧ point r = zlen (decimal (Z.abs z)).
Proof.
  intros Hz r. destruct (decimal_spec (Z.abs z) ltac:(lia)) as (D & I & L & _).
  specialize (L ltac:(lia)). destruct (rstrip_spec (decimal (Z.abs z))) as (t & Ht & E & T).
  exists t. split_and!; [done| |].
  - unfold significant. cbn [r FloatRepr.whole FloatRepr.frac]. rewrite app_nil_r, (lstrip_lead (decimal (Z.abs z))) by done.
    destruct T as [T|(l & d & T & Hd)]; [|rewrite T in E |- *; by destruct l].
    rewrite T in E. cbn in E. rewrite E, int_of_zeros in I. lia.
  - unfold point. rewrite bool_decide_eq_false_2; cbn; [lia|].
    intros E'. destruct L as (d & l & E1 & Hd). rewrite E1 in E'. congruence.
Qed.

Lemma decimal_layout z : z ≠ 0 → Z.abs z ≤ MAX_SAFE_INTEGER →
  let r := FloatRepr.mk (decimal (Z.abs z)) [] 0 in
  decimal_text (decimal (Z.abs z)) = es6_layout (significant r) (point r).
Proof.
  intros Hz Hmax r. destruct (decimal_significant z Hz) as (t & Ht & E & P). fold r in E, P.
  destruct (decimal_spec (Z.abs z) ltac:(lia)) as (D & I & L & _). specialize (L ltac:(lia)).
  unfold es6_layout. rewrite P.
  assert (zlen (decimal (Z.abs z)) = zlen (significant r) + t) as Hl
    by (rewrite E at 1; by rewrite zlen_app, zlen_zeros).
  assert (zlen (decimal (Z.abs z)) ≤ 16) as H16.
  { pose proof (lead_bound _ D L) as B. rewrite I in B.
    assert (zlen (decimal (Z.abs z)) - 1 < 16); [|lia].
    apply (Z.pow_lt_mono_r_iff 10); [lia..|]. unfold MAX_SAFE_INTEGER in Hmax.
    change (Z.shiftl 1 53 - 1) with 9007199254740991 in Hmax. lia. }
  destruct (_ && _) eqn:Eb; bprop; [|lia].
  rewrite E at 1. do 3 f_equal. lia.
Qed.

Lemma numeral_text v p b : numeral v = Some p → (∀ n r, v = JFloat (Finite n r) → FloatRepr.ok r) →
  serialize v = Ok b → b = number_text (written p) ∧ FloatRepr.ok p.2.
Proof.
  destruct v as [|[]|s|z|[n r|]|l|d]; try done; intros [= <-] Hok.
  - cbn [serialize]. destruct (_ && _) eqn:Hz; [|done]. intros [= <-].
    pose proof (decimal_repr_ok z) as Hr. split; [|done]. unfold written, number_text; cbn [fst snd].
    destruct (is_zero _) eqn:E.
    + apply zero_mantissa in E; [|done]. unfold mantissa in E; cbn in E. rewrite app_nil_r in E.
      destruct (decimal_spec (Z.abs z) ltac:(lia)) as (_ & I & _).
      unfold int_of in I. assert (z = 0) as -> by lia. reflexivity.
    + destruct (decide (z = 0)) as [->|Hz0]; [done|].
      destruct (significant_spec _ Hr E) as (S & _). cbn [fst snd]. unfold str_int. f_equal.
      rewrite <-layout_text by (by apply stripped_nonempty).
      bprop. apply decimal_layout; [done|lia].
  - cbn [serialize es6_number]. specialize (Hok n r eq_refl). intros H. split; [|done].
    unfold written, number_text; cbn [fst snd].
    destruct (is_zero r) eqn:E; injection H as <-; [reflexivity|]. cbn [fst snd]. f_equal.
    apply layout_text. by apply stripped_nonempty, significant_spec.
Qed.

Lemma written_ok p : FloatRepr.ok p.2 → FloatRepr.ok (written p).2.
Proof.
  intros H. unfold written. destruct (is_zero p.2) eqn:E; cbn [snd].
  - unfold FloatRepr.ok; cbn. split_and!; [|done|by left]. constructor; [lia|done].
  - by apply layout_repr_ok, significant_spec.
Qed.

(** What is written denotes the number. *)
Lemma written_same p : FloatRepr.ok p.2 → same_number (written p) p.
Proof.
  intros H. pose proof (written_ok p H) as Hw. unfold written in *.
  destruct (is_zero p.2) eqn:E; cbn [fst snd] in *.
  - apply zero_mantissa in E; [|done]. split; cbn; [|by left]. unfold same_value.
    rewrite E. change (mantissa _) with 0. lia.
  - destruct (significant_spec _ H E) as (S & _). split; cbn; [|by right].
    apply same_value_significant; [done..|by apply layout_repr_nonzero|done|].
    by rewrite layout_repr_significant, layout_repr_point.
Qed.

Lemma same_value_zero r1 r2 : same_value r1 r2 → mantissa r1 = 0 → mantissa r2 = 0.
Proof.
  unfold same_value. intros E H. rewrite H in E. symmetry in E.
  apply Z.mul_eq_0 in E as [|E]; [done|]. by apply Z.pow_nonzero in E; [|lia..].
Qed.

Lemma written_exact p q : FloatRepr.ok p.2 → FloatRepr.ok q.2 →
  written p = written q ↔ same_number p q.
Proof.
  intros Hp Hq. unfold written, same_number. pose proof (zero_mantissa _ Hp) as Zp.
  pose proof (zero_mantissa _ Hq) as Zq.
  assert (same_value p.2 q.2 ↔ same_value q.2 p.2) as Hsym by (unfold same_value; by split).
  destruct (is_zero p.2) eqn:Ep, (is_zero q.2) eqn:Eq.
  - split; [|done]. intros _. assert (mantissa p.2 = 0) as Mp by (by apply Zp).
    assert (mantissa q.2 = 0) as Mq by (by apply Zq). split; [|by left].
    unfold same_value. rewrite Mp, Mq. lia.
  - destruct (significant_spec _ Hq Eq) as (S & _). split.
    + intros [= _ E]. pose proof (layout_repr_nonzero _ (point q.2) S) as N. by rewrite <-E in N.
    + intros [V _]. apply same_value_zero in V; [|by apply Zp]. by apply Zq in V.
  - destruct (significant_spec _ Hp Ep) as (S & _). split.
    + intros [= _ E]. pose proof (layout_repr_nonzero _ (point p.2) S) as N. by rewrite E in N.
    + intros [V _]. apply Hsym, same_value_zero in V; [|by apply Zq]. by apply Zp in V.
  - destruct (significant_spec _ Hp Ep) as (Sp & _), (significant_spec _ Hq Eq) as (Sq & _).
    rewrite same_value_significant by done. split.
    + intros [= En E]. split; [|by right]. split.
      * by rewrite <-(layout_repr_significant _ (point p.2) Sp), E, layout_repr_significant.
      * by rewrite <-(layout_repr_point _ (point p.2) Sp), E, layout_repr_point.
    + intros [[-> ->] [M| ->]]; [|done]. apply Zp in M. congruence.
Qed.

Lemma repr_text_first r : FloatRepr.ok r → ∃ c t, repr_text r = c :: t ∧ is_digit c.
Proof.
  intros (D & Hw & _). unfold repr_text. destruct (FloatRepr.whole r) as [|d w]; [done|].
  apply Forall_cons in D as [Hd _]. cbn. eexists _, _. split; [done|]. unfold is_digit.
  rewrite digit_text_value by done. lia.
Qed.

Lemma number_text_prefix p q t1 t2 : FloatRepr.ok p.2 → FloatRepr.ok q.2 →
  delimited t1 → delimited t2 → number_text p ++ t1 = number_text q ++ t2 → p = q ∧ t1 = t2.
Proof.
  destruct p as [n1 r1], q as [n2 r2]; unfold number_text; cbn [fst snd]. intros H1 H2 D1 D2 E.
  assert (∀ r t x, FloatRepr.ok r → repr_text r ++ t ≠ "-"%char :: x) as Hne.
  { intros r t x Hr. destruct (repr_text_first r Hr) as (c & y & -> & Hc). cbn.
    intros [= -> _]. unfold is_digit in Hc. vm_compute in Hc. intuition congruence. }
  destruct n1, n2; cbn [sign_text app] in E.
  - injection E as E. apply repr_text_prefix in E as [-> ->]; done.
  - by destruct (Hne r2 t2 (repr_text r1 ++ t1)).
  - by destruct (Hne r1 t1 (repr_text r2 ++ t2)).
  - apply repr_text_prefix in E as [-> ->]; done.
Qed.

(** ** The text of strings

    Each code point is written as a token that no other token continues, so the
    text of a string ends at its closing quote and determines the string; the
    UTF-16 order of keys is total and tells keys apart. *)
Definition char_ok (c : Z) : Prop := 0 ≤ c < 0x110000.
Definition text_ok (s : ustr) : Prop := Forall char_ok s.

(** ** UTF-8 *)
Ltac char_cases := repeat match goal with
  | H : context [if ?b then _ else _] |- _ => destruct b eqn:?
  | |- context [if ?b then _ else _] => destruct b eqn:?
  end; bprop.

Lemma utf8_char_prefix c d r1 r2 : char_ok c → char_ok d →
  utf8_char c ++ r1 = utf8_char d ++ r2 → c = d ∧ r1 = r2.
Proof.
  unfold char_ok, utf8_char. intros Hc Hd H. char_cases; cbn [app] in H; simplify_eq;
    ((split; [|done]) || exfalso); Z.div_mod_to_equations; lia.
Qed.

Lemma utf8_char_bytes c : char_ok c → Forall (λ z, 0 ≤ z < 256) (utf8_char c).
Proof.
  unfold char_ok, utf8_char. intros H. char_cases; repeat constructor;
    try apply Forall_nil_2; Z.div_mod_to_equations; lia.
Qed.

(** Above ASCII no byte is an ASCII one. *)
Lemma utf8_char_first c : char_ok c → ∃ x l, utf8_char c = x :: l ∧ (x = c ∨ 0xC0 ≤ x).
Proof.
  unfold char_ok, utf8_char. intros H. char_cases; (eexists _, _; split; [done|]);
    [by left|..]; right; Z.div_mod_to_equations; lia.
Qed.

(** ** UTF-16 *)
Lemma utf16_char_prefix c d r1 r2 : char_ok c → char_ok d →
  is_surrogate c = false → is_surrogate d = false →
  utf16_char c ++ r1 = utf16_char d ++ r2 → c = d ∧ r1 = r2.
Proof.
  unfold char_ok, utf16_char, is_surrogate. intros Hc Hd Sc Sd H.
  char_cases; cbn [app] in H; simplify_eq;
    ((split; [|done]) || exfalso); bprop; Z.div_mod_to_equations; lia.
Qed.

(** A text made of such tokens determines what it is made of. *)
Lemma tokens_inj {A} (tok : A → list Z) (P : A → Prop) :
  (∀ c d r1 r2, P c → P d → tok c ++ r1 = tok d ++ r2 → c = d ∧ r1 = r2) →
  (∀ c, P c → tok c ≠ []) →
  ∀ s1 s2, Forall P s1 → Forall P s2 → s1 ≫= tok = s2 ≫= tok → s1 = s2.
Proof.
  intros Hp Hn s1. induction s1 as [|c s1 IH]; intros [|d s2] H1 H2 E; cbn in E; [done|..].
  - apply Forall_cons in H2 as [Hd _]. symmetry in E. apply app_eq_nil in E as [E _]. by destruct (Hn d).
  - apply Forall_cons in H1 as [Hc _]. apply app_eq_nil in E as [E _]. by destruct (Hn c).
  - apply Forall_cons in H1 as [Hc H1], H2 as [Hd H2].
    destruct (Hp _ _ _ _ Hc Hd E) as [-> E']. f_equal. by apply IH.
Qed.

Lemma encodable_Forall s : encodable s = true ↔ Forall (λ c, is_surrogate c = false) s.
Proof.
  unfold encodable. rewrite forallb_forall, Forall_forall. split; intros H c Hc.
  - apply list_elem_of_In, H in Hc. by apply negb_true_iff.
  - apply negb_true_iff, H, list_elem_of_In, Hc.
Qed.

Lemma utf16_be_inj s1 s2 : text_ok s1 → text_ok s2 → encodable s1 = true → encodable s2 = true →
  utf16_be s1 = utf16_be s2 → s1 = s2.
Proof.
  rewrite !encodable_Forall. intros H1 H2 E1 E2.
  apply (tokens_inj _ (λ c, char_ok c ∧ is_surrogate c = false)).
  - intros c d r1 r2 [Hc Sc] [Hd Sd]. by apply utf16_char_prefix.
  - intros c _. unfold utf16_char. by destruct (_ <? _).
  - by apply Forall_and.
  - by apply Forall_and.
Qed.

#[export] Instance lex_leb_order : BoolOrder lex_leb.
Proof.
  split.
  - intros x. induction x as [|a x IH]; intros [|b y]; cbn; [by auto..|].
    destruct (a =? b) eqn:E; bprop; [subst; rewrite Z.eqb_refl; apply IH|].
    assert ((b =? a) = false) as -> by (bprop; congruence). bprop. lia.
  - intros x. induction x as [|a x IH]; intros [|b y] [|c z]; cbn; try done.
    destruct (a =? b) eqn:E1, (b =? c) eqn:E2; bprop; intros H1 H2; subst.
    + rewrite Z.eqb_refl. by eapply IH.
    + assert ((b =? c) = false) as -> by (bprop; congruence). by bprop.
    + assert ((a =? c) = false) as -> by (bprop; congruence). by bprop.
    + assert ((a =? c) = false) as -> by (bprop; lia). bprop. lia.
  - intros x. induction x as [|a x IH]; intros [|b y]; cbn; try done.
    destruct (a =? b) eqn:E; bprop; intros H1 H2; subst.
    + rewrite Z.eqb_refl in H2. f_equal. by apply IH.
    + assert ((b =? a) = false) as E' by (bprop; congruence). rewrite E' in H2. bprop. lia.
Qed.

(** ** Escapes *)
Definition token (c : Z) : list Z := escape c ≫= utf8_char.
Definition escaped : list Z := 34 :: 92 :: (Z.of_nat <$> seq 0 32).

Lemma escape_cases c : char_ok c → c ∈ escaped ∨ ((c ∉ escaped) ∧ token c = utf8_char c).
Proof.
  intros Hc. destruct (decide (c ∈ escaped)) as [|H]; [by left|right; split; [done|]].
  unfold escaped in H. rewrite !not_elem_of_cons in H. destruct H as (H1 & H2 & H3).
  assert (32 ≤ c) as H4.
  { destruct (decide (32 ≤ c)); [done|]. destruct H3. apply list_elem_of_fmap.
    exists (Z.to_nat c). unfold char_ok in Hc. split; [lia|]. apply elem_of_seq. lia. }
  unfold token, escape. repeat (case_match; bprop; [lia|]). cbn [mbind list_bind]. apply app_nil_r.
Qed.

(** The escapes are fixed texts, none of which begins another. *)
Lemma escaped_apart : forallb (λ c, forallb (λ d, (c =? d) || negb (bool_decide (token c `prefix_of` token d)))
  escaped) escaped = true.
Proof. by vm_compute. Qed.
Lemma escaped_first : forallb (λ c, match token c with x :: _ => x =? 92 | [] => false end) escaped = true.
Proof. by vm_compute. Qed.
Lemma escaped_bytes : forallb (λ c, forallb (λ z, (0 <=? z) && (z <? 256)) (token c)) escaped = true.
Proof. by vm_compute. Qed.
Lemma escaped_all (f : Z → bool) c : forallb f escaped = true → c ∈ escaped → f c = true.
Proof. intros H Hc. by eapply forallb_forall in H; [|apply list_elem_of_In]. Qed.

Lemma escaped_prefix c d : c ∈ escaped → d ∈ escaped → token c `prefix_of` token d → c = d.
Proof.
  intros Hc Hd Hp. pose proof (escaped_all _ _ (escaped_all _ _ escaped_apart Hc) Hd) as H.
  cbn beta in H. rewrite bool_decide_eq_true_2 in H by done. bprop in H. destruct H; [done|congruence].
Qed.

Lemma token_first c : char_ok c → ∃ x l, token c = x :: l ∧
  (c ∈ escaped ∧ x = 92 ∨ (c ∉ escaped) ∧ (x ≠ 34) ∧ (x ≠ 92)).
Proof.
  intros Hc. destruct (escape_cases c Hc) as [He|[He ->]].
  - pose proof (escaped_all _ _ escaped_first He) as H. cbn beta in H.
    destruct (token c) as [|x l]; [done|]. bprop in H. exists x, l. by auto.
  - destruct (utf8_char_first c Hc) as (x & l & -> & Hx). exists x, l. split; [done|right].
    split; [done|]. unfold escaped in He. rewrite !not_elem_of_cons in He.
    destruct He as (H1 & H2 & _). destruct Hx as [->|]; [done|lia].
Qed.

Lemma token_prefix c d r1 r2 : char_ok c → char_ok d →
  token c ++ r1 = token d ++ r2 → c = d ∧ r1 = r2.
Proof.
  intros Hc Hd H. destruct (token_first c Hc) as (x & l & Ex & Cx).
  destruct (token_first d Hd) as (y & m & Ey & Cy).
  assert (x = y) as -> by (rewrite Ex, Ey in H; by injection H).
  destruct Cx as [[Ic Xc]|(Nc & _ & Nx)], Cy as [[Id Xd]|(Nd & _ & Ny)]; try done.
  - assert (c = d) as ->.
    { apply app_eq_inv in H as [(k & E & _)|(k & E & _)].
      - symmetry. apply escaped_prefix; [done..|]. by exists k.
      - apply escaped_prefix; [done..|]. by exists k. }
    split; [done|]. by simplify_list_eq.
  - destruct (escape_cases c Hc) as [?|[_ Tc]]; [done|].
    destruct (escape_cases d Hd) as [?|[_ Td]]; [done|].
    rewrite Tc, Td in H. by apply utf8_char_prefix.
Qed.

(** ** Strings *)
Definition string_tokens (s : ustr) : list Z := [34] ++ (s ≫= token) ++ [34].

Lemma token_bytes c : char_ok c → Forall (λ z, 0 ≤ z < 256) (token c).
Proof.
  intros Hc. destruct (escape_cases c Hc) as [He|[_ ->]]; [|by apply utf8_char_bytes].
  pose proof (escaped_all _ _ escaped_bytes He) as H. cbn beta in H.
  apply Forall_forall. intros z Hz. eapply forallb_forall in H; [|by apply list_elem_of_In].
  bprop in H. lia.
Qed.

Lemma escape_plain c : char_ok c → encodable (escape c) = negb (is_surrogate c).
Proof.
  intros Hc. destruct (decide (c ∈ escaped)) as [He|He].
  - assert (forallb (λ c, bool_decide (encodable (escape c) = negb (is_surrogate c))) escaped = true)
      as H by (by vm_compute).
    pose proof (escaped_all _ _ H He) as Hx. by apply bool_decide_eq_true in Hx.
  - assert (escape c = [c]) as ->; [|apply andb_true_r].
    unfold escaped in He. rewrite !not_elem_of_cons in He. destruct He as (H1 & H2 & H3).
    assert (32 ≤ c) as H4.
    { destruct (decide (32 ≤ c)); [done|]. destruct H3. apply list_elem_of_fmap.
      exists (Z.to_nat c). unfold char_ok in Hc. split; [lia|]. apply elem_of_seq. lia. }
    unfold escape. by repeat (case_match; bprop; [lia|]).
Qed.

Lemma encodable_app s1 s2 : encodable (s1 ++ s2) = encodable s1 && encodable s2.
Proof. apply forallb_app. Qed.
Lemma encodable_dumps s : text_ok s → encodable (dumps_str s) = encodable s.
Proof.
  intros H. unfold dumps_str. rewrite !encodable_app.
  change (encodable [34]) with true. rewrite andb_true_r. cbn [andb].
  induction H as [|c s Hc _ IH]; [done|]. cbn [mbind list_bind].
  by rewrite encodable_app, escape_plain, IH.
Qed.
Lemma dumps_tokens s : dumps_str s ≫= utf8_char = string_tokens s.
Proof.
  unfold dumps_str, string_tokens. rewrite !bind_app. f_equal. f_equal.
  induction s as [|c s IH]; [done|]. cbn [mbind list_bind] in *. by rewrite bind_app, IH.
Qed.

Lemma serialize_str_Ok s b : text_ok s →
  serialize_str s = Ok b ↔ encodable s = true ∧ b = byte_of <$> string_tokens s.
Proof.
  intros H. unfold serialize_str, encode_utf8. rewrite encodable_dumps, dumps_tokens by done.
  destruct (encodable s); cbn; [|by split; [|intros [? _]]].
  split; [by intros [= <-]|by intros [_ ->]].
Qed.

Lemma bytes_of_values (b : bytes) : b = byte_of <$> (byte_value <$> b).
Proof.
  rewrite <-list_fmap_compose. rewrite <-(list_fmap_id b) at 1. apply list_fmap_ext. intros i c _.
  unfold compose, byte_of, byte_value. by rewrite N2Z.id, ascii_N_embedding.
Qed.
Lemma byte_values_bound (b : bytes) : Forall (λ z, 0 ≤ z < 256) (byte_value <$> b).
Proof.
  apply Forall_fmap, Forall_forall. intros c _. cbn. unfold byte_value.
  pose proof (N_ascii_bounded c). lia.
Qed.
Lemma tokens_bound s : text_ok s → Forall (λ z, 0 ≤ z < 256) (string_tokens s).
Proof.
  intros H. unfold string_tokens. apply Forall_app. split; [by constructor; [lia|]|].
  apply Forall_app. split; [|by constructor; [lia|]].
  induction H as [|c s Hc _ IH]; [constructor|]. apply Forall_app. split; [by apply token_bytes|done].
Qed.

Lemma string_tokens_prefix s1 : ∀ s2 r1 r2, text_ok s1 → text_ok s2 →
  (s1 ≫= token) ++ 34 :: r1 = (s2 ≫= token) ++ 34 :: r2 → s1 = s2 ∧ r1 = r2.
Proof.
  assert (∀ c s r x, char_ok c → 34 :: x ≠ (((c :: s) ≫= token) ++ r)) as Hne.
  { intros c s r x Hc E. destruct (token_first c Hc) as (y & l & Et & Hy). cbn in E.
    rewrite Et in E. injection E as <- _. intuition lia. }
  induction s1 as [|c s1 IH]; intros [|d s2] r1 r2 H1 H2 E.
  - by injection E as ->.
  - apply Forall_cons in H2 as [Hd _]. by destruct (Hne d s2 (34 :: r2) r1).
  - apply Forall_cons in H1 as [Hc _]. by destruct (Hne c s1 (34 :: r1) r2).
  - apply Forall_cons in H1 as [Hc H1], H2 as [Hd H2]. cbn [mbind list_bind] in E.
    rewrite <-!app_assoc in E. apply token_prefix in E as [-> E]; [|done..].
    by apply IH in E as [-> ->].
Qed.

Lemma serialize_str_prefix s1 s2 b1 b2 r1 r2 : text_ok s1 → text_ok s2 →
  serialize_str s1 = Ok b1 → serialize_str s2 = Ok b2 → b1 ++ r1 = b2 ++ r2 → s1 = s2 ∧ r1 = r2.
Proof.
  intros H1 H2 [_ ->]%serialize_str_Ok [_ ->]%serialize_str_Ok; [|done..].
  rewrite (bytes_of_values r1), (bytes_of_values r2), <-!fmap_app. intros E%byte_of_inj;
    [|apply Forall_app; auto using tokens_bound, byte_values_bound..].
  injection E as E. rewrite <-!app_assoc in E. cbn [app] in E.
  apply string_tokens_prefix in E as [-> ->]; done.
Qed.
