(* ===== verification/CanonicalProps.v ===== *)
(** * Canonical JSON determines its value

    Two values have the same canonical bytes exactly when they are the same JSON
    value: the same structure, the same strings, numbers with the same value, and
    objects with the same members in any order. *)
From S2P Require Export CanonicalFacts.
From Stdlib Require Import Ascii.
#[local] Open Scope Z_scope.

Module JsonFacts.
(** ** Values *)
Section Induction.
Context (P : Json → Prop).
Context (Hnull : P JNull) (Hbool : ∀ b, P (JBool b)) (Hstr : ∀ s, P (JStr s)).
Context (Hint : ∀ z, P (JInt z)) (Hfloat : ∀ f, P (JFloat f)).
Context (Harr : ∀ l, Forall P l → P (JArr l)).
Context (Hobj : ∀ d, Forall (λ p : ustr * Json, P p.2) d → P (JObj d)).
Fixpoint json_ind' (v : Json) : P v :=
  match v with
  | JNull => Hnull
  | JBool b => Hbool b
  | JStr s => Hstr s
  | JInt z => Hint z
  | JFloat f => Hfloat f
  | JArr l => Harr l ((fix go l := match l return Forall P l with
      | [] => Forall_nil_2 _ | v :: l => Forall_cons_2 _ v l (json_ind' v) (go l) end) l)
  | JObj d => Hobj d ((fix go d := match d return Forall (λ p : ustr * Json, P p.2) d with
      | [] => Forall_nil_2 _
      | (k, v) :: d => Forall_cons_2 (λ p : ustr * Json, P p.2) (k, v) d (json_ind' v) (go d) end) d)
  end.
End Induction.

(** What Python's values satisfy: code points, keys that differ, and floats that
    [repr] writes. *)
Definition all {A} (P : A → Prop) : list A → Prop :=
  fix go l := match l with [] => True | x :: l => P x ∧ go l end.
Fixpoint json_ok (v : Json) : Prop :=
  match v with
  | JStr s => text_ok s
  | JFloat (Finite _ r) => FloatRepr.ok r
  | JArr l => all json_ok l
  | JObj d => dict_ok d ∧ all (λ p : ustr * Json, let (k, v) := p in text_ok k ∧ json_ok v) d
  | _ => True
  end.

Definition all2 {A B} (P : A → B → Prop) : list A → list B → Prop :=
  fix go l1 l2 := match l1, l2 with
    | [], [] => True
    | x :: l1, y :: l2 => P x y ∧ go l1 l2
    | _, _ => False
    end.
(** The same JSON value. *)
Fixpoint same_json (v w : Json) : Prop :=
  match v, w with
  | JNull, JNull => True
  | JBool a, JBool b => a = b
  | JStr s, JStr t => s = t
  | JArr l, JArr m => all2 same_json l m
  | JObj d, JObj e => length d = length e ∧
      all (λ p : ustr * Json, let (k, v) := p in ∃ w, dget k e = Some w ∧ same_json v w) d
  | v, w => match numeral v, numeral w with
            | Some p, Some q => same_number p q
            | _, _ => False
            end
  end.

Lemma all_Forall {A} (P : A → Prop) l : all P l ↔ Forall P l.
Proof. induction l as [|x l IH]; cbn; [done|]. by rewrite Forall_cons, IH. Qed.
Lemma all2_Forall2 {A B} (P : A → B → Prop) l m : all2 P l m ↔ Forall2 P l m.
Proof.
  revert m. induction l as [|x l IH]; intros [|y m]; cbn.
  - by split; [constructor|].
  - by split; [|intros ?%Forall2_nil_cons_inv].
  - by split; [|intros ?%Forall2_cons_nil_inv].
  - by rewrite Forall2_cons, IH.
Qed.

(** The same, decided. *)
#[local] Instance float_ok_dec r : Decision (FloatRepr.ok r).
Proof. unfold FloatRepr.ok. apply _. Defined.
Fixpoint json_okb (v : Json) : bool :=
  match v with
  | JStr s => forallb (λ c, (0 <=? c) && (c <? 0x110000)) s
  | JFloat (Finite _ r) => bool_decide (FloatRepr.ok r)
  | JArr l => forallb json_okb l
  | JObj d => bool_decide (NoDup (dkeys d)) && forallb (λ p : ustr * Json, let (k, v) := p in
      forallb (λ c, (0 <=? c) && (c <? 0x110000)) k && json_okb v) d
  | _ => true
  end.
Lemma text_okb_sound s : forallb (λ c, (0 <=? c) && (c <? 0x110000)) s = true → text_ok s.
Proof.
  rewrite forallb_forall. intros H. apply Forall_forall. intros c Hc.
  apply list_elem_of_In, H in Hc. unfold char_ok. bprop. lia.
Qed.
Lemma json_okb_sound v : json_okb v = true → json_ok v.
Proof.
  induction v as [|b|s|z|f|l IH|d IH] using json_ind'; cbn [json_okb json_ok]; intros H; try done.
  - by apply text_okb_sound.
  - destruct f; [by apply bool_decide_eq_true in H|done].
  - apply all_Forall. rewrite Forall_forall in IH |- *. intros v Hv. apply IH; [done|].
    eapply forallb_forall in H; [exact H|]. by apply list_elem_of_In.
  - apply andb_true_iff in H as [Hd H]. apply bool_decide_eq_true in Hd. split; [done|].
    apply all_Forall. rewrite Forall_forall in IH |- *. intros [k v] Hv.
    eapply forallb_forall in H; [|by apply list_elem_of_In]. cbn in H.
    apply andb_true_iff in H as [Hk H]. split; [by apply text_okb_sound|by apply (IH (k, v))].
Qed.

(** ** Sequences of parts *)
Lemma sequence_Ok {A} (l : list (result A)) xs : sequence l = Ok xs ↔ l = Ok <$> xs.
Proof.
  revert xs. induction l as [|r l IH]; intros xs; cbn.
  - split; [by intros [= <-]|by destruct xs].
  - rewrite bind_Ok. split.
    + intros (x & -> & (ys & H & [= <-])%bind_Ok). apply IH in H as ->. done.
    + destruct xs as [|x xs]; [done|]. intros [= -> ->]. exists x. split; [done|].
      apply bind_Ok. exists xs. split; [by apply IH|done].
Qed.
Lemma sequence_map {A B} (f : A → result B) l xs :
  sequence (List.map f l) = Ok xs ↔ Forall2 (λ x y, f x = Ok y) l xs.
Proof.
  rewrite sequence_Ok. revert xs. induction l as [|x l IH]; intros xs; cbn.
  - by destruct xs; split; [constructor|..|intros [=]|intros ?%Forall2_nil_cons_inv].
  - destruct xs as [|y xs]; cbn; [by split; [|intros ?%Forall2_cons_nil_inv]|].
    rewrite Forall2_cons, <-IH. split; [by intros [= -> ->]|by intros [-> ->]].
Qed.

(** The parts after the first, up to the closing bracket. *)
Fixpoint parts_text (parts : list bytes) (r : bytes) : bytes :=
  match parts with
  | [] => r
  | p :: parts => ","%char :: p ++ parts_text parts r
  end.
Lemma join_comma_cons p parts r : join_comma (p :: parts) ++ r = p ++ parts_text parts r.
Proof.
  revert p. induction parts as [|q parts IH]; intros p; [done|].
  change (join_comma (p :: q :: parts)) with (p ++ literal_bytes "," ++ join_comma (q :: parts)).
  rewrite <-!app_assoc, IH. done.
Qed.

(** Two joined lists of parts, each of which ends at a separator. *)
Section Parts.
Context {A : Type} (text : A → result bytes) (ok : A → Prop) (R : A → A → Prop).
Context (close : ascii) (Hclose : close ∈ [ "]"%char; "}"%char ]).
Definition parses (x : A) : Prop := ∀ y b1 b2 r1 r2, ok y →
  text x = Ok b1 → text y = Ok b2 → delimited r1 → delimited r2 →
  b1 ++ r1 = b2 ++ r2 → R x y ∧ r1 = r2.
Definition opens (x : A) : Prop := ∀ b, text x = Ok b → ∃ c t, b = c :: t ∧ c ∉ delimiters.

Lemma close_delimiter r : delimited (close :: r).
Proof.
  intros c [= <-]. unfold delimiters, literal_bytes; cbn.
  rewrite !elem_of_cons in Hclose. rewrite !elem_of_cons. naive_solver.
Qed.
Lemma parts_delimited parts r : delimited (parts_text parts (close :: r)).
Proof.
  destruct parts as [|p parts]; [apply close_delimiter|]. intros c [= <-]. by left.
Qed.
Lemma comma_not_close : close ≠ ","%char.
Proof. rewrite !elem_of_cons in Hclose. destruct Hclose as [->|[->|?%elem_of_nil]]; done. Qed.

Lemma parts_text_prefix l1 : ∀ l2 p1 p2 r1 r2,
  Forall parses l1 → Forall ok l2 →
  Forall2 (λ x b, text x = Ok b) l1 p1 → Forall2 (λ x b, text x = Ok b) l2 p2 →
  parts_text p1 (close :: r1) = parts_text p2 (close :: r2) → Forall2 R l1 l2 ∧ r1 = r2.
Proof.
  induction l1 as [|x l1 IH]; intros l2 p1 p2 r1 r2 Hp Hok H1 H2 E.
  - apply Forall2_nil_inv_l in H1 as ->. destruct H2 as [|y b2 l2 p2 _ _].
    + by injection E as ->.
    + injection E as E _. by destruct comma_not_close.
  - apply Forall_cons in Hp as [Hx Hp].
    apply Forall2_cons_inv_l in H1 as (b1 & p1' & Hb1 & H1 & ->).
    destruct H2 as [|y b2 l2 p2 Hb2 H2].
    + injection E as E _. by destruct comma_not_close.
    + injection E as E. apply Forall_cons in Hok as [Hy Hok].
      eapply Hx in E as [Rxy E]; eauto using parts_delimited.
      apply (IH l2 p1' p2 r1 r2 Hp Hok H1 H2) in E as [Rl ->]. by split; [constructor|].
Qed.

Lemma join_comma_prefix l1 l2 p1 p2 r1 r2 :
  Forall parses l1 → Forall ok l2 → Forall opens l1 → Forall opens l2 →
  Forall2 (λ x b, text x = Ok b) l1 p1 → Forall2 (λ x b, text x = Ok b) l2 p2 →
  join_comma p1 ++ close :: r1 = join_comma p2 ++ close :: r2 → Forall2 R l1 l2 ∧ r1 = r2.
Proof.
  assert (∀ x b t r, opens x → text x = Ok b → close :: r ≠ b ++ t) as Hne.
  { intros x b t r Ho Hb E. destruct (Ho b Hb) as (c & y & -> & Hc). injection E as <- _.
    destruct Hc. by apply (delimited_byte _ []), close_delimiter. }
  intros Hp Hok O1 O2 H1 H2 E. destruct H1 as [|x b1 l1 p1 Hb1 H1], H2 as [|y b2 l2 p2 Hb2 H2].
  - by injection E as ->.
  - rewrite join_comma_cons in E. apply Forall_cons in O2 as [Oy _]. by destruct (Hne _ _ _ _ Oy Hb2 E).
  - rewrite join_comma_cons in E. apply Forall_cons in O1 as [Ox _]. symmetry in E.
    by destruct (Hne _ _ _ _ Ox Hb1 E).
  - rewrite !join_comma_cons in E. apply Forall_cons in Hp as [Hx Hp], Hok as [Hy Hok].
    eapply Hx in E as [Rxy E]; eauto using parts_delimited.
    apply (parts_text_prefix l1 l2 p1 p2 r1 r2 Hp Hok H1 H2) in E as [Rl ->]. by split; [constructor|].
Qed.
End Parts.

(** ** The first byte *)
Definition char_kind (c : ascii) : Z :=
  let z := byte_value c in
  if z =? 110 then 0 else if z =? 116 then 1 else if z =? 102 then 2
  else if z =? 34 then 3 else if z =? 91 then 5 else if z =? 123 then 6
  else if (z =? 45) || ((48 <=? z) && (z <=? 57)) then 4 else 7.
Definition kind (v : Json) : Z :=
  match v with
  | JNull => 0 | JBool true => 1 | JBool false => 2 | JStr _ => 3
  | JInt _ | JFloat _ => 4 | JArr _ => 5 | JObj _ => 6
  end.

Lemma number_text_first p : FloatRepr.ok p.2 → ∃ c t, number_text p = c :: t ∧ char_kind c = 4.
Proof.
  intros H. destruct (repr_text_first _ H) as (c & t & E & Hc). unfold number_text.
  destruct p.1; cbn [sign_text app]; [by eexists _, _|]. rewrite E. exists c, t. split; [done|].
  unfold is_digit in Hc. unfold char_kind. repeat (destruct (_ =? _) eqn:?; bprop; [lia|]).
  cbn [orb]. destruct (_ && _) eqn:?; bprop; [done|lia].
Qed.

Lemma serialize_first v b : json_ok v → serialize v = Ok b →
  ∃ c t, b = c :: t ∧ char_kind c = kind v.
Proof.
  intros Hok H. destruct (numeral v) as [p|] eqn:En.
  - assert (∀ n r, v = JFloat (Finite n r) → FloatRepr.ok r) as Hr by (by intros n r ->).
    destruct (numeral_text v p b En Hr H) as [-> Hp].
    destruct (number_text_first _ (written_ok _ Hp)) as (c & t & -> & Hc).
    exists c, t. split; [done|]. rewrite Hc. by destruct v as [|[]| | | | |].
  - destruct v as [|[]|s|z|[n r|]|l|d]; try done; cbn [serialize] in H.
    + injection H as <-. by eexists _, _.
    + injection H as <-. by eexists _, _.
    + injection H as <-. by eexists _, _.
    + apply serialize_str_Ok in H as [_ ->]; [|done]. by eexists _, _.
    + apply bind_Ok in H as (ps & _ & [= <-]). by eexists _, _.
    + apply bind_Ok in H as (items & _ & (ps & _ & [= <-])%bind_Ok). by eexists _, _.
Qed.

Lemma serialize_opens v : json_ok v → opens serialize v.
Proof.
  intros Hok b H. destruct (serialize_first v b Hok H) as (c & t & -> & Hc).
  exists c, t. split; [done|]. intros Hin. assert (char_kind c = 7) as H7.
  { unfold delimiters, literal_bytes in Hin; cbn in Hin. rewrite !elem_of_cons in Hin.
    destruct Hin as [->|[->|[->|Hin%elem_of_nil]]]; done. }
  rewrite Hc in H7. by destruct v as [|[]| | | | |].
Qed.

(** ** Objects *)
Lemma sorted_by_map {A B K} (key : B → K) (leb : K → K → bool) (g : A → B) l :
  sorted_by key leb (g <$> l) = g <$> sorted_by (λ x, key (g x)) leb l.
Proof.
  unfold sorted_by. induction l as [|x l IH]; [done|]. cbn. rewrite IH.
  generalize (foldr (insert_by (λ x, key (g x)) leb) [] l). intros m.
  induction m as [|y m IHm]; [done|]. cbn. destruct (leb _ _); [done|]. cbn. by rewrite <-IHm.
Qed.

Definition items_of (d : dict ustr Json) : list (ustr * Json) :=
  sorted_by (λ p, utf16_be p.1) lex_leb d.
Definition member_text (p : ustr * Json) : result bytes := member (p.1, serialize p.2).

Lemma serialize_obj d b : serialize (JObj d) = Ok b ↔
  forallb encodable (dkeys d) = true ∧ ∃ parts,
    Forall2 (λ p b, member_text p = Ok b) (items_of d) parts ∧
    b = literal_bytes "{" ++ join_comma parts ++ literal_bytes "}".
Proof.
  cbn [serialize]. set (f := λ p : ustr * Json, let (k, v) := p in (k, serialize v)).
  assert (List.map f d = (λ p, (p.1, serialize p.2)) <$> d) as ->.
  { apply map_ext. by intros []. }
  rewrite bind_Ok. unfold sorted_items.
  assert (dkeys ((λ p, (p.1, serialize p.2)) <$> d) = dkeys d) as ->.
  { unfold dkeys. by rewrite <-list_fmap_compose. }
  rewrite (sorted_by_map (λ p, utf16_be p.1)). cbn beta. fold (items_of d).
  assert (∀ ps, sequence (member <$> ((λ p, (p.1, serialize p.2)) <$> items_of d)) = Ok ps ↔
    Forall2 (λ p b, member_text p = Ok b) (items_of d) ps) as Hm.
  { intros ps. rewrite <-sequence_map, <-list_fmap_compose. done. }
  split.
  - intros (items & H & (parts & Hp & [= <-])%bind_Ok). apply bind_Ok in H as ([] & He & [= <-]).
    apply raise_if_Ok, negb_false_iff in He. split; [done|]. exists parts. split; [by apply Hm|done].
  - intros (He & parts & Hp & ->). eexists. split; [by rewrite He|]. apply bind_Ok. exists parts.
    split; [by apply Hm|done].
Qed.

Lemma items_perm d : items_of d ≡ₚ d.
Proof. apply sorted_by_perm. Qed.
Lemma json_ok_items d : json_ok (JObj d) → Forall (λ p, text_ok p.1 ∧ json_ok p.2) (items_of d).
Proof.
  intros [_ H%all_Forall]. rewrite items_perm. eapply Forall_impl; [exact H|]. by intros [].
Qed.

(** The members of the other object are found by key. *)
Lemma items_same d e : json_ok (JObj d) → json_ok (JObj e) →
  Forall2 (λ p q, p.1 = q.1 ∧ same_json p.2 q.2) (items_of d) (items_of e) →
  same_json (JObj d) (JObj e).
Proof.
  intros [Hd _] [He _] H. cbn. split.
  - pose proof (Forall2_length _ _ _ H) as L. unfold items_of in L. by rewrite !length_sorted_by in L.
  - apply all_Forall, Forall_forall. intros [k v] Hin. rewrite <-(items_perm d) in Hin.
    apply list_elem_of_lookup in Hin as [i Hi].
    destruct (Forall2_lookup_l _ _ _ _ _ H Hi) as ([k' w] & Hj & [Ek Hs]). cbn in *. subst k'.
    exists w. split; [|done]. apply elem_of_dget; [done|]. rewrite <-(items_perm e).
    apply list_elem_of_lookup. by exists i.
Qed.

Lemma serialize_kind v w b1 b2 r1 r2 : json_ok v → json_ok w →
  serialize v = Ok b1 → serialize w = Ok b2 → b1 ++ r1 = b2 ++ r2 → kind v = kind w.
Proof.
  intros Hv Hw H1 H2 E. destruct (serialize_first v b1 Hv H1) as (c & t & -> & <-).
  destruct (serialize_first w b2 Hw H2) as (d & u & -> & <-). by injection E as ->.
Qed.

Lemma numeral_parses v w p q b1 b2 r1 r2 : json_ok v → json_ok w →
  numeral v = Some p → numeral w = Some q →
  serialize v = Ok b1 → serialize w = Ok b2 → delimited r1 → delimited r2 →
  b1 ++ r1 = b2 ++ r2 → same_number p q ∧ r1 = r2.
Proof.
  intros Hv Hw Np Nq H1 H2 D1 D2 E.
  apply (numeral_text _ _ _ Np) in H1 as [-> Hp]; [|by intros n r ->].
  apply (numeral_text _ _ _ Nq) in H2 as [-> Hq]; [|by intros n r ->].
  apply number_text_prefix in E as [Ew ->]; auto using written_ok.
  split; [|done]. by apply written_exact.
Qed.

(** A member is its key, which ends at its quote, and its value. *)
Lemma member_Ok p b : member_text p = Ok b ↔ ∃ k v,
  serialize_str p.1 = Ok k ∧ serialize p.2 = Ok v ∧ b = k ++ ":"%char :: v.
Proof.
  unfold member_text, member; cbn [fst snd]. rewrite bind_Ok. split.
  - intros (k & Hk & (v & Hv & [= <-])%bind_Ok). by exists k, v.
  - intros (k & v & Hk & Hv & ->). exists k. split; [done|]. apply bind_Ok. by exists v.
Qed.
Lemma member_parses p : text_ok p.1 ∧ json_ok p.2 → parses serialize json_ok same_json p.2 →
  parses member_text (λ p, text_ok p.1 ∧ json_ok p.2) (λ p q, p.1 = q.1 ∧ same_json p.2 q.2) p.
Proof.
  intros [Hk Hv] IH q b1 b2 r1 r2 [Hk' Hv'] (k1 & v1 & K1 & V1 & ->)%member_Ok
    (k2 & v2 & K2 & V2 & ->)%member_Ok D1 D2 E.
  rewrite <-!app_assoc in E. eapply serialize_str_prefix in E as [-> E]; [|done..].
  injection E as E. eapply IH in E as [S ->]; [|done..]. done.
Qed.
Lemma member_opens p : text_ok p.1 → opens member_text p.
Proof.
  intros Hk b (k & v & [_ ->]%serialize_str_Ok & _ & ->)%member_Ok; [|done].
  eexists _, _. split; [done|]. unfold delimiters, literal_bytes; cbn.
  rewrite !not_elem_of_cons. split_and!; [done..|apply not_elem_of_nil].
Qed.

(** A serialized value ends where a separator follows, and determines the value. *)
Lemma serialize_parses v : json_ok v → parses serialize json_ok same_json v.
Proof.
  induction v as [|b|s|z|f|l IH|d IH] using json_ind'; intros Hv w b1 b2 r1 r2 Hw H1 H2 D1 D2 E;
    pose proof (serialize_kind _ _ _ _ _ _ Hv Hw H1 H2 E) as K.
  - destruct w as [|[]| | | | |]; try done. injection H1 as <-. injection H2 as <-.
    by apply app_inv_head in E.
  - destruct b, w as [|[]| | | | |]; try done; injection H1 as <-; injection H2 as <-;
      by apply app_inv_head in E.
  - destruct w as [|[]|t| | | |]; try done. cbn in *. by eapply serialize_str_prefix.
  - destruct w as [|[]| |z'|[n r|]| |]; try done;
      by apply (numeral_parses _ _ _ _ _ _ _ _ Hv Hw eq_refl eq_refl H1 H2 D1 D2) in E.
  - destruct f as [n r|]; [|done]. destruct w as [|[]| |z'|[n' r'|]| |]; try done;
      by apply (numeral_parses _ _ _ _ _ _ _ _ Hv Hw eq_refl eq_refl H1 H2 D1 D2) in E.
  - destruct w as [|[]| | | |m|]; try done. cbn [serialize] in H1, H2.
    apply bind_Ok in H1 as (p1 & P1%sequence_map & [= <-]).
    apply bind_Ok in H2 as (p2 & P2%sequence_map & [= <-]).
    cbn in Hv, Hw. apply all_Forall in Hv, Hw. injection E as E. rewrite <-!app_assoc in E.
    eapply (join_comma_prefix serialize json_ok same_json) in E as [R ->]; [..|exact P1|exact P2].
    + split; [|done]. cbn. by apply all2_Forall2.
    + left.
    + apply Forall_forall. intros x Hx. rewrite Forall_forall in IH, Hv. by apply IH, Hv.
    + done.
    + eapply Forall_impl; [exact Hv|]. apply serialize_opens.
    + eapply Forall_impl; [exact Hw|]. apply serialize_opens.
  - destruct w as [|[]| | | | |e]; try done.
    apply serialize_obj in H1 as (_ & p1 & P1 & ->), H2 as (_ & p2 & P2 & ->).
    pose proof (json_ok_items _ Hv) as Iv. pose proof Iv as Hkv. rewrite items_perm in Hkv. pose proof (json_ok_items _ Hw) as Iw.
    injection E as E. rewrite <-!app_assoc in E.
    eapply (join_comma_prefix member_text (λ p, text_ok p.1 ∧ json_ok p.2)
      (λ p q, p.1 = q.1 ∧ same_json p.2 q.2)) in E as [R ->]; [..|exact P1|exact P2].
    + split; [|done]. by apply items_same.
    + right. left.
    + rewrite items_perm. rewrite Forall_forall in IH, Hkv. apply Forall_forall. intros p Hp.
      by apply member_parses; [apply Hkv|apply IH, Hkv].
    + done.
    + eapply Forall_impl; [exact Iv|]. intros p [Hp _]. by apply member_opens.
    + eapply Forall_impl; [exact Iw|]. intros p [Hp _]. by apply member_opens.
Qed.

(** ** The same value has the same bytes *)
Lemma sorted_keys_unique (l1 l2 : list ustr) :
  Forall (λ k, text_ok k ∧ encodable k = true) l1 → NoDup l1 → l1 ≡ₚ l2 →
  sorted_by utf16_be lex_leb l1 = sorted_by utf16_be lex_leb l2.
Proof.
  intros H Hn Hp. apply sorted_by_unique; [apply _| |done].
  clear Hp. induction Hn as [|k l Hk Hn IH]; [constructor|]. cbn. apply Forall_cons in H as [[Tk Ek] H].
  constructor; [|by apply IH].
  intros (k' & E & Hk')%list_elem_of_fmap. rewrite Forall_forall in H.
  destruct (H k' Hk') as [Tk' Ek']. apply utf16_be_inj in E; [|done..]. by subst.
Qed.

Lemma items_keys d : (items_of d).*1 = sorted_by utf16_be lex_leb (dkeys d).
Proof. unfold items_of, dkeys. by rewrite (sorted_by_map utf16_be lex_leb fst). Qed.

Lemma same_keys d e : dict_ok d → dict_ok e → same_json (JObj d) (JObj e) → dkeys d ≡ₚ dkeys e.
Proof.
  intros Hd He [Hl Ha%all_Forall]. apply submseteq_length_Permutation; [|unfold dkeys; rewrite !length_fmap; lia].
  apply NoDup_submseteq; [done|]. intros k ([k' v] & -> & Hin)%list_elem_of_fmap.
  rewrite Forall_forall in Ha. destruct (Ha _ Hin) as (w & Hw & _).
  apply dget_is_Some. by exists w.
Qed.

Lemma same_items d e : json_ok (JObj d) → json_ok (JObj e) → forallb encodable (dkeys d) = true →
  same_json (JObj d) (JObj e) →
  Forall2 (λ p q, p.1 = q.1 ∧ same_json p.2 q.2) (items_of d) (items_of e).
Proof.
  intros Hd He Henc Hs. pose proof (same_keys d e (proj1 Hd) (proj1 He) Hs) as Hp.
  assert ((items_of d).*1 = (items_of e).*1) as Hk.
  { rewrite !items_keys. apply sorted_keys_unique; [|apply Hd|done].
    destruct Hd as [_ Hd%all_Forall]. apply Forall_forall. intros k Hk. split.
    - apply list_elem_of_fmap in Hk as ([k' v] & -> & Hk). rewrite Forall_forall in Hd.
      by apply (Hd (k', v)).
    - eapply forallb_forall in Henc; [exact Henc|]. by apply list_elem_of_In. }
  apply Forall2_same_length_lookup_2.
  { apply (f_equal length) in Hk. by rewrite !length_fmap in Hk. }
  intros i [k v] [k' w] Hi Hj. cbn.
  assert (k = k') as <-.
  { apply (f_equal (lookup i)) in Hk. rewrite !list_lookup_fmap, Hi, Hj in Hk. by injection Hk. }
  split; [done|]. destruct Hs as [_ Hs%all_Forall]. rewrite Forall_forall in Hs.
  assert ((k, v) ∈ d) as Hin by (rewrite <-(items_perm d); apply list_elem_of_lookup; by exists i).
  destruct (Hs _ Hin) as (w' & Hw & Hsame).
  assert ((k, w) ∈ e) as Hin' by (rewrite <-(items_perm e); apply list_elem_of_lookup; by exists i).
  apply elem_of_dget in Hin'; [|apply He]. congruence.
Qed.

Lemma Forall2_texts {A} (text : A → result bytes) (R : A → A → Prop) l1 l2 p1 p2 :
  Forall (λ x, ∀ y b1 b2, y ∈ l2 → R x y → text x = Ok b1 → text y = Ok b2 → b1 = b2) l1 →
  Forall2 R l1 l2 → Forall2 (λ x b, text x = Ok b) l1 p1 → Forall2 (λ x b, text x = Ok b) l2 p2 →
  p1 = p2.
Proof.
  intros H R12. revert p1 p2. induction R12 as [|x y l1 l2 Rxy R12 IH]; intros p1 p2 H1 H2.
  - apply Forall2_nil_inv_l in H1 as ->. by apply Forall2_nil_inv_l in H2 as ->.
  - apply Forall_cons in H as [Hx H].
    apply Forall2_cons_inv_l in H1 as (b1 & q1 & B1 & H1 & ->).
    apply Forall2_cons_inv_l in H2 as (b2 & q2 & B2 & H2 & ->).
    f_equal; [eapply Hx; eauto; by left|]. apply IH; [|done..].
    eapply Forall_impl; [exact H|]. intros z Hz w c1 c2 Hw. apply Hz. by right.
Qed.

Lemma serialize_numeral v w p q b1 b2 : json_ok v → json_ok w →
  numeral v = Some p → numeral w = Some q → same_number p q →
  serialize v = Ok b1 → serialize w = Ok b2 → b1 = b2.
Proof.
  intros Hv Hw Np Nq S H1 H2.
  apply (numeral_text _ _ _ Np) in H1 as [-> Hp]; [|by intros n r ->].
  apply (numeral_text _ _ _ Nq) in H2 as [-> Hq]; [|by intros n r ->].
  f_equal. by apply written_exact.
Qed.

Lemma serialize_same v : ∀ w b1 b2, json_ok v → json_ok w → same_json v w →
  serialize v = Ok b1 → serialize w = Ok b2 → b1 = b2.
Proof.
  induction v as [|b|s|z|f|l IH|d IH] using json_ind'; intros w b1 b2 Hv Hw S H1 H2.
  - destruct w as [|[]| | | | |]; try done. congruence.
  - destruct w as [|c| | | | |]; try done. cbn in S. subst. congruence.
  - destruct w as [|[]|t| | | |]; try done. cbn in S. subst. congruence.
  - destruct w as [|[]| |z'|[n r|]| |]; try done;
      by eapply (serialize_numeral _ _ _ _ _ _ Hv Hw eq_refl eq_refl S).
  - destruct f as [n r|]; [|done]. destruct w as [|[]| |z'|[n' r'|]| |]; try done;
      by eapply (serialize_numeral _ _ _ _ _ _ Hv Hw eq_refl eq_refl S).
  - destruct w as [|[]| | | |m|]; try done. cbn [serialize] in H1, H2.
    apply bind_Ok in H1 as (p1 & P1%sequence_map & [= <-]).
    apply bind_Ok in H2 as (p2 & P2%sequence_map & [= <-]).
    cbn in Hv, Hw, S. apply all_Forall in Hv, Hw. apply all2_Forall2 in S.
    enough (p1 = p2) as -> by done. eapply Forall2_texts; [|exact S|exact P1|exact P2].
    apply Forall_forall. intros x Hx y c1 c2 Hy Sxy. rewrite Forall_forall in IH, Hv, Hw.
    by apply IH; [|apply Hv|apply Hw|].
  - destruct w as [|[]| | | | |e]; try done.
    apply serialize_obj in H1 as (Henc & p1 & P1 & ->), H2 as (_ & p2 & P2 & ->).
    pose proof (same_items d e Hv Hw Henc S) as SI.
    pose proof (json_ok_items _ Hv) as Iv. pose proof (json_ok_items _ Hw) as Iw.
    enough (p1 = p2) as -> by done. eapply Forall2_texts; [|exact SI|exact P1|exact P2].
    rewrite Forall_forall in IH, Iv, Iw. apply Forall_forall.
    intros x Hx y c1 c2 Hy [Ek Sxy] (k1 & v1 & K1 & V1 & ->)%member_Ok (k2 & v2 & K2 & V2 & ->)%member_Ok.
    assert (k1 = k2) as -> by congruence. do 2 f_equal.
    eapply IH; [by rewrite <-(items_perm d)| | |exact Sxy|exact V1|exact V2];
      [by apply Iv|by apply Iw].
Qed.
End JsonFacts.

Module CanonicalTheorems.
Import JsonFacts.

(** C18. Canonical bytes are canonical: two values that can be serialized have
    the same bytes exactly when they are the same JSON value.  Objects are
    compared as sets of members, whatever the order of insertion; strings by
    their code points, whatever is escaped; numbers by their exact value, whether
    they are integers or floats and however [repr] lays them out. *)
Theorem canonical_bytes_exact v w b1 b2 : json_ok v → json_ok w →
  canonical_json_bytes v = Ok b1 → canonical_json_bytes w = Ok b2 →
  b1 = b2 ↔ same_json v w.
Proof.
  intros Hv Hw H1 H2. split; [|intros S; exact (serialize_same v w b1 b2 Hv Hw S H1 H2)].
  intros ->. by destruct (serialize_parses v Hv w b2 b2 [] [] Hw H1 H2) as [S _]; [intros c [=]..| |].
Qed.
End CanonicalTheorems.

(** An object built in two orders, with an integer that is once a float. *)
Lemma canonical_bytes_exact_witness :
  let v := JObj [(ascii_text "b", JArr [JInt 120; JNull]); (ascii_text "a", JStr [228; 34])] in
  let w := JObj [(ascii_text "a", JStr [228; 34]);
    (ascii_text "b", JArr [JFloat (Finite false (FloatRepr.mk [1; 2; 0] [0] 0)); JNull])] in
  JsonFacts.same_json v w.
Proof.
  intros v w.
  assert (JsonFacts.json_ok v) as Hv by (apply JsonFacts.json_okb_sound; vm_compute; reflexivity).
  assert (JsonFacts.json_ok w) as Hw by (apply JsonFacts.json_okb_sound; vm_compute; reflexivity).
  destruct (canonical_json_bytes v) as [b|] eqn:E1; [|vm_compute in E1; discriminate].
  destruct (canonical_json_bytes w) as [c|] eqn:E2; [|vm_compute in E2; discriminate].
  apply (CanonicalTheorems.canonical_bytes_exact v w b c Hv Hw E1 E2).
  assert (canonical_json_bytes v = canonical_json_bytes w) as E by (vm_compute; reflexivity).
  rewrite E1, E2 in E. injection E as E. exact E.
Defined.
