(* ===== verification/Models.v ===== *)
(** * Domain models of the policy bundle

    [core/models.py].  Each Pydantic model is a Record in a Module of its
    name; [validate] is the model's field constraints and validators in the
    order the class declares them, including the normalisations a validator
    makes (derived account state, sorted legs).  Typed identifiers are strings
    checked by [Ids]. *)
From S2P Require Export Ids.
From Stdlib Require Import Ascii.

(** Field constraint [Field(ge=lo, le=hi)]; [None] leaves the side open. *)
Definition bounded (lo hi : option Z) (x : Z) : bool :=
  match lo with Some l => l <=? x | None => true end &&
  match hi with Some h => x <=? h | None => true end.

Definition str_len (s : string) : Z := Z.of_nat (String.length s).

(** [len(set(l)) != len(l)] *)
Definition has_duplicates {A} `{EqDecision A} (l : list A) : bool :=
  negb (bool_decide (NoDup l)).

Definition field_error : exn := ValueError "field constraint".

(** [_HEX32], [_HEX64], [_CREDENTIAL_FINGERPRINT] and the pepper version
    pattern [[A-Za-z0-9][A-Za-z0-9._-]{0,63}]. *)
Definition is_hex32 : string → bool := fullmatch (replicate 32 hex_class).
Definition is_hex64 : string → bool := fullmatch HEX64_PATTERN.
Definition is_credential_fingerprint : string → bool :=
  fullmatch (literal "hcf1_" ++ HEX64_PATTERN).

Definition alnum_class : charclass := λ c,
  in_range "A" "Z" c || in_range "a" "z" c || in_range "0" "9" c.
Definition pepper_tail_class : charclass := λ c,
  alnum_class c || Ascii.eqb c "." || Ascii.eqb c "_" || Ascii.eqb c "-".
Definition is_pepper_version (s : string) : bool :=
  match String.list_ascii_of_string s with
  | [] => false
  | c :: cs => alnum_class c && forallb pepper_tail_class cs &&
               (Z.of_nat (length cs) <=? 63)
  end.

Definition MAX_DEADLINE_MS : Z := 9000000.

Module QuotaDimension.
Record t := mk { status : QuotaDimensionStatus; value : option Z }.
#[global] Instance eq_dec : EqDecision t.
Proof. solve_decision. Defined.

Definition is_known (q : t) : bool :=
  bool_decide (status q = QuotaDimensionStatus.KNOWN).

Definition validate (q : t) : result t :=
  raise_if (match value q with Some v => v <=? 0 | None => false end) field_error;;
  raise_if (is_known q && bool_decide (value q = None))
    (ValueError "a known quota dimension requires a value");;
  raise_if (negb (is_known q) && negb (bool_decide (value q = None)))
    (ValueError "only a known quota dimension may carry a value");;
  mret q.
End QuotaDimension.
Abbreviation QuotaDimension := QuotaDimension.t.

Module ProviderAccount.
Record t := mk {
  account_id : string;
  display_name : string;
  connection : string;
  provider_token : string;
  binding_ref : string;
  credential_fingerprint : option string;
  credential_epoch : option Z;
  parallel_limit : QuotaDimension;
  local_parallel_ceiling : Z;
  rpm_limit : QuotaDimension;
  rpm_window_seconds : Z;
  tpm_limit : QuotaDimension;
  tpm_window_seconds : Z;
  monthly_quota_units : QuotaDimension;
  quota_units_per_attempt : Z;
  monthly_reset_at_ms : option Z;
  state : option AccountState;
}.
#[global] Instance eq_dec : EqDecision t.
Proof. solve_decision. Defined.

Definition fully_attested (a : t) : bool :=
  QuotaDimension.is_known (parallel_limit a) &&
  forallb (λ d, negb (bool_decide (QuotaDimension.status d = QuotaDimensionStatus.UNKNOWN)))
    [rpm_limit a; tpm_limit a; monthly_quota_units a].

(** The [assert] is the [None] branch: [validate] excludes it. *)
Definition enforced_max_in_flight (a : t) : result Z :=
  if negb (fully_attested a) then Ok 1
  else match QuotaDimension.value (parallel_limit a) with
       | None => Err AssertionError
       | Some v => Ok (Z.min v (local_parallel_ceiling a))
       end.

Definition nonempty (s : string) : bool := negb (bool_decide (s = ""%string)).
Definition binding (a : t) : list string :=
  [connection a; provider_token a; binding_ref a].
Definition bound (a : t) : bool := forallb nonempty (binding a).
Definition attested_credential (a : t) : bool :=
  bool_decide (is_Some (credential_fingerprint a)) &&
  bool_decide (is_Some (credential_epoch a)).

Definition fields_ok (a : t) : bool :=
  bool_decide (is_ok (typed_id_new AccountId (account_id a)) = true) &&
  bounded (Some 1) (Some 120) (str_len (display_name a)) &&
  forallb (λ s, str_len s <=? 256) (binding a) &&
  match credential_fingerprint a with
  | Some f => is_credential_fingerprint f | None => true end &&
  match credential_epoch a with Some e => 1 <=? e | None => true end &&
  bounded (Some 1) (Some 128) (local_parallel_ceiling a) &&
  bounded (Some 1) (Some 3600) (rpm_window_seconds a) &&
  bounded (Some 1) (Some 86400) (tpm_window_seconds a) &&
  (0 <=? quota_units_per_attempt a) &&
  match monthly_reset_at_ms a with Some r => 1 <=? r | None => true end.

(** [_derive_and_guard_state] *)
Definition derive_and_guard_state (a : t) : result t :=
  raise_if (bool_decide (QuotaDimension.status (parallel_limit a) =
                         QuotaDimensionStatus.ATTESTED_ABSENT))
    (ValueError "parallel capacity must be known or unknown, never unbounded");;
  raise_if (QuotaDimension.is_known (monthly_quota_units a) &&
            bool_decide (monthly_reset_at_ms a = None))
    (ValueError "a known monthly quota requires an absolute UTC monthly reset");;
  raise_if (negb (QuotaDimension.is_known (monthly_quota_units a)) &&
            negb (bool_decide (monthly_reset_at_ms a = None)))
    (ValueError "monthly reset semantics apply only to a known monthly quota");;
  raise_if (existsb nonempty (binding a) && negb (bound a))
    (ValueError "account binding must be fully populated or fully empty");;
  raise_if ((bool_decide (is_Some (credential_fingerprint a)) ||
             bool_decide (is_Some (credential_epoch a))) &&
            negb (attested_credential a))
    (ValueError "credential attestation must include fingerprint and epoch");;
  if negb (fully_attested a) then
    raise_if (negb (bool_decide (state a = None) ||
                    bool_decide (state a = Some AccountState.DRAFT)))
      (ValueError "an account with unattested capacity dimensions must stay DRAFT");;
    mret (a{{ state := Some AccountState.DRAFT }})
  else
    let active := bool_decide (state a = Some AccountState.ACTIVE) in
    let durable := bool_decide (state a = Some AccountState.DISABLED) ||
                   bool_decide (state a = Some AccountState.TOMBSTONED) in
    raise_if (active && negb (attested_credential a))
      (ValueError "an ACTIVE account requires a complete credential attestation");;
    raise_if (active && negb (bound a))
      (ValueError "an ACTIVE account requires a complete binding");;
    raise_if (durable && negb (attested_credential a))
      (ValueError "a durable account state requires a complete credential attestation");;
    raise_if (durable && negb (bound a))
      (ValueError "a durable account state requires a complete binding");;
    match state a with
    | Some _ => mret a
    | None => mret (a{{ state := Some (if bound a && attested_credential a
                                       then AccountState.ACTIVE
                                       else AccountState.DRAFT) }})
    end.

Definition validate (a : t) : result t :=
  raise_if (negb (fields_ok a)) field_error;;
  QuotaDimension.validate (parallel_limit a);;
  QuotaDimension.validate (rpm_limit a);;
  QuotaDimension.validate (tpm_limit a);;
  QuotaDimension.validate (monthly_quota_units a);;
  derive_and_guard_state a.
#[global] Arguments fully_attested : simpl never.
#[global] Arguments bound : simpl never.
#[global] Arguments attested_credential : simpl never.
#[global] Arguments enforced_max_in_flight : simpl never.
End ProviderAccount.
Abbreviation ProviderAccount := ProviderAccount.t.

Module LegCapabilities.
Record t := mk {
  endpoints : list EndpointKind;
  modalities : list Modality;
  context_tokens : Z;
  tools : bool;
  forced_tool : bool;
  response_schema : bool;
  streaming : bool;
  reasoning : bool;
  history_continuation : bool;
  shadow : bool;
}.
#[global] Instance eq_dec : EqDecision t.
Proof. solve_decision. Defined.

Definition validate (c : t) : result t :=
  raise_if (bool_decide (endpoints c = []) || bool_decide (modalities c = []) ||
            (context_tokens c <=? 0)) field_error;;
  raise_if (has_duplicates (endpoints c) || has_duplicates (modalities c))
    (ValueError "duplicate leg capability value");;
  raise_if (forced_tool c && negb (tools c))
    (ValueError "forced-tool capability requires tool capability");;
  mret c.

Definition intersection (self other : t) : option t :=
  let endpoints' := filter (.∈ endpoints other) (endpoints self) in
  let modalities' := filter (.∈ modalities other) (modalities self) in
  if bool_decide (endpoints' = []) || bool_decide (modalities' = []) then None
  else
    let tools' := tools self && tools other in
    Some {| endpoints := endpoints';
            modalities := modalities';
            context_tokens := Z.min (context_tokens self) (context_tokens other);
            tools := tools';
            forced_tool := tools' && forced_tool self && forced_tool other;
            response_schema := response_schema self && response_schema other;
            streaming := streaming self && streaming other;
            reasoning := reasoning self && reasoning other;
            history_continuation :=
              history_continuation self && history_continuation other;
            shadow := shadow self || shadow other |}.
End LegCapabilities.
Abbreviation LegCapabilities := LegCapabilities.t.

Module AuthorizedLeg.
Record t := mk {
  leg_id : string;
  account_id : string;
  generation_id : string;
  order : Z;
  allowed_triggers : list RouteTrigger;
  capabilities : LegCapabilities;
}.
#[global] Instance eq_dec : EqDecision t.
Proof. solve_decision. Defined.

Definition identity (l : t) : string * string * string * Z :=
  (leg_id l, account_id l, generation_id l, order l).

Definition ids_ok (l : t) : bool :=
  is_ok (typed_id_new RouteLegId (leg_id l)) &&
  is_ok (typed_id_new AccountId (account_id l)) &&
  is_ok (typed_id_new DeploymentGenerationId (generation_id l)).

Definition validate (l : t) : result t :=
  raise_if (negb (ids_ok l)) field_error;;
  raise_if ((order l <? 1) || bool_decide (allowed_triggers l = [])) field_error;;
  LegCapabilities.validate (capabilities l);;
  raise_if (has_duplicates (allowed_triggers l))
    (ValueError "duplicate authorized leg trigger");;
  mret l.

Definition intersection (self other : t) : option t :=
  if negb (bool_decide (identity self = identity other)) then None
  else
    let triggers := filter (.∈ allowed_triggers other) (allowed_triggers self) in
    match LegCapabilities.intersection (capabilities self) (capabilities other) with
    | None => None
    | Some caps =>
        if bool_decide (triggers = []) then None
        else Some {| leg_id := leg_id self; account_id := account_id self;
                     generation_id := generation_id self; order := order self;
                     allowed_triggers := triggers; capabilities := caps |}
    end.

(** The sort key of every leg tuple: [(leg.order, str(leg.leg_id))]. *)
Definition sort_key (l : t) : Z * string := (order l, leg_id l).
Definition key_leb : Z * string → Z * string → bool := pair_leb Z.leb str_leb.
Definition sorted_legs : list t → list t := sorted_by sort_key key_leb.
End AuthorizedLeg.
Abbreviation AuthorizedLeg := AuthorizedLeg.t.

Module RouteLeg.
Record t := mk {
  leg_id : string;
  order : Z;
  triggers : list RouteTrigger;
  account_id : string;
  generation_id : string;
  capabilities : LegCapabilities;
}.
#[global] Instance eq_dec : EqDecision t.
Proof. solve_decision. Defined.

Definition validate (l : t) : result t :=
  raise_if (negb (is_ok (typed_id_new RouteLegId (leg_id l)) &&
                  is_ok (typed_id_new AccountId (account_id l)) &&
                  is_ok (typed_id_new DeploymentGenerationId (generation_id l))))
    field_error;;
  raise_if ((order l <? 1) || bool_decide (triggers l = [])) field_error;;
  LegCapabilities.validate (capabilities l);;
  raise_if (has_duplicates (triggers l)) (ValueError "duplicate leg trigger");;
  let shadow_trigger := bool_decide (RouteTrigger.SHADOW ∈ triggers l) in
  raise_if (negb (Bool.eqb (LegCapabilities.shadow (capabilities l)) shadow_trigger))
    (ValueError "shadow capability and trigger must agree");;
  raise_if (shadow_trigger && negb (bool_decide (triggers l = [RouteTrigger.SHADOW])))
    (ValueError "a shadow leg cannot carry serving triggers");;
  mret l.

Definition sort_key (l : t) : Z * string := (order l, leg_id l).
Definition sorted_legs : list t → list t := sorted_by sort_key AuthorizedLeg.key_leb.
Definition identity (l : t) : string * string * string * Z :=
  (leg_id l, account_id l, generation_id l, order l).
End RouteLeg.
Abbreviation RouteLeg := RouteLeg.t.

(** Run a check on every element of a tuple in order, keeping its results. *)
Fixpoint validate_all {A B} (f : A → result B) (l : list A) : result (list B) :=
  match l with
  | [] => mret []
  | x :: l => y ← f x; ys ← validate_all f l; mret (y :: ys)
  end.

Module RouteGroupRevision.
Record t := mk {
  route_group_id : string;
  name : string;
  strategy : RouteStrategy;
  legs : list RouteLeg;
}.
#[global] Instance eq_dec : EqDecision t.
Proof. solve_decision. Defined.

Definition validate (g : t) : result t :=
  raise_if (negb (is_ok (typed_id_new RouteGroupId (route_group_id g)) &&
                  bounded (Some 1) (Some 120) (str_len (name g))) ||
            bool_decide (legs g = [])) field_error;;
  legs' ← validate_all RouteLeg.validate (legs g);
  raise_if (has_duplicates (RouteLeg.order <$> legs'))
    (ValueError "duplicate RouteLeg.order within route group");;
  mret (g{{ legs := RouteLeg.sorted_legs legs' }}).
End RouteGroupRevision.
Abbreviation RouteGroupRevision := RouteGroupRevision.t.

Module KeyPolicyRevision.
Record t := mk {
  policy_id : string;
  name : string;
  route_group_ids : list string;
  authorized_legs : list AuthorizedLeg;
  queue_tier : Z;
  queue_weight : Z;
  max_concurrency : Z;
  max_waiters : Z;
  deadline_ms : Z;
}.
#[global] Instance eq_dec : EqDecision t.
Proof. solve_decision. Defined.

Definition qos_ok (tier weight concurrency waiters deadline : Z) : bool :=
  (0 <=? tier) && bounded (Some 1) (Some 64) weight && (1 <=? concurrency) &&
  (0 <=? waiters) && bounded (Some 1) (Some MAX_DEADLINE_MS) deadline.

Definition validate (p : t) : result t :=
  raise_if (negb (is_ok (typed_id_new PolicyRevisionId (policy_id p)) &&
                  bounded (Some 1) (Some 120) (str_len (name p)) &&
                  forallb (λ g, is_ok (typed_id_new RouteGroupId g)) (route_group_ids p)) ||
            bool_decide (route_group_ids p = []) ||
            bool_decide (authorized_legs p = [])) field_error;;
  raise_if (negb (qos_ok (queue_tier p) (queue_weight p) (max_concurrency p)
                         (max_waiters p) (deadline_ms p))) field_error;;
  raise_if (has_duplicates (route_group_ids p))
    (ValueError "duplicate policy route group");;
  legs ← validate_all AuthorizedLeg.validate (authorized_legs p);
  raise_if (has_duplicates (AuthorizedLeg.leg_id <$> legs))
    (ValueError "duplicate policy authorized leg");;
  mret (p{{ authorized_legs := AuthorizedLeg.sorted_legs legs }}).
End KeyPolicyRevision.
Abbreviation KeyPolicyRevision := KeyPolicyRevision.t.

Module ClientCredentialVerifier.
Record t := mk {
  generation : Z;
  verifier_hex : string;
  pepper_version : string;
  not_before_s : Z;
  not_after_s : Z;
  status : CredentialVerifierStatus;
}.
#[global] Instance eq_dec : EqDecision t.
Proof. solve_decision. Defined.

Definition validate (v : t) : result t :=
  raise_if (negb ((1 <=? generation v) && is_hex64 (verifier_hex v) &&
                  is_pepper_version (pepper_version v) && (0 <? not_before_s v) &&
                  (0 <? not_after_s v))) field_error;;
  raise_if (not_after_s v <? not_before_s v)
    (ValueError "credential not_after_s precedes not_before_s");;
  mret v.
End ClientCredentialVerifier.

Module LegacyClientCredentialVerifier.
Record t := mk {
  generation : Z;
  fingerprint_hex : string;
  pepper_version : string;
  not_before_s : Z;
  not_after_s : Z;
  status : CredentialVerifierStatus;
}.
#[global] Instance eq_dec : EqDecision t.
Proof. solve_decision. Defined.

Definition validate (v : t) : result t :=
  raise_if (negb ((1 <=? generation v) && is_hex64 (fingerprint_hex v) &&
                  is_pepper_version (pepper_version v) && (0 <? not_before_s v) &&
                  (0 <? not_after_s v))) field_error;;
  raise_if (not_after_s v <? not_before_s v)
    (ValueError "credential not_after_s precedes not_before_s");;
  mret v.
End LegacyClientCredentialVerifier.

(** [type ClientVerifier = ClientCredentialVerifier | LegacyClientCredentialVerifier] *)
Module ClientVerifier.
Inductive t :=
| Canonical (v : ClientCredentialVerifier.t)
| Legacy (v : LegacyClientCredentialVerifier.t).
#[global] Instance eq_dec : EqDecision t.
Proof. solve_decision. Defined.

Definition generation (v : t) : Z :=
  match v with
  | Canonical v => ClientCredentialVerifier.generation v
  | Legacy v => LegacyClientCredentialVerifier.generation v
  end.
Definition digest (v : t) : string :=
  match v with
  | Canonical v => ClientCredentialVerifier.verifier_hex v
  | Legacy v => LegacyClientCredentialVerifier.fingerprint_hex v
  end.
Definition pepper_version (v : t) : string :=
  match v with
  | Canonical v => ClientCredentialVerifier.pepper_version v
  | Legacy v => LegacyClientCredentialVerifier.pepper_version v
  end.
Definition not_before_s (v : t) : Z :=
  match v with
  | Canonical v => ClientCredentialVerifier.not_before_s v
  | Legacy v => LegacyClientCredentialVerifier.not_before_s v
  end.
Definition not_after_s (v : t) : Z :=
  match v with
  | Canonical v => ClientCredentialVerifier.not_after_s v
  | Legacy v => LegacyClientCredentialVerifier.not_after_s v
  end.
Definition status (v : t) : CredentialVerifierStatus :=
  match v with
  | Canonical v => ClientCredentialVerifier.status v
  | Legacy v => LegacyClientCredentialVerifier.status v
  end.
(** [type(a) is type(b)] *)
Definition same_type (a b : t) : bool :=
  match a, b with
  | Canonical _, Canonical _ | Legacy _, Legacy _ => true
  | _, _ => false
  end.
End ClientVerifier.
Abbreviation ClientVerifier := ClientVerifier.t.

(** Non-decreasing: [tuple(x) == tuple(sorted(x))]. *)
Definition is_sorted (l : list Z) : bool := bool_decide (sorted_by id Z.leb l = l).

Module ClientKeyRecord.
Record t := mk {
  key_id : string;
  policy_id : string;
  state : KeyLifecycleState;
  issued_at_s : Z;
  expires_at_s : Z;
  time_high_water_s : Z;
  generation_high_water : Z;
  credential_verifiers : list ClientCredentialVerifier.t;
  legacy_verifiers : list LegacyClientCredentialVerifier.t;
}.
#[global] Instance eq_dec : EqDecision t.
Proof. solve_decision. Defined.

(** Canonical verifiers first, then legacy ones. *)
Definition verifiers (r : t) : list ClientVerifier :=
  (ClientVerifier.Canonical <$> credential_verifiers r) ++
  (ClientVerifier.Legacy <$> legacy_verifiers r).

Definition status_is (s : CredentialVerifierStatus) (v : ClientVerifier) : bool :=
  bool_decide (ClientVerifier.status v = s).
Definition accepted (r : t) : list ClientVerifier :=
  List.filter (λ v, status_is CredentialVerifierStatus.ACTIVE v ||
                    status_is CredentialVerifierStatus.RETIRING v) (verifiers r).
Definition active (r : t) : list ClientVerifier :=
  List.filter (status_is CredentialVerifierStatus.ACTIVE) (verifiers r).

(** Revoked, or the trusted clock passed the expiry. *)
Definition terminal (r : t) : bool :=
  bool_decide (state r = KeyLifecycleState.REVOKED) ||
  (expires_at_s r <=? time_high_water_s r).

Definition max_generation (r : t) : Z :=
  foldr Z.max 0 (ClientVerifier.generation <$> verifiers r).

(** [_valid_lifetime_and_generations] *)
Definition valid_lifetime_and_generations (r : t) : result t :=
  raise_if (expires_at_s r <=? issued_at_s r)
    (ValueError "client key expiry must follow issuance");;
  raise_if (365 * 86400 <? expires_at_s r - issued_at_s r)
    (ValueError "client key lifetime exceeds 365 days");;
  raise_if (time_high_water_s r <? issued_at_s r)
    (ValueError "trusted time high-water precedes issuance");;
  raise_if (negb (is_sorted (ClientCredentialVerifier.generation <$> credential_verifiers r)))
    (ValueError "canonical credential generations must be increasing");;
  raise_if (negb (is_sorted (LegacyClientCredentialVerifier.generation <$> legacy_verifiers r)))
    (ValueError "legacy credential generations must be increasing");;
  let generations := ClientVerifier.generation <$> verifiers r in
  raise_if (bool_decide (verifiers r = []))
    (ValueError "client key requires at least one credential verifier");;
  raise_if (bool_decide (2 < length (verifiers r))%nat || has_duplicates generations)
    (ValueError "credential generations must be unique and bounded to two");;
  raise_if (negb (max_generation r =? generation_high_water r))
    (ValueError "generation high-water must equal the newest verifier generation");;
  raise_if (existsb (λ v, (ClientVerifier.not_before_s v <? issued_at_s r) ||
                          (expires_at_s r <? ClientVerifier.not_after_s v)) (verifiers r))
    (ValueError "credential window must stay within logical key lifetime");;
  raise_if (bool_decide (2 < length (accepted r))%nat)
    (ValueError "at most two credential generations may be accepted");;
  (if terminal r then
     raise_if (negb (bool_decide (accepted r = [])))
       (ValueError "terminal key cannot retain accepted credential generations")
   else
     raise_if (match active r with
               | [v] => negb (ClientVerifier.generation v =? generation_high_water r)
               | _ => true end)
       (ValueError "nonterminal key requires one active newest credential generation"));;
  mret r.

Definition validate (r : t) : result t :=
  raise_if (negb (is_hex32 (key_id r) &&
                  is_ok (typed_id_new PolicyRevisionId (policy_id r)) &&
                  (0 <? issued_at_s r) && (0 <? expires_at_s r) &&
                  (0 <? time_high_water_s r) && (1 <=? generation_high_water r)) ||
            bool_decide (2 < length (credential_verifiers r))%nat ||
            bool_decide (2 < length (legacy_verifiers r))%nat) field_error;;
  validate_all ClientCredentialVerifier.validate (credential_verifiers r);;
  validate_all LegacyClientCredentialVerifier.validate (legacy_verifiers r);;
  valid_lifetime_and_generations r.
End ClientKeyRecord.
Abbreviation ClientKeyRecord := ClientKeyRecord.t.

Module RequestProfile.
Record t := mk {
  route_group_id : string;
  model_alias : string;
  endpoint : EndpointKind;
  modality : Modality;
  stream : bool;
  input_tokens_max : Z;
  output_tokens_max : Z;
  reasoning_tokens_max : Z;
  tools_count : Z;
  forced_tool_required : bool;
  response_schema_present : bool;
  history_turns : Z;
  deadline_ms : Z;
}.
#[global] Instance eq_dec : EqDecision t.
Proof. solve_decision. Defined.

Definition validate (p : t) : result t :=
  raise_if (negb (is_ok (typed_id_new RouteGroupId (route_group_id p)) &&
                  bounded (Some 1) (Some 160) (str_len (model_alias p)) &&
                  (0 <=? input_tokens_max p) && (0 <=? output_tokens_max p) &&
                  (0 <=? reasoning_tokens_max p) && (0 <=? tools_count p) &&
                  (0 <=? history_turns p) &&
                  bounded (Some 1) (Some MAX_DEADLINE_MS) (deadline_ms p))) field_error;;
  mret p.
End RequestProfile.
Abbreviation RequestProfile := RequestProfile.t.

Module RequestAuthorizationCeiling.
Record t := mk {
  key_id : string;
  credential_generation : Z;
  policy_id : string;
  bundle_generation : Z;
  bundle_hash : string;
  route_group_id : string;
  authorized_legs : list AuthorizedLeg;
  queue_tier : Z;
  queue_weight : Z;
  max_concurrency : Z;
  max_waiters : Z;
  deadline_ms : Z;
}.
#[global] Instance eq_dec : EqDecision t.
Proof. solve_decision. Defined.

Definition scalars_ok (c : t) : bool :=
  is_hex32 (key_id c) && (1 <=? credential_generation c) &&
  is_ok (typed_id_new PolicyRevisionId (policy_id c)) &&
  (1 <=? bundle_generation c) && is_ok (typed_id_new BundleHash (bundle_hash c)) &&
  is_ok (typed_id_new RouteGroupId (route_group_id c)) &&
  KeyPolicyRevision.qos_ok (queue_tier c) (queue_weight c) (max_concurrency c)
    (max_waiters c) (deadline_ms c).

Definition validate (c : t) : result t :=
  raise_if (negb (scalars_ok c)) field_error;;
  legs ← validate_all AuthorizedLeg.validate (authorized_legs c);
  raise_if (has_duplicates (AuthorizedLeg.leg_id <$> legs))
    (ValueError "duplicate authorization ceiling leg");;
  mret (c{{ authorized_legs := AuthorizedLeg.sorted_legs legs }}).

(** The generator of [intersection]: for each admitted leg whose identity is
    still current, the leg intersection when it is not empty. *)
Definition intersect_legs (admitted current : list AuthorizedLeg) : list AuthorizedLeg :=
  let by_identity := dict_of ((λ l, (AuthorizedLeg.identity l, l)) <$> current) in
  omap (λ l, candidate ← dget (AuthorizedLeg.identity l) by_identity;
             AuthorizedLeg.intersection l candidate) admitted.

Definition same_admitted_identity (self other : t) : bool :=
  bool_decide (key_id self = key_id other) &&
  (credential_generation self =? credential_generation other) &&
  bool_decide (policy_id self = policy_id other) &&
  bool_decide (route_group_id self = route_group_id other).

Definition intersection (self other : t) : result t :=
  raise_if (negb (same_admitted_identity self other))
    (ValueError "cannot intersect ceilings of different admitted identities");;
  validate
    {| key_id := key_id self;
       credential_generation := credential_generation self;
       policy_id := policy_id self;
       bundle_generation := bundle_generation self;
       bundle_hash := bundle_hash self;
       route_group_id := route_group_id self;
       authorized_legs := intersect_legs (authorized_legs self) (authorized_legs other);
       queue_tier := Z.max (queue_tier self) (queue_tier other);
       queue_weight := Z.min (queue_weight self) (queue_weight other);
       max_concurrency := Z.min (max_concurrency self) (max_concurrency other);
       max_waiters := Z.min (max_waiters self) (max_waiters other);
       deadline_ms := Z.min (deadline_ms self) (deadline_ms other) |}.
End RequestAuthorizationCeiling.
Abbreviation RequestAuthorizationCeiling := RequestAuthorizationCeiling.t.

Module PolicyBundleV1.
Record t := mk {
  schema_version : Z;
  generation : Z;
  min_reader : string;
  required_features : list RequiredFeature;
  keys : list ClientKeyRecord;
  policies : list KeyPolicyRevision;
  accounts : list ProviderAccount;
  route_groups : list RouteGroupRevision;
  backend_manifest_hash : string;
}.

(** The version pattern (digits, dot, digits) as its two integers. *)
Definition digit_value (c : ascii) : option Z :=
  if in_range "0" "9" c then Some (Z.of_N (N_of_ascii c) - 48) else None.
Fixpoint read_int (acc : Z) (cs : list ascii) : option Z :=
  match cs with
  | [] => Some acc
  | c :: cs => d ← digit_value c; read_int (10 * acc + d) cs
  end.
Fixpoint split_dot (cs : list ascii) : option (list ascii * list ascii) :=
  match cs with
  | [] => None
  | c :: cs => if Ascii.eqb c "." then Some ([], cs)
               else '(l, r) ← split_dot cs; Some (c :: l, r)
  end.
Definition parse_reader (v : string) : option (Z * Z) :=
  '(l, r) ← split_dot (String.list_ascii_of_string v);
  if bool_decide (l = []) || bool_decide (r = []) then None
  else major ← read_int 0 l; minor ← read_int 0 r; Some (major, minor).

Definition min_reader_supported (v : string) : result string :=
  match parse_reader v with
  | None => Err (ValueError "min_reader must be '<major>.<minor>'")
  | Some r =>
      raise_if (negb (pair_leb Z.leb Z.leb r MAX_MIN_READER))
        (ValueError "min_reader exceeds this build's supported reader floor");;
      mret v
  end.

Definition all_legs (groups : list RouteGroupRevision) : list RouteLeg :=
  groups ≫= RouteGroupRevision.legs.
Definition legs_by_id (groups : list RouteGroupRevision) : dict string RouteLeg :=
  dict_of ((λ l, (RouteLeg.leg_id l, l)) <$> all_legs groups).
Definition leg_groups (groups : list RouteGroupRevision) : dict string string :=
  dict_of (groups ≫= λ g,
    (λ l, (RouteLeg.leg_id l, RouteGroupRevision.route_group_id g)) <$>
      RouteGroupRevision.legs g).

Definition has_trigger (trigger : RouteTrigger) (l : RouteLeg) : bool :=
  bool_decide (trigger ∈ RouteLeg.triggers l).

Definition check_group (account_ids : list string) (g : RouteGroupRevision) : result unit :=
  raise_if (existsb (λ l, negb (bool_decide (RouteLeg.account_id l ∈ account_ids)))
              (RouteGroupRevision.legs g))
    (ValueError "route group leg references unknown account");;
  raise_if (negb (bool_decide
      (length (List.filter (has_trigger RouteTrigger.PRIMARY) (RouteGroupRevision.legs g)) = 1%nat)))
    (ValueError "route group must have exactly one PRIMARY leg").

(** One iteration of the loop over a policy's authorized legs; the result is
    the covered group. *)
Definition check_authorized_leg (account_ids : list string)
    (groups : list RouteGroupRevision) (policy_groups : list string)
    (l : AuthorizedLeg) : result string :=
  raise_if (negb (bool_decide (AuthorizedLeg.account_id l ∈ account_ids)))
    (ValueError "policy grants unknown account");;
  match dget (AuthorizedLeg.leg_id l) (legs_by_id groups),
        dget (AuthorizedLeg.leg_id l) (leg_groups groups) with
  | None, _ => Err (ValueError "policy authorizes unknown leg")
  | Some _, None => Err (KeyError "leg_groups")
  | Some actual, Some group_id =>
      raise_if (negb (bool_decide (group_id ∈ policy_groups)))
        (ValueError "policy authorizes a leg outside its route groups");;
      raise_if (negb (bool_decide (AuthorizedLeg.identity l = RouteLeg.identity actual)))
        (ValueError "authorized leg identity does not match bundle");;
      raise_if (negb (bool_decide
          (AuthorizedLeg.allowed_triggers l ⊆ RouteLeg.triggers actual)))
        (ValueError "policy grants a trigger absent from its route leg");;
      raise_if (negb (bool_decide
          (AuthorizedLeg.capabilities l = RouteLeg.capabilities actual)))
        (ValueError "policy capabilities do not match its route leg");;
      mret group_id
  end.

Definition check_policy (account_ids group_ids : list string)
    (groups : list RouteGroupRevision) (p : KeyPolicyRevision) : result unit :=
  raise_if (existsb (λ g, negb (bool_decide (g ∈ group_ids)))
              (KeyPolicyRevision.route_group_ids p))
    (ValueError "policy references unknown route_group");;
  covered ← validate_all
    (check_authorized_leg account_ids groups (KeyPolicyRevision.route_group_ids p))
    (KeyPolicyRevision.authorized_legs p);
  raise_if (existsb (λ g, negb (bool_decide (g ∈ covered)))
              (KeyPolicyRevision.route_group_ids p))
    (ValueError "policy has no authorized leg for route group").

Definition binding_triples (accounts : list ProviderAccount) : list (list string) :=
  List.filter (existsb ProviderAccount.nonempty) (ProviderAccount.binding <$> accounts).

Definition legacy_fingerprints (keys : list ClientKeyRecord) : list (string * string) :=
  keys ≫= λ k, (λ v, (LegacyClientCredentialVerifier.pepper_version v,
                      LegacyClientCredentialVerifier.fingerprint_hex v)) <$>
               ClientKeyRecord.legacy_verifiers k.

(** [_exact_membership] *)
Definition exact_membership (b : t) : result unit :=
  let account_ids := ProviderAccount.account_id <$> accounts b in
  let group_ids := RouteGroupRevision.route_group_id <$> route_groups b in
  let policy_ids := KeyPolicyRevision.policy_id <$> policies b in
  raise_if (has_duplicates account_ids) (ValueError "duplicate account_id in bundle");;
  raise_if (has_duplicates group_ids) (ValueError "duplicate route_group_id in bundle");;
  raise_if (has_duplicates policy_ids) (ValueError "duplicate policy_id in bundle");;
  raise_if (has_duplicates (ClientKeyRecord.key_id <$> keys b))
    (ValueError "duplicate key_id in bundle");;
  raise_if (has_duplicates (RouteLeg.leg_id <$> all_legs (route_groups b)))
    (ValueError "duplicate leg_id in bundle");;
  raise_if (has_duplicates (RouteGroupRevision.name <$> route_groups b))
    (ValueError "duplicate RouteGroupRevision.name in bundle");;
  raise_if (has_duplicates (legacy_fingerprints (keys b)))
    (ValueError "duplicate legacy credential fingerprint in bundle");;
  raise_if (has_duplicates (binding_triples (accounts b)))
    (ValueError "duplicate account binding triple across live and tombstoned accounts");;
  validate_all (check_group account_ids) (route_groups b);;
  validate_all (check_policy account_ids group_ids (route_groups b)) (policies b);;
  raise_if (existsb (λ k, negb (bool_decide (ClientKeyRecord.policy_id k ∈ policy_ids)))
              (keys b))
    (ValueError "key references unknown policy").

Definition validate (b : t) : result t :=
  raise_if (negb ((schema_version b =? 1) && (1 <=? generation b) &&
                  is_hex64 (backend_manifest_hash b)) ||
            bool_decide (keys b = []) || bool_decide (policies b = []) ||
            bool_decide (accounts b = []) || bool_decide (route_groups b = []))
    field_error;;
  keys' ← validate_all ClientKeyRecord.validate (keys b);
  policies' ← validate_all KeyPolicyRevision.validate (policies b);
  accounts' ← validate_all ProviderAccount.validate (accounts b);
  groups' ← validate_all RouteGroupRevision.validate (route_groups b);
  min_reader_supported (min_reader b);;
  raise_if (has_duplicates (required_features b))
    (ValueError "duplicate required feature");;
  let b' := b{{ keys := keys'; policies := policies'; accounts := accounts';
                route_groups := groups' }} in
  exact_membership b';;
  mret b'.
End PolicyBundleV1.
Abbreviation PolicyBundleV1 := PolicyBundleV1.t.
