(* ===== verification/Samples.v ===== *)
(** * Sample values

    Concrete, valid domain values on which the witnesses of the properties are
    evaluated. *)
From S2P Require Export Models.

Module Samples.
Definition zeros : string := "0000000000000000000000000000000".
Definition hex64 (c : string) : string := String.append zeros (String.append zeros c).
Definition uuid (c : string) : string :=
  String.append "00000000-0000-4000-8000-00000000000" c.
Definition account (c : string) : string := String.append "acc_" (uuid c).
Definition leg (c : string) : string := String.append "leg_" (uuid c).
Definition request (c : string) : string := String.append "req_" (uuid c).
Definition attempt (c : string) : string := String.append "att_" (uuid c).
Definition group : string := String.append "rg_" (uuid "1").
Definition policy : string := String.append "pol_" (uuid "1").
Definition generation : string := String.append "dg1_" (hex64 "01").
Definition bundle_hash : string := String.append "bh_" (hex64 "0b").
Definition key : string := String.append zeros "1".

Definition capabilities (tools : bool) : LegCapabilities :=
  LegCapabilities.mk [CHAT] [Modality.TEXT] 8192
    tools false false true false true false.

Definition authorized (c : string) (a : string) (order : Z) (tools : bool) : AuthorizedLeg :=
  AuthorizedLeg.mk (leg c) (account a) generation order [RouteTrigger.PRIMARY]
    (capabilities tools).

Definition route_leg (c : string) (a : string) (order : Z) (trigger : RouteTrigger) : RouteLeg :=
  RouteLeg.mk (leg c) order [trigger] (account a) generation (capabilities true).

Definition known (v : Z) : QuotaDimension :=
  QuotaDimension.mk QuotaDimensionStatus.KNOWN (Some v).
Definition unknown : QuotaDimension :=
  QuotaDimension.mk QuotaDimensionStatus.UNKNOWN None.
Definition absent : QuotaDimension :=
  QuotaDimension.mk QuotaDimensionStatus.ATTESTED_ABSENT None.

Definition provider_account (c : string) (parallel : QuotaDimension)
    (st : option AccountState) : ProviderAccount :=
  ProviderAccount.mk (account c) "primary" "direct" "openai"
    (String.append "binding-" c)
    (Some (String.append "hcf1_" (hex64 "02"))) (Some 1) parallel 8
    (known 60) 60 (known 100000) 60 absent 1 None st.

Definition verifier (gen : Z) (digest : string) (from until : Z)
    (st : CredentialVerifierStatus) : ClientCredentialVerifier.t :=
  ClientCredentialVerifier.mk gen digest "v1" from until st.

Definition key_record (high : Z) (generation : Z) (vs : list ClientCredentialVerifier.t) :
    ClientKeyRecord :=
  ClientKeyRecord.mk key policy KeyLifecycleState.ENABLED 1000 100000 high generation vs [].

Definition first_verifier (st : CredentialVerifierStatus) (until : Z) :=
  verifier 1 (hex64 "0a") 1000 until st.
Definition second_verifier :=
  verifier 2 (hex64 "0c") 2000 90000 CredentialVerifierStatus.ACTIVE.
Definition key_before : ClientKeyRecord :=
  key_record 1000 1 [first_verifier CredentialVerifierStatus.ACTIVE 90000].
Definition key_rotated : ClientKeyRecord :=
  key_record 2000 2 [first_verifier CredentialVerifierStatus.RETIRING 3000; second_verifier].
Definition key_retired : ClientKeyRecord :=
  key_record 4000 2 [first_verifier CredentialVerifierStatus.RETIRED 3000; second_verifier].

Definition ceiling (legs : list AuthorizedLeg) (weight : Z) : RequestAuthorizationCeiling :=
  RequestAuthorizationCeiling.mk key 1 policy 1 bundle_hash group legs 0 weight 4 8 60000.

Definition two_legs (tools : bool) : list AuthorizedLeg :=
  [authorized "1" "1" 1 tools; authorized "2" "2" 2 tools].

Definition bundle : PolicyBundleV1 :=
  PolicyBundleV1.mk 1 1 "1.0" []
    [key_before]
    [KeyPolicyRevision.mk policy "default" [group] [authorized "1" "1" 1 true] 0 8 4 8 60000]
    [provider_account "1" (known 4) None]
    [RouteGroupRevision.mk group "chat" ORDERED_CAPACITY
       [route_leg "1" "1" 1 RouteTrigger.PRIMARY]]
    (hex64 "0d").

(** The values are what validation accepts. *)
Example bundle_valid : is_ok (PolicyBundleV1.validate bundle) = true.
Proof. by vm_compute. Qed.
Example ceiling_valid :
  is_ok (RequestAuthorizationCeiling.validate (ceiling (two_legs true) 8)) = true.
Proof. by vm_compute. Qed.
End Samples.
