(* ===== verification/ModelFacts.v ===== *)
(** * Facts about the domain models

    What the validators of [Models] guarantee, and the algebra of
    authorization intersection that the queue and the router rely on. *)
From S2P Require Export Samples.

(** ** Validation of tuples *)
Lemma validate_all_Ok {A B} (f : A → result B) l l' :
  validate_all f l = Ok l' ↔ Forall2 (λ x y, f x = Ok y) l l'.
Proof.
  revert l'. induction l as [|x l IH]; intros l'; cbn.
  { split; [by intros [= <-]|]. by inversion 1. }
  rewrite bind_Ok. setoid_rewrite bind_Ok. setoid_rewrite IH. split.
  - intros (y & Hy & ys & Hys & [= <-]). by constructor.
  - inversion 1; subst. eauto 10.
Qed.

(** A validator that returns its argument leaves a tuple unchanged. *)
Lemma validate_all_same {A} (f : A → result A) l l' :
  (∀ x y, f x = Ok y → y = x) → validate_all f l = Ok l' → l' = l ∧ Forall (λ x, f x = Ok x) l.
Proof.
  intros Hf. rewrite validate_all_Ok. induction 1 as [|x y l l' Hxy _ [-> IH]]; [done|].
  pose proof (Hf _ _ Hxy) as ->. by repeat constructor.
Qed.

Lemma validate_all_id {A} (f : A → result A) l :
  Forall (λ x, f x = Ok x) l → validate_all f l = Ok l.
Proof. intros H. apply validate_all_Ok. induction H; constructor; auto. Qed.

Lemma has_duplicates_false {A} `{EqDecision A} (l : list A) :
  has_duplicates l = false ↔ NoDup l.
Proof. unfold has_duplicates. by rewrite negb_false_iff, bool_decide_eq_true. Qed.

#[export] Hint Rewrite @has_duplicates_false : boolprop.

(** ** Capabilities *)
Module CapabilitiesFacts.
Import LegCapabilities.
Implicit Types a b c : t.

(** What [validate] establishes. *)
Record wf c : Prop := {
  wf_endpoints : endpoints c ≠ [];
  wf_modalities : modalities c ≠ [];
  wf_context : 0 < context_tokens c;
  wf_nodup_e : NoDup (endpoints c);
  wf_nodup_m : NoDup (modalities c);
  wf_forced : forced_tool c = true → tools c = true;
}.

Lemma caps_validate_Ok a c : validate a = Ok c ↔ c = a ∧ wf a.
Proof.
  unfold validate. split.
  - intros H. inv_ok H. bprop. destruct G as [[??]?], G0 as [??].
    split; [done|]. split; try tauto; try lia.
    destruct (forced_tool a), (tools a); naive_solver.
  - intros [-> [He Hm Hc Hne Hnm Hf]].
    rewrite raise_if_pass by (bprop; tauto).
    rewrite raise_if_pass by (bprop; done).
    rewrite raise_if_pass; [done|]. destruct (forced_tool a), (tools a); naive_solver.
Qed.

Lemma caps_intersection_wf a b c : wf a → wf b → intersection a b = Some c → wf c.
Proof.
  intros Ha Hb. unfold intersection. case_match eqn:E; [done|]. intros [= <-].
  apply orb_false_iff in E as [??]. bprop. split; cbn; try done.
  - pose proof (wf_context _ Ha); pose proof (wf_context _ Hb). lia.
  - apply NoDup_filter, Ha.
  - apply NoDup_filter, Ha.
  - destruct (tools a), (tools b); naive_solver.
Qed.

(** [a.intersection(a.intersection(b)) == a.intersection(b)]: the
    intersection is a contraction of its left argument. *)
Lemma caps_intersection_contracts a b c :
  intersection a b = Some c → intersection a c = Some c.
Proof.
  unfold intersection. destruct (bool_decide _ || _) eqn:E; [done|].
  intros [= <-]; cbn. rewrite !filter_elem_of_idemp, E. f_equal. f_equal; try lia.
  all: bool_cases.
Qed.

(** Intersecting again with the same current authority changes nothing. *)
Lemma caps_intersection_again a b c :
  intersection a b = Some c → intersection c b = Some c.
Proof.
  unfold intersection. destruct (bool_decide _ || _) eqn:E; [done|].
  intros [= <-]; cbn. rewrite !filter_twice, E. f_equal. f_equal; try lia.
  all: bool_cases.
Qed.

(** [contracts old new], i.e. [old.intersection(new) == new], field by field. *)
Record contracts (old new : t) : Prop := {
  ct_endpoints : filter (.∈ endpoints new) (endpoints old) = endpoints new;
  ct_modalities : filter (.∈ modalities new) (modalities old) = modalities new;
  ct_nonempty : endpoints new ≠ [] ∧ modalities new ≠ [];
  ct_context : context_tokens new ≤ context_tokens old;
  ct_tools : tools new = true → tools old = true;
  ct_forced : forced_tool new = true → forced_tool old = true ∧ tools new = true;
  ct_schema : response_schema new = true → response_schema old = true;
  ct_streaming : streaming new = true → streaming old = true;
  ct_reasoning : reasoning new = true → reasoning old = true;
  ct_history : history_continuation new = true → history_continuation old = true;
  ct_shadow : shadow old = true → shadow new = true;
}.

Lemma contracts_iff old new : intersection old new = Some new ↔ contracts old new.
Proof.
  unfold intersection. split.
  - destruct (bool_decide _ || _) eqn:E; [done|]. bprop.
    intros [= Hn]. destruct new; cbn in *. injection Hn as He Hm Hc Ht Hf Hs Hst Hr Hh Hsh.
    split; cbn; rewrite ?He, ?Hm in *; try done; try lia.
    + intros ->. by destruct (tools old).
    + intros ->. destruct (tools old), tools0, (forced_tool old); done.
    + intros ->. by destruct (response_schema old).
    + intros ->. by destruct (streaming old).
    + intros ->. by destruct (reasoning old).
    + intros ->. by destruct (history_continuation old).
    + intros Ho. by rewrite Ho in Hsh.
  - intros [He Hm [Hne Hnm] Hc Ht Hf Hs Hst Hr Hh Hsh]. rewrite He, Hm.
    rewrite !bool_decide_false by done; cbn. destruct new; cbn in *. f_equal.
    f_equal; [lia|..].
    all: match goal with |- _ = ?y => destruct y end; bool_cases; naive_solver.
Qed.

Lemma filter_contract_trans {A} `{EqDecision A} (la lb lc : list A) :
  filter (.∈ lb) la = lb → filter (.∈ lc) lb = lc → filter (.∈ lc) la = lc.
Proof.
  intros Hb Hc. transitivity (filter (.∈ lc) lb); [|done].
  rewrite <-Hb, list_filter_filter. apply filter_ext_elem.
  intros x _. split; [|by intros []]. intros Hx. split; [done|]. rewrite <-Hc, list_elem_of_filter in Hx. tauto.
Qed.

Lemma caps_contracts_trans a b c : contracts a b → contracts b c → contracts a c.
Proof.
  intros Hab Hbc. destruct Hab as [], Hbc as []. split; auto; try lia.
  - by eapply filter_contract_trans.
  - by eapply filter_contract_trans.
  - intros Hf. split; [|by apply ct_forced1]. by apply ct_forced0, ct_forced1.
Qed.

Lemma caps_contracts_refl a : wf a → contracts a a.
Proof.
  intros []. split; try done; try tauto.
  - apply filter_self.
  - apply filter_self.
Qed.
End CapabilitiesFacts.

(** ** Authorized legs *)
Module LegFacts.
Import AuthorizedLeg.
Implicit Types a b c l : t.

Record wf l : Prop := {
  wf_ids : ids_ok l = true;
  wf_order : 1 ≤ order l;
  wf_triggers : allowed_triggers l ≠ [];
  wf_nodup : NoDup (allowed_triggers l);
  wf_caps : CapabilitiesFacts.wf (capabilities l);
}.

Lemma leg_validate_Ok l l' : validate l = Ok l' ↔ l' = l ∧ wf l.
Proof.
  unfold validate. split.
  - intros Hv. inv_ok Hv. apply CapabilitiesFacts.caps_validate_Ok in G1 as [-> ?].
    bprop. destruct G0. split; [done|]. by split.
  - intros [-> [Hi Ho Ht Hn Hc]].
    rewrite raise_if_pass by (by rewrite Hi). rewrite raise_if_pass by (bprop; done).
    rewrite (proj2 (CapabilitiesFacts.caps_validate_Ok _ _) (conj eq_refl Hc)); cbn.
    by rewrite (proj2 (has_duplicates_false _) Hn).
Qed.

Lemma intersection_Some a b c :
  intersection a b = Some c ↔
  identity a = identity b ∧ filter (.∈ allowed_triggers b) (allowed_triggers a) ≠ [] ∧
  ∃ caps, LegCapabilities.intersection (capabilities a) (capabilities b) = Some caps ∧
  c = {| leg_id := leg_id a; account_id := account_id a; generation_id := generation_id a;
         order := order a;
         allowed_triggers := filter (.∈ allowed_triggers b) (allowed_triggers a);
         capabilities := caps |}.
Proof.
  unfold intersection. destruct (bool_decide (identity a = identity b)) eqn:E; bprop; cbn.
  - destruct (LegCapabilities.intersection _ _) as [caps|].
    + case_bool_decide as Ht; [split; [done|]; by intros (_ & ? & _)|]. split.
      * intros [= <-]. eauto.
      * by intros (_ & _ & caps' & [= <-] & ->).
    + split; [done|]. by intros (_ & _ & ? & ? & _).
  - split; [done|]. by intros [? _].
Qed.

Lemma intersection_identity a b c :
  intersection a b = Some c → identity c = identity a ∧ identity a = identity b.
Proof. intros (Hid & _ & caps & _ & ->)%intersection_Some. done. Qed.

Lemma intersection_sort_key a b c : intersection a b = Some c → sort_key c = sort_key a.
Proof. intros (Hid & _ & caps & _ & ->)%intersection_Some. done. Qed.

Lemma intersection_leg_id a b c : intersection a b = Some c → leg_id c = leg_id a.
Proof. intros (Hid & _ & caps & _ & ->)%intersection_Some. done. Qed.

Lemma leg_intersection_wf a b c : wf a → wf b → intersection a b = Some c → wf c.
Proof.
  intros Ha Hb (Hid & Hne & caps & Hc & ->)%intersection_Some. split; cbn.
  - apply Ha.
  - apply Ha.
  - done.
  - apply NoDup_filter, Ha.
  - eapply CapabilitiesFacts.caps_intersection_wf; [apply Ha|apply Hb|done].
Qed.

Lemma leg_intersection_contracts a b c :
  intersection a b = Some c → intersection a c = Some c.
Proof.
  intros (Hid & Hne & caps & Hc & ->)%intersection_Some. apply intersection_Some; cbn.
  rewrite filter_elem_of_idemp. split_and!; try done.
  exists caps. by rewrite (CapabilitiesFacts.caps_intersection_contracts _ _ _ Hc).
Qed.

Lemma leg_intersection_again a b c :
  intersection a b = Some c → intersection c b = Some c.
Proof.
  intros (Hid & Hne & caps & Hc & ->)%intersection_Some. apply intersection_Some; cbn.
  rewrite filter_twice.
  split_and!; try done.
  exists caps. by rewrite (CapabilitiesFacts.caps_intersection_again _ _ _ Hc).
Qed.

(** [old.intersection(new) == new] is a preorder on well-formed legs. *)
Definition contracts (old new : t) : Prop := intersection old new = Some new.

Lemma leg_contracts_refl a : wf a → contracts a a.
Proof.
  intros Ha. apply intersection_Some. rewrite filter_self.
  split_and!; [done|apply Ha|]. exists (capabilities a). split; [|by destruct a].
  by apply CapabilitiesFacts.contracts_iff, CapabilitiesFacts.caps_contracts_refl, Ha.
Qed.

Lemma leg_contracts_trans a b c : contracts a b → contracts b c → contracts a c.
Proof.
  unfold contracts. intros (Hi1 & Hn1 & k1 & Hk1 & Hb)%intersection_Some
    (Hi2 & Hn2 & k2 & Hk2 & Hc)%intersection_Some.
  pose proof (f_equal allowed_triggers Hb) as Htb; pose proof (f_equal allowed_triggers Hc) as Htc.
  pose proof (f_equal capabilities Hb) as Hkb; pose proof (f_equal capabilities Hc) as Hkc.
  cbn in Htb, Htc, Hkb, Hkc. subst k1 k2.
  assert (filter (.∈ allowed_triggers c) (allowed_triggers a) = allowed_triggers c) as Ht
    by by eapply CapabilitiesFacts.filter_contract_trans.
  apply intersection_Some. rewrite Ht. split_and!; [congruence|by rewrite Htc|].
  exists (capabilities c). split.
  - apply CapabilitiesFacts.contracts_iff. eapply CapabilitiesFacts.caps_contracts_trans;
      by apply CapabilitiesFacts.contracts_iff.
  - unfold identity in *. destruct a, b, c; cbn in *. congruence.
Qed.
End LegFacts.

(** ** Authorization ceilings *)
Module CeilingFacts.
Import RequestAuthorizationCeiling.
Implicit Types c : t.

(** What the validator establishes; a ceiling the program holds satisfies it. *)
Record wf c : Prop := {
  wf_scalars : scalars_ok c = true;
  wf_legs : Forall LegFacts.wf (authorized_legs c);
  wf_nodup : NoDup (AuthorizedLeg.leg_id <$> authorized_legs c);
  wf_sorted : AuthorizedLeg.sorted_legs (authorized_legs c) = authorized_legs c;
}.

Lemma validate_legs_Ok l l' :
  validate_all AuthorizedLeg.validate l = Ok l' ↔ l' = l ∧ Forall LegFacts.wf l.
Proof.
  rewrite validate_all_Ok. split.
  - induction 1 as [|x y l l' Hxy _ [-> IH]]; [done|].
    apply LegFacts.leg_validate_Ok in Hxy as [-> ?]. by split; [|constructor].
  - intros [-> Hwf]. induction Hwf; constructor; [by apply LegFacts.leg_validate_Ok|done].
Qed.

Lemma ceiling_validate_wf c c' : validate c = Ok c' → wf c'.
Proof.
  unfold validate. intros Hv. inv_ok Hv. subst c'.
  apply validate_legs_Ok in G0 as [-> Hwf]. bprop.
  split; cbn; try done.
  - unfold AuthorizedLeg.sorted_legs. by rewrite sorted_by_perm.
  - unfold AuthorizedLeg.sorted_legs. by rewrite sorted_by_perm.
  - apply sorted_by_id.
    apply sorted_by_sorted, pair_leb_order; apply _.
Qed.

Lemma ceiling_validate_id c : wf c → validate c = Ok c.
Proof.
  intros [Hs Hl Hn Hsort]. unfold validate. rewrite raise_if_pass by (by rewrite Hs).
  rewrite (proj2 (validate_legs_Ok _ _) (conj eq_refl Hl)). cbn.
  rewrite (proj2 (has_duplicates_false _) Hn). cbn. rewrite Hsort. by destruct c.
Qed.

Lemma sorted_legs_id l :
  StronglySorted (λ x y, AuthorizedLeg.key_leb x y = true) (AuthorizedLeg.sort_key <$> l) →
  AuthorizedLeg.sorted_legs l = l.
Proof.
  intros Hs. apply sorted_by_id. by apply StronglySorted_key.
Qed.

Lemma wf_sorted_keys c : wf c →
  StronglySorted (λ x y, AuthorizedLeg.key_leb x y = true)
    (AuthorizedLeg.sort_key <$> authorized_legs c).
Proof.
  intros Hwf. apply (proj1 (StronglySorted_key AuthorizedLeg.sort_key _ _)). rewrite <-(wf_sorted _ Hwf).
  apply sorted_by_sorted, pair_leb_order; apply _.
Qed.

Lemma nodup_identity l : NoDup (AuthorizedLeg.leg_id <$> l) →
  NoDup (AuthorizedLeg.identity <$> l).
Proof.
  intros Hn. apply (NoDup_fmap_1 (λ i : string * string * string * Z, i.1.1.1)).
  by rewrite <-list_fmap_compose.
Qed.

(** The leg a current identity denotes. *)
Lemma current_leg cur l b : NoDup (AuthorizedLeg.leg_id <$> cur) →
  dget (AuthorizedLeg.identity l)
    (dict_of ((λ x, (AuthorizedLeg.identity x, x)) <$> cur)) = Some b ↔
  b ∈ cur ∧ AuthorizedLeg.identity l = AuthorizedLeg.identity b.
Proof.
  intros Hn%nodup_identity.
  assert (dict_ok ((λ x, (AuthorizedLeg.identity x, x)) <$> cur)) as Hok.
  { unfold dict_ok, dkeys. by rewrite <-list_fmap_compose. }
  rewrite dict_of_id, <-elem_of_dget, list_elem_of_fmap by done. split.
  - intros (x & Heq & Hx).
    pose proof (f_equal fst Heq) as Hi; pose proof (f_equal snd Heq) as Hb.
    cbn in Hi, Hb. by subst x.
  - intros [Hb Hi]. exists b. by rewrite Hi.
Qed.

Lemma elem_of_intersect_legs (adm cur : list AuthorizedLeg) (c : AuthorizedLeg) : NoDup (AuthorizedLeg.leg_id <$> cur) →
  c ∈ intersect_legs adm cur ↔
  ∃ a b, a ∈ adm ∧ b ∈ cur ∧ AuthorizedLeg.intersection a b = Some c.
Proof.
  intros Hn. unfold intersect_legs. rewrite list_elem_of_omap. split.
  - intros (a & Ha & Hc). apply bind_Some in Hc as (b & Hb & Hc).
    apply current_leg in Hb as [? _]; eauto.
  - intros (a & b & Ha & Hb & Hc). exists a. split; [done|]. apply bind_Some.
    exists b. split; [|done]. apply current_leg; [done|]. split; [done|].
    by apply LegFacts.intersection_identity in Hc as [_ ?].
Qed.

Lemma intersect_legs_key {K} (k : AuthorizedLeg → K) (adm cur : list AuthorizedLeg) :
  (∀ a b l, AuthorizedLeg.intersection a b = Some l → k l = k a) →
  sublist (k <$> intersect_legs adm cur) (k <$> adm).
Proof.
  intros Hk. apply omap_key_sublist. intros x y Hy.
  apply bind_Some in Hy as (b & _ & Hy). by eapply Hk.
Qed.

(** Intersecting the survivors again with the same current legs keeps them. *)
Lemma intersect_legs_again (adm cur : list AuthorizedLeg) : NoDup (AuthorizedLeg.leg_id <$> cur) →
  intersect_legs (intersect_legs adm cur) cur = intersect_legs adm cur.
Proof.
  intros Hn. unfold intersect_legs at 1.
  assert (∀ c : AuthorizedLeg, c ∈ intersect_legs adm cur →
    (candidate ← dget (AuthorizedLeg.identity c)
       (dict_of ((λ l, (AuthorizedLeg.identity l, l)) <$> cur));
     AuthorizedLeg.intersection c candidate) = Some c) as Hc.
  { intros c (a & b & Ha & Hb & Hc)%elem_of_intersect_legs; [|done].
    apply bind_Some. exists b. split; [|by eapply LegFacts.leg_intersection_again].
    apply current_leg; [done|]. split; [done|].
    apply LegFacts.intersection_identity in Hc as [??]. congruence. }
  revert Hc. generalize (intersect_legs adm cur) as l.
  induction l as [|c l IH]; intros Hc; [done|]. cbn [omap list_omap].
  rewrite Hc by left. f_equal. apply IH. intros c' Hc'. apply Hc. by right.
Qed.

(** The raw meet of two ceilings is already a valid ceiling. *)
Lemma ceiling_intersection_wf c1 c2 : wf c1 → wf c2 → same_admitted_identity c1 c2 = true →
  ∃ c, intersection c1 c2 = Ok c ∧ wf c ∧
    authorized_legs c = intersect_legs (authorized_legs c1) (authorized_legs c2) ∧
    key_id c = key_id c1 ∧ credential_generation c = credential_generation c1 ∧
    policy_id c = policy_id c1 ∧ route_group_id c = route_group_id c1 ∧
    queue_tier c = Z.max (queue_tier c1) (queue_tier c2) ∧
    queue_weight c = Z.min (queue_weight c1) (queue_weight c2) ∧
    max_concurrency c = Z.min (max_concurrency c1) (max_concurrency c2) ∧
    max_waiters c = Z.min (max_waiters c1) (max_waiters c2) ∧
    deadline_ms c = Z.min (deadline_ms c1) (deadline_ms c2) ∧
    bundle_generation c = bundle_generation c1 ∧ bundle_hash c = bundle_hash c1.
Proof.
  intros H1 H2 Hid. unfold intersection. rewrite raise_if_pass by (by rewrite Hid).
  match goal with |- context [validate ?r] => assert (wf r) as Hwf end;
    [|rewrite (ceiling_validate_id _ Hwf); by eexists; split_and!].
  split; cbn.
  - pose proof (wf_scalars _ H1) as S1; pose proof (wf_scalars _ H2) as S2.
    unfold scalars_ok, KeyPolicyRevision.qos_ok, bounded in *. cbn.
    rewrite !andb_true_iff, !Z.leb_le in *. destruct_and!. split_and!; (done || lia).
  - apply Forall_forall. intros c Hc.
    apply elem_of_intersect_legs in Hc as (a & b & Ha & Hb & Hc); [|apply H2].
    pose proof (wf_legs _ H1) as W1; pose proof (wf_legs _ H2) as W2.
    rewrite Forall_forall in W1, W2.
    eapply LegFacts.leg_intersection_wf; [by apply W1|by apply W2|done].
  - eapply sublist_NoDup; [apply H1|].
    apply intersect_legs_key, LegFacts.intersection_leg_id.
  - apply sorted_legs_id. eapply StronglySorted_sublist; [|exact (wf_sorted_keys _ H1)].
    apply intersect_legs_key, LegFacts.intersection_sort_key.
Qed.
End CeilingFacts.

(** A queued request's authority only contracts.  Intersecting the admitted
    ceiling with the current one never raises for the same identity and yields
    a valid ceiling whose QoS is no better than either's and whose legs are
    each the contraction of an admitted leg by a current leg (never a leg
    absent from either side); intersecting again with the same current ceiling
    changes nothing. *)
Theorem ceiling_intersection_contracts (admitted current : RequestAuthorizationCeiling) :
  CeilingFacts.wf admitted → CeilingFacts.wf current →
  RequestAuthorizationCeiling.same_admitted_identity admitted current = true →
  ∃ c, RequestAuthorizationCeiling.intersection admitted current = Ok c ∧
    CeilingFacts.wf c ∧
    RequestAuthorizationCeiling.queue_tier admitted ≤ RequestAuthorizationCeiling.queue_tier c ∧
    RequestAuthorizationCeiling.queue_weight c ≤ RequestAuthorizationCeiling.queue_weight admitted ∧
    RequestAuthorizationCeiling.max_concurrency c ≤
      RequestAuthorizationCeiling.max_concurrency current ∧
    RequestAuthorizationCeiling.deadline_ms c ≤ RequestAuthorizationCeiling.deadline_ms admitted ∧
    (∀ l, l ∈ RequestAuthorizationCeiling.authorized_legs c →
      ∃ a b, a ∈ RequestAuthorizationCeiling.authorized_legs admitted ∧
             b ∈ RequestAuthorizationCeiling.authorized_legs current ∧
             AuthorizedLeg.intersection a b = Some l ∧ LegFacts.contracts a l) ∧
    RequestAuthorizationCeiling.intersection c current = Ok c.
Proof.
  intros Ha Hc Hid.
  destruct (CeilingFacts.ceiling_intersection_wf _ _ Ha Hc Hid)
    as (c & Hi & Hwf & Hl & Hk & Hg & Hp & Hr & Ht & Hw & Hm & Hx & Hd & Hbg & Hbh).
  exists c. split_and!; [done|done|lia|lia|lia|lia|..].
  - intros l Hin. rewrite Hl in Hin.
    apply CeilingFacts.elem_of_intersect_legs in Hin as (a & b & ? & ? & Hab); [|apply Hc].
    exists a, b. split_and!; try done. by eapply LegFacts.leg_intersection_contracts.
  - assert (RequestAuthorizationCeiling.same_admitted_identity c current = true) as Hid'.
    { unfold RequestAuthorizationCeiling.same_admitted_identity in *.
      by rewrite Hk, Hg, Hp, Hr. }
    destruct (CeilingFacts.ceiling_intersection_wf _ _ Hwf Hc Hid')
      as (c' & Hi' & Hwf' & Hl' & Hk' & Hg' & Hp' & Hr' & Ht' & Hw' & Hm' & Hx' & Hd' & Hbg' & Hbh').
    rewrite Hi'. f_equal.
    rewrite Hl, CeilingFacts.intersect_legs_again in Hl' by apply Hc. rewrite <-Hl in Hl'.
    destruct c, c'; cbn in *. f_equal; try congruence; try lia.
Qed.

(** ** Provider accounts *)
Module AccountFacts.
Import ProviderAccount.
Implicit Types a : t.

Lemma quota_validate_Ok q q' : QuotaDimension.validate q = Ok q' ↔
  q' = q ∧ (∀ v, QuotaDimension.value q = Some v → 0 < v) ∧
  (QuotaDimension.is_known q = true ↔ is_Some (QuotaDimension.value q)).
Proof.
  unfold QuotaDimension.validate. destruct q as [s [v|]]; cbn; unfold QuotaDimension.is_known; cbn.
  - destruct (v <=? 0) eqn:E; cbn; bprop in E.
    { split; [done|]. intros (_ & Hv & _). specialize (Hv v eq_refl). lia. }
    rewrite andb_false_r; cbn. destruct (bool_decide (s = _)); cbn.
    + split; [intros [= <-]; split_and!; [done|by intros ? [= <-]|done]|by intros [-> _]].
    + split; [done|]. intros (_ & _ & Hk). destruct Hk as [_ Hk].
      by discriminate (Hk (mk_is_Some _ _ eq_refl)).
  - destruct (bool_decide (s = _)); cbn.
    + split; [done|]. intros (_ & _ & [Hk _]).
      by destruct (Hk eq_refl) as [? [=]].
    + split; [intros [= <-]; split_and!; try done; by intros []|by intros [-> _]].
Qed.

(** The fields that the derived state does not touch. *)
Lemma set_state_same a s :
  fully_attested (a{{ state := s }}) = fully_attested a ∧
  bound (a{{ state := s }}) = bound a ∧
  attested_credential (a{{ state := s }}) = attested_credential a ∧
  enforced_max_in_flight (a{{ state := s }}) = enforced_max_in_flight a ∧
  fields_ok (a{{ state := s }}) = fields_ok a ∧
  local_parallel_ceiling (a{{ state := s }}) = local_parallel_ceiling a ∧
  state (a{{ state := s }}) = s.
Proof. by destruct a. Qed.

(** The guards on everything but the state. *)
Definition static_guards a : Prop :=
  bool_decide (QuotaDimension.status (parallel_limit a) =
               QuotaDimensionStatus.ATTESTED_ABSENT) = false ∧
  QuotaDimension.is_known (monthly_quota_units a) && bool_decide (monthly_reset_at_ms a = None)
    = false ∧
  negb (QuotaDimension.is_known (monthly_quota_units a)) &&
    negb (bool_decide (monthly_reset_at_ms a = None)) = false ∧
  existsb nonempty (binding a) && negb (bound a) = false ∧
  (bool_decide (is_Some (credential_fingerprint a)) ||
   bool_decide (is_Some (credential_epoch a))) && negb (attested_credential a) = false.

(** The state an account ends with, given the one it declared. *)
Definition final_state a : option AccountState :=
  if negb (fully_attested a) then Some AccountState.DRAFT
  else match state a with
       | Some s => Some s
       | None => Some (if bound a && attested_credential a then AccountState.ACTIVE
                       else AccountState.DRAFT)
       end.

Definition state_guards a : Prop :=
  if negb (fully_attested a) then state a = None ∨ state a = Some AccountState.DRAFT
  else ∀ s, state a = Some s → s ≠ AccountState.DRAFT →
            attested_credential a = true ∧ bound a = true.

Lemma derive_Ok a a' : derive_and_guard_state a = Ok a' ↔
  static_guards a ∧ state_guards a ∧ a' = a{{ state := final_state a }}.
Proof.
  unfold derive_and_guard_state, static_guards, state_guards, final_state. split.
  - intros Hd. inv_ok Hd. split; [done|]. destruct (negb (fully_attested a)).
    + inv_ok Hd. subst a'. bprop. destruct G4; auto.
    + inv_ok Hd. split.
      * intros s Hs Hne. rewrite Hs in *.
        destruct s, (attested_credential a), (bound a); cbn in *; done.
      * destruct a as [? ? ? ? ? ? ? ? ? ? ? ? ? ? ? ? []]; by injection Hd as <-.
  - intros ((-> & -> & -> & -> & ->) & Hs & ->). cbn [raise_if mbind result_bind].
    destruct (negb (fully_attested a)).
    + destruct Hs as [-> | ->]; done.
    + destruct (state a) as [s|] eqn:E.
      * destruct (decide (s = AccountState.DRAFT)) as [->|Hne].
        -- cbn. by destruct a; cbn in *; subst.
        -- destruct (Hs s eq_refl Hne) as [-> ->]. rewrite !andb_false_r. cbn.
           by destruct a; cbn in *; subst.
      * done.
Qed.

Lemma account_validate_Ok a a' : validate a = Ok a' ↔
  fields_ok a = true ∧
  (∀ q, q ∈ [parallel_limit a; rpm_limit a; tpm_limit a; monthly_quota_units a] →
        QuotaDimension.validate q = Ok q) ∧
  static_guards a ∧ state_guards a ∧ a' = a{{ state := final_state a }}.
Proof.
  unfold validate. split.
  - intros Hv. inv_ok Hv. bprop. apply derive_Ok in Hv.
    apply quota_validate_Ok in G0 as G0', G1 as G1', G2 as G2', G3 as G3'.
    destruct G0' as [-> _], G1' as [-> _], G2' as [-> _], G3' as [-> _].
    split_and!; try tauto.
    intros q Hq. repeat (apply elem_of_cons in Hq as [->|Hq]; [done|]). by apply elem_of_nil in Hq.
  - intros (Hf & Hq & Hd). rewrite Hf. cbn [negb raise_if mbind result_bind].
    rewrite !Hq by set_solver. cbn [mbind result_bind]. by apply derive_Ok.
Qed.

Lemma final_state_settled a a' :
  fully_attested a' = fully_attested a → bound a' = bound a →
  attested_credential a' = attested_credential a → state a' = final_state a →
  state_guards a → state_guards a' ∧ final_state a' = final_state a.
Proof.
  unfold state_guards, final_state. intros -> -> -> -> Hs.
  destruct (negb (fully_attested a)); [by split; [right|]|].
  destruct (state a) as [s|]; [done|]. split; [|done].
  intros s' [= <-]. by destruct (bound a), (attested_credential a).
Qed.

Lemma final_state_idem a :
  static_guards a → state_guards a →
  static_guards (a{{ state := final_state a }}) ∧
  state_guards (a{{ state := final_state a }}) ∧
  final_state (a{{ state := final_state a }}) = final_state a.
Proof.
  intros Hg Hs. destruct (set_state_same a (final_state a)) as (Hf & Hb & Hc & _).
  split; [destruct a; exact Hg|]. by apply final_state_settled.
Qed.
End AccountFacts.

(** Account onboarding is conservative.  A validated account always carries
    a state; an ACTIVE one has every capacity dimension attested, a complete
    binding and a complete credential attestation; an unattested one is DRAFT
    and limited to a single request; the enforced parallel limit always exists
    and lies between 1 and the local ceiling (at most 128); and revalidating a
    validated account (as every publication does) returns it unchanged. *)
Theorem account_validation_conservative (a a' : ProviderAccount) :
  ProviderAccount.validate a = Ok a' →
  (∃ s, ProviderAccount.state a' = Some s) ∧
  (ProviderAccount.state a' = Some AccountState.ACTIVE →
     ProviderAccount.fully_attested a' = true ∧ ProviderAccount.bound a' = true ∧
     ProviderAccount.attested_credential a' = true) ∧
  (ProviderAccount.fully_attested a' = false →
     ProviderAccount.state a' = Some AccountState.DRAFT ∧
     ProviderAccount.enforced_max_in_flight a' = Ok 1) ∧
  (∃ n, ProviderAccount.enforced_max_in_flight a' = Ok n ∧
     1 ≤ n ≤ ProviderAccount.local_parallel_ceiling a' ∧ n ≤ 128) ∧
  ProviderAccount.validate a' = Ok a'.
Proof.
  intros (Hf & Hq & Hg & Hs & ->)%AccountFacts.account_validate_Ok.
  destruct (AccountFacts.set_state_same a (AccountFacts.final_state a)) as
    (Ea & Eb & Ec & En & Ef & El & Est).
  destruct (AccountFacts.final_state_idem a Hg Hs) as (Hg' & Hs' & Hfs).
  rewrite Ea, Eb, Ec, En, El, Est. split_and!.
  - unfold AccountFacts.final_state. repeat case_match; by eexists.
  - unfold AccountFacts.final_state, AccountFacts.state_guards in *.
    destruct (ProviderAccount.fully_attested a); cbn [negb] in *; [|done].
    destruct (ProviderAccount.state a) as [s|].
    + intros [= ->]. by destruct (Hs _ eq_refl).
    + destruct (ProviderAccount.bound a), (ProviderAccount.attested_credential a); done.
  - unfold AccountFacts.final_state, ProviderAccount.enforced_max_in_flight. by intros ->.
  - assert (1 ≤ ProviderAccount.local_parallel_ceiling a ≤ 128) as Hl.
    { unfold ProviderAccount.fields_ok, bounded in Hf. rewrite !andb_true_iff, !Z.leb_le in Hf.
      destruct_and!. lia. }
    unfold ProviderAccount.enforced_max_in_flight.
    destruct (ProviderAccount.fully_attested a) eqn:E; cbn;
      [|exists 1; split; [done|lia]].
    specialize (Hq (ProviderAccount.parallel_limit a) ltac:(left)).
    apply AccountFacts.quota_validate_Ok in Hq as (_ & Hpos & Hk & _).
    unfold ProviderAccount.fully_attested in E. apply andb_true_iff in E as [E _].
    destruct (Hk E) as [v Hv]. rewrite Hv. specialize (Hpos _ Hv).
    eexists; split; [done|]. lia.
  - apply AccountFacts.account_validate_Ok. split; [by rewrite Ef|].
    split; [by destruct a|]. split_and!; [done..|]. rewrite Hfs. by destruct a.
Qed.

(** ** The bundle *)
Module BundleFacts.
Import PolicyBundleV1.

Lemma elem_of_all_legs groups l :
  l ∈ all_legs groups ↔ ∃ g, g ∈ groups ∧ l ∈ RouteGroupRevision.legs g.
Proof. unfold all_legs. rewrite list_elem_of_bind. naive_solver. Qed.

Lemma leg_groups_Some groups i gid : dget i (leg_groups groups) = Some gid →
  ∃ g l, g ∈ groups ∧ l ∈ RouteGroupRevision.legs g ∧ RouteLeg.leg_id l = i ∧
         RouteGroupRevision.route_group_id g = gid.
Proof.
  intros Hg%dget_dict_of. apply list_elem_of_bind in Hg as (g & Hl & Hg).
  apply list_elem_of_fmap in Hl as (l & [= -> ->] & Hl). eauto 10.
Qed.

Lemma legs_by_id_Some groups i l : dget i (legs_by_id groups) = Some l →
  l ∈ all_legs groups ∧ RouteLeg.leg_id l = i.
Proof.
  intros Hg%dget_dict_of. by apply list_elem_of_fmap in Hg as (l' & [= -> ->] & Hl).
Qed.

(** What a policy's leg may be: a leg of one of its groups, identical in
    identity and capabilities, with no extra trigger. *)
Definition grants_exactly (groups : list RouteGroupRevision) (gid : string)
    (l : AuthorizedLeg) : Prop :=
  ∃ g r, g ∈ groups ∧ RouteGroupRevision.route_group_id g = gid ∧
    r ∈ RouteGroupRevision.legs g ∧
    RouteLeg.identity r = AuthorizedLeg.identity l ∧
    AuthorizedLeg.allowed_triggers l ⊆ RouteLeg.triggers r ∧
    AuthorizedLeg.capabilities l = RouteLeg.capabilities r.

Lemma check_authorized_leg_Ok accounts groups pgs l gid :
  NoDup (RouteLeg.leg_id <$> all_legs groups) →
  check_authorized_leg accounts groups pgs l = Ok gid →
  AuthorizedLeg.account_id l ∈ accounts ∧ gid ∈ pgs ∧ grants_exactly groups gid l.
Proof.
  intros Hn Hc. unfold check_authorized_leg in Hc. inv_ok Hc. bprop in G.
  destruct (dget _ (legs_by_id groups)) as [actual|] eqn:Ea; [|done].
  destruct (dget _ (leg_groups groups)) as [gid'|] eqn:Eg; [|done].
  inv_ok Hc. subst gid'. bprop in G0. bprop in G1. bprop in G2. bprop in G3.
  split_and!; [done..|].
  apply legs_by_id_Some in Ea as [Hact Hid].
  apply leg_groups_Some in Eg as (g & r & Hg & Hr & Hrid & Hgid).
  assert (r = actual) as ->.
  { eapply (NoDup_key_inj RouteLeg.leg_id); [exact Hn| |done|congruence].
    apply elem_of_all_legs. eauto. }
  exists g, actual. by rewrite <-G1.
Qed.

Lemma validate_all_elem {A B} (f : A → result B) l l' x :
  validate_all f l = Ok l' → x ∈ l → ∃ y, f x = Ok y ∧ y ∈ l'.
Proof.
  rewrite validate_all_Ok. induction 1 as [|a b l l' Hab _ IH]; [by intros ?%elem_of_nil|].
  intros [->|Hx]%elem_of_cons; [exists b; split; [done|left]|].
  destruct (IH Hx) as (y & ? & ?). exists y. split; [done|by right].
Qed.

Lemma validate_all_elem_r {A B} (f : A → result B) l l' y :
  validate_all f l = Ok l' → y ∈ l' → ∃ x, f x = Ok y ∧ x ∈ l.
Proof.
  rewrite validate_all_Ok. induction 1 as [|a b l l' Hab _ IH]; [by intros ?%elem_of_nil|].
  intros [->|Hx]%elem_of_cons; [exists a; split; [done|left]|].
  destruct (IH Hx) as (x & ? & ?). exists x. split; [done|by right].
Qed.

Lemma validate_exact b b' : validate b = Ok b' → exact_membership b' = Ok tt.
Proof.
  unfold validate. intros Hv. inv_ok Hv.
  match goal with H : exact_membership _ = Ok ?u |- _ => destruct u; by rewrite <-Hv end.
Qed.
End BundleFacts.

(** A bundle that validates is closed: every key's policy is in the bundle
    and is the only one of that id; every leg a policy authorizes is, within
    one of the policy's own route groups, a leg of the same identity and
    capabilities that carries at least the granted triggers, on an account of
    the bundle; every route group a policy names is covered by such a leg; and
    every route group has exactly one PRIMARY leg. *)
Theorem bundle_membership_exact (b b' : PolicyBundleV1) :
  PolicyBundleV1.validate b = Ok b' →
  (∀ k, k ∈ PolicyBundleV1.keys b' → ∃ p, p ∈ PolicyBundleV1.policies b' ∧
     KeyPolicyRevision.policy_id p = ClientKeyRecord.policy_id k ∧
     ∀ q, q ∈ PolicyBundleV1.policies b' →
          KeyPolicyRevision.policy_id q = ClientKeyRecord.policy_id k → q = p) ∧
  (∀ p, p ∈ PolicyBundleV1.policies b' →
     (∀ l, l ∈ KeyPolicyRevision.authorized_legs p → ∃ gid,
        gid ∈ KeyPolicyRevision.route_group_ids p ∧
        BundleFacts.grants_exactly (PolicyBundleV1.route_groups b') gid l ∧
        ∃ a, a ∈ PolicyBundleV1.accounts b' ∧
             ProviderAccount.account_id a = AuthorizedLeg.account_id l) ∧
     (∀ gid, gid ∈ KeyPolicyRevision.route_group_ids p → ∃ l,
        l ∈ KeyPolicyRevision.authorized_legs p ∧
        BundleFacts.grants_exactly (PolicyBundleV1.route_groups b') gid l)) ∧
  (∀ g, g ∈ PolicyBundleV1.route_groups b' → ∃ r,
     List.filter (PolicyBundleV1.has_trigger RouteTrigger.PRIMARY)
       (RouteGroupRevision.legs g) = [r]).
Proof.
  intros Hv. apply BundleFacts.validate_exact in Hv. revert Hv. generalize b'. clear.
  intros c Hm.
  unfold PolicyBundleV1.exact_membership in Hm. inv_ok Hm. bprop.
  split_and!.
  - intros k Hk. rewrite existsb_false in Hm. specialize (Hm k Hk).
    rewrite negb_false_iff, bool_decide_eq_true, list_elem_of_fmap in Hm.
    destruct Hm as (p & Hid & Hp). exists p. split_and!; [done|done|].
    intros q Hq Hqid. eapply (NoDup_key_inj KeyPolicyRevision.policy_id); [done..|congruence].
  - intros p Hp. destruct (BundleFacts.validate_all_elem _ _ _ _ G8 Hp) as ([] & Hc & _).
    unfold PolicyBundleV1.check_policy in Hc. inv_ok Hc. split.
    + intros l Hl. destruct (BundleFacts.validate_all_elem _ _ _ _ G10 Hl) as (gid & Hg & _).
      apply BundleFacts.check_authorized_leg_Ok in Hg as (Ha & Hin & Hex); [|done].
      exists gid. split_and!; [done..|]. apply list_elem_of_fmap in Ha as (a & ? & ?). eauto.
    + intros gid Hgid. rewrite existsb_false in Hc. specialize (Hc gid Hgid).
      rewrite negb_false_iff, bool_decide_eq_true in Hc.
      destruct (BundleFacts.validate_all_elem_r _ _ _ _ G10 Hc) as (l & Hl & Hin).
      apply BundleFacts.check_authorized_leg_Ok in Hl as (_ & _ & Hex); [|done]. eauto.
  - intros g Hg. destruct (BundleFacts.validate_all_elem _ _ _ _ G7 Hg) as ([] & Hc & _).
    unfold PolicyBundleV1.check_group in Hc. inv_ok Hc. bprop in Hc.
    destruct (List.filter _ _) as [|r [|? ?]]; try done. by exists r.
Qed.

Lemma bundle_membership_exact_witness :
  ∃ k p, k ∈ PolicyBundleV1.keys Samples.bundle ∧
    KeyPolicyRevision.policy_id p = ClientKeyRecord.policy_id k.
Proof.
  destruct (PolicyBundleV1.validate Samples.bundle) as [b|] eqn:E.
  2: { exfalso. revert E. vm_compute. discriminate. }
  destruct (bundle_membership_exact _ _ E) as (Hk & _).
  assert (PolicyBundleV1.keys b = PolicyBundleV1.keys Samples.bundle) as Heq.
  { revert E. vm_compute. by intros [= <-]. }
  destruct (Hk Samples.key_before) as (p & _ & Hp & _).
  { rewrite Heq. left. }
  exists Samples.key_before, p. split; [left|exact Hp].
Defined.

Lemma account_validation_conservative_witness :
  let a := Samples.provider_account "1" Samples.unknown None in
  is_ok (ProviderAccount.validate a) = true ∧
  ∀ a', ProviderAccount.validate a = Ok a' →
    ProviderAccount.enforced_max_in_flight a' = Ok 1.
Proof.
  split; [by vm_compute|]. intros a' Ha.
  destruct (account_validation_conservative _ _ Ha) as (_ & _ & Hd & _).
  apply Hd. revert Ha. vm_compute. by intros [= <-].
Defined.

(** The current policy dropped the tools of both legs and halved the weight. *)
Lemma ceiling_intersection_contracts_witness :
  ∃ c, RequestAuthorizationCeiling.intersection
         (Samples.ceiling (Samples.two_legs true) 8)
         (Samples.ceiling (Samples.two_legs false) 4) = Ok c ∧
    RequestAuthorizationCeiling.authorized_legs c = Samples.two_legs false ∧
    RequestAuthorizationCeiling.queue_weight c = 4.
Proof.
  assert (∀ tools w, 1 ≤ w ≤ 64 →
    RequestAuthorizationCeiling.validate (Samples.ceiling (Samples.two_legs tools) w) =
    Ok (Samples.ceiling (Samples.two_legs tools) w) →
    CeilingFacts.wf (Samples.ceiling (Samples.two_legs tools) w)) as Hwf.
  { intros tools w _. apply CeilingFacts.ceiling_validate_wf. }
  destruct (ceiling_intersection_contracts
    (Samples.ceiling (Samples.two_legs true) 8) (Samples.ceiling (Samples.two_legs false) 4))
    as (c & Hc & _).
  - apply Hwf; [lia|by vm_compute].
  - apply Hwf; [lia|by vm_compute].
  - by vm_compute.
  - exists c. split; [exact Hc|]. revert Hc. vm_compute. by intros [= <-].
Defined.
