(* ===== verification/KeyLifecycle.v ===== *)
(** * Client-key record lifecycle

    [core/key_lifecycle.py]: the checks that a new revision of a client-key
    record only narrows the one it replaces.  Python iterates over sets of
    generations and of key ids; the model iterates over them in list order,
    which decides only which of several errors is the one raised. *)
From S2P Require Export ModelFacts.

Definition DEFAULT_KEY_LIFETIME_S : Z := 90 * 86400.
Definition MAX_KEY_LIFETIME_S : Z := 365 * 86400.
Definition DEFAULT_ROTATION_OVERLAP_S : Z := 86400.
Definition MAX_ROTATION_OVERLAP_S : Z := 7 * 86400.

Definition TERMINAL_CREDENTIAL_STATES : list CredentialVerifierStatus :=
  [CredentialVerifierStatus.RETIRED; CredentialVerifierStatus.EXPIRED].

Definition ALLOWED_CREDENTIAL_TRANSITIONS (s : CredentialVerifierStatus) :
    list CredentialVerifierStatus :=
  match s with
  | CredentialVerifierStatus.ACTIVE =>
      [CredentialVerifierStatus.ACTIVE; CredentialVerifierStatus.RETIRING;
       CredentialVerifierStatus.RETIRED; CredentialVerifierStatus.EXPIRED]
  | CredentialVerifierStatus.RETIRING =>
      [CredentialVerifierStatus.RETIRING; CredentialVerifierStatus.RETIRED;
       CredentialVerifierStatus.EXPIRED]
  | CredentialVerifierStatus.RETIRED => [CredentialVerifierStatus.RETIRED]
  | CredentialVerifierStatus.EXPIRED => [CredentialVerifierStatus.EXPIRED]
  end.

Module PolicyReassignment.
Record t := mk { expected_policy_id : string; target_policy_id : string }.
#[global] Instance eq_dec : EqDecision t.
Proof. solve_decision. Defined.
End PolicyReassignment.
Abbreviation PolicyReassignment := PolicyReassignment.t.

(** [_validate_existing_verifier] *)
Definition validate_existing_verifier (before after : ClientVerifier) : result unit :=
  raise_if (negb (ClientVerifier.same_type before after))
    (ValueError "credential verifier kind is immutable");;
  raise_if (negb (bool_decide (ClientVerifier.digest before = ClientVerifier.digest after)) ||
            negb (bool_decide (ClientVerifier.pepper_version before =
                               ClientVerifier.pepper_version after)) ||
            negb (ClientVerifier.not_before_s before =? ClientVerifier.not_before_s after))
    (ValueError "credential verifier generation is immutable");;
  raise_if (ClientVerifier.not_after_s before <? ClientVerifier.not_after_s after)
    (ValueError "credential verifier window cannot be extended");;
  if bool_decide (ClientVerifier.status after ∈
                  ALLOWED_CREDENTIAL_TRANSITIONS (ClientVerifier.status before))
  then mret tt
  else
    raise_if (bool_decide (ClientVerifier.status before ∈ TERMINAL_CREDENTIAL_STATES))
      (ValueError "terminal credential generation cannot resurrect");;
    Err (ValueError "illegal credential verifier status transition").

(** The dictionaries [{item.generation: item for item in _verifiers(record)}]. *)
Definition by_generation (r : ClientKeyRecord) : dict Z ClientVerifier :=
  dict_of ((λ v, (ClientVerifier.generation v, v)) <$> ClientKeyRecord.verifiers r).

Definition check_existing (old : dict Z ClientVerifier) (new : Z * ClientVerifier) :
    result unit :=
  match dget new.1 old with
  | Some before => validate_existing_verifier before new.2
  | None => mret tt
  end.

Definition check_new (before after : ClientKeyRecord) (old : dict Z ClientVerifier)
    (new : Z * ClientVerifier) : result unit :=
  if dmem new.1 old then mret tt
  else
    raise_if (new.1 <=? ClientKeyRecord.generation_high_water before)
      (ValueError "retired credential generation reuse is forbidden");;
    raise_if (ClientVerifier.not_before_s new.2 <? ClientKeyRecord.time_high_water_s before)
      (ValueError "backdated credential not-before precedes transition high-water");;
    raise_if (ClientKeyRecord.time_high_water_s after <? ClientVerifier.not_before_s new.2)
      (ValueError "future credential not-before exceeds transition high-water").

Definition check_reassignment (before after : ClientKeyRecord)
    (policy_reassignment : option PolicyReassignment) : result unit :=
  if negb (bool_decide (ClientKeyRecord.policy_id after = ClientKeyRecord.policy_id before)) then
    match policy_reassignment with
    | None => Err (ValueError
        "policy reassignment requires exact expected and target policy IDs")
    | Some p =>
        raise_if (negb (bool_decide (PolicyReassignment.expected_policy_id p =
                                     ClientKeyRecord.policy_id before)))
          (ValueError "policy reassignment expected policy does not match");;
        raise_if (negb (bool_decide (PolicyReassignment.target_policy_id p =
                                     ClientKeyRecord.policy_id after)))
          (ValueError "policy reassignment target policy does not match")
    end
  else
    match policy_reassignment with
    | None => mret tt
    | Some p =>
        raise_if (negb (bool_decide (PolicyReassignment.expected_policy_id p =
                                     ClientKeyRecord.policy_id before)) ||
                  negb (bool_decide (PolicyReassignment.target_policy_id p =
                                     ClientKeyRecord.policy_id after)))
          (ValueError "policy reassignment does not match the record delta")
    end.

(** The rotation overlap of the first ACTIVE verifier with each RETIRING one. *)
Definition check_overlap (after : ClientKeyRecord) : result unit :=
  match ClientKeyRecord.active after with
  | [] => mret tt
  | active :: _ =>
      raise_if (existsb (λ retiring,
          MAX_ROTATION_OVERLAP_S <?
          ClientVerifier.not_after_s retiring - ClientVerifier.not_before_s active)
        (List.filter (ClientKeyRecord.status_is CredentialVerifierStatus.RETIRING)
          (ClientKeyRecord.verifiers after)))
        (ValueError "credential rotation overlap exceeds seven days")
  end.

Definition validate_key_record_delta (before after : ClientKeyRecord)
    (policy_reassignment : option PolicyReassignment) : result unit :=
  before ← ClientKeyRecord.validate before;
  after ← ClientKeyRecord.validate after;
  raise_if (negb (bool_decide (ClientKeyRecord.key_id after = ClientKeyRecord.key_id before)))
    (ValueError "client key identity cannot change");;
  raise_if (negb (ClientKeyRecord.issued_at_s after =? ClientKeyRecord.issued_at_s before))
    (ValueError "client key issuance time cannot change");;
  if ClientKeyRecord.terminal before then
    raise_if (negb (bool_decide (after = before)))
      (ValueError "terminal key identity cannot resurrect or change")
  else
    raise_if (ClientKeyRecord.time_high_water_s after <? ClientKeyRecord.time_high_water_s before)
      (ValueError "trusted clock high-water cannot move backward");;
    raise_if (ClientKeyRecord.expires_at_s before <? ClientKeyRecord.expires_at_s after)
      (ValueError "client key expiry extension requires reissue");;
    raise_if (ClientKeyRecord.expires_at_s after <? ClientKeyRecord.expires_at_s before)
      (ValueError "client key expiry cannot change silently");;
    check_reassignment before after policy_reassignment;;
    raise_if (ClientKeyRecord.generation_high_water after <?
              ClientKeyRecord.generation_high_water before)
      (ValueError "credential generation high-water cannot roll back");;
    let old := by_generation before in
    let new := by_generation after in
    validate_all (check_existing old) new;;
    validate_all (check_new before after old) new;;
    (if ClientKeyRecord.generation_high_water before <?
        ClientKeyRecord.generation_high_water after then
       raise_if (negb (dmem (ClientKeyRecord.generation_high_water after) new))
         (ValueError "generation high-water must name the new verifier")
     else
       raise_if (existsb (λ g, negb (dmem g old)) (dkeys new))
         (ValueError "new verifier requires a higher generation"));;
    check_overlap after.

Definition key_index (records : list ClientKeyRecord) : dict string ClientKeyRecord :=
  dict_of ((λ r, (ClientKeyRecord.key_id r, r)) <$> records).

Definition exact_policy_reassignments (before after : list ClientKeyRecord) :
    dict string PolicyReassignment :=
  let old := key_index before in
  dict_of (omap (λ r,
    b ← dget (ClientKeyRecord.key_id r) old;
    if bool_decide (ClientKeyRecord.policy_id r = ClientKeyRecord.policy_id b) then None
    else Some (ClientKeyRecord.key_id r,
               {| PolicyReassignment.expected_policy_id := ClientKeyRecord.policy_id b;
                  PolicyReassignment.target_policy_id := ClientKeyRecord.policy_id r |}))
    after).

Definition check_key_delta (old : dict string ClientKeyRecord)
    (assignments : dict string PolicyReassignment) (new : string * ClientKeyRecord) :
    result unit :=
  match dget new.1 old with
  | None => mret tt
  | Some before =>
      if bool_decide (before = new.2) then mret tt
      else validate_key_record_delta before new.2 (dget new.1 assignments)
  end.

Definition validate_key_record_set_delta (before after : list ClientKeyRecord)
    (policy_reassignments : option (dict string PolicyReassignment)) : result unit :=
  let old := key_index before in
  let new := key_index after in
  raise_if (existsb (λ k, negb (dmem k new)) (dkeys old))
    (ValueError "client key tombstones cannot be removed");;
  validate_all (check_key_delta old (from_option id [] policy_reassignments)) new;;
  mret tt.

(** ** Facts *)
Module KeyLifecycleFacts.
Import ClientKeyRecord.

(** What may happen to a verifier that keeps its generation number. *)
Definition contracts (v v' : ClientVerifier) : Prop :=
  ClientVerifier.same_type v v' = true ∧
  ClientVerifier.digest v' = ClientVerifier.digest v ∧
  ClientVerifier.pepper_version v' = ClientVerifier.pepper_version v ∧
  ClientVerifier.not_before_s v' = ClientVerifier.not_before_s v ∧
  ClientVerifier.not_after_s v' ≤ ClientVerifier.not_after_s v ∧
  ClientVerifier.status v' ∈ ALLOWED_CREDENTIAL_TRANSITIONS (ClientVerifier.status v).

#[export] Instance key_contracts_refl : Reflexive contracts.
Proof.
  intros v. split_and!; try done; [by destruct v|].
  destruct (ClientVerifier.status v); cbn; set_solver.
Qed.

#[export] Instance key_contracts_trans : Transitive contracts.
Proof.
  intros u v w (Ht & Hd & Hp & Hb & Ha & Hs) (Ht' & Hd' & Hp' & Hb' & Ha' & Hs').
  split_and!; try congruence; try lia.
  - by destruct u, v, w.
  - destruct (ClientVerifier.status u), (ClientVerifier.status v);
      cbn in *; set_solver.
Qed.

Lemma validate_existing_verifier_Ok v v' :
  validate_existing_verifier v v' = Ok tt ↔ contracts v v'.
Proof.
  unfold validate_existing_verifier, contracts. split.
  - intros H. repeat inv_ok_step H. bprop.
    case_bool_decide as Hin; [|inv_ok H; done]. naive_solver.
  - intros (-> & -> & -> & -> & Ha & Hs).
    rewrite !bool_decide_true, Z.eqb_refl by done. cbn.
    by rewrite raise_if_pass by (bprop; lia).
Qed.

Lemma key_validate_id r r' : validate r = Ok r' → r' = r.
Proof.
  unfold validate. intros H. inv_ok H.
  unfold valid_lifetime_and_generations in H. inv_ok H. done.
Qed.

Lemma foldr_max_le (l : list Z) x : x ∈ l → x ≤ foldr Z.max 0 l.
Proof. induction l as [|y l IH]; [by intros ?%elem_of_nil|]. set_solver by lia. Qed.

(** The two facts of a valid record that the delta needs. *)
Lemma validate_generations r r' : validate r = Ok r' →
  NoDup (ClientVerifier.generation <$> verifiers r) ∧
  ∀ v, v ∈ verifiers r → ClientVerifier.generation v ≤ generation_high_water r.
Proof.
  unfold validate. intros H. inv_ok H.
  unfold valid_lifetime_and_generations in H. inv_ok H. clear H.
  bprop. unfold has_duplicates in *. bprop.
  match goal with H : _ ∧ NoDup _ |- _ => destruct H as [_ Hn] end. split; [done|].
  intros v Hv. match goal with H : max_generation _ = _ |- _ => rewrite <-H end.
  apply foldr_max_le. by apply list_elem_of_fmap_2.
Qed.

Lemma by_generation_items r : NoDup (ClientVerifier.generation <$> verifiers r) →
  by_generation r = (λ v, (ClientVerifier.generation v, v)) <$> verifiers r.
Proof.
  intros Hn. unfold by_generation. apply dict_of_id.
  unfold dict_ok, dkeys. by rewrite <-list_fmap_compose.
Qed.

Lemma dget_by_generation r v : NoDup (ClientVerifier.generation <$> verifiers r) →
  v ∈ verifiers r → dget (ClientVerifier.generation v) (by_generation r) = Some v.
Proof.
  intros Hn Hv. apply elem_of_dget.
  - apply dict_ok_dict_of.
  - rewrite by_generation_items by done. apply list_elem_of_fmap; eauto.
Qed.

Lemma dget_by_generation_Some r g v : dget g (by_generation r) = Some v →
  v ∈ verifiers r ∧ ClientVerifier.generation v = g.
Proof. intros H%dget_dict_of. by apply list_elem_of_fmap in H as (? & [= -> ->] & ?). Qed.

(** A verifier of the new record either continues the one of its generation
    or is newer than everything the old record ever issued. *)
Definition continues (before after : ClientKeyRecord) (v' : ClientVerifier) : Prop :=
  (∃ v, v ∈ verifiers before ∧
        ClientVerifier.generation v = ClientVerifier.generation v' ∧ contracts v v') ∨
  ((∀ v, v ∈ verifiers before → ClientVerifier.generation v ≠ ClientVerifier.generation v') ∧
   generation_high_water before < ClientVerifier.generation v' ∧
   time_high_water_s before ≤ ClientVerifier.not_before_s v' ≤ time_high_water_s after).

(** One accepted revision. *)
Record narrowed (before after : ClientKeyRecord) (p : option PolicyReassignment) : Prop := {
  nar_key : key_id after = key_id before;
  nar_issued : issued_at_s after = issued_at_s before;
  nar_expiry : expires_at_s after = expires_at_s before;
  nar_time : time_high_water_s before ≤ time_high_water_s after;
  nar_generation : generation_high_water before ≤ generation_high_water after;
  nar_terminal : terminal before = true → after = before;
  nar_policy : policy_id after ≠ policy_id before →
    p = Some (PolicyReassignment.mk (policy_id before) (policy_id after));
  nar_verifiers : ∀ v', v' ∈ verifiers after → continues before after v';
  nar_unique : NoDup (ClientVerifier.generation <$> verifiers before);
  nar_bound : ∀ v, v ∈ verifiers before →
    ClientVerifier.generation v ≤ generation_high_water before;
}.

Lemma check_reassignment_Ok before after p :
  check_reassignment before after p = Ok tt → policy_id after ≠ policy_id before →
  p = Some (PolicyReassignment.mk (policy_id before) (policy_id after)).
Proof.
  unfold check_reassignment. intros H Hne. rewrite bool_decide_false in H by done. cbn in H.
  destruct p as [[e t]|]; [|done]. inv_ok H. bprop. cbn in *. by subst.
Qed.

Lemma checked_verifier before after v' old :
  old = by_generation before →
  NoDup (ClientVerifier.generation <$> verifiers before) →
  check_existing old (ClientVerifier.generation v', v') = Ok tt →
  check_new before after old (ClientVerifier.generation v', v') = Ok tt →
  continues before after v'.
Proof.
  intros -> Hn He Hw. unfold check_existing, check_new in *. cbn in *.
  destruct (dget _ _) as [v|] eqn:E.
  - left. exists v. apply dget_by_generation_Some in E as [??].
    by apply validate_existing_verifier_Ok in He.
  - right. rewrite (proj2 (dmem_false _ _)) in Hw by done. inv_ok Hw. bprop.
    split_and!; try lia.
    intros v Hv Hg. rewrite <-Hg, dget_by_generation in E by done. done.
Qed.

Lemma delta_narrowed before after p :
  validate_key_record_delta before after p = Ok tt → narrowed before after p.
Proof.
  unfold validate_key_record_delta. intros H.
  apply bind_Ok in H as (b & Hb & H). apply bind_Ok in H as (a & Ha & H).
  pose proof (validate_generations _ _ Hb) as [Hn Hhi].
  pose proof (validate_generations _ _ Ha) as [Hn' _].
  apply key_validate_id in Hb as ->, Ha as ->.
  inv_ok_step H. inv_ok_step H. bprop. destruct (terminal before) eqn:Et.
  { inv_ok H. bprop. subst. split; try done. intros v' Hv'. left. by exists v'. }
  repeat inv_ok_step H. bprop.
  match goal with H : check_reassignment _ _ _ = _ |- _ => rename H into Hr end.
  match goal with H : validate_all (check_existing _) _ = _ |- _ => rename H into He end.
  match goal with H : validate_all (check_new _ _ _) _ = _ |- _ => rename H into Hw end.
  split; try done; try lia.
  - by rewrite Et.
  - destruct x4. by apply check_reassignment_Ok.
  - intros v' Hv'.
    assert ((ClientVerifier.generation v', v') ∈ by_generation after) as Hin.
    { rewrite by_generation_items by done. apply list_elem_of_fmap; eauto. }
    destruct (BundleFacts.validate_all_elem _ _ _ _ He Hin) as ([] & He' & _).
    destruct (BundleFacts.validate_all_elem _ _ _ _ Hw Hin) as ([] & Hw' & _).
    by eapply checked_verifier.
Qed.

(** [after] is an accepted revision of [before]. *)
Definition revises (before after : ClientKeyRecord) : Prop :=
  ∃ p, validate_key_record_delta before after p = Ok tt.

(** What a chain of accepted revisions keeps of one verifier [v]. *)
Lemma chain_verifier r r' v : rtc revises r r' →
  v ∈ verifiers r → validate r = Ok r →
  ClientVerifier.generation v ≤ generation_high_water r' ∧
  ∀ v', v' ∈ verifiers r' →
    ClientVerifier.generation v' = ClientVerifier.generation v → contracts v v'.
Proof.
  intros Hc Hv Hr. apply validate_generations in Hr as [Hn Hb]. revert r' Hc.
  apply rtc_ind_r.
  - split; [by apply Hb|]. intros v' Hv' Hg.
    by rewrite (NoDup_key_inj ClientVerifier.generation _ _ _ Hn Hv' Hv Hg).
  - intros r2 r3 Hc [p Hs%delta_narrowed] [Hle Hall].
    split; [etrans; [done|apply Hs]|]. intros v' Hv' Hg.
    destruct (nar_verifiers _ _ _ Hs v' Hv') as [(w & Hw & Hwg & Hwc)|(_ & Hlt & _)]; [|lia].
    etrans; [|exact Hwc]. apply Hall; [done|congruence].
Qed.

Lemma key_index_Some rs k r : dget k (key_index rs) = Some r → r ∈ rs ∧ key_id r = k.
Proof. intros H%dget_dict_of. by apply list_elem_of_fmap in H as (? & [= -> ->] & ?). Qed.

Lemma key_index_items rs : NoDup (key_id <$> rs) →
  key_index rs = (λ r, (key_id r, r)) <$> rs.
Proof.
  intros Hn. unfold key_index. apply dict_of_id.
  unfold dict_ok, dkeys. by rewrite <-list_fmap_compose.
Qed.

Lemma dget_key_index rs r : NoDup (key_id <$> rs) → r ∈ rs →
  dget (key_id r) (key_index rs) = Some r.
Proof.
  intros Hn Hr. apply elem_of_dget; [apply dict_ok_dict_of|].
  rewrite key_index_items by done. apply list_elem_of_fmap; eauto.
Qed.

Lemma set_delta_Ok before after p r :
  NoDup (key_id <$> before) →
  validate_key_record_set_delta before after p = Ok tt → r ∈ before →
  ∃ r', r' ∈ after ∧ key_id r' = key_id r ∧ (r' = r ∨ revises r r').
Proof.
  intros Hn H Hr. unfold validate_key_record_set_delta in H. inv_ok H.
  rewrite existsb_false in G. pose proof (dget_key_index _ _ Hn Hr) as Hg.
  assert (key_id r ∈ dkeys (key_index before)) as Hk by (apply dget_is_Some; eauto).
  specialize (G _ Hk). bprop in G. apply dmem_true, dget_is_Some in G as [r' Hr'].
  pose proof (dget_elem_of _ _ _ Hr') as Hin.
  destruct (BundleFacts.validate_all_elem _ _ _ _ G0 Hin) as ([] & Hc & _).
  apply key_index_Some in Hr' as [Ha Hid]. exists r'. split_and!; [done..|].
  unfold check_key_delta in Hc. cbn in Hc. rewrite Hg in Hc.
  case_bool_decide as Heq; [by left|right; by eexists].
Qed.
End KeyLifecycleFacts.

(** An accepted revision of a client key only narrows it: identity,
    issuance and expiry are fixed, the trusted-time and generation high-waters
    never move back, a terminal key is frozen, the policy moves only to the
    exactly reviewed target, and every credential verifier either keeps the
    digest, pepper and start of the old verifier of its generation with a
    window and a status that only shrink, or is newer than every generation
    ever issued and starts inside the transition. *)
Theorem key_delta_narrows before after p :
  validate_key_record_delta before after p = Ok tt →
  KeyLifecycleFacts.narrowed before after p.
Proof. apply KeyLifecycleFacts.delta_narrowed. Qed.

(** Over any chain of accepted revisions a credential generation number
    keeps denoting the same secret: if a generation occurs at both ends, even
    after having been dropped in between, the later verifier is a contraction
    of the earlier one, so a retired or expired credential never resurrects. *)
Theorem credential_generation_never_reused r r' v v' :
  rtc KeyLifecycleFacts.revises r r' → ClientKeyRecord.validate r = Ok r →
  v ∈ ClientKeyRecord.verifiers r → v' ∈ ClientKeyRecord.verifiers r' →
  ClientVerifier.generation v' = ClientVerifier.generation v →
  KeyLifecycleFacts.contracts v v' ∧
  (ClientVerifier.status v ∈ TERMINAL_CREDENTIAL_STATES →
   ClientVerifier.status v' = ClientVerifier.status v).
Proof.
  intros Hc Hr Hv Hv' Hg.
  destruct (KeyLifecycleFacts.chain_verifier _ _ _ Hc Hv Hr) as [_ Hall].
  specialize (Hall v' Hv' Hg). split; [done|]. destruct Hall as (_ & _ & _ & _ & _ & Hs).
  intros Ht. destruct (ClientVerifier.status v); cbn in *; set_solver.
Qed.

(** An accepted revision of the key set keeps every key: its record is
    unchanged or was itself accepted as a revision (so a terminal tombstone
    stays, unchanged). *)
Theorem key_set_delta_keeps_tombstones before after p r :
  NoDup (ClientKeyRecord.key_id <$> before) →
  validate_key_record_set_delta before after p = Ok tt → r ∈ before →
  ∃ r', r' ∈ after ∧ ClientKeyRecord.key_id r' = ClientKeyRecord.key_id r ∧
    (r' = r ∨ KeyLifecycleFacts.revises r r') ∧
    (ClientKeyRecord.terminal r = true → r' = r).
Proof.
  intros Hn H Hr. destruct (KeyLifecycleFacts.set_delta_Ok _ _ _ _ Hn H Hr) as (r' & Hin & Hid & Hd).
  exists r'. split_and!; [done..|]. intros Ht. destruct Hd as [->|[q Hd]]; [done|].
  by eapply KeyLifecycleFacts.nar_terminal; [eapply KeyLifecycleFacts.delta_narrowed|].
Qed.

(** A rotation: generation 2 becomes active, generation 1 retires within the
    overlap, and is then retired for good. *)
Lemma key_delta_narrows_witness :
  KeyLifecycleFacts.narrowed Samples.key_before Samples.key_rotated None.
Proof. apply key_delta_narrows. by vm_compute. Defined.

Lemma credential_generation_never_reused_witness :
  let v := ClientVerifier.Canonical
    (Samples.first_verifier CredentialVerifierStatus.ACTIVE 90000) in
  let v' := ClientVerifier.Canonical
    (Samples.first_verifier CredentialVerifierStatus.RETIRED 3000) in
  KeyLifecycleFacts.contracts v v'.
Proof.
  apply (credential_generation_never_reused Samples.key_before Samples.key_retired).
  - apply (rtc_l _ _ Samples.key_rotated); [exists None; by vm_compute|].
    apply rtc_once. exists None. by vm_compute.
  - by vm_compute.
  - left.
  - left.
  - done.
Defined.

Lemma key_set_delta_keeps_tombstones_witness :
  ∃ r', r' ∈ [Samples.key_rotated] ∧
    ClientKeyRecord.key_id r' = ClientKeyRecord.key_id Samples.key_before.
Proof.
  destruct (key_set_delta_keeps_tombstones [Samples.key_before] [Samples.key_rotated] None
    Samples.key_before) as (r' & ? & ? & _).
  - apply NoDup_singleton.
  - by vm_compute.
  - left.
  - by exists r'.
Defined.
