(* ===== verification/Queue.v ===== *)
(** * The hierarchical weighted deficit round-robin queue

    [gateway/scheduler.py], class [WDRRQueue] and its value types: tier
    forcing with an aging bound, scarce before flexible 2:1 within a tier, and
    per-key weighted deficit round-robin within a class.  The queue's
    attributes are the fields of [WDRRQueue.t]; a method that mutates the
    queue returns the new one. *)
From S2P Require Export ModelFacts.

(** [class Scarcity(StrEnum)]; sets and tuples sort it by its value. *)
Module Scarcity.
Inductive t := SCARCE | FLEXIBLE.
#[global] Instance eq_dec : EqDecision t.
Proof. solve_decision. Defined.
Definition value (s : t) : string :=
  match s with SCARCE => "scarce" | FLEXIBLE => "flexible" end.
Definition other (s : t) : t :=
  match s with SCARCE => FLEXIBLE | FLEXIBLE => SCARCE end.
Definition quantum (s : t) : Z := match s with SCARCE => 2 | FLEXIBLE => 1 end.
End Scarcity.
Abbreviation Scarcity := Scarcity.t.

Module QueueEntry.
Record t := mk {
  request_id : string;
  key_id : string;
  tier : Z;
  weight : Z;
  authorized_legs : list AuthorizedLeg;
  scarcity : Scarcity;
}.
#[global] Instance eq_dec : EqDecision t.
Proof. solve_decision. Defined.

(** [len({leg.account_id for leg in authorized_legs}) == 1] *)
Definition scarcity_of (legs : list AuthorizedLeg) : Scarcity :=
  if bool_decide (length (remove_dups (AuthorizedLeg.account_id <$> legs)) = 1%nat)
  then Scarcity.SCARCE else Scarcity.FLEXIBLE.

(** [__post_init__]: the checks, then the derived scarcity. *)
Definition post_init (e : t) : result t :=
  raise_if (bool_decide (key_id e = ""%string) || (160 <? str_len (key_id e)))
    (ValueError "key id is empty or oversized");;
  raise_if (tier e <? 0) (ValueError "tier must be nonnegative");;
  raise_if (negb (bounded (Some 1) (Some 64) (weight e)))
    (ValueError "weight must be in [1, 64]");;
  raise_if (bool_decide (authorized_legs e = []))
    (ValueError "queue entry requires an authorization ceiling");;
  raise_if (has_duplicates (AuthorizedLeg.leg_id <$> authorized_legs e))
    (ValueError "queue entry contains duplicate authorized legs");;
  mret (e{{ scarcity := scarcity_of (authorized_legs e) }}).

(** The constructor; the scarcity field is not an argument. *)
Definition new (request_id key_id : string) (tier weight : Z)
    (legs : list AuthorizedLeg) : result t :=
  post_init (mk request_id key_id tier weight legs Scarcity.FLEXIBLE).
End QueueEntry.
Abbreviation QueueEntry := QueueEntry.t.

Module Queued.
Record t := mk { entry : QueueEntry; sequence : Z }.
#[global] Instance eq_dec : EqDecision t.
Proof. solve_decision. Defined.

(** [(item.sequence, str(item.entry.request_id))] *)
Definition age_key (i : t) : Z * string := (sequence i, QueueEntry.request_id (entry i)).
Definition age_leb : Z * string → Z * string → bool := pair_leb Z.leb str_leb.
End Queued.
Abbreviation Queued := Queued.t.

(** Rocq's tuples nest to the left, so a stored tuple [(tier, scarcity, value)]
    is the item [((tier, scarcity), value)] of the dictionary it decodes to. *)
Definition ClassKey : Type := Z * Scarcity.
Definition KeyKey : Type := Z * Scarcity * string.

Module FairnessState.
Record t := mk {
  class_deficits : list (ClassKey * Z);
  class_cursors : list (Z * Scarcity);
  key_deficits : list (KeyKey * Z);
  key_cursors : list (ClassKey * string);
  higher_grant_streak : Z;
}.
#[global] Instance eq_dec : EqDecision t.
Proof. solve_decision. Defined.
(** The defaults of the dataclass. *)
Definition empty : t := mk [] [] [] [] 0.
End FairnessState.
Abbreviation FairnessState := FairnessState.t.

Module QueueSnapshot.
Record t := mk {
  queued : list Queued;
  fairness : FairnessState;
  next_sequence : Z;
  version : Z;
  max_consecutive_higher_grants : Z;
}.
#[global] Instance eq_dec : EqDecision t.
Proof. solve_decision. Defined.
End QueueSnapshot.
Abbreviation QueueSnapshot := QueueSnapshot.t.

Module QueueSelection.
Record t := mk {
  entry : QueueEntry;
  queue_version : Z;
  fairness : FairnessState;
}.
#[global] Instance eq_dec : EqDecision t.
Proof. solve_decision. Defined.
End QueueSelection.
Abbreviation QueueSelection := QueueSelection.t.

Module WDRRQueue.
Record t := mk {
  max_consecutive_higher_grants : Z;
  queued : dict string Queued;
  next_sequence : Z;
  version : Z;
  fairness : FairnessState;
}.
#[global] Instance eq_dec : EqDecision t.
Proof. solve_decision. Defined.

(** [__init__] *)
Definition init (max_higher : Z) : result t :=
  raise_if (max_higher <? 1) (ValueError "aging grant bound must be positive");;
  mret (mk max_higher [] 0 0 FairnessState.empty).

Definition items (q : t) : list Queued := dvalues (queued q).

Definition entries (q : t) : list QueueEntry :=
  Queued.entry <$> sorted_by Queued.sequence Z.leb (items q).

Definition get_queued (q : t) (request_id : string) : result Queued :=
  match dget request_id (queued q) with
  | Some i => Ok i
  | None => Err (KeyError request_id)
  end.

Definition entry (q : t) (request_id : string) : result QueueEntry :=
  i ← get_queued q request_id; mret (Queued.entry i).

(** The generator [key_position] sums over. *)
Definition ahead (target i : Queued) : bool :=
  bool_decide (QueueEntry.key_id (Queued.entry i) = QueueEntry.key_id (Queued.entry target)) &&
  (Queued.age_leb (Queued.age_key i) (Queued.age_key target) &&
   negb (bool_decide (Queued.age_key i = Queued.age_key target))).

Definition key_position (q : t) (request_id : string) : result Z :=
  target ← get_queued q request_id;
  mret (Z.of_nat (length (List.filter (ahead target) (items q)))).

Definition enqueue (q : t) (e : QueueEntry) : result t :=
  raise_if (dmem (QueueEntry.request_id e) (queued q))
    (ValueError "duplicate queued request");;
  mret (q{{ queued ::= dset (QueueEntry.request_id e) (Queued.mk e (next_sequence q));
            next_sequence ::= Z.add 1;
            version ::= Z.add 1 }}).

Definition cancel (q : t) (request_id : string) : t * bool :=
  if dmem request_id (queued q)
  then (q{{ queued ::= ddel request_id; version ::= Z.add 1 }}, true)
  else (q, false).

Definition decode_state (s : FairnessState) :
    dict ClassKey Z * dict Z Scarcity * dict KeyKey Z * dict ClassKey string :=
  (dict_of (FairnessState.class_deficits s), dict_of (FairnessState.class_cursors s),
   dict_of (FairnessState.key_deficits s), dict_of (FairnessState.key_cursors s)).

(** The sort keys [(tier, scarcity.value)] and [(tier, scarcity.value, key_id)]. *)
Definition class_sort_key {V} (p : ClassKey * V) : Z * string :=
  (p.1.1, Scarcity.value p.1.2).
Definition key_sort_key {V} (p : KeyKey * V) : Z * string * string :=
  (p.1.1.1, Scarcity.value p.1.1.2, p.1.2).
Definition cursor_sort_key (p : Z * Scarcity) : Z * string := (p.1, Scarcity.value p.2).
Definition tier_value_leb : Z * string → Z * string → bool := pair_leb Z.leb str_leb.

Definition encode_state (class_deficits : dict ClassKey Z) (class_cursors : dict Z Scarcity)
    (key_deficits : dict KeyKey Z) (key_cursors : dict ClassKey string)
    (streak : Z) : FairnessState :=
  {| FairnessState.class_deficits := sorted_by class_sort_key tier_value_leb class_deficits;
     FairnessState.class_cursors := sorted_by cursor_sort_key tier_value_leb class_cursors;
     FairnessState.key_deficits :=
       sorted_by key_sort_key (pair_leb tier_value_leb str_leb) key_deficits;
     FairnessState.key_cursors := sorted_by class_sort_key tier_value_leb key_cursors;
     FairnessState.higher_grant_streak := streak |}.

Definition leg_contracts (old new : AuthorizedLeg) : bool :=
  bool_decide (AuthorizedLeg.intersection old new = Some new).

Definition leg_allowed (old_by_identity : dict (string * string * string * Z) AuthorizedLeg)
    (candidate : AuthorizedLeg) : bool :=
  match dget (AuthorizedLeg.identity candidate) old_by_identity with
  | None => false
  | Some previous => leg_contracts previous candidate
  end.

(** The deficit cap of [contract] when the weight shrinks inside its tier. *)
Definition cap_key_deficit (s : FairnessState) (key : KeyKey) (new_weight : Z) :
    FairnessState :=
  let '(class_deficits, class_cursors, key_deficits, key_cursors) := decode_state s in
  match dget key key_deficits with
  | None => s
  | Some v =>
      encode_state class_deficits class_cursors
        (dset key (Z.min v (8 * new_weight)) key_deficits) key_cursors
        (FairnessState.higher_grant_streak s)
  end.

Definition contract (q : t) (request_id : string) (tier weight : option Z)
    (authorized_legs : option (list AuthorizedLeg)) : result (t * QueueEntry) :=
  i ← get_queued q request_id;
  let old := Queued.entry i in
  let new_tier := default (QueueEntry.tier old) tier in
  let new_weight := default (QueueEntry.weight old) weight in
  let new_legs := default (QueueEntry.authorized_legs old) authorized_legs in
  raise_if ((new_tier <? QueueEntry.tier old) || (QueueEntry.weight old <? new_weight))
    (ValueError "activation cannot expand queued QoS");;
  let old_by_identity :=
    dict_of ((λ l, (AuthorizedLeg.identity l, l)) <$> QueueEntry.authorized_legs old) in
  raise_if (existsb (λ c, negb (leg_allowed old_by_identity c)) new_legs)
    (ValueError "activation cannot expand queued authorization");;
  replaced ← QueueEntry.post_init
    (old{{ QueueEntry.tier := new_tier; QueueEntry.weight := new_weight;
           QueueEntry.authorized_legs := new_legs }});
  let updated := replaced{{ QueueEntry.scarcity := QueueEntry.scarcity old }} in
  let q := q{{ queued ::= dset request_id (Queued.mk updated (Queued.sequence i)) }} in
  let q :=
    if (new_tier =? QueueEntry.tier old) && (new_weight <? QueueEntry.weight old) then
      q{{ fairness ::= λ s, cap_key_deficit s
            (QueueEntry.tier old, QueueEntry.scarcity old, QueueEntry.key_id old) new_weight }}
    else q in
  mret (q{{ version ::= Z.add 1 }}, updated).

(** [_oldest]: [min] raises on an empty list. *)
Definition oldest (l : list Queued) : result Queued :=
  match min_by Queued.age_key Queued.age_leb l with
  | Some i => Ok i
  | None => Err (ValueError "min() iterable argument is empty")
  end.

Definition py_min (l : list Z) : result Z :=
  match min_by id Z.leb l with
  | Some z => Ok z
  | None => Err (ValueError "min() iterable argument is empty")
  end.

Definition py_head {A} (l : list A) : result A :=
  match l with x :: _ => Ok x | [] => Err (ValueError "list index out of range") end.

Definition item_tier (i : Queued) : Z := QueueEntry.tier (Queued.entry i).
Definition item_class (i : Queued) : Scarcity := QueueEntry.scarcity (Queued.entry i).
Definition item_key (i : Queued) : string := QueueEntry.key_id (Queued.entry i).
Definition item_weight (i : Queued) : Z := QueueEntry.weight (Queued.entry i).
Definition item_id (i : Queued) : string := QueueEntry.request_id (Queued.entry i).

Definition available (q : t) (eligible : QueueEntry → bool) (excluded : list string) :
    list Queued :=
  List.filter (λ i, negb (bool_decide (item_id i ∈ excluded)) && eligible (Queued.entry i))
    (items q).

Definition lower_items (top_tier : Z) (l : list Queued) : list Queued :=
  List.filter (λ i, top_tier <? item_tier i) l.

(** The tier to serve: the top one, or after the aging bound the tier of the
    oldest item below it. *)
Definition choose_tier (q : t) (avail : list Queued) : result (Z * Z) :=
  top_tier ← py_head (sorted_by id Z.leb (remove_dups (item_tier <$> avail)));
  let lower := lower_items top_tier avail in
  if negb (bool_decide (lower = [])) &&
     (max_consecutive_higher_grants q <=?
      FairnessState.higher_grant_streak (fairness q))
  then o ← oldest lower; mret (top_tier, item_tier o)
  else mret (top_tier, top_tier).

(** The loop [for _ in range(2)]. *)
Fixpoint choose_class (fuel : nat) (active : list Scarcity) (s : Scarcity) : Scarcity :=
  match fuel with
  | O => s
  | S fuel => if bool_decide (s ∈ active) then s
              else choose_class fuel active (Scarcity.other s)
  end.

(** [min(deficits.get(key, 0), 8 * quantum)], topped up by one quantum when
    it is spent. *)
Definition refill (d quantum : Z) : Z :=
  let d := Z.min d (8 * quantum) in
  if d <=? 0 then Z.min (d + quantum) (8 * quantum) else d.

Definition first_sequences (class_items : list Queued) : dict string Z :=
  foldl (λ d i, dset (item_key i)
           (Z.min (Queued.sequence i) (dget_or (item_key i) (Queued.sequence i) d)) d)
    [] class_items.

Definition ordered_keys (first : dict string Z) : list string :=
  sorted_by (λ k, (dget_or k 0 first, k)) (pair_leb Z.leb str_leb) (dkeys first).

(** [keys.index(key_id)], then [keys[(key_index + 1) % len(keys)]] *)
Definition next_key (keys : list string) (key_id : string) : result string :=
  match list_find (key_id =.) keys with
  | None => Err (ValueError "is not in list")
  | Some (i, _) =>
      match keys !! ((i + 1) `mod` length keys)%nat with
      | Some k => Ok k
      | None => Err (ValueError "list index out of range")
      end
  end.

Definition choose_key (keys : list string) (first : dict string Z) (cursor : option string) :
    result string :=
  head ← py_head keys;
  let k := default head cursor in
  mret (if dmem k first then k else head).

Definition class_of (l : list Queued) (s : Scarcity) : list Queued :=
  List.filter (λ i, bool_decide (item_class i = s)) l.
Definition key_of (l : list Queued) (k : string) : list Queued :=
  List.filter (λ i, bool_decide (item_key i = k)) l.
Definition tier_of (l : list Queued) (tier : Z) : list Queued :=
  List.filter (λ i, item_tier i =? tier) l.

Definition propose (q : t) (eligible : QueueEntry → bool) (excluded : list string) :
    result (option QueueSelection) :=
  let avail := available q eligible excluded in
  if bool_decide (avail = []) then mret None
  else
    '(top_tier, tier) ← choose_tier q avail;
    let lower := lower_items top_tier avail in
    let tier_items := tier_of avail tier in
    let '(class_deficits, class_cursors, key_deficits, key_cursors) :=
      decode_state (fairness q) in
    let active_classes := item_class <$> tier_items in
    let scarcity := choose_class 2 active_classes
                      (dget_or tier Scarcity.SCARCE class_cursors) in
    let class_key : ClassKey := (tier, scarcity) in
    let class_deficit := refill (dget_or class_key 0 class_deficits)
                           (Scarcity.quantum scarcity) in
    let class_items := class_of tier_items scarcity in
    let first := first_sequences class_items in
    let keys := ordered_keys first in
    key_id ← choose_key keys first (dget class_key key_cursors);
    let key_items := key_of class_items key_id in
    key_quantum ← py_min (item_weight <$> key_items);
    let key_key : KeyKey := (tier, scarcity, key_id) in
    let key_deficit := refill (dget_or key_key 0 key_deficits) key_quantum in
    selected ← oldest key_items;
    let class_deficit := class_deficit - 1 in
    let key_deficit := key_deficit - 1 in
    following ← next_key keys key_id;
    let streak :=
      if negb (bool_decide (lower = [])) && (tier =? top_tier)
      then FairnessState.higher_grant_streak (fairness q) + 1 else 0 in
    mret (Some
      {| QueueSelection.entry := Queued.entry selected;
         QueueSelection.queue_version := version q;
         QueueSelection.fairness := encode_state
           (dset class_key class_deficit class_deficits)
           (dset tier (if class_deficit =? 0 then Scarcity.other scarcity else scarcity)
              class_cursors)
           (dset key_key key_deficit key_deficits)
           (dset class_key (if key_deficit =? 0 then following else key_id) key_cursors)
           streak |}).

Definition commit (q : t) (s : QueueSelection) : result t :=
  let request_id := QueueEntry.request_id (QueueSelection.entry s) in
  raise_if (negb (QueueSelection.queue_version s =? version q) ||
            negb (bool_decide (Queued.entry <$> dget request_id (queued q) =
                               Some (QueueSelection.entry s))))
    (RuntimeError "stale WDRR selection");;
  mret (q{{ fairness := QueueSelection.fairness s;
            queued ::= ddel request_id;
            version ::= Z.add 1 }}).

Definition entry_key (e : QueueEntry) : KeyKey :=
  (QueueEntry.tier e, QueueEntry.scarcity e, QueueEntry.key_id e).

Definition deficit (q : t) (e : QueueEntry) : Z :=
  let '(_, _, key_deficits, _) := decode_state (fairness q) in
  dget_or (entry_key e) 0 key_deficits.

Definition deficits_with_quanta (q : t) : list (Z * Z) :=
  let '(class_deficits, _, key_deficits, _) := decode_state (fairness q) in
  let weights := dict_of ((λ i, (entry_key (Queued.entry i), item_weight i)) <$> items q) in
  ((λ p : ClassKey * Z, (p.2, Scarcity.quantum p.1.2)) <$> class_deficits) ++
  ((λ p : KeyKey * Z, (p.2, dget_or p.1 64 weights)) <$> key_deficits).

Definition protected_scarce_accounts (q : t) (candidates : dict string (list string)) :
    list string :=
  remove_dups (items q ≫= λ i,
    if bool_decide (item_class i = Scarcity.SCARCE)
    then dget_or (item_id i) [] candidates else []).

Definition unprotected_accounts (q : t) (e : QueueEntry) (accounts : list string)
    (candidates : dict string (list string)) : list string :=
  if bool_decide (QueueEntry.scarcity e = Scarcity.SCARCE) then accounts
  else
    let protected := protected_scarce_accounts q candidates in
    List.filter (λ a, negb (bool_decide (a ∈ protected))) accounts.

Definition snapshot (q : t) : QueueSnapshot :=
  {| QueueSnapshot.queued := sorted_by Queued.sequence Z.leb (items q);
     QueueSnapshot.fairness := fairness q;
     QueueSnapshot.next_sequence := next_sequence q;
     QueueSnapshot.version := version q;
     QueueSnapshot.max_consecutive_higher_grants := max_consecutive_higher_grants q |}.

Definition restore (s : QueueSnapshot) : result t :=
  q ← init (QueueSnapshot.max_consecutive_higher_grants s);
  raise_if (has_duplicates (item_id <$> QueueSnapshot.queued s))
    (ValueError "scheduler snapshot has duplicate requests");;
  mret (q{{ queued := dict_of ((λ i, (item_id i, i)) <$> QueueSnapshot.queued s);
            fairness := QueueSnapshot.fairness s;
            next_sequence := QueueSnapshot.next_sequence s;
            version := QueueSnapshot.version s }}).
End WDRRQueue.
Abbreviation WDRRQueue := WDRRQueue.t.

(** ** The queue as a state machine

    One call by the admission controller; [Grant] is [propose] followed by
    [commit], [Restart] is [restore(snapshot())].  A call that raises leaves
    the queue as it was: every method raises before its first mutation. *)
Module QueueRun.
Import WDRRQueue.

Inductive op :=
| Enqueue (request_id key_id : string) (tier weight : Z) (legs : list AuthorizedLeg)
| Cancel (request_id : string)
| Contract (request_id : string) (tier weight : option Z) (legs : option (list AuthorizedLeg))
| Grant (eligible : QueueEntry → bool) (excluded : list string)
| Restart.

Inductive outcome :=
| Done
| Cancelled (found : bool)
| Contracted (e : QueueEntry)
| Granted (e : QueueEntry)
| NothingEligible
| Raised (e : exn).
#[global] Instance outcome_eq_dec : EqDecision outcome.
Proof. solve_decision. Defined.

Definition attempt {A} (q : t) (r : result A) (f : A → t * outcome) : t * outcome :=
  match r with Ok a => f a | Err e => (q, Raised e) end.

Definition step (o : op) (q : t) : t * outcome :=
  match o with
  | Enqueue rid key tier weight legs =>
      attempt q (e ← QueueEntry.new rid key tier weight legs; enqueue q e)
        (λ q', (q', Done))
  | Cancel rid => let '(q', b) := cancel q rid in (q', Cancelled b)
  | Contract rid tier weight legs =>
      attempt q (contract q rid tier weight legs) (λ '(q', e), (q', Contracted e))
  | Grant eligible excluded =>
      attempt q (propose q eligible excluded) (λ r,
        match r with
        | None => (q, NothingEligible)
        | Some sel => attempt q (commit q sel)
            (λ q', (q', Granted (QueueSelection.entry sel)))
        end)
  | Restart => attempt q (restore (snapshot q)) (λ q', (q', Done))
  end.

(** The states, calls and outcomes of a run, and its last state. *)
Fixpoint trace (ops : list op) (q : t) : list (t * op * outcome) :=
  match ops with
  | [] => []
  | o :: ops => let '(q', r) := step o q in (q, o, r) :: trace ops q'
  end.

Definition final (ops : list op) (q : t) : t := foldl (λ q o, (step o q).1) q ops.

Definition granted (r : outcome) : option QueueEntry :=
  match r with Granted e => Some e | _ => None end.

(** The entries granted during a run. *)
Definition grants (ops : list op) (q : t) : list QueueEntry :=
  omap (λ p, granted p.2) (trace ops q).

(** Every grant of a run satisfies [P]. *)
Definition all_grants (P : t → (QueueEntry → bool) → list string → QueueEntry → Prop)
    (ops : list op) (q : t) : Prop :=
  Forall (λ p, match p with
    | (q1, Grant eligible excluded, Granted e) => P q1 eligible excluded e
    | _ => True
    end) (trace ops q).
End QueueRun.
