(* ===== verification/QueueFacts.v ===== *)
(** * Facts of the weighted deficit round-robin queue

    The invariant of [WDRRQueue], what one selection chooses, and the
    properties of the scheduler: totality, eligibility and order of a
    selection, the aging bound, the 2:1 class share, deficit bounds, and
    deterministic replay from a snapshot. *)
From S2P Require Export Queue.
Import WDRRQueue.

#[export] Instance tier_value_leb_order : BoolOrder tier_value_leb.
Proof. unfold tier_value_leb. apply _. Qed.
#[export] Instance key_value_leb_order : BoolOrder (pair_leb tier_value_leb str_leb).
Proof. apply _. Qed.
#[export] Instance age_leb_order : BoolOrder Queued.age_leb.
Proof. unfold Queued.age_leb. apply _. Qed.

(** ** Minima and the choices of a selection *)
Module ChoiceFacts.
Lemma oldest_Ok l i : oldest l = Ok i → i ∈ l ∧
  ∀ j, j ∈ l → Queued.age_leb (Queued.age_key i) (Queued.age_key j) = true.
Proof.
  unfold oldest. destruct (min_by _ _ _) eqn:E; [|done]. intros [= <-].
  by apply min_by_spec in E; [|apply _].
Qed.

Lemma oldest_total l : l ≠ [] → ∃ i, oldest l = Ok i.
Proof. unfold oldest. destruct l as [|x l]; [done|]. cbn. eauto. Qed.

Lemma py_min_Ok l z : py_min l = Ok z → z ∈ l ∧ ∀ y, y ∈ l → z ≤ y.
Proof.
  unfold py_min. destruct (min_by _ _ _) eqn:E; [|done]. intros [= <-].
  apply min_by_spec in E as [Hin Hle]; [|apply _]. split; [done|].
  intros y Hy. specialize (Hle y Hy). unfold key_le, id in Hle. lia.
Qed.

Lemma py_min_total l : l ≠ [] → ∃ z, py_min l = Ok z.
Proof. unfold py_min. destruct l as [|x l]; [done|]. cbn. eauto. Qed.

Lemma elem_of_Lfilter {A} (f : A → bool) l x : x ∈ List.filter f l ↔ f x = true ∧ x ∈ l.
Proof. rewrite !list_elem_of_In, filter_In. tauto. Qed.

Lemma elem_of_not_nil {A} (x : A) l : x ∈ l → l ≠ [].
Proof. intros Hx ->. by apply elem_of_nil in Hx. Qed.

Lemma not_nil_elem {A} (l : list A) : l ≠ [] → ∃ x, x ∈ l.
Proof. destruct l as [|x l]; [done|]. exists x. left. Qed.

Lemma elem_of_lower top l i : i ∈ lower_items top l ↔ top < item_tier i ∧ i ∈ l.
Proof. unfold lower_items. rewrite elem_of_Lfilter. by rewrite Z.ltb_lt. Qed.
Lemma elem_of_class l s i : i ∈ class_of l s ↔ item_class i = s ∧ i ∈ l.
Proof. unfold class_of. rewrite elem_of_Lfilter. by rewrite bool_decide_eq_true. Qed.
Lemma elem_of_key l k i : i ∈ key_of l k ↔ item_key i = k ∧ i ∈ l.
Proof. unfold key_of. rewrite elem_of_Lfilter. by rewrite bool_decide_eq_true. Qed.
Lemma elem_of_tier l t i : i ∈ tier_of l t ↔ item_tier i = t ∧ i ∈ l.
Proof. unfold tier_of. rewrite elem_of_Lfilter. by rewrite Z.eqb_eq. Qed.

Lemma sorted_head (l : list Z) x l' : sorted_by id Z.leb l = x :: l' →
  x ∈ l ∧ ∀ y, y ∈ l → x ≤ y.
Proof.
  intros Hs. pose proof (sorted_by_sorted id Z.leb l) as Hss. rewrite Hs in Hss.
  apply StronglySorted_inv in Hss as [_ Hall]. rewrite Forall_forall in Hall. split.
  - apply (elem_of_sorted_by id Z.leb). rewrite Hs. left.
  - intros y Hy. apply (elem_of_sorted_by id Z.leb) in Hy. rewrite Hs in Hy.
    apply elem_of_cons in Hy as [->|Hy]; [done|].
    specialize (Hall y Hy). unfold key_le, id in Hall. lia.
Qed.

Definition streak_spent (q : WDRRQueue) : Prop :=
  max_consecutive_higher_grants q ≤ FairnessState.higher_grant_streak (fairness q).

(** The tier served: the least one available, unless the aging bound is
    reached and something waits below it. *)
Definition tier_choice (q : WDRRQueue) (l : list Queued) (top tier : Z) : Prop :=
  (∃ i, i ∈ l ∧ item_tier i = top) ∧ (∀ i, i ∈ l → top ≤ item_tier i) ∧
  if decide (lower_items top l ≠ [] ∧ streak_spent q)
  then ∃ o, oldest (lower_items top l) = Ok o ∧ tier = item_tier o
  else tier = top.

Lemma streak_test q top l :
  negb (bool_decide (lower_items top l = [])) &&
  (max_consecutive_higher_grants q <=? FairnessState.higher_grant_streak (fairness q)) =
  bool_decide (lower_items top l ≠ [] ∧ streak_spent q).
Proof.
  apply Bool.eq_iff_eq_true. rewrite andb_true_iff, negb_true_iff. bprop.
  unfold streak_spent. done.
Qed.

Lemma choose_tier_Ok q l top tier :
  choose_tier q l = Ok (top, tier) → tier_choice q l top tier.
Proof.
  unfold choose_tier, tier_choice. intros H. apply bind_Ok in H as (x & Hx & H).
  destruct (sorted_by _ _ _) as [|y l'] eqn:Es; [done|]. injection Hx as ->.
  apply sorted_head in Es as [Hin Hle]. cbv beta zeta in H. rewrite streak_test in H.
  setoid_rewrite elem_of_remove_dups in Hle. rewrite elem_of_remove_dups in Hin.
  assert (x = top) as ->.
  { case_bool_decide; [inv_ok H|injection H]; congruence. }
  split_and!.
  - apply list_elem_of_fmap in Hin as (i & -> & Hi). eauto.
  - intros i Hi. apply Hle. by apply list_elem_of_fmap_2.
  - case_bool_decide as Hc; [rewrite decide_True by done|by rewrite decide_False by done; injection H].
    apply bind_Ok in H as (o & Ho & [= <-]). eauto.
Qed.

Lemma choose_tier_total q l : l ≠ [] → ∃ top tier, choose_tier q l = Ok (top, tier).
Proof.
  intros [i Hi]%not_nil_elem. unfold choose_tier.
  destruct (sorted_by _ _ _) as [|x l'] eqn:Es.
  { exfalso. apply (f_equal length) in Es. rewrite length_sorted_by in Es.
    apply nil_length_inv in Es. apply (list_elem_of_fmap_2 item_tier) in Hi.
    rewrite <-elem_of_remove_dups, Es in Hi. by apply elem_of_nil in Hi. }
  cbn [py_head mbind result_bind]. rewrite streak_test. case_bool_decide as Hc; [|eauto].
  destruct Hc as [Hl _]. apply oldest_total in Hl as [o Ho]. cbv zeta. rewrite Ho. cbn. eauto.
Qed.

Lemma tier_choice_nonempty q l top tier :
  tier_choice q l top tier → tier_of l tier ≠ [] ∧ top ≤ tier.
Proof.
  intros ((i & Hi & Ht) & Hle & Hc). case_decide as Hd.
  - destruct Hc as (o & Ho & ->). apply oldest_Ok in Ho as [Ho _].
    apply elem_of_lower in Ho as [? Ho]. split; [|lia].
    apply (elem_of_not_nil o). by apply elem_of_tier.
  - subst. split; [|done]. apply (elem_of_not_nil i). by apply elem_of_tier.
Qed.

Lemma choose_class_spec active s : active ≠ [] →
  choose_class 2 active s ∈ active ∧ (s ∈ active → choose_class 2 active s = s).
Proof.
  intros [c Hc]%not_nil_elem. cbn. repeat case_bool_decide; try tauto.
  destruct s, c; cbn in *; tauto.
Qed.

Lemma refill_bounds d quantum : 1 ≤ quantum → 0 ≤ d → 1 ≤ refill d quantum ≤ Z.max d quantum.
Proof. unfold refill. intros. destruct (_ <=? _) eqn:E; lia. Qed.

Lemma dget_first_sequences k l :
  dget k (first_sequences l) = min_by id Z.leb (Queued.sequence <$> key_of l k).
Proof.
  induction l as [|i l IH] using rev_ind; [done|].
  unfold first_sequences, key_of in *. rewrite foldl_app, List.filter_app, fmap_app. cbn.
  rewrite dget_dset. case_decide as Hk.
  - subst. rewrite bool_decide_true by done. cbn. unfold dget_or at 1. rewrite IH.
    destruct (Queued.sequence <$> _) as [|x r]; cbn; [f_equal; lia|].
    rewrite foldl_app. cbn. f_equal. unfold min2_by at 2, id.
    destruct (_ <=? _) eqn:E; lia.
  - rewrite IH, bool_decide_false by congruence. cbn. by rewrite app_nil_r.
Qed.

Lemma first_sequences_ok l : dict_ok (first_sequences l).
Proof.
  unfold first_sequences. induction l as [|i l IH] using rev_ind; [apply dict_ok_nil|].
  rewrite foldl_app. cbn. by apply dict_ok_dset.
Qed.

Lemma elem_of_first_keys k l : k ∈ dkeys (first_sequences l) ↔ k ∈ item_key <$> l.
Proof.
  rewrite <-dget_is_Some, dget_first_sequences. split.
  - intros [x Hx]. destruct (key_of l k) as [|i r] eqn:E; [done|].
    assert (i ∈ key_of l k) as Hi by (rewrite E; left).
    apply elem_of_key in Hi as [<- Hi]. by apply list_elem_of_fmap_2.
  - intros (i & -> & Hi)%list_elem_of_fmap.
    destruct (key_of l (item_key i)) as [|j r] eqn:E; [|cbn; eauto].
    exfalso. apply (elem_of_not_nil i (key_of l (item_key i))); [by apply elem_of_key|done].
Qed.

Lemma elem_of_ordered_keys k l : k ∈ ordered_keys (first_sequences l) ↔ k ∈ item_key <$> l.
Proof. unfold ordered_keys. by rewrite elem_of_sorted_by, elem_of_first_keys. Qed.

Lemma choose_key_Ok l cursor k :
  choose_key (ordered_keys (first_sequences l)) (first_sequences l) cursor = Ok k →
  k ∈ item_key <$> l.
Proof.
  unfold choose_key. intros H. apply bind_Ok in H as (h & Hh & [= <-]).
  destruct (ordered_keys _) as [|h' r] eqn:E; [done|]. injection Hh as ->.
  destruct (dmem _ _) eqn:Em.
  - by apply dmem_true, elem_of_first_keys in Em.
  - apply elem_of_ordered_keys. rewrite E. left.
Qed.

Lemma choose_key_total l cursor : l ≠ [] →
  ∃ k, choose_key (ordered_keys (first_sequences l)) (first_sequences l) cursor = Ok k.
Proof.
  intros [i Hi]%not_nil_elem. unfold choose_key.
  assert (item_key i ∈ ordered_keys (first_sequences l)) as Hk.
  { apply elem_of_ordered_keys. by apply list_elem_of_fmap_2. }
  destruct (ordered_keys _) as [|h r]; [by apply elem_of_nil in Hk|]. cbn. eauto.
Qed.

Lemma next_key_total keys k : k ∈ keys → ∃ k', next_key keys k = Ok k'.
Proof.
  intros Hk. unfold next_key. destruct (list_find _ _) as [[i x]|] eqn:E.
  - destruct (keys !! _) as [k'|] eqn:El; [eauto|].
    apply lookup_ge_None in El. apply elem_of_not_nil in Hk.
    destruct keys as [|y r]; [done|].
    pose proof (Nat.mod_upper_bound (i + 1) (length (y :: r)) ltac:(done)). lia.
  - apply list_find_None in E. rewrite Forall_forall in E. by destruct (E k Hk).
Qed.
End ChoiceFacts.

(** ** Fairness state: decode after encode *)
Module FairFacts.
Import FairnessState.

Lemma dict_ok_sorted {K V S} `{EqDecision K} (key : K * V → S) leb (d : dict K V) :
  dict_ok d → dict_ok (sorted_by key leb d).
Proof. unfold dict_ok, dkeys. by rewrite sorted_by_perm. Qed.

Lemma dget_sorted {K V S} `{EqDecision K} (key : K * V → S) leb k (d : dict K V) :
  dict_ok d → dget k (sorted_by key leb d) = dget k d.
Proof.
  intros Hd. symmetry. apply dget_perm; [done|]. by rewrite sorted_by_perm.
Qed.

(** The stored tuples have distinct keys. *)
Record dicts_ok (s : FairnessState) : Prop := {
  dok_cd : dict_ok (class_deficits s);
  dok_cc : dict_ok (class_cursors s);
  dok_kd : dict_ok (key_deficits s);
  dok_kc : dict_ok (key_cursors s);
}.

Lemma decode_state_id s : dicts_ok s →
  decode_state s = (class_deficits s, class_cursors s, key_deficits s, key_cursors s).
Proof. intros []. unfold decode_state. by rewrite !dict_of_id. Qed.

Lemma encode_dicts_ok cd cc kd kc n : dict_ok cd → dict_ok cc → dict_ok kd → dict_ok kc →
  dicts_ok (encode_state cd cc kd kc n).
Proof. intros. split; cbn; by apply dict_ok_sorted. Qed.

Definition class_deficit (s : FairnessState) (k : ClassKey) : Z := dget_or k 0 (class_deficits s).
Definition class_cursor (s : FairnessState) (t : Z) : Scarcity :=
  dget_or t Scarcity.SCARCE (class_cursors s).
Definition key_deficit (s : FairnessState) (k : KeyKey) : Z := dget_or k 0 (key_deficits s).

(** The invariant of the fairness state: deficits stay below one quantum,
    the streak below the aging bound, and the cursor leaves SCARCE only when
    its deficit is spent. *)
Record fair_ok (max_higher : Z) (s : FairnessState) : Prop := {
  fok_dicts : dicts_ok s;
  fok_class : ∀ t c, 0 ≤ class_deficit s (t, c) < Scarcity.quantum c;
  fok_key : ∀ k, 0 ≤ key_deficit s k < 64;
  fok_streak : 0 ≤ higher_grant_streak s ≤ max_higher;
  fok_cursor : ∀ t, class_cursor s t = Scarcity.FLEXIBLE → class_deficit s (t, Scarcity.SCARCE) = 0;
}.

Lemma fair_ok_empty n : 1 ≤ n → fair_ok n empty.
Proof.
  intros Hn. split; cbn; try lia; [split; apply dict_ok_nil|..]; try done.
  intros t []; vm_compute; done.
Qed.

Lemma dget_or_encoded {K V S} `{EqDecision K} (key : K * V → S) leb k k' v w (d : dict K V) :
  dict_ok d → dget_or k w (sorted_by key leb (dset k' v d)) =
  if decide (k' = k) then v else dget_or k w d.
Proof.
  intros Hd. unfold dget_or. rewrite dget_sorted by by apply dict_ok_dset.
  rewrite dget_dset. by case_decide.
Qed.

(** The state stored by a selection with deficits [cd], [kd] after the grant. *)
Lemma granted_state s ck cd t c kk kd kk' k n :
  dicts_ok s →
  let s' := encode_state (dset ck cd (class_deficits s)) (dset t c (class_cursors s))
              (dset kk kd (key_deficits s)) (dset kk' k (key_cursors s)) n in
  dicts_ok s' ∧
  (∀ x, class_deficit s' x = if decide (ck = x) then cd else class_deficit s x) ∧
  (∀ x, class_cursor s' x = if decide (t = x) then c else class_cursor s x) ∧
  (∀ x, key_deficit s' x = if decide (kk = x) then kd else key_deficit s x).
Proof.
  intros [H1 H2 H3 H4] s'. split_and!.
  - apply encode_dicts_ok; by apply dict_ok_dset.
  - intros x. by apply dget_or_encoded.
  - intros x. by apply dget_or_encoded.
  - intros x. by apply dget_or_encoded.
Qed.

Lemma cap_key_deficit_ok n s k w : 1 ≤ w → fair_ok n s → fair_ok n (cap_key_deficit s k w).
Proof.
  intros Hw [Hd Hc Hk Hs Hcur]. unfold cap_key_deficit. rewrite decode_state_id by done.
  pose proof Hd as [H1 H2 H3 H4].
  destruct (dget k (key_deficits s)) as [v|] eqn:E; [|by split].
  assert (key_deficit s k = v) as Hv by (unfold key_deficit, dget_or; by rewrite E).
  split; unfold class_deficit, class_cursor, key_deficit in *; cbn.
  - apply encode_dicts_ok; try done. by apply dict_ok_dset.
  - intros t c. unfold dget_or. rewrite dget_sorted by done. apply Hc.
  - intros x. rewrite dget_or_encoded by done. case_decide; [|apply Hk].
    specialize (Hk k). lia.
  - done.
  - intros t. unfold dget_or. rewrite !dget_sorted by done. apply Hcur.
Qed.
End FairFacts.

(** ** What one selection is *)
Module SelectionFacts.
Import ChoiceFacts FairFacts.

(** The choices of an accepted [propose], in its order. *)
Record selected (q : WDRRQueue) (avail : list Queued) (sel : QueueSelection)
    (top tier : Z) (cls : Scarcity) (key : string) (quantum : Z) (item : Queued) : Prop := {
  sel_tier : tier_choice q avail top tier;
  sel_class : cls = choose_class 2 (item_class <$> tier_of avail tier)
                      (class_cursor (fairness q) tier);
  sel_key : key ∈ item_key <$> class_of (tier_of avail tier) cls;
  sel_quantum : py_min (item_weight <$> key_of (class_of (tier_of avail tier) cls) key)
                = Ok quantum;
  sel_item : oldest (key_of (class_of (tier_of avail tier) cls) key) = Ok item;
  sel_entry : QueueSelection.entry sel = Queued.entry item;
  sel_version : QueueSelection.queue_version sel = version q;
  sel_fair : ∃ following,
    let cd := refill (class_deficit (fairness q) (tier, cls)) (Scarcity.quantum cls) - 1 in
    let kd := refill (key_deficit (fairness q) (tier, cls, key)) quantum - 1 in
    QueueSelection.fairness sel = encode_state
      (dset (tier, cls) cd (FairnessState.class_deficits (fairness q)))
      (dset tier (if cd =? 0 then Scarcity.other cls else cls)
         (FairnessState.class_cursors (fairness q)))
      (dset (tier, cls, key) kd (FairnessState.key_deficits (fairness q)))
      (dset (tier, cls) (if kd =? 0 then following else key)
         (FairnessState.key_cursors (fairness q)))
      (if negb (bool_decide (lower_items top avail = [])) && (tier =? top)
       then FairnessState.higher_grant_streak (fairness q) + 1 else 0);
}.

Lemma propose_selected q eligible excluded sel : dicts_ok (fairness q) →
  propose q eligible excluded = Ok (Some sel) →
  available q eligible excluded ≠ [] ∧
  ∃ top tier cls key quantum item,
    selected q (available q eligible excluded) sel top tier cls key quantum item.
Proof.
  intros Hd H. unfold propose in H. rewrite decode_state_id in H by done.
  set (avail := available q eligible excluded) in *.
  case_bool_decide as Hne; [done|]. split; [done|].
  apply bind_Ok in H as ([top tier] & Ht%choose_tier_Ok & H). cbv beta iota zeta in H.
  apply bind_Ok in H as (key & Hk%choose_key_Ok & H).
  apply bind_Ok in H as (quantum & Hq & H). apply bind_Ok in H as (item & Hi & H).
  apply bind_Ok in H as (following & _ & H). injection H as <-.
  eexists top, tier, _, key, quantum, item. split; try done. by exists following.
Qed.

Lemma choices_nonempty q avail top tier :
  tier_choice q avail top tier → item_class <$> tier_of avail tier ≠ [].
Proof.
  intros [Hn _]%tier_choice_nonempty. destruct (tier_of avail tier); [done|]. done.
Qed.

Lemma class_nonempty q avail top tier c :
  tier_choice q avail top tier →
  class_of (tier_of avail tier) (choose_class 2 (item_class <$> tier_of avail tier) c) ≠ [].
Proof.
  intros Ht%choices_nonempty. destruct (choose_class_spec _ c Ht) as [Hin _].
  apply list_elem_of_fmap in Hin as (i & Hc & Hi). apply (elem_of_not_nil i).
  by apply elem_of_class.
Qed.

Lemma propose_total q eligible excluded : ∃ r, propose q eligible excluded = Ok r ∧
  (r = None ↔ available q eligible excluded = []).
Proof.
  unfold propose. set (avail := available _ _ _).
  case_bool_decide as Hne; [by eexists|].
  destruct (choose_tier_total q avail Hne) as (top & tier & Ht). rewrite Ht.
  apply choose_tier_Ok in Ht. cbn -[choose_class].
  pose proof (class_nonempty _ _ _ _ (dget_or tier Scarcity.SCARCE
    (dict_of (FairnessState.class_cursors (fairness q)))) Ht) as Hcl.
  set (cls := choose_class _ _ _) in *. set (l := class_of _ cls) in *.
  match goal with |- context [choose_key _ _ ?c] =>
    destruct (choose_key_total l c Hcl) as [key Hk] end. rewrite Hk.
  apply choose_key_Ok in Hk. cbn.
  assert (key_of l key ≠ []) as Hkey.
  { apply list_elem_of_fmap in Hk as (i & -> & Hi). apply (elem_of_not_nil i).
    by apply elem_of_key. }
  destruct (py_min_total (item_weight <$> key_of l key)) as [w Hw].
  { by destruct (key_of l key). }
  rewrite Hw. cbn. destruct (oldest_total _ Hkey) as [i Hi]. rewrite Hi. cbn.
  apply elem_of_ordered_keys in Hk. destruct (next_key_total _ _ Hk) as [f Hf].
  rewrite Hf. cbn. by eexists.
Qed.

Lemma selected_item q avail sel top tier cls key quantum item :
  selected q avail sel top tier cls key quantum item →
  item ∈ avail ∧ item_tier item = tier ∧ item_class item = cls ∧ item_key item = key ∧
  ∀ j, j ∈ avail → item_tier j = tier → item_class j = cls → item_key j = key →
    Queued.age_leb (Queued.age_key item) (Queued.age_key j) = true.
Proof.
  intros [_ _ _ _ Hi _ _ _]. apply oldest_Ok in Hi as [Hi Hle].
  apply elem_of_key in Hi as [Hk Hi]. apply elem_of_class in Hi as [Hc Hi].
  apply elem_of_tier in Hi as [Ht Hi]. split_and!; [done..|].
  intros j Hj Htj Hcj Hkj. apply Hle. apply elem_of_key. split; [done|].
  apply elem_of_class. split; [done|]. by apply elem_of_tier.
Qed.
End SelectionFacts.

(** ** The queue invariant and the steps that keep it *)
Module QueueInv.
Import ChoiceFacts FairFacts SelectionFacts.

Definition entry_ok (e : QueueEntry) : Prop := is_ok (QueueEntry.post_init e) = true.

Lemma post_init_Ok e e' : QueueEntry.post_init e = Ok e' →
  0 ≤ QueueEntry.tier e ∧ 1 ≤ QueueEntry.weight e ≤ 64 ∧
  e' = e{{ QueueEntry.scarcity := QueueEntry.scarcity_of (QueueEntry.authorized_legs e) }}.
Proof.
  unfold QueueEntry.post_init, bounded. intros H. inv_ok H. bprop. split_and!; [lia..|done].
Qed.

(** The checks do not read the scarcity, which they set. *)
Lemma post_init_scarcity e s :
  QueueEntry.post_init (e{{ QueueEntry.scarcity := s }}) = QueueEntry.post_init e.
Proof. by destruct e. Qed.

Lemma entry_ok_scarcity e e' s : QueueEntry.post_init e = Ok e' →
  entry_ok (e'{{ QueueEntry.scarcity := s }}).
Proof.
  intros H. unfold entry_ok. rewrite post_init_scarcity.
  pose proof (post_init_Ok _ _ H) as (_ & _ & ->). by rewrite post_init_scarcity, H.
Qed.

Lemma entry_ok_new e e' : QueueEntry.post_init e = Ok e' → entry_ok e'.
Proof.
  intros H. pose proof (post_init_Ok _ _ H) as (_ & _ & ->).
  unfold entry_ok. by rewrite post_init_scarcity, H.
Qed.

Lemma entry_ok_weight e : entry_ok e → 1 ≤ QueueEntry.weight e ≤ 64.
Proof.
  unfold entry_ok. destruct (QueueEntry.post_init e) eqn:E; [|done]. intros _.
  by apply post_init_Ok in E as (_ & ? & _).
Qed.

Record wf (q : WDRRQueue) : Prop := {
  wf_dict : dict_ok (queued q);
  wf_ids : ∀ k i, (k, i) ∈ queued q → item_id i = k;
  wf_seq : ∀ i, i ∈ items q → Queued.sequence i < next_sequence q;
  wf_seq_unique : NoDup (Queued.sequence <$> items q);
  wf_entries : ∀ i, i ∈ items q → entry_ok (Queued.entry i);
  wf_max : 1 ≤ max_consecutive_higher_grants q;
  wf_fair : fair_ok (max_consecutive_higher_grants q) (fairness q);
}.

Lemma wf_init n q : init n = Ok q → wf q.
Proof.
  unfold init. intros H. inv_ok H. bprop. subst.
  split; cbn; try done.
  - apply dict_ok_nil.
  - by intros k i ?%elem_of_nil.
  - by intros i ?%elem_of_nil.
  - constructor.
  - by intros i ?%elem_of_nil.
  - by apply fair_ok_empty.
Qed.

Lemma elem_of_available q eligible excluded i : i ∈ (available q eligible excluded) ↔
  i ∈ items q ∧ (item_id i ∉ excluded) ∧ eligible (Queued.entry i) = true.
Proof. unfold available. rewrite elem_of_Lfilter. bprop. tauto. Qed.

Lemma elem_of_items q i : wf q → (i ∈ items q ↔ dget (item_id i) (queued q) = Some i).
Proof.
  intros Hq. unfold items. rewrite elem_of_dvalues by apply Hq. split.
  - intros [k Hk]. pose proof (wf_ids _ Hq k i (dget_elem_of _ _ _ Hk)) as ->. done.
  - eauto.
Qed.

Lemma enqueue_new q e q' : enqueue q e = Ok q' →
  dget (QueueEntry.request_id e) (queued q) = None ∧
  queued q' = queued q ++ [(QueueEntry.request_id e, Queued.mk e (next_sequence q))] ∧
  next_sequence q' = 1 + next_sequence q ∧ version q' = 1 + version q ∧
  fairness q' = fairness q ∧
  max_consecutive_higher_grants q' = max_consecutive_higher_grants q.
Proof.
  unfold enqueue. intros H. inv_ok H. subst q'. apply dmem_false in G.
  split_and!; try done. cbn. apply dset_new. by apply dget_None.
Qed.

Lemma wf_enqueue q e q' : wf q → entry_ok e → enqueue q e = Ok q' → wf q'.
Proof.
  intros [Hd Hids Hs Hu He Hm Hf] Hok H.
  apply enqueue_new in H as (Hnew & Hq & Hn & _ & Hfr & Hmx).
  apply dget_None in Hnew. unfold items, dvalues in *.
  split; unfold items, dvalues; rewrite ?Hq, ?Hn, ?Hfr, ?Hmx; try done.
  - unfold dict_ok, dkeys. rewrite fmap_app. apply NoDup_app. split_and!; [done| |apply NoDup_singleton].
    by intros k Hk ->%list_elem_of_singleton.
  - intros k i [Hi|Hi%list_elem_of_singleton]%elem_of_app; [by apply Hids|].
    by injection Hi as -> ->.
  - rewrite fmap_app. intros i [Hi| ->%list_elem_of_singleton]%elem_of_app; cbn; [|lia].
    specialize (Hs i Hi). lia.
  - rewrite !fmap_app. apply NoDup_app. split_and!; [done| |apply NoDup_singleton].
    intros s (i & -> & Hi)%list_elem_of_fmap Heq%list_elem_of_singleton. cbn in Heq.
    specialize (Hs i Hi). lia.
  - rewrite fmap_app. intros i [Hi| ->%list_elem_of_singleton]%elem_of_app; [by apply He|done].
Qed.

Lemma items_ddel q k : sublist (ddel k (queued q)).*2 (items q).
Proof. apply fmap_sublist, ddel_sublist. Qed.

(** Removing a request keeps the invariant. *)
Lemma wf_remove q q' k : wf q → queued q' = ddel k (queued q) →
  next_sequence q' = next_sequence q →
  max_consecutive_higher_grants q' = max_consecutive_higher_grants q →
  fair_ok (max_consecutive_higher_grants q) (fairness q') → wf q'.
Proof.
  intros [Hd Hids Hs Hu He Hm Hf] Hq Hn Hmx Hfr.
  split; unfold items, dvalues; rewrite ?Hq, ?Hn, ?Hmx; try done.
  - by apply dict_ok_ddel.
  - intros k' i Hi%elem_of_ddel. by apply Hids.
  - intros i Hi. apply Hs. eapply elem_of_sublist; [exact Hi|apply items_ddel].
  - eapply sublist_NoDup; [exact Hu|]. apply fmap_sublist, items_ddel.
  - intros i Hi. apply He. eapply elem_of_sublist; [exact Hi|apply items_ddel].
Qed.

Lemma wf_cancel q k q' b : wf q → cancel q k = (q', b) → wf q'.
Proof.
  intros Hq. unfold cancel. destruct (dmem _ _); intros [= <- <-]; [|done].
  by eapply wf_remove with (k := k); try done; apply Hq.
Qed.

Lemma fair_ok_selected q avail sel top tier cls key quantum item :
  wf q → (∀ i, i ∈ avail → entry_ok (Queued.entry i)) →
  selected q avail sel top tier cls key quantum item →
  fair_ok (max_consecutive_higher_grants q) (QueueSelection.fairness sel).
Proof.
  intros Hq He [Ht -> _ Hmin _ _ _ [f ->]]. set (cls := choose_class _ _ _) in *.
  destruct (wf_fair _ Hq) as [Hdok Hc Hk Hs Hcur].
  assert (1 ≤ quantum ≤ 64) as Hw.
  { apply py_min_Ok in Hmin as [(i & -> & Hi)%list_elem_of_fmap _].
    apply elem_of_key in Hi as [_ Hi]. apply elem_of_class in Hi as [_ Hi].
    apply elem_of_tier in Hi as [_ Hi]. by apply entry_ok_weight, He. }
  pose proof (refill_bounds (class_deficit (fairness q) (tier, cls)) (Scarcity.quantum cls)
    ltac:(by destruct cls) ltac:(apply Hc)) as Hrc.
  pose proof (refill_bounds (key_deficit (fairness q) (tier, cls, key)) quantum
    ltac:(lia) ltac:(apply Hk)) as Hrk.
  pose proof (Hc tier cls) as Hct. pose proof (Hk (tier, cls, key)) as Hkt.
  match goal with |- fair_ok _ (encode_state (dset ?a ?b _) (dset ?c ?d _) (dset ?e ?g _) (dset ?h ?i _) ?n) =>
    destruct (granted_state (fairness q) a b c d e g h i n Hdok) as (Hd' & Hcd & Hcc & Hkd) end.
  split; [done|..].
  - intros t c. rewrite Hcd. case_decide as E; [injection E as <- <-; lia|apply Hc].
  - intros k. rewrite Hkd. case_decide; [lia|apply Hk].
  - cbn [FairnessState.higher_grant_streak encode_state].
    destruct Ht as (_ & _ & Ht). unfold streak_spent in Ht.
    destruct (bool_decide (lower_items top avail = [])) eqn:El; cbn; [lia|].
    bprop in El. destruct (tier =? top) eqn:Et; [|lia]. apply Z.eqb_eq in Et.
    case_decide as Hd.
    2: { enough (¬ streak_spent q) by (unfold streak_spent in *; lia). tauto. }
    destruct Ht as (o & Ho & Heq). apply oldest_Ok in Ho as [Ho _].
    apply elem_of_lower in Ho as [Ho _]. lia.
  - intros t. rewrite Hcc, Hcd. case_decide as E; [subst t|].
    + destruct cls; cbn in *; repeat case_decide; repeat case_match; try done; lia.
    + rewrite decide_False by congruence. apply Hcur.
Qed.

Lemma commit_Ok q sel q' : commit q sel = Ok q' →
  QueueSelection.queue_version sel = version q ∧
  (∃ i, dget (QueueEntry.request_id (QueueSelection.entry sel)) (queued q) = Some i ∧
        Queued.entry i = QueueSelection.entry sel) ∧
  q' = q{{ fairness := QueueSelection.fairness sel;
           queued ::= ddel (QueueEntry.request_id (QueueSelection.entry sel));
           version ::= Z.add 1 }}.
Proof.
  unfold commit. intros H. inv_ok H. bprop. destruct G as [Hv Hg].
  split_and!; [done| |done]. apply fmap_Some in Hg as (i & ? & ?). eauto.
Qed.

Lemma available_entry_ok q eligible excluded i : wf q →
  i ∈ available q eligible excluded → entry_ok (Queued.entry i).
Proof. intros Hq (Hi & _)%elem_of_available. by apply Hq. Qed.

Lemma wf_grant q eligible excluded sel q' : wf q →
  propose q eligible excluded = Ok (Some sel) → commit q sel = Ok q' → wf q'.
Proof.
  intros Hq Hp (_ & _ & ->)%commit_Ok.
  apply propose_selected in Hp as (_ & top & tier & cls & key & w & i & Hs); [|apply Hq].
  eapply wf_remove; try done. eapply fair_ok_selected; [done| |exact Hs].
  intros j. by apply available_entry_ok.
Qed.

(** [propose] then [commit] succeeds: nothing changed in between. *)
Lemma commit_proposed q eligible excluded sel : wf q →
  propose q eligible excluded = Ok (Some sel) → is_ok (commit q sel) = true.
Proof.
  intros Hq Hp.
  apply propose_selected in Hp as (_ & top & tier & cls & key & w & i & Hs); [|apply Hq].
  pose proof (selected_item _ _ _ _ _ _ _ _ _ Hs) as [Hi _].
  apply elem_of_available in Hi as [Hi _]. apply elem_of_items in Hi; [|done].
  destruct Hs as [_ _ _ _ _ He Hv _]. unfold commit, item_id in *.
  rewrite He, Hv, Hi, Z.eqb_refl. cbn. by rewrite bool_decide_true.
Qed.

(** What an accepted [contract] does. *)
Record contracted (q : WDRRQueue) (rid : string) (q' : WDRRQueue) (e : QueueEntry)
    (old : Queued) : Prop := {
  con_old : dget rid (queued q) = Some old;
  con_tier : QueueEntry.tier (Queued.entry old) ≤ QueueEntry.tier e;
  con_weight : QueueEntry.weight e ≤ QueueEntry.weight (Queued.entry old);
  con_legs : ∀ l, l ∈ QueueEntry.authorized_legs e →
    ∃ l0, l0 ∈ QueueEntry.authorized_legs (Queued.entry old) ∧
          AuthorizedLeg.identity l0 = AuthorizedLeg.identity l ∧
          AuthorizedLeg.intersection l0 l = Some l;
  con_same : QueueEntry.request_id e = QueueEntry.request_id (Queued.entry old) ∧
    QueueEntry.key_id e = QueueEntry.key_id (Queued.entry old) ∧
    QueueEntry.scarcity e = QueueEntry.scarcity (Queued.entry old);
  con_ok : entry_ok e;
  con_queued : queued q' = dset rid (Queued.mk e (Queued.sequence old)) (queued q);
  con_version : version q' = 1 + version q;
  con_rest : next_sequence q' = next_sequence q ∧
    max_consecutive_higher_grants q' = max_consecutive_higher_grants q;
  con_fair : fairness q' = fairness q ∨
    fairness q' = cap_key_deficit (fairness q) (entry_key (Queued.entry old))
                    (QueueEntry.weight e);
}.

Lemma legs_allowed (old new : list AuthorizedLeg) l :
  existsb (λ c, negb (leg_allowed
    (dict_of ((λ l, (AuthorizedLeg.identity l, l)) <$> old)) c)) new = false → l ∈ new →
  ∃ l0, l0 ∈ old ∧ AuthorizedLeg.identity l0 = AuthorizedLeg.identity l ∧
        AuthorizedLeg.intersection l0 l = Some l.
Proof.
  rewrite existsb_false. intros Hall Hl. specialize (Hall l Hl). bprop in Hall.
  unfold leg_allowed in Hall. destruct (dget _ _) as [l0|] eqn:E; [|done].
  apply dget_dict_of, list_elem_of_fmap in E as (l0' & [Hid ->]%pair_equal_spec & Hin).
  unfold leg_contracts in Hall. bprop in Hall. by exists l0'.
Qed.

Lemma contract_Ok q rid tier weight legs q' e :
  contract q rid tier weight legs = Ok (q', e) → ∃ old, contracted q rid q' e old.
Proof.
  unfold contract. intros H. apply bind_Ok in H as (old & Ho & H).
  unfold get_queued in Ho. destruct (dget rid (queued q)) as [i|] eqn:Eg; [|done].
  injection Ho as ->. inv_ok_step H. inv_ok_step H. apply bind_Ok in H as (r & Hr & H).
  match type of H with context [if ?b then _ else _] => destruct b end;
  injection H as <- <-; exists old;
  pose proof (entry_ok_scarcity _ _ (QueueEntry.scarcity (Queued.entry old)) Hr) as Hok;
  apply post_init_Ok in Hr as (_ & _ & ->); bprop; destruct G as [Ht Hw];
  (split; try done; try (by left); try (by right));
  eauto using legs_allowed.
Qed.

Lemma contracted_items q rid q' e old : wf q → contracted q rid q' e old →
  items q' ≡ₚ Queued.mk e (Queued.sequence old) :: (ddel rid (queued q)).*2 ∧
  items q ≡ₚ old :: (ddel rid (queued q)).*2.
Proof.
  intros Hq Hc. unfold items, dvalues. rewrite (con_queued _ _ _ _ _ Hc). split.
  - by rewrite (dset_perm_old _ _ _ _ (con_old _ _ _ _ _ Hc)).
  - by rewrite (ddel_perm _ _ _ (con_old _ _ _ _ _ Hc)) at 1.
Qed.

Lemma wf_contract q rid q' e old : wf q → contracted q rid q' e old → wf q'.
Proof.
  intros Hq Hc. destruct (contracted_items _ _ _ _ _ Hq Hc) as [Hi' Hi].
  pose proof Hc as [Ho _ _ _ (Hid & _ & _) Hok Hqd _ [Hn Hm] Hf].
  destruct Hq as [Hd Hids Hs Hu He Hmx Hfr].
  assert (∀ j, j ∈ (ddel rid (queued q)).*2 → j ∈ items q) as Hsub.
  { intros j Hj. rewrite Hi. by right. }
  assert (item_id old = rid) as Hrid by (apply Hids, dget_elem_of, Ho).
  split; rewrite ?Hn, ?Hm; try done.
  - rewrite Hqd. by apply dict_ok_dset.
  - intros k j Hj. apply elem_of_dget in Hj; [|rewrite Hqd; by apply dict_ok_dset].
    rewrite Hqd, dget_dset in Hj. case_decide as E.
    + injection Hj as <-. unfold item_id in *. cbn. congruence.
    + apply Hids. by apply dget_elem_of.
  - intros j Hj. rewrite Hi' in Hj. apply elem_of_cons in Hj as [->|Hj]; cbn; [|by apply Hs, Hsub].
    apply Hs. rewrite Hi. left.
  - rewrite Hi'. rewrite Hi in Hu. done.
  - intros j Hj. rewrite Hi' in Hj. apply elem_of_cons in Hj as [->|Hj]; [done|by apply He, Hsub].
  - destruct Hf as [->| ->]; [done|]. apply cap_key_deficit_ok; [|done].
    apply entry_ok_weight in Hok. lia.
Qed.

(** Restoring one's own snapshot keeps the requests, in age order. *)
Definition replayed (q q' : WDRRQueue) : Prop :=
  queued q ≡ₚ queued q' ∧ fairness q = fairness q' ∧ next_sequence q = next_sequence q' ∧
  version q = version q' ∧
  max_consecutive_higher_grants q = max_consecutive_higher_grants q'.

Lemma queued_items q : wf q → (λ i, (item_id i, i)) <$> items q = queued q.
Proof.
  intros Hq. unfold items, dvalues. rewrite <-list_fmap_compose.
  rewrite <-list_fmap_id. apply list_fmap_ext. intros j [k i] Hj. cbn.
  f_equal. apply (wf_ids _ Hq). by eapply list_elem_of_lookup_2.
Qed.

Lemma wf_item_ids q : wf q → NoDup (item_id <$> items q).
Proof.
  intros Hq. pose proof (wf_dict _ Hq) as Hd. unfold dict_ok, dkeys in Hd.
  rewrite <-(queued_items q Hq) in Hd. by rewrite <-list_fmap_compose in Hd.
Qed.

Lemma restore_snapshot q : wf q → ∃ q', restore (snapshot q) = Ok q' ∧ replayed q q'.
Proof.
  intros Hq. unfold restore, init, snapshot. cbn.
  pose proof (wf_max _ Hq). rewrite raise_if_pass by (bprop; lia). cbn.
  pose proof (wf_item_ids q Hq) as Hn. pose proof (sorted_by_perm Queued.sequence Z.leb (items q)) as Hp.
  rewrite raise_if_pass.
  2: { unfold has_duplicates. bprop. by rewrite Hp. }
  eexists. split; [done|]. split_and!; try done. cbn. rewrite dict_of_id.
  - by rewrite Hp, queued_items.
  - unfold dict_ok, dkeys. rewrite <-list_fmap_compose. cbn.
    by rewrite (fmap_Permutation _ _ _ Hp).
Qed.

Lemma wf_replayed q q' : wf q → replayed q q' → wf q'.
Proof.
  intros [Hd Hids Hs Hu He Hm Hf] (Hp & Hfr & Hn & _ & Hmx).
  assert (items q ≡ₚ items q') as Hi by (unfold items, dvalues; by rewrite Hp).
  split; rewrite <-?Hfr, <-?Hn, <-?Hmx; try done.
  - unfold dict_ok, dkeys. by rewrite <-Hp.
  - intros k i. rewrite <-Hp. apply Hids.
  - intros i. rewrite <-Hi. apply Hs.
  - by rewrite <-Hi.
  - intros i. rewrite <-Hi. apply He.
Qed.
End QueueInv.

(** ** Replay: a selection does not depend on the order of the request dictionary *)
Module ReplayFacts.
Import ChoiceFacts FairFacts SelectionFacts QueueInv.

Definition ids_distinct (l : list Queued) : Prop := NoDup (item_id <$> l).

Lemma age_keys_distinct l : ids_distinct l → NoDup (Queued.age_key <$> l).
Proof.
  intros Hn. apply (NoDup_fmap_1 snd). by rewrite <-list_fmap_compose.
Qed.

Lemma ids_distinct_Lfilter f l : ids_distinct l → ids_distinct (List.filter f l).
Proof.
  intros Hn. eapply sublist_NoDup; [exact Hn|]. apply fmap_sublist.
  induction l as [|x l IH]; [done|]. cbn. apply NoDup_cons in Hn as [_ Hn].
  case_match; constructor; by apply IH.
Qed.

Lemma oldest_perm l l' : ids_distinct l → l ≡ₚ l' → oldest l = oldest l'.
Proof.
  intros Hn Hp. unfold oldest. erewrite (min_by_perm Queued.age_key Queued.age_leb l l'); try done.
  by apply age_keys_distinct.
Qed.

Lemma nil_test_perm {A} `{EqDecision A} (l l' : list A) :
  l ≡ₚ l' → bool_decide (l = []) = bool_decide (l' = []).
Proof.
  intros Hp. apply bool_decide_ext. split; intros ->.
  - by apply Permutation_nil_l in Hp.
  - by apply Permutation_nil_r in Hp.
Qed.

Lemma choose_tier_perm q q' l l' :
  fairness q = fairness q' →
  max_consecutive_higher_grants q = max_consecutive_higher_grants q' →
  ids_distinct l → l ≡ₚ l' → choose_tier q l = choose_tier q' l'.
Proof.
  intros Hf Hm Hn Hp. unfold choose_tier. rewrite Hf, Hm.
  assert (sorted_by id Z.leb (remove_dups (item_tier <$> l)) =
          sorted_by id Z.leb (remove_dups (item_tier <$> l'))) as ->.
  { apply sorted_by_unique; [apply _|..].
    - rewrite list_fmap_id. apply NoDup_remove_dups.
    - apply remove_dups_perm. by rewrite Hp. }
  destruct (py_head _) as [top|]; [|done]. cbn.
  assert (lower_items top l ≡ₚ lower_items top l') as Hl by (unfold lower_items; by rewrite Hp).
  rewrite (oldest_perm (lower_items top l) (lower_items top l')), (nil_test_perm _ _ Hl);
    [done| |done].
  by apply ids_distinct_Lfilter.
Qed.

Lemma choose_class_perm n l l' s : l ≡ₚ l' → choose_class n l s = choose_class n l' s.
Proof.
  intros Hp. revert s. induction n as [|n IH]; intros s; cbn; [done|].
  rewrite (bool_decide_ext (s ∈ l) (s ∈ l')) by by rewrite Hp. by rewrite IH.
Qed.

Lemma dget_first_perm k l l' : l ≡ₚ l' → dget k (first_sequences l) = dget k (first_sequences l').
Proof.
  intros Hp. rewrite !dget_first_sequences.
  pose proof (min_by_key_perm id Z.leb (Queued.sequence <$> key_of l k)
    (Queued.sequence <$> key_of l' k)) as H.
  rewrite !option_fmap_id in H. apply H. unfold key_of. by rewrite Hp.
Qed.

Lemma ordered_keys_perm l l' : l ≡ₚ l' →
  ordered_keys (first_sequences l) = ordered_keys (first_sequences l').
Proof.
  intros Hp. unfold ordered_keys.
  rewrite (sorted_by_ext _ (λ k, (dget_or k 0 (first_sequences l'), k))).
  2: { intros k. unfold dget_or. by rewrite (dget_first_perm k l l'). }
  apply sorted_by_unique; [apply pair_leb_order; apply _|..].
  - apply (NoDup_fmap_1 snd). rewrite <-list_fmap_compose. cbn.
    rewrite list_fmap_id. apply first_sequences_ok.
  - apply NoDup_Permutation; [apply first_sequences_ok..|].
    intros k. rewrite !elem_of_first_keys. by rewrite Hp.
Qed.

Lemma choose_key_perm l l' c : l ≡ₚ l' →
  choose_key (ordered_keys (first_sequences l)) (first_sequences l) c =
  choose_key (ordered_keys (first_sequences l')) (first_sequences l') c.
Proof.
  intros Hp. unfold choose_key. rewrite (ordered_keys_perm _ _ Hp).
  destruct (py_head _) as [h|]; [|done]. cbn. unfold dmem.
  by rewrite (dget_first_perm _ _ _ Hp).
Qed.

Lemma py_min_perm l l' : l ≡ₚ l' → py_min l = py_min l'.
Proof.
  intros Hp. unfold py_min. pose proof (min_by_key_perm id Z.leb l l' Hp) as H.
  rewrite !option_fmap_id in H. by rewrite H.
Qed.

Lemma propose_replayed q q' eligible excluded : wf q → replayed q q' →
  propose q eligible excluded = propose q' eligible excluded.
Proof.
  intros Hq (Hp & Hf & _ & Hv & Hm). unfold propose. rewrite <-Hf, <-Hv.
  assert (available q eligible excluded ≡ₚ available q' eligible excluded) as Ha.
  { unfold available, items, dvalues. by rewrite Hp. }
  assert (ids_distinct (available q eligible excluded)) as Hn.
  { apply ids_distinct_Lfilter. by apply wf_item_ids. }
  set (l := available q eligible excluded) in *.
  set (l' := available q' eligible excluded) in *.
  rewrite (choose_tier_perm q q' l l' Hf Hm Hn Ha).
  rewrite (nil_test_perm _ _ Ha).
  case_bool_decide; [done|]. destruct (choose_tier q' l') as [[top tier]|]; [|done].
  cbn [mbind result_bind]. destruct (decode_state (fairness q)) as [[[cd cc] kd] kc].
  assert (tier_of l tier ≡ₚ tier_of l' tier) as Ht by (unfold tier_of; by rewrite Ha).
  assert (lower_items top l ≡ₚ lower_items top l') as Hl by (unfold lower_items; by rewrite Ha).
  rewrite (choose_class_perm 2 _ (item_class <$> tier_of l' tier)) by by rewrite Ht.
  set (c := choose_class _ _ _). cbv zeta.
  assert (class_of (tier_of l tier) c ≡ₚ class_of (tier_of l' tier) c) as Hc
    by (unfold class_of; by rewrite Ht).
  rewrite (choose_key_perm _ _ _ Hc), (ordered_keys_perm _ _ Hc).
  destruct (choose_key _ _ _) as [k|]; [|done]. cbn [mbind result_bind].
  assert (key_of (class_of (tier_of l tier) c) k ≡ₚ key_of (class_of (tier_of l' tier) c) k) as Hk
    by (unfold key_of; by rewrite Hc).
  rewrite (py_min_perm (item_weight <$> key_of (class_of (tier_of l tier) c) k)
    (item_weight <$> key_of (class_of (tier_of l' tier) c) k)) by by rewrite Hk.
  rewrite (oldest_perm (key_of (class_of (tier_of l tier) c) k)
    (key_of (class_of (tier_of l' tier) c) k)), (nil_test_perm _ _ Hl); [done| |done].
  by do 3 apply ids_distinct_Lfilter.
Qed.
End ReplayFacts.

(** ** Runs *)
Module RunFacts.
Import ChoiceFacts FairFacts SelectionFacts QueueInv ReplayFacts QueueRun.

Lemma attempt_Ok {A} q (r : result A) f p : attempt q r f = p →
  (∃ a, r = Ok a ∧ f a = p) ∨ (∃ e, r = Err e ∧ p = (q, Raised e)).
Proof. destruct r; cbn; eauto. Qed.

Lemma new_entry_ok rid key tier weight legs e :
  QueueEntry.new rid key tier weight legs = Ok e → entry_ok e.
Proof. apply entry_ok_new. Qed.

Lemma step_wf o q : wf q → wf (step o q).1.
Proof.
  intros Hq. destruct o as [rid key tier weight legs|rid|rid tier weight legs|eligible excluded|]; cbn.
  - destruct (QueueEntry.new _ _ _ _ _) as [e|] eqn:En; [|done]. cbn.
    destruct (enqueue q e) as [q'|] eqn:Ee; [|done]. cbn.
    eapply wf_enqueue; [done| |done]. by eapply new_entry_ok.
  - destruct (cancel q rid) as [q' b] eqn:Ec. by eapply wf_cancel.
  - destruct (contract _ _ _ _ _) as [[q' e]|] eqn:Ec; [|done]. cbn.
    apply contract_Ok in Ec as [old Hc]. by eapply wf_contract.
  - destruct (propose _ _ _) as [[sel|]|] eqn:Ep; [|done..]. cbn.
    destruct (commit q sel) as [q'|] eqn:Ec; [|done]. cbn. by eapply wf_grant.
  - destruct (restore_snapshot q Hq) as (q' & -> & Hr). cbn. by eapply wf_replayed.
Qed.

Lemma final_wf ops q : wf q → wf (final ops q).
Proof.
  unfold final. revert q. induction ops as [|o ops IH]; intros q Hq; [done|].
  cbn. apply IH. by apply step_wf.
Qed.

Lemma replayed_refl q : replayed q q.
Proof. done. Qed.
Lemma replayed_sym q q' : replayed q q' → replayed q' q.
Proof. intros (Hp & Hf & Hn & Hv & Hm). split_and!; congruence || done. Qed.
Lemma replayed_trans q1 q2 q3 : replayed q1 q2 → replayed q2 q3 → replayed q1 q3.
Proof.
  intros (Hq & ? & ? & ? & ?) (Hq' & ? & ? & ? & ?). split_and!; [by etrans|congruence..].
Qed.

Lemma dget_replayed q q' k : wf q → replayed q q' → dget k (queued q) = dget k (queued q').
Proof. intros Hq (Hp & _). apply dget_perm; [apply Hq|done]. Qed.

Lemma ddel_replayed q q' k : wf q → replayed q q' →
  ddel k (queued q) ≡ₚ ddel k (queued q').
Proof.
  intros Hq Hr. pose proof (dget_replayed _ _ k Hq Hr) as Hg. destruct Hr as (Hp & _).
  destruct (dget k (queued q)) as [i|] eqn:E.
  - apply (Permutation_cons_inv (a := (k, i))). rewrite <-!ddel_perm; [done|congruence|done].
  - by rewrite !ddel_absent.
Qed.

Lemma dset_replayed q q' k v : wf q → replayed q q' →
  dset k v (queued q) ≡ₚ dset k v (queued q').
Proof.
  intros Hq Hr. pose proof (dget_replayed _ _ k Hq Hr) as Hg.
  pose proof (ddel_replayed _ _ k Hq Hr) as Hd. destruct Hr as (Hp & _).
  destruct (dget k (queued q)) as [i|] eqn:E.
  - erewrite !dset_perm_old by eauto. by rewrite Hd.
  - rewrite !dset_perm_new by congruence. by rewrite Hp.
Qed.

Ltac same_fields :=
  split_and!; try assumption; try (apply (f_equal (Z.add 1)); assumption); try done.

(** One call on a queue and on a replayed copy: same outcome, still copies. *)
Lemma step_replayed o q q' : wf q → replayed q q' →
  (step o q).2 = (step o q').2 ∧ replayed (step o q).1 (step o q').1.
Proof.
  intros Hq Hr. pose proof (λ k, dget_replayed _ _ k Hq Hr) as Hg. pose proof Hr as (Hp & Hf & Hn & Hv & Hm).
  destruct o as [rid key tier weight legs|rid|rid tier weight legs|eligible excluded|]; cbn.
  - destruct (QueueEntry.new _ _ _ _ _) as [e|]; [|done]. cbn. unfold enqueue, dmem.
    rewrite <-Hg. destruct (bool_decide _); [done|]. cbn. split; [done|].
    same_fields. rewrite <-Hn. by apply dset_replayed.
  - unfold cancel, dmem. rewrite <-Hg. destruct (bool_decide _); [|done]. cbn. split; [done|].
    same_fields. by apply ddel_replayed.
  - unfold contract, get_queued. rewrite <-Hg. destruct (dget rid (queued q)) as [i|]; [|by split].
    cbn [mbind result_bind]. destruct (raise_if (_ || _) _) as [[]|]; [|by split].
    cbn [mbind result_bind]. destruct (raise_if (existsb _ _) _) as [[]|]; [|by split]. cbn [mbind result_bind].
    destruct (QueueEntry.post_init _) as [r|]; [|by split]. cbn [mbind result_bind].
    destruct (_ && _); cbn; (split; [done|same_fields; try by apply dset_replayed]).
    exact (f_equal (λ s, cap_key_deficit s _ _) Hf).
  - rewrite <-(propose_replayed q q' eligible excluded Hq Hr).
    destruct (propose _ _ _) as [[sel|]|]; [|done..]. cbn. unfold commit. rewrite <-Hg, <-Hv.
    destruct (raise_if _ _) as [[]|]; [|done]. cbn. split; [done|].
    same_fields. by apply ddel_replayed.
  - destruct (restore_snapshot q Hq) as (r & -> & Hr1).
    destruct (restore_snapshot q') as (r' & -> & Hr2); [by eapply wf_replayed|]. cbn.
    split; [done|]. eapply replayed_trans; [by apply replayed_sym|].
    by apply (replayed_trans _ q').
Qed.

(** The versions of a run only grow, and grow with every mutation. *)
Lemma step_version o q : wf q → o ≠ Restart →
  version (step o q).1 = 1 + version q ∨ (step o q).1 = q.
Proof.
  intros Hq Ho. destruct o as [rid key tier weight legs|rid|rid tier weight legs|eligible excluded|]; cbn.
  - destruct (QueueEntry.new _ _ _ _ _) as [e|]; [|by right]. cbn.
    destruct (enqueue q e) as [q'|] eqn:E; [|by right]. apply enqueue_new in E. left. naive_solver.
  - unfold cancel. destruct (dmem _ _); [by left|by right].
  - destruct (contract _ _ _ _ _) as [[q' e]|] eqn:E; [|by right].
    apply contract_Ok in E as [old Hc]. left. apply Hc.
  - destruct (propose _ _ _) as [[sel|]|]; [|by right..]. cbn.
    destruct (commit q sel) as [q'|] eqn:E; [|by right]. left. by apply commit_Ok in E as (_ & _ & ->).
  - done.
Qed.

Lemma step_version_le o q : wf q → version q ≤ version (step o q).1.
Proof.
  intros Hq. assert (o = Restart ∨ o ≠ Restart) as [->|Ho] by (destruct o; auto).
  - cbn. destruct (restore_snapshot q Hq) as (r & -> & _ & _ & _ & Hv & _). cbn. lia.
  - destruct (step_version o q Hq Ho) as [->| ->]; lia.
Qed.

Lemma final_version_le ops q : wf q → version q ≤ version (final ops q).
Proof.
  unfold final. revert q. induction ops as [|o ops IH]; intros q Hq; [done|]. cbn.
  etrans; [by apply (step_version_le o)|]. apply IH. by apply step_wf.
Qed.

(** A grant, in the terms of [selected]. *)
Lemma step_granted q eligible excluded e : wf q →
  (step (Grant eligible excluded) q).2 = Granted e →
  ∃ sel top tier cls key quantum item,
    selected q (available q eligible excluded) sel top tier cls key quantum item ∧
    e = Queued.entry item ∧
    fairness (step (Grant eligible excluded) q).1 = QueueSelection.fairness sel.
Proof.
  intros Hq. cbn. destruct (propose _ _ _) as [[sel|]|] eqn:Ep; [|done..]. cbn.
  destruct (commit q sel) as [q'|] eqn:Ec; [|done]. cbn. intros [= <-].
  apply propose_selected in Ep as (_ & top & tier & cls & key & w & i & Hs); [|apply Hq].
  apply commit_Ok in Ec as (_ & _ & ->). exists sel, top, tier, cls, key, w, i.
  split_and!; [done|apply Hs|done].
Qed.
End RunFacts.
