(* ===== verification/QueueProps.v ===== *)
(** * Properties of the scheduler's queue

    Stated over [WDRRQueue] and over runs of [QueueRun]; proofs apply
    [QueueFacts]. *)
From stdpp Require Import pretty.
From S2P Require Export QueueFacts.
#[local] Open Scope Z_scope.

Import WDRRQueue ChoiceFacts FairFacts SelectionFacts QueueInv ReplayFacts QueueRun RunFacts.

(** [propose] never raises, and proposes nothing only when no queued
    request is eligible and not excluded; what it proposes commits. *)
Theorem propose_complete q eligible excluded :
  wf q →
  (∃ r, propose q eligible excluded = Ok r ∧
    (r = None ↔ available q eligible excluded = [])) ∧
  (∀ sel, propose q eligible excluded = Ok (Some sel) → is_ok (commit q sel) = true).
Proof.
  intros Hq. split; [apply propose_total|]. intros sel. by apply commit_proposed.
Qed.

(** C35. A proposal is the right request: it is queued, eligible and not
    excluded; it is the oldest available request of its tier, class and key
    (FIFO within a key); its tier is the least one with work, except that when
    the aging bound is reached it is the tier of the oldest request waiting
    below; and its class is the cursor's class when that has work. *)
Theorem propose_selects q eligible excluded sel :
  wf q → propose q eligible excluded = Ok (Some sel) →
  ∃ item top, let avail := available q eligible excluded in
    QueueSelection.entry sel = Queued.entry item ∧
    item ∈ items q ∧ eligible (Queued.entry item) = true ∧ (item_id item ∉ excluded) ∧
    tier_choice q avail top (item_tier item) ∧
    (class_cursor (fairness q) (item_tier item) ∈ item_class <$> tier_of avail (item_tier item) →
     item_class item = class_cursor (fairness q) (item_tier item)) ∧
    (∀ j, j ∈ avail → item_tier j = item_tier item → item_class j = item_class item →
       item_key j = item_key item →
       Queued.age_leb (Queued.age_key item) (Queued.age_key j) = true).
Proof.
  intros Hq Hp. apply propose_selected in Hp as (_ & top & tier & cls & key & w & i & Hs); [|apply Hq].
  pose proof (selected_item _ _ _ _ _ _ _ _ _ Hs) as (Hi & <- & <- & <- & Hfifo).
  exists i, top. apply elem_of_available in Hi as (? & ? & ?). split_and!; try done; [apply Hs..|].
  intros Hin. rewrite (sel_class _ _ _ _ _ _ _ _ _ Hs).
  apply choose_class_spec; [|done]. by eapply choices_nonempty, Hs.
Qed.

(** A grant at the top tier while something is available below it. *)
Definition bypasses (q : WDRRQueue) (eligible : QueueEntry → bool) (excluded : list string)
    (e : QueueEntry) : bool :=
  let avail := available q eligible excluded in
  forallb (λ i, QueueEntry.tier e <=? item_tier i) avail &&
  existsb (λ i, QueueEntry.tier e <? item_tier i) avail.

Lemma bypasses_spec q avail top tier cls key w item sel :
  selected q avail sel top tier cls key w item →
  forallb (λ i, item_tier item <=? item_tier i) avail &&
  existsb (λ i, item_tier item <? item_tier i) avail =
  negb (bool_decide (lower_items top avail = [])) && (tier =? top).
Proof.
  intros Hs. pose proof (selected_item _ _ _ _ _ _ _ _ _ Hs) as (Hi & <- & _).
  destruct (sel_tier _ _ _ _ _ _ _ _ _ Hs) as ((j & Hj & Hjt) & Hle & _).
  apply Bool.eq_iff_eq_true. rewrite !andb_true_iff, forallb_forall, existsb_exists. bprop.
  setoid_rewrite <-list_elem_of_In. split.
  - intros (Hall & x & Hx & Hlt). apply Z.ltb_lt in Hlt. specialize (Hall j Hj). bprop in Hall.
    specialize (Hle item Hi). assert (item_tier item = top) as Ht by lia. split; [|lia].
    apply (elem_of_not_nil x). apply elem_of_lower. split; [lia|done].
  - intros [[x Hx]%not_nil_elem Ht]. apply elem_of_lower in Hx as [Hlt Hx]. split.
    + intros y Hy. specialize (Hle y Hy). bprop. lia.
    + exists x. split; [done|]. bprop. lia.
Qed.

(** The streak counts the grants that bypassed waiting lower tiers. *)
Lemma step_streak q o r : wf q → (step o q).2 = r →
  FairnessState.higher_grant_streak (fairness (step o q).1) =
  match o, r with
  | Grant eligible excluded, Granted e =>
      if bypasses q eligible excluded e
      then FairnessState.higher_grant_streak (fairness q) + 1 else 0
  | _, _ => FairnessState.higher_grant_streak (fairness q)
  end.
Proof.
  intros Hq <-. destruct o as [rid key tier weight legs|rid|rid tier weight legs|eligible excluded|].
  - cbn. destruct (QueueEntry.new _ _ _ _ _) as [e|]; [|done]. cbn.
    destruct (enqueue q e) as [q'|] eqn:E; [|done]. cbn.
    by apply enqueue_new in E as (_ & _ & _ & _ & -> & _).
  - cbn. unfold cancel. by destruct (dmem _ _).
  - cbn. destruct (contract _ _ _ _ _) as [[q' e]|] eqn:E; [|done]. cbn.
    apply contract_Ok in E as [old Hc]. destruct (con_fair _ _ _ _ _ Hc) as [->| ->]; [done|].
    unfold cap_key_deficit. destruct (decode_state _) as [[[? ?] ?] ?]. by case_match.
  - destruct (step (Grant eligible excluded) q).2 eqn:E; try (cbn in E |- *;
      destruct (propose _ _ _) as [[sel|]|]; [|done..]; cbn in *;
      destruct (commit q sel); done).
    destruct (step_granted _ _ _ _ Hq E) as (sel & top & tier & cls & key & w & i & Hs & -> & ->).
    unfold bypasses. pose proof (bypasses_spec _ _ _ _ _ _ _ _ _ Hs) as Hb.
    unfold item_tier in Hb at 1 3. rewrite Hb.
    destruct (sel_fair _ _ _ _ _ _ _ _ _ Hs) as [f ->]. done.
  - cbn. destruct (restore_snapshot q Hq) as (r & Hr & _ & Hf & _). rewrite Hr. cbn. by rewrite Hf.
Qed.

Lemma step_max o q : wf q →
  max_consecutive_higher_grants (step o q).1 = max_consecutive_higher_grants q.
Proof.
  intros Hq. destruct o as [rid key tier weight legs|rid|rid tier weight legs|eligible excluded|]; cbn.
  - destruct (QueueEntry.new _ _ _ _ _) as [e|]; [|done]. cbn.
    destruct (enqueue q e) as [q'|] eqn:E; [|done]. cbn. by apply enqueue_new in E as (_ & _ & _ & _ & _ & ->).
  - unfold cancel. by destruct (dmem _ _).
  - destruct (contract _ _ _ _ _) as [[q' e]|] eqn:E; [|done]. cbn.
    apply contract_Ok in E as [old Hc]. apply Hc.
  - destruct (propose _ _ _) as [[sel|]|]; [|done..]. cbn.
    destruct (commit q sel) as [q'|] eqn:E; [|done]. cbn. by apply commit_Ok in E as (_ & _ & ->).
  - destruct (restore_snapshot q Hq) as (r & Hr & _ & _ & _ & _ & Hm). rewrite Hr. cbn. by rewrite Hm.
Qed.

Lemma step_not_granted o q q' e : step o q = (q', Granted e) →
  ∃ eligible excluded, o = Grant eligible excluded.
Proof.
  destruct o as [rid key tier weight legs|rid|rid tier weight legs|eligible excluded|]; cbn; eauto.
  - by destruct (_ ≫= _).
  - by destruct (cancel _ _).
  - by destruct (contract _ _ _ _ _) as [[]|].
  - by destruct (restore _).
Qed.

(** C36. The aging bound: in any run, with any calls in between, at most
    [max_consecutive_higher_grants] consecutive grants bypass a waiting lower
    tier (fewer, if some were already counted). *)
Theorem aging_bound ops q :
  wf q →
  all_grants (λ q1 eligible excluded e, bypasses q1 eligible excluded e = true) ops q →
  Z.of_nat (length (grants ops q)) ≤
    max_consecutive_higher_grants q - FairnessState.higher_grant_streak (fairness q).
Proof.
  revert q. induction ops as [|o ops IH]; intros q Hq Hall.
  { cbn. pose proof (fok_streak _ _ (wf_fair _ Hq)). lia. }
  pose proof (step_wf o q Hq) as Hq'. pose proof (step_streak q o _ Hq eq_refl) as Hs.
  pose proof (step_max o q Hq) as Hm.
  unfold grants, all_grants in *. cbn [trace] in *. destruct (step o q) as [q' r] eqn:E.
  cbn [fst snd] in Hq', Hs, Hm. apply Forall_cons in Hall as [Hh Hall'].
  specialize (IH q' Hq' Hall'). rewrite Hm in IH.
  destruct r as [| | |e| |]; try (destruct o; cbn in Hs; rewrite Hs in IH; exact IH).
  destruct o as [| | |el ex|]; try (by apply step_not_granted in E as (? & ? & ?)).
  rewrite Hh in Hs. rewrite Hs in IH.
  cbn [omap list_omap granted snd length] in IH |- *. lia.
Qed.

(** ** The class share *)

(** Both classes have an available request in the granted tier. *)
Definition contested (q : WDRRQueue) (eligible : QueueEntry → bool) (excluded : list string)
    (e : QueueEntry) : Prop :=
  ∀ c, c ∈ item_class <$> tier_of (available q eligible excluded) (QueueEntry.tier e).

(** Where a tier stands in the cycle SCARCE, SCARCE, FLEXIBLE. *)
Definition phase (q : WDRRQueue) (tier : Z) : nat :=
  match class_cursor (fairness q) tier with
  | Scarcity.FLEXIBLE => 2
  | Scarcity.SCARCE =>
      if class_deficit (fairness q) (tier, Scarcity.SCARCE) =? 0 then 0 else 1
  end.

Fixpoint share_cycle (n phase : nat) : list Scarcity :=
  match n with
  | O => []
  | S n => match phase with
           | 0%nat => Scarcity.SCARCE :: share_cycle n 1
           | 1%nat => Scarcity.SCARCE :: share_cycle n 2
           | _ => Scarcity.FLEXIBLE :: share_cycle n 0
           end
  end.

Lemma cap_class s k w x t : dicts_ok s →
  class_deficit (cap_key_deficit s k w) x = class_deficit s x ∧
  class_cursor (cap_key_deficit s k w) t = class_cursor s t.
Proof.
  intros Hd. unfold cap_key_deficit. rewrite decode_state_id by done.
  destruct (dget _ _) as [v|]; [|done]. destruct Hd.
  unfold class_deficit, class_cursor, dget_or. cbn. by rewrite !dget_sorted.
Qed.

Lemma step_phase q o q' r t : wf q → step o q = (q', r) → granted r = None → phase q' t = phase q t.
Proof.
  intros Hq. pose proof (fok_dicts _ _ (wf_fair _ Hq)) as Hd.
  destruct o as [rid key tier weight legs|rid|rid tier weight legs|eligible excluded|]; cbn.
  - destruct (QueueEntry.new _ _ _ _ _) as [e|]; cbn; [|by intros [= <- <-]].
    destruct (enqueue q e) as [q1|] eqn:E; cbn; intros [= <- <-]; [|done]. intros _.
    unfold phase. by apply enqueue_new in E as (_ & _ & _ & _ & -> & _).
  - unfold cancel. by destruct (dmem _ _); intros [= <- <-].
  - destruct (contract _ _ _ _ _) as [[q1 e]|] eqn:E; cbn; intros [= <- <-]; [|done]. intros _.
    apply contract_Ok in E as [old Hc]. unfold phase.
    destruct (con_fair _ _ _ _ _ Hc) as [->| ->]; [done|].
    destruct (cap_class (fairness q) (entry_key (Queued.entry old)) (QueueEntry.weight e)
      (t, Scarcity.SCARCE) t Hd) as [-> ->]. done.
  - destruct (propose _ _ _) as [[sel|]|]; cbn; [|by intros [= <- <-]..].
    destruct (commit q sel); cbn; by intros [= <- <-].
  - destruct (restore_snapshot q Hq) as (r1 & Hr & _ & Hf & _). rewrite Hr. cbn.
    intros [= <- <-] _. unfold phase. by rewrite Hf.
Qed.

(** A contested grant serves the class of the phase and advances it. *)
Lemma step_share q el ex q' e : wf q → step (Grant el ex) q = (q', Granted e) →
  contested q el ex e → ∀ n, QueueEntry.scarcity e :: share_cycle n (phase q' (QueueEntry.tier e)) =
                             share_cycle (S n) (phase q (QueueEntry.tier e)).
Proof.
  intros Hq Hs Hc n. pose proof (fok_dicts _ _ (wf_fair _ Hq)) as Hd.
  destruct (step_granted q el ex e Hq ltac:(by rewrite Hs)) as
    (sel & top & tier & cls & key & w & i & Hsel & -> & Hf).
  rewrite Hs in Hf. cbn [fst] in Hf.
  pose proof (selected_item _ _ _ _ _ _ _ _ _ Hsel) as (_ & Ht & Hcl & _).
  unfold contested, item_tier, item_class in *. rewrite Ht in *. rewrite Hcl. 
  assert (cls = class_cursor (fairness q) tier) as ->.
  { rewrite (sel_class _ _ _ _ _ _ _ _ _ Hsel). apply choose_class_spec; [|done].
    by eapply choices_nonempty, Hsel. }
  clear Hcl. unfold phase. rewrite Hf. destruct (sel_fair _ _ _ _ _ _ _ _ _ Hsel) as [f ->].
  match goal with |- context [encode_state (dset ?a ?b _) (dset ?c ?d _) (dset ?e ?g _) (dset ?h ?k _) ?m] =>
    destruct (granted_state (fairness q) a b c d e g h k m Hd) as (_ & Hcd & Hcc & _) end.
  rewrite Hcc, Hcd, !decide_True by done. clear Hcc Hcd.
  pose proof (fok_class _ _ (wf_fair _ Hq) tier) as Hb.
  pose proof (fok_cursor _ _ (wf_fair _ Hq) tier) as Hz.
  pose proof (Hb Scarcity.SCARCE) as Hb1. pose proof (Hb Scarcity.FLEXIBLE) as Hb2. cbn in Hb1, Hb2.
  destruct (class_cursor (fairness q) tier); cbn [Scarcity.quantum Scarcity.other].
  - rewrite decide_True by done. set (d := class_deficit _ _) in *.
    assert (d = 0 ∨ d = 1) as [-> | ->] by lia; done.
  - specialize (Hz eq_refl). rewrite decide_False by congruence. rewrite Hz.
    assert (class_deficit (fairness q) (tier, Scarcity.FLEXIBLE) = 0) as -> by lia. done.
Qed.

(** Scarce work gets exactly two of every three grants of a tier in which
    both classes have work: over any run whose grants are such, the classes
    granted follow the cycle SCARCE, SCARCE, FLEXIBLE from the tier's phase. *)
Theorem class_share ops q t :
  wf q →
  all_grants (λ q1 eligible excluded e,
    QueueEntry.tier e = t ∧ contested q1 eligible excluded e) ops q →
  QueueEntry.scarcity <$> grants ops q = share_cycle (length (grants ops q)) (phase q t).
Proof.
  revert q. induction ops as [|o ops IH]; intros q Hq Hall; [done|].
  pose proof (step_wf o q Hq) as Hq'. unfold grants, all_grants in *. cbn [trace] in *.
  destruct (step o q) as [q' r] eqn:E. cbn [fst] in Hq'.
  apply Forall_cons in Hall as [Hh Hall']. specialize (IH q' Hq' Hall').
  cbn [omap list_omap snd] in IH |- *. destruct (granted r) as [e|] eqn:Er.
  - destruct r; try done. injection Er as ->.
    destruct (step_not_granted _ _ _ _ E) as (el & ex & ->).
    destruct Hh as [<- Hc].
    cbn [fmap list_fmap length]. rewrite <-(step_share _ _ _ _ _ Hq E Hc).
    f_equal. exact IH.
  - rewrite <-(step_phase _ _ _ _ t Hq E Er). exact IH.
Qed.

(** The queue invariant: whatever calls are made on a new queue, request
    ids and sequence numbers stay unique, every class deficit stays below its
    quantum (2 or 1) and every key deficit in [0, 63], the streak never passes
    the aging bound, and the class cursor leaves SCARCE only with its deficit
    spent. *)
Theorem queue_invariant n q ops : init n = Ok q → wf (final ops q).
Proof. intros H. apply final_wf. by eapply wf_init. Qed.

(** [contract] only narrows a queued request and keeps its place: tier,
    weight and legs never grow, key, class and sequence are kept, and every
    other request is untouched. *)
Theorem contract_narrows q rid tier weight legs q' e :
  wf q → contract q rid tier weight legs = Ok (q', e) →
  ∃ old, contracted q rid q' e old ∧
    dget rid (queued q') = Some (Queued.mk e (Queued.sequence old)) ∧
    (∀ k, k ≠ rid → dget k (queued q') = dget k (queued q)) ∧ wf q'.
Proof.
  intros Hq (old & Hc)%contract_Ok. exists old. rewrite (con_queued _ _ _ _ _ Hc).
  split_and!; [done|apply dget_dset_eq| |by eapply wf_contract].
  intros k Hk. by apply dget_dset_ne.
Qed.

(** A selection is for the queue it was proposed on: once any other call
    has changed the queue, committing it raises and changes nothing. *)
Theorem stale_selection_rejected q eligible excluded sel o ops :
  wf q → propose q eligible excluded = Ok (Some sel) → o ≠ Restart →
  (step o q).1 ≠ q →
  commit (final ops (step o q).1) sel = Err (RuntimeError "stale WDRR selection").
Proof.
  intros Hq Hp Ho Hne.
  apply propose_selected in Hp as (_ & top & tier & cls & key & w & i & Hs); [|apply Hq].
  destruct (step_version o q Hq Ho) as [Hv|]; [|done].
  pose proof (final_version_le ops (step o q).1 (step_wf o q Hq)) as Hle.
  unfold commit. rewrite (sel_version _ _ _ _ _ _ _ _ _ Hs).
  destruct (version q =? _) eqn:E; [lia|done].
Qed.

(** Deterministic replay: a queue restored from a snapshot gives, for any
    sequence of calls, exactly the outcomes the original queue gives. *)
Theorem snapshot_replay q :
  wf q → ∃ q', restore (snapshot q) = Ok q' ∧
    ∀ ops, (λ p, p.2) <$> trace ops q = (λ p, p.2) <$> trace ops q'.
Proof.
  intros Hq. destruct (restore_snapshot q Hq) as (q' & Hr & Hrep).
  exists q'. split; [done|]. intros ops. clear Hr. revert q q' Hq Hrep.
  induction ops as [|o ops IH]; intros q q' Hq Hrep; [done|]. cbn [trace].
  pose proof (step_replayed o q q' Hq Hrep) as [Ho Hrep'].
  pose proof (step_wf o q Hq) as Hq1.
  destruct (step o q) as [q1 r1], (step o q') as [q2 r2]. cbn [fst snd] in *.
  cbn [fmap list_fmap snd]. subst. f_equal. by apply IH.
Qed.

(** Flexible work yields scarce accounts: a flexible request is left with
    exactly those of its accounts that no queued scarce request could use, a
    scarce request keeps all of its own. *)
Theorem scarce_accounts_protected q e accounts candidates a :
  a ∈ unprotected_accounts q e accounts candidates ↔
  a ∈ accounts ∧ (QueueEntry.scarcity e = Scarcity.FLEXIBLE →
    ∀ i, i ∈ items q → item_class i = Scarcity.SCARCE →
      a ∉ dget_or (item_id i) [] candidates).
Proof.
  unfold unprotected_accounts. case_bool_decide as Hs.
  { rewrite Hs. split; [|tauto]. by intros. }
  assert (QueueEntry.scarcity e = Scarcity.FLEXIBLE) as Hf by (by destruct (QueueEntry.scarcity e)).
  rewrite elem_of_Lfilter. bprop. unfold protected_scarce_accounts.
  rewrite elem_of_remove_dups, list_elem_of_bind. split.
  - intros [Hn Ha]. split; [done|]. intros _ i Hi Hc Hin. apply Hn. exists i.
    by rewrite bool_decide_true.
  - intros [Ha Hall]. split; [|done]. intros (i & Hin & Hi). case_bool_decide; [|by apply elem_of_nil in Hin].
    by apply (Hall Hf i).
Qed.

(** A test of every grant of a run, to evaluate [all_grants]. *)
Lemma all_grants_test (f : WDRRQueue → (QueueEntry → bool) → list string → QueueEntry → bool)
    (P : WDRRQueue → (QueueEntry → bool) → list string → QueueEntry → Prop) ops q :
  (∀ q1 eligible excluded e, f q1 eligible excluded e = true → P q1 eligible excluded e) →
  forallb (λ p, match p with
    | (q1, Grant eligible excluded, Granted e) => f q1 eligible excluded e
    | _ => true
    end) (trace ops q) = true →
  all_grants P ops q.
Proof.
  intros HP. unfold all_grants. induction (trace ops q) as [|[[q1 o] r] l IH]; cbn; [done|].
  intros [Hf Hl]%andb_true_iff. constructor; [|by apply IH].
  destruct o; try done. destruct r; try done. by apply HP.
Qed.

(** ** Witnesses: a queue with two tiers, both classes and two keys *)
Module QueueSamples.
Definition scarce : list AuthorizedLeg := [Samples.authorized "1" "1" 1 true].
Definition flexible : list AuthorizedLeg := Samples.two_legs true.
Definition arrivals : list op :=
  [Enqueue "r0" "k1" 0 2 scarce; Enqueue "r1" "k2" 0 1 flexible;
   Enqueue "r2" "k1" 0 2 scarce; Enqueue "r3" "k2" 0 1 flexible;
   Enqueue "r4" "k1" 0 2 scarce; Enqueue "r5" "k3" 1 1 flexible].
Definition anyone : op := Grant (λ _, true) [].
Definition start : WDRRQueue := mk 2 [] 0 0 FairnessState.empty.
Definition loaded : WDRRQueue := final arrivals start.
Lemma loaded_wf : wf loaded.
Proof. apply final_wf. apply (wf_init 2). reflexivity. Qed.
End QueueSamples.
Import QueueSamples.

Lemma propose_complete_witness :
  ∃ sel, propose loaded (λ _, true) [] = Ok (Some sel) ∧ is_ok (commit loaded sel) = true.
Proof.
  destruct (propose_complete loaded (λ _, true) [] loaded_wf) as [(r & Hr & Hn) Hc].
  destruct r as [sel|]; [eauto|]. exfalso.
  assert (available loaded (λ _, true) [] ≠ []) as Ha by (vm_compute; discriminate). tauto.
Defined.

Lemma propose_selects_witness :
  ∃ sel item, propose loaded (λ _, true) [] = Ok (Some sel) ∧
    QueueSelection.entry sel = Queued.entry item ∧ item ∈ items loaded.
Proof.
  destruct (propose loaded (λ _, true) []) as [[sel|]|] eqn:E.
  - destruct (propose_selects _ _ _ _ loaded_wf E) as (item & top & He & Hi & _). eauto.
  - exfalso. revert E. vm_compute. discriminate.
  - exfalso. revert E. vm_compute. discriminate.
Defined.

(** Two grants bypass the waiting lower tier, the bound of this queue. *)
Lemma aging_bound_witness :
  length (grants [anyone; anyone] loaded) = 2%nat ∧
  Z.of_nat (length (grants [anyone; anyone] loaded)) ≤ 2.
Proof.
  split; [by vm_compute|].
  eapply Z.le_trans; [apply (aging_bound [anyone; anyone] loaded loaded_wf)|].
  - apply (all_grants_test bypasses); [done|by vm_compute].
  - vm_compute. discriminate.
Defined.

(** With both classes waiting, three grants: scarce, scarce, flexible. *)
Lemma class_share_witness :
  QueueEntry.scarcity <$> grants [anyone; anyone; anyone]
    (final [Cancel "r5"] loaded) = [Scarcity.SCARCE; Scarcity.SCARCE; Scarcity.FLEXIBLE].
Proof.
  rewrite (class_share [anyone; anyone; anyone] (final [Cancel "r5"] loaded) 0).
  - by vm_compute.
  - apply final_wf, loaded_wf.
  - apply (all_grants_test (λ q1 el ex e, (QueueEntry.tier e =? 0) &&
      forallb (λ c, bool_decide (c ∈ item_class <$> tier_of (available q1 el ex)
        (QueueEntry.tier e))) [Scarcity.SCARCE; Scarcity.FLEXIBLE])); [|by vm_compute].
    intros q1 el ex e. cbn [forallb]. bprop. intros (Ht & Hs & Hf & _). split; [done|].
    by intros [].
Defined.

Lemma queue_invariant_witness : wf (final (arrivals ++ [anyone; Restart; anyone]) start).
Proof. apply (queue_invariant 2). reflexivity. Defined.

Lemma contract_narrows_witness :
  ∃ q' e, contract loaded "r1" (Some 1) (Some 1)
            (Some [Samples.authorized "1" "1" 1 false]) = Ok (q', e) ∧ wf q'.
Proof.
  destruct (contract loaded "r1" (Some 1) (Some 1)
    (Some [Samples.authorized "1" "1" 1 false])) as [[q' e]|] eqn:E.
  - destruct (contract_narrows _ _ _ _ _ _ _ loaded_wf E) as (old & _ & _ & _ & Hq). eauto.
  - exfalso. revert E. vm_compute. discriminate.
Defined.

Lemma stale_selection_rejected_witness :
  ∃ sel, propose loaded (λ _, true) [] = Ok (Some sel) ∧
    commit (final [] (step (Cancel "r5") loaded).1) sel =
      Err (RuntimeError "stale WDRR selection").
Proof.
  destruct (propose loaded (λ _, true) []) as [[sel|]|] eqn:E.
  - exists sel. split; [done|].
    apply (stale_selection_rejected loaded (λ _, true) []); [apply loaded_wf|exact E|done|].
    vm_compute. discriminate.
  - exfalso. revert E. vm_compute. discriminate.
  - exfalso. revert E. vm_compute. discriminate.
Defined.

Lemma snapshot_replay_witness :
  ∃ q', restore (snapshot loaded) = Ok q' ∧
    (λ p, p.2) <$> trace [anyone; anyone; anyone; anyone] q' =
    (λ p, p.2) <$> trace [anyone; anyone; anyone; anyone] loaded.
Proof.
  destruct (snapshot_replay loaded loaded_wf) as (q' & Hr & Ht).
  exists q'. split; [exact Hr|]. symmetry. apply Ht.
Defined.

(** ** A request the key rotation never reaches

    [WDRRQueue.propose] rotates between the keys of a class by their current
    oldest-request order: after a key spends its deficit the cursor moves to
    the next key of that order.  A key served moves behind the others, so with
    two other keys always backlogged the cursor alternates between those two
    and never returns to the key in front, whose request is the oldest of all. *)
Import WDRRQueue QueueRun.

Module Starvation.
Definition legs : list AuthorizedLeg := Samples.two_legs true.
Definition entry (rid key : string) : QueueEntry :=
  QueueEntry.mk rid key 0 1 legs Scarcity.FLEXIBLE.

(** Arrivals: two requests of key a, then keys b and c alternate for ever. *)
Definition arrival_key (k : nat) : string := if Nat.even k then "b" else "c".
Definition arrival_id (k : nat) : string := String.append "r" (pretty k).
Definition waiting_id : string := "a1".

Definition arrive (rid key : string) : op := Enqueue rid key 0 1 legs.
Definition everyone : op := Grant (λ _, true) [].

Definition opening : list op :=
  [arrive "a0" "a"; arrive waiting_id "a"; arrive (arrival_id 0) (arrival_key 0);
   arrive (arrival_id 1) (arrival_key 1); everyone].

(** [n] rounds of one grant followed by one arrival. *)
Fixpoint rounds (k n : nat) : list op :=
  match n with
  | O => []
  | S n => everyone :: arrive (arrival_id (2 + k)) (arrival_key (2 + k)) :: rounds (S k) n
  end.

Definition fair_state (cursor : string) : FairnessState :=
  let c : ClassKey := (0, Scarcity.FLEXIBLE) in
  {| FairnessState.class_deficits := [(c, 0)];
     FairnessState.class_cursors := [(0, Scarcity.SCARCE)];
     FairnessState.key_deficits := [((c, "a"%string), 0); ((c, "b"%string), 0); ((c, "c"%string), 0)];
     FairnessState.key_cursors := [(c, cursor)];
     FairnessState.higher_grant_streak := 0 |}.

(** The queue of round [k]: the waiting request, then one of each other key,
    the cursor on the older of them. *)
Definition queue_at (fair : FairnessState) (k : nat) (v : Z) (r1 k1 r2 k2 : string) : WDRRQueue :=
  {| max_consecutive_higher_grants := 64;
     queued := [(waiting_id, Queued.mk (entry waiting_id "a") 1);
                (r1, Queued.mk (entry r1 k1) (Z.of_nat k + 2));
                (r2, Queued.mk (entry r2 k2) (Z.of_nat k + 3))];
     next_sequence := Z.of_nat k + 4; version := v; fairness := fair |}.

Definition waiting : list Queued := [Queued.mk (entry waiting_id "a") 1].

(** The older of the two other keys comes second. *)
Lemma keys_at s1 s2 r1 r2 k1 k2 : 1 < s1 → s1 < s2 → NoDup ["a"%string; k1; k2] →
  ordered_keys (first_sequences
    (waiting ++ [Queued.mk (entry r1 k1) s1; Queued.mk (entry r2 k2) s2])) =
  ["a"%string; k1; k2].
Proof.
  intros H1 H2 Hn. assert (first_sequences
    (waiting ++ [Queued.mk (entry r1 k1) s1; Queued.mk (entry r2 k2) s2]) =
    [("a"%string, 1); (k1, s1); (k2, s2)]) as ->.
  { inversion Hn as [|? ? Ha Hn2]. inversion Hn2 as [|? ? Hb _]. subst.
    assert (k1 ≠ "a"%string ∧ k2 ≠ "a"%string ∧ k2 ≠ k1) as (? & ? & ?) by set_solver.
    unfold first_sequences. cbn. unfold dget_or. cbn.
    repeat (rewrite ?decide_False by congruence; cbn). by rewrite !Z.min_id. }
  unfold ordered_keys. apply sorted_by_id.
  inversion Hn as [|? ? Ha Hn2]. inversion Hn2 as [|? ? Hb _]. subst.
  assert (k1 ≠ "a"%string ∧ k2 ≠ "a"%string ∧ k2 ≠ k1) as (? & ? & ?) by set_solver.
  assert (dget_or "a" 0 [("a"%string, 1); (k1, s1); (k2, s2)] = 1 ∧
          dget_or k1 0 [("a"%string, 1); (k1, s1); (k2, s2)] = s1 ∧
          dget_or k2 0 [("a"%string, 1); (k1, s1); (k2, s2)] = s2) as (Ea & E1 & E2).
  { unfold dget_or. cbn. split_and!; repeat (case_decide; cbn); congruence. }
  unfold key_le, pair_leb. cbn [dkeys fmap list_fmap fst].
  repeat constructor; cbn [fst snd]; rewrite ?Ea, ?E1, ?E2, decide_False by lia; lia.
Qed.

(** Evaluate [propose] with the order of the keys given. *)
Ltac run_propose s1 s2 r1 r2 k1 k2 H1 H2 :=
  let Hk := fresh in let l := fresh in
  pose proof (keys_at s1 s2 r1 r2 k1 k2 H1 H2 ltac:(compute_done)) as Hk;
  match type of Hk with ordered_keys (first_sequences ?x) = _ => set (l := x) in Hk end;
  change (available _ _ _) with l; rewrite bool_decide_false by done;
  change (choose_tier _ l) with (Ok (0, 0) : result (Z * Z));
  cbn [mbind result_bind]; cbv zeta; change (tier_of l 0) with l;
  match goal with |- context [decode_state ?s] => change (decode_state s) with
    (FairnessState.class_deficits s, FairnessState.class_cursors s,
     FairnessState.key_deficits s, FairnessState.key_cursors s) end;
  cbv beta iota zeta; change (choose_class 2 _ _) with Scarcity.FLEXIBLE;
  change (class_of l Scarcity.FLEXIBLE) with l; rewrite Hk; reflexivity.

Lemma propose_at k v r1 r2 (b : bool) :
  let k1 : string := if b then "b" else "c" in
  let k2 : string := if b then "c" else "b" in
  propose (queue_at (fair_state k1) k v r1 k1 r2 k2) (λ _, true) [] =
  Ok (Some (QueueSelection.mk (entry r1 k1) v (fair_state k2))).
Proof.
  unfold propose, queue_at.
  set (s1 := Z.of_nat k + 2). set (s2 := Z.of_nat k + 3).
  assert (1 < s1 ∧ s1 < s2) as [H1 H2] by lia. clearbody s1 s2.
  destruct b; [run_propose s1 s2 r1 r2 "b" "c" H1 H2|run_propose s1 s2 r1 r2 "c" "b" H1 H2].
Qed.

Lemma new_entry rid (b : bool) :
  QueueEntry.new rid (if b then "b" else "c") 0 1 legs = Ok (entry rid (if b then "b" else "c")).
Proof. by destruct b. Qed.

Ltac run_decides :=
  repeat (first [rewrite decide_False by done|rewrite decide_True by done]; cbn).

(** One round: the older of b and c is granted, and arrives again. *)
Lemma round k v r1 r2 r3 (b : bool) :
  NoDup [waiting_id; r1; r2; r3] →
  let k1 : string := if b then "b" else "c" in
  let k2 : string := if b then "c" else "b" in
  ∃ q, step everyone (queue_at (fair_state k1) k v r1 k1 r2 k2) = (q, Granted (entry r1 k1)) ∧
    step (arrive r3 k1) q = (queue_at (fair_state k2) (S k) (2 + v) r2 k2 r3 k1, Done).
Proof.
  intros Hn k1 k2. pose proof (propose_at k v r1 r2 b) as Hp. cbv zeta in Hp. fold k1 k2 in Hp.
  assert (r1 ≠ waiting_id ∧ r2 ≠ waiting_id ∧ r2 ≠ r1 ∧ r3 ≠ waiting_id ∧ r3 ≠ r2)
    as (N1 & N2 & N3 & N4 & N5).
  { rewrite !NoDup_cons, !not_elem_of_cons in Hn. naive_solver. }
  eexists. split.
  - unfold everyone. cbn [step]. rewrite Hp. cbn [attempt]. unfold commit.
    rewrite raise_if_pass; [reflexivity|]. cbn. rewrite Z.eqb_refl. cbn.
    run_decides. by rewrite bool_decide_true.
  - unfold arrive. cbn [step]. pose proof (new_entry r3 b) as Hnew. fold k1 in Hnew. rewrite Hnew. cbn [mbind result_bind].
    unfold enqueue. rewrite raise_if_pass.
    + cbn. run_decides. unfold queue_at.
      replace (1 + (1 + v)) with (2 + v) by lia.
      replace (Z.of_nat (S k) + 2) with (Z.of_nat k + 3) by lia.
      replace (Z.of_nat (S k) + 3) with (Z.of_nat k + 4) by lia.
      by replace (Z.of_nat (S k) + 4) with (1 + (Z.of_nat k + 4)) by lia.
    + apply dmem_false. cbn. run_decides. done.
Qed.

Lemma arrival_ids_distinct k :
  NoDup [waiting_id; arrival_id k; arrival_id (1 + k); arrival_id (2 + k)].
Proof.
  assert (∀ i j, i ≠ j → arrival_id i ≠ arrival_id j) as Hne.
  { intros i j Hij Heq. unfold arrival_id in Heq. injection Heq as Heq.
    apply Hij. by apply (inj (pretty (A := nat))). }
  assert (∀ i, waiting_id ≠ arrival_id i) as Hw by done.
  rewrite !NoDup_cons, !not_elem_of_cons.
  split_and!; try apply Hw; try (apply Hne; lia); try apply not_elem_of_nil. constructor.
Qed.

Lemma rounds_grants n : ∀ k v,
  grants (rounds k n) (queue_at (fair_state (arrival_key k)) k v (arrival_id k) (arrival_key k)
    (arrival_id (1 + k)) (arrival_key (1 + k))) =
  (λ i, entry (arrival_id i) (arrival_key i)) <$> seq k n.
Proof.
  induction n as [|n IH]; intros k v; [done|].
  assert (arrival_key (1 + k) = if Nat.even k then "c"%string else "b"%string) as Hk1.
  { unfold arrival_key. rewrite Nat.even_succ, <-Nat.negb_even. by destruct (Nat.even k). }
  assert (arrival_key (2 + k) = arrival_key k) as Hk2 by done.
  destruct (round k v (arrival_id k) (arrival_id (1 + k)) (arrival_id (2 + k)) (Nat.even k)
    (arrival_ids_distinct k)) as (q & Hs1 & Hs2).
  cbv zeta in Hs1, Hs2. rewrite <-Hk1 in Hs1, Hs2. fold (arrival_key k) in Hs1, Hs2.
  unfold grants in *. cbn [rounds trace]. rewrite Hs1, Hk2. cbn [trace]. rewrite Hs2.
  cbn [omap list_omap granted snd seq fmap list_fmap]. f_equal.
  exact (IH (S k) (2 + v)).
Qed.
End Starvation.

(** C37. The key rotation can starve the oldest request.  With one request of
    key a waiting and one request of each of the keys b and c always queued,
    all of weight 1, in one tier and class, and every request eligible, the
    scheduler serves b and c for ever: for every [n] the grants are the first
    request of key a and then the [n] oldest arrivals of b and c, so the
    second request of key a, older than all of them, is never among them. *)
Theorem key_cursor_starves_oldest n q : init 64 = Ok q →
  grants (Starvation.opening ++ Starvation.rounds 0 n) q =
    Starvation.entry "a0" "a" ::
    ((λ i, Starvation.entry (Starvation.arrival_id i) (Starvation.arrival_key i)) <$> seq 0 n) ∧
  ∀ e, e ∈ grants (Starvation.opening ++ Starvation.rounds 0 n) q →
    QueueEntry.request_id e ≠ Starvation.waiting_id.
Proof.
  intros [= <-].
  match goal with |- ?l = ?r ∧ _ => assert (l = r) as Heq end.
  { destruct n as [|[|n]]; [reflexivity..|].
    pose proof (Starvation.rounds_grants n 2 9) as Hr. cbn [seq fmap list_fmap].
    rewrite <-Hr. vm_compute (Starvation.queue_at _ _ _ _ _ _ _). reflexivity. }
  split; [exact Heq|]. rewrite Heq.
  intros e [->|(i & -> & _)%list_elem_of_fmap]%elem_of_cons; done.
Qed.

Lemma key_cursor_starves_oldest_witness :
  length (grants (Starvation.opening ++ Starvation.rounds 0 100)
            (mk 64 [] 0 0 FairnessState.empty)) = 101%nat ∧
  Forall (λ e, QueueEntry.request_id e ≠ Starvation.waiting_id)
    (grants (Starvation.opening ++ Starvation.rounds 0 100) (mk 64 [] 0 0 FairnessState.empty)).
Proof.
  destruct (key_cursor_starves_oldest 100 (mk 64 [] 0 0 FairnessState.empty) eq_refl) as [Heq Hn].
  split; [by rewrite Heq|]. apply Forall_forall. exact Hn.
Defined.
