(* ===== verification/Journal.v ===== *)
(** * The attempt journal

    [gateway/journal.py] as the runtime sees it: a log of typed records, each
    carrying the digest of its predecessor, whose append is durable before it
    returns, kept in segment files that checkpoints compact.  The payload
    dictionaries of the source are the constructors of [Payload], one per entry
    of [_RECORD_FIELDS], with the same fields.  The writer thread and fsync are
    the environment: [writer] holds its future answers, and [JournalIO] what
    the journal reads of the disk and the clock.  SHA-256 over the
    canonical JSON of a record is the parameter [record_digest]. *)
From S2P Require Export Ids.
From Stdlib Require Import Ascii.

Module JournalStatus.
Inductive t := HEALTHY | ADMISSION_STOP | RECOVERY_REQUIRED | CLOSED.
#[global] Instance eq_dec : EqDecision t.
Proof. solve_decision. Defined.
Definition value (s : t) : string :=
  match s with
  | HEALTHY => "healthy" | ADMISSION_STOP => "admission_stop"
  | RECOVERY_REQUIRED => "recovery_required" | CLOSED => "closed"
  end.
End JournalStatus.
Abbreviation JournalStatus := JournalStatus.t.

Module JournalReceipt.
Record t := mk { durable_lsn : Z; record_digest : string }.
#[global] Instance eq_dec : EqDecision t.
Proof. solve_decision. Defined.
End JournalReceipt.
Abbreviation JournalReceipt := JournalReceipt.t.

Module DurableReservation.
Record t := mk {
  request_id : string;
  attempt_id : string;
  account_id : string;
  leg_id : string;
  deployment_generation_id : string;
  installation_id : string;
  bundle_generation : Z;
  bundle_hash : string;
  fence_token : Z;
  boot_id : string;
  deadline_at_ms : Z;
  profile_digest : string;
  started_at_ms : Z;
  reserved_tokens : Z;
  quota_units : Z;
  monthly_reset_at_ms : Z;
  circuit_epoch : Z;
  account_circuit_epoch : Z;
  circuit_probe_id : option string;
  account_circuit_probe_id : option string;
}.
#[global] Instance eq_dec : EqDecision t.
Proof. solve_decision. Defined.
End DurableReservation.
Abbreviation DurableReservation := DurableReservation.t.

(** Scalars of the JSON payloads. *)
Inductive JsonScalar :=
| JInt (z : Z)
| JStr (s : string)
| JBool (b : bool)
| JNull.

Module Payload.
Inductive t :=
| account_registered (account_id binding_digest credential_attestation_digest : string)
    (credential_epoch : Z) (state : string)
| attempt_reserved (r : DurableReservation)
| attempt_dispatched (attempt_id : string) (dispatched_at_ms : Z)
| attempt_uncertain (attempt_id reason : string)
| attempt_resolved (attempt_id outcome : string) (release_capacity : bool)
    (actual_starts actual_token_units actual_quota_units : option Z)
    (resolution_digest : string) (resolved_at_ms : Z)
| circuit_updated (account_id : string) (deployment_generation_id : option string)
    (scope state : string) (cause : option string) (opened_at_ms backoff_step : Z)
    (evidence_digest : option string) (epoch retry_at_ms : Z) (probe_id : option string)
| authoritative_active_count (account_id : string) (active_count : Z)
| recovery_probe_started (account_id probe_id : string)
| recovery_probe_finished (account_id probe_id classification : string).
#[global] Instance eq_dec : EqDecision t.
Proof. solve_decision. Defined.

Definition opt_str (o : option string) : JsonScalar := from_option JStr JNull o.
Definition opt_int (o : option Z) : JsonScalar := from_option JInt JNull o.

Definition reservation_values (r : DurableReservation) : list JsonScalar :=
  (JStr <$> [DurableReservation.request_id r; DurableReservation.attempt_id r;
             DurableReservation.account_id r; DurableReservation.leg_id r;
             DurableReservation.deployment_generation_id r;
             DurableReservation.installation_id r; DurableReservation.bundle_hash r;
             DurableReservation.boot_id r; DurableReservation.profile_digest r]) ++
  (JInt <$> [DurableReservation.bundle_generation r; DurableReservation.fence_token r;
             DurableReservation.deadline_at_ms r; DurableReservation.started_at_ms r;
             DurableReservation.reserved_tokens r; DurableReservation.quota_units r;
             DurableReservation.monthly_reset_at_ms r; DurableReservation.circuit_epoch r;
             DurableReservation.account_circuit_epoch r]) ++
  [opt_str (DurableReservation.circuit_probe_id r);
   opt_str (DurableReservation.account_circuit_probe_id r)].

(** The values of the payload object. *)
Definition values (p : t) : list JsonScalar :=
  match p with
  | account_registered a b c e s => [JStr a; JStr b; JStr c; JInt e; JStr s]
  | attempt_reserved r => reservation_values r
  | attempt_dispatched a d => [JStr a; JInt d]
  | attempt_uncertain a r => [JStr a; JStr r]
  | attempt_resolved a o r s t q d m =>
      [JStr a; JStr o; JBool r; opt_int s; opt_int t; opt_int q; JStr d; JInt m]
  | circuit_updated a g sc st c o b e ep r p =>
      [JStr a; opt_str g; JStr sc; JStr st; opt_str c; JInt o; JInt b; opt_str e;
       JInt ep; JInt r; opt_str p]
  | authoritative_active_count a n => [JStr a; JInt n]
  | recovery_probe_started a p => [JStr a; JStr p]
  | recovery_probe_finished a p c => [JStr a; JStr p; JStr c]
  end.
End Payload.
Abbreviation Payload := Payload.t.

(** [_SAFE_WORDS] *)
Definition SAFE_WORDS : list string :=
  ["active"; "available"; "capacity_exhausted"; "capacity"; "account"; "deployment";
   "client_cancelled"; "closed"; "auth_state_unavailable"; "authz_denied";
   "backpressure_rejected"; "completed"; "crash_recovery"; "deadline_exceeded"; "manual";
   "disabled"; "draft"; "half_open"; "inconclusive"; "open"; "response_stream_failed";
   "tombstoned"; "quota"; "transient_failure"; "route_unavailable"; "unsupported_request";
   "upstream_failed"; "uncertain"; "upstream_unknown"]%string.

Definition SAFE_ID_PREFIXES : list string :=
  ["acc_"; "att_"; "boot_"; "inst_"; "leg_"; "probe_"; "req_"]%string.

(** [_ZERO_DIGEST] *)
Definition ZERO_DIGEST : string :=
  "0000000000000000000000000000000000000000000000000000000000000000".

Definition MAX_INT : Z := 2 ^ 63 - 1.

(** [[0-9a-f-]{lo,hi}] *)
Definition hex_or_dash (c : ascii) : bool := hex_class c || Ascii.eqb c "-".
Definition safe_body (cs : list ascii) : bool :=
  forallb hex_or_dash cs && (32 <=? Z.of_nat (length cs)) && (Z.of_nat (length cs) <=? 36).

(** The text after the first matching prefix. *)
Fixpoint strip_prefix (p s : list ascii) : option (list ascii) :=
  match p, s with
  | [], _ => Some s
  | a :: p, b :: s => if Ascii.eqb a b then strip_prefix p s else None
  | _ :: _, [] => None
  end.

Definition is_safe_id (s : string) : bool :=
  existsb (λ p, match strip_prefix (String.list_ascii_of_string p)
                        (String.list_ascii_of_string s) with
                | Some body => safe_body body | None => false end) SAFE_ID_PREFIXES ||
  fullmatch (literal "dg1_" ++ HEX64_PATTERN) s ||
  fullmatch (literal "bh_" ++ HEX64_PATTERN) s.

Definition is_safe_digest (s : string) : bool :=
  fullmatch (literal "sha256:" ++ HEX64_PATTERN) s || fullmatch HEX64_PATTERN s.

(** [_validate_safe_value] on a scalar. *)
Definition safe_scalar (v : JsonScalar) : result unit :=
  match v with
  | JNull | JBool _ => mret tt
  | JInt z => raise_if ((z <? 0) || (MAX_INT <? z)) (ValueError "journal integer is out of range")
  | JStr s =>
      raise_if ((180 <? Z.of_nat (String.length s)) ||
                negb (is_safe_id s || is_safe_digest s || bool_decide (s ∈ SAFE_WORDS)))
        (ValueError "journal strings must be bounded IDs, digests, or reasons")
  end.

Fixpoint first_error {A} (f : A → result unit) (l : list A) : result unit :=
  match l with [] => mret tt | x :: l => f x;; first_error f l end.

Definition validate_payload (p : Payload) : result unit :=
  first_error safe_scalar (Payload.values p).

Module JournalRecord.
Record t := mk {
  sequence : Z;
  payload : Payload;
  previous_digest : string;
  digest : string;
}.
#[global] Instance eq_dec : EqDecision t.
Proof. solve_decision. Defined.
End JournalRecord.
Abbreviation JournalRecord := JournalRecord.t.

(** What the disk and the writer thread do with one command.  [rotate]: the
    open segment has no room for the record.  A failed write may have reached
    the disk before it failed. *)
Inductive WriterOutcome :=
| Written (rotate : bool)
| QueueFull
| WriterFailed (durable : bool).

(** What the journal reads of the disk and the clock while it answers a call. *)
Module JournalIO.
Record t := mk {
  capacity_exhausted : bool;   (* _admission_capacity_exhausted() *)
  reservation_fits : bool;     (* journal_bytes + payload + 512 <= 80 % *)
  now_ms : Z;
}.
End JournalIO.
Abbreviation JournalIO := JournalIO.t.

(** One [segment-<start>.jsonl]. *)
Module Segment.
Record t := mk { start : Z; records : list JournalRecord }.
End Segment.
Abbreviation Segment := Segment.t.

(** One retained [checkpoint-*.json]. *)
Module Checkpoint.
Record t (Snapshot : Type) := mk {
  sequence : Z;
  last_record_digest : string;
  snapshot : Snapshot;
}.
Arguments mk {_}.
Arguments sequence {_}.
Arguments last_record_digest {_}.
Arguments snapshot {_}.
End Checkpoint.
Abbreviation Checkpoint := Checkpoint.t.

Module JournalRecovery.
Record t (Snapshot : Type) := mk {
  status : JournalStatus;
  reason : option string;
  checkpoint : option Snapshot;
  records : list JournalRecord;
  checkpoint_sequence : Z;
  last_sequence : Z;
  last_digest : string;
  replayed_records : Z;
  verified_checkpoints : Z;
}.
Arguments mk {_}.
Arguments status {_}.
Arguments reason {_}.
Arguments checkpoint {_}.
Arguments records {_}.
Arguments checkpoint_sequence {_}.
Arguments last_sequence {_}.
Arguments last_digest {_}.
Arguments replayed_records {_}.
Arguments verified_checkpoints {_}.

(** [_failed_recovery] *)
Definition failed {Snapshot} (why : string) : t Snapshot :=
  mk JournalStatus.RECOVERY_REQUIRED (Some why) None [] 0 0 ZERO_DIGEST 0 0.
End JournalRecovery.
Abbreviation JournalRecovery := JournalRecovery.t.

(** The journal's client names its snapshots' type and the check
    [_validate_safe_value] makes of their JSON. *)
Class SafeSnapshot (Snapshot : Type) := validate_snapshot : Snapshot → result unit.

Module AttemptJournal.
Section Journal.
Context {Snapshot : Type} {safe : SafeSnapshot Snapshot}.
Context (record_digest : Z → Payload → string → string).

(** [records] is the history of every durable record, which the files only
    keep from the older retained checkpoint on. *)
Record t := mk {
  checkpoint_every_records : Z;
  checkpoint_every_ms : Z;
  max_replay_records : Z;
  closed : bool;
  base_status : JournalStatus;
  reason : option string;
  last_sequence : Z;
  last_digest : string;
  records_since_checkpoint : Z;
  last_checkpoint_ms : Z;
  checkpoints : list (Checkpoint Snapshot);
  segments : list Segment;
  segment_open : bool;
  manifest : Z * string;
  records : list JournalRecord;
  writer : list WriterOutcome;
}.

(** [health.status] *)
Definition status (io : JournalIO) (j : t) : JournalStatus :=
  if closed j then JournalStatus.CLOSED
  else if bool_decide (base_status j = JournalStatus.RECOVERY_REQUIRED)
  then JournalStatus.RECOVERY_REQUIRED
  else if JournalIO.capacity_exhausted io then JournalStatus.ADMISSION_STOP
  else JournalStatus.HEALTHY.

Definition checkpoint_due (io : JournalIO) (j : t) : bool :=
  (checkpoint_every_records j <=? records_since_checkpoint j) ||
  (checkpoint_every_ms j <=? JournalIO.now_ms io - last_checkpoint_ms j).

Definition records_until_checkpoint (j : t) : Z :=
  Z.max 0 (checkpoint_every_records j - records_since_checkpoint j).

Definition unavailable (j : t) : exn :=
  JournalUnavailable (default (JournalStatus.value (base_status j)) (reason j)).

Definition is_writable (j : t) : bool :=
  negb (closed j) && bool_decide (base_status j = JournalStatus.HEALTHY).

(** ** The writer

    The record of one iteration of [_write_append_batch] becomes the new head
    of the digest chain. *)
Definition next_record (p : Payload) (j : t) : JournalRecord :=
  let sequence := last_sequence j + 1 in
  JournalRecord.mk sequence p (last_digest j) (record_digest sequence p (last_digest j)).

(** [_ensure_segment], then the write: the record goes to the open segment, or
    to a new one named after it. *)
Fixpoint append_last (r : JournalRecord) (l : list Segment) : list Segment :=
  match l with
  | [] => []
  | [s] => [s{{ Segment.records ::= λ rs, rs ++ [r] }}]
  | s :: l => s :: append_last r l
  end.

Definition store (rotate : bool) (r : JournalRecord) (j : t) : t :=
  if segment_open j && negb rotate
  then j{{ segments ::= append_last r }}
  else j{{ segments ::= λ l, l ++ [Segment.mk (JournalRecord.sequence r) [r]];
           segment_open := true }}.

Definition written (rotate : bool) (r : JournalRecord) (j : t) : t :=
  (store rotate r j){{ last_sequence := JournalRecord.sequence r;
      last_digest := JournalRecord.digest r;
      records ::= λ l, l ++ [r] }}.

(** The manifest and the counter, after the batch is synced. *)
Definition acknowledged (j : t) : t :=
  j{{ manifest := (last_sequence j, last_digest j);
      records_since_checkpoint ::= λ n, n + 1 }}.

Definition writer_failed (j : t) : t :=
  j{{ base_status := JournalStatus.RECOVERY_REQUIRED; reason := Some "writer_failed"%string;
      segment_open := false }}.

(** [_append]: validate, hand over to the writer, wait for its answer. *)
Definition append (p : Payload) : M t JournalRecord :=
  lift (validate_payload p);;
  j ← get;
  if negb (is_writable j) then raise (unavailable j)
  else
    let r := next_record p j in
    let answer := default (Written false) (head (writer j)) in
    modify (λ j, j{{ writer ::= tail }});;
    match answer with
    | Written rotate => modify (written rotate r);; modify acknowledged;; mret r
    | QueueFull => raise (JournalUnavailable "writer_queue_full")
    | WriterFailed durable =>
        modify (λ j, writer_failed (if durable then written false r j else j));;
        raise (JournalUnavailable "writer_failed")
    end.

Definition receipt (r : JournalRecord) : JournalReceipt :=
  JournalReceipt.mk (JournalRecord.sequence r) (JournalRecord.digest r).

Definition reserve_before_send (io : JournalIO) (r : DurableReservation) : M t JournalReceipt :=
  j ← get;
  let health := status io j in
  if negb (bool_decide (health = JournalStatus.HEALTHY))
  then raise (JournalUnavailable (JournalStatus.value health))
  else if negb (JournalIO.reservation_fits io)
  then raise (JournalUnavailable (JournalStatus.value JournalStatus.ADMISSION_STOP))
  else record ← append (Payload.attempt_reserved r); mret (receipt record).

(** The other calls append their payload; those that return a receipt: *)
Definition append_receipt (p : Payload) : M t JournalReceipt :=
  record ← append p; mret (receipt record).

(** ** Checkpoints *)

(** [_compact_segments]: a segment but the last is deleted when the next one
    starts at or before the record after [safe_sequence]. *)
Fixpoint compact (safe_sequence : Z) (l : list Segment) : list Segment :=
  match l with
  | s :: (s' :: _) as rest =>
      if safe_sequence <? Segment.start s' - 1
      then s :: compact safe_sequence rest else compact safe_sequence rest
  | l => l
  end.

Definition compact_segments (safe_sequence : Z) (j : t) : t :=
  j{{ segment_open := false; segments ::= compact safe_sequence }}.

(** [while len(checkpoints) > 2: checkpoints.pop(0)] *)
Definition newest_two {A} (l : list A) : list A := drop (length l - 2) l.

(** [_write_checkpoint] once the file is in place. *)
Definition checkpointed (now_ms : Z) (snapshot : Snapshot) (j : t) : t :=
  let j := j{{ checkpoints ::= λ l, newest_two
                 (l ++ [Checkpoint.mk (last_sequence j) (last_digest j) snapshot]);
               records_since_checkpoint := 0;
               last_checkpoint_ms := now_ms }} in
  match checkpoints j with
  | [older; _] => compact_segments (Checkpoint.sequence older) j
  | _ => j
  end.

(** [_checkpoint].  A failed write may leave the file in place, unpruned. *)
Definition write_checkpoint (io : JournalIO) (snapshot : Snapshot) : M t unit :=
  lift (validate_snapshot snapshot);;
  j ← get;
  if negb (is_writable j) then raise (unavailable j)
  else
    let answer := default (Written false) (head (writer j)) in
    modify (λ j, j{{ writer ::= tail }});;
    match answer with
    | Written _ => modify (checkpointed (JournalIO.now_ms io) snapshot)
    | QueueFull => raise (JournalUnavailable "writer_queue_full")
    | WriterFailed durable =>
        modify (λ j, writer_failed
          (if durable
           then j{{ checkpoints ::= λ l,
                      l ++ [Checkpoint.mk (last_sequence j) (last_digest j) snapshot] }}
           else j));;
        raise (JournalUnavailable "writer_failed")
    end.

Definition force_checkpoint : JournalIO → Snapshot → M t unit := write_checkpoint.
Definition maybe_checkpoint (io : JournalIO) (snapshot : Snapshot) : M t bool :=
  j ← get;
  if negb (checkpoint_due io j) then mret false
  else write_checkpoint io snapshot;; mret true.

Definition enter_recovery_required (why : string) (j : t) : t :=
  j{{ base_status := JournalStatus.RECOVERY_REQUIRED; reason := Some why }}.

Definition close (j : t) : t := j{{ closed := true }}.

(** ** Recovery

    The record loop of [_recover] over the decoded records of the segments, in
    file order: [_decode_record] checks the payload and the digest, records
    the checkpoint covers are skipped, the others must continue the chain. *)
Definition decode_record (r : JournalRecord) : result JournalRecord :=
  raise_if (JournalRecord.sequence r <? 1) (ValueError "journal record values are invalid");;
  validate_payload (JournalRecord.payload r);;
  raise_if (negb (bool_decide (JournalRecord.digest r =
      record_digest (JournalRecord.sequence r) (JournalRecord.payload r)
        (JournalRecord.previous_digest r))))
    (ValueError "journal record digest is invalid");;
  mret r.

Fixpoint replay_records (checkpoint_sequence expected : Z) (previous : string)
    (budget : nat) (rs : list JournalRecord) : result (list JournalRecord) :=
  match rs with
  | [] => mret []
  | raw :: rs =>
      r ← decode_record raw;
      if JournalRecord.sequence r <=? checkpoint_sequence
      then replay_records checkpoint_sequence expected previous budget rs
      else
        raise_if (negb (JournalRecord.sequence r =? expected) ||
                  negb (bool_decide (JournalRecord.previous_digest r = previous)))
          (ValueError "journal sequence or digest chain gap");;
        match budget with
        | O => Err (TimeoutError "replay_record_bound_exceeded")
        | S budget =>
            rest ← replay_records checkpoint_sequence (expected + 1)
                     (JournalRecord.digest r) budget rs;
            mret (r :: rest)
        end
  end.

(** The [try] block of [_recover] over the files: [files] counts the
    checkpoint files, [readable] holds those that [_read_checkpoint] accepts,
    oldest first. *)
Definition recover_files (files : nat) (readable : list (Checkpoint Snapshot)) (budget : nat)
    (manifest : Z * string) (rs : list JournalRecord) : result (JournalRecovery Snapshot) :=
  raise_if (negb (Nat.eqb files 0) && Nat.eqb (length readable) 0)
    (ValueError "all retained checkpoints are invalid");;
  let checkpoint := last readable in
  let checkpoint_sequence := default 0 (Checkpoint.sequence <$> checkpoint) in
  let checkpoint_digest := default ZERO_DIGEST (Checkpoint.last_record_digest <$> checkpoint) in
  replayed ← replay_records checkpoint_sequence (checkpoint_sequence + 1) checkpoint_digest
               budget rs;
  let last_sequence := checkpoint_sequence + Z.of_nat (length replayed) in
  let previous := default checkpoint_digest (JournalRecord.digest <$> last replayed) in
  raise_if (last_sequence <? manifest.1)
    (ValueError "manifest high-water exceeds durable journal");;
  raise_if ((manifest.1 =? last_sequence) && negb (bool_decide (manifest.2 = previous)))
    (ValueError "manifest digest disagrees with durable journal");;
  mret (JournalRecovery.mk JournalStatus.HEALTHY None (Checkpoint.snapshot <$> checkpoint)
          replayed checkpoint_sequence last_sequence previous
          (Z.of_nat (length replayed)) (Z.min 2 (Z.of_nat (length readable)))).

(** [_recover]: its exceptions become a failed recovery. *)
Definition recover (files : nat) (readable : list (Checkpoint Snapshot)) (budget : nat)
    (manifest : Z * string) (rs : list JournalRecord) : JournalRecovery Snapshot :=
  match recover_files files readable budget manifest rs with
  | Ok r => r
  | Err (TimeoutError _) => JournalRecovery.failed "replay_record_bound_exceeded"
  | Err _ => JournalRecovery.failed "corrupt_journal"
  end.

(** What the segment files hold. *)
Definition stored (j : t) : list JournalRecord := concat (Segment.records <$> segments j).

(** ** Opening *)
Definition check_limits (every_records every_ms : Z) : result unit :=
  raise_if ((every_records <? 1) || (every_ms <? 1))
    (ValueError "checkpoint intervals must be positive").

(** A journal created in an empty directory. *)
Definition create (every_records every_ms max_replay clock_ms : Z) (writer : list WriterOutcome) : t :=
  mk every_records every_ms max_replay false JournalStatus.HEALTHY None 0 ZERO_DIGEST 0 clock_ms
    [] [] false (0, ZERO_DIGEST) [] writer.

(** A journal opened on the files [j] left, with the outcome of [_recover]. *)
Definition reopen (r : JournalRecovery Snapshot) (clock_ms : Z) (writer : list WriterOutcome)
    (j : t) : t :=
  mk (checkpoint_every_records j) (checkpoint_every_ms j) (max_replay_records j)
    false (JournalRecovery.status r) (JournalRecovery.reason r)
    (JournalRecovery.last_sequence r) (JournalRecovery.last_digest r)
    (JournalRecovery.last_sequence r - JournalRecovery.checkpoint_sequence r) clock_ms
    (checkpoints j) (segments j) false (manifest j) (records j) writer.
End Journal.
#[global] Arguments t : clear implicits.
End AttemptJournal.
Abbreviation AttemptJournal := AttemptJournal.t.
