(* ===== verification/JournalFacts.v ===== *)
(** * Facts of the journal

    What an append does, the digest chain the log keeps, and what recovery
    accepts. *)
From S2P Require Export Journal.

Module AppendFacts.
Import AttemptJournal.
Section Append.
Context {Snapshot : Type} {safe : SafeSnapshot Snapshot} (rd : Z → Payload → string → string).
Implicit Types j : AttemptJournal Snapshot.

(** An append that returns. *)
Record appended (p : Payload) (j j' : AttemptJournal Snapshot) (r : JournalRecord) : Prop := {
  app_valid : validate_payload p = Ok tt;
  app_writable : is_writable j = true;
  app_record : r = next_record rd p j;
  app_records : records j' = records j ++ [r];
  app_sequence : last_sequence j' = JournalRecord.sequence r;
  app_digest : last_digest j' = JournalRecord.digest r;
  app_status : base_status j' = base_status j ∧ closed j' = closed j ∧ reason j' = reason j;
  app_checkpoints : checkpoints j' = checkpoints j;
}.

(** The writer's answer consumed. *)
Definition popped (j : AttemptJournal Snapshot) : AttemptJournal Snapshot :=
  j{{ writer ::= tail }}.

Lemma append_eq p j : append rd p j =
  match validate_payload p with
  | Err e => (j, Err e)
  | Ok _ =>
      if is_writable j then
        let r := next_record rd p j in
        match default (Written false) (head (writer j)) with
        | Written rotate => (acknowledged (written rotate r (popped j)), Ok r)
        | QueueFull => (popped j, Err (JournalUnavailable "writer_queue_full"))
        | WriterFailed durable =>
            (writer_failed (if durable then written false r (popped j) else popped j),
             Err (JournalUnavailable "writer_failed"))
        end
      else (j, Err (unavailable j))
  end.
Proof.
  unfold append, lift, mbind, M_bind, get, modify. destruct (validate_payload p); [|done].
  destruct (is_writable j); [|done]. cbn [negb].
  by destruct (default (Written false) (head (writer j))) as [| |[]].
Qed.

(** The branches of an append, from its equation. *)
Ltac append_cases p j Ev Ew Ea :=
  rewrite append_eq; destruct (validate_payload p) as [[]|] eqn:Ev;
    [destruct (is_writable j) eqn:Ew;
      [cbv zeta; destruct (default (Written false) (head (writer j))) as [rot| |[]] eqn:Ea|]|].

(** [written] on the fields that say what is durable. *)
Lemma written_fields rotate r j :
  records (written rotate r j) = records j ++ [r] ∧
  last_sequence (written rotate r j) = JournalRecord.sequence r ∧
  last_digest (written rotate r j) = JournalRecord.digest r ∧
  checkpoints (written rotate r j) = checkpoints j ∧
  manifest (written rotate r j) = manifest j ∧
  base_status (written rotate r j) = base_status j ∧ closed (written rotate r j) = closed j ∧
  reason (written rotate r j) = reason j.
Proof. unfold written, store. destruct (_ && _); by destruct j. Qed.

Lemma append_Ok p j j' r : append rd p j = (j', Ok r) → appended p j j' r.
Proof.
  append_cases p j Ev Ew Ea; intros H; [|discriminate H..].
  injection H as <- <-.
  destruct (written_fields rot (next_record rd p j) (popped j)) as (A & B & C & D & E & F & G & I).
  set (w := written rot (next_record rd p j) (popped j)) in *.
  split; try done; destruct w, j; cbn in *; subst; done.
Qed.

Lemma stopped_writer_failed j : is_writable (writer_failed j) = false.
Proof. unfold is_writable. destruct j. cbn. apply andb_false_r. Qed.

(** An append that raises changes no record, or closes the journal to every
    later append, having written at most the one record. *)
Lemma append_Err p j j' e : append rd p j = (j', Err e) →
  (is_writable j' = false ∧ ∃ extra, records j' = records j ++ extra ∧ (length extra ≤ 1)%nat) ∨
  (records j' = records j ∧ last_sequence j' = last_sequence j ∧
   last_digest j' = last_digest j ∧ (is_writable j' = true → is_writable j = true)).
Proof.
  append_cases p j Ev Ew Ea; intros H; [discriminate H|injection H as <- _..].
  - right. by destruct j.
  - left. split; [apply stopped_writer_failed|].
    exists [next_record rd p j]. split; [|cbn; lia].
    destruct (written_fields false (next_record rd p j) (popped j)) as (A & _).
    destruct (written false (next_record rd p j) (popped j)). cbn in *. rewrite A. by destruct j.
  - left. split; [apply stopped_writer_failed|].
    exists []. rewrite app_nil_r. split; [by destruct j|cbn; lia].
  - left. split; [done|]. exists []. rewrite app_nil_r. split; [done|cbn; lia].
  - by right.
Qed.

(** The digest chain from a sequence number and digest. *)
Fixpoint linked (s : Z) (d : string) (rs : list JournalRecord) : Prop :=
  match rs with
  | [] => True
  | r :: rs =>
      JournalRecord.sequence r = s + 1 ∧ JournalRecord.previous_digest r = d ∧
      JournalRecord.digest r = rd (s + 1) (JournalRecord.payload r) d ∧
      validate_payload (JournalRecord.payload r) = Ok tt ∧
      linked (s + 1) (JournalRecord.digest r) rs
  end.

(** The digest at the end of a chain. *)
Definition chain_end (d : string) (rs : list JournalRecord) : string :=
  default d (JournalRecord.digest <$> last rs).

#[local] Arguments chain_end : simpl never.

Lemma chain_end_cons d r rs : chain_end d (r :: rs) = chain_end (JournalRecord.digest r) rs.
Proof. unfold chain_end. rewrite last_cons. by destruct (last rs). Qed.

Lemma chain_end_app d rs1 rs2 : chain_end d (rs1 ++ rs2) = chain_end (chain_end d rs1) rs2.
Proof.
  unfold chain_end. destruct rs2 as [|r rs2 _] using rev_ind; [by rewrite app_nil_r|].
  by rewrite (assoc_L (++)), !last_snoc.
Qed.

Lemma linked_app s d rs1 rs2 : linked s d (rs1 ++ rs2) ↔
  linked s d rs1 ∧ linked (s + Z.of_nat (length rs1)) (chain_end d rs1) rs2.
Proof.
  revert s d. induction rs1 as [|r rs1 IH]; intros s d; cbn [app linked length].
  { rewrite Z.add_0_r. tauto. }
  rewrite chain_end_cons, IH.
  replace (s + Z.of_nat (S (length rs1))) with (s + 1 + Z.of_nat (length rs1)) by lia. tauto.
Qed.

(** Segments that follow each other, the first starting at [start]. *)
Fixpoint seg_chain (start : Z) (l : list Segment) : Prop :=
  match l with
  | [] => True
  | s :: l => Segment.start s = start ∧
      seg_chain (start + Z.of_nat (length (Segment.records s))) l
  end.

Definition seg_records (l : list Segment) : list JournalRecord := concat (Segment.records <$> l).

Lemma seg_records_snoc l s : seg_records (l ++ [s]) = seg_records l ++ Segment.records s.
Proof. unfold seg_records. rewrite fmap_app, concat_app. cbn. by rewrite app_nil_r. Qed.

Lemma seg_chain_app start l l' : seg_chain start (l ++ l') ↔
  seg_chain start l ∧ seg_chain (start + Z.of_nat (length (seg_records l))) l'.
Proof.
  unfold seg_records. revert start. induction l as [|s l IH]; intros start; cbn.
  { rewrite Z.add_0_r. tauto. }
  rewrite IH, length_app, Nat2Z.inj_add, Z.add_assoc. tauto.
Qed.

Lemma append_last_snoc r l s :
  append_last r (l ++ [s]) = l ++ [s{{ Segment.records ::= λ rs, rs ++ [r] }}].
Proof.
  induction l as [|x l IH]; [done|]. cbn [app]. rewrite <-IH.
  destruct (l ++ [s]) as [|y l'] eqn:E; [by destruct l|done].
Qed.

(** Storing a record extends what the segments hold by it. *)
Lemma store_records rotate r l open start : (open = true → l ≠ []) → seg_chain start l →
  JournalRecord.sequence r = start + Z.of_nat (length (seg_records l)) →
  let l' := if open && negb rotate then append_last r l
            else l ++ [Segment.mk (JournalRecord.sequence r) [r]] in
  seg_chain start l' ∧ seg_records l' = seg_records l ++ [r] ∧ l' ≠ [].
Proof.
  intros Ho Hc Hr. destruct (open && negb rotate) eqn:E; cbv zeta.
  - apply andb_true_iff in E as [E _]. specialize (Ho E).
    destruct l as [|s l _] using rev_ind; [done|]. rewrite append_last_snoc.
    apply seg_chain_app in Hc as [Hc [Hs _]]. rewrite seg_chain_app, !seg_records_snoc.
    destruct s as [st rs]. cbn in *. rewrite (assoc_L (++)). split_and!; try done.
    by destruct l.
  - rewrite seg_chain_app, seg_records_snoc. cbn. split_and!; try done. by destruct l.
Qed.

(** Compaction deletes only records up to the safe sequence. *)
Lemma compact_spec safe_seq l start : seg_chain start l → ∃ k,
  seg_records (compact safe_seq l) = drop k (seg_records l) ∧
  seg_chain (start + Z.of_nat k) (compact safe_seq l) ∧
  (k ≤ length (seg_records l))%nat ∧ (start + Z.of_nat k - 1 ≤ Z.max safe_seq (start - 1)) ∧
  (l ≠ [] → compact safe_seq l ≠ []).
Proof.
  revert start. induction l as [|s l IH]; intros start Hc.
  { exists 0%nat. rewrite Z.add_0_r. split_and!; try done. lia. }
  destruct l as [|s' l].
  { exists 0%nat. rewrite Z.add_0_r. split_and!; try done; cbn; lia. }
  destruct Hc as [Hs Hc]. set (rest := s' :: l) in *. set (n := length (Segment.records s)) in *.
  destruct (IH _ Hc) as (k & Hr & Hk & Hle & Hsafe & Hne).
  assert (Segment.start s' = start + Z.of_nat n) as Hs' by apply Hc.
  assert (seg_records (s :: rest) = Segment.records s ++ seg_records rest) as Hsr by done.
  change (compact safe_seq (s :: rest)) with
    (if safe_seq <? Segment.start s' - 1 then s :: compact safe_seq rest
     else compact safe_seq rest). rewrite Hsr.
  destruct (_ <? _) eqn:E; bprop in E.
  - assert (k = 0)%nat as -> by lia. rewrite drop_0 in Hr. exists 0%nat.
    rewrite Z.add_0_r. rewrite Z.add_0_r in Hk. split_and!; try lia; try done.
    change (Segment.records s ++ seg_records (compact safe_seq rest) =
            Segment.records s ++ seg_records rest). by rewrite Hr.
  - exists (n + k)%nat. rewrite Nat2Z.inj_add, Z.add_assoc. split_and!.
    + rewrite Hr. unfold n. by rewrite drop_app_add.
    + done.
    + rewrite length_app. fold n. lia.
    + lia.
    + intros _. by apply Hne.
Qed.

Definition seq_le (c c' : Checkpoint Snapshot) : Prop :=
  Checkpoint.sequence c ≤ Checkpoint.sequence c'.

(** A position of the log and the digest there. *)
Definition at_log (j : AttemptJournal Snapshot) (s : Z) (d : string) : Prop :=
  0 ≤ s ≤ Z.of_nat (length (records j)) ∧
  d = chain_end ZERO_DIGEST (take (Z.to_nat s) (records j)).

(** The invariant of a journal built by its own calls: the log is a digest
    chain; the manifest and the checkpoints name positions of it; the segments
    hold its records from some point [m] no checkpoint is before. *)
Record wf (j : AttemptJournal Snapshot) : Prop := {
  wf_linked : linked 0 ZERO_DIGEST (records j);
  wf_sequence : last_sequence j = Z.of_nat (length (records j));
  wf_digest : last_digest j = chain_end ZERO_DIGEST (records j);
  wf_manifest : at_log j (manifest j).1 (manifest j).2;
  wf_checkpoints : ∀ c, c ∈ checkpoints j →
    at_log j (Checkpoint.sequence c) (Checkpoint.last_record_digest c);
  wf_sorted : StronglySorted seq_le (checkpoints j);
  wf_segments : ∃ m, (m ≤ length (records j))%nat ∧
    seg_chain (Z.of_nat m + 1) (segments j) ∧
    stored j = drop m (records j) ∧
    (∀ c, c ∈ checkpoints j → Z.of_nat m ≤ Checkpoint.sequence c) ∧
    (checkpoints j = [] → m = 0%nat);
  wf_open : segment_open j = true → segments j ≠ [];
}.

Lemma wf_create n ms mr t w : wf (create n ms mr t w).
Proof.
  split; cbn; try done; try by split; [lia|].
  - by intros c ?%elem_of_nil.
  - constructor.
  - exists 0%nat. split_and!; try done. by intros c ?%elem_of_nil.
Qed.

Lemma at_log_app j j' l s d : records j' = records j ++ l → at_log j s d → at_log j' s d.
Proof.
  intros Hr [Hs ->]. unfold at_log. rewrite Hr, length_app. split; [lia|].
  f_equal. rewrite take_app_le; [done|lia].
Qed.

Lemma at_log_end j : last_digest j = chain_end ZERO_DIGEST (records j) →
  last_sequence j = Z.of_nat (length (records j)) → at_log j (last_sequence j) (last_digest j).
Proof. intros -> ->. split; [lia|]. by rewrite Nat2Z.id, take_ge by lia. Qed.

Lemma wf_written rotate j r : wf j → r = next_record rd (JournalRecord.payload r) j →
  validate_payload (JournalRecord.payload r) = Ok tt → wf (written rotate r j).
Proof.
  intros [Hl Hs Hd Hm Hc Hso (m & Hmle & Hch & Hst & Hmc & Hm0) Ho] Hr Hv.
  destruct (written_fields rotate r j) as (A & B & C & D & E & _).
  assert (JournalRecord.sequence r = Z.of_nat (length (records j)) + 1) as Hq
    by (rewrite Hr, <-Hs; done).
  assert (length (seg_records (segments j)) = (length (records j) - m)%nat) as Hlen
    by (fold (stored j) in Hst; rewrite <-length_drop, <-Hst; done).
  destruct (store_records rotate r (segments j) (segment_open j) (Z.of_nat m + 1))
    as (S1 & S2 & S3); [done|done|rewrite Hlen; lia|].
  assert (segments (written rotate r j) = if segment_open j && negb rotate
    then append_last r (segments j)
    else segments j ++ [Segment.mk (JournalRecord.sequence r) [r]]) as Hseg.
  { unfold written, store. destruct (_ && _); by destruct j. }
  rewrite <-Hseg in S1, S2, S3. split.
  - rewrite A. apply linked_app. split; [done|]. rewrite <-Hd, Z.add_0_l, <-Hs. cbn [linked].
    rewrite Hr in Hv |- *. cbn in Hv |- *. tauto.
  - rewrite A, B, length_app. cbn. lia.
  - rewrite A, C. unfold chain_end. by rewrite last_snoc.
  - rewrite E. by eapply at_log_app.
  - rewrite D. intros c Hin. eapply at_log_app; [exact A|]. by apply Hc.
  - by rewrite D.
  - exists m. rewrite A, D, length_app. split_and!; try done; [lia|].
    unfold stored. fold (seg_records (segments (written rotate r j))).
    rewrite S2, drop_app_le by done. f_equal. exact Hst.
  - done.
Qed.

(** Fields the invariant does not read. *)
Lemma wf_ext j j' : wf j → records j' = records j → last_sequence j' = last_sequence j →
  last_digest j' = last_digest j → checkpoints j' = checkpoints j → segments j' = segments j →
  at_log j (manifest j').1 (manifest j').2 → (segment_open j' = true → segment_open j = true) →
  wf j'.
Proof.
  intros [] A B C D E F G. split; rewrite ?A, ?B, ?C, ?D; try done.
  - unfold at_log. by rewrite A.
  - unfold at_log. by rewrite A.
  - unfold stored. by rewrite E.
  - intros H. rewrite E. by apply wf_open0, G.
Qed.

Lemma wf_popped j : wf j → wf (popped j).
Proof. intros Hj. pose proof (wf_manifest _ Hj). apply (wf_ext j); by destruct j. Qed.
Lemma wf_failed j : wf j → wf (writer_failed j).
Proof. intros Hj. pose proof (wf_manifest _ Hj). apply (wf_ext j); by destruct j. Qed.
Lemma wf_acknowledged j : wf j → wf (acknowledged j).
Proof.
  intros Hj. apply (wf_ext j); try by destruct j.
  pose proof (at_log_end j (wf_digest _ Hj) (wf_sequence _ Hj)). by destruct j.
Qed.

Lemma wf_append p j j' r : wf j → append rd p j = (j', r) → wf j'.
Proof.
  intros Hj. assert (∀ rotate, validate_payload p = Ok tt →
    wf (written rotate (next_record rd p j) (popped j))) as Hw.
  { intros rotate Hv. apply wf_written; [by apply wf_popped|by destruct j|done]. }
  append_cases p j Ev Ew Ea; intros H; injection H as <- _; try done.
  - apply wf_acknowledged. by apply Hw.
  - by apply wf_popped.
  - apply wf_failed. by apply Hw.
  - by apply wf_failed, wf_popped.
Qed.

(** ** Checkpoints *)
Definition head_checkpoint (sn : Snapshot) (j : AttemptJournal Snapshot) : Checkpoint Snapshot :=
  Checkpoint.mk (last_sequence j) (last_digest j) sn.

Lemma head_at_log sn j : wf j →
  at_log j (Checkpoint.sequence (head_checkpoint sn j))
    (Checkpoint.last_record_digest (head_checkpoint sn j)).
Proof. intros Hj. apply at_log_end; apply Hj. Qed.

Lemma sorted_snoc {A} (R : relation A) l x : StronglySorted R l → (∀ y, y ∈ l → R y x) →
  StronglySorted R (l ++ [x]).
Proof.
  induction 1 as [|y l Hs IH Hall]; intros Hx; cbn; [repeat constructor|]. constructor.
  - apply IH. intros z Hz. apply Hx. by right.
  - apply Forall_app. split; [done|]. repeat constructor. apply Hx. by left.
Qed.

Lemma sorted_drop {A} (R : relation A) n l : StronglySorted R l → StronglySorted R (drop n l).
Proof.
  revert n. induction l as [|x l IH]; intros n Hs; [by destruct n|].
  destruct n as [|n]; [done|]. apply IH. by inversion Hs.
Qed.

(** A journal with one more checkpoint at its head, some older ones pruned. *)
Lemma wf_add_checkpoint sn n j : wf j → (n ≤ length (checkpoints j))%nat →
  wf (j{{ checkpoints := drop n (checkpoints j ++ [head_checkpoint sn j]) }}).
Proof.
  intros Hj Hn. pose proof (head_at_log sn j Hj) as Hh.
  assert (drop n (checkpoints j ++ [head_checkpoint sn j]) ≠ []) as Hne.
  { rewrite drop_app_le by done. by destruct (drop n (checkpoints j)). }
  assert (∀ c, c ∈ drop n (checkpoints j ++ [head_checkpoint sn j]) →
    c ∈ checkpoints j ∨ c = head_checkpoint sn j) as Hin.
  { intros c Hc. apply (elem_of_sublist _ (checkpoints j ++ [head_checkpoint sn j])) in Hc;
      [|apply sublist_drop]. apply elem_of_app in Hc as [|Hc]; [by left|right].
    by apply list_elem_of_singleton in Hc. }
  destruct Hj as [Hl Hs Hd Hm Hc Hso (m & Hmle & Hch & Hst & Hmc & Hm0) Ho].
  assert (StronglySorted seq_le (drop n (checkpoints j ++ [head_checkpoint sn j]))) as Hso'.
  { apply sorted_drop, sorted_snoc; [done|]. intros c Hin'. destruct (Hc c Hin') as [Hle _].
    unfold seq_le, head_checkpoint. cbn. lia. }
  revert Hin Hso' Hne. generalize (drop n (checkpoints j ++ [head_checkpoint sn j])).
  intros l Hin Hso' Hne. assert (last_sequence j = Checkpoint.sequence (head_checkpoint sn j)) as Hseq by done.
  split; try by destruct j.
  - intros c Hc'. assert (c ∈ l) as [Hc2| ->]%Hin by (by destruct j);
      [apply Hc in Hc2|]; by destruct j.
  - exists m. split_and!; try by destruct j.
    intros c Hc'. assert (c ∈ l) as [Hc2| ->]%Hin by (by destruct j); [by apply Hmc|].
    rewrite <-Hseq. lia.
Qed.

Lemma wf_compact safe_seq j : wf j → (∀ c, c ∈ checkpoints j → safe_seq ≤ Checkpoint.sequence c) →
  checkpoints j ≠ [] → wf (compact_segments safe_seq j).
Proof.
  intros [Hl Hs Hd Hm Hc Hso (m & Hmle & Hch & Hst & Hmc & Hm0) Ho] Hsafe Hne.
  destruct (compact_spec safe_seq (segments j) (Z.of_nat m + 1) Hch) as (k & Hr & Hk & Hle & Hmax & _).
  unfold stored in Hst. fold (seg_records (segments j)) in Hst.
  assert (segments (compact_segments safe_seq j) = compact safe_seq (segments j)) as Hseg by
    (by destruct j).
  assert (length (seg_records (segments j)) = (length (records j) - m)%nat) as Hlen by
    (by rewrite Hst, length_drop).
  split; try by destruct j.
  exists (m + k)%nat. unfold stored. fold (seg_records (segments (compact_segments safe_seq j))).
  rewrite Hseg, Hr, Hst, drop_drop. split_and!; try by destruct j.
  - replace (records (compact_segments safe_seq j)) with (records j) by (by destruct j). lia.
  - replace (Z.of_nat (m + k) + 1) with (Z.of_nat m + 1 + Z.of_nat k) by lia. done.
  - intros c Hc'. assert (c ∈ checkpoints j) as Hc2 by (by destruct j).
    specialize (Hmc c Hc2). specialize (Hsafe c Hc2). lia.
Qed.

Lemma wf_checkpointed now sn j : wf j → wf (checkpointed now sn j).
Proof.
  intros Hj. unfold checkpointed.
  pose proof (wf_add_checkpoint sn (length (checkpoints j ++ [head_checkpoint sn j]) - 2) j Hj)
    as Hw. rewrite length_app in Hw. specialize (Hw ltac:(cbn; lia)).
  set (j1 := j{{ checkpoints := _ }}) in Hw.
  set (j2 := j{{ checkpoints ::= _; records_since_checkpoint := 0; last_checkpoint_ms := now }}).
  assert (wf j2) as Hw2.
  { apply (wf_ext j1); try (by destruct j).
    - unfold j2, j1. destruct j. unfold newest_two, head_checkpoint. cbn. by rewrite length_app.
    - pose proof (wf_manifest _ Hw). by destruct j. }
  clearbody j2. clear Hw j1. destruct (checkpoints j2) as [|older [|newer [|]]] eqn:E; try done.
  apply wf_compact; [done| |by rewrite E]. intros c Hc. pose proof (wf_sorted _ Hw2) as Hso.
  rewrite E in Hc, Hso. apply elem_of_cons in Hc as [->|Hc]; [lia|].
  inversion Hso as [|? ? _ Hall]. rewrite Forall_forall in Hall. by apply Hall.
Qed.

Lemma wf_write_checkpoint io sn j j' r : wf j → write_checkpoint io sn j = (j', r) → wf j'.
Proof.
  intros Hj. unfold write_checkpoint, mbind, M_bind, get, modify, lift, raise.
  destruct (validate_snapshot sn); [|intros H; by injection H as <- _].
  destruct (is_writable j); cbn [negb]; [|intros H; by injection H as <- _].
  destruct (default (Written false) (head (writer j))) as [| |[]]; intros H; injection H as <- _.
  - by apply wf_checkpointed, wf_popped.
  - by apply wf_popped.
  - apply wf_failed. pose proof (wf_add_checkpoint sn 0 (popped j) (wf_popped _ Hj)) as Hw.
    specialize (Hw ltac:(lia)). by destruct j.
  - by apply wf_failed, wf_popped.
Qed.

Lemma wf_maybe_checkpoint io sn j j' r : wf j → maybe_checkpoint io sn j = (j', r) → wf j'.
Proof.
  unfold maybe_checkpoint, mbind, M_bind, get. intros Hj.
  destruct (negb _); [intros H; by injection H as <- _|].
  destruct (write_checkpoint io sn j) as [j1 [u|e]] eqn:E; intros H; injection H as <- _;
    by eapply wf_write_checkpoint.
Qed.

(** ** Recovery *)
Lemma decode_linked s d r rs : 0 ≤ s → linked s d (r :: rs) → decode_record rd r = Ok r.
Proof.
  intros Hs (Hq & Hp & Hd & Hv & _). unfold decode_record.
  rewrite raise_if_pass by (bprop; lia). rewrite Hv. cbn.
  rewrite raise_if_pass; [done|]. bprop. by rewrite Hq, Hp.
Qed.

(** Records the checkpoint covers are skipped. *)
Lemma replay_skip cp e prev b s d rs1 rs2 : 0 ≤ s → linked s d (rs1 ++ rs2) →
  s + Z.of_nat (length rs1) ≤ cp →
  replay_records rd cp e prev b (rs1 ++ rs2) = replay_records rd cp e prev b rs2.
Proof.
  revert s d. induction rs1 as [|r rs1 IH]; intros s d Hs Hl Hle; [done|].
  cbn [app replay_records] in *. rewrite (decode_linked s d r (rs1 ++ rs2)) by done. cbn.
  destruct Hl as (Hq & _ & _ & _ & Hl). cbn [length] in Hle.
  rewrite (proj2 (Z.leb_le _ _)) by lia. eapply IH; [|done|]; lia.
Qed.

Lemma replay_linked cp prev b s d rs : cp ≤ s → 0 ≤ s → linked s d rs → prev = d →
  (length rs ≤ b)%nat → replay_records rd cp (s + 1) prev b rs = Ok rs.
Proof.
  revert s d prev b. induction rs as [|r rs IH]; intros s d prev b Hcp Hs Hl -> Hb; [done|].
  cbn [replay_records]. rewrite (decode_linked s d r rs) by done. cbn.
  destruct Hl as (Hq & Hp & _ & _ & Hl). rewrite (proj2 (Z.leb_gt _ _)) by lia.
  rewrite raise_if_pass by (bprop; split; [lia|done]). cbn in Hb. destruct b as [|b]; [lia|].
  cbn. rewrite (IH (s + 1) (JournalRecord.digest r)) by (done || lia). done.
Qed.

(** Everything recovery accepts continues the chain. *)
Lemma replay_sound cp s prev b rs out : cp ≤ s →
  replay_records rd cp (s + 1) prev b rs = Ok out → linked s prev out.
Proof.
  revert s prev b out. induction rs as [|raw rs IH]; intros s prev b out Hcp H.
  { injection H as <-. done. }
  cbn [replay_records] in H. apply bind_Ok in H as (r & Hd & H).
  destruct (_ <=? cp) eqn:Ec; [by eapply IH|].
  inv_ok_step H. bprop. destruct G as [Hq Hp]. destruct b as [|b]; [done|].
  apply bind_Ok in H as (rest & Hr & [= <-]). cbn.
  unfold decode_record in Hd. inv_ok Hd. bprop. subst r.
  rewrite <-Hq, <-Hp. split_and!; try done; [by destruct x1|].
  rewrite Hq. eapply IH; [|exact Hr]. lia.
Qed.
End Append.
End AppendFacts.
