(* ===== verification/JournalProps.v ===== *)
(** * Properties of the journal's recovery *)
From S2P Require Export JournalFacts Samples.

Module JournalTheorems.
Import AttemptJournal AppendFacts.
Section Recovery.
Context {Snapshot : Type} {safe : SafeSnapshot Snapshot} (rd : Z → Payload → string → string).
Implicit Types j : AttemptJournal Snapshot.

(** Two distinct records with one digest. *)
Definition collision : Prop := ∃ s s' p p' d d',
  (s, p, d) ≠ (s', p', d') ∧ rd s p d = rd s' p' d'.

Lemma linked_sequences s d rs r : linked rd s d rs → r ∈ rs →
  s < JournalRecord.sequence r ≤ s + Z.of_nat (length rs).
Proof.
  revert s d. induction rs as [|x rs IH]; intros s d Hl Hr; [by apply elem_of_nil in Hr|].
  destruct Hl as (Hq & _ & _ & _ & Hl). cbn [length]. apply elem_of_cons in Hr as [->|Hr]; [lia|].
  specialize (IH _ _ Hl Hr). lia.
Qed.

(** Chains of one length from one start that end in one digest are equal, up
    to a collision. *)
Lemma linked_determined s d rs rs' : linked rd s d rs → linked rd s d rs' →
  length rs = length rs' → chain_end d rs = chain_end d rs' → rs = rs' ∨ collision.
Proof.
  revert rs'. induction rs as [|r rs IH] using rev_ind; intros rs' Hl Hl' Hlen He.
  { destruct rs'; [by left|done]. }
  destruct rs' as [|r' rs' _] using rev_ind; [rewrite length_app in Hlen; cbn in Hlen; lia|].
  rewrite !length_app in Hlen. cbn in Hlen. assert (length rs = length rs') as Hn by lia.
  apply linked_app in Hl as [Hl (Hq & Hp & Hd & _ & _)].
  apply linked_app in Hl' as [Hl' (Hq' & Hp' & Hd' & _ & _)].
  unfold chain_end in He at 1 2. rewrite !last_snoc in He. cbn in He.
  rewrite Hn in Hq, Hd. set (n := s + Z.of_nat (length rs') + 1) in *.
  destruct (decide ((n, JournalRecord.payload r, chain_end d rs) =
                    (n, JournalRecord.payload r', chain_end d rs'))) as [Heq|Hne].
  - injection Heq as Hpl Hce. destruct (IH rs' Hl Hl' Hn Hce) as [->|]; [|by right].
    left. do 2 f_equal. destruct r, r'; cbn in *. congruence.
  - right. exists n, n, (JournalRecord.payload r), (JournalRecord.payload r'),
      (chain_end d rs), (chain_end d rs'). split; [done|]. congruence.
Qed.

(** Where a recovery from [readable] starts. *)
Definition start_sequence (readable : list (Checkpoint Snapshot)) : Z :=
  default 0 (Checkpoint.sequence <$> last readable).

(** Enough of the checkpoints are readable, and the records after the newest of
    them are within the replay bound. *)
Definition recoverable (j : AttemptJournal Snapshot) (readable : list (Checkpoint Snapshot))
    (budget : nat) : Prop :=
  sublist readable (checkpoints j) ∧ (readable ≠ [] ∨ checkpoints j = []) ∧
  (length (records j) - Z.to_nat (start_sequence readable) ≤ budget)%nat.

(** [_recover] on the files [j] left. *)
Definition recover_from (j : AttemptJournal Snapshot) (readable : list (Checkpoint Snapshot))
    (budget : nat) : JournalRecovery Snapshot :=
  recover rd (length (checkpoints j)) readable budget (manifest j) (stored j).

(** The journals a gateway may have: its own calls, and restarts on the files
    they left. *)
Inductive reachable : AttemptJournal Snapshot → Prop :=
| reach_create n ms mr t w : reachable (create n ms mr t w)
| reach_append j p j' r : reachable j → append rd p j = (j', r) → reachable j'
| reach_checkpoint j io sn j' r : reachable j → write_checkpoint io sn j = (j', r) → reachable j'
| reach_stop j why : reachable j → reachable (enter_recovery_required why j)
| reach_close j : reachable j → reachable (close j)
| reach_reopen j readable budget t w : reachable j → recoverable j readable budget →
    reachable (reopen (recover_from j readable budget) t w j).

Lemma last_elem {A} (l : list A) x : last l = Some x → x ∈ l.
Proof.
  destruct l as [|y l _] using rev_ind; [done|]. rewrite last_snoc. intros H. injection H as ->.
  apply elem_of_app. right. by left.
Qed.

Lemma start_at_log j readable : wf rd j → sublist readable (checkpoints j) →
  at_log j (start_sequence readable)
    (default ZERO_DIGEST (Checkpoint.last_record_digest <$> last readable)).
Proof.
  intros Hj Hsub. unfold start_sequence. destruct (last readable) as [c|] eqn:E.
  - apply (wf_checkpoints _ _ Hj). eapply elem_of_sublist; [by apply last_elem|done].
  - split; [cbn; lia|done].
Qed.

(** The loop on the stored records returns those after the start. *)
Lemma replay_stored j readable budget : wf rd j → sublist readable (checkpoints j) →
  (readable ≠ [] ∨ checkpoints j = []) →
  let c := start_sequence readable in
  (length (records j) - Z.to_nat c ≤ budget)%nat →
  replay_records rd c (c + 1)
    (default ZERO_DIGEST (Checkpoint.last_record_digest <$> last readable)) budget (stored j) =
  Ok (drop (Z.to_nat c) (records j)).
Proof.
  intros Hj Hsub Hne c Hb. destruct (start_at_log j readable Hj Hsub) as [Hc ->]. fold c in Hc |- *.
  destruct Hj as [Hl _ _ _ _ _ (m & Hm & _ & -> & Hmc & Hm0) _].
  assert (Z.of_nat m ≤ c) as Hmle.
  { unfold c, start_sequence. destruct (last readable) as [x|] eqn:E.
    - apply Hmc. eapply elem_of_sublist; [by apply last_elem|done].
    - apply last_None in E. destruct Hne as [|Hcp]; [done|]. rewrite (Hm0 Hcp). cbn. lia. }
  set (k := Z.to_nat c). set (l := drop m (records j)).
  assert (length l = (length (records j) - m)%nat) as Hlen by apply length_drop.
  assert (drop k (records j) = drop (k - m) l) as ->.
  { unfold l. rewrite drop_drop. f_equal. lia. }
  pose proof Hl as Hl1. rewrite <-(take_drop m (records j)) in Hl1.
  apply linked_app in Hl1 as [_ Hl1]. fold l in Hl1. rewrite length_take in Hl1.
  pose proof Hl as Hl2. rewrite <-(take_drop k (records j)) in Hl2.
  apply linked_app in Hl2 as [_ Hl2]. rewrite length_take in Hl2.
  replace (0 + Z.of_nat (k `min` length (records j))) with c in Hl2 by lia.
  rewrite <-(take_drop (k - m) l) at 1. rewrite <-(take_drop (k - m) l) in Hl1.
  assert (0 ≤ 0 + Z.of_nat (m `min` length (records j))) as Hs0 by lia.
  rewrite (replay_skip rd c _ _ _ _ _ _ _ Hs0 Hl1) by (rewrite length_take; lia).
  eapply (replay_linked rd c _ budget c); [lia|lia| |done|rewrite length_drop; lia].
  unfold l. rewrite drop_drop. replace (m + (k - m))%nat with k by lia. exact Hl2.
Qed.

(** What a recovery from the files of [j] returns. *)
Definition recovered (j : AttemptJournal Snapshot) (readable : list (Checkpoint Snapshot)) :
    JournalRecovery Snapshot :=
  let c := start_sequence readable in
  JournalRecovery.mk JournalStatus.HEALTHY None (Checkpoint.snapshot <$> last readable)
    (drop (Z.to_nat c) (records j)) c (last_sequence j) (last_digest j)
    (last_sequence j - c) (Z.min 2 (Z.of_nat (length readable))).

Lemma chain_end_drop j c d : at_log j c d →
  chain_end d (drop (Z.to_nat c) (records j)) = chain_end ZERO_DIGEST (records j).
Proof. intros [_ ->]. by rewrite <-chain_end_app, take_drop. Qed.

Lemma recover_stored j readable budget : wf rd j → recoverable j readable budget →
  recover_from j readable budget = recovered j readable.
Proof.
  intros Hj (Hsub & Hne & Hb). unfold recover_from, recover, recover_files.
  rewrite raise_if_pass by (destruct Hne as [Hne| ->]; [by destruct readable; bool_cases|done]).
  fold (start_sequence readable). rewrite (replay_stored j readable budget) by done.
  pose proof (start_at_log j readable Hj Hsub) as Hc. set (c := start_sequence readable) in *.
  cbn [mbind result_bind]. rewrite length_drop.
  replace (c + Z.of_nat (length (records j) - Z.to_nat c)) with (last_sequence j)
    by (rewrite (wf_sequence _ _ Hj); destruct Hc; lia).
  pose proof (chain_end_drop j _ _ Hc) as He. unfold chain_end at 1 in He. rewrite He.
  rewrite <-(wf_digest _ _ Hj).
  destruct (wf_manifest _ _ Hj) as [Hmr Hmd].
  rewrite raise_if_pass by (apply Z.ltb_ge; rewrite (wf_sequence _ _ Hj); lia).
  rewrite raise_if_pass.
  - cbn. unfold recovered. fold c. f_equal. rewrite (wf_sequence _ _ Hj). destruct Hc. lia.
  - destruct (_ =? last_sequence j) eqn:E; [|done]. bprop in E. rewrite Hmd, E.
    rewrite (wf_sequence _ _ Hj), Nat2Z.id, take_ge, <-(wf_digest _ _ Hj) by lia.
    by rewrite bool_decide_true.
Qed.

Lemma wf_reopen j readable t w : wf rd j → wf rd (reopen (recovered j readable) t w j).
Proof. intros Hj. pose proof (wf_manifest _ _ Hj). by apply (wf_ext rd j); destruct j. Qed.

Lemma reachable_wf j : reachable j → wf rd j.
Proof.
  induction 1 as [n ms mr t w|j p j' r _ IH H|j io sn j' r _ IH H|j why _ IH|j _ IH
    |j readable budget t w _ IH H].
  - apply wf_create.
  - by eapply wf_append.
  - by eapply wf_write_checkpoint.
  - pose proof (wf_manifest _ _ IH). by apply (wf_ext rd j); destruct j.
  - pose proof (wf_manifest _ _ IH). by apply (wf_ext rd j); destruct j.
  - rewrite (recover_stored j readable budget IH H). by apply wf_reopen.
Qed.

(** C3. Recovery loses nothing: whatever calls, compactions, failed writes and
    earlier restarts a journal went through, reading its files back succeeds
    from every retained checkpoint that is readable and returns exactly the
    durable records after it, in order, with the head of the digest chain. *)
Theorem recovery_lossless j readable budget : reachable j → recoverable j readable budget →
  let r := recover_from j readable budget in
  JournalRecovery.status r = JournalStatus.HEALTHY ∧
  JournalRecovery.checkpoint r = (Checkpoint.snapshot <$> last readable) ∧
  JournalRecovery.records r = drop (Z.to_nat (start_sequence readable)) (records j) ∧
  JournalRecovery.last_sequence r = Z.of_nat (length (records j)) ∧
  JournalRecovery.last_digest r = chain_end ZERO_DIGEST (records j).
Proof.
  intros Hj%reachable_wf Hr r. unfold r. rewrite recover_stored by done. cbn.
  by rewrite (wf_sequence _ _ Hj), (wf_digest _ _ Hj).
Qed.

Lemma recover_healthy files (readable : list (Checkpoint Snapshot)) budget m rs r :
  recover rd files readable budget m rs = r → JournalRecovery.status r = JournalStatus.HEALTHY →
  recover_files rd files readable budget m rs = Ok r.
Proof.
  unfold recover. destruct (recover_files rd files readable budget m rs) as [r'|[]]; intros <- H; done.
Qed.

(** A log that ends at the manifest's high-water mark is the log that was
    written: a recovery of anything else fails, or exhibits two records with
    one SHA-256 digest. *)
Theorem recovery_tamper_evident j files readable budget rs : reachable j →
  sublist readable (checkpoints j) →
  let r := recover rd files readable budget (last_sequence j, last_digest j) rs in
  JournalRecovery.status r = JournalStatus.HEALTHY →
  JournalRecovery.last_sequence r = last_sequence j →
  JournalRecovery.records r = drop (Z.to_nat (start_sequence readable)) (records j) ∨ collision.
Proof.
  intros Hj%reachable_wf Hsub r Hh Hlast. pose proof (start_at_log j readable Hj Hsub) as [Hc Hcd].
  pose proof (recover_healthy _ _ _ _ _ r eq_refl Hh) as H. clear Hh. unfold recover_files in H.
  fold (start_sequence readable) in H. set (c := start_sequence readable) in *.
  rewrite Hcd in H. set (k := Z.to_nat c) in *. inv_ok_step H. clear G.
  apply bind_Ok in H as (out & Hrep & H). inv_ok_step H. inv_ok_step H.
  injection H as Hout. rewrite <-Hout in Hlast |- *. cbn in Hlast |- *.
  bprop in G0. destruct G0 as [Hne|Hend]; [bprop in Hne; cbn in Hne; lia|].
  bprop in Hend. apply replay_sound in Hrep; [|lia].
  destruct Hj as [Hl Hq Hd _ _ _ _ _].
  rewrite <-(take_drop k (records j)) in Hl. apply linked_app in Hl as [_ Hl].
  rewrite length_take in Hl. replace (0 + Z.of_nat (k `min` length (records j))) with c in Hl by lia.
  apply (linked_determined c _ out (drop k (records j)) Hrep Hl).
  - rewrite length_drop. lia.
  - etrans; [symmetry; exact Hend|]. cbn. by rewrite <-chain_end_app, take_drop, <-Hd.
Qed.
End Recovery.
End JournalTheorems.

(** A journal of three appends, checkpointed after the first, whose last write
    failed after reaching the disk. *)
Module JournalSamples.
Import AttemptJournal.
#[global] Instance unit_snapshot : SafeSnapshot unit := λ _, Ok tt.
Definition sample_digest (s : Z) (p : Payload) (d : string) : string := String.append "a" d.
Definition sample_payload : Payload :=
  Payload.attempt_dispatched "att_00000000000000000000000000000001" 7.
Definition io : JournalIO := JournalIO.mk false true 1000.
Definition append (j : AttemptJournal unit) : AttemptJournal unit :=
  (AttemptJournal.append sample_digest sample_payload j).1.
Definition checkpoint (j : AttemptJournal unit) : AttemptJournal unit :=
  (write_checkpoint io tt j).1.
Definition sample_journal : AttemptJournal unit :=
  append (append (checkpoint (append
    (create 10000 60000 10256 0
       [Written false; Written false; Written true; WriterFailed true])))).

Lemma append_reachable j : JournalTheorems.reachable sample_digest j →
  JournalTheorems.reachable sample_digest (append j).
Proof.
  intros H. unfold append. destruct (AttemptJournal.append _ _ j) as [j' r] eqn:E.
  by eapply JournalTheorems.reach_append.
Qed.

Lemma sample_reachable : JournalTheorems.reachable sample_digest sample_journal.
Proof.
  unfold sample_journal. do 2 apply append_reachable. unfold checkpoint.
  destruct (write_checkpoint io tt _) as [j' r] eqn:E.
  eapply JournalTheorems.reach_checkpoint; [|exact E].
  apply append_reachable, JournalTheorems.reach_create.
Qed.
End JournalSamples.

Lemma recovery_lossless_witness :
  let j := JournalSamples.sample_journal in
  let r := JournalTheorems.recover_from JournalSamples.sample_digest j (AttemptJournal.checkpoints j) 10 in
  JournalRecovery.status r = JournalStatus.HEALTHY ∧
  JournalRecovery.checkpoint r = (Checkpoint.snapshot <$> last (AttemptJournal.checkpoints j)) ∧
  JournalRecovery.records r =
    drop (Z.to_nat (JournalTheorems.start_sequence (AttemptJournal.checkpoints j)))
      (AttemptJournal.records j) ∧
  JournalRecovery.last_sequence r = Z.of_nat (length (AttemptJournal.records j)) ∧
  JournalRecovery.last_digest r = AppendFacts.chain_end ZERO_DIGEST (AttemptJournal.records j).
Proof.
  apply (JournalTheorems.recovery_lossless JournalSamples.sample_digest
           JournalSamples.sample_journal (AttemptJournal.checkpoints JournalSamples.sample_journal) 10).
  - apply JournalSamples.sample_reachable.
  - split_and!; [done|left; vm_compute; discriminate|vm_compute; lia].
Defined.

Lemma recovery_tamper_evident_witness :
  let j := JournalSamples.sample_journal in
  JournalRecovery.records (AttemptJournal.recover JournalSamples.sample_digest 1
      (AttemptJournal.checkpoints j) 10
      (AttemptJournal.last_sequence j, AttemptJournal.last_digest j) (AttemptJournal.records j)) =
    drop (Z.to_nat (JournalTheorems.start_sequence (AttemptJournal.checkpoints j)))
      (AttemptJournal.records j) ∨
  JournalTheorems.collision JournalSamples.sample_digest.
Proof.
  apply (JournalTheorems.recovery_tamper_evident JournalSamples.sample_digest
           JournalSamples.sample_journal 1
           (AttemptJournal.checkpoints JournalSamples.sample_journal) 10
           (AttemptJournal.records JournalSamples.sample_journal));
    [apply JournalSamples.sample_reachable|done|vm_compute; reflexivity|vm_compute; reflexivity].
Defined.
