(* ===== verification/Runtime.v ===== *)
(** * Provider-account runtime: data

    [gateway/runtime_state.py], first part: circuits, reservation requests,
    resolutions, and the mutable state of one [AccountRuntime].  SHA-256 over
    canonical JSON is a parameter where a digest is taken
    ([profile_digest], [resolution_digest]). *)
From S2P Require Export Journal ModelFacts.
From Stdlib Require Import Ascii.

Module ReservationDenialReason.
Inductive t :=
| ACCOUNT_NOT_ACTIVE | ACCOUNT_NOT_FOUND | ATTEMPT_DUPLICATE | CIRCUIT_CHANGED
| CIRCUIT_UNAVAILABLE | DEADLINE_EXCEEDED | INVALID_QUOTA_CHARGE | JOURNAL_CAPACITY_STOP
| JOURNAL_UNAVAILABLE | MONTHLY_QUOTA_EXHAUSTED | MONTHLY_RESET_UNAVAILABLE
| PARALLEL_EXHAUSTED | RECOVERY_REQUIRED | RPM_EXHAUSTED | TPM_EXHAUSTED.
#[global] Instance eq_dec : EqDecision t.
Proof. solve_decision. Defined.
End ReservationDenialReason.
Abbreviation ReservationDenialReason := ReservationDenialReason.t.

Module AmbiguousReason.
Inductive t :=
| CLIENT_CANCELLED | CRASH_RECOVERY | DEADLINE_EXCEEDED | RESPONSE_STREAM_FAILED
| UPSTREAM_UNKNOWN.
Definition value (r : t) : string :=
  match r with
  | CLIENT_CANCELLED => "client_cancelled" | CRASH_RECOVERY => "crash_recovery"
  | DEADLINE_EXCEEDED => "deadline_exceeded"
  | RESPONSE_STREAM_FAILED => "response_stream_failed" | UPSTREAM_UNKNOWN => "upstream_unknown"
  end.
End AmbiguousReason.

Module ProbeClassification.
Inductive t := AVAILABLE | CAPACITY_EXHAUSTED | INCONCLUSIVE.
#[global] Instance eq_dec : EqDecision t.
Proof. solve_decision. Defined.
Definition value (c : t) : string :=
  match c with
  | AVAILABLE => "available" | CAPACITY_EXHAUSTED => "capacity_exhausted"
  | INCONCLUSIVE => "inconclusive"
  end.
Definition of_value (s : string) : result t :=
  if decide (s = "available"%string) then Ok AVAILABLE
  else if decide (s = "capacity_exhausted"%string) then Ok CAPACITY_EXHAUSTED
  else if decide (s = "inconclusive"%string) then Ok INCONCLUSIVE
  else Err (ValueError "is not a valid ProbeClassification").
End ProbeClassification.
Abbreviation ProbeClassification := ProbeClassification.t.

Module CircuitState.
Inductive t := CLOSED | OPEN | HALF_OPEN.
#[global] Instance eq_dec : EqDecision t.
Proof. solve_decision. Defined.
Definition value (s : t) : string :=
  match s with CLOSED => "closed" | OPEN => "open" | HALF_OPEN => "half_open" end.
Definition of_value (s : string) : result t :=
  if decide (s = "closed"%string) then Ok CLOSED
  else if decide (s = "open"%string) then Ok OPEN
  else if decide (s = "half_open"%string) then Ok HALF_OPEN
  else Err (ValueError "is not a valid CircuitState").
End CircuitState.
Abbreviation CircuitState := CircuitState.t.

Module CircuitCause.
Inductive t := CAPACITY | TRANSIENT_FAILURE | QUOTA | MANUAL.
#[global] Instance eq_dec : EqDecision t.
Proof. solve_decision. Defined.
Definition value (c : t) : string :=
  match c with
  | CAPACITY => "capacity" | TRANSIENT_FAILURE => "transient_failure" | QUOTA => "quota"
  | MANUAL => "manual"
  end.
Definition of_value (s : string) : result t :=
  if decide (s = "capacity"%string) then Ok CAPACITY
  else if decide (s = "transient_failure"%string) then Ok TRANSIENT_FAILURE
  else if decide (s = "quota"%string) then Ok QUOTA
  else if decide (s = "manual"%string) then Ok MANUAL
  else Err (ValueError "is not a valid CircuitCause").
End CircuitCause.
Abbreviation CircuitCause := CircuitCause.t.

Module CircuitScope.
Inductive t := ACCOUNT | DEPLOYMENT.
Definition value (s : t) : string :=
  match s with ACCOUNT => "account" | DEPLOYMENT => "deployment" end.
End CircuitScope.

Definition is_sha256_digest : string → bool := fullmatch (literal "sha256:" ++ HEX64_PATTERN).
Definition is_probe_id : string → bool :=
  fullmatch (literal "probe_" ++ replicate 36 hex_or_dash).

Module CircuitValue.
Record t := mk {
  state : CircuitState;
  cause : option CircuitCause;
  epoch : Z;
  opened_at_ms : Z;
  retry_at_ms : Z;
  backoff_step : Z;
  evidence_digest : option string;
  probe_id : option string;
}.
#[global] Instance eq_dec : EqDecision t.
Proof. solve_decision. Defined.

(** [closed(epoch)] *)
Definition closed (epoch : Z) : t := mk CircuitState.CLOSED None epoch 0 0 0 None None.

Definition in_state (s : CircuitState) (v : t) : bool := bool_decide (state v = s).
Definition has_evidence (v : t) : bool :=
  bool_decide (is_Some (cause v)) && bool_decide (is_Some (evidence_digest v)).
(** Truth of [self.probe_id]. *)
Definition has_probe (v : t) : bool :=
  match probe_id v with Some p => negb (bool_decide (p = ""%string)) | None => false end.

Definition fields_ok (v : t) : bool :=
  (0 <=? epoch v) && bounded (Some 0) (Some MAX_INT) (opened_at_ms v) &&
  bounded (Some 0) (Some MAX_INT) (retry_at_ms v) &&
  bounded (Some 0) (Some 64) (backoff_step v) &&
  match evidence_digest v with Some d => is_sha256_digest d | None => true end &&
  match probe_id v with Some p => is_probe_id p | None => true end.

(** The constructor: field constraints, then [_state_fields_match]. *)
Definition validate (v : t) : result t :=
  raise_if (negb (fields_ok v)) field_error;;
  raise_if (in_state CircuitState.CLOSED v &&
            (has_evidence v || negb (opened_at_ms v =? 0) || negb (retry_at_ms v =? 0) ||
             negb (backoff_step v =? 0) || has_probe v))
    (ValueError "closed circuit cannot carry open/probe state");;
  raise_if (in_state CircuitState.OPEN v &&
            (negb (has_evidence v) || (opened_at_ms v =? 0) || (retry_at_ms v =? 0) ||
             has_probe v))
    (ValueError "open circuit requires evidence/retry state and no probe");;
  raise_if (in_state CircuitState.HALF_OPEN v &&
            (negb (has_evidence v) || (opened_at_ms v =? 0) || negb (retry_at_ms v =? 0) ||
             bool_decide (probe_id v = None)))
    (ValueError "half-open circuit requires evidence and one probe");;
  mret v.

(** [probe_id if state is HALF_OPEN else None] *)
Definition half_open_probe (v : t) : option string :=
  if in_state CircuitState.HALF_OPEN v then probe_id v else None.
End CircuitValue.
Abbreviation CircuitValue := CircuitValue.t.

Module RuntimeIdentity.
Record t := mk {
  installation_id : string;
  dispatcher_fence : Z;
  boot_id : string;
  bundle_generation : Z;
  bundle_hash : string;
}.
#[global] Instance eq_dec : EqDecision t.
Proof. solve_decision. Defined.

Definition validate (i : t) : result t :=
  raise_if (negb (is_ok (typed_id_new InstallationId (installation_id i)) &&
                  bounded (Some 1) (Some MAX_INT) (dispatcher_fence i) &&
                  is_ok (typed_id_new GatewayBootId (boot_id i)) &&
                  (1 <=? bundle_generation i) &&
                  is_ok (typed_id_new BundleHash (bundle_hash i)))) field_error;;
  mret i.
End RuntimeIdentity.
Abbreviation RuntimeIdentity := RuntimeIdentity.t.

Module ReservationRequest.
Record t := mk {
  request_id : string;
  attempt_id : string;
  account_id : string;
  leg_id : string;
  deployment_generation_id : string;
  runtime_identity : RuntimeIdentity;
  deadline_at_ms : Z;
  profile : RequestProfile;
  input_tokens_upper_bound : Z;
  account_circuit : CircuitValue;
  max_output_tokens : Z;
  max_reasoning_tokens : Z;
  quota_units : Z;
  circuit : CircuitValue;
}.
#[global] Instance eq_dec : EqDecision t.
Proof. solve_decision. Defined.

Definition total_token_upper_bound (r : t) : Z :=
  input_tokens_upper_bound r + max_output_tokens r + max_reasoning_tokens r.

Definition fields_ok (r : t) : bool :=
  is_ok (typed_id_new RequestId (request_id r)) &&
  is_ok (typed_id_new AttemptId (attempt_id r)) &&
  is_ok (typed_id_new AccountId (account_id r)) &&
  is_ok (typed_id_new RouteLegId (leg_id r)) &&
  is_ok (typed_id_new DeploymentGenerationId (deployment_generation_id r)) &&
  bounded (Some 1) (Some MAX_INT) (deadline_at_ms r) &&
  forallb (bounded (Some 0) (Some MAX_INT))
    [input_tokens_upper_bound r; max_output_tokens r; max_reasoning_tokens r; quota_units r].

(** The constructor, with [_charge_covers_profile]. *)
Definition validate (r : t) : result t :=
  raise_if (negb (fields_ok r)) field_error;;
  RuntimeIdentity.validate (runtime_identity r);;
  RequestProfile.validate (profile r);;
  CircuitValue.validate (account_circuit r);;
  CircuitValue.validate (circuit r);;
  raise_if (input_tokens_upper_bound r <? RequestProfile.input_tokens_max (profile r))
    (ValueError "input token upper bound cannot be below the request profile");;
  raise_if (negb (max_output_tokens r =? RequestProfile.output_tokens_max (profile r)))
    (ValueError "max_output_tokens must bind the request profile maximum");;
  raise_if (negb (max_reasoning_tokens r =? RequestProfile.reasoning_tokens_max (profile r)))
    (ValueError "max_reasoning_tokens must bind the request profile maximum");;
  raise_if (MAX_INT <? total_token_upper_bound r)
    (ValueError "total token upper bound is out of range");;
  mret r.
End ReservationRequest.
Abbreviation ReservationRequest := ReservationRequest.t.

(** The [StrEnum] values of [TerminalOutcome]. *)
Definition outcome_value (o : TerminalOutcome) : string :=
  match o with
  | AUTHZ_DENIED => "authz_denied"
  | AUTH_STATE_UNAVAILABLE => "auth_state_unavailable"
  | UNSUPPORTED_REQUEST => "unsupported_request"
  | BACKPRESSURE_REJECTED => "backpressure_rejected"
  | ROUTE_UNAVAILABLE => "route_unavailable"
  | DEADLINE_EXCEEDED => "deadline_exceeded"
  | UPSTREAM_FAILED => "upstream_failed"
  | CLIENT_CANCELLED => "client_cancelled"
  | RESPONSE_STREAM_FAILED => "response_stream_failed"
  | COMPLETED => "completed"
  end.

Module AttemptResolution.
Record t := mk {
  outcome : TerminalOutcome;
  release_capacity : bool;
  actual_starts : option Z;
  actual_token_units : option Z;
  actual_quota_units : option Z;
}.
#[global] Instance eq_dec : EqDecision t.
Proof. solve_decision. Defined.

Definition opt_bounded (lo hi : Z) (o : option Z) : bool :=
  match o with Some z => bounded (Some lo) (Some hi) z | None => true end.

Definition validate (r : t) : result t :=
  raise_if (negb (opt_bounded 0 1 (actual_starts r) &&
                  opt_bounded 0 MAX_INT (actual_token_units r) &&
                  opt_bounded 0 MAX_INT (actual_quota_units r))) field_error;;
  mret r.
End AttemptResolution.
Abbreviation AttemptResolution := AttemptResolution.t.

Module ReservationDenied.
Record t := mk { reason : ReservationDenialReason; retry_at_ms : option Z }.
#[global] Instance eq_dec : EqDecision t.
Proof. solve_decision. Defined.
End ReservationDenied.
Abbreviation ReservationDenied := ReservationDenied.t.

Module AccountCapacity.
Record t := mk {
  account_id : string;
  state : AccountState;
  parallel_limit : Z;
  active_attempts : Z;
  uncertain_attempts : Z;
  rpm_starts : Z;
  tpm_tokens : Z;
  monthly_quota_units : Z;
  account_circuit : CircuitValue;
  monthly_reset_at_ms : Z;
  recovery_probe_in_flight : bool;
  consumed_probe_tokens : Z;
}.
#[global] Instance eq_dec : EqDecision t.
Proof. solve_decision. Defined.
End AccountCapacity.
Abbreviation AccountCapacity := AccountCapacity.t.

(** [_Start] *)
Module Start.
Record t := mk {
  attempt_id : string;
  started_at_ms : Z;
  tokens : Z;
  counted_start : bool;
}.
#[global] Instance eq_dec : EqDecision t.
Proof. solve_decision. Defined.
End Start.
Abbreviation Start := Start.t.

(** [_Attempt]; its [state] is the string ["active"] or ["uncertain"]. *)
Module Attempt.
Record t := mk {
  attempt_id : string;
  request_id : string;
  leg_id : string;
  deployment_generation_id : string;
  installation_id : string;
  bundle_generation : Z;
  bundle_hash : string;
  fence_token : Z;
  boot_id : string;
  deadline_at_ms : Z;
  profile_digest : string;
  circuit_epoch : Z;
  account_circuit_epoch : Z;
  circuit_probe_id : option string;
  account_circuit_probe_id : option string;
  monthly_reset_at_ms : Z;
  started_at_ms : Z;
  dispatched_at_ms : option Z;
  dispatch_receipt : option JournalReceipt;
  reserved_tokens : Z;
  quota_units : Z;
  state : string;
}.
#[global] Instance eq_dec : EqDecision t.
Proof. solve_decision. Defined.
Definition is_active (a : t) : bool := bool_decide (state a = "active"%string).
Definition is_uncertain (a : t) : bool := bool_decide (state a = "uncertain"%string).
(** [(attempt.started_at_ms, attempt.attempt_id)] *)
Definition age_key (a : t) : Z * string := (started_at_ms a, attempt_id a).
End Attempt.
Abbreviation Attempt := Attempt.t.

(** [_Dispatch] *)
Module Dispatch.
Record t := mk {
  request_id : string;
  attempt_id : string;
  leg_id : string;
  deployment_generation_id : string;
  circuit_epoch : Z;
  account_circuit_epoch : Z;
  circuit_probe_id : option string;
  account_circuit_probe_id : option string;
  dispatched_at_ms : Z;
}.
#[global] Instance eq_dec : EqDecision t.
Proof. solve_decision. Defined.
End Dispatch.
Abbreviation Dispatch := Dispatch.t.

(** [_ResolvedAttempt] *)
Module ResolvedAttempt.
Record t := mk {
  resolution_digest : string;
  receipt : JournalReceipt;
  resolved_at_ms : Z;
  dispatch : option Dispatch;
}.
#[global] Instance eq_dec : EqDecision t.
Proof. solve_decision. Defined.
End ResolvedAttempt.
Abbreviation ResolvedAttempt := ResolvedAttempt.t.

Definition MAX_ROLLING_WINDOW_SECONDS : Z := 86400.
Definition DEFAULT_RESOLUTION_LEDGER_LIMIT : Z := 100000.
Definition DEFAULT_RESOLUTION_RETENTION_MS : Z := 86400000.
