(* ===== verification/Account.v ===== *)
(** * Provider-account runtime: operations

    [AccountRuntime] of [gateway/runtime_state.py]: reservations, dispatch,
    resolution, circuits, capacity and recovery probes.  A method runs on a
    [World.t], the shared journal and the account's state; what it changed
    before raising stays changed.  The clock reading of a call is an argument,
    and so is the snapshot callback its checkpoint writes. *)
From S2P Require Export Runtime.

Module AccountRuntime.
Record t := mk {
  account : ProviderAccount;
  resolution_ledger_limit : Z;
  resolution_retention_ms : Z;
  starts : dict string Start;
  attempts : dict string Attempt;
  resolutions : dict string ResolvedAttempt;
  circuits : dict string CircuitValue;
  account_circuit : CircuitValue;
  consumed_circuit_probes : dict string string;
  monthly_used : Z;
  time_high_water_ms : Z;
  monthly_reset_at_ms : Z;
  external_uncertain_holds : Z;
  recovery_probe_id : option string;
}.
#[global] Instance eq_dec : EqDecision t.
Proof. solve_decision. Defined.

(** [_next_monthly_reset] *)
Definition next_monthly_reset (a : ProviderAccount) (now_ms : Z) : Z :=
  if negb (QuotaDimension.is_known (ProviderAccount.monthly_quota_units a)) then 0
  else
    let reset_at_ms := default 0 (ProviderAccount.monthly_reset_at_ms a) in
    if now_ms <? reset_at_ms then reset_at_ms else 0.

(** [__init__] *)
Definition init (a : ProviderAccount) (ledger_limit retention_ms clock_ms : Z) : t :=
  {| account := a;
     resolution_ledger_limit := ledger_limit;
     resolution_retention_ms := retention_ms;
     starts := []; attempts := []; resolutions := []; circuits := [];
     account_circuit := CircuitValue.closed 0;
     consumed_circuit_probes := [];
     monthly_used := 0;
     time_high_water_ms := clock_ms;
     monthly_reset_at_ms := next_monthly_reset a clock_ms;
     external_uncertain_holds := 0;
     recovery_probe_id := None |}.

(** [_now_ms]: the new high-water is stored and returned. *)
Definition now_ms (clock_ms : Z) (rt : t) : Z := Z.max (time_high_water_ms rt) clock_ms.
Definition tick (clock_ms : Z) (rt : t) : t :=
  rt{{ time_high_water_ms := now_ms clock_ms rt }}.

(** [_roll_monthly] *)
Definition roll_monthly (now : Z) (rt : t) : t :=
  if negb (monthly_reset_at_ms rt =? 0) && (monthly_reset_at_ms rt <=? now)
  then rt{{ monthly_used := 0; monthly_reset_at_ms := 0 }} else rt.

(** [_prune_resolutions] *)
Definition prune_resolutions (now : Z) (rt : t) : t :=
  let cutoff := now - resolution_retention_ms rt in
  let expired := (List.filter (λ p : string * ResolvedAttempt,
      (ResolvedAttempt.resolved_at_ms p.2 <=? cutoff) && negb (dmem p.1 (attempts rt)))
    (resolutions rt)).*1 in
  rt{{ resolutions ::= λ d, foldl (λ d k, ddel k d) d expired }}.

(** [_purge_windows] *)
Definition purge_windows (now : Z) (rt : t) : t :=
  let keep_ms := MAX_ROLLING_WINDOW_SECONDS * 1000 in
  let expired := (List.filter (λ p : string * Start,
      (Start.started_at_ms p.2 <=? now - keep_ms) && negb (dmem p.1 (attempts rt)))
    (starts rt)).*1 in
  rt{{ starts ::= λ d, foldl (λ d k, ddel k d) d expired }}.

(** [_rpm_starts], [_tpm_starts] *)
Definition rpm_starts (now : Z) (rt : t) : list Start :=
  let floor := now - ProviderAccount.rpm_window_seconds (account rt) * 1000 in
  List.filter (λ s, Start.counted_start s && (floor <? Start.started_at_ms s))
    (dvalues (starts rt)).
Definition tpm_starts (now : Z) (rt : t) : list Start :=
  let floor := now - ProviderAccount.tpm_window_seconds (account rt) * 1000 in
  List.filter (λ s, floor <? Start.started_at_ms s) (dvalues (starts rt)).

Definition token_sum (l : list Start) : Z := foldr (λ s n, Start.tokens s + n) 0 l.

(** [max(...)] and [min(...)] of a generator: [ValueError] when it is empty. *)
Definition py_max_of (l : list Z) : result Z :=
  match l with [] => Err (ValueError "max() iterable argument is empty")
             | x :: l => Ok (foldl Z.max x l) end.
Definition py_min_of (l : list Z) : result Z :=
  match l with [] => Err (ValueError "min() iterable argument is empty")
             | x :: l => Ok (foldl Z.min x l) end.

(** The loop of [_tpm_retry_at] over the starts, oldest first. *)
Fixpoint retry_loop (total requested limit window_ms : Z) (l : list Start) : option Z :=
  match l with
  | [] => None
  | s :: l =>
      let total := total - Start.tokens s in
      if total + requested <=? limit then Some (Start.started_at_ms s + window_ms)
      else retry_loop total requested limit window_ms l
  end.

Definition start_key (s : Start) : Z * string := (Start.started_at_ms s, Start.attempt_id s).
Definition time_id_leb : Z * string → Z * string → bool := pair_leb Z.leb str_leb.

Definition tpm_retry_at (rt : t) (l : list Start) (requested limit : Z) : result Z :=
  let window_ms := ProviderAccount.tpm_window_seconds (account rt) * 1000 in
  match retry_loop (token_sum l) requested limit window_ms
          (sorted_by start_key time_id_leb l) with
  | Some z => Ok z
  | None => latest ← py_max_of (Start.started_at_ms <$> l); mret (latest + window_ms)
  end.

(** [_active_count], [_uncertain_count] *)
Definition active_count (rt : t) : Z :=
  Z.of_nat (length (attempts rt)) + external_uncertain_holds rt.
Definition uncertain_count (rt : t) : Z :=
  Z.of_nat (length (List.filter Attempt.is_uncertain (dvalues (attempts rt)))) +
  external_uncertain_holds rt.
Definition has_active (rt : t) : bool := existsb Attempt.is_active (dvalues (attempts rt)).

Definition circuit_value (rt : t) (generation : string) : CircuitValue :=
  dget_or generation (CircuitValue.closed 0) (circuits rt).

(** [_dispatch] *)
Definition dispatch (a : Attempt) : option Dispatch :=
  at_ms ← Attempt.dispatched_at_ms a;
  Some {| Dispatch.request_id := Attempt.request_id a;
          Dispatch.attempt_id := Attempt.attempt_id a;
          Dispatch.leg_id := Attempt.leg_id a;
          Dispatch.deployment_generation_id := Attempt.deployment_generation_id a;
          Dispatch.circuit_epoch := Attempt.circuit_epoch a;
          Dispatch.account_circuit_epoch := Attempt.account_circuit_epoch a;
          Dispatch.circuit_probe_id := Attempt.circuit_probe_id a;
          Dispatch.account_circuit_probe_id := Attempt.account_circuit_probe_id a;
          Dispatch.dispatched_at_ms := at_ms |}.

Definition update_account (a : ProviderAccount) (clock_ms : Z) (rt : t) : result t :=
  raise_if (negb (bool_decide (ProviderAccount.account_id a =
                               ProviderAccount.account_id (account rt))))
    (ValueError "cannot replace an AccountRuntime identity");;
  let now := now_ms clock_ms rt in
  let rt := roll_monthly now (tick clock_ms rt) in
  let previous_reset := monthly_reset_at_ms rt in
  let rt := rt{{ account := a }} in
  let candidate_reset := next_monthly_reset a now in
  mret (if (previous_reset =? 0) || (previous_reset <? candidate_reset)
        then rt{{ monthly_reset_at_ms := candidate_reset }} else rt).

(** [_apply_authoritative_active_count] *)
Definition drop_attempts (ks : list string) (rt : t) : t :=
  rt{{ attempts ::= λ d, foldl (λ d k, ddel k d) d ks }}.

Definition apply_active_count (active : Z) (rt : t) : result t :=
  raise_if (has_active rt)
    (ValueError "authoritative count cannot evict live active attempts");;
  let ordered := (sorted_by (λ p : string * Attempt, (Attempt.started_at_ms p.2, p.1))
                    time_id_leb (attempts rt)).*1 in
  let keep := Z.min active (Z.of_nat (length ordered)) in
  mret ((drop_attempts (drop (Z.to_nat keep) ordered) rt)
          {{ external_uncertain_holds := Z.max 0 (active - keep) }}).

(** [_apply_recovery_probe_finished] *)
Definition release_one (rt : t) : t :=
  if negb (external_uncertain_holds rt =? 0)
  then rt{{ external_uncertain_holds ::= λ n, n - 1 }}
  else
    match min_by Attempt.age_key time_id_leb
            (List.filter Attempt.is_uncertain (dvalues (attempts rt))) with
    | Some oldest => rt{{ attempts ::= ddel (Attempt.attempt_id oldest) }}
    | None => rt
    end.

Definition apply_probe_finished (c : ProbeClassification) (rt : t) : t :=
  (if bool_decide (c = ProbeClassification.AVAILABLE) then release_one rt else rt)
    {{ recovery_probe_id := None }}.
End AccountRuntime.
Abbreviation AccountRuntime := AccountRuntime.t.

(** The account's state and the journal it shares with the other accounts. *)
Module World.
Record t (Snapshot : Type) := mk {
  journal : AttemptJournal Snapshot;
  runtime : AccountRuntime;
}.
Arguments mk {_}.
Arguments journal {_}.
Arguments runtime {_}.
End World.
Abbreviation World := World.t.

(** [ReservationGranted(Lease(...))] or [ReservationDenied]; a lease is its
    request and the receipt of its durable reservation. *)
Inductive Reservation :=
| Granted (request : ReservationRequest) (receipt : JournalReceipt)
| Denied (d : ReservationDenied).

Module AccountOps.
Import AccountRuntime.

Definition deny (r : ReservationDenialReason) : option ReservationDenied :=
  Some (ReservationDenied.mk r None).
Definition deny_until (r : ReservationDenialReason) (at_ms : Z) : option ReservationDenied :=
  Some (ReservationDenied.mk r (Some at_ms)).

(** The guards of [try_reserve] before it reads the clock. *)
Definition identity_denial (status : JournalStatus) (r : ReservationRequest) (rt : AccountRuntime) :
    option ReservationDenied :=
  if bool_decide (status = JournalStatus.RECOVERY_REQUIRED)
  then deny ReservationDenialReason.RECOVERY_REQUIRED
  else if bool_decide (status = JournalStatus.ADMISSION_STOP)
  then deny ReservationDenialReason.JOURNAL_CAPACITY_STOP
  else if negb (bool_decide (ReservationRequest.account_id r =
                             ProviderAccount.account_id (account rt)))
  then deny ReservationDenialReason.ACCOUNT_NOT_FOUND
  else if bool_decide (is_Some (recovery_probe_id rt))
  then deny ReservationDenialReason.RECOVERY_REQUIRED
  else if negb (bool_decide (ProviderAccount.state (account rt) = Some AccountState.ACTIVE))
  then deny ReservationDenialReason.ACCOUNT_NOT_ACTIVE
  else None.

(** Probe ids of the half-open circuits, the account's first. *)
Definition probe_ids (r : ReservationRequest) (rt : AccountRuntime) : list string :=
  omap id [CircuitValue.half_open_probe (account_circuit rt);
           CircuitValue.half_open_probe
             (circuit_value rt (ReservationRequest.deployment_generation_id r))].

Definition unresolved (rt : AccountRuntime) : Z :=
  Z.of_nat (length (List.filter (λ k, negb (dmem k (resolutions rt))) (dkeys (attempts rt)))).

(** The guards between pruning the resolutions and purging the windows. *)
Definition ledger_denial (now : Z) (r : ReservationRequest) (rt : AccountRuntime) :
    option ReservationDenied :=
  let current_circuit := circuit_value rt (ReservationRequest.deployment_generation_id r) in
  if resolution_ledger_limit rt <=? Z.of_nat (length (resolutions rt)) + unresolved rt
  then deny ReservationDenialReason.JOURNAL_CAPACITY_STOP
  else if ReservationRequest.quota_units r <?
          ProviderAccount.quota_units_per_attempt (account rt)
  then deny ReservationDenialReason.INVALID_QUOTA_CHARGE
  else if ReservationRequest.deadline_at_ms r <=? now
  then deny ReservationDenialReason.DEADLINE_EXCEEDED
  else if dmem (ReservationRequest.attempt_id r) (attempts rt) ||
          dmem (ReservationRequest.attempt_id r) (starts rt) ||
          dmem (ReservationRequest.attempt_id r) (resolutions rt)
  then deny ReservationDenialReason.ATTEMPT_DUPLICATE
  else if negb (bool_decide (account_circuit rt = ReservationRequest.account_circuit r))
  then deny ReservationDenialReason.CIRCUIT_CHANGED
  else if CircuitValue.in_state CircuitState.OPEN (account_circuit rt)
  then deny_until ReservationDenialReason.CIRCUIT_UNAVAILABLE
         (CircuitValue.retry_at_ms (account_circuit rt))
  else if negb (bool_decide (current_circuit = ReservationRequest.circuit r))
  then deny ReservationDenialReason.CIRCUIT_CHANGED
  else if CircuitValue.in_state CircuitState.OPEN current_circuit
  then deny_until ReservationDenialReason.CIRCUIT_UNAVAILABLE
         (CircuitValue.retry_at_ms current_circuit)
  else if existsb (λ p, dmem p (consumed_circuit_probes rt)) (probe_ids r rt)
  then deny ReservationDenialReason.CIRCUIT_UNAVAILABLE
  else None.

(** The value of a KNOWN dimension; the [assert] is the [Err] case. *)
Definition known_limit (q : QuotaDimension) : result (option Z) :=
  if QuotaDimension.is_known q
  then match QuotaDimension.value q with Some v => Ok (Some v) | None => Err AssertionError end
  else Ok None.

Definition rpm_denial (now : Z) (rt : AccountRuntime) : result (option ReservationDenied) :=
  limit ← known_limit (ProviderAccount.rpm_limit (account rt));
  match limit with
  | None => mret None
  | Some v =>
      let l := rpm_starts now rt in
      if v <=? Z.of_nat (length l) then
        first ← py_min_of (Start.started_at_ms <$> l);
        mret (deny_until ReservationDenialReason.RPM_EXHAUSTED
                (first + ProviderAccount.rpm_window_seconds (account rt) * 1000))
      else mret None
  end.

Definition tpm_denial (now : Z) (r : ReservationRequest) (rt : AccountRuntime) :
    result (option ReservationDenied) :=
  limit ← known_limit (ProviderAccount.tpm_limit (account rt));
  match limit with
  | None => mret None
  | Some v =>
      let requested := ReservationRequest.total_token_upper_bound r in
      if v <? requested then mret (deny ReservationDenialReason.TPM_EXHAUSTED)
      else
        let l := tpm_starts now rt in
        if v <? token_sum l + requested then
          at_ms ← tpm_retry_at rt l requested v;
          mret (deny_until ReservationDenialReason.TPM_EXHAUSTED at_ms)
        else mret None
  end.

Definition monthly_denial (r : ReservationRequest) (rt : AccountRuntime) :
    result (option ReservationDenied) :=
  limit ← known_limit (ProviderAccount.monthly_quota_units (account rt));
  match limit with
  | None => mret None
  | Some v =>
      if v <? monthly_used rt + ReservationRequest.quota_units r
      then mret (deny_until ReservationDenialReason.MONTHLY_QUOTA_EXHAUSTED
                   (monthly_reset_at_ms rt))
      else mret None
  end.

(** [d] if it denies, else [k]. *)
Definition or_else (d : result (option ReservationDenied))
    (k : result (option ReservationDenied)) : result (option ReservationDenied) :=
  v ← d; match v with Some _ => mret v | None => k end.

(** The guards after purging the windows and rolling the month. *)
Definition capacity_denial (now : Z) (r : ReservationRequest) (rt : AccountRuntime) :
    result (option ReservationDenied) :=
  if QuotaDimension.is_known (ProviderAccount.monthly_quota_units (account rt)) &&
     (0 <? ReservationRequest.quota_units r) && (monthly_reset_at_ms rt =? 0)
  then mret (deny ReservationDenialReason.MONTHLY_RESET_UNAVAILABLE)
  else
    limit ← ProviderAccount.enforced_max_in_flight (account rt);
    if limit <=? active_count rt
    then mret (deny ReservationDenialReason.PARALLEL_EXHAUSTED)
    else or_else (rpm_denial now rt) (or_else (tpm_denial now r rt) (monthly_denial r rt)).

(** All guards of [try_reserve], with the state they leave. *)
Definition admission (status : JournalStatus) (clock_ms : Z) (r : ReservationRequest)
    (rt : AccountRuntime) : AccountRuntime * result (option ReservationDenied) :=
  match identity_denial status r rt with
  | Some d => (rt, Ok (Some d))
  | None =>
      let now := now_ms clock_ms rt in
      let rt := prune_resolutions now (tick clock_ms rt) in
      match ledger_denial now r rt with
      | Some d => (rt, Ok (Some d))
      | None =>
          let rt := roll_monthly now (purge_windows now rt) in
          (rt, capacity_denial now r rt)
      end
  end.

Section Ops.
Context {Snapshot : Type} {safe : SafeSnapshot Snapshot}.
Context (record_digest : Z → Payload → string → string).
Context (profile_digest : RequestProfile → string).
Context (resolution_digest : AttemptResolution → string).
Context (snapshot : AccountRuntime → Snapshot).

Definition on_journal {A} (m : M (AttemptJournal Snapshot) A) : M (World Snapshot) A := λ w,
  let '(j, r) := m (World.journal w) in (World.mk j (World.runtime w), r).
Definition put_runtime (rt : AccountRuntime) : M (World Snapshot) unit := λ w,
  (World.mk (World.journal w) rt, Ok tt).
Definition update (f : AccountRuntime → AccountRuntime) : M (World Snapshot) unit := λ w,
  (World.mk (World.journal w) (f (World.runtime w)), Ok tt).
Definition get_runtime : M (World Snapshot) AccountRuntime := λ w, (w, Ok (World.runtime w)).

(** [_maybe_checkpoint_locked] *)
Definition maybe_checkpoint_locked (io : JournalIO) : M (World Snapshot) unit :=
  rt ← get_runtime;
  if negb (bool_decide (ProviderAccount.state (account rt) = Some AccountState.ACTIVE))
  then on_journal (AttemptJournal.force_checkpoint io (snapshot rt))
  else on_journal (AttemptJournal.maybe_checkpoint io (snapshot rt));; mret tt.

Definition durable_reservation (now : Z) (r : ReservationRequest) (rt : AccountRuntime) :
    DurableReservation :=
  let i := ReservationRequest.runtime_identity r in
  {| DurableReservation.request_id := ReservationRequest.request_id r;
     DurableReservation.attempt_id := ReservationRequest.attempt_id r;
     DurableReservation.account_id := ReservationRequest.account_id r;
     DurableReservation.leg_id := ReservationRequest.leg_id r;
     DurableReservation.deployment_generation_id :=
       ReservationRequest.deployment_generation_id r;
     DurableReservation.installation_id := RuntimeIdentity.installation_id i;
     DurableReservation.bundle_generation := RuntimeIdentity.bundle_generation i;
     DurableReservation.bundle_hash := RuntimeIdentity.bundle_hash i;
     DurableReservation.fence_token := RuntimeIdentity.dispatcher_fence i;
     DurableReservation.boot_id := RuntimeIdentity.boot_id i;
     DurableReservation.deadline_at_ms := ReservationRequest.deadline_at_ms r;
     DurableReservation.profile_digest := profile_digest (ReservationRequest.profile r);
     DurableReservation.started_at_ms := now;
     DurableReservation.reserved_tokens := ReservationRequest.total_token_upper_bound r;
     DurableReservation.quota_units := ReservationRequest.quota_units r;
     DurableReservation.monthly_reset_at_ms := monthly_reset_at_ms rt;
     DurableReservation.circuit_epoch := CircuitValue.epoch (ReservationRequest.circuit r);
     DurableReservation.account_circuit_epoch :=
       CircuitValue.epoch (ReservationRequest.account_circuit r);
     DurableReservation.circuit_probe_id := CircuitValue.probe_id (ReservationRequest.circuit r);
     DurableReservation.account_circuit_probe_id :=
       CircuitValue.half_open_probe (account_circuit rt) |}.

(** The [_Start] and [_Attempt] of a durable reservation: live code and replay
    build them from the same values. *)
Definition start_of (d : DurableReservation) : Start :=
  Start.mk (DurableReservation.attempt_id d) (DurableReservation.started_at_ms d)
    (DurableReservation.reserved_tokens d) true.

Definition attempt_of (d : DurableReservation) : Attempt :=
  {| Attempt.attempt_id := DurableReservation.attempt_id d;
     Attempt.request_id := DurableReservation.request_id d;
     Attempt.leg_id := DurableReservation.leg_id d;
     Attempt.deployment_generation_id := DurableReservation.deployment_generation_id d;
     Attempt.installation_id := DurableReservation.installation_id d;
     Attempt.bundle_generation := DurableReservation.bundle_generation d;
     Attempt.bundle_hash := DurableReservation.bundle_hash d;
     Attempt.fence_token := DurableReservation.fence_token d;
     Attempt.boot_id := DurableReservation.boot_id d;
     Attempt.deadline_at_ms := DurableReservation.deadline_at_ms d;
     Attempt.profile_digest := DurableReservation.profile_digest d;
     Attempt.circuit_epoch := DurableReservation.circuit_epoch d;
     Attempt.account_circuit_epoch := DurableReservation.account_circuit_epoch d;
     Attempt.circuit_probe_id := DurableReservation.circuit_probe_id d;
     Attempt.account_circuit_probe_id := DurableReservation.account_circuit_probe_id d;
     Attempt.monthly_reset_at_ms := DurableReservation.monthly_reset_at_ms d;
     Attempt.started_at_ms := DurableReservation.started_at_ms d;
     Attempt.dispatched_at_ms := None;
     Attempt.dispatch_receipt := None;
     Attempt.reserved_tokens := DurableReservation.reserved_tokens d;
     Attempt.quota_units := DurableReservation.quota_units d;
     Attempt.state := "active" |}.

Definition consume_probes (ids : list string) (attempt_id : string)
    (d : dict string string) : dict string string :=
  foldl (λ d p, dset p attempt_id d) d ids.

Definition record_reservation (d : DurableReservation) (probes : list string)
    (rt : AccountRuntime) : AccountRuntime :=
  let attempt_id := DurableReservation.attempt_id d in
  rt{{ consumed_circuit_probes ::= consume_probes probes attempt_id;
       starts ::= dset attempt_id (start_of d);
       attempts ::= dset attempt_id (attempt_of d);
       monthly_used ::= λ u, u + DurableReservation.quota_units d }}.

(** [except JournalUnavailable as error] around the reservation. *)
Definition reserve_durably (io : JournalIO) (d : DurableReservation) :
    M (World Snapshot) (JournalReceipt + ReservationDenied) := λ w,
  match on_journal (AttemptJournal.reserve_before_send record_digest io d) w with
  | (w, Ok receipt) => (w, Ok (inl receipt))
  | (w, Err (JournalUnavailable message)) =>
      (w, Ok (inr (ReservationDenied.mk
        (if bool_decide (message = JournalStatus.value JournalStatus.ADMISSION_STOP)
         then ReservationDenialReason.JOURNAL_CAPACITY_STOP
         else ReservationDenialReason.JOURNAL_UNAVAILABLE) None)))
  | (w, Err e) => (w, Err e)
  end.

Definition try_reserve (io : JournalIO) (clock_ms : Z) (r : ReservationRequest) :
    M (World Snapshot) Reservation :=
  w ← get;
  let '(rt, verdict) := admission (AttemptJournal.status io (World.journal w)) clock_ms r
                          (World.runtime w) in
  put_runtime rt;;
  denied ← lift verdict;
  match denied with
  | Some d => mret (Denied d)
  | None =>
      let d := durable_reservation (now_ms clock_ms rt) r rt in
      answer ← reserve_durably io d;
      match answer with
      | inr d => mret (Denied d)
      | inl receipt =>
          update (record_reservation d (probe_ids r rt));;
          maybe_checkpoint_locked io;;
          mret (Granted r receipt)
      end
  end.

(** [Lease.terminal], [Lease.dispatched] *)
Definition lease_terminal (attempt_id : string) (rt : AccountRuntime) : bool :=
  dmem attempt_id (resolutions rt).
Definition lease_dispatched (attempt_id : string) (rt : AccountRuntime) : bool :=
  match dget attempt_id (attempts rt) with
  | Some a => bool_decide (is_Some (Attempt.dispatched_at_ms a))
  | None => false
  end.

(** [_mark_dispatched] *)
Definition mark_dispatched (io : JournalIO) (clock_ms : Z) (attempt_id : string) :
    M (World Snapshot) JournalReceipt :=
  rt ← get_runtime;
  match dget attempt_id (attempts rt) with
  | None => raise (InvalidLeaseTransition "unknown or terminal attempt cannot dispatch")
  | Some a =>
      if dmem attempt_id (resolutions rt)
      then raise (InvalidLeaseTransition "unknown or terminal attempt cannot dispatch")
      else
        match Attempt.dispatch_receipt a with
        | Some receipt => mret receipt
        | None =>
            let dispatched_at_ms := now_ms clock_ms rt in
            update (tick clock_ms);;
            if Attempt.deadline_at_ms a <=? dispatched_at_ms
            then raise (InvalidLeaseTransition "attempt deadline elapsed before dispatch")
            else
              receipt ← on_journal (AttemptJournal.append_receipt record_digest
                (Payload.attempt_dispatched attempt_id dispatched_at_ms));
              update (λ rt, rt{{ attempts ::= dset attempt_id
                (a{{ Attempt.dispatched_at_ms := Some dispatched_at_ms;
                     Attempt.dispatch_receipt := Some receipt }}) }});;
              maybe_checkpoint_locked io;;
              mret receipt
        end
  end.

(** The state changes of a resolution, common to [_finish] and to replay; they
    differ in when the monthly charge is adjusted. *)
Definition resolve_start (s : Start) (r : AttemptResolution) : Start :=
  let s := if bool_decide (AttemptResolution.actual_starts r = Some 0)
           then s{{ Start.counted_start := false }} else s in
  match AttemptResolution.actual_token_units r with
  | Some n => s{{ Start.tokens := n }}
  | None => s
  end.

(** [actual is not None and actual > reserved] *)
Definition exceeds (actual : option Z) (reserved : Z) : bool :=
  match actual with Some n => reserved <? n | None => false end.

Definition adjust_monthly (r : AttemptResolution) (a : Attempt) (same_month : bool) (used : Z) : Z :=
  match AttemptResolution.actual_quota_units r with
  | Some n => if same_month then Z.max 0 (used + (n - Attempt.quota_units a)) else used
  | None => used
  end.

Definition close_attempt (attempt_id : string) (a : Attempt) (r : AttemptResolution)
    (resolved : ResolvedAttempt) (rt : AccountRuntime) : AccountRuntime :=
  rt{{ attempts ::= if AttemptResolution.release_capacity r then ddel attempt_id
                    else dset attempt_id (a{{ Attempt.state := "uncertain"%string }});
       resolutions ::= dset attempt_id resolved }}.

(** [_finish] *)
Definition finish (io : JournalIO) (clock_ms : Z) (attempt_id : string) (r : AttemptResolution) :
    M (World Snapshot) JournalReceipt :=
  rt ← get_runtime;
  match dget attempt_id (resolutions rt) with
  | Some resolved =>
      if negb (bool_decide (ResolvedAttempt.resolution_digest resolved = resolution_digest r))
      then raise (InvalidLeaseTransition "conflicting terminal resolution")
      else mret (ResolvedAttempt.receipt resolved)
  | None =>
      match dget attempt_id (attempts rt) with
      | None => raise (InvalidLeaseTransition "unknown attempt cannot be resolved")
      | Some a =>
          if exceeds (AttemptResolution.actual_token_units r) (Attempt.reserved_tokens a)
          then raise (InvalidLeaseTransition "actual token usage exceeds reservation")
          else if exceeds (AttemptResolution.actual_quota_units r) (Attempt.quota_units a)
          then raise (InvalidLeaseTransition "actual quota usage exceeds reservation")
          else
            let resolved_at_ms := now_ms clock_ms rt in
            update (tick clock_ms);;
            receipt ← on_journal (AttemptJournal.append_receipt record_digest
              (Payload.attempt_resolved attempt_id (outcome_value (AttemptResolution.outcome r))
                 (AttemptResolution.release_capacity r) (AttemptResolution.actual_starts r)
                 (AttemptResolution.actual_token_units r)
                 (AttemptResolution.actual_quota_units r)
                 (resolution_digest r) resolved_at_ms));
            match dget attempt_id (starts rt) with
            | None => raise (KeyError attempt_id)
            | Some start =>
                update (λ rt, rt{{ starts ::= dset attempt_id (resolve_start start r);
                  monthly_used ::= adjust_monthly r a
                    (Attempt.monthly_reset_at_ms a =? monthly_reset_at_ms rt) }});;
                update (close_attempt attempt_id a r
                  (ResolvedAttempt.mk (resolution_digest r) receipt resolved_at_ms (dispatch a)));;
                maybe_checkpoint_locked io;;
                mret receipt
            end
      end
  end.

(** The [circuit_updated] payload of a replacement value. *)
Definition circuit_payload (account_id : string) (scope : CircuitScope.t)
    (generation : option string) (v : CircuitValue) : Payload :=
  Payload.circuit_updated account_id generation (CircuitScope.value scope)
    (CircuitState.value (CircuitValue.state v)) (CircuitCause.value <$> CircuitValue.cause v)
    (CircuitValue.opened_at_ms v) (CircuitValue.backoff_step v) (CircuitValue.evidence_digest v)
    (CircuitValue.epoch v) (CircuitValue.retry_at_ms v) (CircuitValue.probe_id v).

Definition forget_probe (p : option string) (d : dict string string) : dict string string :=
  match p with Some p => ddel p d | None => d end.

Definition account_id_of (rt : AccountRuntime) : string :=
  ProviderAccount.account_id (account rt).

Definition compare_and_swap_circuit (io : JournalIO) (generation : string)
    (expected replacement : CircuitValue) : M (World Snapshot) bool :=
  rt ← get_runtime;
  if negb (bool_decide (circuit_value rt generation = expected)) then mret false
  else if CircuitValue.epoch replacement <? CircuitValue.epoch expected
  then raise (ValueError "circuit epoch cannot decrease")
  else if bool_decide (replacement = expected) then mret true
  else
    on_journal (AttemptJournal.append record_digest
      (circuit_payload (account_id_of rt) CircuitScope.DEPLOYMENT (Some generation) replacement));;
    update (λ rt, rt{{
      consumed_circuit_probes ::= forget_probe (CircuitValue.probe_id expected);
      circuits ::= dset generation replacement }});;
    maybe_checkpoint_locked io;;
    mret true.

Definition compare_and_swap_account_circuit (io : JournalIO)
    (expected replacement : CircuitValue) : M (World Snapshot) bool :=
  rt ← get_runtime;
  if negb (bool_decide (account_circuit rt = expected)) then mret false
  else if CircuitValue.epoch replacement <? CircuitValue.epoch expected
  then raise (ValueError "circuit epoch cannot decrease")
  else if bool_decide (replacement = expected) then mret true
  else
    on_journal (AttemptJournal.append record_digest
      (circuit_payload (account_id_of rt) CircuitScope.ACCOUNT None replacement));;
    update (λ rt, rt{{
      consumed_circuit_probes ::= forget_probe (CircuitValue.probe_id expected);
      account_circuit := replacement }});;
    maybe_checkpoint_locked io;;
    mret true.

Definition capacity (clock_ms : Z) : M (World Snapshot) AccountCapacity :=
  rt ← get_runtime;
  let now := now_ms clock_ms rt in
  let rt := roll_monthly now (purge_windows now (tick clock_ms rt)) in
  put_runtime rt;;
  limit ← lift (ProviderAccount.enforced_max_in_flight (account rt));
  mret {| AccountCapacity.account_id := account_id_of rt;
          AccountCapacity.state :=
            default AccountState.DRAFT (ProviderAccount.state (account rt));
          AccountCapacity.parallel_limit := limit;
          AccountCapacity.active_attempts := active_count rt;
          AccountCapacity.uncertain_attempts := uncertain_count rt;
          AccountCapacity.rpm_starts := Z.of_nat (length (rpm_starts now rt));
          AccountCapacity.tpm_tokens := token_sum (tpm_starts now rt);
          AccountCapacity.monthly_quota_units := monthly_used rt;
          AccountCapacity.account_circuit := account_circuit rt;
          AccountCapacity.monthly_reset_at_ms := monthly_reset_at_ms rt;
          AccountCapacity.recovery_probe_in_flight := bool_decide (is_Some (recovery_probe_id rt));
          AccountCapacity.consumed_probe_tokens :=
            Z.of_nat (length (consumed_circuit_probes rt)) |}.

Definition apply_authoritative_active_count (io : JournalIO) (active : Z) :
    M (World Snapshot) unit :=
  if active <? 0 then raise (ValueError "authoritative active count cannot be negative")
  else
    rt ← get_runtime;
    if has_active rt
    then raise (ValueError "authoritative count cannot evict live active attempts")
    else
      on_journal (AttemptJournal.append record_digest
        (Payload.authoritative_active_count (account_id_of rt) active));;
      rt' ← lift (apply_active_count active rt);
      put_runtime rt';;
      maybe_checkpoint_locked io.

Definition begin_recovery_probe (io : JournalIO) (probe_id : string) : M (World Snapshot) bool :=
  if negb (String.prefix "probe_" probe_id)
  then raise (ValueError "recovery probe requires a typed probe ID")
  else
    rt ← get_runtime;
    if bool_decide (is_Some (recovery_probe_id rt)) || (uncertain_count rt =? 0) || has_active rt
    then mret false
    else
      on_journal (AttemptJournal.append record_digest
        (Payload.recovery_probe_started (account_id_of rt) probe_id));;
      update (λ rt, rt{{ recovery_probe_id := Some probe_id }});;
      maybe_checkpoint_locked io;;
      mret true.

Definition finish_recovery_probe (io : JournalIO) (probe_id : string) (c : ProbeClassification) :
    M (World Snapshot) unit :=
  rt ← get_runtime;
  if negb (bool_decide (recovery_probe_id rt = Some probe_id))
  then raise (ValueError "recovery probe is not the serialized active probe")
  else if has_active rt
  then raise (ValueError "recovery probe cannot evict live active attempts")
  else
    on_journal (AttemptJournal.append record_digest
      (Payload.recovery_probe_finished (account_id_of rt) probe_id
         (ProbeClassification.value c)));;
    update (apply_probe_finished c);;
    maybe_checkpoint_locked io.

(** [_attempt_exists] *)
Definition attempt_exists (attempt_id : string) (rt : AccountRuntime) : bool :=
  dmem attempt_id (attempts rt) && negb (dmem attempt_id (resolutions rt)).

(** [_provider_send_completed]; the journal's call only injects test crashes. *)
Definition provider_send_completed (attempt_id : string) : M (World Snapshot) unit :=
  rt ← get_runtime;
  if negb (dmem attempt_id (attempts rt)) || dmem attempt_id (resolutions rt)
  then raise (InvalidLeaseTransition "attempt is already terminal")
  else mret tt.
End Ops.
End AccountOps.
