(* ===== verification/AccountFacts.v ===== *)
(** * Facts of the account runtime

    What the housekeeping steps leave alone, what the guards of [try_reserve]
    say when they pass, and what each call does to the journal and to the
    state. *)
From S2P Require Export Account JournalFacts.
From Stdlib Require Import Ascii.

Module HousekeepingFacts.
Import AccountRuntime AccountOps.

(** The state a denied or granted reservation leaves is the old state up to
    clock, expired starts, expired resolutions and the monthly roll-over. *)
Definition housekeep (now clock_ms : Z) (rt : AccountRuntime) : AccountRuntime :=
  roll_monthly now (purge_windows now (prune_resolutions now (tick clock_ms rt))).

(** The fields only reservations, resolutions, circuits and probes change. *)
Record same_core (rt rt' : AccountRuntime) : Prop := {
  sc_account : account rt' = account rt;
  sc_attempts : attempts rt' = attempts rt;
  sc_circuits : circuits rt' = circuits rt;
  sc_account_circuit : account_circuit rt' = account_circuit rt;
  sc_consumed : consumed_circuit_probes rt' = consumed_circuit_probes rt;
  sc_holds : external_uncertain_holds rt' = external_uncertain_holds rt;
  sc_probe : recovery_probe_id rt' = recovery_probe_id rt;
}.

#[global] Instance same_core_preorder : PreOrder same_core.
Proof.
  split; [by split|]. intros x y z [] []. split; congruence.
Qed.

Lemma core_tick c rt : same_core rt (tick c rt).
Proof. by destruct rt. Qed.
Lemma core_prune n rt : same_core rt (prune_resolutions n rt).
Proof. by destruct rt. Qed.
Lemma core_purge n rt : same_core rt (purge_windows n rt).
Proof. by destruct rt. Qed.
Lemma core_roll n rt : same_core rt (roll_monthly n rt).
Proof. unfold roll_monthly. destruct (_ && _); by destruct rt. Qed.
Lemma core_housekeep n c rt : same_core rt (housekeep n c rt).
Proof.
  unfold housekeep. etrans; [|apply core_roll]. etrans; [|apply core_purge].
  etrans; [|apply core_prune]. apply core_tick.
Qed.

Lemma housekeep_starts n c rt : starts (housekeep n c rt) = starts (purge_windows n rt).
Proof. unfold housekeep, roll_monthly. destruct (_ && _); by destruct rt. Qed.
Lemma housekeep_resolutions n c rt :
  resolutions (housekeep n c rt) = resolutions (prune_resolutions n rt).
Proof. unfold housekeep, roll_monthly. destruct (_ && _); by destruct rt. Qed.
Lemma housekeep_limit n c rt :
  resolution_ledger_limit (housekeep n c rt) = resolution_ledger_limit rt.
Proof. unfold housekeep, roll_monthly. destruct (_ && _); by destruct rt. Qed.
Lemma housekeep_time n c rt : time_high_water_ms (housekeep n c rt) = now_ms c rt.
Proof. unfold housekeep, roll_monthly. destruct (_ && _); by destruct rt. Qed.
Lemma housekeep_now c rt : now_ms c (housekeep (now_ms c rt) c rt) = now_ms c rt.
Proof. unfold now_ms at 1. rewrite housekeep_time. unfold now_ms. lia. Qed.

(** Deleting a list of keys. *)
Definition ddels {V} (ks : list string) (d : dict string V) : dict string V :=
  foldl (λ d k, ddel k d) d ks.

Lemma dict_ok_ddels {V} ks (d : dict string V) : dict_ok d → dict_ok (ddels ks d).
Proof.
  revert d. induction ks as [|k ks IH]; intros d Hd; [done|]. by apply IH, dict_ok_ddel.
Qed.

Lemma dget_ddels {V} ks k (d : dict string V) : dict_ok d →
  dget k (ddels ks d) = if decide (k ∈ ks) then None else dget k d.
Proof.
  revert d. induction ks as [|k' ks IH]; intros d Hd.
  { rewrite decide_False; [done|]. apply not_elem_of_nil. }
  unfold ddels in *. cbn. rewrite IH by (by apply dict_ok_ddel).
  rewrite dget_ddel by done. repeat case_decide; set_solver.
Qed.

Lemma ddels_cons_ne {V} ks k (v : V) d : k ∉ ks → ddels ks ((k, v) :: d) = (k, v) :: ddels ks d.
Proof.
  revert d. induction ks as [|k' ks IH]; intros d Hn; [done|].
  apply not_elem_of_cons in Hn as [Hne Hn]. unfold ddels. cbn.
  rewrite decide_False by congruence. by apply IH.
Qed.

(** Deleting the keys of the entries that pass a test is a filter. *)
Lemma ddels_filter {V} (f : string * V → bool) (d : dict string V) : dict_ok d →
  ddels (List.filter f d).*1 d = List.filter (λ p, negb (f p)) d.
Proof.
  unfold dict_ok, dkeys. induction d as [|[k v] d IH]; cbn; [done|].
  intros [Hk Hd]%NoDup_cons. destruct (f (k, v)) eqn:E; cbn.
  - rewrite decide_True by done. by apply IH.
  - rewrite <-IH by done. apply (ddels_cons_ne _ k v d).
    intros Hin. apply Hk. apply list_elem_of_fmap in Hin as (p & -> & Hp).
    apply list_elem_of_fmap. exists p. split; [done|].
    apply list_elem_of_In, filter_In in Hp as [Hp _]. by apply list_elem_of_In.
Qed.

(** The test of [purge_windows]. *)
Definition start_expired (n : Z) (rt : AccountRuntime) (p : string * Start) : bool :=
  (Start.started_at_ms p.2 <=? n - MAX_ROLLING_WINDOW_SECONDS * 1000) &&
  negb (dmem p.1 (attempts rt)).

Lemma purge_ddels n rt : starts (purge_windows n rt) =
  ddels (List.filter (start_expired n rt) (starts rt)).*1 (starts rt).
Proof. by destruct rt. Qed.

Lemma purge_starts n rt : dict_ok (starts rt) →
  starts (purge_windows n rt) = List.filter (λ p, negb (start_expired n rt p)) (starts rt).
Proof. intros Hd. rewrite purge_ddels. by apply ddels_filter. Qed.

(** A start within the longest window, or of a live attempt, is kept. *)
Lemma purge_keeps n rt k s : dict_ok (starts rt) → dget k (starts rt) = Some s →
  n - MAX_ROLLING_WINDOW_SECONDS * 1000 < Start.started_at_ms s ∨ is_Some (dget k (attempts rt)) →
  dget k (starts (purge_windows n rt)) = Some s.
Proof.
  intros Hd Hk Hkeep. rewrite purge_ddels, dget_ddels by done. rewrite decide_False; [done|].
  intros Hin. apply list_elem_of_fmap in Hin as ([k' s'] & -> & Hp). cbn in *.
  apply list_elem_of_In, filter_In in Hp as [Hp Ht]. unfold start_expired in Ht. cbn in Ht.
  apply list_elem_of_In, elem_of_dget in Hp; [|done]. rewrite Hp in Hk. injection Hk as ->.
  bprop. destruct Ht as [Ht Hm]. apply dmem_false in Hm. destruct Hkeep as [|[? ?]]; [lia|congruence].
Qed.

Lemma purge_subset n rt k s : dict_ok (starts rt) →
  dget k (starts (purge_windows n rt)) = Some s → dget k (starts rt) = Some s.
Proof.
  intros Hd. rewrite purge_ddels, dget_ddels by done. by case_decide.
Qed.

Definition resolution_expired (n : Z) (rt : AccountRuntime) (p : string * ResolvedAttempt) : bool :=
  (ResolvedAttempt.resolved_at_ms p.2 <=? n - resolution_retention_ms rt) &&
  negb (dmem p.1 (attempts rt)).

Lemma prune_ddels n rt : resolutions (prune_resolutions n rt) =
  ddels (List.filter (resolution_expired n rt) (resolutions rt)).*1 (resolutions rt).
Proof. by destruct rt. Qed.

Lemma prune_subset n rt k v : dict_ok (resolutions rt) →
  dget k (resolutions (prune_resolutions n rt)) = Some v → dget k (resolutions rt) = Some v.
Proof. intros Hd. rewrite prune_ddels, dget_ddels by done. by case_decide. Qed.

(** The resolution of an attempt that still holds capacity is kept. *)
Lemma prune_keeps n rt k : dict_ok (resolutions rt) → is_Some (dget k (attempts rt)) →
  dget k (resolutions (prune_resolutions n rt)) = dget k (resolutions rt).
Proof.
  intros Hd Ha. rewrite prune_ddels, dget_ddels by done. rewrite decide_False; [done|].
  intros Hin. apply list_elem_of_fmap in Hin as ([k' v] & -> & Hp).
  apply list_elem_of_In, filter_In in Hp as [_ Ht]. unfold resolution_expired in Ht. cbn in Ht.
  bprop. destruct Ht as [_ Hm]. apply dmem_false in Hm. cbn in Ha. rewrite Hm in Ha.
  by destruct Ha.
Qed.

(** Purging changes no trailing window. *)
Lemma purge_window n rt (p : Start → bool) : dict_ok (starts rt) →
  (∀ s, p s = true → n - MAX_ROLLING_WINDOW_SECONDS * 1000 < Start.started_at_ms s) →
  List.filter p (dvalues (starts (purge_windows n rt))) = List.filter p (dvalues (starts rt)).
Proof.
  intros Hd Hp. rewrite (purge_starts n rt Hd). unfold dvalues. generalize (starts rt) as l.
  induction l as [|[k s] l IH]; cbn; [done|].
  destruct (p s) eqn:Ep.
  - unfold start_expired at 1. cbn. rewrite (proj2 (Z.leb_gt _ _)) by (by apply Hp).
    cbn. by rewrite Ep, IH.
  - destruct (negb _); cbn; by rewrite ?Ep, IH.
Qed.
End HousekeepingFacts.

Module OpFacts.
Import AccountRuntime AccountOps HousekeepingFacts AppendFacts.

(** ** The guards of [try_reserve] *)
Lemma admission_None status clock_ms r rt rt' :
  admission status clock_ms r rt = (rt', Ok None) →
  let now := now_ms clock_ms rt in
  rt' = housekeep now clock_ms rt ∧ identity_denial status r rt = None ∧
  ledger_denial now r (prune_resolutions now (tick clock_ms rt)) = None ∧
  capacity_denial now r rt' = Ok None.
Proof.
  unfold admission. destruct (identity_denial status r rt) eqn:Ei; [done|].
  destruct (ledger_denial _ _ _) eqn:El; [done|]. intros [= <- Hc]. by split_and!.
Qed.

Lemma admission_core status clock_ms r rt rt' v :
  admission status clock_ms r rt = (rt', v) → same_core rt rt'.
Proof.
  unfold admission. destruct (identity_denial status r rt); [by intros [= <- _]|].
  destruct (ledger_denial _ _ _); intros [= <- _].
  - etrans; [|apply core_prune]. apply core_tick.
  - apply core_housekeep.
Qed.

Lemma known_limit_Some q v : QuotaDimension.is_known q = true →
  QuotaDimension.value q = Some v → known_limit q = Ok (Some v).
Proof. unfold known_limit. by intros -> ->. Qed.

(** What the capacity guards establish when none denies. *)
Record capacity_left (now : Z) (r : ReservationRequest) (rt : AccountRuntime) : Prop := {
  cl_parallel : ∃ limit, ProviderAccount.enforced_max_in_flight (account rt) = Ok limit ∧
    active_count rt < limit;
  cl_rpm : ∀ v, known_limit (ProviderAccount.rpm_limit (account rt)) = Ok (Some v) →
    Z.of_nat (length (rpm_starts now rt)) < v;
  cl_tpm : ∀ v, known_limit (ProviderAccount.tpm_limit (account rt)) = Ok (Some v) →
    token_sum (tpm_starts now rt) + ReservationRequest.total_token_upper_bound r ≤ v;
  cl_monthly : ∀ v, known_limit (ProviderAccount.monthly_quota_units (account rt)) = Ok (Some v) →
    monthly_used rt + ReservationRequest.quota_units r ≤ v ∧
    (0 < ReservationRequest.quota_units r → monthly_reset_at_ms rt ≠ 0);
}.

Lemma or_else_None d k : or_else d k = Ok None → d = Ok None ∧ k = Ok None.
Proof. unfold or_else. by destruct d as [[]|]. Qed.

Lemma known_limit_known q v : known_limit q = Ok (Some v) → QuotaDimension.is_known q = true.
Proof. unfold known_limit. by destruct (QuotaDimension.is_known q). Qed.

Lemma capacity_None now r rt : capacity_denial now r rt = Ok None → capacity_left now r rt.
Proof.
  unfold capacity_denial. destruct (_ && _ && _) eqn:Em; [done|]. intros H.
  apply bind_Ok in H as (limit & Hl & H). destruct (limit <=? active_count rt) eqn:Ea; [done|].
  apply or_else_None in H as [Hr H]. apply or_else_None in H as [Ht Hm]. split.
  - exists limit. split; [done|lia].
  - intros v Hv. unfold rpm_denial in Hr. rewrite Hv in Hr. cbn in Hr.
    destruct (v <=? _) eqn:E; [|lia]. by destruct (py_min_of _).
  - intros v Hv. unfold tpm_denial in Ht. rewrite Hv in Ht. cbn in Ht.
    destruct (v <? _); [done|]. destruct (v <? _) eqn:E; [|lia]. by destruct (tpm_retry_at _ _ _ _).
  - intros v Hv. unfold monthly_denial in Hm. pose proof (known_limit_known _ _ Hv) as Hk.
    rewrite Hv in Hm. cbn in Hm. destruct (v <? _) eqn:E; [done|]. split; [lia|].
    rewrite Hk in Em. cbn in Em. intros Hq. rewrite (proj2 (Z.ltb_lt _ _) Hq) in Em. cbn in Em. lia.
Qed.

(** What the guards before the windows establish. *)
Record ledger_left (now : Z) (r : ReservationRequest) (rt : AccountRuntime) : Prop := {
  ll_bound : Z.of_nat (length (resolutions rt)) + unresolved rt < resolution_ledger_limit rt;
  ll_charge : ProviderAccount.quota_units_per_attempt (account rt) ≤ ReservationRequest.quota_units r;
  ll_deadline : now < ReservationRequest.deadline_at_ms r;
  ll_fresh : dget (ReservationRequest.attempt_id r) (attempts rt) = None ∧
    dget (ReservationRequest.attempt_id r) (starts rt) = None ∧
    dget (ReservationRequest.attempt_id r) (resolutions rt) = None;
  ll_account_circuit : account_circuit rt = ReservationRequest.account_circuit r ∧
    CircuitValue.state (account_circuit rt) ≠ CircuitState.OPEN;
  ll_circuit :
    circuit_value rt (ReservationRequest.deployment_generation_id r) = ReservationRequest.circuit r ∧
    CircuitValue.state (ReservationRequest.circuit r) ≠ CircuitState.OPEN;
  ll_probes : ∀ p, p ∈ probe_ids r rt → dget p (consumed_circuit_probes rt) = None;
}.

Lemma ledger_None now r rt : ledger_denial now r rt = None → ledger_left now r rt.
Proof.
  unfold ledger_denial. cbv zeta.
  destruct (resolution_ledger_limit rt <=? _) eqn:E1; [done|].
  destruct (_ <? ProviderAccount.quota_units_per_attempt _) eqn:E2; [done|].
  destruct (ReservationRequest.deadline_at_ms r <=? now) eqn:E3; [done|].
  destruct (_ || _ || _) eqn:E4; [done|].
  destruct (negb (bool_decide (account_circuit rt = _))) eqn:E5; [done|].
  destruct (CircuitValue.in_state _ (account_circuit rt)) eqn:E6; [done|].
  destruct (negb (bool_decide (circuit_value rt _ = _))) eqn:E7; [done|].
  destruct (CircuitValue.in_state _ (circuit_value rt _)) eqn:E8; [done|].
  destruct (existsb _ _) eqn:E9; [done|]. intros _.
  unfold CircuitValue.in_state in *. bprop. destruct E4 as [[A B] C].
  split; try lia; try done.
  - by rewrite <-!dmem_false.
  - split; [done|]. by rewrite <-E7.
  - intros p Hp. apply dmem_false. destruct (dmem p (consumed_circuit_probes rt)) eqn:Ep; [|done].
    assert (existsb (λ p, dmem p (consumed_circuit_probes rt)) (probe_ids r rt) = true) as Hx.
    { apply existsb_exists. exists p. split; [by apply list_elem_of_In|done]. }
    congruence.
Qed.

(** ** The calls *)
Section Calls.
Context {Snapshot : Type} {safe : SafeSnapshot Snapshot}.
Context (rd : Z → Payload → string → string).
Context (pd : RequestProfile → string).
Context (sd : AttemptResolution → string).
Context (snap : AccountRuntime → Snapshot).
Implicit Types w : World Snapshot.
Implicit Types j : AttemptJournal Snapshot.

(** Steps that touch neither the account's state nor the log. *)
Record same_log j j' : Prop := {
  sl_records : AttemptJournal.records j' = AttemptJournal.records j;
  sl_sequence : AttemptJournal.last_sequence j' = AttemptJournal.last_sequence j;
  sl_digest : AttemptJournal.last_digest j' = AttemptJournal.last_digest j;
  sl_writable : AttemptJournal.is_writable j' = true → AttemptJournal.is_writable j = true;
}.

#[global] Instance same_log_preorder : PreOrder same_log.
Proof. split; [by split|]. intros x y z [] []. split; [congruence..|auto]. Qed.

Abbreviation stopped j := (AttemptJournal.is_writable j = false).

Lemma write_checkpoint_log io sn j j' r :
  AttemptJournal.write_checkpoint io sn j = (j', r) → same_log j j'.
Proof.
  unfold AttemptJournal.write_checkpoint, mbind, M_bind, get, modify, raise, lift.
  destruct (validate_snapshot sn); [|by intros [= <- _]].
  destruct (AttemptJournal.is_writable j) eqn:Ew; cbn [negb]; [|by intros [= <- _]].
  destruct (default _ _) as [| |[]]; intros [= <- _]; try by destruct j.
  unfold AttemptJournal.checkpointed.
  destruct (AttemptJournal.checkpoints _) as [|? [|? []]]; by destruct j.
Qed.

Lemma checkpoint_quiet io w w' r : maybe_checkpoint_locked snap io w = (w', r) →
  World.runtime w' = World.runtime w ∧ same_log (World.journal w) (World.journal w').
Proof.
  unfold maybe_checkpoint_locked, on_journal, get_runtime,
    AttemptJournal.force_checkpoint, AttemptJournal.maybe_checkpoint, get.
  unfold mbind, M_bind. cbn beta iota.
  destruct (negb (bool_decide (ProviderAccount.state _ = _)));
    [|destruct (negb (AttemptJournal.checkpoint_due io (World.journal w)))].
  - destruct (AttemptJournal.write_checkpoint _ _ _) as [j' r'] eqn:E. intros [= <- _].
    split; [done|]. by eapply write_checkpoint_log.
  - by intros [= <- _].
  - destruct (AttemptJournal.write_checkpoint _ _ _) as [j' [u|e]] eqn:E;
      intros [= <- _]; (split; [done|]); by eapply write_checkpoint_log.
Qed.

(** A call of the journal that raised. *)
Definition failed j j' : Prop := same_log j j' ∨
  (stopped j' ∧ ∃ extra, AttemptJournal.records j' = AttemptJournal.records j ++ extra ∧
     (length extra ≤ 1)%nat).

Lemma append_raises p j j' e : AttemptJournal.append rd p j = (j', Err e) → failed j j'.
Proof.
  intros H. apply append_Err in H as [H|(Hr & Hs & Hd & Hw)]; [by right|left]. by split.
Qed.

Lemma append_receipt_cases p j j' r : AttemptJournal.append_receipt rd p j = (j', r) →
  match r with
  | Ok receipt => ∃ rec, appended rd p j j' rec ∧ receipt = AttemptJournal.receipt rec
  | Err _ => failed j j'
  end.
Proof.
  unfold AttemptJournal.append_receipt. destruct r as [receipt|e]; intros H.
  - apply M_bind_Ok in H as (j1 & rec & H & [= <- <-]). exists rec. split; [|done].
    by apply append_Ok.
  - apply M_bind_Err in H as [H|(j1 & rec & _ & [=])]. by eapply append_raises.
Qed.

Lemma reserve_before_send_cases io d j j' r :
  AttemptJournal.reserve_before_send rd io d j = (j', r) →
  match r with
  | Ok receipt => ∃ rec, appended rd (Payload.attempt_reserved d) j j' rec ∧
      receipt = AttemptJournal.receipt rec
  | Err _ => failed j j'
  end.
Proof.
  unfold AttemptJournal.reserve_before_send. intros H. unfold mbind at 1, M_bind at 1, get in H.
  destruct (negb (bool_decide _)); [injection H as <- <-; by left|].
  destruct (negb (JournalIO.reservation_fits io)); [injection H as <- <-; by left|].
  by apply append_receipt_cases.
Qed.

(** A granted reservation: every guard passed, the reservation is in the log,
    and the state records it. *)
Record granted (io : JournalIO) (clock_ms : Z) (r : ReservationRequest) w w'
    (receipt : JournalReceipt) (now : Z) (rt : AccountRuntime) (d : DurableReservation) : Prop := {
  gr_identity : identity_denial (AttemptJournal.status io (World.journal w)) r
                  (World.runtime w) = None;
  gr_ledger : ledger_left now r (prune_resolutions now (tick clock_ms (World.runtime w)));
  gr_capacity : capacity_left now r rt;
  gr_append : ∃ j rec,
    appended rd (Payload.attempt_reserved d) (World.journal w) j rec ∧
    receipt = AttemptJournal.receipt rec ∧ same_log j (World.journal w');
  gr_runtime : World.runtime w' = record_reservation d (probe_ids r rt) rt;
}.

(** Every outcome of [try_reserve]: the reservation is recorded, and granted
    unless the checkpoint after it failed; or it is refused, and the log and
    the core of the state are unchanged, unless the journal stopped. *)
Lemma try_reserve_cases io clock_ms r w w' res :
  try_reserve rd pd snap io clock_ms r w = (w', res) →
  let now := now_ms clock_ms (World.runtime w) in
  let rt := housekeep now clock_ms (World.runtime w) in
  (∃ receipt, granted io clock_ms r w w' receipt now rt (durable_reservation pd now r rt) ∧
     (res = Ok (Granted r receipt) ∨ ∃ e, res = Err e)) ∨
  ((∀ r' receipt, res ≠ Ok (Granted r' receipt)) ∧
   (stopped (World.journal w') ∨
    (same_log (World.journal w) (World.journal w') ∧
     same_core (World.runtime w) (World.runtime w')))).
Proof.
  intros H now rt. unfold try_reserve in H. unfold mbind at 1, M_bind at 1, get in H.
  destruct (admission _ _ _ _) as [rt1 v] eqn:Ea.
  pose proof (admission_core _ _ _ _ _ _ Ea) as Hcore.
  unfold mbind at 1, M_bind at 1, put_runtime in H. cbn [World.journal] in H.
  unfold mbind at 1, M_bind at 1, lift in H.
  destruct v as [[d|]|e].
  { injection H as <- <-. right. split; [done|]. by right. }
  2: { injection H as <- <-. right. split; [done|]. by right. }
  apply admission_None in Ea as (-> & Hi & Hl & Hc). fold now in Hl, Hc. fold now rt in Hcore, Hc, H.
  assert (now_ms clock_ms rt = now) as Hnow by apply housekeep_now. rewrite Hnow in H.
  unfold mbind at 1, M_bind at 1, reserve_durably, on_journal in H.
  cbn [World.journal World.runtime] in H.
  destruct (AttemptJournal.reserve_before_send _ _ _ _) as [j1 r1] eqn:Er.
  apply reserve_before_send_cases in Er. destruct r1 as [rc|e].
  - destruct Er as (rec & Happ & ->).
    unfold mbind at 1, M_bind at 1, update in H. cbn [World.journal World.runtime] in H.
    unfold mbind at 1, M_bind at 1 in H.
    destruct (maybe_checkpoint_locked _ _ _) as [w5 r5] eqn:Eq.
    assert (w' = w5) as -> by (destruct r5; by injection H as <- _).
    apply checkpoint_quiet in Eq as (Hrt & Hlog). cbn in Hrt, Hlog.
    left. exists (AttemptJournal.receipt rec). split.
    + split; [done|by apply ledger_None|by apply capacity_None|by exists j1, rec|done].
    + destruct r5; injection H as <-; [by left|right; eauto].
  - assert (w' = World.mk j1 rt ∧ ∀ r' receipt, res ≠ Ok (Granted r' receipt)) as [-> Hno]
      by (destruct e; by injection H as <- <-).
    right. split; [done|]. destruct Er as [Er|[Er _]]; [by right|by left].
Qed.

Lemma try_reserve_Granted io clock_ms r w w' r' receipt :
  try_reserve rd pd snap io clock_ms r w = (w', Ok (Granted r' receipt)) →
  let now := now_ms clock_ms (World.runtime w) in
  let rt := housekeep now clock_ms (World.runtime w) in
  r' = r ∧ granted io clock_ms r w w' receipt now rt (durable_reservation pd now r rt).
Proof.
  intros H. apply try_reserve_cases in H as [(rc & Hg & [Heq|[e Heq]])|[Hno _]]; [|done|].
  - injection Heq as -> ->. done.
  - by destruct (Hno r' receipt).
Qed.

(** The state after a resolution. *)
Definition resolve_charges (start : Start) (a : Attempt) (attempt_id : string)
    (r : AttemptResolution) (rt : AccountRuntime) : AccountRuntime :=
  rt{{ starts ::= dset attempt_id (resolve_start start r);
       monthly_used ::= adjust_monthly r a (Attempt.monthly_reset_at_ms a =? monthly_reset_at_ms rt) }}.

Definition finish_runtime (clock_ms : Z) (attempt_id : string) (a : Attempt) (start : Start)
    (r : AttemptResolution) (receipt : JournalReceipt) (rt : AccountRuntime) : AccountRuntime :=
  close_attempt attempt_id a r
    (ResolvedAttempt.mk (sd r) receipt (now_ms clock_ms rt) (dispatch a))
    (resolve_charges start a attempt_id r (tick clock_ms rt)).

Definition resolved_payload (clock_ms : Z) (attempt_id : string) (r : AttemptResolution)
    (rt : AccountRuntime) : Payload :=
  Payload.attempt_resolved attempt_id (outcome_value (AttemptResolution.outcome r))
    (AttemptResolution.release_capacity r) (AttemptResolution.actual_starts r)
    (AttemptResolution.actual_token_units r) (AttemptResolution.actual_quota_units r)
    (sd r) (now_ms clock_ms rt).

Definition at_most (o : option Z) (n : Z) : Prop := ∀ m, o = Some m → m ≤ n.

Record finished (clock_ms : Z) (attempt_id : string) (r : AttemptResolution) w w'
    (receipt : JournalReceipt) (a : Attempt) (start : Start) : Prop := {
  fi_attempt : dget attempt_id (attempts (World.runtime w)) = Some a;
  fi_start : dget attempt_id (starts (World.runtime w)) = Some start;
  fi_unresolved : dget attempt_id (resolutions (World.runtime w)) = None;
  fi_tokens : at_most (AttemptResolution.actual_token_units r) (Attempt.reserved_tokens a);
  fi_quota : at_most (AttemptResolution.actual_quota_units r) (Attempt.quota_units a);
  fi_append : ∃ j rec,
    appended rd (resolved_payload clock_ms attempt_id r (World.runtime w)) (World.journal w) j rec ∧
    receipt = AttemptJournal.receipt rec ∧ same_log j (World.journal w');
  fi_runtime : World.runtime w' =
    finish_runtime clock_ms attempt_id a start r receipt (World.runtime w);
}.

(** A resolution either answers from the ledger without a change, or is the
    first of its attempt. *)
Lemma finish_Ok io clock_ms attempt_id r w w' receipt :
  finish rd sd snap io clock_ms attempt_id r w = (w', Ok receipt) →
  (w' = w ∧ ∃ v, dget attempt_id (resolutions (World.runtime w)) = Some v ∧
     ResolvedAttempt.resolution_digest v = sd r ∧ receipt = ResolvedAttempt.receipt v) ∨
  ∃ a start, finished clock_ms attempt_id r w w' receipt a start.
Proof.
  intros H. unfold finish in H. apply M_bind_Ok in H as (w0 & rt & [= <- <-] & H).
  destruct (dget attempt_id (resolutions _)) as [v|] eqn:Er.
  { destruct (negb (bool_decide _)) eqn:Ed; [discriminate H|]. injection H as <- <-.
    left. split; [done|]. exists v. bprop. done. }
  destruct (dget attempt_id (attempts _)) as [a|] eqn:Ea; [|discriminate H].
  destruct (exceeds (AttemptResolution.actual_token_units r) _) eqn:Et; [by cbn in H|].
  destruct (exceeds (AttemptResolution.actual_quota_units r) _) eqn:Eq; [by cbn in H|].
  apply M_bind_Ok in H as (w1 & [] & [= <-] & H).
  apply M_bind_Ok in H as (w2 & rc & Hj & H).
  unfold on_journal in Hj. cbn [World.journal World.runtime] in Hj.
  destruct (AttemptJournal.append_receipt _ _ _) as [j1 r1] eqn:Ej. injection Hj as <- ->.
  apply append_receipt_cases in Ej as (rec & Happ & ->).
  destruct (dget attempt_id (starts _)) as [start|] eqn:Es; [|discriminate H].
  apply M_bind_Ok in H as (w3 & [] & [= <-] & H). apply M_bind_Ok in H as (w4 & [] & [= <-] & H).
  apply M_bind_Ok in H as (w5 & [] & Hq & [= <- <-]).
  apply checkpoint_quiet in Hq as (Hrt & Hlog). cbn in Hrt, Hlog.
  right. exists a, start. split; try done.
  - intros m Hm. rewrite Hm in Et. cbn in Et. lia.
  - intros m Hm. rewrite Hm in Eq. cbn in Eq. lia.
  - by exists j1, rec.
Qed.

End Calls.
End OpFacts.
