(* ===== verification/AccountSteps.v ===== *)
(** * The account runtime as a state machine

    [step rt l rt'] is one change of an account's state: silent when it is
    housekeeping, labelled with the journal record when it is journaled.  The
    calls of [AccountOps] refine it, and its invariant holds by rule
    induction. *)
From S2P Require Export AccountFacts.
From Stdlib Require Import Ascii.

Module AccountMachine.
Import AccountRuntime AccountOps.

Definition durable_probes (d : DurableReservation) : list string :=
  omap id [DurableReservation.account_circuit_probe_id d; DurableReservation.circuit_probe_id d].

Definition mark_sent (attempt_id : string) (a : Attempt) (at_ms : Z) (receipt : JournalReceipt)
    (rt : AccountRuntime) : AccountRuntime :=
  rt{{ attempts ::= dset attempt_id (a{{ Attempt.dispatched_at_ms := Some at_ms;
                                        Attempt.dispatch_receipt := Some receipt }}) }}.

Definition set_circuit (generation : string) (expected replacement : CircuitValue)
    (rt : AccountRuntime) : AccountRuntime :=
  rt{{ consumed_circuit_probes ::= forget_probe (CircuitValue.probe_id expected);
       circuits ::= dset generation replacement }}.

Definition set_account_circuit (expected replacement : CircuitValue) (rt : AccountRuntime) :
    AccountRuntime :=
  rt{{ consumed_circuit_probes ::= forget_probe (CircuitValue.probe_id expected);
       account_circuit := replacement }}.

(** A circuit carries a probe only while it is half open. *)
Definition probe_ok (v : CircuitValue) : Prop :=
  CircuitValue.probe_id v = CircuitValue.half_open_probe v.

Definition nonneg (o : option Z) : Prop := ∀ n, o = Some n → 0 ≤ n.

Inductive step : AccountRuntime → option JournalRecord → AccountRuntime → Prop :=
| step_tick c rt : step rt None (tick c rt)
| step_prune n rt : step rt None (prune_resolutions n rt)
| step_purge n rt : step rt None (purge_windows n rt)
| step_roll n rt : step rt None (roll_monthly n rt)
| step_account a c rt rt' : ProviderAccount.validate a = Ok a →
    update_account a c rt = Ok rt' → step rt None rt'
| step_reserve rec d rt :
    JournalRecord.payload rec = Payload.attempt_reserved d →
    DurableReservation.account_id d = account_id_of rt →
    let k := DurableReservation.attempt_id d in
    dget k (attempts rt) = None → dget k (starts rt) = None → dget k (resolutions rt) = None →
    DurableReservation.started_at_ms d = time_high_water_ms rt →
    DurableReservation.monthly_reset_at_ms d = monthly_reset_at_ms rt →
    0 ≤ DurableReservation.reserved_tokens d → 0 ≤ DurableReservation.quota_units d →
    Z.of_nat (length (resolutions rt)) + unresolved rt < resolution_ledger_limit rt →
    step rt (Some rec) (record_reservation d (durable_probes d) rt)
| step_dispatch rec k a at_ms rt :
    JournalRecord.payload rec = Payload.attempt_dispatched k at_ms →
    dget k (attempts rt) = Some a → dget k (resolutions rt) = None →
    Attempt.dispatch_receipt a = None →
    step rt (Some rec) (mark_sent k a at_ms (AttemptJournal.receipt rec) rt)
| step_resolve rec k a start r at_ms digest rt :
    JournalRecord.payload rec =
      Payload.attempt_resolved k (outcome_value (AttemptResolution.outcome r))
        (AttemptResolution.release_capacity r) (AttemptResolution.actual_starts r)
        (AttemptResolution.actual_token_units r) (AttemptResolution.actual_quota_units r)
        digest at_ms →
    dget k (attempts rt) = Some a → dget k (starts rt) = Some start →
    dget k (resolutions rt) = None →
    OpFacts.at_most (AttemptResolution.actual_token_units r) (Attempt.reserved_tokens a) →
    OpFacts.at_most (AttemptResolution.actual_quota_units r) (Attempt.quota_units a) →
    nonneg (AttemptResolution.actual_token_units r) →
    step rt (Some rec)
      (close_attempt k a r
         (ResolvedAttempt.mk digest (AttemptJournal.receipt rec) at_ms (dispatch a))
         (OpFacts.resolve_charges start a k r rt))
| step_circuit rec generation expected replacement rt :
    JournalRecord.payload rec =
      circuit_payload (account_id_of rt) CircuitScope.DEPLOYMENT (Some generation) replacement →
    is_ok (typed_id_new DeploymentGenerationId generation) = true →
    circuit_value rt generation = expected →
    CircuitValue.epoch expected ≤ CircuitValue.epoch replacement →
    CircuitValue.validate replacement = Ok replacement →
    step rt (Some rec) (set_circuit generation expected replacement rt)
| step_account_circuit rec expected replacement rt :
    JournalRecord.payload rec =
      circuit_payload (account_id_of rt) CircuitScope.ACCOUNT None replacement →
    account_circuit rt = expected →
    CircuitValue.epoch expected ≤ CircuitValue.epoch replacement →
    CircuitValue.validate replacement = Ok replacement →
    step rt (Some rec) (set_account_circuit expected replacement rt)
| step_active_count rec n rt rt' :
    JournalRecord.payload rec = Payload.authoritative_active_count (account_id_of rt) n →
    0 ≤ n → apply_active_count n rt = Ok rt' →
    step rt (Some rec) rt'
| step_probe_started rec p rt :
    JournalRecord.payload rec = Payload.recovery_probe_started (account_id_of rt) p →
    recovery_probe_id rt = None → has_active rt = false →
    step rt (Some rec) (rt{{ recovery_probe_id := Some p }})
| step_probe_finished rec p c rt :
    JournalRecord.payload rec =
      Payload.recovery_probe_finished (account_id_of rt) p (ProbeClassification.value c) →
    recovery_probe_id rt = Some p → has_active rt = false →
    step rt (Some rec) (apply_probe_finished c rt).

(** The windows a validated account may have. *)
Definition windows_ok (a : ProviderAccount) : Prop :=
  1 ≤ ProviderAccount.rpm_window_seconds a ≤ MAX_ROLLING_WINDOW_SECONDS ∧
  1 ≤ ProviderAccount.tpm_window_seconds a ≤ MAX_ROLLING_WINDOW_SECONDS.

(** Runs, with the records they journal. *)
Inductive steps : AccountRuntime → list JournalRecord → AccountRuntime → Prop :=
| steps_nil rt : steps rt [] rt
| steps_cons rt l rt1 ls rt2 : step rt l rt1 → steps rt1 ls rt2 →
    steps rt (option_list l ++ ls) rt2.

Lemma steps_one rt l rt' : step rt l rt' → steps rt (option_list l) rt'.
Proof. intros H. rewrite <-(app_nil_r (option_list l)). econstructor; [exact H|constructor]. Qed.

Lemma steps_app rt ls rt1 ls' rt2 : steps rt ls rt1 → steps rt1 ls' rt2 → steps rt (ls ++ ls') rt2.
Proof.
  induction 1 as [|rt l rt1 ls rt2' H Hs IH]; [done|].
  intros H2. rewrite <-(assoc_L (++)). econstructor; eauto.
Qed.

(** ** The invariant *)
Record inv (rt : AccountRuntime) : Prop := {
  i_starts : dict_ok (starts rt);
  i_attempts : dict_ok (attempts rt);
  i_resolutions : dict_ok (resolutions rt);
  i_circuits : dict_ok (circuits rt);
  i_consumed : dict_ok (consumed_circuit_probes rt);
  i_started : ∀ k, is_Some (dget k (attempts rt)) → is_Some (dget k (starts rt));
  i_ids : ∀ k a, dget k (attempts rt) = Some a → Attempt.attempt_id a = k;
  i_start_ids : ∀ k s, dget k (starts rt) = Some s → Start.attempt_id s = k;
  i_resolved : ∀ k a, dget k (attempts rt) = Some a → is_Some (dget k (resolutions rt)) →
    Attempt.is_active a = false;
  i_circuit : CircuitValue.validate (account_circuit rt) = Ok (account_circuit rt);
  i_deployments : ∀ g v, dget g (circuits rt) = Some v → CircuitValue.validate v = Ok v;
  i_tokens : ∀ k s, dget k (starts rt) = Some s →
    0 ≤ Start.tokens s ∧ Start.started_at_ms s ≤ time_high_water_ms rt;
  i_monthly : 0 ≤ monthly_used rt;
  i_holds : 0 ≤ external_uncertain_holds rt;
  i_windows : windows_ok (account rt);
}.

Lemma validate_windows a a' : ProviderAccount.validate a = Ok a' → windows_ok a.
Proof.
  unfold ProviderAccount.validate. intros H.
  assert (ProviderAccount.fields_ok a = true) as Hf.
  { inv_ok_step H. by apply negb_false_iff. }
  unfold ProviderAccount.fields_ok, bounded in Hf. rewrite !andb_true_iff, !Z.leb_le in Hf.
  unfold windows_ok, MAX_ROLLING_WINDOW_SECONDS. lia.
Qed.

Lemma inv_init a limit retention c : ProviderAccount.validate a = Ok a →
  inv (init a limit retention c).
Proof. intros Ha%validate_windows. by split; cbn; try apply dict_ok_nil; try done; intros ? []. Qed.

Lemma validate_probe_ok v : CircuitValue.validate v = Ok v → probe_ok v.
Proof.
  unfold CircuitValue.validate, probe_ok, CircuitValue.half_open_probe. intros H. inv_ok H.
  destruct (CircuitValue.in_state CircuitState.HALF_OPEN v) eqn:Eh; [done|].
  assert (CircuitValue.has_probe v = false) as Hp.
  { unfold CircuitValue.in_state in *. destruct v as [st ca ep op re ba ev pr]; cbn in *.
    destruct st; cbn in *; bprop; try tauto. }
  unfold CircuitValue.has_probe in Hp. unfold CircuitValue.fields_ok in G.
  destruct (CircuitValue.probe_id v) as [p|]; [|done]. bprop in Hp. subst p.
  apply negb_false_iff, andb_true_iff in G as [_ G]. by vm_compute in G.
Qed.

(** Silent steps. *)
Lemma inv_tick c rt : inv rt → inv (tick c rt).
Proof.
  intros []. split; destruct rt; cbn in *; try done.
  intros k s Hk. destruct (i_tokens0 k s Hk). unfold now_ms. cbn. lia.
Qed.

Lemma inv_prune n rt : inv rt → inv (prune_resolutions n rt).
Proof.
  intros Hi. pose proof Hi as []. pose proof (HousekeepingFacts.prune_subset n rt) as Hs.
  split; try (destruct rt; done).
  - rewrite HousekeepingFacts.prune_ddels. by apply HousekeepingFacts.dict_ok_ddels.
  - intros k a Ha [v Hv]. apply Hs in Hv; [|done]. apply (i_resolved0 k); [by destruct rt|by exists v].
Qed.

Lemma inv_purge n rt : inv rt → inv (purge_windows n rt).
Proof.
  intros Hi. pose proof Hi as [].
  split; try (destruct rt; done).
  - rewrite HousekeepingFacts.purge_ddels. by apply HousekeepingFacts.dict_ok_ddels.
  - intros k Ha. assert (is_Some (dget k (attempts rt))) as Ha' by (by destruct rt).
    destruct (i_started0 k Ha') as [s Hs]. exists s.
    apply HousekeepingFacts.purge_keeps; [done|done|by right].
  - intros k s Hk. apply HousekeepingFacts.purge_subset in Hk; [|done]. by apply i_start_ids0.
  - intros k s Hk. apply HousekeepingFacts.purge_subset in Hk; [|done].
    destruct (i_tokens0 k s Hk). by destruct rt.
Qed.

Lemma inv_roll n rt : inv rt → inv (roll_monthly n rt).
Proof. intros []. unfold roll_monthly. destruct (_ && _); [|by split]. by split; destruct rt. Qed.

Lemma inv_account a c rt rt' : inv rt → windows_ok a → update_account a c rt = Ok rt' → inv rt'.
Proof.
  intros Hi Hw H. unfold update_account in H. inv_ok H. subst rt'. clear G.
  apply (inv_tick c), (inv_roll (now_ms c rt)) in Hi.
  generalize dependent (roll_monthly (now_ms c rt) (tick c rt)). intros rt1 [].
  destruct (_ || _); by split; destruct rt1.
Qed.

(** Journaled steps. *)
Lemma dict_ok_consume ids k d : dict_ok d → dict_ok (consume_probes ids k d).
Proof.
  revert d. induction ids as [|p ids IH]; intros d Hd; [done|]. by apply IH, dict_ok_dset.
Qed.

Lemma dict_ok_forget p d : dict_ok d → dict_ok (forget_probe p d).
Proof. destruct p; [apply dict_ok_ddel|done]. Qed.

Lemma inv_reserve d probes rt : inv rt →
  let k := DurableReservation.attempt_id d in
  dget k (resolutions rt) = None →
  DurableReservation.started_at_ms d = time_high_water_ms rt →
  0 ≤ DurableReservation.reserved_tokens d → 0 ≤ DurableReservation.quota_units d →
  inv (record_reservation d probes rt).
Proof.
  intros [] k Hr Ht Hn Hq. destruct rt as [ac lim ret st at_ re ci acc co mu th mr eh rp].
  cbn in *. split; cbn; try done; try lia; try by apply dict_ok_dset.
  - by apply dict_ok_consume.
  - intros k'. rewrite !dget_dset. case_decide; [by eauto|]. apply i_started0.
  - intros k' a. rewrite dget_dset. case_decide; [intros Heq; by injection Heq as <-|]. apply i_ids0.
  - intros k' s. rewrite dget_dset. case_decide; [|apply i_start_ids0].
    intros Heq. injection Heq as <-. by subst k.
  - intros k' a. rewrite dget_dset. case_decide as Hk; [|apply i_resolved0].
    intros _ [v Hv]. subst k'. unfold k in Hr. congruence.
  - intros k' s. rewrite dget_dset. case_decide; [|apply i_tokens0].
    intros Heq. injection Heq as <-. cbn. lia.
Qed.

Lemma inv_dispatch k a at_ms receipt rt : inv rt → dget k (attempts rt) = Some a →
  inv (mark_sent k a at_ms receipt rt).
Proof.
  intros [] Ha. destruct rt as [ac lim ret st at_ re ci acc co mu th mr eh rp].
  cbn in *. split; cbn; try done; try by apply dict_ok_dset.
  - intros k'. rewrite dget_dset. case_decide; [|apply i_started0]. intros _. subst. eauto.
  - intros k' a'. rewrite dget_dset. case_decide; [|apply i_ids0].
    intros Heq. injection Heq as <-. subst. rewrite <-(i_ids0 _ _ Ha). by destruct a.
  - intros k' a'. rewrite dget_dset. case_decide; [|apply i_resolved0].
    intros Heq Hv. injection Heq as <-. subst. specialize (i_resolved0 _ _ Ha Hv). by destruct a.
Qed.

Lemma inv_resolve k a start r v rt : inv rt →
  dget k (attempts rt) = Some a → dget k (starts rt) = Some start →
  nonneg (AttemptResolution.actual_token_units r) →
  inv (close_attempt k a r v (OpFacts.resolve_charges start a k r rt)).
Proof.
  intros [] Ha Hs Hn. pose proof (i_tokens0 _ _ Hs) as Htk.
  assert (0 ≤ Start.tokens (resolve_start start r) ∧
          Start.started_at_ms (resolve_start start r) = Start.started_at_ms start ∧
          Start.attempt_id (resolve_start start r) = Start.attempt_id start) as (Hrt & Hrs & Hri).
  { unfold resolve_start. destruct (bool_decide _), (AttemptResolution.actual_token_units r)
      as [n|] eqn:En, start; cbn in *; (split_and!; [|done|done]); try lia; by apply Hn. }
  destruct rt as [ac lim ret st at_ re ci acc co mu th mr eh rp]. cbn in *.
  assert (∀ k' a', dget k' ((if AttemptResolution.release_capacity r then ddel k
      else dset k (a{{ Attempt.state := "uncertain"%string }})) at_) = Some a' →
      (k' = k ∧ Attempt.attempt_id a' = k ∧ Attempt.is_active a' = false) ∨
      (k' ≠ k ∧ dget k' at_ = Some a')) as Hat.
  { intros k' a'. destruct (AttemptResolution.release_capacity r).
    - rewrite dget_ddel by done. case_decide; [done|]. by right.
    - rewrite dget_dset. case_decide; [|by right]. intros Heq. injection Heq as <-. left.
      pose proof (i_ids0 _ _ Ha). split_and!; [done|by destruct a..]. }
  split; cbn; try done; try by apply dict_ok_dset.
  - destruct (AttemptResolution.release_capacity r); [by apply dict_ok_ddel|by apply dict_ok_dset].
  - intros k' [a' Ha']. rewrite dget_dset. case_decide; [by eauto|].
    destruct (Hat _ _ Ha') as [[-> _]|[_ H']]; [done|]. by eauto.
  - intros k' a' Ha'. destruct (Hat _ _ Ha') as [(-> & H' & _)|[_ H']]; [done|by apply i_ids0].
  - intros k' s'. rewrite dget_dset. case_decide; [|apply i_start_ids0]. intros Heq.
    injection Heq as <-. rewrite Hri, (i_start_ids0 _ _ Hs). done.
  - intros k' a' Ha'. destruct (Hat _ _ Ha') as [(-> & _ & H')|[Hne H']]; [done|].
    rewrite dget_dset_ne by done. by apply i_resolved0.
  - intros k' s'. rewrite dget_dset. case_decide; [|apply i_tokens0]. intros Heq.
    injection Heq as <-. lia.
  - unfold adjust_monthly. destruct (AttemptResolution.actual_quota_units r); [|done].
    destruct (_ =? _); lia.
Qed.

Lemma inv_circuit g e v rt : inv rt → CircuitValue.validate v = Ok v → inv (set_circuit g e v rt).
Proof.
  intros [] Hv. destruct rt. cbn in *. split; cbn; try done.
  - by apply dict_ok_dset.
  - by apply dict_ok_forget.
  - intros g' v'. rewrite dget_dset.
    case_decide; [intros Heq; by injection Heq as <-|]. apply i_deployments0.
Qed.

Lemma inv_account_circuit e v rt : inv rt → CircuitValue.validate v = Ok v → inv (set_account_circuit e v rt).
Proof.
  intros [] Hv. destruct rt. cbn in *. split; cbn; try done. by apply dict_ok_forget.
Qed.

(** Removing attempts and setting the holds. *)
Lemma inv_drop rt at_ holds probe : inv rt → dict_ok at_ →
  (∀ k a, dget k at_ = Some a → dget k (attempts rt) = Some a) → 0 ≤ holds →
  inv (rt{{ attempts := at_; external_uncertain_holds := holds; recovery_probe_id := probe }}).
Proof.
  intros [] Hok Hsub Hh. destruct rt. cbn in *. split; cbn; try done.
  - intros k [a Ha]. eauto.
  - eauto.
  - intros k a Ha. eauto.
Qed.

Lemma active_count_form n rt rt' : apply_active_count n rt = Ok rt' →
  has_active rt = false ∧ ∃ ks m,
    rt' = rt{{ attempts := HousekeepingFacts.ddels ks (attempts rt);
               external_uncertain_holds := Z.max 0 m; recovery_probe_id := recovery_probe_id rt }}.
Proof.
  unfold apply_active_count. intros H. inv_ok H. subst rt'. split; [done|].
  eexists _, _. destruct rt. reflexivity.
Qed.

Lemma inv_active_count n rt rt' : inv rt → apply_active_count n rt = Ok rt' → inv rt'.
Proof.
  intros Hi H. apply active_count_form in H as (_ & ks & m & ->). pose proof Hi as [].
  apply inv_drop; [done|by apply HousekeepingFacts.dict_ok_ddels| |lia].
  intros k a. rewrite HousekeepingFacts.dget_ddels by done. by case_decide.
Qed.

Lemma inv_probe_started p rt : inv rt → inv (rt{{ recovery_probe_id := Some p }}).
Proof. intros []. by split; destruct rt. Qed.

Lemma probe_finished_form c rt : ∃ at_ m,
  apply_probe_finished c rt =
    rt{{ attempts := at_; external_uncertain_holds := m; recovery_probe_id := None }} ∧
  (at_ = attempts rt ∨ ∃ k, at_ = ddel k (attempts rt)) ∧
  (0 ≤ external_uncertain_holds rt → 0 ≤ m).
Proof.
  unfold apply_probe_finished, release_one.
  destruct (bool_decide _); [destruct (negb _) eqn:E; [|destruct (min_by _ _ _)]|].
  - exists (attempts rt), (external_uncertain_holds rt - 1).
    split; [by destruct rt|]. bprop. split; [by left|lia].
  - eexists (ddel _ (attempts rt)), (external_uncertain_holds rt).
    split; [by destruct rt|]. split; [right; eauto|done].
  - exists (attempts rt), (external_uncertain_holds rt).
    split; [by destruct rt|]. split; [by left|done].
  - exists (attempts rt), (external_uncertain_holds rt).
    split; [by destruct rt|]. split; [by left|done].
Qed.

Lemma inv_probe_finished c rt : inv rt → inv (apply_probe_finished c rt).
Proof.
  intros Hi. pose proof Hi as []. destruct (probe_finished_form c rt) as (at_ & m & -> & Hat & Hm).
  apply inv_drop; [done| | |by apply Hm].
  - destruct Hat as [->|[k ->]]; [done|by apply dict_ok_ddel].
  - destruct Hat as [->|[k ->]]; [done|]. intros k' a. rewrite dget_ddel by done. by case_decide.
Qed.

(** Every step keeps the invariant. *)
Lemma step_inv rt l rt' : inv rt → step rt l rt' → inv rt'.
Proof.
  intros Hi H. destruct H.
  - by apply inv_tick.
  - by apply inv_prune.
  - by apply inv_purge.
  - by apply inv_roll.
  - eapply inv_account; [exact Hi| |done]. by eapply validate_windows.
  - by apply inv_reserve.
  - by apply inv_dispatch.
  - by apply inv_resolve.
  - by apply inv_circuit.
  - by apply inv_account_circuit.
  - by eapply inv_active_count.
  - by apply inv_probe_started.
  - by apply inv_probe_finished.
Qed.

Lemma steps_inv rt ls rt' : inv rt → steps rt ls rt' → inv rt'.
Proof. induction 2; [done|]. eauto using step_inv. Qed.
End AccountMachine.
