(* ===== verification/AccountRefinement.v ===== *)
(** * The calls refine the state machine

    Every call of [AccountOps] is a run of [AccountMachine.step] whose records
    are exactly what it appended to the journal. *)
From S2P Require Export AccountSteps.
From Stdlib Require Import Ascii.

Module AccountCalls.
Import AccountRuntime AccountOps OpFacts AppendFacts AccountMachine.

Inductive call :=
| CReserve (io : JournalIO) (clock_ms : Z) (r : ReservationRequest)
| CDispatch (io : JournalIO) (clock_ms : Z) (attempt_id : string)
| CFinish (io : JournalIO) (clock_ms : Z) (attempt_id : string) (r : AttemptResolution)
| CCircuit (io : JournalIO) (generation : string) (expected replacement : CircuitValue)
| CAccountCircuit (io : JournalIO) (expected replacement : CircuitValue)
| CCapacity (clock_ms : Z)
| CActiveCount (io : JournalIO) (active : Z)
| CBeginProbe (io : JournalIO) (probe_id : string)
| CFinishProbe (io : JournalIO) (probe_id : string) (c : ProbeClassification)
| CUpdateAccount (a : ProviderAccount) (clock_ms : Z).

(** The arguments are validated model objects. *)
Definition valid (c : call) : Prop :=
  match c with
  | CReserve _ _ r => ReservationRequest.validate r = Ok r
  | CFinish _ _ _ r => AttemptResolution.validate r = Ok r
  | CCircuit _ g _ v =>
      is_ok (typed_id_new DeploymentGenerationId g) = true ∧ CircuitValue.validate v = Ok v
  | CAccountCircuit _ _ v => CircuitValue.validate v = Ok v
  | CUpdateAccount a _ => ProviderAccount.validate a = Ok a
  | _ => True
  end.

Section Refinement.
Context {Snapshot : Type} {safe : SafeSnapshot Snapshot}.
Context (rd : Z → Payload → string → string).
Context (pd : RequestProfile → string).
Context (sd : AttemptResolution → string).
Context (snap : AccountRuntime → Snapshot).
Implicit Types w : World Snapshot.
Implicit Types j : AttemptJournal Snapshot.

Definition run (c : call) (w : World Snapshot) : World Snapshot :=
  match c with
  | CReserve io t r => (try_reserve rd pd snap io t r w).1
  | CDispatch io t k => (mark_dispatched rd snap io t k w).1
  | CFinish io t k r => (finish rd sd snap io t k r w).1
  | CCircuit io g e v => (compare_and_swap_circuit rd snap io g e v w).1
  | CAccountCircuit io e v => (compare_and_swap_account_circuit rd snap io e v w).1
  | CCapacity t => (capacity t w).1
  | CActiveCount io n => (apply_authoritative_active_count rd snap io n w).1
  | CBeginProbe io p => (begin_recovery_probe rd snap io p w).1
  | CFinishProbe io p c => (finish_recovery_probe rd snap io p c w).1
  | CUpdateAccount a t =>
      match update_account a t (World.runtime w) with
      | Ok rt => World.mk (World.journal w) rt
      | Err _ => w
      end
  end.

(** The call is a run of the machine; a write the journal could not confirm
    leaves at most one record more, and no append follows it. *)
Definition traced w w' : Prop := ∃ recs extra,
  steps (World.runtime w) recs (World.runtime w') ∧
  AttemptJournal.records (World.journal w') =
    AttemptJournal.records (World.journal w) ++ recs ++ extra ∧
  (length extra ≤ 1)%nat ∧
  (AttemptJournal.is_writable (World.journal w') = true →
   extra = [] ∧ AttemptJournal.is_writable (World.journal w) = true).

Lemma traced_silent w j' rt' : failed (World.journal w) j' →
  steps (World.runtime w) [] rt' → traced w (World.mk j' rt').
Proof.
  intros [[Hr _ _ Hw]|[Hs (extra & Hr & Hl)]] Hst.
  - exists [], []. cbn. rewrite app_nil_r. split_and!; [done|done|lia|by auto].
  - exists [], extra. cbn. split_and!; try done. intros Hw. cbn in *. congruence.
Qed.

Lemma traced_refl w : traced w w.
Proof. destruct w as [j rt]. apply traced_silent; [by left|constructor]. Qed.

Lemma traced_append io w j rec rt rt' w' r p :
  appended rd p (World.journal w) j rec → steps (World.runtime w) [] rt →
  step rt (Some rec) rt' →
  maybe_checkpoint_locked snap io (World.mk j rt') = (w', r) → traced w w'.
Proof.
  intros Happ Hs Hst Hq. apply checkpoint_quiet in Hq as (Hrt & [Hlog _ _ Hw]). cbn in Hrt, Hlog.
  exists [rec], []. rewrite Hrt, Hlog, (app_records _ _ _ _ _ Happ), app_nil_r.
  split_and!; [|done|cbn; lia|by split; [|apply (app_writable _ _ _ _ _ Happ)]].
  change [rec] with ([] ++ [rec]). eapply steps_app; [exact Hs|]. by apply (steps_one _ (Some rec)).
Qed.

Lemma silent rt rt' : step rt None rt' → steps rt [] rt'.
Proof. intros H. by apply (steps_one _ None). Qed.

Lemma silent_trans rt rt1 rt2 : steps rt [] rt1 → steps rt1 [] rt2 → steps rt [] rt2.
Proof. apply (steps_app _ [] _ []). Qed.

Lemma silent_housekeep n c rt : steps rt [] (HousekeepingFacts.housekeep n c rt).
Proof.
  unfold HousekeepingFacts.housekeep.
  eapply silent_trans; [apply silent, (step_tick c)|].
  eapply silent_trans; [apply silent, (step_prune n)|].
  eapply silent_trans; [apply silent, (step_purge n)|]. apply silent, step_roll.
Qed.

Lemma silent_admission status c r rt rt' v : admission status c r rt = (rt', v) → steps rt [] rt'.
Proof.
  unfold admission. destruct (identity_denial _ _ _); [intros [= <- _]; constructor|].
  destruct (ledger_denial _ _ _); intros [= <- _].
  - eapply silent_trans; [apply silent, (step_tick c)|]. apply silent, step_prune.
  - apply silent_housekeep.
Qed.

(** Unfold the first binds of [H]. *)
Ltac mstep H :=
  unfold mbind at 1, M_bind at 1 in H;
  unfold get_runtime, get, put_runtime, update, lift, on_journal, raise in H;
  cbn beta iota in H;
  cbn [World.journal World.runtime] in H.

(** The probes the runtime consumes are those the record names. *)
Lemma probes_durable n r rt : inv rt →
  circuit_value rt (ReservationRequest.deployment_generation_id r) = ReservationRequest.circuit r →
  probe_ids r rt = durable_probes (durable_reservation pd n r rt).
Proof.
  intros [] Hc. unfold probe_ids, durable_probes. cbn [durable_reservation
    DurableReservation.account_circuit_probe_id DurableReservation.circuit_probe_id].
  rewrite Hc. f_equal. f_equal. f_equal. rewrite <-Hc. unfold circuit_value, dget_or.
  destruct (dget _ (circuits rt)) as [v|] eqn:E; [|done]. cbn. symmetry.
  apply validate_probe_ok. by eapply i_deployments0.
Qed.

Lemma request_nonneg r : ReservationRequest.validate r = Ok r →
  0 ≤ ReservationRequest.total_token_upper_bound r ∧ 0 ≤ ReservationRequest.quota_units r.
Proof.
  unfold ReservationRequest.validate. intros H. inv_ok_step H. apply negb_false_iff in G.
  unfold ReservationRequest.fields_ok in G. rewrite !andb_true_iff in G. destruct G as [_ G].
  cbn [forallb] in G. unfold bounded in G. bprop in G.
  unfold ReservationRequest.total_token_upper_bound. lia.
Qed.

(** What the ledger guards read is what housekeeping leaves. *)
Lemma ledger_circuit t r rt :
  ledger_left (now_ms t rt) r (prune_resolutions (now_ms t rt) (tick t rt)) →
  circuit_value (HousekeepingFacts.housekeep (now_ms t rt) t rt)
    (ReservationRequest.deployment_generation_id r) = ReservationRequest.circuit r.
Proof.
  intros []. rewrite <-(proj1 ll_circuit0). unfold circuit_value.
  destruct (HousekeepingFacts.core_housekeep (now_ms t rt) t rt) as [_ _ -> _ _ _ _].
  by destruct rt.
Qed.

(** The attempt id of an admitted request is new. *)
Lemma admitted_fresh now t r rt : inv rt →
  ledger_left now r (prune_resolutions now (tick t rt)) →
  let rt' := HousekeepingFacts.housekeep now t rt in
  let k := ReservationRequest.attempt_id r in
  dget k (attempts rt') = None ∧ dget k (starts rt') = None ∧ dget k (resolutions rt') = None.
Proof.
  intros Hi Hl rt' k. destruct (ll_fresh _ _ _ Hl) as (F1 & F2 & F3).
  assert (attempts (prune_resolutions now (tick t rt)) = attempts rt ∧
          starts (prune_resolutions now (tick t rt)) = starts rt ∧
          resolutions (prune_resolutions now (tick t rt)) =
            resolutions (prune_resolutions now rt)) as (E1 & E2 & E3) by (by destruct rt).
  rewrite E1 in F1. rewrite E2 in F2. rewrite E3 in F3. unfold rt'. split_and!.
  - by destruct (HousekeepingFacts.core_housekeep now t rt) as [_ -> _ _ _ _ _].
  - rewrite HousekeepingFacts.housekeep_starts, HousekeepingFacts.purge_ddels,
      HousekeepingFacts.dget_ddels by apply Hi. by case_decide.
  - by rewrite HousekeepingFacts.housekeep_resolutions.
Qed.

Lemma reserve_steps t status r rt rec : inv rt → ReservationRequest.validate r = Ok r →
  let now := now_ms t rt in
  let rt' := HousekeepingFacts.housekeep now t rt in
  let d := durable_reservation pd now r rt' in
  JournalRecord.payload rec = Payload.attempt_reserved d →
  identity_denial status r rt = None →
  ledger_left now r (prune_resolutions now (tick t rt)) →
  step rt' (Some rec) (record_reservation d (durable_probes d) rt').
Proof.
  intros Hi Hv now rt' d Hrec Hid Hl. pose proof (request_nonneg r Hv) as [Ht Hq].
  destruct (HousekeepingFacts.core_housekeep now t rt) as [Ca _ _ _ _ _ _].
  destruct (admitted_fresh now t r rt Hi Hl) as (F1 & F2 & F3).
  apply step_reserve; try done.
  - unfold account_id_of, rt'. rewrite Ca. cbn. unfold identity_denial in Hid.
    repeat (destruct (bool_decide (_ = _)); cbn [negb] in Hid; [done|]).
    destruct (negb (bool_decide (ReservationRequest.account_id r = _))) eqn:E; [done|]. by bprop.
  - unfold rt'. rewrite HousekeepingFacts.housekeep_time. done.
  - pose proof (ll_bound _ _ _ Hl) as Hb.
    assert (unresolved rt' = unresolved (prune_resolutions now (tick t rt))) as ->.
    { unfold unresolved, rt'. rewrite HousekeepingFacts.housekeep_resolutions.
      destruct (HousekeepingFacts.core_housekeep now t rt) as [_ -> _ _ _ _ _]. by destruct rt. }
    unfold rt'. rewrite HousekeepingFacts.housekeep_resolutions, HousekeepingFacts.housekeep_limit.
    by destruct rt.
Qed.

Lemma traced_reserve io t r w : inv (World.runtime w) → ReservationRequest.validate r = Ok r →
  traced w (try_reserve rd pd snap io t r w).1.
Proof.
  intros Hi Hv. destruct (try_reserve rd pd snap io t r w) as [w' res] eqn:H. cbn.
  unfold try_reserve in H. mstep H. destruct (admission _ _ _ _) as [rt v] eqn:Ea.
  pose proof (silent_admission _ _ _ _ _ _ Ea) as Hsil.
  assert (traced w (World.mk (World.journal w) rt)) as Hq by (by apply traced_silent; [left|]).
  mstep H. mstep H. destruct v as [[d|]|e]; [by injection H as <- _| |by injection H as <- _].
  unfold mbind at 1, M_bind at 1, reserve_durably, on_journal in H.
  cbn [World.journal World.runtime] in H.
  destruct (AttemptJournal.reserve_before_send _ _ _ _) as [j1 r1] eqn:Er.
  apply reserve_before_send_cases in Er. destruct r1 as [rc|e].
  2: { assert (w' = World.mk j1 rt) as -> by (destruct e; by injection H as <- _).
       by apply traced_silent. }
  destruct Er as (rec & Happ & ->). mstep H. mstep H.
  destruct (maybe_checkpoint_locked _ _ _) as [w5 r5] eqn:Eq in H.
  assert (w' = w5) as -> by (destruct r5; by injection H as <- _).
  apply admission_None in Ea as (-> & Hid & Hl & _). apply ledger_None in Hl.
  rewrite HousekeepingFacts.housekeep_now in *.
  pose proof (steps_inv _ _ _ Hi Hsil) as Hi'.
  rewrite (probes_durable (now_ms t (World.runtime w))) in Eq by (done || by apply ledger_circuit).
  eapply (traced_append io w j1 rec); [exact Happ|exact Hsil| |exact Eq].
  eapply reserve_steps; [done|done|by rewrite (app_record _ _ _ _ _ Happ)|exact Hid|exact Hl].
Qed.

(** The receipt of an append, whichever way the rest of the call goes. *)
Lemma traced_dispatch io t k w : inv (World.runtime w) →
  traced w (mark_dispatched rd snap io t k w).1.
Proof.
  intros Hi. destruct (mark_dispatched rd snap io t k w) as [w' res] eqn:H. cbn.
  unfold mark_dispatched in H. mstep H.
  destruct (dget k (attempts (World.runtime w))) as [a|] eqn:Ea;
    [|injection H as <- _; apply traced_refl].
  destruct (dmem k (resolutions _)) eqn:Er; [injection H as <- _; apply traced_refl|].
  destruct (Attempt.dispatch_receipt a) eqn:Ed; [injection H as <- _; apply traced_refl|].
  mstep H. pose proof (silent _ _ (step_tick t (World.runtime w))) as Hsil.
  destruct (Attempt.deadline_at_ms a <=? _);
    [injection H as <- _; by apply traced_silent; [left|]|].
  mstep H. destruct (AttemptJournal.append_receipt _ _ _) as [j1 r1] eqn:Ej.
  apply append_receipt_cases in Ej. destruct r1 as [rc|e].
  2: { injection H as <- _. by apply traced_silent. }
  destruct Ej as (rec & Happ & ->). mstep H. mstep H.
  destruct (maybe_checkpoint_locked _ _ _) as [w5 r5] eqn:Eq in H.
  assert (w' = w5) as -> by (destruct r5; by injection H as <- _).
  eapply (traced_append io w j1 rec); [exact Happ|exact Hsil| |exact Eq].
  apply dmem_false in Er.
  eapply (step_dispatch rec k a); [by rewrite (app_record _ _ _ _ _ Happ)|..];
    by destruct (World.runtime w).
Qed.

Lemma traced_finish io t k r w : inv (World.runtime w) → AttemptResolution.validate r = Ok r →
  traced w (finish rd sd snap io t k r w).1.
Proof.
  intros Hi Hv. destruct (finish rd sd snap io t k r w) as [w' res] eqn:H. cbn.
  unfold finish in H. mstep H.
  destruct (dget k (resolutions (World.runtime w))) as [v|] eqn:Er.
  { destruct (negb _); injection H as <- _; apply traced_refl. }
  destruct (dget k (attempts (World.runtime w))) as [a|] eqn:Ea;
    [|injection H as <- _; apply traced_refl].
  destruct (exceeds (AttemptResolution.actual_token_units r) _) eqn:Et;
    [injection H as <- _; apply traced_refl|].
  destruct (exceeds (AttemptResolution.actual_quota_units r) _) eqn:Eu;
    [injection H as <- _; apply traced_refl|].
  mstep H. pose proof (silent _ _ (step_tick t (World.runtime w))) as Hsil.
  mstep H. destruct (AttemptJournal.append_receipt _ _ _) as [j1 r1] eqn:Ej.
  apply append_receipt_cases in Ej. destruct r1 as [rc|e].
  2: { injection H as <- _. by apply traced_silent. }
  destruct Ej as (rec & Happ & ->).
  destruct (i_started _ Hi k) as [start Es]; [by rewrite Ea|]. rewrite Es in H.
  mstep H. mstep H. mstep H.
  destruct (maybe_checkpoint_locked _ _ _) as [w5 r5] eqn:Eq in H.
  assert (w' = w5) as -> by (destruct r5; by injection H as <- _).
  eapply (traced_append io w j1 rec); [exact Happ|exact Hsil| |exact Eq].
  eapply (step_resolve rec k a start r); [by rewrite (app_record _ _ _ _ _ Happ)|..];
    try by destruct (World.runtime w).
  - intros m Hm. rewrite Hm in Et. cbn in Et. lia.
  - intros m Hm. rewrite Hm in Eu. cbn in Eu. lia.
  - intros m Hm. unfold AttemptResolution.validate in Hv. inv_ok_step Hv.
    apply negb_false_iff in G. rewrite !andb_true_iff, Hm in G. destruct G as [[_ G] _].
    unfold AttemptResolution.opt_bounded, bounded in G. bprop in G. lia.
Qed.

Lemma append_cases p j j' r : AttemptJournal.append rd p j = (j', r) →
  match r with Ok rec => appended rd p j j' rec | Err _ => failed j j' end.
Proof. destruct r; [apply append_Ok|apply append_raises]. Qed.

(** Calls whose state change follows the append directly. *)
Lemma traced_journaled {B} io p f (k : M (World Snapshot) B) w w' res :
  (on_journal (AttemptJournal.append rd p);; update f;; maybe_checkpoint_locked snap io;; k) w =
    (w', res) →
  (∀ w, (k w).1 = w) →
  (∀ rec, JournalRecord.payload rec = p → step (World.runtime w) (Some rec) (f (World.runtime w))) →
  traced w w'.
Proof.
  intros H Hk Hst. mstep H. destruct (AttemptJournal.append _ _ _) as [j1 r1] eqn:Ej.
  apply append_cases in Ej. destruct r1 as [rec|e].
  2: { injection H as <- _. apply traced_silent; [done|constructor]. }
  mstep H. mstep H. destruct (maybe_checkpoint_locked _ _ _) as [w5 r5] eqn:Eq in H.
  assert (w' = w5) as ->.
  { destruct r5; [|by injection H as <- _]. rewrite <-(Hk w5). by rewrite H. }
  eapply (traced_append io w j1 rec); [exact Ej|constructor| |exact Eq].
  apply Hst. by rewrite (app_record _ _ _ _ _ Ej).
Qed.

Lemma traced_circuit io g e v w : is_ok (typed_id_new DeploymentGenerationId g) = true →
  CircuitValue.validate v = Ok v →
  traced w (compare_and_swap_circuit rd snap io g e v w).1.
Proof.
  intros Hg Hv. destruct (compare_and_swap_circuit rd snap io g e v w) as [w' res] eqn:H. cbn.
  unfold compare_and_swap_circuit in H. mstep H.
  destruct (negb (bool_decide _)) eqn:Ee; [injection H as <- _; apply traced_refl|].
  destruct (_ <? _) eqn:Ep; [injection H as <- _; apply traced_refl|].
  destruct (bool_decide (v = e)); [injection H as <- _; apply traced_refl|].
  eapply (traced_journaled io _ (set_circuit g e v)); [exact H|done|]. intros rec Hrec. bprop.
  by apply (step_circuit rec g e v).
Qed.

Lemma traced_account_circuit io e v w : CircuitValue.validate v = Ok v →
  traced w (compare_and_swap_account_circuit rd snap io e v w).1.
Proof.
  intros Hv. destruct (compare_and_swap_account_circuit rd snap io e v w) as [w' res] eqn:H. cbn.
  unfold compare_and_swap_account_circuit in H. mstep H.
  destruct (negb (bool_decide _)) eqn:Ee; [injection H as <- _; apply traced_refl|].
  destruct (_ <? _) eqn:Ep; [injection H as <- _; apply traced_refl|].
  destruct (bool_decide (v = e)); [injection H as <- _; apply traced_refl|].
  eapply (traced_journaled io _ (set_account_circuit e v)); [exact H|done|]. intros rec Hrec. bprop.
  by apply (step_account_circuit rec e v).
Qed.

Lemma traced_capacity t w : traced w (capacity t w).1.
Proof.
  destruct (capacity t w) as [w' res] eqn:H. cbn. unfold capacity in H. mstep H. mstep H.
  assert (w' = World.mk (World.journal w)
    (roll_monthly (now_ms t (World.runtime w))
       (purge_windows (now_ms t (World.runtime w)) (tick t (World.runtime w))))) as ->.
  { mstep H. by destruct (ProviderAccount.enforced_max_in_flight _); injection H as <- _. }
  apply traced_silent; [by left|].
  eapply silent_trans; [apply silent, (step_tick t)|].
  eapply silent_trans; [apply silent, step_purge|]. apply silent, step_roll.
Qed.

Lemma traced_active_count io n w : traced w (apply_authoritative_active_count rd snap io n w).1.
Proof.
  destruct (apply_authoritative_active_count rd snap io n w) as [w' res] eqn:H. cbn.
  unfold apply_authoritative_active_count in H.
  destruct (n <? 0) eqn:En; [injection H as <- _; apply traced_refl|]. mstep H.
  destruct (has_active (World.runtime w)) eqn:Ea; [injection H as <- _; apply traced_refl|].
  mstep H. destruct (AttemptJournal.append _ _ _) as [j1 r1] eqn:Ej.
  apply append_cases in Ej. destruct r1 as [rec|e].
  2: { injection H as <- _. apply traced_silent; [done|constructor]. }
  mstep H. destruct (apply_active_count n (World.runtime w)) as [rt'|e] eqn:Ec.
  2: { exfalso. unfold apply_active_count in Ec. by rewrite Ea in Ec. }
  mstep H. eapply (traced_append io w j1 rec); [exact Ej|constructor| |exact H].
  apply (step_active_count rec n); [by rewrite (app_record _ _ _ _ _ Ej)|lia|done].
Qed.

Lemma traced_begin_probe io p w : traced w (begin_recovery_probe rd snap io p w).1.
Proof.
  destruct (begin_recovery_probe rd snap io p w) as [w' res] eqn:H. cbn.
  unfold begin_recovery_probe in H. destruct (negb _); [injection H as <- _; apply traced_refl|].
  mstep H. destruct (_ || _ || _) eqn:Eb; [injection H as <- _; apply traced_refl|].
  eapply (traced_journaled io _ (λ rt, rt{{ recovery_probe_id := Some p }})); [exact H|done|]. intros rec Hrec. bprop.
  destruct Eb as [[Eb _] Ea]. apply (step_probe_started rec p); [done| |done].
  by apply eq_None_not_Some.
Qed.

Lemma traced_finish_probe io p c w : traced w (finish_recovery_probe rd snap io p c w).1.
Proof.
  destruct (finish_recovery_probe rd snap io p c w) as [w' res] eqn:H. cbn.
  unfold finish_recovery_probe in H. mstep H.
  destruct (negb _) eqn:Ep; [injection H as <- _; apply traced_refl|].
  destruct (has_active _) eqn:Ea; [injection H as <- _; apply traced_refl|].
  mstep H. destruct (AttemptJournal.append _ _ _) as [j1 r1] eqn:Ej.
  apply append_cases in Ej. destruct r1 as [rec|e].
  2: { injection H as <- _. apply traced_silent; [done|constructor]. }
  mstep H. eapply (traced_append io w j1 rec); [exact Ej|constructor| |exact H].
  bprop. apply (step_probe_finished rec p); [by rewrite (app_record _ _ _ _ _ Ej)|done|done].
Qed.

Lemma call_traced c w : inv (World.runtime w) → valid c → traced w (run c w).
Proof.
  intros Hi Hv. destruct c; cbn in *.
  - by apply traced_reserve.
  - by apply traced_dispatch.
  - by apply traced_finish.
  - destruct Hv. by apply traced_circuit.
  - by apply traced_account_circuit.
  - apply traced_capacity.
  - apply traced_active_count.
  - apply traced_begin_probe.
  - apply traced_finish_probe.
  - destruct (update_account a clock_ms (World.runtime w)) as [rt|] eqn:E; [|apply traced_refl].
    apply traced_silent; [by left|]. by eapply silent, step_account.
Qed.

(** Sequences of calls. *)
Definition run_all (cs : list call) (w : World Snapshot) : World Snapshot :=
  foldl (λ w c, run c w) w cs.

Lemma traced_inv w w' : inv (World.runtime w) → traced w w' → inv (World.runtime w').
Proof. intros Hi (recs & extra & Hs & _). by eapply steps_inv. Qed.

Lemma run_all_inv cs w : inv (World.runtime w) → Forall valid cs →
  inv (World.runtime (run_all cs w)).
Proof.
  unfold run_all. revert w. induction cs as [|c cs IH]; intros w Hi Hv; [done|].
  apply Forall_cons in Hv as [Hc Hv]. apply IH; [|done].
  eapply traced_inv; [exact Hi|]. by apply call_traced.
Qed.

(** The worlds an account may be in: its own calls, and whatever the other
    accounts do to the shared journal between them. *)
Inductive reachable : World Snapshot → Prop :=
| reach_init j a limit retention c : ProviderAccount.validate a = Ok a →
    reachable (World.mk j (init a limit retention c))
| reach_call w c : reachable w → valid c → reachable (run c w)
| reach_other j j' rt : reachable (World.mk j rt) → reachable (World.mk j' rt).

Lemma reachable_inv w : reachable w → inv (World.runtime w).
Proof.
  induction 1 as [j a limit ret c Ha|w c _ IH Hv|j j' rt _ IH]; [by apply inv_init| |done].
  eapply traced_inv; [exact IH|]. by apply call_traced.
Qed.
End Refinement.
End AccountCalls.
