(* ===== verification/AccountSamples.v ===== *)
(** * A concrete account, and a run of its calls

    On which the witnesses of the account's properties are evaluated. *)
From S2P Require Export AccountRefinement Samples.
From Stdlib Require Import Ascii.

Module AccountSamples.
Definition account : ProviderAccount :=
  (Samples.provider_account "1" (Samples.known 2) (Some AccountState.ACTIVE))
    {{ ProviderAccount.monthly_quota_units := Samples.known 50;
       ProviderAccount.monthly_reset_at_ms := Some 5000000 }}.

Definition sha (c : string) : string := String.append "sha256:" (Samples.hex64 c).

Definition identity : RuntimeIdentity :=
  RuntimeIdentity.mk (String.append "inst_" (Samples.uuid "1")) 1
    (String.append "boot_" (Samples.uuid "1")) 1 Samples.bundle_hash.

Definition profile : RequestProfile :=
  RequestProfile.mk Samples.group "model" CHAT Modality.TEXT false 100 50 0 0 false false 0 60000.

Definition request (c : string) (circuit account_circuit : CircuitValue) : ReservationRequest :=
  ReservationRequest.mk (Samples.request c) (Samples.attempt c) (Samples.account "1")
    (Samples.leg "1") Samples.generation identity 1000000 profile 100 account_circuit 50 0 3 circuit.

Definition closed : CircuitValue := CircuitValue.closed 0.
Definition open : CircuitValue :=
  CircuitValue.mk CircuitState.OPEN (Some CircuitCause.CAPACITY) 1 1000 2000 1
    (Some (sha "0e")) None.
Definition half_open : CircuitValue :=
  CircuitValue.mk CircuitState.HALF_OPEN (Some CircuitCause.CAPACITY) 2 1000 0 1
    (Some (sha "0e")) (Some (String.append "probe_" (Samples.uuid "1"))).

#[global] Instance unit_snapshot : SafeSnapshot unit := λ _, Ok tt.
Definition io : JournalIO := JournalIO.mk false true 1000.
Definition record_digest (s : Z) (p : Payload) (d : string) : string := sha "0d".
Definition profile_digest (p : RequestProfile) : string := sha "0f".
Definition resolution_digest (r : AttemptResolution) : string :=
  if AttemptResolution.release_capacity r then sha "10" else sha "11".
Definition snapshot (rt : AccountRuntime) : unit := tt.

Definition resolution (release : bool) : AttemptResolution :=
  AttemptResolution.mk COMPLETED release (Some 1) (Some 120) (Some 2).

Definition start : World unit :=
  World.mk (AttemptJournal.create 10000 60000 10256 1000 []) (AccountRuntime.init account 1000 86400000 1000).

Definition run_call : AccountCalls.call → World unit → World unit :=
  AccountCalls.run record_digest profile_digest resolution_digest snapshot.
Definition reserve (t : Z) (r : ReservationRequest) :=
  AccountOps.try_reserve record_digest profile_digest snapshot io t r.
Definition finish (t : Z) (k : string) (r : AttemptResolution) :=
  AccountOps.finish record_digest resolution_digest snapshot io t k r.
Definition reachable : World unit → Prop :=
  AccountCalls.reachable record_digest profile_digest resolution_digest snapshot.

Definition first_request : ReservationRequest := request "1" closed closed.
Definition after_first : World unit := (reserve 2000 first_request start).1.

Lemma start_reachable : reachable start.
Proof. apply AccountCalls.reach_init. vm_compute. reflexivity. Qed.

Lemma first_granted : (reserve 2000 first_request start).2 =
  Ok (Granted first_request (JournalReceipt.mk 1 (sha "0d"))).
Proof. vm_compute. reflexivity. Qed.

Lemma after_first_reachable : reachable after_first.
Proof.
  apply (AccountCalls.reach_call record_digest profile_digest resolution_digest snapshot start
           (AccountCalls.CReserve io 2000 first_request)).
  - apply start_reachable.
  - vm_compute. reflexivity.
Qed.

Definition half_opened : World unit :=
  run_call (AccountCalls.CCircuit io Samples.generation open half_open)
    (run_call (AccountCalls.CCircuit io Samples.generation closed open) start).

Lemma half_opened_reachable : reachable half_opened.
Proof.
  apply AccountCalls.reach_call; [apply AccountCalls.reach_call; [apply start_reachable|]|];
    split; vm_compute; reflexivity.
Qed.

Definition probe_request (c : string) : ReservationRequest := request c half_open closed.
Lemma probe_granted :
  (reserve 3000 (probe_request "1") half_opened).2 =
    Ok (Granted (probe_request "1") (JournalReceipt.mk 3 (sha "0d"))) ∧
  (reserve 3001 (probe_request "2") (reserve 3000 (probe_request "1") half_opened).1).2 =
    Ok (Denied (ReservationDenied.mk ReservationDenialReason.CIRCUIT_UNAVAILABLE None)).
Proof. by vm_compute. Qed.
End AccountSamples.
