(* ===== verification/AccountProps.v ===== *)
(** * Properties of the account runtime *)
From S2P Require Export AccountSamples.
From Stdlib Require Import Ascii.

Module AccountTheorems.
Import AccountRuntime AccountOps OpFacts AppendFacts AccountMachine AccountCalls HousekeepingFacts.

(** ** The trailing windows *)
Lemma purge_rpm n rt : windows_ok (account rt) → dict_ok (starts rt) →
  rpm_starts n (purge_windows n rt) = rpm_starts n rt.
Proof.
  intros [Hr _] Hd. unfold rpm_starts.
  replace (account (purge_windows n rt)) with (account rt) by (by destruct rt).
  apply purge_window; [done|]. intros s Hs. apply andb_true_iff in Hs as [_ Hs]. bprop in Hs.
  unfold MAX_ROLLING_WINDOW_SECONDS in *. lia.
Qed.

Lemma purge_tpm n rt : windows_ok (account rt) → dict_ok (starts rt) →
  tpm_starts n (purge_windows n rt) = tpm_starts n rt.
Proof.
  intros [_ Hr] Hd. unfold tpm_starts.
  replace (account (purge_windows n rt)) with (account rt) by (by destruct rt).
  apply purge_window; [done|]. intros s Hs. bprop in Hs.
  unfold MAX_ROLLING_WINDOW_SECONDS in *. lia.
Qed.

Lemma same_windows n rt rt' : account rt' = account rt → starts rt' = starts rt →
  rpm_starts n rt' = rpm_starts n rt ∧ tpm_starts n rt' = tpm_starts n rt.
Proof. unfold rpm_starts, tpm_starts. by intros -> ->. Qed.

Lemma housekeep_windows n c rt : inv rt →
  rpm_starts n (housekeep n c rt) = rpm_starts n rt ∧
  tpm_starts n (housekeep n c rt) = tpm_starts n rt.
Proof.
  intros Hi. pose proof (i_windows _ Hi) as Hw. pose proof (i_starts _ Hi) as Hd.
  rewrite <-(purge_rpm n rt), <-(purge_tpm n rt) by done.
  apply same_windows; [|apply housekeep_starts].
  destruct (core_housekeep n c rt) as [-> _ _ _ _ _ _]. by destruct rt.
Qed.

Lemma token_sum_app l s : token_sum (l ++ [s]) = token_sum l + Start.tokens s.
Proof. unfold token_sum. induction l as [|x l IH]; cbn [app foldr]; [cbn; lia|]. rewrite IH. lia. Qed.

(** A reservation adds its start to both windows. *)
Lemma record_windows n d probes rt : windows_ok (account rt) →
  dget (DurableReservation.attempt_id d) (starts rt) = None →
  DurableReservation.started_at_ms d = n →
  rpm_starts n (record_reservation d probes rt) = rpm_starts n rt ++ [start_of d] ∧
  tpm_starts n (record_reservation d probes rt) = tpm_starts n rt ++ [start_of d].
Proof.
  intros [Hr Ht] Hk Hn. apply dget_None in Hk. unfold rpm_starts, tpm_starts.
  replace (account (record_reservation d probes rt)) with (account rt) by (by destruct rt).
  replace (starts (record_reservation d probes rt)) with
    (starts rt ++ [(DurableReservation.attempt_id d, start_of d)])
    by (rewrite <-(dset_new _ _ _ Hk); by destruct rt).
  unfold dvalues. rewrite fmap_app, !List.filter_app. cbn [fmap list_fmap snd List.filter].
  unfold start_of. cbn [Start.counted_start Start.started_at_ms andb].
  rewrite Hn. rewrite (proj2 (Z.ltb_lt _ _)) by lia. rewrite (proj2 (Z.ltb_lt _ _)) by lia. done.
Qed.

Lemma record_active d probes rt : dget (DurableReservation.attempt_id d) (attempts rt) = None →
  active_count (record_reservation d probes rt) = active_count rt + 1.
Proof.
  intros Hk. unfold active_count.
  replace (external_uncertain_holds (record_reservation d probes rt))
    with (external_uncertain_holds rt) by (by destruct rt).
  replace (attempts (record_reservation d probes rt)) with
    (dset (DurableReservation.attempt_id d) (attempt_of d) (attempts rt)) by (by destruct rt).
  rewrite length_dset_new by done. lia.
Qed.

Lemma roll_reset n c rt : monthly_reset_at_ms (housekeep n c rt) ≠ 0 →
  n < monthly_reset_at_ms (housekeep n c rt).
Proof.
  unfold housekeep. generalize (purge_windows n (prune_resolutions n (tick c rt))). intros rt1.
  unfold roll_monthly. destruct (_ && _) eqn:E; [by destruct rt1|]. intros Hne. bprop. lia.
Qed.

Section Theorems.
Context {Snapshot : Type} {safe : SafeSnapshot Snapshot}.
Context (rd : Z → Payload → string → string).
Context (pd : RequestProfile → string).
Context (sd : AttemptResolution → string).
Context (snap : AccountRuntime → Snapshot).
Implicit Types w : World Snapshot.

Abbreviation reachable := (@reachable Snapshot safe rd pd sd snap).

(** C1. A granted reservation respects every limit of its account: one more
    attempt in flight and not more than the enforced parallel limit, one more
    counted start and the reserved tokens in the trailing RPM and TPM windows
    and neither over its known limit (no earlier start of a window is
    forgotten), and the monthly charge within the known quota of an account
    with a pending reset. *)
Theorem grant_within_limits io t r r' receipt w w' : reachable w →
  try_reserve rd pd snap io t r w = (w', Ok (Granted r' receipt)) →
  let rt := World.runtime w in let rt' := World.runtime w' in
  let now := now_ms t rt in
  (active_count rt' = active_count rt + 1 ∧
   ∃ limit, ProviderAccount.enforced_max_in_flight (account rt) = Ok limit ∧
     active_count rt' ≤ limit) ∧
  (Z.of_nat (length (rpm_starts now rt')) = Z.of_nat (length (rpm_starts now rt)) + 1 ∧
   ∀ v, known_limit (ProviderAccount.rpm_limit (account rt)) = Ok (Some v) →
     Z.of_nat (length (rpm_starts now rt')) ≤ v) ∧
  (token_sum (tpm_starts now rt') =
     token_sum (tpm_starts now rt) + ReservationRequest.total_token_upper_bound r ∧
   ∀ v, known_limit (ProviderAccount.tpm_limit (account rt)) = Ok (Some v) →
     token_sum (tpm_starts now rt') ≤ v) ∧
  (∀ v, known_limit (ProviderAccount.monthly_quota_units (account rt)) = Ok (Some v) →
     monthly_used rt' ≤ v ∧
     (0 < ReservationRequest.quota_units r → now < monthly_reset_at_ms rt')).
Proof.
  intros Hr%reachable_inv H rt rt' now. apply try_reserve_Granted in H as [-> G].
  destruct G as [_ Hl Hc _ Hrt]. fold rt in Hl, Hc, Hrt, Hr. fold now in Hl, Hc, Hrt.
  fold rt' in Hrt. set (rt1 := housekeep now t rt) in *.
  set (d := durable_reservation pd now r rt1) in *.
  destruct (admitted_fresh now t r rt Hr Hl) as (F1 & F2 & _). fold rt1 in F1, F2.
  assert (account rt1 = account rt) as Ha by (by destruct (core_housekeep now t rt)).
  assert (active_count rt1 = active_count rt) as Hac.
  { unfold active_count, rt1. by destruct (core_housekeep now t rt) as [_ -> _ _ _ -> _]. }
  assert (windows_ok (account rt1)) as Hw by (rewrite Ha; by apply i_windows).
  destruct (housekeep_windows now t rt Hr) as [Hrpm Htpm]. fold rt1 in Hrpm, Htpm.
  destruct (record_windows now d (probe_ids r rt1) rt1 Hw F2 eq_refl) as [Erpm Etpm].
  rewrite <-Hrt in Erpm, Etpm. rewrite Erpm, Etpm, Hrpm, Htpm, token_sum_app, length_app.
  destruct Hc as [(limit & Hlim & Hlt) Crpm Ctpm Cmon]. rewrite Ha in Hlim, Crpm, Ctpm, Cmon.
  rewrite Hrpm in Crpm. rewrite Htpm in Ctpm.
  pose proof (record_active d (probe_ids r rt1) rt1 F1) as Hact. rewrite <-Hrt in Hact.
  rewrite Hact, Hac. rewrite Hac in Hlt. cbn [length]. split_and!.
  - done.
  - exists limit. split; [done|lia].
  - lia.
  - intros v Hv. specialize (Crpm v Hv). lia.
  - done.
  - intros v Hv. apply (Ctpm v Hv).
  - intros v Hv. destruct (Cmon v Hv) as [Hm Hres].
    assert (monthly_used rt' = monthly_used rt1 + ReservationRequest.quota_units r ∧
            monthly_reset_at_ms rt' = monthly_reset_at_ms rt1) as [-> ->].
    { rewrite Hrt. by destruct rt1. }
    split; [done|]. intros Hq. apply roll_reset. by apply Hres.
Qed.
(** A reservation that is durable and in the state. *)
Definition reserved_durably t (r : ReservationRequest) w w' (receipt : JournalReceipt) : Prop :=
  ∃ rec d,
    AttemptJournal.records (World.journal w') =
      AttemptJournal.records (World.journal w) ++ [rec] ∧
    JournalRecord.payload rec = Payload.attempt_reserved d ∧
    JournalRecord.previous_digest rec = AttemptJournal.last_digest (World.journal w) ∧
    receipt = AttemptJournal.receipt rec ∧
    DurableReservation.attempt_id d = ReservationRequest.attempt_id r ∧
    DurableReservation.account_id d = ReservationRequest.account_id r ∧
    DurableReservation.reserved_tokens d = ReservationRequest.total_token_upper_bound r ∧
    DurableReservation.quota_units d = ReservationRequest.quota_units r ∧
    DurableReservation.deadline_at_ms d = ReservationRequest.deadline_at_ms r ∧
    now_ms t (World.runtime w) < DurableReservation.deadline_at_ms d ∧
    attempts (World.runtime w') =
      attempts (World.runtime w) ++ [(DurableReservation.attempt_id d, attempt_of d)] ∧
    dget (DurableReservation.attempt_id d) (starts (World.runtime w')) = Some (start_of d).

Lemma granted_durably io t r w w' receipt :
  let now := now_ms t (World.runtime w) in
  let rt := housekeep now t (World.runtime w) in
  granted rd io t r w w' receipt now rt (durable_reservation pd now r rt) →
  reserved_durably t r w w' receipt.
Proof.
  intros now rt1 [_ Hl _ Hap Hrt]. destruct Hap as (j & rec & Happ & -> & [Hlog _ _]).
  exists rec, (durable_reservation pd now r rt1).
  rewrite Hlog, (app_records _ _ _ _ _ Happ), (app_record _ _ _ _ _ Happ). split_and!; try done.
  - apply Hl.
  - rewrite Hrt. assert (attempts rt1 = attempts (World.runtime w)) as Hat
      by (by destruct (core_housekeep now t (World.runtime w))).
    rewrite <-Hat. replace (attempts (record_reservation _ _ rt1)) with
      (dset (ReservationRequest.attempt_id r)
         (attempt_of (durable_reservation pd now r rt1)) (attempts rt1)) by (by destruct rt1).
    apply dset_new. rewrite <-dget_None, Hat. destruct (ll_fresh _ _ _ Hl) as (F & _).
    by destruct (World.runtime w).
  - rewrite Hrt. replace (starts (record_reservation _ _ rt1)) with
      (dset (ReservationRequest.attempt_id r)
         (start_of (durable_reservation pd now r rt1)) (starts rt1)) by (by destruct rt1).
    apply dget_dset_eq.
Qed.

(** C2. A reservation is durable before it is granted, and all or nothing: a
    grant appended exactly one record, which holds the attempt the state now
    holds; a denial, or an exception, left the log and every attempt, circuit
    and probe as they were, unless the journal now refuses every append; the
    one exception that leaves a reservation behind is a failed checkpoint after
    it, and then the record and the state agree as for a grant. *)
Theorem reservation_durable_first io t r w w' res :
  try_reserve rd pd snap io t r w = (w', res) →
  let unchanged :=
    AttemptJournal.is_writable (World.journal w') = false ∨
    (AttemptJournal.records (World.journal w') = AttemptJournal.records (World.journal w) ∧
     same_core (World.runtime w) (World.runtime w')) in
  match res with
  | Ok (Granted r' receipt) => r' = r ∧ reserved_durably t r w w' receipt
  | Ok (Denied _) => unchanged
  | Err _ => unchanged ∨ ∃ receipt, reserved_durably t r w w' receipt
  end.
Proof.
  intros H unchanged. apply try_reserve_cases in H as [(rc & Hg%granted_durably & Hres)|[Hno Hun]].
  - destruct Hres as [->|[e ->]]; [done|eauto].
  - assert (unchanged) as Hu by (destruct Hun as [Hun|([Hlog _ _] & Hc)]; [by left|by right]).
    destruct res as [[r' receipt|]|]; [by destruct (Hno r' receipt)|done|by left].
Qed.

(** Resolving an attempt is idempotent and final: once a resolution has
    been accepted, the same resolution is answered with the same receipt and a
    different one is rejected, both without any change of state or log. *)
Theorem finish_idempotent io t k r w w' receipt io' t' r' w2 :
  finish rd sd snap io t k r w = (w', Ok receipt) →
  World.runtime w2 = World.runtime w' →
  finish rd sd snap io' t' k r' w2 =
    (w2, if decide (sd r' = sd r) then Ok receipt
         else Err (InvalidLeaseTransition "conflicting terminal resolution")).
Proof.
  intros H Hw.
  assert (∃ v, dget k (resolutions (World.runtime w')) = Some v ∧
    ResolvedAttempt.resolution_digest v = sd r ∧ ResolvedAttempt.receipt v = receipt)
    as (v & Hv & Hd & Hrc).
  { apply finish_Ok in H as [(-> & v & Hv & Hd & ->)|(a & start & [])]; [by exists v|].
    exists (ResolvedAttempt.mk (sd r) receipt (now_ms t (World.runtime w)) (dispatch a)).
    rewrite fi_runtime0. split; [|done]. destruct (World.runtime w). apply dget_dset_eq. }
  unfold finish, mbind, M_bind, get_runtime. rewrite Hw, Hv, Hd.
  destruct (decide (sd r' = sd r)) as [->|Hne].
  - rewrite bool_decide_true by done. cbn. by rewrite Hrc.
  - rewrite bool_decide_false by congruence. done.
Qed.

(** What the first resolution of an attempt changes: its slot is released
    or held as uncertain, its window entry takes the actual usage, the monthly
    charge never grows and never drops below zero, every other attempt and
    window entry stays, and exactly one record is appended. *)
Theorem finish_effects io t k r w w' receipt : reachable w →
  dget k (resolutions (World.runtime w)) = None →
  finish rd sd snap io t k r w = (w', Ok receipt) →
  let rt := World.runtime w in let rt' := World.runtime w' in
  (∃ a, dget k (attempts rt) = Some a ∧
     dget k (attempts rt') =
       (if AttemptResolution.release_capacity r then None
        else Some (a{{ Attempt.state := "uncertain"%string }})) ∧
     active_count rt' =
       active_count rt - (if AttemptResolution.release_capacity r then 1 else 0)) ∧
  (∃ s, dget k (starts rt) = Some s ∧ dget k (starts rt') = Some (resolve_start s r)) ∧
  0 ≤ monthly_used rt' ≤ monthly_used rt ∧
  (∀ k', k' ≠ k → dget k' (attempts rt') = dget k' (attempts rt) ∧
     dget k' (starts rt') = dget k' (starts rt)) ∧
  (∃ rec, AttemptJournal.records (World.journal w') =
     AttemptJournal.records (World.journal w) ++ [rec] ∧
     JournalRecord.payload rec = resolved_payload sd t k r rt ∧
     receipt = AttemptJournal.receipt rec).
Proof.
  intros Hi%reachable_inv Hn H. cbv zeta.
  apply finish_Ok in H as [(_ & v & Hv & _)|(a & start & [Ha Hs _ _ Hq Hap Hrt])]; [congruence|].
  destruct Hap as (j & rec & Happ & -> & [Hlog _ _]). rewrite Hrt. clear Hrt.
  set (rt := World.runtime w) in *.
  pose proof (i_attempts _ Hi) as Hda. pose proof (i_monthly _ Hi) as Hmn.
  split_and!.
  - exists a. split; [done|]. clearbody rt. destruct rt as [? ? ? st at_ ? ? ? ? mu ? ? eh ?].
    unfold active_count. cbn in *. destruct (AttemptResolution.release_capacity r).
    + rewrite dget_ddel_eq by done. rewrite (length_ddel k a at_ Ha). split; [done|lia].
    + rewrite dget_dset_eq. rewrite (dset_perm_old k a _ at_ Ha).
      rewrite (length_ddel k a at_ Ha). cbn. split; [by destruct a|lia].
  - exists start. split; [done|]. clearbody rt. destruct rt. apply dget_dset_eq.
  - clearbody rt. destruct rt. cbn in *. unfold adjust_monthly.
    destruct (AttemptResolution.actual_quota_units r) as [m|] eqn:Em; [|lia].
    destruct (_ =? _); lia.
  - clearbody rt. destruct rt. cbn in *. unfold adjust_monthly.
    destruct (AttemptResolution.actual_quota_units r) as [m|] eqn:Em; [|lia].
    specialize (Hq m eq_refl). destruct (_ =? _); lia.
  - intros k' Hne. clearbody rt. destruct rt. cbn in *. rewrite dget_dset_ne by done.
    split; [|done]. destruct (AttemptResolution.release_capacity r).
    + by apply dget_ddel_ne.
    + by apply dget_dset_ne.
  - exists rec. rewrite Hlog, (app_records _ _ _ _ _ Happ). split_and!; [done| |done].
    by rewrite (app_record _ _ _ _ _ Happ).
Qed.
End Theorems.
End AccountTheorems.

Lemma grant_within_limits_witness :
  let rt := World.runtime AccountSamples.start in
  let rt' := World.runtime AccountSamples.after_first in
  let now := AccountRuntime.now_ms 2000 rt in
  (AccountRuntime.active_count rt' = AccountRuntime.active_count rt + 1 ∧
   ∃ limit, ProviderAccount.enforced_max_in_flight (AccountRuntime.account rt) = Ok limit ∧
     AccountRuntime.active_count rt' ≤ limit) ∧
  (Z.of_nat (length (AccountRuntime.rpm_starts now rt')) =
     Z.of_nat (length (AccountRuntime.rpm_starts now rt)) + 1 ∧
   ∀ v, AccountOps.known_limit (ProviderAccount.rpm_limit (AccountRuntime.account rt)) = Ok (Some v) →
     Z.of_nat (length (AccountRuntime.rpm_starts now rt')) ≤ v) ∧
  (AccountRuntime.token_sum (AccountRuntime.tpm_starts now rt') =
     AccountRuntime.token_sum (AccountRuntime.tpm_starts now rt) +
     ReservationRequest.total_token_upper_bound AccountSamples.first_request ∧
   ∀ v, AccountOps.known_limit (ProviderAccount.tpm_limit (AccountRuntime.account rt)) = Ok (Some v) →
     AccountRuntime.token_sum (AccountRuntime.tpm_starts now rt') ≤ v) ∧
  (∀ v, AccountOps.known_limit (ProviderAccount.monthly_quota_units (AccountRuntime.account rt)) =
       Ok (Some v) →
     AccountRuntime.monthly_used rt' ≤ v ∧
     (0 < ReservationRequest.quota_units AccountSamples.first_request →
      now < AccountRuntime.monthly_reset_at_ms rt')).
Proof.
  apply (AccountTheorems.grant_within_limits AccountSamples.record_digest
    AccountSamples.profile_digest AccountSamples.resolution_digest AccountSamples.snapshot
    AccountSamples.io 2000 AccountSamples.first_request AccountSamples.first_request
    (JournalReceipt.mk 1 (AccountSamples.sha "0d"))).
  - apply AccountSamples.start_reachable.
  - apply (pair_result _ _ AccountSamples.first_granted).
Defined.

Lemma reservation_durable_first_witness :
  AttemptJournal.is_writable (World.journal AccountSamples.start) = false ∨
  (AttemptJournal.records (World.journal
     (AccountSamples.reserve 2000000 AccountSamples.first_request AccountSamples.start).1) =
   AttemptJournal.records (World.journal AccountSamples.start) ∧
   HousekeepingFacts.same_core (World.runtime AccountSamples.start)
     (World.runtime
       (AccountSamples.reserve 2000000 AccountSamples.first_request AccountSamples.start).1)).
Proof.
  apply (AccountTheorems.reservation_durable_first AccountSamples.record_digest
    AccountSamples.profile_digest AccountSamples.snapshot
    AccountSamples.io 2000000 AccountSamples.first_request AccountSamples.start
    (AccountSamples.reserve 2000000 AccountSamples.first_request AccountSamples.start).1
    (Ok (Denied (ReservationDenied.mk ReservationDenialReason.DEADLINE_EXCEEDED None)))).
  apply pair_result. vm_compute. reflexivity.
Defined.

Lemma finish_idempotent_witness :
  let w := AccountSamples.after_first in
  let w' := (AccountSamples.finish 2500 (Samples.attempt "1") (AccountSamples.resolution true) w).1 in
  AccountSamples.finish 9000 (Samples.attempt "1") (AccountSamples.resolution false) w' =
    (w', if decide (AccountSamples.resolution_digest (AccountSamples.resolution false) =
                    AccountSamples.resolution_digest (AccountSamples.resolution true))
         then Ok (JournalReceipt.mk 2 (AccountSamples.sha "0d"))
         else Err (InvalidLeaseTransition "conflicting terminal resolution")).
Proof.
  apply (AccountTheorems.finish_idempotent AccountSamples.record_digest
    AccountSamples.resolution_digest AccountSamples.snapshot AccountSamples.io 2500
    (Samples.attempt "1") (AccountSamples.resolution true) AccountSamples.after_first
    (AccountSamples.finish 2500 (Samples.attempt "1") (AccountSamples.resolution true)
       AccountSamples.after_first).1).
  - apply pair_result. vm_compute. reflexivity.
  - reflexivity.
Defined.

Lemma finish_effects_witness :
  let rt := World.runtime AccountSamples.after_first in
  let rt' := World.runtime (AccountSamples.finish 2500 (Samples.attempt "1")
               (AccountSamples.resolution true) AccountSamples.after_first).1 in
  0 ≤ AccountRuntime.monthly_used rt' ≤ AccountRuntime.monthly_used rt.
Proof.
  eapply (AccountTheorems.finish_effects AccountSamples.record_digest
    AccountSamples.profile_digest AccountSamples.resolution_digest AccountSamples.snapshot
    AccountSamples.io 2500 (Samples.attempt "1") (AccountSamples.resolution true)
    AccountSamples.after_first _ (JournalReceipt.mk 2 (AccountSamples.sha "0d"))).
  - apply AccountSamples.after_first_reachable.
  - vm_compute. reflexivity.
  - apply pair_result. vm_compute. reflexivity.
Defined.
