(* ===== verification/AccountRuns.v ===== *)
(** * Runs of the account runtime

    Properties of sequences of calls: what they journal, what they keep, how
    circuits and half-open probes evolve, and the TPM retry hint. *)
From stdpp Require Import gmap.
From S2P Require Export AccountProps.
From Stdlib Require Import Ascii.

Module RunTheorems.
Import AccountRuntime AccountOps OpFacts AppendFacts AccountMachine AccountCalls HousekeepingFacts.

(** ** The retry hint *)
Definition window_tokens (floor : Z) (l : list Start) : Z :=
  token_sum (List.filter (λ s, floor <? Start.started_at_ms s) l).

Lemma token_sum_perm l l' : l ≡ₚ l' → token_sum l = token_sum l'.
Proof.
  unfold token_sum. induction 1 as [|x l l' _ IH|x y l|l l' l'' _ IH _ IH']; cbn [foldr]; lia.
Qed.

Lemma window_tokens_perm f l l' : l ≡ₚ l' → window_tokens f l = window_tokens f l'.
Proof. intros Hp. by apply token_sum_perm, Lfilter_perm. Qed.

Lemma window_tokens_le f l : (∀ s, s ∈ l → 0 ≤ Start.tokens s) →
  window_tokens f l ≤ token_sum l.
Proof.
  unfold window_tokens, token_sum. induction l as [|s l IH]; intros Hn; [done|].
  cbn [List.filter foldr]. pose proof (Hn s (list_elem_of_here _ _)).
  assert (∀ s, s ∈ l → 0 ≤ Start.tokens s) as Hn' by (intros; by apply Hn, list_elem_of_further).
  specialize (IH Hn'). destruct (f <? _); cbn [foldr]; lia.
Qed.

Lemma window_tokens_all f l : (∀ s, s ∈ l → f < Start.started_at_ms s) →
  window_tokens f l = token_sum l.
Proof.
  unfold window_tokens. intros H. f_equal. induction l as [|s l IH]; [done|].
  cbn [List.filter]. rewrite (proj2 (Z.ltb_lt _ _)) by (apply H, list_elem_of_here).
  f_equal. apply IH. intros s' Hs. by apply H, list_elem_of_further.
Qed.

Definition oldest_first : list Start → Prop :=
  StronglySorted (λ s s', Start.started_at_ms s ≤ Start.started_at_ms s').

Lemma retry_loop_exact requested limit window l : oldest_first l →
  (∀ s, s ∈ l → 0 ≤ Start.tokens s) → requested ≤ limit → limit < token_sum l + requested →
  ∃ z, retry_loop (token_sum l) requested limit window l = Some z ∧
    ∀ t, window_tokens (t - window) l + requested ≤ limit ↔ z ≤ t.
Proof.
  intros Hs. induction Hs as [|s l Hs IH Hall]; intros Hn Hq Hl; [cbn in Hl; lia|].
  assert (∀ s, s ∈ l → 0 ≤ Start.tokens s) as Hn' by (intros; by apply Hn, list_elem_of_further).
  rewrite Forall_forall in Hall.
  assert (token_sum (s :: l) = Start.tokens s + token_sum l) as Hsum by done.
  assert (∀ f, f < Start.started_at_ms s → window_tokens f (s :: l) = token_sum (s :: l)) as Hin.
  { intros f Hf. apply window_tokens_all. intros s' [->|Hs']%elem_of_cons; [done|].
    specialize (Hall s' Hs'). cbn in Hall. lia. }
  assert (∀ f, Start.started_at_ms s ≤ f → window_tokens f (s :: l) = window_tokens f l) as Hout.
  { intros f Hf. unfold window_tokens. cbn [List.filter].
    by rewrite (proj2 (Z.ltb_ge _ _)) by lia. }
  cbn [retry_loop]. rewrite Hsum. replace (Start.tokens s + token_sum l - Start.tokens s)
    with (token_sum l) by lia.
  destruct (token_sum l + requested <=? limit) eqn:E; bprop in E.
  - exists (Start.started_at_ms s + window). split; [done|]. intros t. split; intros Ht.
    + destruct (decide (t - window < Start.started_at_ms s)) as [Hlt|]; [|lia].
      rewrite (Hin _ Hlt) in Ht. lia.
    + rewrite Hout by lia. pose proof (window_tokens_le (t - window) l Hn'). lia.
  - destruct (IH Hn' Hq) as (z & Hz & Ht); [lia|]. exists z. split; [done|]. intros t.
    rewrite <-Ht. destruct (decide (t - window < Start.started_at_ms s)) as [Hlt|Hge].
    + rewrite (Hin _ Hlt), (window_tokens_all _ l); [lia|]. intros s' Hs'.
      specialize (Hall s' Hs'). cbn in Hall. lia.
    + by rewrite Hout by lia.
Qed.

Lemma sorted_oldest_first l : oldest_first (sorted_by start_key time_id_leb l).
Proof.
  pose proof (sorted_by_sorted start_key time_id_leb l) as Hs.
  induction Hs as [|s l' Hs IH Hall]; constructor; [done|].
  eapply Forall_impl; [exact Hall|]. intros s' H. unfold key_le, time_id_leb, pair_leb in H. cbn in H.
  case_decide; [lia|]. by bprop.
Qed.

(** The retry time of a TPM denial is exact: it is the first moment at
    which the trailing window, with no further start, has room for the
    request; at every later moment it still has, and at none before. *)
Theorem tpm_retry_exact rt l requested limit :
  (∀ s, s ∈ l → 0 ≤ Start.tokens s) → requested ≤ limit → limit < token_sum l + requested →
  ∃ z, tpm_retry_at rt l requested limit = Ok z ∧
    ∀ t, window_tokens (t - ProviderAccount.tpm_window_seconds (account rt) * 1000) l +
           requested ≤ limit ↔ z ≤ t.
Proof.
  intros Hn Hq Hl. unfold tpm_retry_at.
  pose proof (sorted_by_perm start_key time_id_leb l) as Hp.
  set (sl := sorted_by start_key time_id_leb l) in *.
  destruct (retry_loop_exact requested limit
    (ProviderAccount.tpm_window_seconds (account rt) * 1000) sl) as (z & Hz & Ht).
  - apply sorted_oldest_first.
  - intros s Hs. apply Hn. by rewrite <-Hp.
  - done.
  - by rewrite (token_sum_perm _ _ Hp).
  - rewrite (token_sum_perm _ _ Hp) in Hz. rewrite Hz. exists z. split; [done|]. intros t.
    by rewrite <-Ht, (window_tokens_perm _ _ _ Hp).
Qed.

(** ** Circuits along a run *)
Definition is_circuit_record (rec : JournalRecord) : bool :=
  match JournalRecord.payload rec with
  | Payload.circuit_updated _ _ _ _ _ _ _ _ _ _ _ => true | _ => false end.

Lemma consume_keeps ids k p d : is_Some (dget p d) → is_Some (dget p (consume_probes ids k d)).
Proof.
  revert d. induction ids as [|q ids IH]; intros d Hp; [done|]. apply IH.
  rewrite dget_dset. case_decide; [by eauto|done].
Qed.

Lemma consume_adds ids k p d : p ∈ ids → is_Some (dget p (consume_probes ids k d)).
Proof.
  revert d. induction ids as [|q ids IH]; intros d; [by intros ?%elem_of_nil|].
  intros [->|Hp]%elem_of_cons; [|by apply IH].
  apply (consume_keeps ids k q (dset q k d)). rewrite dget_dset_eq. eauto.
Qed.

(** A consumed probe stays consumed until a circuit is updated. *)
Lemma step_consumed rt l rt' p : step rt l rt' →
  (∀ rec, l = Some rec → is_circuit_record rec = false) →
  is_Some (dget p (consumed_circuit_probes rt)) → is_Some (dget p (consumed_circuit_probes rt')).
Proof.
  intros H Hl. destruct H; try by destruct rt.
  - unfold roll_monthly. destruct (_ && _); by destruct rt.
  - unfold update_account in H0. inv_ok H0. subst rt'. unfold roll_monthly.
    destruct (_ && _), (_ || _); by destruct rt.
  - destruct rt. apply consume_keeps.
  - specialize (Hl _ eq_refl). unfold is_circuit_record in Hl. by rewrite H in Hl.
  - specialize (Hl _ eq_refl). unfold is_circuit_record in Hl. by rewrite H in Hl.
  - apply active_count_form in H1 as (_ & ks & m & ->). by destruct rt.
  - destruct (probe_finished_form c rt) as (at_ & m & -> & _). by destruct rt.
Qed.

Lemma steps_consumed rt ls rt' p : steps rt ls rt' →
  Forall (λ rec, is_circuit_record rec = false) ls →
  is_Some (dget p (consumed_circuit_probes rt)) → is_Some (dget p (consumed_circuit_probes rt')).
Proof.
  induction 1 as [|rt l rt1 ls rt2 H _ IH]; [done|]. intros [Hl Hls]%Forall_app Hp.
  apply IH; [done|]. eapply step_consumed; [exact H| |exact Hp].
  intros rec ->. by inversion_clear Hl.
Qed.

(** Circuit epochs never decrease. *)
Lemma step_epoch rt l rt' : step rt l rt' →
  CircuitValue.epoch (account_circuit rt) ≤ CircuitValue.epoch (account_circuit rt') ∧
  ∀ g, CircuitValue.epoch (circuit_value rt g) ≤ CircuitValue.epoch (circuit_value rt' g).
Proof.
  intros H. destruct H; try (destruct rt; split; [cbn; lia|intros g; apply Z.le_refl]).
  - unfold roll_monthly. destruct (_ && _); (destruct rt; split; [cbn; lia|intros g; apply Z.le_refl]).
  - unfold update_account in H0. inv_ok H0. subst rt'. unfold roll_monthly.
    destruct (_ && _), (_ || _); (destruct rt; split; [cbn; lia|intros g; apply Z.le_refl]).
  - split; [destruct rt; cbn; lia|]. intros g. subst expected.
    assert (circuit_value (set_circuit generation (circuit_value rt generation) replacement rt) g =
            if decide (generation = g) then replacement else circuit_value rt g) as ->.
    { destruct rt. unfold circuit_value, set_circuit, dget_or. cbn. rewrite dget_dset.
      by case_decide. }
    case_decide; [by subst|lia].
  - subst expected. destruct rt. split; [done|]. intros g. apply Z.le_refl.
  - apply active_count_form in H1 as (_ & ks & m & ->).
    destruct rt; split; [cbn; lia|intros g; apply Z.le_refl].
  - destruct (probe_finished_form c rt) as (at_ & m & -> & _).
    destruct rt; split; [cbn; lia|intros g; apply Z.le_refl].
Qed.

Lemma steps_epoch rt ls rt' : steps rt ls rt' →
  CircuitValue.epoch (account_circuit rt) ≤ CircuitValue.epoch (account_circuit rt') ∧
  ∀ g, CircuitValue.epoch (circuit_value rt g) ≤ CircuitValue.epoch (circuit_value rt' g).
Proof.
  induction 1 as [|rt l rt1 ls rt2 H _ [IH1 IH2]]; [split; [lia|]; intros; lia|].
  apply step_epoch in H as [H1 H2]. split; [lia|]. intros g. specialize (H2 g).
  specialize (IH2 g). lia.
Qed.

Section Theorems.
Context {Snapshot : Type} {safe : SafeSnapshot Snapshot}.
Context (rd : Z → Payload → string → string).
Context (pd : RequestProfile → string).
Context (sd : AttemptResolution → string).
Context (snap : AccountRuntime → Snapshot).
Implicit Types w : World Snapshot.

Abbreviation reachable := (@reachable Snapshot safe rd pd sd snap).
Abbreviation run_all := (@run_all Snapshot safe rd pd sd snap).

Lemma run_reachable cs w : reachable w → Forall valid cs → reachable (run_all cs w).
Proof.
  unfold AccountCalls.run_all. revert w. induction cs as [|c cs IH]; intros w Hr Hv; [done|].
  apply Forall_cons in Hv as [Hc Hv]. apply IH; [|done]. by apply reach_call.
Qed.

(** The records of a run are among those the journal gained. *)
Lemma run_steps cs w : reachable w → Forall valid cs → ∃ recs more,
  steps (World.runtime w) recs (World.runtime (run_all cs w)) ∧
  AttemptJournal.records (World.journal (run_all cs w)) =
    AttemptJournal.records (World.journal w) ++ more ∧ recs ⊆ more ∧
  (AttemptJournal.is_writable (World.journal (run_all cs w)) = true →
   more = recs ∧ AttemptJournal.is_writable (World.journal w) = true).
Proof.
  unfold AccountCalls.run_all. revert w. induction cs as [|c cs IH]; intros w Hr Hv.
  { exists [], []. cbn. rewrite app_nil_r. split_and!; [constructor|done..]. }
  apply Forall_cons in Hv as [Hc Hv].
  destruct (call_traced rd pd sd snap c w (reachable_inv _ _ _ _ _ Hr) Hc)
    as (recs1 & extra & Hs1 & Hr1 & _ & Hw1).
  destruct (IH (run rd pd sd snap c w)) as (recs2 & more & Hs2 & Hr2 & Hsub & Hw2); [by apply reach_call|done|].
  exists (recs1 ++ recs2), (recs1 ++ extra ++ more). cbn [foldl]. split_and!.
  - by eapply steps_app.
  - rewrite Hr2, Hr1. by rewrite <-!(assoc_L (++)).
  - set_solver.
  - intros [-> Hw]%Hw2. by destruct (Hw1 Hw) as [-> ->].
Qed.

(** C40. Every call is journaled: the account's state moves only by steps of
    the state machine whose records are, in order, the ones the call appended;
    a record whose write was not confirmed is at most one, and the journal
    then accepts no other. *)
Theorem calls_refine_machine c w : reachable w → valid c → ∃ recs extra,
  steps (World.runtime w) recs (World.runtime (run rd pd sd snap c w)) ∧
  AttemptJournal.records (World.journal (run rd pd sd snap c w)) =
    AttemptJournal.records (World.journal w) ++ recs ++ extra ∧
  (length extra ≤ 1)%nat ∧
  (AttemptJournal.is_writable (World.journal (run rd pd sd snap c w)) = true → extra = []).
Proof.
  intros Hr Hv.
  destruct (call_traced rd pd sd snap c w (reachable_inv _ _ _ _ _ Hr) Hv)
    as (recs & extra & Hs & Hl & He & Hw).
  exists recs, extra. split_and!; [done..|]. intros H. by apply Hw.
Qed.

(** In every reachable state the tables of the account agree: ids are
    unique and match their attempts, every attempt in flight has a window
    entry (so resolving it cannot fail on a missing one), a resolved attempt
    that still holds capacity is uncertain, a circuit names a probe only while
    half open, token counts, the monthly charge and external holds are not
    negative, and no start lies after the clock's high-water mark. *)
Theorem account_invariant w : reachable w →
  let rt := World.runtime w in
  (dict_ok (starts rt) ∧ dict_ok (attempts rt) ∧ dict_ok (resolutions rt)) ∧
  (∀ k a, dget k (attempts rt) = Some a →
     Attempt.attempt_id a = k ∧ is_Some (dget k (starts rt)) ∧
     (Attempt.is_active a = true → dget k (resolutions rt) = None)) ∧
  (∀ g, CircuitValue.probe_id (circuit_value rt g) =
        CircuitValue.half_open_probe (circuit_value rt g)) ∧
  (∀ k s, dget k (starts rt) = Some s →
     0 ≤ Start.tokens s ∧ Start.started_at_ms s ≤ time_high_water_ms rt) ∧
  0 ≤ monthly_used rt ∧ 0 ≤ external_uncertain_holds rt.
Proof.
  intros Hr%reachable_inv. cbv zeta. revert Hr. generalize (World.runtime w). intros rt [].
  split_and!; try done.
  - intros k a Ha. split_and!; [by apply i_ids0|apply i_started0; by rewrite Ha|].
    intros Hact. destruct (dget k (resolutions rt)) eqn:E; [|done].
    assert (Attempt.is_active a = false) by (apply (i_resolved0 k); [done|by rewrite E]).
    congruence.
  - intros g. unfold circuit_value, dget_or. destruct (dget g (circuits rt)) eqn:E; [|done].
    apply validate_probe_ok. by apply (i_deployments0 g).
Qed.

(** Circuit epochs are monotone: no sequence of calls lowers the epoch of
    the account's circuit or of a deployment's. *)
Theorem circuit_epochs_monotone cs w g : reachable w → Forall valid cs →
  let rt := World.runtime w in let rt' := World.runtime (run_all cs w) in
  CircuitValue.epoch (account_circuit rt) ≤ CircuitValue.epoch (account_circuit rt') ∧
  CircuitValue.epoch (circuit_value rt g) ≤ CircuitValue.epoch (circuit_value rt' g).
Proof.
  intros Hr Hv rt rt'. destruct (run_steps cs w Hr Hv) as (recs & more & Hs & _).
  apply steps_epoch in Hs as [H1 H2]. by split.
Qed.

(** A half-open probe is spent once: after a reservation was granted
    through it, no other is granted through it in any later state, until a
    record says the circuit was updated. *)
Theorem half_open_probe_single_use io t r1 receipt w w1 cs io' t' r2 p :
  reachable w → ReservationRequest.validate r1 = Ok r1 → Forall valid cs →
  try_reserve rd pd snap io t r1 w = (w1, Ok (Granted r1 receipt)) →
  p ∈ probe_ids r1 (World.runtime w) →
  let w2 := run_all cs w1 in
  Forall (λ rec, is_circuit_record rec = false)
    (drop (length (AttemptJournal.records (World.journal w1)))
       (AttemptJournal.records (World.journal w2))) →
  p ∈ probe_ids r2 (World.runtime w2) →
  ∀ w3 r3 receipt3, try_reserve rd pd snap io' t' r2 w2 ≠ (w3, Ok (Granted r3 receipt3)).
Proof.
  intros Hr Hv1 Hv Hg Hp w2 Hno Hp2 w3 r3 receipt3 Hg2.
  assert (reachable w1) as Hr1.
  { change w1 with (w1, @Ok Reservation (Granted r1 receipt)).1. rewrite <-Hg.
    by apply (reach_call rd pd sd snap w (CReserve io t r1)). }
  apply try_reserve_Granted in Hg as [_ [_ _ _ _ Hrt]].
  assert (is_Some (dget p (consumed_circuit_probes (World.runtime w1)))) as Hc1.
  { rewrite Hrt. set (rt1 := housekeep _ _ _).
    assert (probe_ids r1 rt1 = probe_ids r1 (World.runtime w)) as Hpr.
    { unfold probe_ids, circuit_value.
      destruct (core_housekeep (now_ms t (World.runtime w)) t (World.runtime w))
        as [_ _ Hcc Hca _ _ _]. unfold rt1. by rewrite Hcc, Hca. }
    rewrite Hpr. destruct rt1. by apply consume_adds. }
  destruct (run_steps cs w1 Hr1 Hv) as (recs & more & Hs & Hmore & Hsub).
  fold w2 in Hs, Hmore. rewrite Hmore, drop_app_length in Hno.
  assert (Forall (λ rec, is_circuit_record rec = false) recs) as Hno'.
  { rewrite Forall_forall in Hno |- *. intros rec Hrec. by apply Hno, Hsub. }
  pose proof (steps_consumed _ _ _ p Hs Hno' Hc1) as [k Hc2].
  apply try_reserve_Granted in Hg2 as [_ [_ Hl _ _ _]].
  assert (dget p (consumed_circuit_probes (World.runtime w2)) = None) as Hnone; [|congruence].
  set (rt2 := prune_resolutions _ _) in Hl.
  assert (consumed_circuit_probes rt2 = consumed_circuit_probes (World.runtime w2) ∧
          probe_ids r2 rt2 = probe_ids r2 (World.runtime w2)) as [E1 E2].
  { unfold rt2. by destruct (World.runtime w2). }
  rewrite <-E1. apply (ll_probes _ _ _ Hl). by rewrite E2.
Qed.
End Theorems.
End RunTheorems.

Lemma tpm_retry_exact_witness :
  let rt := World.runtime AccountSamples.start in
  let l := [Start.mk "b" 5000 40 true; Start.mk "a" 2000 70 true] in
  ∃ z, AccountRuntime.tpm_retry_at rt l 60 100 = Ok z ∧
    ∀ t, RunTheorems.window_tokens
           (t - ProviderAccount.tpm_window_seconds (AccountRuntime.account rt) * 1000) l + 60 ≤ 100
         ↔ z ≤ t.
Proof.
  apply RunTheorems.tpm_retry_exact.
  - intros s [->|[->|[]%elem_of_nil]%elem_of_cons]%elem_of_cons; vm_compute; discriminate.
  - vm_compute. discriminate.
  - vm_compute. reflexivity.
Defined.

Lemma account_invariant_witness :
  0 ≤ AccountRuntime.monthly_used (World.runtime AccountSamples.after_first) ∧
  0 ≤ AccountRuntime.external_uncertain_holds (World.runtime AccountSamples.after_first).
Proof.
  apply (RunTheorems.account_invariant AccountSamples.record_digest
    AccountSamples.profile_digest AccountSamples.resolution_digest AccountSamples.snapshot).
  apply AccountSamples.after_first_reachable.
Defined.

Lemma calls_refine_machine_witness :
  let c := AccountCalls.CFinish AccountSamples.io 2500 (Samples.attempt "1")
             (AccountSamples.resolution true) in
  let w := AccountSamples.after_first in ∃ recs extra,
  AccountMachine.steps (World.runtime w) recs (World.runtime (AccountSamples.run_call c w)) ∧
  AttemptJournal.records (World.journal (AccountSamples.run_call c w)) =
    AttemptJournal.records (World.journal w) ++ recs ++ extra ∧
  (length extra ≤ 1)%nat ∧
  (AttemptJournal.is_writable (World.journal (AccountSamples.run_call c w)) = true → extra = []).
Proof.
  apply (RunTheorems.calls_refine_machine AccountSamples.record_digest
    AccountSamples.profile_digest AccountSamples.resolution_digest AccountSamples.snapshot).
  - apply AccountSamples.after_first_reachable.
  - vm_compute. reflexivity.
Defined.

Lemma circuit_epochs_monotone_witness :
  let cs := [AccountCalls.CCircuit AccountSamples.io Samples.generation AccountSamples.closed
               AccountSamples.open] in
  let rt := World.runtime AccountSamples.start in
  let rt' := World.runtime (AccountCalls.run_all AccountSamples.record_digest
    AccountSamples.profile_digest AccountSamples.resolution_digest AccountSamples.snapshot cs
    AccountSamples.start) in
  CircuitValue.epoch (AccountRuntime.account_circuit rt) ≤
    CircuitValue.epoch (AccountRuntime.account_circuit rt') ∧
  CircuitValue.epoch (AccountRuntime.circuit_value rt Samples.generation) ≤
    CircuitValue.epoch (AccountRuntime.circuit_value rt' Samples.generation).
Proof.
  apply RunTheorems.circuit_epochs_monotone.
  - apply AccountSamples.start_reachable.
  - apply Forall_cons. split; [split; vm_compute; reflexivity|constructor].
Defined.

Lemma half_open_probe_single_use_witness :
  let w1 := (AccountSamples.reserve 3000 (AccountSamples.probe_request "1")
               AccountSamples.half_opened).1 in
    AccountSamples.reserve 3001 (AccountSamples.probe_request "2")
      (AccountCalls.run_all AccountSamples.record_digest AccountSamples.profile_digest
         AccountSamples.resolution_digest AccountSamples.snapshot
         [AccountCalls.CDispatch AccountSamples.io 3000 (Samples.attempt "1")] w1)
    ≠ (w1, Ok (Granted (AccountSamples.probe_request "2")
             (JournalReceipt.mk 5 (AccountSamples.sha "0d")))).
Proof.
  apply (RunTheorems.half_open_probe_single_use AccountSamples.record_digest
    AccountSamples.profile_digest AccountSamples.resolution_digest AccountSamples.snapshot
    AccountSamples.io 3000 (AccountSamples.probe_request "1")
    (JournalReceipt.mk 3 (AccountSamples.sha "0d")) AccountSamples.half_opened
    (AccountSamples.reserve 3000 (AccountSamples.probe_request "1") AccountSamples.half_opened).1
    [AccountCalls.CDispatch AccountSamples.io 3000 (Samples.attempt "1")]
    AccountSamples.io 3001 (AccountSamples.probe_request "2")
    (String.append "probe_" (Samples.uuid "1"))).
  - apply AccountSamples.half_opened_reachable.
  - vm_compute. reflexivity.
  - apply Forall_cons. split; [exact I|constructor].
  - apply pair_result. vm_compute. reflexivity.
  - vm_compute. left.
  - vm_compute. repeat constructor.
  - vm_compute. left.
Defined.

(** ** The bound of the resolution ledger

    The ids an account remembers, as a set: those of its attempts and of its
    resolutions.  Only a reservation adds one, and only under the limit. *)
Module LedgerFacts.
Import AccountRuntime AccountOps AccountMachine AccountCalls HousekeepingFacts.

(** An id the account has not forgotten. *)
Definition known (rt : AccountRuntime) (k : string) : Prop :=
  is_Some (dget k (attempts rt)) ∨ is_Some (dget k (resolutions rt)).

Definition known_ids (rt : AccountRuntime) : gset string :=
  list_to_set (dkeys (attempts rt)) ∪ list_to_set (dkeys (resolutions rt)).

Lemma elem_of_known_ids rt k : k ∈ known_ids rt ↔ known rt k.
Proof.
  unfold known_ids, known. by rewrite elem_of_union, !elem_of_list_to_set, !dget_is_Some.
Qed.

(** The remembered ids are the resolved and the unresolved ones. *)
Lemma size_known_ids rt : inv rt →
  Z.of_nat (size (known_ids rt)) = Z.of_nat (length (resolutions rt)) + unresolved rt.
Proof.
  intros []. set (f := λ k, negb (dmem k (resolutions rt))).
  assert (known_ids rt =
    list_to_set (dkeys (resolutions rt) ++ List.filter f (dkeys (attempts rt)))) as ->.
  { apply set_eq. intros k. unfold known_ids. rewrite elem_of_union, !elem_of_list_to_set, elem_of_app.
    rewrite (list_elem_of_In (List.filter _ _)), filter_In, <-list_elem_of_In.
    unfold f. rewrite negb_true_iff, dmem_false, dget_None.
    destruct (decide (k ∈ dkeys (resolutions rt))); tauto. }
  rewrite size_list_to_set, length_app, Nat2Z.inj_add.
  - unfold unresolved, dkeys at 1. by rewrite length_fmap.
  - apply NoDup_app. split_and!; [done| |].
    + intros k Hk Hin. apply list_elem_of_In, filter_In in Hin as [_ Hin]. unfold f in Hin.
      by rewrite negb_true_iff, dmem_false, dget_None in Hin.
    + eapply sublist_NoDup; [exact i_attempts0|apply sublist_filter_bool].
Qed.

(** A step forgets ids, or is a reservation under the limit. *)
Lemma step_known rt l rt' : inv rt → step rt l rt' →
  resolution_ledger_limit rt' = resolution_ledger_limit rt ∧
  ((∀ k, known rt' k → known rt k) ∨
   Z.of_nat (length (resolutions rt)) + unresolved rt < resolution_ledger_limit rt ∧
   ∃ k, ∀ k', known rt' k' → k' = k ∨ known rt k').
Proof.
  intros Hi H. pose proof (i_attempts _ Hi) as Hd. pose proof (i_resolutions _ Hi) as Hr.
  destruct H.
  - destruct rt. by split; [|left].
  - split; [by destruct rt|]. left. intros k [Hk|[v Hk]]; [left; by destruct rt|].
    right. exists v. by apply prune_subset in Hk.
  - destruct rt. by split; [|left].
  - unfold roll_monthly. destruct (_ && _); destruct rt; by split; [|left].
  - unfold update_account in H0. inv_ok H0. subst rt'. unfold roll_monthly.
    destruct (_ && _), (_ || _); destruct rt; by split; [|left].
  - split; [by destruct rt|]. right. split; [done|]. exists k. intros k'. unfold known.
    destruct rt; cbn. rewrite dget_dset. case_decide; [by left|by right].
  - split; [by destruct rt|]. left. intros k'. unfold known. destruct rt; cbn in *.
    rewrite dget_dset. case_decide; [|done]. subst k'. intros _. left. eauto.
  - split; [by destruct rt|]. left. intros k'. unfold known. destruct rt; cbn in *.
    destruct (AttemptResolution.release_capacity r); rewrite ?dget_dset, ?dget_ddel by done;
      (case_decide; [subst k'; intros _; left; eauto|done]).
  - destruct rt. by split; [|left].
  - destruct rt. by split; [|left].
  - apply active_count_form in H1 as (_ & ks & m & ->). split; [by destruct rt|]. left.
    intros k. unfold known. destruct rt; cbn in *. rewrite dget_ddels by done.
    case_decide; [|done]. intros [[]|]; [done|by right].
  - destruct rt. by split; [|left].
  - destruct (probe_finished_form c rt) as (at_ & m & -> & Hat & _). split; [by destruct rt|]. left.
    intros k. unfold known. destruct rt; cbn in *. destruct Hat as [->|[k' ->]]; [done|].
    rewrite dget_ddel by done. case_decide; [|done]. intros [[]|]; [done|by right].
Qed.

(** At most [n] ids. *)
Definition ledger_ok (rt : AccountRuntime) : Prop :=
  Z.of_nat (length (resolutions rt)) + unresolved rt ≤ Z.max 0 (resolution_ledger_limit rt).

Lemma step_ledger rt l rt' : inv rt → step rt l rt' → ledger_ok rt → ledger_ok rt'.
Proof.
  intros Hi H. assert (inv rt') as Hi' by by eapply step_inv.
  unfold ledger_ok. rewrite <-!size_known_ids by done.
  destruct (step_known rt l rt' Hi H) as (-> & [Hsub|(Hlt & k & Hk)]); intros Hb.
  - assert (known_ids rt' ⊆ known_ids rt) as Hss%subseteq_size.
    { intros k. rewrite !elem_of_known_ids. apply Hsub. }
    lia.
  - rewrite <-size_known_ids in Hlt by done.
    assert (known_ids rt' ⊆ {[k]} ∪ known_ids rt) as Hss%subseteq_size.
    { intros k'. rewrite elem_of_union, elem_of_singleton, !elem_of_known_ids. apply Hk. }
    rewrite size_union_alt, size_singleton in Hss.
    assert (known_ids rt ∖ {[k]} ⊆ known_ids rt) as Hd%subseteq_size by set_solver. lia.
Qed.

Lemma steps_ledger rt ls rt' : inv rt → steps rt ls rt' → ledger_ok rt →
  ledger_ok rt' ∧ resolution_ledger_limit rt' = resolution_ledger_limit rt.
Proof.
  intros Hi H. induction H as [rt|rt l rt1 ls rt2 H _ IH]; [done|]. intros Hl.
  destruct (step_known rt l rt1 Hi H) as [<- _].
  apply IH; [by eapply step_inv|by eapply step_ledger].
Qed.

Section Theorems.
Context {Snapshot : Type} {safe : SafeSnapshot Snapshot}.
Context (rd : Z → Payload → string → string).
Context (pd : RequestProfile → string).
Context (sd : AttemptResolution → string).
Context (snap : AccountRuntime → Snapshot).
Implicit Types w : World Snapshot.

Lemma reachable_ledger w : AccountCalls.reachable rd pd sd snap w → ledger_ok (World.runtime w).
Proof.
  induction 1 as [j a limit ret c Ha|w c Hw IH Hv|j j' rt _ IH]; [by apply Z.le_max_l| |done].
  assert (inv (World.runtime w)) as Hi by by eapply reachable_inv.
  destruct (call_traced rd pd sd snap c w Hi Hv) as (recs & extra & Hs & _).
  by apply (steps_ledger _ _ _ Hi Hs).
Qed.

(** The memory of an account is bounded: however many requests it served,
    the resolutions it keeps and the attempts not yet resolved are together at
    most the configured ledger limit, which no call changes. *)
Theorem ledger_bounded cs w : reachable rd pd sd snap w → Forall valid cs →
  let rt := World.runtime (run_all rd pd sd snap cs w) in
  Z.of_nat (length (resolutions rt)) + unresolved rt ≤ Z.max 0 (resolution_ledger_limit rt) ∧
  resolution_ledger_limit rt = resolution_ledger_limit (World.runtime w).
Proof.
  intros Hw Hv rt. split.
  - apply reachable_ledger. by apply RunTheorems.run_reachable.
  - destruct (RunTheorems.run_steps rd pd sd snap cs w Hw Hv) as (recs & more & Hs & _).
    apply (steps_ledger _ _ _ (reachable_inv _ _ _ _ _ Hw) Hs). by apply reachable_ledger.
Qed.
End Theorems.
End LedgerFacts.

Lemma ledger_bounded_witness :
  let cs := [AccountCalls.CFinish AccountSamples.io 2500 (Samples.attempt "1")
               (AccountSamples.resolution true)] in
  let rt := World.runtime (AccountCalls.run_all AccountSamples.record_digest
    AccountSamples.profile_digest AccountSamples.resolution_digest AccountSamples.snapshot cs
    AccountSamples.after_first) in
  Z.of_nat (length (AccountRuntime.resolutions rt)) + AccountOps.unresolved rt ≤
    Z.max 0 (AccountRuntime.resolution_ledger_limit rt) ∧
  AccountRuntime.resolution_ledger_limit rt =
    AccountRuntime.resolution_ledger_limit (World.runtime AccountSamples.after_first).
Proof.
  apply (LedgerFacts.ledger_bounded AccountSamples.record_digest
    AccountSamples.profile_digest AccountSamples.resolution_digest AccountSamples.snapshot).
  - apply AccountSamples.after_first_reachable.
  - constructor; [vm_compute; reflexivity|constructor].
Defined.
