(* ===== verification/Replay.v ===== *)
(** * Snapshots and replay of one account

    [AccountRuntime._snapshot_state] and [_restore_snapshot_state], and the
    part of [RuntimeState._apply_record] that changes one account.  A snapshot
    is the JSON object of the source as a record: its dictionaries are sorted
    by key, states and causes are their string values, and an attempt's receipt
    is split into its two numbers. *)
From S2P Require Export Account.
From Stdlib Require Import Ascii.

(** [sorted(d.items())] *)
Definition sorted_items {V} (d : dict string V) : dict string V := sorted_by fst str_leb d.

Definition dmap {V W} (f : string → V → W) (d : dict string V) : dict string W :=
  (λ p, (p.1, f p.1 p.2)) <$> d.

Module StartSnapshot.
Record t := mk { started_at_ms : Z; tokens : Z; counted_start : bool }.
Definition save (s : Start) : t :=
  mk (Start.started_at_ms s) (Start.tokens s) (Start.counted_start s).
Definition load (attempt_id : string) (s : t) : Start :=
  Start.mk attempt_id (started_at_ms s) (tokens s) (counted_start s).
End StartSnapshot.

Module AttemptSnapshot.
Record t := mk {
  request_id : string;
  leg_id : string;
  deployment_generation_id : string;
  installation_id : string;
  bundle_generation : Z;
  bundle_hash : string;
  fence_token : Z;
  boot_id : string;
  deadline_at_ms : Z;
  profile_digest : string;
  circuit_epoch : Z;
  account_circuit_epoch : Z;
  circuit_probe_id : option string;
  account_circuit_probe_id : option string;
  monthly_reset_at_ms : Z;
  started_at_ms : Z;
  dispatched_at_ms : option Z;
  dispatch_lsn : option Z;
  dispatch_digest : option string;
  reserved_tokens : Z;
  quota_units : Z;
  state : string;
}.

Definition save (a : Attempt) : t :=
  {| request_id := Attempt.request_id a;
     leg_id := Attempt.leg_id a;
     deployment_generation_id := Attempt.deployment_generation_id a;
     installation_id := Attempt.installation_id a;
     bundle_generation := Attempt.bundle_generation a;
     bundle_hash := Attempt.bundle_hash a;
     fence_token := Attempt.fence_token a;
     boot_id := Attempt.boot_id a;
     deadline_at_ms := Attempt.deadline_at_ms a;
     profile_digest := Attempt.profile_digest a;
     circuit_epoch := Attempt.circuit_epoch a;
     account_circuit_epoch := Attempt.account_circuit_epoch a;
     circuit_probe_id := Attempt.circuit_probe_id a;
     account_circuit_probe_id := Attempt.account_circuit_probe_id a;
     monthly_reset_at_ms := Attempt.monthly_reset_at_ms a;
     started_at_ms := Attempt.started_at_ms a;
     dispatched_at_ms := Attempt.dispatched_at_ms a;
     dispatch_lsn := JournalReceipt.durable_lsn <$> Attempt.dispatch_receipt a;
     dispatch_digest := JournalReceipt.record_digest <$> Attempt.dispatch_receipt a;
     reserved_tokens := Attempt.reserved_tokens a;
     quota_units := Attempt.quota_units a;
     state := Attempt.state a |}.

(** [_require_str(item["dispatch_digest"])] raises on a missing digest. *)
Definition load (attempt_id : string) (a : t) : result Attempt :=
  receipt ← match dispatch_lsn a with
            | None => Ok None
            | Some lsn =>
                match dispatch_digest a with
                | Some d => Ok (Some (JournalReceipt.mk lsn d))
                | None => Err (ValueError "checkpoint field must be a string")
                end
            end;
  mret {| Attempt.attempt_id := attempt_id;
          Attempt.request_id := request_id a;
          Attempt.leg_id := leg_id a;
          Attempt.deployment_generation_id := deployment_generation_id a;
          Attempt.installation_id := installation_id a;
          Attempt.bundle_generation := bundle_generation a;
          Attempt.bundle_hash := bundle_hash a;
          Attempt.fence_token := fence_token a;
          Attempt.boot_id := boot_id a;
          Attempt.deadline_at_ms := deadline_at_ms a;
          Attempt.profile_digest := profile_digest a;
          Attempt.circuit_epoch := circuit_epoch a;
          Attempt.account_circuit_epoch := account_circuit_epoch a;
          Attempt.circuit_probe_id := circuit_probe_id a;
          Attempt.account_circuit_probe_id := account_circuit_probe_id a;
          Attempt.monthly_reset_at_ms := monthly_reset_at_ms a;
          Attempt.started_at_ms := started_at_ms a;
          Attempt.dispatched_at_ms := dispatched_at_ms a;
          Attempt.dispatch_receipt := receipt;
          Attempt.reserved_tokens := reserved_tokens a;
          Attempt.quota_units := quota_units a;
          Attempt.state := state a |}.
End AttemptSnapshot.

(** The raw fields of a circuit, in a snapshot or a [circuit_updated] record,
    and the [CircuitValue] built from them. *)
Module CircuitSnapshot.
Record t := mk {
  state : string;
  cause : option string;
  epoch : Z;
  opened_at_ms : Z;
  retry_at_ms : Z;
  backoff_step : Z;
  evidence_digest : option string;
  probe_id : option string;
}.

Definition save (v : CircuitValue) : t :=
  {| state := CircuitState.value (CircuitValue.state v);
     cause := CircuitCause.value <$> CircuitValue.cause v;
     epoch := CircuitValue.epoch v;
     opened_at_ms := CircuitValue.opened_at_ms v;
     retry_at_ms := CircuitValue.retry_at_ms v;
     backoff_step := CircuitValue.backoff_step v;
     evidence_digest := CircuitValue.evidence_digest v;
     probe_id := CircuitValue.probe_id v |}.

Definition load_cause (c : option string) : result (option CircuitCause) :=
  match c with None => Ok None | Some s => c ← CircuitCause.of_value s; mret (Some c) end.

Definition load (s : t) : result CircuitValue :=
  st ← CircuitState.of_value (state s);
  ca ← load_cause (cause s);
  CircuitValue.validate (CircuitValue.mk st ca (epoch s) (opened_at_ms s) (retry_at_ms s)
    (backoff_step s) (evidence_digest s) (probe_id s)).
End CircuitSnapshot.

(** [for item in ...: d[key] = load(item)] *)
Fixpoint dict_load {V W} (load : string → V → result W) (d : dict string V) :
    result (dict string W) :=
  match d with
  | [] => mret []
  | (k, v) :: d => w ← load k v; d ← dict_load load d; mret ((k, w) :: d)
  end.

Module AccountSnapshot.
Record t := mk {
  starts : dict string StartSnapshot.t;
  attempts : dict string AttemptSnapshot.t;
  resolutions : dict string ResolvedAttempt;
  consumed_circuit_probes : dict string string;
  time_high_water_ms : Z;
  monthly_used : Z;
  monthly_reset_at_ms : Z;
  external_uncertain_holds : Z;
  recovery_probe_id : option string;
  account_circuit : CircuitSnapshot.t;
  circuits : dict string CircuitSnapshot.t;
}.

(** [_snapshot_state] *)
Definition save (rt : AccountRuntime) : t :=
  {| starts := dmap (λ _, StartSnapshot.save) (sorted_items (AccountRuntime.starts rt));
     attempts := dmap (λ _, AttemptSnapshot.save) (sorted_items (AccountRuntime.attempts rt));
     resolutions := sorted_items (AccountRuntime.resolutions rt);
     consumed_circuit_probes := sorted_items (AccountRuntime.consumed_circuit_probes rt);
     time_high_water_ms := AccountRuntime.time_high_water_ms rt;
     monthly_used := AccountRuntime.monthly_used rt;
     monthly_reset_at_ms := AccountRuntime.monthly_reset_at_ms rt;
     external_uncertain_holds := AccountRuntime.external_uncertain_holds rt;
     recovery_probe_id := AccountRuntime.recovery_probe_id rt;
     account_circuit := CircuitSnapshot.save (AccountRuntime.account_circuit rt);
     circuits := dmap (λ _, CircuitSnapshot.save) (sorted_items (AccountRuntime.circuits rt)) |}.

(** [_restore_snapshot_state] *)
Definition load (s : t) (rt : AccountRuntime) : result AccountRuntime :=
  raise_if (AccountRuntime.resolution_ledger_limit rt <? Z.of_nat (length (resolutions s)))
    (ValueError "recovered resolution ledger exceeds configured bound");;
  attempts ← dict_load AttemptSnapshot.load (attempts s);
  account_circuit ← CircuitSnapshot.load (account_circuit s);
  circuits ← dict_load (λ _, CircuitSnapshot.load) (circuits s);
  mret (rt{{ AccountRuntime.starts := dmap StartSnapshot.load (starts s);
             AccountRuntime.attempts := attempts;
             AccountRuntime.time_high_water_ms := time_high_water_ms s;
             AccountRuntime.resolutions := resolutions s;
             AccountRuntime.consumed_circuit_probes := consumed_circuit_probes s;
             AccountRuntime.monthly_used := monthly_used s;
             AccountRuntime.monthly_reset_at_ms := monthly_reset_at_ms s;
             AccountRuntime.external_uncertain_holds := external_uncertain_holds s;
             AccountRuntime.recovery_probe_id := recovery_probe_id s;
             AccountRuntime.account_circuit := account_circuit;
             AccountRuntime.circuits := circuits }}).
End AccountSnapshot.
Abbreviation AccountSnapshot := AccountSnapshot.t.

(** ** Replay of one record *)
Module AccountReplay.
Import AccountRuntime AccountOps.

(** [attempt_reserved]: a reservation of another month starts its charge at
    zero. *)
Definition replay_reserved (d : DurableReservation) (rt : AccountRuntime) : AccountRuntime :=
  let rt := if negb (monthly_reset_at_ms rt =? DurableReservation.monthly_reset_at_ms d)
            then rt{{ monthly_reset_at_ms := DurableReservation.monthly_reset_at_ms d;
                      monthly_used := 0 }}
            else rt in
  record_reservation d
    (omap id [DurableReservation.account_circuit_probe_id d; DurableReservation.circuit_probe_id d])
    rt.

(** [attempt_dispatched] *)
Definition replay_dispatched (receipt : JournalReceipt) (attempt_id : string) (at_ms : Z)
    (rt : AccountRuntime) : result AccountRuntime :=
  match dget attempt_id (attempts rt) with
  | None => Err (InvalidLeaseTransition "dispatch has no durable reservation")
  | Some a =>
      match Attempt.dispatch_receipt a with
      | Some previous =>
          raise_if (negb (bool_decide (Attempt.dispatched_at_ms a = Some at_ms)) ||
                    negb (bool_decide (previous = receipt)))
            (InvalidLeaseTransition "conflicting durable dispatch");;
          mret rt
      | None => mret (rt{{ attempts ::= dset attempt_id
            (a{{ Attempt.dispatched_at_ms := Some at_ms;
                 Attempt.dispatch_receipt := Some receipt }}) }})
      end
  end.

(** [attempt_resolved]; the monthly charge is adjusted whatever the month. *)
Definition replay_resolved (receipt : JournalReceipt) (attempt_id : string)
    (r : AttemptResolution) (digest : string) (at_ms : Z) (rt : AccountRuntime) :
    result AccountRuntime :=
  match dget attempt_id (resolutions rt) with
  | Some resolved =>
      raise_if (negb (bool_decide (ResolvedAttempt.resolution_digest resolved = digest)))
        (InvalidLeaseTransition "conflicting durable resolution");;
      mret rt
  | None =>
      match dget attempt_id (attempts rt) with
      | None => Err (InvalidLeaseTransition "resolution has no durable reservation")
      | Some a =>
          raise_if (exceeds (AttemptResolution.actual_token_units r) (Attempt.reserved_tokens a))
            (InvalidLeaseTransition "durable token usage exceeds reservation");;
          raise_if (exceeds (AttemptResolution.actual_quota_units r) (Attempt.quota_units a))
            (InvalidLeaseTransition "durable quota usage exceeds reservation");;
          match dget attempt_id (starts rt) with
          | None => Err (KeyError attempt_id)
          | Some start =>
              mret (close_attempt attempt_id a r
                (ResolvedAttempt.mk digest receipt at_ms (dispatch a))
                (rt{{ starts ::= dset attempt_id (resolve_start start r);
                      monthly_used ::= adjust_monthly r a true }}))
          end
      end
  end.

(** [attempt_uncertain] *)
Definition replay_uncertain (attempt_id : string) (rt : AccountRuntime) : AccountRuntime :=
  match dget attempt_id (attempts rt) with
  | Some a => rt{{ attempts ::= dset attempt_id (a{{ Attempt.state := "uncertain"%string }}) }}
  | None => rt
  end.

(** [circuit_updated] *)
Definition replay_circuit (scope : string) (generation : option string) (v : CircuitValue)
    (rt : AccountRuntime) : result AccountRuntime :=
  if bool_decide (scope = CircuitScope.value CircuitScope.ACCOUNT)
  then mret (rt{{ consumed_circuit_probes ::= forget_probe (CircuitValue.probe_id (account_circuit rt));
                  account_circuit := v }})
  else
    match generation with
    | None => Err (ValueError "DeploymentGenerationId must be a string")
    | Some g =>
        typed_id_new DeploymentGenerationId g;;
        mret (rt{{ consumed_circuit_probes ::=
                     forget_probe (dget g (circuits rt) ≫= CircuitValue.probe_id);
                   circuits ::= dset g v }})
    end.

(** [_apply_record] after the account is found.  The resolution of a record
    carries the outcome only for its digest. *)
Definition apply_to_account (r : JournalRecord) (rt : AccountRuntime) : result AccountRuntime :=
  let receipt := AttemptJournal.receipt r in
  match JournalRecord.payload r with
  | Payload.account_registered _ _ _ _ _ => mret rt
  | Payload.attempt_reserved d => mret (replay_reserved d rt)
  | Payload.attempt_dispatched k at_ms => replay_dispatched receipt k at_ms rt
  | Payload.attempt_resolved k _ release starts tokens quota digest at_ms =>
      replay_resolved receipt k (AttemptResolution.mk COMPLETED release starts tokens quota)
        digest at_ms rt
  | Payload.attempt_uncertain k _ => mret (replay_uncertain k rt)
  | Payload.circuit_updated _ g scope state cause opened step evidence epoch retry probe =>
      v ← CircuitSnapshot.load (CircuitSnapshot.mk state cause epoch opened retry step evidence probe);
      replay_circuit scope g v rt
  | Payload.authoritative_active_count _ n => apply_active_count n rt
  | Payload.recovery_probe_started _ p => mret (rt{{ recovery_probe_id := Some p }})
  | Payload.recovery_probe_finished _ _ c =>
      c ← ProbeClassification.of_value c; mret (apply_probe_finished c rt)
  end.

Fixpoint replay (rs : list JournalRecord) (rt : AccountRuntime) : result AccountRuntime :=
  match rs with
  | [] => mret rt
  | r :: rs => rt ← apply_to_account r rt; replay rs rt
  end.
End AccountReplay.
