(* ===== verification/ReplayFacts.v ===== *)
(** * Facts of replay

    The simulation between a live account and its replay: they agree on
    everything that decides capacity, circuits and identity, while the live
    tables may have expired entries the replay still has.  Every journaled step
    of the live account is matched by the replay of its record. *)
From S2P Require Export Replay AccountRuns.
From Stdlib Require Import Ascii.

(** ** Dictionaries with the same lookups *)
Section LookupEquality.
Context {V : Type}.
Implicit Types d : dict string V.

Definition deq d d' : Prop := ∀ k, dget k d = dget k d'.

#[global] Instance deq_equivalence : Equivalence deq.
Proof. split; [done|by intros d d' H k|]. intros d1 d2 d3 H1 H2 k. by rewrite H1. Qed.

#[global] Instance dget_proper k : Proper (deq ==> eq) (dget k : dict string V → option V).
Proof. by intros d d' H. Qed.

#[global] Instance dset_proper k v : Proper (deq ==> deq) (dset k v : dict string V → dict string V).
Proof. intros d d' H k'. rewrite !dget_dset. by case_decide. Qed.

Lemma ddel_deq k d d' : dict_ok d → dict_ok d' → deq d d' → deq (ddel k d) (ddel k d').
Proof. intros Hd Hd' H k'. rewrite !dget_ddel by done. by case_decide. Qed.

Lemma deq_perm d d' : dict_ok d → dict_ok d' → deq d d' → d ≡ₚ d'.
Proof.
  intros Hd Hd' H. apply NoDup_Permutation.
  - by apply (NoDup_fmap_1 fst).
  - by apply (NoDup_fmap_1 fst).
  - intros [k v]. by rewrite !elem_of_dget, H.
Qed.

Lemma perm_deq d d' : dict_ok d → d ≡ₚ d' → deq d d'.
Proof. intros Hd Hp k. by apply dget_perm. Qed.
End LookupEquality.

Module ReplayFacts.
Import AccountRuntime AccountOps AccountMachine AccountReplay HousekeepingFacts LedgerFacts.

#[export] Instance time_id_order : BoolOrder time_id_leb.
Proof. unfold time_id_leb. apply _. Qed.

Lemma has_active_deq rt rt' : attempts rt ≡ₚ attempts rt' → has_active rt = has_active rt'.
Proof. intros Hp. apply existsb_perm. unfold dvalues. by rewrite Hp. Qed.

(** The oldest-first order of the attempts does not depend on the table's. *)
Lemma ordered_perm (d d' : dict string Attempt) : dict_ok d → d ≡ₚ d' →
  sorted_by (λ p : string * Attempt, (Attempt.started_at_ms p.2, p.1)) time_id_leb d =
  sorted_by (λ p : string * Attempt, (Attempt.started_at_ms p.2, p.1)) time_id_leb d'.
Proof.
  intros Hd Hp. apply sorted_by_unique; [apply _| |done].
  apply (NoDup_fmap_1 snd). rewrite <-list_fmap_compose. exact Hd.
Qed.

Lemma oldest_uncertain_perm (d d' : dict string Attempt) : dict_ok d →
  (∀ k a, dget k d = Some a → Attempt.attempt_id a = k) → d ≡ₚ d' →
  min_by Attempt.age_key time_id_leb (List.filter Attempt.is_uncertain (dvalues d)) =
  min_by Attempt.age_key time_id_leb (List.filter Attempt.is_uncertain (dvalues d')).
Proof.
  intros Hd Hids Hp. apply min_by_perm; [apply _| |].
  2: { unfold dvalues. by rewrite Hp. }
  apply (NoDup_fmap_1 snd). rewrite <-list_fmap_compose.
  assert (snd ∘ Attempt.age_key <$> dvalues d = dkeys d) as Hk.
  { unfold dvalues, dkeys. rewrite <-list_fmap_compose. apply list_fmap_ext.
    intros i [k a] Hi. cbn. apply Hids. apply elem_of_dget; [done|].
    by eapply list_elem_of_lookup_2. }
  eapply sublist_NoDup; [|apply fmap_sublist, sublist_filter_bool]. by rewrite Hk.
Qed.

(** ** The simulation *)
Record tables_ok (rt : AccountRuntime) : Prop := {
  to_attempts : dict_ok (attempts rt);
  to_starts : dict_ok (starts rt);
  to_circuits : dict_ok (circuits rt);
  to_consumed : dict_ok (consumed_circuit_probes rt);
  to_resolutions : dict_ok (resolutions rt);
}.

Record sim (live rep : AccountRuntime) : Prop := {
  s_id : account_id_of live = account_id_of rep;
  s_attempts : deq (attempts live) (attempts rep);
  s_circuits : deq (circuits live) (circuits rep);
  s_account_circuit : account_circuit live = account_circuit rep;
  s_consumed : deq (consumed_circuit_probes live) (consumed_circuit_probes rep);
  s_holds : external_uncertain_holds live = external_uncertain_holds rep;
  s_probe : recovery_probe_id live = recovery_probe_id rep;
  s_resolutions : ∀ k v, dget k (resolutions live) = Some v → dget k (resolutions rep) = Some v;
  s_open : ∀ k, is_Some (dget k (attempts live)) →
    dget k (resolutions rep) = dget k (resolutions live);
  s_starts : ∀ k v, dget k (starts live) = Some v → dget k (starts rep) = Some v;
}.

Definition reserved_id (rec : JournalRecord) : option string :=
  match JournalRecord.payload rec with
  | Payload.attempt_reserved d => Some (DurableReservation.attempt_id d)
  | _ => None
  end.

(** What replaying [rec] leaves. *)
Definition replays (rec : JournalRecord) (live' rep : AccountRuntime) : Prop := ∃ rep',
  apply_to_account rec rep = Ok rep' ∧ sim live' rep' ∧ tables_ok rep' ∧
  ∀ k, known rep' k → known rep k ∨ reserved_id rec = Some k.

(** Silent steps keep the simulation. *)
Lemma sim_core live live' rep : sim live rep → account live' = account live →
  attempts live' = attempts live → circuits live' = circuits live →
  account_circuit live' = account_circuit live →
  consumed_circuit_probes live' = consumed_circuit_probes live →
  external_uncertain_holds live' = external_uncertain_holds live →
  recovery_probe_id live' = recovery_probe_id live →
  (∀ k v, dget k (resolutions live') = Some v → dget k (resolutions live) = Some v) →
  (∀ k, is_Some (dget k (attempts live)) →
     dget k (resolutions live') = dget k (resolutions live)) →
  (∀ k v, dget k (starts live') = Some v → dget k (starts live) = Some v) →
  sim live' rep.
Proof.
  intros [] E1 E2 E3 E4 E5 E6 E7 Hr Ho Hs.
  assert (account_id_of live' = account_id_of live) as E0 by (unfold account_id_of; by rewrite E1).
  split; rewrite ?E0, ?E2, ?E3, ?E4, ?E5, ?E6, ?E7; try done; try by eauto.
  intros k Hk. by rewrite s_open0, Ho.
Qed.

Lemma sim_same_core live live' rep : sim live rep → same_core live live' →
  (∀ k v, dget k (resolutions live') = Some v → dget k (resolutions live) = Some v) →
  (∀ k, is_Some (dget k (attempts live)) →
     dget k (resolutions live') = dget k (resolutions live)) →
  (∀ k v, dget k (starts live') = Some v → dget k (starts live) = Some v) →
  sim live' rep.
Proof. intros Hs [] Hr Ho Hst. by apply (sim_core live). Qed.

Lemma sim_silent live live' rep : sim live rep → inv live → step live None live' → sim live' rep.
Proof.
  intros Hs Hi H. pose proof (i_starts _ Hi) as Hd. pose proof (i_resolutions _ Hi) as Hd'.
  inversion H as [c rt|n rt|n rt|n rt|a c rt rt' Hv Hu| | | | | | | |]; subst.
  - apply (sim_same_core live); [done|apply core_tick|by destruct live..].
  - apply (sim_same_core live); [done|apply core_prune| | |by destruct live].
    + intros k v. by apply prune_subset.
    + intros k Hk. by apply prune_keeps.
  - apply (sim_same_core live); [done|apply core_purge|by destruct live|by destruct live|].
    intros k v. by apply purge_subset.
  - apply (sim_same_core live); [done|apply core_roll|..];
      unfold roll_monthly; destruct (_ && _); by destruct live.
  - unfold update_account in Hu. inv_ok Hu. bprop in G. subst live'.
    assert (sim (roll_monthly (now_ms c live) (tick c live)) rep) as Hs1.
    { apply (sim_same_core live); [done|etrans; [|apply core_roll]; apply core_tick|..];
        unfold roll_monthly; destruct (_ && _); by destruct live. }
    assert (account (roll_monthly (now_ms c live) (tick c live)) = account live) as Ha.
    { unfold roll_monthly. destruct (_ && _); by destruct live. }
    revert Hs1 Ha. generalize (roll_monthly (now_ms c live) (tick c live)). intros rt1 [] Ha.
    assert (ProviderAccount.account_id a = account_id_of rep) as Hid.
    { rewrite <-s_id0. unfold account_id_of. by rewrite Ha. }
    match goal with |- sim (if ?b then _ else _) _ => destruct b end; destruct rt1; split; done.
Qed.

(** Journaled steps. *)
Lemma consume_deq ids k d d' : deq d d' → deq (consume_probes ids k d) (consume_probes ids k d').
Proof.
  revert d d'. induction ids as [|p ids IH]; intros d d' H; [done|]. apply IH. by rewrite H.
Qed.

Lemma forget_deq p d d' : dict_ok d → dict_ok d' → deq d d' →
  deq (forget_probe p d) (forget_probe p d').
Proof. destruct p; [apply ddel_deq|done]. Qed.

Lemma replays_reserve live rep rec d : sim live rep → tables_ok rep →
  JournalRecord.payload rec = Payload.attempt_reserved d →
  dget (DurableReservation.attempt_id d) (resolutions live) = None →
  dget (DurableReservation.attempt_id d) (resolutions rep) = None →
  replays rec (record_reservation d (durable_probes d) live) rep.
Proof.
  intros [] [] Hp Hl Hr. exists (replay_reserved d rep).
  unfold apply_to_account, reserved_id. rewrite Hp. split; [done|].
  unfold replay_reserved. fold (durable_probes d).
  destruct rep, live; unfold account_id_of in *; cbn in *.
  destruct (negb _); cbn; (split_and!; [split; unfold account_id_of; cbn|split; cbn|]);
    try done; try (by rewrite s_attempts0); try by apply dict_ok_dset.
  all: try (by apply consume_deq); try (by apply dict_ok_consume).
  all: try (intros k' v'; rewrite !dget_dset; by case_decide; auto).
  all: try (intros k'; rewrite dget_dset; case_decide; [subst; congruence|by apply s_open0]).
  all: intros k' [[a Ha]|Hk']; [|by left; right]; cbn in Ha; rewrite dget_dset in Ha;
    case_decide; [by right; subst|left; left; eauto].
Qed.

Lemma replays_dispatch live rep rec k a at_ms : sim live rep → tables_ok rep →
  JournalRecord.payload rec = Payload.attempt_dispatched k at_ms →
  dget k (attempts live) = Some a → Attempt.dispatch_receipt a = None →
  replays rec (mark_sent k a at_ms (AttemptJournal.receipt rec) live) rep.
Proof.
  intros [] [] Hp Ha Hd. exists (mark_sent k a at_ms (AttemptJournal.receipt rec) rep).
  unfold apply_to_account, replay_dispatched. rewrite Hp, <-s_attempts0, Ha, Hd. split; [done|].
  destruct rep, live; unfold account_id_of in *; cbn in *.
  split_and!; [split; unfold account_id_of; cbn|split; cbn|]; try done.
  - by rewrite s_attempts0.
  - intros k' Hk'. rewrite dget_dset in Hk'. apply s_open0. case_decide; [|done]. subst. eauto.
  - by apply dict_ok_dset.
  - intros k' [Hk'|Hk']; [|by left; right]. left. left. cbn in *. rewrite dget_dset in Hk'.
    case_decide; [|done]. subst. rewrite <-s_attempts0. eauto.
Qed.

Lemma at_most_exceeds o n : OpFacts.at_most o n → exceeds o n = false.
Proof. destruct o as [m|]; [|done]. intros H. specialize (H m eq_refl). cbn. lia. Qed.

(** The table of attempts after a resolution, looked up. *)
Lemma dget_closed k k' au (r : AttemptResolution) (d : dict string Attempt) : dict_ok d →
  dget k' ((if AttemptResolution.release_capacity r then ddel k
            else dset k au) d) =
  if decide (k = k') then
    (if AttemptResolution.release_capacity r then None else Some au)
  else dget k' d.
Proof.
  intros Hd. destruct (AttemptResolution.release_capacity r).
  - by rewrite dget_ddel.
  - by rewrite dget_dset.
Qed.

Lemma replays_resolve live rep rec k a start r digest at_ms : sim live rep → tables_ok rep →
  inv live →
  JournalRecord.payload rec =
    Payload.attempt_resolved k (outcome_value (AttemptResolution.outcome r))
      (AttemptResolution.release_capacity r) (AttemptResolution.actual_starts r)
      (AttemptResolution.actual_token_units r) (AttemptResolution.actual_quota_units r)
      digest at_ms →
  dget k (attempts live) = Some a → dget k (starts live) = Some start →
  dget k (resolutions live) = None →
  OpFacts.at_most (AttemptResolution.actual_token_units r) (Attempt.reserved_tokens a) →
  OpFacts.at_most (AttemptResolution.actual_quota_units r) (Attempt.quota_units a) →
  replays rec
    (close_attempt k a r
       (ResolvedAttempt.mk digest (AttemptJournal.receipt rec) at_ms (dispatch a))
       (OpFacts.resolve_charges start a k r live)) rep.
Proof.
  intros [] [] Hi Hp Ha Hs Hn Ht Hq. pose proof (i_attempts _ Hi) as Hd.
  assert (dget k (resolutions rep) = None) as Hn'.
  { rewrite s_open0; [done|]. by rewrite Ha. }
  pose proof (s_starts0 _ _ Hs) as Hs'.
  set (r0 := AttemptResolution.mk COMPLETED (AttemptResolution.release_capacity r)
    (AttemptResolution.actual_starts r) (AttemptResolution.actual_token_units r)
    (AttemptResolution.actual_quota_units r)).
  eexists. unfold apply_to_account, replay_resolved, reserved_id. rewrite Hp, Hn', <-s_attempts0, Ha, Hs'.
  fold r0. rewrite !raise_if_pass by by apply at_most_exceeds. split; [reflexivity|].
  assert (resolve_start start r0 = resolve_start start r) as Hst by done. rewrite Hst. subst r0.
  clear Hst.
  destruct rep as [ac2 l2 t2 st2 at2 re2 ci2 acc2 co2 mu2 th2 mr2 eh2 rp2],
    live as [ac1 l1 t1 st1 at1 re1 ci1 acc1 co1 mu1 th1 mr1 eh1 rp1].
  unfold account_id_of in *; cbn in *.
  split_and!; [split; unfold account_id_of; cbn|split; cbn|]; try done; try by apply dict_ok_dset.
  - intros k'. rewrite !dget_closed, s_attempts0 by done. done.
  - intros k' v. rewrite !dget_dset. by case_decide; auto.
  - intros k'. rewrite dget_closed by done. rewrite !dget_dset.
    case_decide; [done|]. apply s_open0.
  - intros k' v. rewrite !dget_dset. by case_decide; auto.
  - destruct (AttemptResolution.release_capacity r); [by apply dict_ok_ddel|by apply dict_ok_dset].
  - intros k' Hk'. left. unfold known in *. cbn in *. rewrite dget_closed, dget_dset in Hk' by done.
    destruct (decide (k = k')) as [->|]; [|done]. left. rewrite <-s_attempts0. by rewrite Ha.
Qed.

Lemma load_save v : CircuitValue.validate v = Ok v →
  CircuitSnapshot.load (CircuitSnapshot.save v) = Ok v.
Proof.
  intros Hv. unfold CircuitSnapshot.load, CircuitSnapshot.save. destruct v as [[] [[]|] ? ? ? ? ? ?];
    cbn in *; exact Hv.
Qed.

Lemma replays_account_circuit live rep rec v : sim live rep → tables_ok rep → inv live →
  JournalRecord.payload rec =
    circuit_payload (account_id_of live) CircuitScope.ACCOUNT None v →
  CircuitValue.validate v = Ok v →
  replays rec (set_account_circuit (account_circuit live) v live) rep.
Proof.
  intros [] [] Hi Hp Hv. pose proof (i_consumed _ Hi) as Hd.
  exists (set_account_circuit (account_circuit rep) v rep).
  unfold apply_to_account, reserved_id. rewrite Hp. unfold circuit_payload.
  fold (CircuitSnapshot.save v). rewrite (load_save v Hv). split; [done|].
  rewrite s_account_circuit0. destruct rep, live; unfold account_id_of in *; cbn in *.
  split_and!; [split; unfold account_id_of; cbn|split; cbn|]; try done.
  - by apply forget_deq.
  - by apply dict_ok_forget.
  - intros k' Hk'. by left.
Qed.

Lemma replays_circuit live rep rec g v : sim live rep → tables_ok rep → inv live →
  JournalRecord.payload rec =
    circuit_payload (account_id_of live) CircuitScope.DEPLOYMENT (Some g) v →
  is_ok (typed_id_new DeploymentGenerationId g) = true →
  CircuitValue.validate v = Ok v →
  replays rec (set_circuit g (circuit_value live g) v live) rep.
Proof.
  intros [] [] Hi Hp Hg Hv. pose proof (i_consumed _ Hi) as Hd.
  exists (set_circuit g (circuit_value rep g) v rep).
  unfold apply_to_account, reserved_id. rewrite Hp. unfold circuit_payload.
  fold (CircuitSnapshot.save v). rewrite (load_save v Hv).
  assert (circuit_value live g = circuit_value rep g) as Hcv.
  { unfold circuit_value, dget_or. by rewrite s_circuits0. }
  split.
  - cbn. unfold replay_circuit. cbn. destruct (typed_id_new DeploymentGenerationId g); [|done].
    cbn. unfold set_circuit, circuit_value, dget_or. by destruct (dget g (circuits rep)).
  - rewrite Hcv. generalize (circuit_value rep g). intros e.
    destruct rep, live; unfold account_id_of in *; cbn in *.
    split_and!; [split; unfold account_id_of; cbn|split; cbn|]; try done.
    + by rewrite s_circuits0.
    + by apply forget_deq.
    + by apply dict_ok_dset.
    + by apply dict_ok_forget.
    + intros k' Hk'. by left.
Qed.

(** Attempts removed on both sides, and new holds. *)
Lemma replays_drop live rep rec ks h p rep' : sim live rep → tables_ok rep → inv live →
  apply_to_account rec rep = Ok rep' →
  rep' = rep{{ attempts := ddels ks (attempts rep); external_uncertain_holds := h;
               recovery_probe_id := p }} →
  replays rec (live{{ attempts := ddels ks (attempts live); external_uncertain_holds := h;
                      recovery_probe_id := p }}) rep.
Proof.
  intros [] [] Hi Ha ->. pose proof (i_attempts _ Hi) as Hd. eexists. split; [exact Ha|].
  destruct rep, live; unfold account_id_of in *; cbn in *.
  split_and!; [split; unfold account_id_of; cbn|split; cbn|]; try done.
  - intros k'. by rewrite !dget_ddels, s_attempts0 by done.
  - intros k' Hk'. apply s_open0. rewrite dget_ddels in Hk' by done. by case_decide.
  - by apply dict_ok_ddels.
  - intros k' [Hk'|Hk']; left; [left|by right]. cbn in *. rewrite dget_ddels in Hk' by done.
    by case_decide.
Qed.

Lemma replays_active_count live rep rec n live' : sim live rep → tables_ok rep → inv live →
  JournalRecord.payload rec = Payload.authoritative_active_count (account_id_of live) n →
  apply_active_count n live = Ok live' → replays rec live' rep.
Proof.
  intros Hs Ht Hi Hp H. pose proof (i_attempts _ Hi) as Hd.
  assert (attempts live ≡ₚ attempts rep) as Hperm by (apply deq_perm; [done|apply Ht|apply Hs]).
  unfold apply_active_count in H. inv_ok_step H. injection H as H.
  set (ordered := (sorted_by _ _ _).*1) in H. set (keep := Z.min n (Z.of_nat (length ordered))).
  set (ks := drop (Z.to_nat keep) ordered). set (m := n - keep).
  assert (∀ rt, (drop_attempts ks rt){{ external_uncertain_holds := Z.max 0 m }} =
    rt{{ attempts := ddels ks (attempts rt); external_uncertain_holds := Z.max 0 m;
         recovery_probe_id := recovery_probe_id rt }}) as Hform by (by intros []).
  assert (live' = live{{ attempts := ddels ks (attempts live);
    external_uncertain_holds := Z.max 0 m; recovery_probe_id := recovery_probe_id rep }}) as ->.
  { rewrite <-(s_probe _ _ Hs), <-Hform. by rewrite <-H. }
  eapply (replays_drop live rep rec ks (Z.max 0 m) (recovery_probe_id rep)); try done.
  unfold apply_to_account. rewrite Hp. unfold apply_active_count.
  rewrite <-(has_active_deq live rep Hperm), G.
  rewrite <-(ordered_perm (attempts live) (attempts rep) Hd Hperm). rewrite <-Hform. done.
Qed.

(** [release_one] drops the attempts [ks] and leaves [h] external holds. *)
Lemma release_form c rt rt' : attempts rt ≡ₚ attempts rt' → dict_ok (attempts rt) →
  (∀ k a, dget k (attempts rt) = Some a → Attempt.attempt_id a = k) →
  external_uncertain_holds rt = external_uncertain_holds rt' → ∃ ks h,
  apply_probe_finished c rt = rt{{ attempts := ddels ks (attempts rt);
    external_uncertain_holds := h; recovery_probe_id := None }} ∧
  apply_probe_finished c rt' = rt'{{ attempts := ddels ks (attempts rt');
    external_uncertain_holds := h; recovery_probe_id := None }}.
Proof.
  intros Hp Hd Hids Hh. unfold apply_probe_finished, release_one.
  rewrite <-(oldest_uncertain_perm _ _ Hd Hids Hp), <-Hh.
  destruct (bool_decide _); [destruct (negb _); [|destruct (min_by _ _ _) as [a|]]|].
  - exists [], (external_uncertain_holds rt - 1). destruct rt, rt'. cbn in *. by subst.
  - exists [Attempt.attempt_id a], (external_uncertain_holds rt). destruct rt, rt'. cbn in *. by subst.
  - exists [], (external_uncertain_holds rt). destruct rt, rt'. cbn in *. by subst.
  - exists [], (external_uncertain_holds rt). destruct rt, rt'. cbn in *. by subst.
Qed.

Lemma replays_probe_finished live rep rec p c : sim live rep → tables_ok rep → inv live →
  JournalRecord.payload rec =
    Payload.recovery_probe_finished (account_id_of live) p (ProbeClassification.value c) →
  replays rec (apply_probe_finished c live) rep.
Proof.
  intros Hs Ht Hi Hp. pose proof (i_attempts _ Hi) as Hd.
  assert (attempts live ≡ₚ attempts rep) as Hperm by (apply deq_perm; [done|apply Ht|apply Hs]).
  destruct (release_form c live rep Hperm Hd (i_ids _ Hi) (s_holds _ _ Hs)) as (ks & h & E1 & E2).
  rewrite E1. eapply (replays_drop live rep rec ks h None); [done..| |exact E2].
  unfold apply_to_account. rewrite Hp. by destruct c.
Qed.

Lemma replays_probe_started live rep rec p : sim live rep → tables_ok rep →
  JournalRecord.payload rec = Payload.recovery_probe_started (account_id_of live) p →
  replays rec (live{{ recovery_probe_id := Some p }}) rep.
Proof.
  intros [] [] Hp. exists (rep{{ recovery_probe_id := Some p }}).
  unfold apply_to_account. rewrite Hp. split; [done|].
  destruct rep, live; unfold account_id_of in *; cbn in *.
  split_and!; [split; unfold account_id_of; cbn|split; cbn|]; try done. intros k' Hk'. by left.
Qed.

(** The simulation diagram. *)
Lemma sim_step live l live' rep : sim live rep → tables_ok rep → inv live → step live l live' →
  (∀ rec k, l = Some rec → reserved_id rec = Some k → dget k (resolutions rep) = None) →
  match l with None => sim live' rep | Some rec => replays rec live' rep end.
Proof.
  intros Hs Ht Hi H Hf. destruct l as [rec|]; [|by eapply sim_silent].
  specialize (Hf rec). inversion H; subst.
  - apply replays_reserve; try done. apply Hf; [done|]. unfold reserved_id. by rewrite H1.
  - by apply replays_dispatch.
  - by apply replays_resolve.
  - by apply replays_circuit.
  - by apply replays_account_circuit.
  - by eapply replays_active_count.
  - by apply replays_probe_started.
  - by eapply replays_probe_finished.
Qed.

(** Replaying the records of a run, the reserved ids being new. *)
Lemma sim_steps live recs live' rep : steps live recs live' → sim live rep → tables_ok rep →
  inv live → NoDup (omap reserved_id recs) → (∀ k, k ∈ omap reserved_id recs → ¬ known rep k) →
  ∃ rep', replay recs rep = Ok rep' ∧ sim live' rep' ∧ tables_ok rep'.
Proof.
  intros H. revert rep. induction H as [live|live l live1 ls live2 H _ IH]; intros rep Hs Ht Hi Hnd Hf.
  { by exists rep. }
  assert (inv live1) as Hi1 by by eapply step_inv.
  pose proof (sim_step live l live1 rep Hs Ht Hi H) as Hstep.
  destruct l as [rec|]; cbn [option_list app] in *.
  2: { apply IH; try done. by apply Hstep. }
  cbn in Hnd, Hf. destruct Hstep as (rep1 & Happ & Hs1 & Ht1 & Hk1).
  { intros rec' k Heq Hid. injection Heq as <-. rewrite Hid in Hf.
    destruct (dget k (resolutions rep)) eqn:E; [|done]. exfalso. apply (Hf k); [by left|].
    right. by rewrite E. }
  simpl option_list. simpl app. change (replay (rec :: ls) rep) with
    (rt ← apply_to_account rec rep; replay ls rt).
  rewrite Happ. cbn [mbind result_bind]. apply IH; try done.
  - destruct (reserved_id rec); [by apply NoDup_cons in Hnd as [_ Hnd]|done].
  - intros k Hk Hkn. destruct (Hk1 k Hkn) as [Hkn'|Hid].
    + apply (Hf k); [|done]. destruct (reserved_id rec); [by right|done].
    + rewrite Hid in Hnd. by apply NoDup_cons in Hnd as [Hnd _].
Qed.

(** ** Snapshots *)
Lemma sorted_items_perm {V} (d : dict string V) : sorted_items d ≡ₚ d.
Proof. apply sorted_by_perm. Qed.

Lemma dict_ok_sorted_items {V} (d : dict string V) : dict_ok d → dict_ok (sorted_items d).
Proof. unfold dict_ok, dkeys. by rewrite sorted_items_perm. Qed.

Lemma sorted_items_deq {V} (d : dict string V) : dict_ok d → deq (sorted_items d) d.
Proof. intros Hd. apply perm_deq; [by apply dict_ok_sorted_items|apply sorted_items_perm]. Qed.

Lemma dmap_id {V W} (f : string → V → W) (g : string → W → V) d :
  (∀ k v, (k, v) ∈ d → g k (f k v) = v) → dmap g (dmap f d) = d.
Proof.
  unfold dmap. induction d as [|[k v] d IH]; intros H; [done|]. cbn.
  rewrite (H k v) by by left. f_equal. apply IH. intros k' v' Hin. apply H. by right.
Qed.

Lemma dict_load_id {V W} (f : string → V → W) (g : string → W → result V) d :
  (∀ k v, (k, v) ∈ d → g k (f k v) = Ok v) → dict_load g (dmap f d) = Ok d.
Proof.
  unfold dmap. induction d as [|[k v] d IH]; intros H; [done|]. cbn.
  rewrite (H k v) by by left. cbn. rewrite IH; [done|]. intros k' v' Hin. apply H. by right.
Qed.

Lemma elem_of_sorted {V} k (v : V) d : dict_ok d → (k, v) ∈ sorted_items d → dget k d = Some v.
Proof. intros Hd Hin. rewrite sorted_items_perm in Hin. by apply elem_of_dget. Qed.

Lemma load_save_attempt a : AttemptSnapshot.load (Attempt.attempt_id a) (AttemptSnapshot.save a) = Ok a.
Proof. destruct a as [? ? ? ? ? ? ? ? ? ? ? ? ? ? ? ? ? ? [[]|] ? ? ?]; done. Qed.

(** The runtime a snapshot of [rt] restores, on a fresh runtime [rt0]. *)
Definition restored (rt rt0 : AccountRuntime) : AccountRuntime :=
  rt0{{ starts := sorted_items (starts rt);
        attempts := sorted_items (attempts rt);
        time_high_water_ms := time_high_water_ms rt;
        resolutions := sorted_items (resolutions rt);
        consumed_circuit_probes := sorted_items (consumed_circuit_probes rt);
        monthly_used := monthly_used rt;
        monthly_reset_at_ms := monthly_reset_at_ms rt;
        external_uncertain_holds := external_uncertain_holds rt;
        recovery_probe_id := recovery_probe_id rt;
        account_circuit := account_circuit rt;
        circuits := sorted_items (circuits rt) }}.

Lemma load_saved rt rt0 : inv rt →
  Z.of_nat (length (resolutions rt)) ≤ resolution_ledger_limit rt0 →
  AccountSnapshot.load (AccountSnapshot.save rt) rt0 = Ok (restored rt rt0).
Proof.
  intros [] Hlen. unfold AccountSnapshot.load. cbn.
  rewrite raise_if_pass by (rewrite sorted_items_perm; apply Z.ltb_ge; lia).
  rewrite (dict_load_id (λ _, AttemptSnapshot.save)).
  2: { intros k a Hin%elem_of_sorted; [|done]. rewrite <-(i_ids0 k a Hin). apply load_save_attempt. }
  cbn. rewrite (load_save _ i_circuit0). cbn.
  rewrite (dict_load_id (λ _, CircuitSnapshot.save)).
  2: { intros k v Hin%elem_of_sorted; [|done]. apply load_save. by apply (i_deployments0 k). }
  assert (dmap StartSnapshot.load (dmap (λ _, StartSnapshot.save) (sorted_items (starts rt))) =
    sorted_items (starts rt)) as Hst.
  { apply dmap_id. intros k s Hin%elem_of_sorted; [|done]. rewrite <-(i_start_ids0 k s Hin).
    by destruct s. }
  unfold dmap in Hst |- *. cbn in Hst |- *. by rewrite Hst.
Qed.

Lemma sim_restored rt rt0 : inv rt → account_id_of rt0 = account_id_of rt →
  sim rt (restored rt rt0) ∧ tables_ok (restored rt rt0).
Proof.
  intros [] Hid.
  assert (∀ {V} (d : dict string V), dict_ok d → deq d (sorted_items d)) as Hq.
  { intros V d Hd. symmetry. by apply sorted_items_deq. }
  destruct rt0; unfold account_id_of in *; cbn in *.
  split; [split|split]; unfold account_id_of; cbn; try done; try (by apply Hq);
    try (apply dict_ok_sorted_items; assumption).
  - intros k v. by rewrite <-(Hq _ _ i_resolutions0).
  - intros k _. by rewrite <-(Hq _ _ i_resolutions0).
  - intros k v. by rewrite <-(Hq _ _ i_starts0).
Qed.
End ReplayFacts.
