(* ===== verification/ReplayProps.v ===== *)
(** * Properties of snapshots and replay *)
From stdpp Require Import gmap.
From S2P Require Export ReplayFacts.
From Stdlib Require Import Ascii.

Module ReplayTheorems.
Import AccountRuntime AccountOps AccountMachine AccountReplay AccountCalls LedgerFacts ReplayFacts.

Lemma sorted_items_idem {V} (d : dict string V) : dict_ok d →
  sorted_items (sorted_items d) = sorted_items d.
Proof.
  intros Hd. apply sorted_by_unique; [apply _| |apply sorted_items_perm].
  apply dict_ok_sorted_items in Hd. exact Hd.
Qed.

(** The simulation relates a live account to an equal one. *)
Lemma load_reachable rt rt0 : inv rt → ledger_ok rt →
  account_id_of rt0 = account_id_of rt →
  Z.max 0 (resolution_ledger_limit rt) ≤ resolution_ledger_limit rt0 →
  AccountSnapshot.load (AccountSnapshot.save rt) rt0 = Ok (restored rt rt0) ∧
  sim rt (restored rt rt0) ∧ tables_ok (restored rt rt0).
Proof.
  intros Hi Hl Hid Hlim. split; [|by apply sim_restored]. apply load_saved; [done|].
  unfold ledger_ok, unresolved in Hl. lia.
Qed.

Lemma known_restored rt rt0 k : inv rt → known (restored rt rt0) k → known rt k.
Proof.
  intros []. unfold known, restored. destruct rt0; cbn.
  by rewrite (sorted_items_deq (attempts rt) i_attempts0 k),
    (sorted_items_deq (resolutions rt) i_resolutions0 k).
Qed.

Section Theorems.
Context {Snapshot : Type} {safe : SafeSnapshot Snapshot}.
Context (rd : Z → Payload → string → string).
Context (pd : RequestProfile → string).
Context (sd : AttemptResolution → string).
Context (snap : AccountRuntime → Snapshot).
Implicit Types w : World Snapshot.

Abbreviation reachable := (@reachable Snapshot safe rd pd sd snap).
Abbreviation run_all := (@run_all Snapshot safe rd pd sd snap).


(** Checkpoints are canonical and lossless.  The snapshot of a reachable
    account loads in any fresh runtime of the same account whose ledger limit
    is not lower; what it yields has the same tables up to order and the same
    counters, and its own snapshot is the one it was loaded from. *)
Theorem snapshot_round_trip w rt0 : reachable w →
  account_id_of rt0 = account_id_of (World.runtime w) →
  Z.max 0 (resolution_ledger_limit (World.runtime w)) ≤ resolution_ledger_limit rt0 →
  let rt := World.runtime w in
  ∃ rt', AccountSnapshot.load (AccountSnapshot.save rt) rt0 = Ok rt' ∧
    AccountSnapshot.save rt' = AccountSnapshot.save rt ∧
    (starts rt' ≡ₚ starts rt ∧ attempts rt' ≡ₚ attempts rt ∧ resolutions rt' ≡ₚ resolutions rt ∧
     circuits rt' ≡ₚ circuits rt ∧ consumed_circuit_probes rt' ≡ₚ consumed_circuit_probes rt) ∧
    (account_circuit rt' = account_circuit rt ∧ monthly_used rt' = monthly_used rt ∧
     monthly_reset_at_ms rt' = monthly_reset_at_ms rt ∧
     time_high_water_ms rt' = time_high_water_ms rt ∧
     external_uncertain_holds rt' = external_uncertain_holds rt ∧
     recovery_probe_id rt' = recovery_probe_id rt).
Proof.
  intros Hw Hid Hlim rt. assert (inv rt) as Hi by by eapply reachable_inv.
  destruct (load_reachable rt rt0 Hi) as (-> & _ & _); [|done..|].
  { by eapply reachable_ledger. }
  exists (restored rt rt0). split; [done|]. pose proof Hi as []. split.
  - unfold AccountSnapshot.save, restored. destruct rt0; cbn -[sorted_items].
    by rewrite !sorted_items_idem.
  - unfold restored. destruct rt0; cbn. split_and!; try done; apply sorted_items_perm.
Qed.
End Theorems.
End ReplayTheorems.

(** ** A run, its crash and its recovery *)
Module ReplaySamples.
Import AccountSamples AccountReplay.

Definition account_of (w : World unit) : AccountRuntime := World.runtime w.
Definition served : list AccountCalls.call :=
  [AccountCalls.CReserve io 2000 first_request;
   AccountCalls.CFinish io 2500 (Samples.attempt "1") (resolution true)].
Definition run_calls (cs : list AccountCalls.call) (w : World unit) : World unit :=
  AccountCalls.run_all record_digest profile_digest resolution_digest snapshot cs w.

(** The records the calls [cs] journal from [w]. *)
Definition journaled (cs : list AccountCalls.call) (w : World unit) : list JournalRecord :=
  drop (length (AttemptJournal.records (World.journal w)))
    (AttemptJournal.records (World.journal (run_calls cs w))).

Definition fresh (limit : Z) : AccountRuntime := AccountRuntime.init account limit 86400000 1000.

(** What a crash after [cs] recovers to, from a checkpoint taken at [w]. *)
Definition recovered (limit : Z) (cs : list AccountCalls.call) (w : World unit) :
    result AccountRuntime :=
  rt ← AccountSnapshot.load (AccountSnapshot.save (World.runtime w)) (fresh limit);
  replay (journaled cs w) rt.

(** Requests of a later month, and the account whose month was moved. *)
Definition late (c : string) (quota : Z) : ReservationRequest :=
  ReservationRequest.mk (Samples.request c) (Samples.attempt c) (Samples.account "1")
    (Samples.leg "1") Samples.generation identity 9000000 profile 100 closed 50 0 quota closed.
Definition next_month : ProviderAccount :=
  account{{ ProviderAccount.monthly_reset_at_ms := Some 8000000 }}.
Definition refund : AttemptResolution :=
  AttemptResolution.mk COMPLETED true (Some 1) (Some 120) (Some 0).

Definition month_change : list AccountCalls.call :=
  [AccountCalls.CReserve io 2000 (late "1" 10);
   AccountCalls.CUpdateAccount next_month 5000001;
   AccountCalls.CReserve io 5000002 (late "2" 5);
   AccountCalls.CFinish io 5000003 (Samples.attempt "1") refund].
Definition moved_reset : list AccountCalls.call :=
  [AccountCalls.CReserve io 2000 (late "1" 10);
   AccountCalls.CUpdateAccount next_month 2001;
   AccountCalls.CReserve io 2002 (late "2" 5)].

(** Two resolutions, the first of which expired before the second. *)
Definition day : Z := 86400000.
Definition long_lived (c : string) : ReservationRequest :=
  ReservationRequest.mk (Samples.request c) (Samples.attempt c) (Samples.account "1")
    (Samples.leg "1") Samples.generation identity (3 * day) profile 100 closed 50 0 3 closed.
Definition two_days : list AccountCalls.call :=
  [AccountCalls.CReserve io 2000 (long_lived "1");
   AccountCalls.CFinish io 2500 (Samples.attempt "1") (resolution true);
   AccountCalls.CReserve io (day + 3000) (long_lived "2");
   AccountCalls.CFinish io (day + 4000) (Samples.attempt "2") (resolution true)].
Definition small : World unit :=
  World.mk (AttemptJournal.create 10000 60000 10256 1000 [])
    ((fresh 1){{ AccountRuntime.account ::= λ a,
                   a{{ ProviderAccount.monthly_reset_at_ms := Some (3 * day) }};
                 AccountRuntime.monthly_reset_at_ms := 3 * day }}).

Definition monthly (r : result AccountRuntime) : option Z :=
  match r with Ok rt => Some (AccountRuntime.monthly_used rt) | Err _ => None end.
End ReplaySamples.


Lemma snapshot_round_trip_witness :
  let rt := World.runtime AccountSamples.after_first in
  ∃ rt', AccountSnapshot.load (AccountSnapshot.save rt) (ReplaySamples.fresh 1000) = Ok rt' ∧
    AccountSnapshot.save rt' = AccountSnapshot.save rt ∧
    (AccountRuntime.starts rt' ≡ₚ AccountRuntime.starts rt ∧
     AccountRuntime.attempts rt' ≡ₚ AccountRuntime.attempts rt ∧
     AccountRuntime.resolutions rt' ≡ₚ AccountRuntime.resolutions rt ∧
     AccountRuntime.circuits rt' ≡ₚ AccountRuntime.circuits rt ∧
     AccountRuntime.consumed_circuit_probes rt' ≡ₚ AccountRuntime.consumed_circuit_probes rt) ∧
    (AccountRuntime.account_circuit rt' = AccountRuntime.account_circuit rt ∧
     AccountRuntime.monthly_used rt' = AccountRuntime.monthly_used rt ∧
     AccountRuntime.monthly_reset_at_ms rt' = AccountRuntime.monthly_reset_at_ms rt ∧
     AccountRuntime.time_high_water_ms rt' = AccountRuntime.time_high_water_ms rt ∧
     AccountRuntime.external_uncertain_holds rt' = AccountRuntime.external_uncertain_holds rt ∧
     AccountRuntime.recovery_probe_id rt' = AccountRuntime.recovery_probe_id rt).
Proof.
  apply (ReplayTheorems.snapshot_round_trip AccountSamples.record_digest
    AccountSamples.profile_digest AccountSamples.resolution_digest AccountSamples.snapshot).
  - apply AccountSamples.after_first_reachable.
  - vm_compute. reflexivity.
  - vm_compute. discriminate.
Defined.

(** ** Where replay and the live account part

    Resolving a request of an earlier month leaves the charge of the current
    one alone, while the replay of its record refunds it: after the crash, an
    account charged 5 units is charged none. *)
Example replay_refunds_another_month :
  AccountRuntime.monthly_used (World.runtime
    (ReplaySamples.run_calls ReplaySamples.month_change AccountSamples.start)) = 5 ∧
  ReplaySamples.monthly
    (ReplaySamples.recovered 1000 ReplaySamples.month_change AccountSamples.start) = Some 0.
Proof. by vm_compute. Qed.

(** Moving the monthly reset of an account keeps its charge, while the replay
    of the next reservation starts it from zero. *)
Example replay_forgets_moved_month :
  AccountRuntime.monthly_used (World.runtime
    (ReplaySamples.run_calls ReplaySamples.moved_reset AccountSamples.start)) = 15 ∧
  ReplaySamples.monthly
    (ReplaySamples.recovered 1000 ReplaySamples.moved_reset AccountSamples.start) = Some 5.
Proof. by vm_compute. Qed.

(** Replay does not prune expired resolutions, so it can leave more than the
    ledger limit, and then a snapshot of what it leaves does not load. *)
Example replay_overfills_ledger :
  match ReplaySamples.recovered 1 ReplaySamples.two_days ReplaySamples.small with
  | Ok rt => length (AccountRuntime.resolutions rt) = 2%nat ∧
      AccountSnapshot.load (AccountSnapshot.save rt) (ReplaySamples.fresh 1) =
        Err (ValueError "recovered resolution ledger exceeds configured bound")
  | Err _ => False
  end.
Proof. by vm_compute. Qed.
