(* ===== verification/RuntimeState.v ===== *)
(** * The owner of the provider accounts

    [RuntimeState] of [gateway/runtime_state.py]: the accounts' runtimes over
    one journal, the books of provider bindings and credential epochs, the
    publication of a new account list, checkpoints of the whole, and recovery.
    SHA-256 over the canonical JSON of a binding, and over a credential
    fingerprint, are the parameters [binding_sha] and [text_sha]; the clock
    reading of a call is an argument.  A snapshot that does not load leaves the
    runtime as it was; the source leaves it half loaded, on a journal it then
    stops. *)
From S2P Require Export Replay.
From Stdlib Require Import Ascii.

(** The four dictionaries that [apply_publication] copies and commits. *)
Module Books.
Record t := mk {
  binding_history : dict string string;
  account_binding : dict string string;
  credential_epoch_highwater : dict string Z;
  credential_attestation_digest : dict string string;
}.
#[global] Instance eq_dec : EqDecision t.
Proof. solve_decision. Defined.
Definition empty : t := mk [] [] [] [].
End Books.
Abbreviation Books := Books.t.

(** The checkpoint [_snapshot_locked] builds. *)
Module OwnerSnapshot.
Record t := mk { accounts : dict string AccountSnapshot; books : Books }.
End OwnerSnapshot.
Abbreviation OwnerSnapshot := OwnerSnapshot.t.

(** One account of a publication, as staged before it is journaled. *)
Module Staged.
Record t := mk {
  account : ProviderAccount;
  binding_digest : string;
  attestation_digest : string;
  epoch : Z;
  changed : bool;
}.
End Staged.
Abbreviation Staged := Staged.t.

Module RuntimeState.
Record t := mk {
  resolution_ledger_limit : Z;
  resolution_retention_ms : Z;
  runtimes : dict string AccountRuntime;
  dormant_account_states : dict string AccountSnapshot;
  books : Books;
}.
End RuntimeState.
Abbreviation RuntimeState := RuntimeState.t.

(** The journal and its owner. *)
Module Owner.
Record t := mk { journal : AttemptJournal OwnerSnapshot; state : RuntimeState }.
End Owner.
Abbreviation Owner := Owner.t.

(** ** What [operational_view] shows *)
Module AttemptOperationalValue.
Record t := mk {
  account_id : string;
  request_id : string;
  attempt_id : string;
  leg_id : string;
  deployment_generation_id : string;
  installation_id : string;
  bundle_generation : Z;
  bundle_hash : string;
  dispatcher_fence : Z;
  boot_id : string;
  deadline_at_ms : Z;
  profile_digest : string;
  circuit_epoch : Z;
  account_circuit_epoch : Z;
  circuit_probe_id : option string;
  account_circuit_probe_id : option string;
  dispatched_at_ms : option Z;
  state : string;
}.

(** The typed ids of the view are parsed again. *)
Definition of_attempt (account : string) (a : Attempt) : result t :=
  typed_id_new RequestId (Attempt.request_id a);;
  typed_id_new AttemptId (Attempt.attempt_id a);;
  typed_id_new RouteLegId (Attempt.leg_id a);;
  typed_id_new DeploymentGenerationId (Attempt.deployment_generation_id a);;
  typed_id_new InstallationId (Attempt.installation_id a);;
  typed_id_new BundleHash (Attempt.bundle_hash a);;
  typed_id_new GatewayBootId (Attempt.boot_id a);;
  mret {| account_id := account;
          request_id := Attempt.request_id a;
          attempt_id := Attempt.attempt_id a;
          leg_id := Attempt.leg_id a;
          deployment_generation_id := Attempt.deployment_generation_id a;
          installation_id := Attempt.installation_id a;
          bundle_generation := Attempt.bundle_generation a;
          bundle_hash := Attempt.bundle_hash a;
          dispatcher_fence := Attempt.fence_token a;
          boot_id := Attempt.boot_id a;
          deadline_at_ms := Attempt.deadline_at_ms a;
          profile_digest := Attempt.profile_digest a;
          circuit_epoch := Attempt.circuit_epoch a;
          account_circuit_epoch := Attempt.account_circuit_epoch a;
          circuit_probe_id := Attempt.circuit_probe_id a;
          account_circuit_probe_id := Attempt.account_circuit_probe_id a;
          dispatched_at_ms := Attempt.dispatched_at_ms a;
          state := Attempt.state a |}.
End AttemptOperationalValue.

Module DispatchOperationalValue.
Record t := mk {
  account_id : string;
  request_id : string;
  attempt_id : string;
  leg_id : string;
  deployment_generation_id : string;
  circuit_epoch : Z;
  account_circuit_epoch : Z;
  circuit_probe_id : option string;
  account_circuit_probe_id : option string;
  dispatched_at_ms : Z;
}.

Definition of_dispatch (account : string) (d : Dispatch) : result t :=
  typed_id_new AttemptId (Dispatch.attempt_id d);;
  typed_id_new RequestId (Dispatch.request_id d);;
  typed_id_new RouteLegId (Dispatch.leg_id d);;
  typed_id_new DeploymentGenerationId (Dispatch.deployment_generation_id d);;
  mret {| account_id := account;
          request_id := Dispatch.request_id d;
          attempt_id := Dispatch.attempt_id d;
          leg_id := Dispatch.leg_id d;
          deployment_generation_id := Dispatch.deployment_generation_id d;
          circuit_epoch := Dispatch.circuit_epoch d;
          account_circuit_epoch := Dispatch.account_circuit_epoch d;
          circuit_probe_id := Dispatch.circuit_probe_id d;
          account_circuit_probe_id := Dispatch.account_circuit_probe_id d;
          dispatched_at_ms := Dispatch.dispatched_at_ms d |}.
End DispatchOperationalValue.

Module CircuitOperationalValue.
Record t := mk {
  account_id : string;
  deployment_generation_id : string;
  value : CircuitValue;
}.
End CircuitOperationalValue.

(** The journal's health but its sequence and status is left out. *)
Module OperationalRuntimeView.
Record t := mk {
  durable_lsn : Z;
  recovery_state : JournalStatus;
  time_high_water_ms : Z;
  accounts : list AccountCapacity;
  attempts : list AttemptOperationalValue.t;
  dispatches : list DispatchOperationalValue.t;
  circuits : list CircuitOperationalValue.t;
}.
End OperationalRuntimeView.

Module OwnerOps.
Import RuntimeState.

(** [_snapshot_locked] *)
Definition snapshot_locked (s : RuntimeState) : OwnerSnapshot :=
  let account_states :=
    foldl (λ d p, dset p.1 (AccountSnapshot.save p.2) d) (dormant_account_states s) (runtimes s) in
  let b := books s in
  OwnerSnapshot.mk (sorted_items account_states)
    (Books.mk (sorted_items (Books.binding_history b)) (sorted_items (Books.account_binding b))
       (sorted_items (Books.credential_epoch_highwater b))
       (sorted_items (Books.credential_attestation_digest b))).

Section Ops.
Context {safe : SafeSnapshot OwnerSnapshot}.
Context (record_digest : Z → Payload → string → string).
Context (profile_digest : RequestProfile → string).
Context (binding_sha : string → string → string → string).
Context (text_sha : string → string).

(** [_binding_digest], [_attestation_digest] *)
Definition binding_digest (a : ProviderAccount) : string :=
  if negb (ProviderAccount.bound a) then ""
  else binding_sha (ProviderAccount.connection a) (ProviderAccount.provider_token a)
         (ProviderAccount.binding_ref a).
Definition attestation_digest (a : ProviderAccount) : string :=
  text_sha (default "" (ProviderAccount.credential_fingerprint a)).
Definition epoch_of (a : ProviderAccount) : Z := default 0 (ProviderAccount.credential_epoch a).

(** ** Publication *)
Definition previous_highwater (k : string) (b : Books) : Z :=
  default 0 (dget k (Books.credential_epoch_highwater b)).

(** The checks one account passes against the books so far. *)
Definition check_binding (k digest : string) (b : Books) : result unit :=
  raise_if (match dget k (Books.account_binding b) with
            | Some previous => negb (bool_decide (previous = digest)) | None => false end)
    (AccountBindingConflict "Account ID cannot change its provider binding");;
  raise_if (negb (bool_decide (digest = ""%string)) &&
            match dget digest (Books.binding_history b) with
            | Some owner => negb (bool_decide (owner = k)) | None => false end)
    (AccountBindingConflict
       "provider binding is globally unique across live and tombstoned accounts").

Definition check_epoch (k attestation : string) (epoch : Z) (b : Books) : bool :=
  (epoch <? previous_highwater k b) ||
  (epoch =? previous_highwater k b) &&
  match dget k (Books.credential_attestation_digest b) with
  | Some previous => negb (bool_decide (attestation = previous)) | None => false end.

(** The books with one more account. *)
Definition enter (k digest attestation : string) (epoch : Z) (b : Books) : Books :=
  let b := if bool_decide (digest = ""%string) then b
           else b{{ Books.binding_history ::= dset digest k;
                    Books.account_binding ::= dset k digest }} in
  b{{ Books.credential_epoch_highwater ::= dset k epoch;
      Books.credential_attestation_digest ::= dset k attestation }}.

Definition stage_account (s : RuntimeState) (a : ProviderAccount) (b : Books) :
    result (Staged * Books) :=
  let k := ProviderAccount.account_id a in
  let digest := binding_digest a in
  let attestation := attestation_digest a in
  let epoch := epoch_of a in
  check_binding k digest b;;
  raise_if (check_epoch k attestation epoch b)
    (CredentialAttestationRollback
       "credential attestation cannot rewind or change within one epoch");;
  let changed :=
    bool_decide (dget k (Books.account_binding b) = None) ||
    (previous_highwater k b <? epoch) ||
    match dget k (runtimes s) with
    | None => true
    | Some rt => negb (bool_decide (ProviderAccount.state (AccountRuntime.account rt) =
                                    ProviderAccount.state a))
    end in
  mret (Staged.mk a digest attestation epoch changed, enter k digest attestation epoch b).

Fixpoint stage (s : RuntimeState) (l : list ProviderAccount) (b : Books) :
    result (list Staged * Books) :=
  match l with
  | [] => mret ([], b)
  | a :: l =>
      '(st, b) ← stage_account s a b;
      '(sts, b) ← stage s l b;
      mret (st :: sts, b)
  end.

Definition is_active (rt : AccountRuntime) : bool :=
  bool_decide (ProviderAccount.state (AccountRuntime.account rt) = Some AccountState.ACTIVE).

(** The active accounts the publication leaves out, disabled. *)
Definition omit (selected : list string) (d : dict string AccountRuntime) :
    result (list ProviderAccount) :=
  validate_all (λ p, ProviderAccount.validate
             ((AccountRuntime.account p.2){{ ProviderAccount.state := Some AccountState.DISABLED }}))
    (List.filter (λ p, negb (bool_decide (p.1 ∈ selected)) && is_active p.2) d).

Definition validated (l : list ProviderAccount) : result (list ProviderAccount) :=
  l ← validate_all ProviderAccount.validate l;
  raise_if (negb (bool_decide (NoDup (ProviderAccount.account_id <$> l))))
    (AccountBindingConflict "publication contains duplicate Account IDs");;
  mret l.

(** [validate_publication] *)
Definition validate_publication (l : list ProviderAccount) (s : RuntimeState) : result unit :=
  l ← validated l;
  stage s l (books s);;
  omit (ProviderAccount.account_id <$> l) (runtimes s);;
  mret tt.

(** ** The shared journal and one account of it *)
Definition journal_op {A} (m : M (AttemptJournal OwnerSnapshot) A) : M Owner A := λ w,
  let '(j, r) := m (Owner.journal w) in (Owner.mk j (Owner.state w), r).
Definition get_state : M Owner RuntimeState := λ w, (w, Ok (Owner.state w)).
Definition change (f : RuntimeState → RuntimeState) : M Owner unit := λ w,
  (Owner.mk (Owner.journal w) (f (Owner.state w)), Ok tt).

(** The snapshot the runtime of [k] writes: the whole owner's, with its own
    state as it is now. *)
Definition snapshot_with (k : string) (s : RuntimeState) (rt : AccountRuntime) : OwnerSnapshot :=
  snapshot_locked (s{{ runtimes ::= dset k rt }}).

(** A call of the runtime of [k]. *)
Definition on_account {A} (k : string)
    (m : (AccountRuntime → OwnerSnapshot) → M (World OwnerSnapshot) A) : M Owner A := λ w,
  match dget k (runtimes (Owner.state w)) with
  | None => (w, Err (KeyError "unknown provider account"))
  | Some rt =>
      let '(w', r) := m (snapshot_with k (Owner.state w)) (World.mk (Owner.journal w) rt) in
      (Owner.mk (World.journal w') ((Owner.state w){{ runtimes ::= dset k (World.runtime w') }}), r)
  end.

(** [try_reserve] *)
Definition try_reserve (io : JournalIO) (clock_ms : Z) (r : ReservationRequest) :
    M Owner Reservation := λ w,
  if bool_decide (AttemptJournal.status io (Owner.journal w) = JournalStatus.RECOVERY_REQUIRED)
  then (w, Ok (Denied (ReservationDenied.mk ReservationDenialReason.RECOVERY_REQUIRED None)))
  else
    match dget (ReservationRequest.account_id r) (runtimes (Owner.state w)) with
    | None => (w, Ok (Denied (ReservationDenied.mk ReservationDenialReason.ACCOUNT_NOT_FOUND None)))
    | Some _ =>
        on_account (ReservationRequest.account_id r)
          (λ snap, AccountOps.try_reserve record_digest profile_digest snap io clock_ms r) w
    end.

(** [account_capacity] *)
Definition account_capacity (clock_ms : Z) (k : string) : M Owner AccountCapacity :=
  on_account k (λ _, AccountOps.capacity clock_ms).

(** ** [operational_view] *)
Fixpoint capacities (clock_ms : Z) (ks : list string) : M Owner (list AccountCapacity) :=
  match ks with
  | [] => mret []
  | k :: ks =>
      c ← account_capacity clock_ms k;
      cs ← capacities clock_ms ks;
      mret (c :: cs)
  end.

Definition attempt_views (d : dict string AccountRuntime) :
    result (list AttemptOperationalValue.t) :=
  ls ← validate_all (λ p, validate_all (AttemptOperationalValue.of_attempt p.1)
         (sorted_by Attempt.attempt_id str_leb (dvalues (AccountRuntime.attempts p.2))))
       (sorted_items d);
  mret (concat ls).

(** The dispatches of the attempts, then of the resolutions, of one account. *)
Definition dispatches_of (rt : AccountRuntime) : list Dispatch :=
  omap AccountRuntime.dispatch (dvalues (AccountRuntime.attempts rt)) ++
  omap ResolvedAttempt.dispatch (dvalues (AccountRuntime.resolutions rt)).

Definition dispatch_views (d : dict string AccountRuntime) :
    result (list DispatchOperationalValue.t) :=
  ls ← validate_all (λ p, validate_all (DispatchOperationalValue.of_dispatch p.1) (dispatches_of p.2)) d;
  let by_attempt := dict_of ((λ v, (DispatchOperationalValue.attempt_id v, v)) <$> concat ls) in
  mret (sorted_by (λ v, (DispatchOperationalValue.dispatched_at_ms v,
                         DispatchOperationalValue.attempt_id v)) AccountRuntime.time_id_leb
          (dvalues by_attempt)).

Definition circuit_views (d : dict string AccountRuntime) : list CircuitOperationalValue.t :=
  concat ((λ p, (λ c, CircuitOperationalValue.mk p.1 c.1 c.2) <$>
             sorted_items (AccountRuntime.circuits p.2)) <$> sorted_items d).

Definition time_high_water (clock_ms : Z) (d : dict string AccountRuntime) : Z :=
  match AccountRuntime.time_high_water_ms <$> dvalues d with
  | [] => clock_ms
  | t :: ts => foldl Z.max t ts
  end.

Definition operational_view (io : JournalIO) (clock_ms : Z) :
    M Owner OperationalRuntimeView.t :=
  s ← get_state;
  accounts ← capacities clock_ms (dkeys (sorted_items (runtimes s)));
  s ← get_state;
  attempts ← lift (attempt_views (runtimes s));
  dispatches ← lift (dispatch_views (runtimes s));
  w ← get;
  mret (OperationalRuntimeView.mk (AttemptJournal.last_sequence (Owner.journal w))
          (AttemptJournal.status io (Owner.journal w))
          (time_high_water clock_ms (runtimes s)) accounts attempts dispatches
          (circuit_views (runtimes s))).

(** ** [apply_publication] *)
Definition register (k digest attestation : string) (epoch : Z) (state : string) : M Owner unit :=
  journal_op (AttemptJournal.append record_digest
    (Payload.account_registered k digest attestation epoch state));;
  mret tt.

Definition register_staged (st : Staged) : M Owner unit :=
  if Staged.changed st && negb (bool_decide (Staged.binding_digest st = ""%string)) then
    match ProviderAccount.state (Staged.account st) with
    | None => raise AssertionError
    | Some state =>
        register (ProviderAccount.account_id (Staged.account st)) (Staged.binding_digest st)
          (Staged.attestation_digest st) (Staged.epoch st) (AccountState.value state)
    end
  else mret tt.

(** [d[k]] *)
Definition item {V} (k : string) (d : dict string V) : result V :=
  match dget k d with Some v => Ok v | None => Err (KeyError k) end.

Definition register_omitted (b : Books) (a : ProviderAccount) : M Owner unit :=
  let k := ProviderAccount.account_id a in
  digest ← lift (item k (Books.account_binding b));
  attestation ← lift (item k (Books.credential_attestation_digest b));
  epoch ← lift (item k (Books.credential_epoch_highwater b));
  register k digest attestation epoch (AccountState.value AccountState.DISABLED).

Definition install (clock_ms : Z) (a : ProviderAccount) : M Owner unit :=
  s ← get_state;
  let k := ProviderAccount.account_id a in
  match dget k (runtimes s) with
  | None =>
      let rt := AccountRuntime.init a (resolution_ledger_limit s) (resolution_retention_ms s)
                  clock_ms in
      change (λ s, s{{ dormant_account_states ::= ddel k }});;
      rt ← lift (match dget k (dormant_account_states s) with
                 | Some dormant => AccountSnapshot.load dormant rt
                 | None => mret rt
                 end);
      change (λ s, s{{ runtimes ::= dset k rt }})
  | Some rt =>
      rt ← lift (AccountRuntime.update_account a clock_ms rt);
      change (λ s, s{{ runtimes ::= dset k rt }})
  end.

Definition update_omitted (clock_ms : Z) (a : ProviderAccount) : M Owner unit :=
  s ← get_state;
  rt ← lift (item (ProviderAccount.account_id a) (runtimes s));
  rt ← lift (AccountRuntime.update_account a clock_ms rt);
  change (λ s, s{{ runtimes ::= dset (ProviderAccount.account_id a) rt }}).

Definition force_checkpoint (io : JournalIO) : M Owner unit :=
  s ← get_state; journal_op (AttemptJournal.force_checkpoint io (snapshot_locked s)).
Definition maybe_checkpoint (io : JournalIO) : M Owner unit :=
  s ← get_state; journal_op (AttemptJournal.maybe_checkpoint io (snapshot_locked s));; mret tt.

Definition apply_publication (io : JournalIO) (clock_ms : Z) (l : list ProviderAccount) :
    M Owner unit :=
  l ← lift (validated l);
  s ← get_state;
  '(staged, b) ← lift (stage s l (books s));
  omitted ← lift (omit (ProviderAccount.account_id <$> l) (runtimes s));
  for_each register_staged staged;;
  for_each (register_omitted b) omitted;;
  change (λ s, s{{ books := b }});;
  for_each (install clock_ms) (Staged.account <$> staged);;
  for_each (update_omitted clock_ms) omitted;;
  if bool_decide (omitted = []) then maybe_checkpoint io else force_checkpoint io.

(** [checkpoint], [close]; closing a journal closes its writer. *)
Definition checkpoint : JournalIO → M Owner unit := force_checkpoint.
Definition close (io : JournalIO) : M Owner unit :=
  maybe_checkpoint io;; journal_op (modify AttemptJournal.close).

(** ** Recovery *)

(** [_remember_account_without_journal] *)
Definition remember_account_without_journal (a : ProviderAccount) (b : Books) : Books :=
  enter (ProviderAccount.account_id a) (binding_digest a) (attestation_digest a) (epoch_of a) b.

(** [AccountId(text)] *)
Definition check_account_ids (l : list string) : result unit :=
  first_error (λ k, typed_id_new AccountId k;; mret tt) l.

(** [_restore_checkpoint] *)
Definition restore_account (p : string * AccountSnapshot) : M Owner unit :=
  let '(k, state) := p in
  lift (typed_id_new AccountId k);;
  s ← get_state;
  match dget k (runtimes s) with
  | None => change (λ s, s{{ dormant_account_states ::= dset k state }})
  | Some rt =>
      rt ← lift (AccountSnapshot.load state rt);
      change (λ s, s{{ runtimes ::= dset k rt }})
  end.

Definition restore_checkpoint (snapshot : OwnerSnapshot) : M Owner unit :=
  let b := OwnerSnapshot.books snapshot in
  for_each restore_account (OwnerSnapshot.accounts snapshot);;
  lift (check_account_ids (dvalues (Books.binding_history b)));;
  change (λ s, s{{ books ::= λ c, c{{ Books.binding_history := Books.binding_history b }} }});;
  lift (check_account_ids (dkeys (Books.account_binding b)));;
  change (λ s, s{{ books ::= λ c, c{{ Books.account_binding := Books.account_binding b }} }});;
  lift (check_account_ids (dkeys (Books.credential_epoch_highwater b)));;
  change (λ s, s{{ books ::= λ c,
    c{{ Books.credential_epoch_highwater := Books.credential_epoch_highwater b }} }});;
  lift (check_account_ids (dkeys (Books.credential_attestation_digest b)));;
  change (λ s, s{{ books ::= λ c,
    c{{ Books.credential_attestation_digest := Books.credential_attestation_digest b }} }}).

(** [_record_account_id]: a record that names no account belongs to the first
    one that knows its attempt. *)
Definition payload_account (p : Payload) : string + string :=
  match p with
  | Payload.account_registered k _ _ _ _ => inl k
  | Payload.attempt_reserved d => inl (DurableReservation.account_id d)
  | Payload.attempt_dispatched a _ => inr a
  | Payload.attempt_uncertain a _ => inr a
  | Payload.attempt_resolved a _ _ _ _ _ _ _ => inr a
  | Payload.circuit_updated k _ _ _ _ _ _ _ _ _ _ => inl k
  | Payload.authoritative_active_count k _ => inl k
  | Payload.recovery_probe_started k _ => inl k
  | Payload.recovery_probe_finished k _ _ => inl k
  end.

Definition knows (attempt_id : string) (p : string * AccountRuntime) : bool :=
  dmem attempt_id (AccountRuntime.attempts p.2) || dmem attempt_id (AccountRuntime.resolutions p.2).

Definition record_account_id (r : JournalRecord) (d : dict string AccountRuntime) : result string :=
  match payload_account (JournalRecord.payload r) with
  | inl k => typed_id_new AccountId k
  | inr attempt_id =>
      match List.find (knows attempt_id) d with
      | Some (k, _) => mret k
      | None => Err (ValueError "terminal record has no matching reservation")
      end
  end.

(** [_apply_record] *)
Definition apply_registered (k digest attestation : string) (epoch : Z) : M Books unit :=
  lift (typed_id_new AccountId k);;
  b ← get;
  lift (raise_if (match dget digest (Books.binding_history b) with
                  | Some owner => negb (bool_decide (owner = k)) | None => false end)
    (AccountBindingConflict "durable binding history conflict"));;
  modify (λ b, b{{ Books.binding_history ::= dset digest k;
                   Books.account_binding ::= dset k digest }});;
  lift (raise_if (check_epoch k attestation epoch b)
    (CredentialAttestationRollback "durable credential attestation conflict"));;
  modify (λ b, b{{ Books.credential_epoch_highwater ::= dset k epoch;
                   Books.credential_attestation_digest ::= dset k attestation }}).

Definition on_books (m : M Books unit) : M Owner unit := λ w,
  let '(b, r) := m (books (Owner.state w)) in
  (Owner.mk (Owner.journal w) ((Owner.state w){{ books := b }}), r).

Definition apply_record (r : JournalRecord) : M Owner unit :=
  match JournalRecord.payload r with
  | Payload.account_registered k digest attestation epoch _ =>
      on_books (apply_registered k digest attestation epoch)
  | _ =>
      s ← get_state;
      k ← lift (record_account_id r (runtimes s));
      rt ← lift (item k (runtimes s));
      rt ← lift (AccountReplay.apply_to_account r rt);
      change (λ s, s{{ runtimes ::= dset k rt }})
  end.

(** [_mark_recovered_attempts_uncertain], for one account *)
Definition set_runtime (k : string) (f : AccountRuntime → AccountRuntime) : M Owner unit :=
  s ← get_state;
  rt ← lift (item k (runtimes s));
  change (λ s, s{{ runtimes ::= dset k (f rt) }}).

Definition mark_uncertain (k : string) (p : string * Attempt) : M Owner unit :=
  let '(attempt_id, a) := p in
  if negb (Attempt.is_active a) then mret tt
  else
    journal_op (AttemptJournal.append record_digest
      (Payload.attempt_uncertain (Attempt.attempt_id a)
         (AmbiguousReason.value AmbiguousReason.CRASH_RECOVERY)));;
    set_runtime k (λ rt, rt{{ AccountRuntime.attempts ::=
      dset attempt_id (a{{ Attempt.state := "uncertain"%string }}) }}).

Definition close_probe (k : string) : M Owner unit :=
  s ← get_state;
  rt ← lift (item k (runtimes s));
  match AccountRuntime.recovery_probe_id rt with
  | None => mret tt
  | Some probe =>
      journal_op (AttemptJournal.append record_digest
        (Payload.recovery_probe_finished (AccountOps.account_id_of rt) probe
           (ProbeClassification.value ProbeClassification.INCONCLUSIVE)));;
      set_runtime k (AccountRuntime.apply_probe_finished ProbeClassification.INCONCLUSIVE)
  end.

(** The half-open circuit reopened at the next epoch; reading the clock stores
    its high-water mark. *)
Definition reopened (now_ms : Z) (v : CircuitValue) : result CircuitValue :=
  CircuitValue.validate
    (CircuitValue.mk CircuitState.OPEN (CircuitValue.cause v) (CircuitValue.epoch v + 1)
       (CircuitValue.opened_at_ms v) now_ms (Z.min 64 (CircuitValue.backoff_step v + 1))
       (CircuitValue.evidence_digest v) None).

Definition read_clock (clock_ms : Z) (k : string) : M Owner Z :=
  s ← get_state;
  rt ← lift (item k (runtimes s));
  set_runtime k (AccountRuntime.tick clock_ms);;
  mret (AccountRuntime.now_ms clock_ms rt).

Definition reopen_account_circuit (io : JournalIO) (clock_ms : Z) (k : string) : M Owner unit :=
  s ← get_state;
  rt ← lift (item k (runtimes s));
  let v := AccountRuntime.account_circuit rt in
  if negb (CircuitValue.in_state CircuitState.HALF_OPEN v) then mret tt
  else
    now ← read_clock clock_ms k;
    v' ← lift (reopened now v);
    on_account k (λ snap, AccountOps.compare_and_swap_account_circuit record_digest snap io v v');;
    mret tt.

Definition reopen_circuit (io : JournalIO) (clock_ms : Z) (k : string)
    (p : string * CircuitValue) : M Owner unit :=
  let '(generation, v) := p in
  if negb (CircuitValue.in_state CircuitState.HALF_OPEN v) then mret tt
  else
    now ← read_clock clock_ms k;
    v' ← lift (reopened now v);
    on_account k (λ snap,
      AccountOps.compare_and_swap_circuit record_digest snap io generation v v');;
    mret tt.

Definition quiesce (io : JournalIO) (clock_ms : Z) (k : string) : M Owner unit :=
  s ← get_state;
  rt ← lift (item k (runtimes s));
  for_each (mark_uncertain k) (AccountRuntime.attempts rt);;
  close_probe k;;
  reopen_account_circuit io clock_ms k;;
  s ← get_state;
  rt ← lift (item k (runtimes s));
  for_each (reopen_circuit io clock_ms k) (AccountRuntime.circuits rt).

Definition mark_recovered_attempts_uncertain (io : JournalIO) (clock_ms last_sequence : Z) :
    M Owner unit :=
  if last_sequence =? 0 then mret tt
  else
    s ← get_state;
    for_each (quiesce io clock_ms) (dkeys (runtimes s));;
    maybe_checkpoint io.

(** ** [__init__] *)

(** The state the durable records and the configured accounts give. *)
Definition replay_durable (io : JournalIO) (clock_ms : Z) (recovery : JournalRecovery OwnerSnapshot)
    (accounts : list ProviderAccount) : M Owner unit :=
  match JournalRecovery.checkpoint recovery with
  | Some snapshot => restore_checkpoint snapshot
  | None => mret tt
  end;;
  for_each apply_record (JournalRecovery.records recovery);;
  apply_publication io clock_ms accounts.

Definition recover (io : JournalIO) (clock_ms : Z) (recovery : JournalRecovery OwnerSnapshot)
    (accounts : list ProviderAccount) : M Owner unit :=
  replay_durable io clock_ms recovery accounts;;
  mark_recovered_attempts_uncertain io clock_ms (JournalRecovery.last_sequence recovery).

(** The owner before recovery. *)
Definition blank (limit retention clock_ms : Z) (accounts : list ProviderAccount) : RuntimeState :=
  mk limit retention
    (dict_of ((λ a, (ProviderAccount.account_id a,
                     AccountRuntime.init a limit retention clock_ms)) <$> accounts))
    [] Books.empty.

Definition check_bounds (limit retention : Z) : result unit :=
  raise_if ((limit <? 1) || (100000 <? limit))
    (ValueError "resolution ledger limit must be in [1, 100000]");;
  raise_if (retention <? 1) (ValueError "resolution retention must be positive").

(** [except (JournalUnavailable, KeyError, TypeError, ValueError)] *)
Definition caught (e : exn) : bool :=
  match e with
  | JournalUnavailable _ | KeyError _ | TypeError _ => true
  | e => is_value_error e
  end.

Definition init (io : JournalIO) (clock_ms limit retention : Z)
    (recovery : JournalRecovery OwnerSnapshot) (journal : AttemptJournal OwnerSnapshot)
    (accounts : list ProviderAccount) : result Owner :=
  check_bounds limit retention;;
  accounts ← validate_all ProviderAccount.validate accounts;
  let w := Owner.mk journal (blank limit retention clock_ms accounts) in
  if bool_decide (JournalRecovery.status recovery = JournalStatus.HEALTHY) then
    match recover io clock_ms recovery accounts w with
    | (w, Ok _) => mret w
    | (w, Err e) =>
        if caught e
        then mret (Owner.mk (AttemptJournal.enter_recovery_required "invalid_runtime_state"
                               (Owner.journal w)) (Owner.state w))
        else Err e
    end
  else
    mret (Owner.mk journal ((Owner.state w){{ books :=
      foldl (λ b a, remember_account_without_journal a b) Books.empty accounts }})).
End Ops.
End OwnerOps.
