(* ===== verification/RuntimeStateFacts.v ===== *)
(** * Facts of the owner of the accounts

    The books of bindings and epochs along publications, what a publication
    does to the accounts, and the steps of recovery. *)
From S2P Require Export RuntimeState ReplayProps.
From Stdlib Require Import Ascii.

(** ** The books *)
Module BooksFacts.
Import Books OwnerOps.

(** An account's binding is owned by that account. *)
Record books_ok (b : Books) : Prop := {
  bo_owner : ∀ k d, dget k (account_binding b) = Some d → dget d (binding_history b) = Some k;
  bo_history : dict_ok (binding_history b);
  bo_binding : dict_ok (account_binding b);
}.

(** What a later version of the books may change: bindings and their owners
    are permanent, epochs only grow, an epoch keeps its attestation. *)
Record books_le (b b' : Books) : Prop := {
  bl_binding : ∀ k d, dget k (account_binding b) = Some d → dget k (account_binding b') = Some d;
  bl_history : ∀ d k, dget d (binding_history b) = Some k → dget d (binding_history b') = Some k;
  bl_epoch : ∀ k, previous_highwater k b ≤ previous_highwater k b';
  bl_attestation : ∀ k x, dget k (credential_attestation_digest b) = Some x →
    previous_highwater k b' = previous_highwater k b →
    dget k (credential_attestation_digest b') = Some x;
}.

#[global] Instance books_le_preorder : PreOrder books_le.
Proof.
  split; [by split|]. intros b1 b2 b3 [] []. split; try by eauto.
  - intros k. specialize (bl_epoch0 k). specialize (bl_epoch1 k). lia.
  - intros k x Hx He. pose proof (bl_epoch0 k). pose proof (bl_epoch1 k).
    apply bl_attestation1; [apply bl_attestation0|]; [done|lia..].
Qed.

(** Accounts whose bindings agree are the same. *)
Lemma binding_unique b k1 k2 d : books_ok b →
  dget k1 (account_binding b) = Some d → dget k2 (account_binding b) = Some d → k1 = k2.
Proof. intros [Hb _ _] H1%Hb H2%Hb. congruence. Qed.

Lemma highwater_enter k k' d x e b :
  previous_highwater k' (enter k d x e b) = if decide (k = k') then e else previous_highwater k' b.
Proof.
  unfold previous_highwater, enter. destruct b; destruct (bool_decide _); cbn;
    rewrite dget_dset; by case_decide.
Qed.

Lemma attestation_enter k k' d x e b :
  dget k' (credential_attestation_digest (enter k d x e b)) =
  if decide (k = k') then Some x else dget k' (credential_attestation_digest b).
Proof.
  unfold enter. destruct b; destruct (bool_decide _); cbn; rewrite dget_dset; by case_decide.
Qed.

Lemma binding_enter k k' d x e b : dget k' (account_binding (enter k d x e b)) =
  if decide (d ≠ ""%string ∧ k = k') then Some d else dget k' (account_binding b).
Proof.
  unfold enter. destruct b; destruct (bool_decide (d = ""%string)) eqn:E; bprop in E; cbn;
    rewrite ?dget_dset; repeat case_decide; naive_solver.
Qed.

Lemma history_enter k d d' x e b : dget d' (binding_history (enter k d x e b)) =
  if decide (d ≠ ""%string ∧ d = d') then Some k else dget d' (binding_history b).
Proof.
  unfold enter. destruct b; destruct (bool_decide (d = ""%string)) eqn:E; bprop in E; cbn;
    rewrite ?dget_dset; repeat case_decide; naive_solver.
Qed.

Lemma enter_ok k d x e b u : check_binding k d b = Ok u → check_epoch k x e b = false →
  books_ok b → books_ok (enter k d x e b) ∧ books_le b (enter k d x e b).
Proof.
  intros Hc He [Hb Hdh Hdb]. unfold check_binding in Hc. inv_ok_step Hc. apply raise_if_Ok in Hc.
  unfold check_epoch in He. bprop in He. destruct He as [He1 He2].
  assert (∀ d', dget k (account_binding b) = Some d' → d' = d) as Hprev.
  { intros d' Hd. rewrite Hd in G. by bprop in G. }
  assert (d ≠ ""%string → ∀ k', dget d (binding_history b) = Some k' → k' = k) as Hown.
  { intros Hd k' Hk. rewrite Hk in Hc. bprop in Hc. naive_solver. }
  split; [split; [|unfold enter; destruct b, (bool_decide _); cbn; try apply dict_ok_dset; done..]|split].
  - intros k' d'. rewrite binding_enter, history_enter.
    destruct (decide (d ≠ ""%string ∧ k = k')) as [[Hne <-]|Hk].
    + intros [= <-]. by rewrite decide_True.
    + intros Hd%Hb. destruct (decide (d ≠ ""%string ∧ d = d')) as [[Hne <-]|]; [|done].
      f_equal. symmetry. by apply Hown.
  - intros k' d' Hd. rewrite binding_enter.
    destruct (decide (d ≠ ""%string ∧ k = k')) as [[_ <-]|]; [|done]. by rewrite (Hprev d').
  - intros d' k' Hk. rewrite history_enter.
    destruct (decide (d ≠ ""%string ∧ d = d')) as [[Hne <-]|]; [|done]. by rewrite (Hown Hne k').
  - intros k'. rewrite highwater_enter. destruct (decide (k = k')) as [<-|]; lia.
  - intros k' y Hy. rewrite highwater_enter, attestation_enter.
    destruct (decide (k = k')) as [<-|]; [|done]. intros ->. rewrite Hy in He2.
    destruct He2 as [He2|He2]; [lia|]. bprop in He2. by subst.
Qed.
End BooksFacts.

(** ** Publications *)
Module PublicationFacts.
Import Books RuntimeState OwnerOps BooksFacts.

Abbreviation account_id := ProviderAccount.account_id.
Abbreviation ids l := (account_id <$> l).

Section Publication.
Context {safe : SafeSnapshot OwnerSnapshot}.
Context (rd : Z → Payload → string → string).
Context (bsha : string → string → string → string).
Context (tsha : string → string).
Implicit Types w : Owner.
Implicit Types s : RuntimeState.
Implicit Types a : ProviderAccount.

Abbreviation binding_digest := (binding_digest bsha).
Abbreviation attestation_digest := (attestation_digest tsha).
Abbreviation stage := (stage bsha tsha).
Abbreviation apply_publication := (apply_publication rd bsha tsha).

(** What a staged account leaves in the books. *)
Definition entered (b : Books) (a : ProviderAccount) : Prop :=
  (binding_digest a ≠ ""%string → dget (account_id a) (account_binding b) = Some (binding_digest a)) ∧
  epoch_of a ≤ previous_highwater (account_id a) b.

Lemma entered_le b b' a : books_le b b' → entered b a → entered b' a.
Proof.
  intros [] [Hb He]. split; [by eauto|]. specialize (bl_epoch0 (account_id a)). lia.
Qed.

Lemma stage_account_books s a b st b' : stage_account bsha tsha s a b = Ok (st, b') → books_ok b →
  books_ok b' ∧ books_le b b' ∧ entered b' a ∧ Staged.account st = a.
Proof.
  intros H Hb. unfold stage_account in H. inv_ok_step H. inv_ok_step H.
  injection H as <- <-. destruct (enter_ok _ _ _ _ _ _ G G0 Hb) as [Hok Hle].
  split_and!; [done..| |done]. split.
  - intros Hne. rewrite binding_enter. by rewrite decide_True.
  - rewrite highwater_enter, decide_True by done. lia.
Qed.

Lemma stage_books s l b sts b' : stage s l b = Ok (sts, b') → books_ok b →
  books_ok b' ∧ books_le b b' ∧ (∀ a, a ∈ l → entered b' a) ∧ Staged.account <$> sts = l.
Proof.
  revert b sts. induction l as [|a l IH]; intros b sts H Hb; cbn in H.
  { injection H as <- <-. split_and!; try done. by intros a ?%elem_of_nil. }
  apply bind_Ok in H as ([st b1] & H1 & H). apply bind_Ok in H as ([sts' b2] & H2 & H).
  injection H as <- <-.
  apply stage_account_books in H1 as (Hb1 & Hle1 & He1 & Hst); [|done].
  apply IH in H2 as (Hb2 & Hle2 & He2 & Hsts); [|done].
  split_and!; [done|by etrans| |by cbn; rewrite Hst, Hsts].
  intros a' [->|Ha']%elem_of_cons; [by eapply entered_le|by apply He2].
Qed.

(** Journaling leaves the owner's state alone. *)
Lemma journal_op_state {A} (m : M (AttemptJournal OwnerSnapshot) A) w w' r :
  journal_op m w = (w', r) → Owner.state w' = Owner.state w.
Proof. unfold journal_op. destruct (m _). by intros [= <- _]. Qed.

Lemma register_state k d x e st w w' r :
  register rd k d x e st w = (w', r) → Owner.state w' = Owner.state w.
Proof.
  unfold register. intros [(w1 & u & H & H')|(e' & H & _)]%M_bind_cases.
  - injection H' as <- _. by eapply journal_op_state.
  - by eapply journal_op_state.
Qed.

Lemma register_staged_state st w w' r :
  register_staged rd st w = (w', r) → Owner.state w' = Owner.state w.
Proof.
  unfold register_staged. destruct (_ && _); [|by intros [= <- _]].
  destruct (ProviderAccount.state _); [apply register_state|by intros [= <- _]].
Qed.

Lemma register_omitted_state b a w w' r :
  register_omitted rd b a w = (w', r) → Owner.state w' = Owner.state w.
Proof.
  unfold register_omitted, lift. intros H.
  apply M_bind_cases in H as [(w1 & d & [= <- Hd] & H)|(? & [= <- _] & _)]; [|done].
  apply M_bind_cases in H as [(w1 & x & [= <- Hx] & H)|(? & [= <- _] & _)]; [|done].
  apply M_bind_cases in H as [(w1 & e & [= <- He] & H)|(? & [= <- _] & _)]; [|done].
  by eapply register_state.
Qed.

Lemma checkpoints_state io w w' r (b : list ProviderAccount) :
  (if bool_decide (b = []) then maybe_checkpoint io else force_checkpoint io) w = (w', r) →
  Owner.state w' = Owner.state w.
Proof.
  destruct (bool_decide _); intros H.
  - unfold maybe_checkpoint in H. apply M_bind_cases in H as [(w1 & s & [= <- <-] & H)|(? & [=] & _)].
    apply M_bind_cases in H as [(w2 & u & H & H')|(? & H & _)].
    + injection H' as <- _. by eapply journal_op_state.
    + by eapply journal_op_state.
  - unfold force_checkpoint in H. apply M_bind_cases in H as [(w1 & s & [= <- <-] & H)|(? & [=] & _)].
    by eapply journal_op_state.
Qed.

(** The publication once it is journaled: the accounts take their new state. *)
Definition commit_publication (io : JournalIO) (clock_ms : Z) (l om : list ProviderAccount) :
    M Owner unit :=
  for_each (install clock_ms) l;;
  for_each (update_omitted clock_ms) om;;
  if bool_decide (om = []) then maybe_checkpoint io else force_checkpoint io.

(** A publication is refused by its checks, which [validate_publication] makes
    without changing anything; or stopped by the journal before it changed the
    state; or committed. *)
Lemma publication_cases io c l w w' r : apply_publication io c l w = (w', r) →
  books_ok (books (Owner.state w)) →
  (∃ e, validate_publication bsha tsha l (Owner.state w) = Err e ∧ w' = w ∧ r = Err e) ∨
  (validate_publication bsha tsha l (Owner.state w) = Ok tt ∧ ∃ l' sts b om,
     validated l = Ok l' ∧ stage (Owner.state w) l' (books (Owner.state w)) = Ok (sts, b) ∧
     omit (ids l') (runtimes (Owner.state w)) = Ok om ∧
     ((Owner.state w' = Owner.state w ∧ ∃ e, r = Err e) ∨
      ∃ w1, Owner.state w1 = (Owner.state w){{ books := b }} ∧
        commit_publication io c l' om w1 = (w', r))).
Proof.
  unfold OwnerOps.apply_publication, validate_publication, lift. intros H Hb.
  apply M_bind_cases in H as [(w1 & l' & [= <- Hl] & H)|(e & [= <- Hl] & ->)].
  2: { left. exists e. by rewrite Hl. }
  rewrite Hl. cbn [mbind result_bind]. apply M_bind_cases in H as [(w1 & s & [= <- <-] & H)|(? & [=] & _)].
  apply M_bind_cases in H as [(w1 & [sts b] & [= <- Hs] & H)|(e & [= <- Hs] & ->)].
  2: { left. exists e. by rewrite Hs. }
  rewrite Hs. cbn [mbind result_bind].
  apply M_bind_cases in H as [(w1 & om & [= <- Ho] & H)|(e & [= <- Ho] & ->)].
  2: { left. exists e. by rewrite Ho. }
  rewrite Ho. right. split; [done|]. exists l', sts, b, om. split_and!; [done..|].
  assert (∀ (w : Owner) l w' r, for_each (register_staged rd) l w = (w', r) →
    Owner.state w' = Owner.state w) as Hreg.
  { intros v ls v' r' Hf. eapply (for_each_inv (λ u, Owner.state u = Owner.state v)); [|done|exact Hf].
    intros st u u' r'' _ <- Hu. by eapply register_staged_state. }
  assert (∀ (w : Owner) l w' r, for_each (register_omitted rd b) l w = (w', r) →
    Owner.state w' = Owner.state w) as Hom.
  { intros v ls v' r' Hf. eapply (for_each_inv (λ u, Owner.state u = Owner.state v)); [|done|exact Hf].
    intros st u u' r'' _ <- Hu. by eapply register_omitted_state. }
  apply M_bind_cases in H as [(w1 & [] & H1 & H)|(e & H1 & ->)]; apply Hreg in H1.
  2: { left. eauto. }
  apply M_bind_cases in H as [(w2 & [] & H2 & H)|(e & H2 & ->)]; apply Hom in H2.
  2: { left. split; [congruence|eauto]. }
  right. apply M_bind_cases in H as [(w3 & [] & [= <-] & H)|(? & [=] & _)].
  eexists. split; [|destruct (stage_books _ _ _ _ _ Hs Hb) as (_ & _ & _ & Hacc);
    rewrite Hacc in H; exact H].
  cbn. by rewrite H2, H1.
Qed.

(** The tables an account keeps when its configuration changes. *)
Record kept (rt rt' : AccountRuntime) : Prop := {
  k_starts : AccountRuntime.starts rt' = AccountRuntime.starts rt;
  k_attempts : AccountRuntime.attempts rt' = AccountRuntime.attempts rt;
  k_resolutions : AccountRuntime.resolutions rt' = AccountRuntime.resolutions rt;
  k_circuits : AccountRuntime.circuits rt' = AccountRuntime.circuits rt;
  k_account_circuit : AccountRuntime.account_circuit rt' = AccountRuntime.account_circuit rt;
  k_consumed :
    AccountRuntime.consumed_circuit_probes rt' = AccountRuntime.consumed_circuit_probes rt;
  k_holds :
    AccountRuntime.external_uncertain_holds rt' = AccountRuntime.external_uncertain_holds rt;
  k_probe : AccountRuntime.recovery_probe_id rt' = AccountRuntime.recovery_probe_id rt;
}.

Lemma update_keeps a c rt rt' : AccountRuntime.update_account a c rt = Ok rt' →
  kept rt rt' ∧ AccountRuntime.account rt' = a ∧ account_id a = AccountOps.account_id_of rt.
Proof.
  unfold AccountRuntime.update_account. intros H. inv_ok H. bprop in G. subst rt'.
  unfold AccountRuntime.roll_monthly.
  destruct (_ && _), (_ || _); destruct rt; by split; [|split].
Qed.

(** The runtime an installed account gets, from the state before. *)
Definition installed (c : Z) s a (rt : AccountRuntime) : Prop :=
  match dget (account_id a) (runtimes s) with
  | Some rt0 => AccountRuntime.update_account a c rt0 = Ok rt
  | None =>
      let rt0 := AccountRuntime.init a (resolution_ledger_limit s) (resolution_retention_ms s) c in
      match dget (account_id a) (dormant_account_states s) with
      | Some dormant => AccountSnapshot.load dormant rt0 = Ok rt
      | None => rt = rt0
      end
  end.

Lemma load_account sn rt rt' : AccountSnapshot.load sn rt = Ok rt' →
  AccountRuntime.account rt' = AccountRuntime.account rt.
Proof.
  unfold AccountSnapshot.load. intros H. inv_ok H. subst rt'. by destruct rt.
Qed.

Lemma installed_account c s a rt : installed c s a rt → AccountRuntime.account rt = a.
Proof.
  unfold installed. destruct (dget (account_id a) (runtimes s)); [by intros (_ & <- & _)%update_keeps|].
  destruct (dget _ (dormant_account_states s)); [by intros ->%load_account|by intros ->].
Qed.

Lemma install_cases c a w w' r : install c a w = (w', r) →
  let k := account_id a in
  Owner.journal w' = Owner.journal w ∧ books (Owner.state w') = books (Owner.state w) ∧
  (∀ k', k' ≠ k → dget k' (runtimes (Owner.state w')) = dget k' (runtimes (Owner.state w)) ∧
     dget k' (dormant_account_states (Owner.state w')) =
       dget k' (dormant_account_states (Owner.state w))) ∧
  resolution_ledger_limit (Owner.state w') = resolution_ledger_limit (Owner.state w) ∧
  resolution_retention_ms (Owner.state w') = resolution_retention_ms (Owner.state w) ∧
  (r = Ok tt → ∃ rt, dget k (runtimes (Owner.state w')) = Some rt ∧
     installed c (Owner.state w) a rt).
Proof.
  intros H k. unfold install, get_state, lift in H.
  apply M_bind_cases in H as [(w1 & s & [= <- <-] & H)|(? & [=] & _)].
  unfold installed. fold k in H |- *. destruct w as [j [lim ret rts dorm bk]]. cbn in *.
  destruct (dget k rts) as [rt0|] eqn:Ek.
  - apply M_bind_cases in H as [(w1 & rt & [= <- Hu] & H)|(e & [= <- Hu] & ->)].
    + injection H as <- <-. cbn. split_and!; try done; [|].
      * intros k' Hk. by rewrite dget_dset_ne.
      * intros _. exists rt. by rewrite dget_dset_eq.
    + by split_and!.
  - apply M_bind_cases in H as [(w1 & [] & [= <-] & H)|(? & [=] & _)].
    apply M_bind_cases in H as [(w2 & rt & [= <- Hu] & H)|(e & [= <- Hu] & ->)].
    + injection H as <- <-. cbn. split_and!; try done; [|].
      * intros k' Hk. by rewrite dget_dset_ne, dget_ddel_ne.
      * intros _. exists rt. rewrite dget_dset_eq. split; [done|].
        destruct (dget k dorm); [done|]. by injection Hu as <-.
    + cbn. split_and!; try done. intros k' Hk. by rewrite dget_ddel_ne.
Qed.

Lemma install_all c l w w' : for_each (install c) l w = (w', Ok tt) → NoDup (ids l) →
  Owner.journal w' = Owner.journal w ∧ books (Owner.state w') = books (Owner.state w) ∧
  (∀ a, a ∈ l → ∃ rt, dget (account_id a) (runtimes (Owner.state w')) = Some rt ∧
     installed c (Owner.state w) a rt) ∧
  (∀ k, k ∉ ids l → dget k (runtimes (Owner.state w')) = dget k (runtimes (Owner.state w)) ∧
     dget k (dormant_account_states (Owner.state w')) =
       dget k (dormant_account_states (Owner.state w))).
Proof.
  revert w. induction l as [|a l IH]; intros w H Hnd.
  { injection H as <-. split_and!; try done. by intros a ?%elem_of_nil. }
  apply for_each_cons in H as (w1 & H1 & H2). cbn in Hnd. apply NoDup_cons in Hnd as [Hni Hnd].
  apply install_cases in H1 as (Hj & Hb & Ho & Hl & Ht & Hi). destruct (Hi eq_refl) as (rt & Hk & Hrt).
  destruct (IH w1 H2 Hnd) as (Hj2 & Hb2 & Hin & Hout).
  split_and!; [congruence|congruence| |].
  - intros a' [->|Ha']%elem_of_cons.
    + exists rt. split; [|done]. by rewrite (proj1 (Hout _ Hni)).
    + destruct (Hin a' Ha') as (rt' & Hk' & Hrt'). exists rt'. split; [done|].
      assert (account_id a' ≠ account_id a) as Hne.
      { intros Heq. apply Hni. rewrite <-Heq. by apply list_elem_of_fmap_2. }
      unfold installed in *. destruct (Ho _ Hne) as [Hr1 Hr2]. by rewrite <-Hr1, <-Hr2, <-Hl, <-Ht.
  - intros k Hn. cbn in Hn. apply not_elem_of_cons in Hn as [Hn Hn'].
    destruct (Hout k Hn') as [-> ->]. by apply Ho.
Qed.

Lemma update_omitted_cases c a w w' r : update_omitted c a w = (w', r) →
  let k := account_id a in
  Owner.journal w' = Owner.journal w ∧ books (Owner.state w') = books (Owner.state w) ∧
  (∀ k', k' ≠ k → dget k' (runtimes (Owner.state w')) = dget k' (runtimes (Owner.state w))) ∧
  dormant_account_states (Owner.state w') = dormant_account_states (Owner.state w) ∧
  (r = Ok tt → ∃ rt0 rt, dget k (runtimes (Owner.state w)) = Some rt0 ∧
     dget k (runtimes (Owner.state w')) = Some rt ∧ AccountRuntime.update_account a c rt0 = Ok rt).
Proof.
  intros H k. unfold update_omitted, get_state, lift, item in H.
  apply M_bind_cases in H as [(w1 & s & [= <- <-] & H)|(? & [=] & _)]. fold k in H.
  destruct w as [j [lim ret rts dorm bk]]. cbn in *.
  destruct (dget k rts) as [rt0|] eqn:Ek; [|injection H as <- <-; by split_and!].
  apply M_bind_cases in H as [(w1 & rt1 & [= <- <-] & H)|(? & [=] & _)].
  apply M_bind_cases in H as [(w1 & rt & [= <- Hu] & H)|(e & [= <- Hu] & ->)]; [|by split_and!].
  injection H as <- <-. cbn. split_and!; try done.
  - intros k' Hk. by rewrite dget_dset_ne.
  - intros _. exists rt0, rt. by rewrite dget_dset_eq.
Qed.

Lemma update_omitted_all c l w w' : for_each (update_omitted c) l w = (w', Ok tt) → NoDup (ids l) →
  books (Owner.state w') = books (Owner.state w) ∧
  (∀ a, a ∈ l → ∃ rt0 rt, dget (account_id a) (runtimes (Owner.state w)) = Some rt0 ∧
     dget (account_id a) (runtimes (Owner.state w')) = Some rt ∧
     AccountRuntime.update_account a c rt0 = Ok rt) ∧
  (∀ k, k ∉ ids l → dget k (runtimes (Owner.state w')) = dget k (runtimes (Owner.state w))) ∧
  dormant_account_states (Owner.state w') = dormant_account_states (Owner.state w).
Proof.
  revert w. induction l as [|a l IH]; intros w H Hnd.
  { injection H as <-. split_and!; try done. by intros a ?%elem_of_nil. }
  apply for_each_cons in H as (w1 & H1 & H2). cbn in Hnd. apply NoDup_cons in Hnd as [Hni Hnd].
  apply update_omitted_cases in H1 as (Hj & Hb & Ho & Hd & Hi).
  destruct (Hi eq_refl) as (rt0 & rt & Hk0 & Hk & Hrt).
  destruct (IH w1 H2 Hnd) as (Hb2 & Hin & Hout & Hd2). split_and!; [congruence| |..].
  - intros a' [->|Ha']%elem_of_cons.
    + exists rt0, rt. by rewrite Hout.
    + destruct (Hin a' Ha') as (rt0' & rt' & Hk0' & Hk' & Hrt'). exists rt0', rt'.
      split_and!; [|done..]. rewrite <-Ho; [done|].
      intros Heq. apply Hni. rewrite <-Heq. by apply list_elem_of_fmap_2.
  - intros k Hn. cbn in Hn. apply not_elem_of_cons in Hn as [Hn Hn'].
    rewrite Hout by done. by apply Ho.
  - congruence.
Qed.

(** A committed publication changes no books; what the state is when it
    succeeds. *)
Lemma commit_books io c l om w w' r : commit_publication io c l om w = (w', r) →
  books (Owner.state w') = books (Owner.state w).
Proof.
  unfold commit_publication. intros H.
  assert (∀ (v : Owner) ls v' r', for_each (install c) ls v = (v', r') →
    books (Owner.state v') = books (Owner.state v)) as Hi.
  { intros v ls v' r' Hf.
    eapply (for_each_inv (λ u, books (Owner.state u) = books (Owner.state v))); [|done|exact Hf].
    intros a u u' r'' _ <- (_ & Hb & _)%install_cases. done. }
  assert (∀ (v : Owner) ls v' r', for_each (update_omitted c) ls v = (v', r') →
    books (Owner.state v') = books (Owner.state v)) as Hu.
  { intros v ls v' r' Hf.
    eapply (for_each_inv (λ u, books (Owner.state u) = books (Owner.state v))); [|done|exact Hf].
    intros a u u' r'' _ <- (_ & Hb & _)%update_omitted_cases. done. }
  apply M_bind_cases in H as [(w1 & [] & H1 & H)|(e & H1 & ->)]; apply Hi in H1; [|done].
  apply M_bind_cases in H as [(w2 & [] & H2 & H)|(e & H2 & ->)]; apply Hu in H2; [|congruence].
  apply checkpoints_state in H. congruence.
Qed.

Lemma omit_elem sel d om a : omit sel d = Ok om → a ∈ om →
  ∃ k rt, (k, rt) ∈ d ∧ (k ∉ sel) ∧ is_active rt = true ∧
    ProviderAccount.validate
      ((AccountRuntime.account rt){{ ProviderAccount.state := Some AccountState.DISABLED }}) = Ok a.
Proof.
  unfold omit. intros H Ha. eapply BundleFacts.validate_all_elem_r in H as ([k rt] & Hv & Hin); [|exact Ha].
  apply list_elem_of_In, filter_In in Hin as [Hin%list_elem_of_In Hf]. bprop in Hf.
  destruct Hf. by exists k, rt.
Qed.

Lemma validate_id a a' : ProviderAccount.validate a = Ok a' → account_id a' = account_id a.
Proof. intros (_ & _ & _ & _ & ->)%AccountFacts.account_validate_Ok. by destruct a. Qed.

Lemma disabled_inactive a a' :
  ProviderAccount.validate (a{{ ProviderAccount.state := Some AccountState.DISABLED }}) = Ok a' →
  account_id a' = account_id a ∧ ProviderAccount.state a' ≠ Some AccountState.ACTIVE.
Proof.
  intros H. split.
  - apply validate_id in H. rewrite H. by destruct a.
  - apply AccountFacts.account_validate_Ok in H as (_ & _ & _ & _ & ->).
    unfold AccountFacts.final_state. destruct (negb _); destruct a; done.
Qed.

(** The accounts table: every runtime sits under its own id. *)
Record runtimes_ok (d : dict string AccountRuntime) : Prop := {
  ro_keys : dict_ok d;
  ro_ids : ∀ k rt, dget k d = Some rt → AccountOps.account_id_of rt = k;
}.

Lemma omit_ids sel d om : runtimes_ok d → omit sel d = Ok om →
  ids om = (List.filter (λ p, negb (bool_decide (p.1 ∈ sel)) && is_active p.2) d).*1.
Proof.
  intros [Hd Hids] H. unfold omit in H. apply validate_all_Ok in H.
  assert (∀ p, p ∈ List.filter (λ p, negb (bool_decide (p.1 ∈ sel)) && is_active p.2) d →
    AccountOps.account_id_of p.2 = p.1) as Hl.
  { intros [k rt] Hin. apply list_elem_of_In, filter_In in Hin as [Hin%list_elem_of_In _].
    apply Hids. by apply elem_of_dget. }
  induction H as [|[k rt] a l om Hv H IH]; [done|]. cbn. apply disabled_inactive in Hv as [-> _].
  rewrite IH by (intros p Hp; apply Hl; by right). f_equal. apply (Hl (k, rt)). by left.
Qed.

Lemma omit_nodup sel d om : runtimes_ok d → omit sel d = Ok om → NoDup (ids om).
Proof.
  intros Hd H. rewrite (omit_ids _ _ _ Hd H).
  eapply sublist_NoDup; [apply Hd|]. apply fmap_sublist, sublist_filter_bool.
Qed.
End Publication.
End PublicationFacts.
