(* ===== verification/RuntimeStateProps.v ===== *)
(** * Properties of the owner of the accounts *)
From S2P Require Export RuntimeStateFacts.
From Stdlib Require Import Ascii.

(** ** Calls keep an account's identity *)
Module IdentityFacts.
Import AccountRuntime AccountOps AccountCalls.

Section Calls.
Context {Snapshot : Type} {safe : SafeSnapshot Snapshot}.
Context (rd : Z → Payload → string → string).
Context (pd : RequestProfile → string).
Context (sd : AttemptResolution → string).
Context (snap : AccountRuntime → Snapshot).
Context (k : string).
Implicit Types w : World Snapshot.

Definition has_id (rt : AccountRuntime) : Prop := account_id_of rt = k.
Definition world_id w : Prop := has_id (World.runtime w).
Abbreviation keeps m := (spec world_id m (λ _, True)).

Lemma keeps_on_journal {A} (m : M (AttemptJournal Snapshot) A) : keeps (on_journal m).
Proof.
  intros w w' r Hw H. unfold on_journal in H. destruct (m _). injection H as <- _.
  split; [exact Hw|done].
Qed.

Lemma keeps_update f : (∀ rt, has_id rt → has_id (f rt)) → keeps (update (Snapshot := Snapshot) f).
Proof. intros Hf w w' r Hw [= <- _]. split; [|done]. by apply Hf. Qed.

Lemma keeps_put rt : has_id rt → keeps (put_runtime (Snapshot := Snapshot) rt).
Proof. intros Hf w w' r Hw [= <- _]. by split. Qed.

Lemma spec_get_runtime : spec world_id (get_runtime (Snapshot := Snapshot)) has_id.
Proof. intros w w' r Hw [= <- <-]. split; [exact Hw|]. by intros a [= <-]. Qed.

Lemma keeps_bind {A B} (m : M (World Snapshot) A) (f : A → M (World Snapshot) B) :
  keeps m → (∀ a, keeps (f a)) → keeps (m ≫= f).
Proof. intros Hm Hf. eapply spec_bind; [exact Hm|auto]. Qed.

Lemma keeps_with {B} (f : AccountRuntime → M (World Snapshot) B) :
  (∀ rt, has_id rt → keeps (f rt)) → keeps (rt ← get_runtime; f rt).
Proof. intros Hf. eapply spec_bind; [apply spec_get_runtime|exact Hf]. Qed.

Lemma keeps_checkpoint io : keeps (maybe_checkpoint_locked snap io).
Proof.
  apply keeps_with. intros rt _. destruct (negb _); [apply keeps_on_journal|].
  apply keeps_bind; [apply keeps_on_journal|]. intros _. by apply spec_ret.
Qed.

(** Split a call into its steps. *)
Ltac keeps := repeat first
  [ progress intros
  | apply keeps_with
  | apply keeps_bind
  | apply spec_raise
  | by apply spec_ret
  | by apply spec_lift
  | apply keeps_on_journal
  | apply keeps_checkpoint
  | apply keeps_update; by intros []
  | match goal with |- spec _ (if ?b then _ else _) _ => destruct b eqn:? end
  | match goal with |- spec _ (match ?x with Some _ => _ | None => _ end) _ => destruct x eqn:? end ].

Lemma keeps_circuit io g e v : keeps (compare_and_swap_circuit rd snap io g e v).
Proof. unfold compare_and_swap_circuit. keeps. Qed.
Lemma keeps_account_circuit io e v : keeps (compare_and_swap_account_circuit rd snap io e v).
Proof. unfold compare_and_swap_account_circuit. keeps. Qed.
Lemma keeps_begin_probe io p : keeps (begin_recovery_probe rd snap io p).
Proof. unfold begin_recovery_probe. keeps. Qed.
Lemma keeps_dispatch io c a : keeps (mark_dispatched rd snap io c a).
Proof. unfold mark_dispatched. keeps. Qed.
Lemma keeps_finish io c a r : keeps (finish rd sd snap io c a r).
Proof. unfold finish. keeps. Qed.

Lemma id_same_core rt rt' : HousekeepingFacts.same_core rt rt' → has_id rt → has_id rt'.
Proof. intros [Ha _ _ _ _ _ _]. unfold has_id, account_id_of. by rewrite Ha. Qed.

Lemma keeps_reserve io c r : keeps (try_reserve rd pd snap io c r).
Proof.
  unfold try_reserve. eapply spec_bind; [apply spec_get|]. intros w Hw.
  destruct (admission _ _ _ _) as [rt v] eqn:E.
  apply OpFacts.admission_core in E. apply keeps_bind; [apply keeps_put|].
  { by eapply id_same_core. }
  intros _. apply keeps_bind; [by apply spec_lift|]. intros [d|]; [by apply spec_ret|].
  apply keeps_bind.
  - intros w1 w' res Hw1 H. unfold reserve_durably in H.
    destruct (on_journal _ _) as [w2 r2] eqn:E2.
    apply (keeps_on_journal _ w1 w2 r2 Hw1) in E2 as [Hw2 _].
    assert (w' = w2) as ->; [|by split].
    destruct r2 as [|[]]; injection H as <- _; done.
  - intros [receipt|d]; keeps.
Qed.

Lemma keeps_capacity c : keeps (capacity (Snapshot := Snapshot) c).
Proof.
  unfold capacity. apply keeps_with. intros rt Hrt. apply keeps_bind; [apply keeps_put|keeps].
  unfold roll_monthly, purge_windows, tick. destruct rt. by destruct (_ && _).
Qed.

Lemma keeps_active_count io n : keeps (apply_authoritative_active_count rd snap io n).
Proof.
  unfold apply_authoritative_active_count. destruct (n <? 0); [apply spec_raise|].
  apply keeps_with. intros rt Hrt. destruct (has_active rt); [apply spec_raise|].
  apply keeps_bind; [apply keeps_on_journal|]. intros _.
  eapply (spec_bind _ _ _ has_id); [apply spec_lift|].
  - intros rt' H. apply AccountMachine.active_count_form in H as (_ & ks & m & ->). by destruct rt.
  - intros rt' Hrt'. apply keeps_bind; [by apply keeps_put|keeps].
Qed.

Lemma keeps_finish_probe io p c : keeps (finish_recovery_probe rd snap io p c).
Proof.
  unfold finish_recovery_probe. apply keeps_with. intros rt Hrt.
  destruct (negb _); [apply spec_raise|]. destruct (has_active rt); [apply spec_raise|].
  apply keeps_bind; [apply keeps_on_journal|]. intros _. apply keeps_bind; [|keeps].
  apply keeps_update. intros rt' Hrt'.
  destruct (AccountMachine.probe_finished_form c rt') as (a & m & -> & _). by destruct rt'.
Qed.

(** No call changes whose account it is. *)
Lemma run_id c w : world_id w → world_id (run rd pd sd snap c w).
Proof.
  intros Hw. assert (∀ {A} (m : M (World Snapshot) A), keeps m → world_id (m w).1) as Hm.
  { intros A m Hm. destruct (m w) as [w' r] eqn:E. by apply (Hm w w' r Hw). }
  destruct c; cbn; try apply Hm.
  - apply keeps_reserve.
  - apply keeps_dispatch.
  - apply keeps_finish.
  - apply keeps_circuit.
  - apply keeps_account_circuit.
  - apply keeps_capacity.
  - apply keeps_active_count.
  - apply keeps_begin_probe.
  - apply keeps_finish_probe.
  - destruct (update_account a clock_ms (World.runtime w)) as [rt|] eqn:E; [|done].
    apply PublicationFacts.update_keeps in E as (_ & Ha & Hid). unfold world_id, has_id in *. cbn.
    unfold account_id_of at 1. by rewrite Ha, Hid.
Qed.
End Calls.
End IdentityFacts.

(** ** The invariant of the owner *)
Module OwnerFacts.
Import Books RuntimeState OwnerOps BooksFacts PublicationFacts.

Definition state_ok (s : RuntimeState) : Prop := books_ok (books s) ∧ runtimes_ok (runtimes s).
Definition owner_ok (w : Owner) : Prop := state_ok (Owner.state w).
Abbreviation keeps m := (spec owner_ok m (λ _, True)).

Lemma runtimes_ok_dset k rt d : runtimes_ok d → AccountOps.account_id_of rt = k →
  runtimes_ok (dset k rt d).
Proof.
  intros [Hd Hi] Hk. split; [by apply dict_ok_dset|]. intros k' rt'. rewrite dget_dset.
  destruct (decide (k = k')) as [<-|]; [by intros [= <-]|apply Hi].
Qed.

Lemma replay_account r rt rt' : AccountReplay.apply_to_account r rt = Ok rt' →
  AccountRuntime.account rt' = AccountRuntime.account rt.
Proof.
  unfold AccountReplay.apply_to_account. destruct (JournalRecord.payload r); intros H.
  - by injection H as <-.
  - injection H as <-. unfold AccountReplay.replay_reserved. destruct (negb _); by destruct rt.
  - unfold AccountReplay.replay_dispatched in H. destruct (dget _ _) as [a|]; [|done].
    destruct (Attempt.dispatch_receipt a); inv_ok H; rewrite <-H; by destruct rt.
  - injection H as <-. unfold AccountReplay.replay_uncertain. destruct (dget _ _); by destruct rt.
  - unfold AccountReplay.replay_resolved in H. destruct (dget _ _); [inv_ok H; by rewrite <-H|].
    destruct (dget _ _) as [a|]; [|done]. inv_ok_step H. inv_ok_step H.
    destruct (dget _ _); [|done]. injection H as <-. by destruct rt.
  - inv_ok_step H. unfold AccountReplay.replay_circuit in H. destruct (bool_decide _).
    + injection H as <-. by destruct rt.
    + destruct deployment_generation_id; [|done]. inv_ok H. rewrite <-H. by destruct rt.
  - apply AccountMachine.active_count_form in H as (_ & ks & m & ->). by destruct rt.
  - injection H as <-. by destruct rt.
  - inv_ok H. rewrite <-H. destruct (AccountMachine.probe_finished_form x rt) as (a & m & -> & _).
    by destruct rt.
Qed.

Section Steps.
Context {safe : SafeSnapshot OwnerSnapshot}.
Context (rd : Z → Payload → string → string).
Context (pd : RequestProfile → string).
Context (bsha : string → string → string → string).
Context (tsha : string → string).

Lemma keeps_state {A} (m : M Owner A) :
  (∀ w w' r, m w = (w', r) → Owner.state w' = Owner.state w) → keeps m.
Proof. intros Hm w w' r Hw H. split; [|done]. unfold owner_ok. by rewrite (Hm _ _ _ H). Qed.

Lemma keeps_journal_op {A} (m : M (AttemptJournal OwnerSnapshot) A) : keeps (journal_op m).
Proof. apply keeps_state. intros w w' r. apply journal_op_state. Qed.

Lemma keeps_change f : (∀ s, state_ok s → state_ok (f s)) → keeps (change f).
Proof. intros Hf w w' r Hw [= <- _]. split; [|done]. by apply Hf. Qed.

Lemma spec_get_state : spec owner_ok get_state state_ok.
Proof. intros w w' r Hw [= <- <-]. split; [done|]. by intros s [= <-]. Qed.

Lemma keeps_owner_bind {A B} (m : M Owner A) (f : A → M Owner B) :
  keeps m → (∀ a, keeps (f a)) → keeps (m ≫= f).
Proof. intros Hm Hf. eapply spec_bind; [exact Hm|auto]. Qed.

Lemma keeps_with_state {B} (f : RuntimeState → M Owner B) :
  (∀ s, state_ok s → keeps (f s)) → keeps (s ← get_state; f s).
Proof. intros Hf. eapply spec_bind; [apply spec_get_state|exact Hf]. Qed.

(** A runtime read from the table is under its id. *)
Lemma spec_item k (d : dict string AccountRuntime) : runtimes_ok d →
  spec owner_ok (lift (item k d)) (λ rt, AccountOps.account_id_of rt = k).
Proof.
  intros [_ Hd]. apply spec_lift. intros rt. unfold item.
  destruct (dget k d) as [rt'|] eqn:E; [|done]. intros [= <-]. by apply Hd.
Qed.

Lemma change_runtime k rt s : state_ok s → AccountOps.account_id_of rt = k →
  state_ok (s{{ runtimes ::= dset k rt }}).
Proof. intros [Hb Hr] Hk. split; destruct s; [done|]. by apply runtimes_ok_dset. Qed.

Lemma keeps_install c a : keeps (install c a).
Proof.
  apply keeps_with_state. intros s [Hb Hr]. destruct (dget _ (runtimes s)) as [rt|] eqn:E.
  - eapply (spec_bind _ _ _ (λ rt, AccountOps.account_id_of rt = account_id a)).
    + apply spec_lift. intros rt' (_ & Ha & Hid)%update_keeps. unfold AccountOps.account_id_of.
      by rewrite Ha.
    + intros rt' Hid. apply keeps_change. intros s' Hs. by apply change_runtime.
  - apply keeps_owner_bind; [apply keeps_change; by intros []|]. intros _.
    eapply (spec_bind _ _ _ (λ rt, AccountOps.account_id_of rt = account_id a)).
    + apply spec_lift. intros rt. destruct (dget _ (dormant_account_states s)).
      * intros Hl%load_account. unfold AccountOps.account_id_of. by rewrite Hl.
      * by intros [= <-].
    + intros rt' Hid. apply keeps_change. intros s' Hs. by apply change_runtime.
Qed.

Lemma keeps_update_omitted c a : keeps (update_omitted c a).
Proof.
  apply keeps_with_state. intros s [Hb Hr]. eapply spec_bind; [by apply spec_item|].
  intros rt Hrt. eapply (spec_bind _ _ _ (λ rt, AccountOps.account_id_of rt = account_id a)).
  - apply spec_lift. intros rt' (_ & Ha & _)%update_keeps. unfold AccountOps.account_id_of.
    by rewrite Ha.
  - intros rt' Hid. apply keeps_change. intros s' Hs. by apply change_runtime.
Qed.

Lemma keeps_publication io c l : keeps (apply_publication rd bsha tsha io c l).
Proof.
  intros w w' r [Hb Hr] H. split; [|done].
  destruct (publication_cases rd bsha tsha io c l w w' r H Hb)
    as [(e & _ & -> & _)|(_ & l' & sts & b & om & _ & Hs & _ & [[Heq _]|(w1 & Hw1 & Hc)])].
  - by split.
  - unfold owner_ok. rewrite Heq. by split.
  - apply (stage_books bsha tsha) in Hs as (Hb' & _); [|done].
    assert (owner_ok w1) as Hok.
    { unfold owner_ok. rewrite Hw1. split; [by destruct (Owner.state w)|].
      by destruct (Owner.state w). }
    assert (keeps (commit_publication io c l' om)) as Hk; [|by apply (Hk w1 w' r Hok)].
    apply keeps_owner_bind; [by apply spec_for_each; intros; apply keeps_install|]. intros _.
    apply keeps_owner_bind; [by apply spec_for_each; intros; apply keeps_update_omitted|].
    intros _. apply keeps_state. intros v v' r'. apply checkpoints_state.
Qed.

Lemma keeps_registered k d x e w w' r : on_books (apply_registered k d x e) w = (w', r) →
  owner_ok w → owner_ok w'.
Proof.
  intros H [[Ho Hh Hbd] Hr]. unfold on_books in H.
  destruct (apply_registered k d x e (books (Owner.state w))) as [b r'] eqn:E. injection H as <- <-.
  split; [|by destruct w as [j []]]. cbn. assert (books_ok b) as Hb; [|by destruct w as [j []]].
  unfold apply_registered, lift, get, modify in E.
  apply M_bind_cases in E as [(b1 & u & [= <- _] & E)|(? & [= <- _] & _)]; [|by split].
  apply M_bind_cases in E as [(b1 & b2 & [= <- <-] & E)|(? & [=] & _)].
  apply M_bind_cases in E as [(b1 & u' & [= <- G] & E)|(? & [= <- _] & _)]; [|by split].
  apply raise_if_Ok in G.
  assert (books_ok ((books (Owner.state w)){{ binding_history ::= dset d k;
    account_binding ::= dset k d }})) as Hb1.
  { destruct (books (Owner.state w)) as [h ab hw at_]. cbn in *. split; cbn; try by apply dict_ok_dset.
    intros k' d'. rewrite !dget_dset. destruct (decide (k = k')) as [<-|].
    - intros [= <-]. by rewrite decide_True.
    - intros Hd. apply Ho in Hd. destruct (decide (d = d')) as [<-|]; [|done].
      rewrite Hd in G. by bprop in G. }
  apply M_bind_cases in E as [(b2 & u2 & [= <- _] & E)|(? & [=] & _)].
  apply M_bind_cases in E as [(b2 & u3 & [= <- _] & E)|(? & [= <- _] & _)]; [|done].
  injection E as <- _. destruct Hb1 as [Ho1 Hh1 Hbd1].
  destruct (books (Owner.state w)). by split.
Qed.

Lemma keeps_apply_record rec : keeps (apply_record rec).
Proof.
  assert (keeps (s ← get_state; k ← lift (record_account_id rec (runtimes s));
    rt ← lift (item k (runtimes s)); rt ← lift (AccountReplay.apply_to_account rec rt);
    change (λ s, s{{ runtimes ::= dset k rt }}))) as Hr.
  { apply keeps_with_state. intros s [Hb Hr].
    apply keeps_owner_bind; [by apply spec_lift|]. intros k.
    eapply spec_bind; [by apply spec_item|]. intros rt Hrt.
    eapply (spec_bind _ _ _ (λ rt, AccountOps.account_id_of rt = k)).
    - apply spec_lift. intros rt' Ha%replay_account. unfold AccountOps.account_id_of. by rewrite Ha.
    - intros rt' Hid. apply keeps_change. intros s' Hs. by apply change_runtime. }
  unfold apply_record. destruct (JournalRecord.payload rec) eqn:E; try exact Hr.
  intros w w' r Hw H. split; [|done]. by eapply keeps_registered.
Qed.

Lemma keeps_set_runtime k f : (∀ rt, AccountOps.account_id_of (f rt) = AccountOps.account_id_of rt) →
  keeps (set_runtime k f).
Proof.
  intros Hf. apply keeps_with_state. intros s [Hb Hr]. eapply spec_bind; [by apply spec_item|].
  intros rt Hrt. apply keeps_change. intros s' Hs. apply change_runtime; [done|]. by rewrite Hf.
Qed.

(** A call of one account. *)
Lemma keeps_on_account {A} k (m : (AccountRuntime → OwnerSnapshot) → M (World OwnerSnapshot) A) :
  (∀ snap, spec (IdentityFacts.world_id k) (m snap) (λ _, True)) → keeps (on_account k m).
Proof.
  intros Hm w w' r [Hb Hr] H. split; [|done]. unfold on_account in H.
  destruct (dget k (runtimes (Owner.state w))) as [rt|] eqn:E; [|by injection H as <- _].
  destruct (m _ _) as [w1 r1] eqn:E1. injection H as <- <-.
  apply (Hm _) in E1 as [Hid _]; [|by apply Hr]. apply change_runtime; [by split|exact Hid].
Qed.

Lemma keeps_read_clock c k : spec owner_ok (read_clock c k) (λ _, True).
Proof.
  apply keeps_with_state. intros s [Hb Hr]. eapply spec_bind; [by apply spec_item|].
  intros rt Hrt. apply keeps_owner_bind; [apply keeps_set_runtime; by intros []|].
  intros _. by apply spec_ret.
Qed.

Lemma keeps_quiesce io c k : keeps (quiesce rd io c k).
Proof.
  apply keeps_with_state. intros s [Hb Hr]. eapply spec_bind; [by apply spec_item|]. intros rt Hrt.
  apply keeps_owner_bind.
  { apply spec_for_each. intros [i a] _. unfold mark_uncertain. apply spec_if; [by intros; apply spec_ret|].
    intros _. apply keeps_owner_bind; [apply keeps_journal_op|]. intros _.
    apply keeps_set_runtime. by intros []. }
  intros _. apply keeps_owner_bind.
  { apply keeps_with_state. intros s1 [Hb1 Hr1]. eapply spec_bind; [by apply spec_item|].
    intros rt1 Hrt1. destruct (AccountRuntime.recovery_probe_id rt1); [|by apply spec_ret].
    apply keeps_owner_bind; [apply keeps_journal_op|]. intros _. apply keeps_set_runtime.
    intros rt2. destruct (AccountMachine.probe_finished_form ProbeClassification.INCONCLUSIVE rt2)
      as (a & m & -> & _). by destruct rt2. }
  intros _. apply keeps_owner_bind.
  { apply keeps_with_state. intros s1 [Hb1 Hr1]. eapply spec_bind; [by apply spec_item|].
    intros rt1 Hrt1. apply spec_if; [by intros; apply spec_ret|]. intros _.
    apply keeps_owner_bind; [apply keeps_read_clock|]. intros now.
    apply keeps_owner_bind; [by apply spec_lift|]. intros v'.
    apply keeps_owner_bind; [|intros; by apply spec_ret]. apply keeps_on_account.
    intros snap. apply IdentityFacts.keeps_account_circuit. }
  intros _. apply keeps_with_state. intros s1 [Hb1 Hr1]. eapply spec_bind; [by apply spec_item|].
  intros rt1 Hrt1. apply spec_for_each. intros [g v] _. unfold reopen_circuit.
  apply spec_if; [by intros; apply spec_ret|]. intros _.
  apply keeps_owner_bind; [apply keeps_read_clock|]. intros now.
  apply keeps_owner_bind; [by apply spec_lift|]. intros v'.
  apply keeps_owner_bind; [|intros; by apply spec_ret]. apply keeps_on_account.
  intros snap. apply IdentityFacts.keeps_circuit.
Qed.

Lemma keeps_maybe_checkpoint io : keeps (maybe_checkpoint io).
Proof.
  apply keeps_with_state. intros s _. apply keeps_owner_bind; [apply keeps_journal_op|].
  intros _. by apply spec_ret.
Qed.

Lemma keeps_mark io c n : keeps (mark_recovered_attempts_uncertain rd io c n).
Proof.
  unfold mark_recovered_attempts_uncertain. apply spec_if; [by intros; apply spec_ret|]. intros _.
  apply keeps_with_state. intros s _. apply keeps_owner_bind; [|intros; apply keeps_maybe_checkpoint].
  apply spec_for_each. intros k _. apply keeps_quiesce.
Qed.

(** Restoring a checkpoint of an owner whose books were in order. *)
Lemma restore_account_state p w w' r : restore_account p w = (w', r) →
  runtimes_ok (runtimes (Owner.state w)) → runtimes_ok (runtimes (Owner.state w')) ∧
  books (Owner.state w') = books (Owner.state w).
Proof.
  destruct p as [k sn]. unfold restore_account, lift, get_state, change. intros H Hr.
  apply M_bind_cases in H as [(w1 & u & [= <- _] & H)|(? & [= <- _] & _)]; [|done].
  apply M_bind_cases in H as [(w1 & s & [= <- <-] & H)|(? & [=] & _)].
  destruct w as [j [lim ret rts dorm bk]]. cbn in *.
  destruct (dget k rts) as [rt|] eqn:E; [|by injection H as <- _].
  apply M_bind_cases in H as [(w1 & rt' & [= <- Hl] & H)|(? & [= <- _] & _)]; [|done].
  injection H as <- _. split; [|done]. apply runtimes_ok_dset; [done|].
  unfold AccountOps.account_id_of. rewrite (load_account _ _ _ Hl). by apply Hr.
Qed.

Lemma restore_keeps sn w w' r : restore_checkpoint sn w = (w', r) →
  books (Owner.state w) = Books.empty → runtimes_ok (runtimes (Owner.state w)) →
  books_ok (OwnerSnapshot.books sn) → owner_ok w'.
Proof.
  intros H Hw Hr [Ho Hh Hb]. unfold restore_checkpoint in H.
  assert (∀ v r, for_each restore_account (OwnerSnapshot.accounts sn) w = (v, r) →
    runtimes_ok (runtimes (Owner.state v)) ∧ books (Owner.state v) = Books.empty) as Hacc.
  { intros v r0 Hf. eapply (for_each_inv (λ u, runtimes_ok (runtimes (Owner.state u)) ∧
      books (Owner.state u) = Books.empty)); [|by split|exact Hf].
    intros p u u' r1 _ [Hu1 Hu2] Hp. destruct (restore_account_state _ _ _ _ Hp Hu1) as [? ->]. done. }
  apply M_bind_cases in H as [(w1 & [] & H1 & H)|(e & H1 & _)]; apply Hacc in H1 as [Hr1 Hb1].
  2: { split; [|done]. rewrite Hb1. split; cbn; try apply dict_ok_nil. done. }
  clear Hacc Hw. destruct w1 as [j [lim ret rts dorm bk]]. cbn in *. subst bk.
  unfold lift, change in H.
  apply M_bind_cases in H as [(v & u & [= <- _] & H)|(? & [= <- _] & _)].
  2: { split; [|done]. split; cbn; try apply dict_ok_nil. done. }
  apply M_bind_cases in H as [(v & u' & [= <- _] & H)|(? & [=] & _)].
  apply M_bind_cases in H as [(v & u'' & [= <- _] & H)|(? & [= <- _] & _)].
  2: { split; [|done]. split; cbn; try apply dict_ok_nil; done. }
  apply M_bind_cases in H as [(v & v' & [= <- _] & H)|(? & [=] & _)].
  apply M_bind_cases in H as [(v & v'' & [= <- _] & H)|(? & [= <- _] & _)]; [|by split].
  apply M_bind_cases in H as [(v & x' & [= <- _] & H)|(? & [=] & _)].
  apply M_bind_cases in H as [(v & x'' & [= <- _] & H)|(? & [= <- _] & _)]; [|by split].
  injection H as <- _. by split.
Qed.

Lemma runtimes_ok_init limit ret c l : runtimes_ok (dict_of ((λ a, (account_id a,
  AccountRuntime.init a limit ret c)) <$> l)).
Proof.
  split; [apply dict_ok_dict_of|]. intros k rt Hk%dget_dict_of.
  apply list_elem_of_fmap in Hk as (a & [= -> ->] & _). done.
Qed.

Lemma books_ok_sorted s : books_ok (books s) → books_ok (OwnerSnapshot.books (snapshot_locked s)).
Proof.
  intros [Ho Hh Hb]. split; [|by apply ReplayFacts.dict_ok_sorted_items..]. intros k d.
  cbn [snapshot_locked OwnerSnapshot.books account_binding binding_history].
  rewrite (ReplayFacts.sorted_items_deq _ Hb k), (ReplayFacts.sorted_items_deq _ Hh d). apply Ho.
Qed.

Lemma init_ok io c limit ret recovery j accounts w :
  init rd bsha tsha io c limit ret recovery j accounts = Ok w →
  JournalRecovery.status recovery = JournalStatus.HEALTHY →
  (∀ sn, JournalRecovery.checkpoint recovery = Some sn → books_ok (OwnerSnapshot.books sn)) →
  owner_ok w.
Proof.
  intros H Hh Hsn. unfold init in H. inv_ok_step H. inv_ok_step H.
  rewrite Hh in H. rewrite bool_decide_true in H by done.
  set (w0 := Owner.mk j _) in H.
  assert (∀ w' r, recover rd bsha tsha io c recovery x0 w0 = (w', r) → owner_ok w') as Hrec.
  { intros w' r Hr. unfold recover, replay_durable in Hr.
    assert (keeps (for_each (apply_record) (JournalRecovery.records recovery);;
      apply_publication rd bsha tsha io c x0)) as Hk.
    { apply keeps_owner_bind; [by apply spec_for_each; intros; apply keeps_apply_record|]. intros _.
      apply keeps_publication. }
    assert (∀ w1 r1, match JournalRecovery.checkpoint recovery with
      | Some snapshot => restore_checkpoint snapshot | None => mret tt end w0 = (w1, r1) →
      owner_ok w1) as Hcp.
    { intros w1 r1 H1. destruct (JournalRecovery.checkpoint recovery) as [sn|].
      - eapply restore_keeps; [exact H1|done|apply runtimes_ok_init|by apply Hsn].
      - injection H1 as <- _. split; [|apply runtimes_ok_init]. split; cbn; try apply dict_ok_nil. done. }
    assert (∀ w1 r1, replay_durable rd bsha tsha io c recovery x0 w0 = (w1, r1) → owner_ok w1) as Hd.
    { intros w1 r1 H1. unfold replay_durable in H1.
      apply M_bind_cases in H1 as [(w2 & [] & H2 & H1)|(e & H2 & _)]; apply Hcp in H2; [|done].
      by apply (Hk w2 w1 r1 H2). }
    apply M_bind_cases in Hr as [(w1 & [] & H1 & Hr)|(e & H1 & _)]; apply Hd in H1; [|done].
    by eapply keeps_mark. }
  destruct (recover _ _ _ _ _ _ _ w0) as [w' r] eqn:E. specialize (Hrec w' r eq_refl).
  destruct r as [u|e]; [by injection H as <-|]. destruct (caught e); [|done]. by injection H as <-.
Qed.

(** A call of the account [k]. *)
Definition call_account (sd : AttemptResolution → string) (k : string) (rt : AccountRuntime)
    (c : AccountCalls.call) (w : Owner) : Owner :=
  let w' := AccountCalls.run rd pd sd (snapshot_with k (Owner.state w)) c
              (World.mk (Owner.journal w) rt) in
  Owner.mk (World.journal w') ((Owner.state w){{ runtimes ::= dset k (World.runtime w') }}).

(** The states of an owner: started on an empty journal or on a checkpoint an
    earlier one wrote, then called, with any activity of the journal between. *)
Inductive reachable (sd : AttemptResolution → string) : Owner → Prop :=
| reach_fresh io c limit ret recovery j accounts w :
    JournalRecovery.status recovery = JournalStatus.HEALTHY →
    JournalRecovery.checkpoint recovery = None →
    init rd bsha tsha io c limit ret recovery j accounts = Ok w → reachable sd w
| reach_recovered w0 io c limit ret recovery j accounts w : reachable sd w0 →
    JournalRecovery.status recovery = JournalStatus.HEALTHY →
    JournalRecovery.checkpoint recovery = Some (snapshot_locked (Owner.state w0)) →
    init rd bsha tsha io c limit ret recovery j accounts = Ok w → reachable sd w
| reach_publication w io c l : reachable sd w →
    reachable sd (apply_publication rd bsha tsha io c l w).1
| reach_call w k rt c : reachable sd w → dget k (runtimes (Owner.state w)) = Some rt →
    reachable sd (call_account sd k rt c w)
| reach_journal w j : reachable sd w → reachable sd (Owner.mk j (Owner.state w)).

Lemma reachable_ok sd w : reachable sd w → owner_ok w.
Proof.
  induction 1 as [io c limit ret recovery j accounts w Hh Hn H
    |w0 io c limit ret recovery j accounts w _ IH Hh Hs H|w io c l _ IH|w k rt c _ IH Hk|w j _ IH].
  - eapply init_ok; [exact H|done|]. intros sn. by rewrite Hn.
  - eapply init_ok; [exact H|done|]. intros sn. rewrite Hs. intros [= <-].
    apply books_ok_sorted, IH.
  - destruct (apply_publication _ _ _ _ _ _ _) as [w' r] eqn:E. by eapply keeps_publication.
  - destruct IH as [Hb Hr]. apply change_runtime; [by split|].
    eapply (IdentityFacts.run_id rd pd sd (snapshot_with k (Owner.state w)) k). by apply Hr.
  - done.
Qed.
End Steps.
End OwnerFacts.
