(* ===== verification/Quiescence.v ===== *)
(** * Recovery leaves nothing in flight

    [_mark_recovered_attempts_uncertain], step by step: what each step does to
    the account it visits, and that it leaves the others alone. *)
From S2P Require Export RuntimeStateProps.
From Stdlib Require Import Ascii.

Module Quiescence.
Import AccountRuntime AccountOps AccountMachine RuntimeState OwnerOps PublicationFacts.

(** No attempt, probe or half-open circuit of an earlier process is live. *)
Record quiet (rt : AccountRuntime) : Prop := {
  q_attempts : ∀ i a, dget i (attempts rt) = Some a → Attempt.is_active a = false;
  q_probe : recovery_probe_id rt = None;
  q_account : CircuitValue.in_state CircuitState.HALF_OPEN (account_circuit rt) = false;
  q_circuits : ∀ g v, dget g (circuits rt) = Some v →
    CircuitValue.in_state CircuitState.HALF_OPEN v = false;
}.

(** Capacity, charges and identities stay; circuits only move to later epochs. *)
Record conserved (rt rt' : AccountRuntime) : Prop := {
  c_attempts : dkeys (attempts rt') = dkeys (attempts rt);
  c_resolutions : resolutions rt' = resolutions rt;
  c_starts : starts rt' = starts rt;
  c_monthly : monthly_used rt' = monthly_used rt;
  c_holds : external_uncertain_holds rt' = external_uncertain_holds rt;
  c_account_epoch :
    CircuitValue.epoch (account_circuit rt) ≤ CircuitValue.epoch (account_circuit rt');
  c_epochs : ∀ g,
    CircuitValue.epoch (circuit_value rt g) ≤ CircuitValue.epoch (circuit_value rt' g);
}.

#[global] Instance conserved_preorder : PreOrder conserved.
Proof.
  split; [by intros rt; split|].
  intros r1 r2 r3 [] []. split; try congruence; [lia|].
  intros g. specialize (c_epochs0 g). specialize (c_epochs1 g). lia.
Qed.

(** The state changed at [k] only, from [rt] to [rt']. *)
Record moved (k : string) (rt rt' : AccountRuntime) (s s' : RuntimeState) : Prop := {
  m_before : dget k (runtimes s) = Some rt;
  m_after : dget k (runtimes s') = Some rt';
  m_others : ∀ k', k' ≠ k → dget k' (runtimes s') = dget k' (runtimes s);
  m_keys : dkeys (runtimes s') = dkeys (runtimes s);
}.

Lemma moved_refl k rt s : dget k (runtimes s) = Some rt → moved k rt rt s s.
Proof. by split. Qed.

Lemma moved_trans k r1 r2 r3 s1 s2 s3 : moved k r1 r2 s1 s2 → moved k r2 r3 s2 s3 →
  moved k r1 r3 s1 s3.
Proof.
  intros [] []. split; try done; [|congruence]. intros k' Hk. rewrite m_others1 by done. auto.
Qed.

Lemma moved_fun k r1 r2 r3 s s' : moved k r1 r2 s s' → dget k (runtimes s) = Some r3 → r3 = r1.
Proof. intros [Hb _ _ _] H. rewrite Hb in H. by injection H. Qed.

Lemma moved_dset k rt rt' s : dget k (runtimes s) = Some rt →
  moved k rt rt' s (s{{ runtimes ::= dset k rt' }}).
Proof.
  intros Hk. destruct s as [lim ret rts dorm bk]. cbn in *. split; cbn; [done|..].
  - apply dget_dset_eq.
  - intros k' Hne. by rewrite dget_dset_ne.
  - apply dkeys_dset_old. apply dget_is_Some. eauto.
Qed.

Lemma set_runtime_Ok k f w w' : set_runtime k f w = (w', Ok tt) → ∃ rt,
  moved k rt (f rt) (Owner.state w) (Owner.state w').
Proof.
  unfold set_runtime, get_state, item, lift, change. intros H.
  apply M_bind_Ok in H as (w1 & s & [= <- <-] & H). apply M_bind_Ok in H as (w1 & rt & [= <- Hk] & H).
  injection H as <-. destruct (dget k (runtimes (Owner.state w))) as [rt'|] eqn:E; [|done].
  injection Hk as ->. exists rt. by apply moved_dset.
Qed.

Section Recovery.
Context {safe : SafeSnapshot OwnerSnapshot}.
Context (rd : Z → Payload → string → string).

(** Attempts in flight become uncertain. *)
Lemma mark_uncertain_Ok k i a w w' rt : mark_uncertain rd k (i, a) w = (w', Ok tt) →
  dget k (runtimes (Owner.state w)) = Some rt →
  moved k rt (if Attempt.is_active a then
                rt{{ attempts ::= dset i (a{{ Attempt.state := "uncertain"%string }}) }} else rt)
    (Owner.state w) (Owner.state w').
Proof.
  unfold mark_uncertain. intros H Hk. destruct (Attempt.is_active a); cbn [negb] in H.
  - apply M_bind_Ok in H as (w1 & rec & H1%journal_op_state & H).
    apply set_runtime_Ok in H as (rt' & Hm). rewrite H1 in Hm.
    by rewrite (moved_fun _ _ _ _ _ _ Hm Hk).
  - injection H as <-. by apply moved_refl.
Qed.

Lemma mark_all_Ok k d w w' rt : for_each (mark_uncertain rd k) d w = (w', Ok tt) →
  dget k (runtimes (Owner.state w)) = Some rt →
  (∀ i a, dget i (attempts rt) = Some a → Attempt.is_active a = false ∨ (i, a) ∈ d) →
  (∀ p, p ∈ d → p.1 ∈ dkeys (attempts rt)) →
  ∃ rt', moved k rt rt' (Owner.state w) (Owner.state w') ∧
    (∀ i a, dget i (attempts rt') = Some a → Attempt.is_active a = false) ∧
    ∃ at', rt' = rt{{ attempts := at' }} ∧ dkeys at' = dkeys (attempts rt).
Proof.
  revert w rt. induction d as [|[i a] d IH]; intros w rt H Hk Ha Hd.
  { injection H as <-. exists rt. split_and!; [by apply moved_refl| |].
    - intros i a Hi. destruct (Ha i a Hi) as [|Hin]; [done|by apply elem_of_nil in Hin].
    - exists (attempts rt). by destruct rt. }
  apply for_each_cons in H as (w1 & H1 & H). apply mark_uncertain_Ok with (rt := rt) in H1; [|done].
  set (rt1 := if Attempt.is_active a then _ else _) in H1.
  assert (dkeys (attempts rt1) = dkeys (attempts rt)) as Hkeys.
  { unfold rt1. destruct (Attempt.is_active a); [|done].
    assert (i ∈ dkeys (attempts rt)) as Hi by (apply (Hd (i, a)); by left).
    destruct rt; cbn in *. by apply dkeys_dset_old. }
  destruct (IH w1 rt1) as (rt' & Hm & Hq & at' & Heq & Hat); [done|apply H1| | |].
  - intros i' a' Hi. unfold rt1 in Hi. destruct (Attempt.is_active a) eqn:E.
    + assert (dget i' (dset i (a{{ Attempt.state := "uncertain"%string }}) (attempts rt)) = Some a')
        as Hi' by (by destruct rt). rewrite dget_dset in Hi'.
      destruct (decide (i = i')) as [<-|]; [injection Hi' as <-; left; by destruct a|].
      destruct (Ha i' a' Hi') as [|[[= <- <-]|]%elem_of_cons]; [by left|done|by right].
    + destruct (Ha i' a' Hi) as [|[[= -> ->]|]%elem_of_cons]; [by left|by left|by right].
  - intros p Hp. rewrite Hkeys. apply Hd. by right.
  - exists rt'. split_and!; [by eapply moved_trans|done|]. exists at'. split; [|congruence].
    rewrite Heq. unfold rt1. by destruct (Attempt.is_active a), rt.
Qed.

(** The recovery probe in flight is closed as inconclusive. *)
Lemma close_probe_Ok k w w' rt : close_probe rd k w = (w', Ok tt) →
  dget k (runtimes (Owner.state w)) = Some rt →
  moved k rt (rt{{ recovery_probe_id := None }}) (Owner.state w) (Owner.state w').
Proof.
  unfold close_probe, get_state, lift, item. intros H Hk.
  apply M_bind_Ok in H as (w1 & s & [= <- <-] & H). apply M_bind_Ok in H as (w1 & rt1 & [= <- Hk1] & H).
  rewrite Hk in Hk1. injection Hk1 as <-. destruct (recovery_probe_id rt) as [p|] eqn:E.
  - apply M_bind_Ok in H as (w2 & rec & H1%journal_op_state & H).
    apply set_runtime_Ok in H as (rt' & Hm). rewrite H1 in Hm.
    rewrite <-(moved_fun _ _ _ _ _ _ Hm Hk) in Hm. exact Hm.
  - injection H as <-. assert (rt{{ recovery_probe_id := None }} = rt) as -> by (destruct rt; cbn in *; by subst).
    by apply moved_refl.
Qed.

(** ** Circuits *)
Lemma cas_circuit_Ok {Snapshot} {safe' : SafeSnapshot Snapshot} (snap : AccountRuntime → Snapshot)
    io g e v (w w' : World Snapshot) b :
  compare_and_swap_circuit rd snap io g e v w = (w', Ok b) →
  (circuit_value (World.runtime w) g ≠ e ∧ World.runtime w' = World.runtime w) ∨
  (circuit_value (World.runtime w) g = e ∧
   (v = e ∨ World.runtime w' = set_circuit g e v (World.runtime w))).
Proof.
  unfold compare_and_swap_circuit. intros H.
  apply M_bind_Ok in H as (w1 & rt & [= <- <-] & H). destruct (negb _) eqn:E; bprop in E.
  { injection H as <- _. by left. }
  destruct (_ <? _); [done|]. destruct (bool_decide (v = e)) eqn:Ev; bprop in Ev.
  { right. split; [done|]. by left. }
  apply M_bind_Ok in H as (w1 & rec & H1 & H). unfold on_journal in H1.
  destruct (AttemptJournal.append _ _ _) as [j r]. injection H1 as <- ->.
  apply M_bind_Ok in H as (w2 & [] & [= <-] & H).
  apply M_bind_Ok in H as (w3 & [] & H & [= <- <-]).
  apply OpFacts.checkpoint_quiet in H as [Hrt _]. right. split; [done|]. by right.
Qed.

Lemma cas_account_circuit_Ok {Snapshot} {safe' : SafeSnapshot Snapshot}
    (snap : AccountRuntime → Snapshot) io e v (w w' : World Snapshot) b :
  compare_and_swap_account_circuit rd snap io e v w = (w', Ok b) →
  (account_circuit (World.runtime w) ≠ e ∧ World.runtime w' = World.runtime w) ∨
  (account_circuit (World.runtime w) = e ∧
   (v = e ∨ World.runtime w' = set_account_circuit e v (World.runtime w))).
Proof.
  unfold compare_and_swap_account_circuit. intros H.
  apply M_bind_Ok in H as (w1 & rt & [= <- <-] & H). destruct (negb _) eqn:E; bprop in E.
  { injection H as <- _. by left. }
  destruct (_ <? _); [done|]. destruct (bool_decide (v = e)) eqn:Ev; bprop in Ev.
  { right. split; [done|]. by left. }
  apply M_bind_Ok in H as (w1 & rec & H1 & H). unfold on_journal in H1.
  destruct (AttemptJournal.append _ _ _) as [j r]. injection H1 as <- ->.
  apply M_bind_Ok in H as (w2 & [] & [= <-] & H).
  apply M_bind_Ok in H as (w3 & [] & H & [= <- <-]).
  apply OpFacts.checkpoint_quiet in H as [Hrt _]. right. split; [done|]. by right.
Qed.

Lemma on_account_Ok {A} k (m : (AccountRuntime → OwnerSnapshot) → M (World OwnerSnapshot) A)
    w w' a rt : on_account k m w = (w', Ok a) → dget k (runtimes (Owner.state w)) = Some rt →
  ∃ snap w1, m snap (World.mk (Owner.journal w) rt) = (w1, Ok a) ∧
    moved k rt (World.runtime w1) (Owner.state w) (Owner.state w').
Proof.
  unfold on_account. intros H Hk. rewrite Hk in H. destruct (m _ _) as [w1 r] eqn:E.
  injection H as <- ->. eexists _, w1. split; [exact E|]. by apply moved_dset.
Qed.

Lemma read_clock_Ok c k w w' n rt : read_clock c k w = (w', Ok n) →
  dget k (runtimes (Owner.state w)) = Some rt →
  moved k rt (tick c rt) (Owner.state w) (Owner.state w').
Proof.
  unfold read_clock, get_state, lift, item. intros H Hk.
  apply M_bind_Ok in H as (w1 & s & [= <- <-] & H). apply M_bind_Ok in H as (w1 & rt1 & [= <- _] & H).
  apply M_bind_Ok in H as (w2 & [] & H1 & [= <- _]).
  apply set_runtime_Ok in H1 as (rt' & Hm). by rewrite (moved_fun _ _ _ _ _ _ Hm Hk).
Qed.

Lemma reopened_open n v v' : reopened n v = Ok v' →
  CircuitValue.state v' = CircuitState.OPEN ∧ CircuitValue.epoch v' = CircuitValue.epoch v + 1.
Proof.
  unfold reopened, CircuitValue.validate. intros H. inv_ok H. by subst.
Qed.

Lemma conserved_tick c rt : conserved rt (tick c rt).
Proof. destruct rt. by split. Qed.

(** One deployment circuit. *)
Lemma reopen_circuit_Ok io c k g v w w' rt : reopen_circuit rd io c k (g, v) w = (w', Ok tt) →
  dget k (runtimes (Owner.state w)) = Some rt → ∃ rt',
  moved k rt rt' (Owner.state w) (Owner.state w') ∧ conserved rt rt' ∧
  (attempts rt' = attempts rt ∧ recovery_probe_id rt' = recovery_probe_id rt ∧
   account_circuit rt' = account_circuit rt) ∧
  ∀ g' v', dget g' (circuits rt') = Some v' →
    CircuitValue.in_state CircuitState.HALF_OPEN v' = false ∨
    (dget g' (circuits rt) = Some v' ∧ (g', v') ≠ (g, v)).
Proof.
  unfold reopen_circuit. intros H Hk.
  destruct (CircuitValue.in_state CircuitState.HALF_OPEN v) eqn:E; cbn [negb] in H.
  2: { injection H as <-. exists rt. split_and!; [by apply moved_refl|done..|].
    intros g' v' Hg. destruct (decide ((g', v') = (g, v))) as [[= -> ->]|]; [by left|by right]. }
  apply M_bind_Ok in H as (w1 & n & H1 & H). apply read_clock_Ok with (rt := rt) in H1; [|done].
  apply M_bind_Ok in H as (w2 & v2 & [= <- Hv2] & H). apply reopened_open in Hv2 as [Ho He].
  apply M_bind_Ok in H as (w3 & b & H2 & [= <-]).
  apply (on_account_Ok _ _ _ _ _ (tick c rt)) in H2 as (snap & wa & H2 & Hm); [|apply H1].
  apply cas_circuit_Ok in H2. cbn [World.runtime] in H2.
  assert (v2 ≠ v) as Hne.
  { intros ->. unfold CircuitValue.in_state in E. rewrite Ho in E. by bprop in E. }
  exists (World.runtime wa). split; [by eapply moved_trans|].
  destruct H2 as [[Hc ->]|[Hc [| ->]]]; [|done|].
  - split_and!; [apply conserved_tick|by destruct rt..|]. intros g' v' Hg.
    destruct (decide ((g', v') = (g, v))) as [[= -> ->]|]; [|right; split; [by destruct rt|done]].
    exfalso. apply Hc. unfold circuit_value, dget_or. by rewrite Hg.
  - assert (circuit_value rt g = v) as Hv by (by destruct rt).
    split_and!; try by destruct rt.
    + etrans; [apply (conserved_tick c)|]. destruct rt; split; cbn; try done.
      intros g'. unfold circuit_value, dget_or in Hv |- *. cbn in *. rewrite dget_dset.
      destruct (decide (g = g')) as [<-|]; [rewrite Hv; cbn; lia|lia].
    + intros g' v' Hg. assert (dget g' (dset g v2 (circuits rt)) = Some v') as Hg' by (by destruct rt).
      rewrite dget_dset in Hg'. destruct (decide (g = g')) as [<-|Hgg].
      * injection Hg' as <-. left. unfold CircuitValue.in_state. by rewrite Ho.
      * right. split; [done|]. by intros [= -> ->].
Qed.

Lemma reopen_all_Ok io c k d w w' rt : for_each (reopen_circuit rd io c k) d w = (w', Ok tt) →
  dget k (runtimes (Owner.state w)) = Some rt →
  (∀ g v, dget g (circuits rt) = Some v →
     CircuitValue.in_state CircuitState.HALF_OPEN v = false ∨ (g, v) ∈ d) → ∃ rt',
  moved k rt rt' (Owner.state w) (Owner.state w') ∧ conserved rt rt' ∧
  (attempts rt' = attempts rt ∧ recovery_probe_id rt' = recovery_probe_id rt ∧
   account_circuit rt' = account_circuit rt) ∧
  ∀ g v, dget g (circuits rt') = Some v → CircuitValue.in_state CircuitState.HALF_OPEN v = false.
Proof.
  revert w rt. induction d as [|[g v] d IH]; intros w rt H Hk Hc.
  { injection H as <-. exists rt. split_and!; [by apply moved_refl|done..|].
    intros g v Hg. destruct (Hc g v Hg) as [|Hin]; [done|by apply elem_of_nil in Hin]. }
  apply for_each_cons in H as (w1 & H1 & H).
  apply reopen_circuit_Ok with (rt := rt) in H1 as (rt1 & Hm1 & Hc1 & (Ha1 & Hp1 & Hac1) & Hg1); [|done].
  destruct (IH w1 rt1) as (rt2 & Hm2 & Hc2 & (Ha2 & Hp2 & Hac2) & Hg2); [done|apply Hm1| |].
  - intros g' v' Hg. destruct (Hg1 g' v' Hg) as [|[Hg' Hne]]; [by left|].
    destruct (Hc g' v' Hg') as [|[|]%elem_of_cons]; [by left|done|by right].
  - exists rt2. split_and!; [by eapply moved_trans|by etrans|congruence..|done].
Qed.

(** The account's circuit. *)
Lemma reopen_account_circuit_Ok io c k w w' rt :
  reopen_account_circuit rd io c k w = (w', Ok tt) →
  dget k (runtimes (Owner.state w)) = Some rt → ∃ rt',
  moved k rt rt' (Owner.state w) (Owner.state w') ∧ conserved rt rt' ∧
  (attempts rt' = attempts rt ∧ recovery_probe_id rt' = recovery_probe_id rt) ∧
  CircuitValue.in_state CircuitState.HALF_OPEN (account_circuit rt') = false.
Proof.
  unfold reopen_account_circuit, get_state, lift, item. intros H Hk.
  apply M_bind_Ok in H as (w1 & s & [= <- <-] & H). rewrite Hk in H.
  apply M_bind_Ok in H as (w1 & rt1 & [= <- <-] & H).
  destruct (CircuitValue.in_state CircuitState.HALF_OPEN (account_circuit rt)) eqn:E; cbn [negb] in H.
  2: { injection H as <-. exists rt. split_and!; [by apply moved_refl|done..]. }
  apply M_bind_Ok in H as (w1 & n & H1 & H). apply read_clock_Ok with (rt := rt) in H1; [|done].
  apply M_bind_Ok in H as (w2 & v2 & [= <- Hv2] & H). apply reopened_open in Hv2 as [Ho He].
  apply M_bind_Ok in H as (w3 & b & H2 & [= <-]).
  apply (on_account_Ok _ _ _ _ _ (tick c rt)) in H2 as (snap & wa & H2 & Hm); [|apply H1].
  apply cas_account_circuit_Ok in H2. cbn [World.runtime] in H2.
  assert (v2 ≠ account_circuit rt) as Hne.
  { intros ->. unfold CircuitValue.in_state in E. rewrite Ho in E. by bprop in E. }
  assert (account_circuit (tick c rt) = account_circuit rt) as Ht by (by destruct rt).
  exists (World.runtime wa). split; [by eapply moved_trans|].
  destruct H2 as [[Hc _]|[Hc [| ->]]]; [done..|]. split_and!; try by destruct rt.
  - destruct rt; split; cbn in *; try done. lia.
  - unfold CircuitValue.in_state. destruct rt. cbn. by rewrite Ho.
Qed.
End Recovery.
End Quiescence.
