(* ===== verification/OwnerProps.v ===== *)
(** * Theorems about the owner of the accounts

    With the concrete owner on which their witnesses are evaluated. *)
From S2P Require Export Quiescence.
From Stdlib Require Import Ascii.

Module OwnerTheorems.
Import AccountRuntime Books RuntimeState OwnerOps BooksFacts PublicationFacts OwnerFacts Quiescence.

Section Theorems.
Context {safe : SafeSnapshot OwnerSnapshot}.
Context (rd : Z → Payload → string → string).
Context (pd : RequestProfile → string).
Context (sd : AttemptResolution → string).
Context (bsha : string → string → string → string).
Context (tsha : string → string).

Abbreviation reachable := (reachable rd pd bsha tsha sd).
Abbreviation apply_publication := (apply_publication rd bsha tsha).
Abbreviation validate_publication := (validate_publication bsha tsha).
Abbreviation state w := (Owner.state w).

Lemma quiesce_Ok io c k w w' rt : quiesce rd io c k w = (w', Ok tt) →
  dget k (runtimes (state w)) = Some rt → ∃ rt',
  moved k rt rt' (state w) (state w') ∧ conserved rt rt' ∧ quiet rt'.
Proof.
  unfold quiesce, get_state, lift, item. intros H Hk.
  apply M_bind_Ok in H as (w1 & s & [= <- <-] & H). rewrite Hk in H.
  apply M_bind_Ok in H as (w1 & rt0 & [= <- <-] & H).
  apply M_bind_Ok in H as (w1 & [] & H1 & H).
  apply mark_all_Ok with (rt := rt) in H1 as (rt1 & Hm1 & Hq1 & at1 & -> & Hk1); [|done|..].
  2: { intros i a Hi. right. by apply dget_elem_of. }
  2: { intros p Hp. by apply list_elem_of_fmap_2. }
  apply M_bind_Ok in H as (w2 & [] & H2 & H).
  eapply close_probe_Ok in H2 as Hm2; [|apply Hm1].
  apply M_bind_Ok in H as (w3 & [] & H3 & H).
  eapply reopen_account_circuit_Ok in H3 as (rt3 & Hm3 & Hc3 & (Ha3 & Hp3) & Hac3); [|apply Hm2].
  apply M_bind_Ok in H as (w4 & s & [= <- <-] & H). rewrite (m_after _ _ _ _ _ Hm3) in H.
  apply M_bind_Ok in H as (w4 & rt0 & [= <- <-] & H).
  eapply reopen_all_Ok in H as (rt4 & Hm4 & Hc4 & (Ha4 & Hp4 & Hac4) & Hg4); [|apply Hm3|].
  2: { intros g v Hg. right. by apply dget_elem_of. }
  exists rt4. split_and!.
  - do 3 (eapply moved_trans; [eassumption|]). exact Hm4.
  - etrans; [|etrans; [exact Hc3|exact Hc4]]. destruct rt; by split.
  - split; [| |congruence|done].
    + intros i a Hi. apply (Hq1 i a). rewrite Ha4, Ha3 in Hi. by destruct rt.
    + rewrite Hp4, Hp3. by destruct rt.
Qed.

Lemma quiesce_all io c ks w w' k rt : for_each (quiesce rd io c) ks w = (w', Ok tt) →
  (∀ k, k ∈ ks → is_Some (dget k (runtimes (state w)))) → dget k (runtimes (state w)) = Some rt →
  dkeys (runtimes (state w')) = dkeys (runtimes (state w)) ∧ ∃ rt',
  dget k (runtimes (state w')) = Some rt' ∧ conserved rt rt' ∧ (k ∈ ks ∨ quiet rt → quiet rt').
Proof.
  revert w rt. induction ks as [|k1 ks IH]; intros w rt H Hks Hk.
  { injection H as <-. split; [done|]. exists rt. split_and!; [done..|].
    by intros [?%elem_of_nil|]. }
  apply for_each_cons in H as (w1 & H1 & H).
  destruct (Hks k1) as [rt1 Hk1]; [by left|].
  eapply quiesce_Ok in H1 as (rt1' & [Hb Ha Ho Hkeys] & Hc & Hq); [|exact Hk1].
  assert (∀ k, k ∈ ks → is_Some (dget k (runtimes (state w1)))) as Hks1.
  { intros k' Hk'. apply dget_is_Some. rewrite Hkeys. apply dget_is_Some, Hks. by right. }
  destruct (decide (k = k1)) as [->|Hne].
  - destruct (IH w1 rt1' H Hks1 Ha) as (Hd & rt' & Hr & Hc' & Hq'). split; [congruence|].
    exists rt'. split_and!; [done| |auto]. assert (rt = rt1) as -> by congruence. by etrans.
  - destruct (IH w1 rt H Hks1) as (Hd & rt' & Hr & Hc' & Hq'); [by rewrite Ho|].
    split; [congruence|]. exists rt'. split_and!; [done..|].
    intros [[->|]%elem_of_cons|]; [done|auto..].
Qed.

Lemma mark_recovered_quiet io c n w w' k rt' : n ≠ 0 →
  mark_recovered_attempts_uncertain rd io c n w = (w', Ok tt) →
  dget k (runtimes (state w')) = Some rt' →
  ∃ rt, dget k (runtimes (state w)) = Some rt ∧ conserved rt rt' ∧ quiet rt'.
Proof.
  unfold mark_recovered_attempts_uncertain. intros Hn H Hk.
  destruct (n =? 0) eqn:E; bprop in E; [done|].
  apply M_bind_Ok in H as (w1 & s & [= <- <-] & H). apply M_bind_Ok in H as (w1 & [] & H1 & H).
  apply (checkpoints_state io _ _ _ []) in H. rewrite H in Hk.
  assert (∀ k, k ∈ dkeys (runtimes (state w)) → is_Some (dget k (runtimes (state w)))) as Hks.
  { intros k'. apply dget_is_Some. }
  destruct (dget k (runtimes (state w))) as [rt|] eqn:Ek.
  - destruct (quiesce_all io c _ w w1 k rt H1 Hks Ek) as (_ & rt1 & Hr & Hc & Hq).
    rewrite Hk in Hr. injection Hr as <-. exists rt. split_and!; [done..|]. apply Hq. left.
    apply dget_is_Some. eauto.
  - exfalso. destruct (dkeys (runtimes (state w))) as [|k0 ks] eqn:Eks.
    + injection H1 as <-. congruence.
    + destruct (Hks k0) as [rt0 Hk0]; [by left|].
      destruct (quiesce_all io c _ w w1 k0 rt0 H1 Hks Hk0) as (Hd & _).
      apply dget_None in Ek. apply Ek. rewrite <-Hd. apply dget_is_Some. eauto.
Qed.


(** C6. Provider bindings are owned for ever, and credentials never rewind.
    Whatever publication a reachable owner is given, and whether it raises or
    not: an account keeps its binding digest, a digest keeps its owner, so no
    two accounts, live or removed, share one; credential epochs only grow, and
    within an epoch the attestation does not change.  A publication that
    [validate_publication] refuses raises the same error and changes nothing;
    one that succeeds enters the binding and the epoch of each account. *)
Theorem publication_books w io c l w' r : reachable w → apply_publication io c l w = (w', r) →
  (∀ e, validate_publication l (state w) = Err e → w' = w ∧ r = Err e) ∧
  books_le (books (state w)) (books (state w')) ∧
  (∀ k1 k2 d, dget k1 (account_binding (books (state w'))) = Some d →
     dget k2 (account_binding (books (state w'))) = Some d → k1 = k2) ∧
  (r = Ok tt → ∃ l', validated l = Ok l' ∧
     ∀ a, a ∈ l' → entered bsha (books (state w')) a).
Proof.
  intros Hw H. apply reachable_ok in Hw as [Hb Hr].
  assert (books_ok (books (state w'))) as Hb'.
  { by apply (keeps_publication rd bsha tsha io c l w w' r (conj Hb Hr)) in H as [[? _] _]. }
  destruct (publication_cases rd bsha tsha io c l w w' r H Hb)
    as [(e & He & -> & ->)|(Hv & l' & sts & b & om & Hl & Hs & _ & Hcase)].
  - split_and!; [|done|intros ???; by apply binding_unique|done].
    intros e'. rewrite He. by intros [= ->].
  - apply (stage_books bsha tsha) in Hs as (Hbs & Hle & Hent & _); [|done].
    split; [by rewrite Hv|]. destruct Hcase as [[-> [e ->]]|(w1 & Hw1 & Hc)].
    + split_and!; [done|intros ???; by apply binding_unique|done].
    + apply commit_books in Hc. rewrite Hw1 in Hc.
      assert (books (state w') = b) as Heq by (rewrite Hc; by destruct (state w)).
      rewrite Heq. split_and!; [done|intros ???; by apply binding_unique|]. intros _. by exists l'.
Qed.

(** What a successful publication does to the accounts.  Every published
    account has a runtime that carries it: the one it had, with all its
    attempts, windows, resolutions, circuits and holds; else one that starts
    from its dormant checkpoint, or afresh.  Every other account keeps its
    tables too, and is not active any more; none is lost and none appears. *)
Theorem publication_effects w io c l w' : reachable w →
  apply_publication io c l w = (w', Ok tt) →
  ∃ l', validated l = Ok l' ∧
    (∀ a, a ∈ l' → ∃ rt, dget (account_id a) (runtimes (state w')) = Some rt ∧
       account rt = a ∧ installed c (state w) a rt ∧
       ∀ rt0, dget (account_id a) (runtimes (state w)) = Some rt0 → kept rt0 rt) ∧
    (∀ k, k ∉ ids l' → match dget k (runtimes (state w)) with
       | None => dget k (runtimes (state w')) = None
       | Some rt0 => ∃ rt, dget k (runtimes (state w')) = Some rt ∧ kept rt0 rt ∧
                       is_active rt = false
       end).
Proof.
  intros Hw H. apply reachable_ok in Hw as [Hb Hr].
  destruct (publication_cases rd bsha tsha io c l w w' _ H Hb)
    as [(e & _ & _ & [=])|(_ & l' & sts & b & om & Hl & _ & Hom & [[_ [e [=]]]|(w1 & Hw1 & Hc)])].
  exists l'. split; [done|]. unfold commit_publication in Hc.
  apply M_bind_Ok in Hc as (w2 & [] & H2 & Hc). apply M_bind_Ok in Hc as (w3 & [] & H3 & Hc).
  apply checkpoints_state in Hc. rewrite Hc. clear Hc H.
  assert (NoDup (ids l')) as Hnd.
  { unfold validated in Hl. inv_ok_step Hl. inv_ok_step Hl. injection Hl as <-. by bprop in G0. }
  apply install_all in H2 as (_ & _ & Hin & Hout); [|done].
  assert (runtimes (state w1) = runtimes (state w)) as Hrt by (rewrite Hw1; by destruct (state w)).
  assert (∀ a rt, installed c (state w1) a rt ↔ installed c (state w) a rt) as Hinst.
  { intros a rt. unfold installed. rewrite Hw1. by destruct (state w). }
  pose proof (omit_nodup _ _ _ Hr Hom) as Hndo.
  apply update_omitted_all in H3 as (_ & Hoin & Hoout & _); [|done].
  assert (∀ a, a ∈ om → (account_id a ∉ ids l') ∧ ∃ rt0,
    dget (account_id a) (runtimes (state w)) = Some rt0 ∧
    ProviderAccount.state a ≠ Some AccountState.ACTIVE) as Hoa.
  { intros a Ha. destruct (omit_elem _ _ _ _ Hom Ha) as (k & rt & Hk & Hni & _ & Hv).
    apply disabled_inactive in Hv as [Hid Hst]. destruct Hr as [Hd Hids].
    apply elem_of_dget in Hk; [|done].
    assert (account_id a = k) as -> by (rewrite Hid; by apply Hids). eauto. }
  split.
  - intros a Ha. destruct (Hin a Ha) as (rt & Hk & Hi%Hinst). exists rt. split_and!.
    + rewrite Hoout; [done|]. intros (a' & Hid & Ha')%list_elem_of_fmap.
      destruct (Hoa a' Ha') as [Hni _]. apply Hni. rewrite <-Hid. by apply list_elem_of_fmap_2.
    + by eapply installed_account.
    + done.
    + intros rt0 Hk0. unfold installed in Hi. rewrite Hk0 in Hi. by apply update_keeps in Hi as [? _].
  - intros k Hk. destruct (Hout k Hk) as [Hk2 _]. rewrite Hrt in Hk2.
    destruct (dget k (runtimes (state w))) as [rt0|] eqn:E.
    + destruct (decide (k ∈ ids om)) as [Ho|Ho].
      * apply list_elem_of_fmap in Ho as (a & -> & Ha).
        destruct (Hoin a Ha) as (rt1 & rt & Hk1 & Hk' & Hu). exists rt. split; [done|].
        rewrite Hk2 in Hk1. injection Hk1 as <-. apply update_keeps in Hu as (Hkept & Hacc & _).
        split; [done|]. unfold is_active. rewrite Hacc. apply bool_decide_false.
        destruct (Hoa a Ha) as (_ & _ & _ & Hst). exact Hst.
      * exists rt0. rewrite Hoout, Hk2 by done. split_and!; [done|by split|].
        destruct (is_active rt0) eqn:Ea; [|done]. exfalso. apply Ho.
        rewrite (omit_ids _ _ _ Hr Hom). apply (list_elem_of_fmap_2' fst _ (k, rt0)); [|done].
        apply list_elem_of_In, filter_In. split; [by apply list_elem_of_In, dget_elem_of|].
        cbn. rewrite Ea, bool_decide_false by done. done.
    + rewrite Hoout, Hk2; [done|]. intros (a & -> & Ha)%list_elem_of_fmap.
      destruct (Hoa a Ha) as (_ & rt0 & Hk0 & _). congruence.
Qed.
End Theorems.
End OwnerTheorems.

(** ** A concrete owner, its crash and its restart

    On which the witnesses of the owner's properties are evaluated. *)
Module OwnerSamples.
Import AccountSamples.

#[global] Instance owner_snapshot : SafeSnapshot OwnerSnapshot := λ _, Ok tt.
Definition binding_sha (a b c : string) : string := sha "20".
Definition text_sha (s : string) : string := sha "21".

Definition apply_publication := OwnerOps.apply_publication record_digest binding_sha text_sha.
Definition validate_publication := OwnerOps.validate_publication binding_sha text_sha.
Definition reachable := OwnerFacts.reachable record_digest profile_digest binding_sha text_sha
  resolution_digest.
Definition init := OwnerOps.init record_digest binding_sha text_sha io.

Definition empty : AttemptJournal OwnerSnapshot := AttemptJournal.create 10000 60000 10256 1000 [].
Definition nothing : JournalRecovery OwnerSnapshot :=
  AttemptJournal.recover record_digest 0 [] 100 (0, ZERO_DIGEST) [].

Definition unwrap (r : result Owner) : Owner :=
  match r with Ok w => w | Err _ => Owner.mk empty (OwnerOps.blank 1 1 0 []) end.

Definition start : Owner := unwrap (init 1000 1000 86400000 nothing empty [account]).

(** One attempt in flight. *)
Definition busy : Owner :=
  (OwnerOps.try_reserve record_digest profile_digest io 2000 first_request start).1.

(** What the next process finds in the files of [w], and that process. *)
Definition found (w : Owner) : JournalRecovery OwnerSnapshot :=
  let j := Owner.journal w in
  AttemptJournal.recover record_digest (length (AttemptJournal.checkpoints j))
    (AttemptJournal.checkpoints j) 100 (AttemptJournal.manifest j) (AttemptJournal.stored j).
Definition restart (w : Owner) (accounts : list ProviderAccount) : Owner :=
  unwrap (init 5000 1000 86400000 (found w)
    (AttemptJournal.reopen (found w) 5000 [] (Owner.journal w)) accounts).
End OwnerSamples.

Lemma start_owner_reachable : OwnerSamples.reachable OwnerSamples.start.
Proof.
  apply (OwnerFacts.reach_fresh AccountSamples.record_digest AccountSamples.profile_digest
    OwnerSamples.binding_sha OwnerSamples.text_sha AccountSamples.resolution_digest
    AccountSamples.io 1000 1000 86400000 OwnerSamples.nothing OwnerSamples.empty
    [AccountSamples.account]); vm_compute; reflexivity.
Qed.


Lemma publication_books_witness :
  let w := OwnerSamples.start in
  let w' := (OwnerSamples.apply_publication AccountSamples.io 3000 [AccountSamples.account] w).1 in
  (∀ e, OwnerSamples.validate_publication [AccountSamples.account] (Owner.state w) = Err e →
     w' = w ∧ Ok tt = Err e) ∧
  BooksFacts.books_le (RuntimeState.books (Owner.state w)) (RuntimeState.books (Owner.state w')) ∧
  (∀ k1 k2 d,
     dget k1 (Books.account_binding (RuntimeState.books (Owner.state w'))) = Some d →
     dget k2 (Books.account_binding (RuntimeState.books (Owner.state w'))) = Some d → k1 = k2) ∧
  (Ok tt = Ok tt → ∃ l', OwnerOps.validated [AccountSamples.account] = Ok l' ∧
     ∀ a, a ∈ l' → PublicationFacts.entered OwnerSamples.binding_sha
       (RuntimeState.books (Owner.state w')) a).
Proof.
  apply (OwnerTheorems.publication_books AccountSamples.record_digest AccountSamples.profile_digest
    AccountSamples.resolution_digest OwnerSamples.binding_sha OwnerSamples.text_sha
    OwnerSamples.start AccountSamples.io 3000 [AccountSamples.account]).
  - apply start_owner_reachable.
  - vm_compute. reflexivity.
Defined.

Lemma publication_effects_witness :
  let w := OwnerSamples.start in
  let w' := (OwnerSamples.apply_publication AccountSamples.io 3000 [] w).1 in
  ∃ l', OwnerOps.validated [] = Ok l' ∧
    (∀ a, a ∈ l' → ∃ rt,
       dget (ProviderAccount.account_id a) (RuntimeState.runtimes (Owner.state w')) = Some rt ∧
       AccountRuntime.account rt = a ∧ PublicationFacts.installed 3000 (Owner.state w) a rt ∧
       ∀ rt0, dget (ProviderAccount.account_id a) (RuntimeState.runtimes (Owner.state w)) = Some rt0 →
         PublicationFacts.kept rt0 rt) ∧
    (∀ k, k ∉ ProviderAccount.account_id <$> l' →
       match dget k (RuntimeState.runtimes (Owner.state w)) with
       | None => dget k (RuntimeState.runtimes (Owner.state w')) = None
       | Some rt0 => ∃ rt, dget k (RuntimeState.runtimes (Owner.state w')) = Some rt ∧
                       PublicationFacts.kept rt0 rt ∧ OwnerOps.is_active rt = false
       end).
Proof.
  apply (OwnerTheorems.publication_effects AccountSamples.record_digest AccountSamples.profile_digest
    AccountSamples.resolution_digest OwnerSamples.binding_sha OwnerSamples.text_sha
    OwnerSamples.start AccountSamples.io 3000 []).
  - apply start_owner_reachable.
  - vm_compute. reflexivity.
Defined.

(** Recovery only visits the configured accounts: an account removed with an
    attempt in flight, and published again after a restart, comes back from
    its dormant checkpoint with the attempt still active, though no process
    holds its lease. *)
Definition removed : Owner :=
  (OwnerSamples.apply_publication AccountSamples.io 3000 [] OwnerSamples.busy).1.
Definition returned : Owner * result unit :=
  OwnerSamples.apply_publication AccountSamples.io 6000 [AccountSamples.account]
    (OwnerSamples.restart removed []).
Example dormant_attempt_stays_active : returned.2 = Ok tt ∧
  option_map (λ rt, (Attempt.state <$> dvalues (AccountRuntime.attempts rt),
                     AccountRuntime.has_active rt))
    (dget (Samples.account "1") (RuntimeState.runtimes (Owner.state returned.1))) =
  Some (["active"%string], true).
Proof. by vm_compute. Qed.
