(* ===== verification/Auth.v ===== *)
(** * Client authentication

    [gateway/auth.py]: parsing of the presented credential, the bounded
    verification of canonical and legacy keys, the legacy fingerprint index and
    the recheck of queued identities.  [hmac_sha256] is a parameter. *)
From S2P Require Export KeyMaterial Models.
From Stdlib Require Import Ascii.
From stdpp Require Import pretty.
#[local] Open Scope Z_scope.

(** ** Data *)
Module LegacyKeyIndexEntry.
Record t := mk { key_id : string; credential_generation : Z }.
#[global] Instance eq_dec : EqDecision t.
Proof. solve_decision. Defined.
End LegacyKeyIndexEntry.
Abbreviation LegacyKeyIndexEntry := LegacyKeyIndexEntry.t.

Module AuthRuntimeView.
Record t := mk {
  key_index : dict string ClientKeyRecord;
  applied_bundle_generation : Z;
  applied_bundle_hash : string;
  denied_key_ids : list string;
  accepted_peppers : dict string bytes;
  legacy_key_index : dict string LegacyKeyIndexEntry;
  trusted_now_s : Z;
}.
End AuthRuntimeView.
Abbreviation AuthRuntimeView := AuthRuntimeView.t.

Module AuthenticatedClient.
Record t := mk {
  key_id : string;
  accepted_credential_generation : Z;
  policy_id : string;
  key_state : KeyLifecycleState;
  key_expires_at_s : Z;
  applied_bundle_generation : Z;
  applied_bundle_hash : string;
}.
#[global] Instance eq_dec : EqDecision t.
Proof. solve_decision. Defined.
End AuthenticatedClient.
Abbreviation AuthenticatedClient := AuthenticatedClient.t.

(** [ParsedClientKey | ParsedLegacyClientKey] *)
Inductive ParsedKey :=
| Canonical (p : ParsedClientKey)
| Legacy (p : ParsedLegacyClientKey).

(** [str | Sequence[str] | None] *)
Inductive CredentialValue :=
| Absent
| Text (value : string)
| Texts (values : list string).

(** ** Parsing *)
Definition one_candidate (value : CredentialValue) (query_credentials : list string) :
    result string :=
  raise_if (negb (bool_decide (query_credentials = []))) ClientAuthenticationError;;
  match value with
  | Absent => Err ClientAuthenticationError
  | Text candidate => mret candidate
  | Texts [candidate] => mret candidate
  | Texts _ => Err ClientAuthenticationError
  end.

(** [except (InvalidClientKeyMaterial, TypeError)] *)
Definition on_invalid {A} (r : result A) (handler : result A) : result A :=
  match r with
  | Ok a => Ok a
  | Err e => if bool_decide (e = InvalidClientKeyMaterial) then handler else Err e
  end.

Definition parse_client_key (value : CredentialValue) (query_credentials : list string) :
    result ParsedKey :=
  candidate ← one_candidate value query_credentials;
  on_invalid (p ← parse_client_key_material candidate; mret (Canonical p))
    (on_invalid (p ← parse_legacy_client_key_material candidate; mret (Legacy p))
      (Err ClientAuthenticationError)).

(** ** Dummy material *)
Definition DUMMY_PEPPER : bytes := replicate 32 (byte_of 0).
Definition dummy_credential : ClientCredentialVerifier.t :=
  ClientCredentialVerifier.mk 1 (String.string_of_list_ascii (replicate 64 "0"%char)) "dummy-1"
    1 2 CredentialVerifierStatus.RETIRED.
Definition DUMMY_CREDENTIALS : list ClientCredentialVerifier.t :=
  [dummy_credential;
   ClientCredentialVerifier.mk 2 (String.string_of_list_ascii (replicate 64 "f"%char)) "dummy-2"
     2 3 CredentialVerifierStatus.RETIRED].
Definition DUMMY_RECORD : ClientKeyRecord :=
  ClientKeyRecord.mk (String.string_of_list_ascii (replicate 32 "0"%char))
    "pol_00000000-0000-4000-8000-000000000000" KeyLifecycleState.REVOKED 1 4 2 2
    DUMMY_CREDENTIALS [].

Section Verification.
Context (hmac_sha256 : bytes → bytes → bytes).
Implicit Types (view : AuthRuntimeView) (record : ClientKeyRecord).

Definition status_is_accepted (st : CredentialVerifierStatus) : bool :=
  bool_decide (st = CredentialVerifierStatus.ACTIVE) ||
  bool_decide (st = CredentialVerifierStatus.RETIRING).

(** [_credential_is_accepted] *)
Definition credential_is_accepted (v : ClientVerifier) record view : bool :=
  let now_s := view.(AuthRuntimeView.trusted_now_s) in
  status_is_accepted (ClientVerifier.status v) &&
  dmem (ClientVerifier.pepper_version v) view.(AuthRuntimeView.accepted_peppers) &&
  ((ClientVerifier.not_before_s v <=? now_s) && (now_s <? ClientVerifier.not_after_s v)) &&
  (now_s <? ClientKeyRecord.expires_at_s record).

(** [_prepare_verifier] *)
Definition prepare_verifier (v : ClientCredentialVerifier.t) record view
    (fallback_pepper : bytes) : result (bytes * bytes * bool) :=
  let version := ClientCredentialVerifier.pepper_version v in
  let peppers := view.(AuthRuntimeView.accepted_peppers) in
  expected ← fromhex (ClientCredentialVerifier.verifier_hex v);
  mret (dget_or version fallback_pepper peppers, expected,
        credential_is_accepted (ClientVerifier.Canonical v) record view).

(** [_legacy_index_key] *)
Definition legacy_index_key (pepper_version fingerprint_hex : string) : string :=
  String.append pepper_version (String.append ":" fingerprint_hex).

Definition index_record (index : dict string LegacyKeyIndexEntry) record :
    result (dict string LegacyKeyIndexEntry) :=
  fold_result (λ index v,
    let key := legacy_index_key (LegacyClientCredentialVerifier.pepper_version v)
                 (LegacyClientCredentialVerifier.fingerprint_hex v) in
    raise_if (dmem key index) (ValueError "duplicate legacy credential fingerprint");;
    mret (dset key (LegacyKeyIndexEntry.mk (ClientKeyRecord.key_id record)
                      (LegacyClientCredentialVerifier.generation v)) index))
    index (ClientKeyRecord.legacy_verifiers record).
Definition build_legacy_key_index (records : list ClientKeyRecord) :
    result (dict string LegacyKeyIndexEntry) :=
  fold_result index_record [] records.

(** [_authenticated] *)
Definition authenticated record (accepted_generation : Z) view : AuthenticatedClient :=
  AuthenticatedClient.mk (ClientKeyRecord.key_id record) accepted_generation
    (ClientKeyRecord.policy_id record) (ClientKeyRecord.state record)
    (ClientKeyRecord.expires_at_s record)
    view.(AuthRuntimeView.applied_bundle_generation)
    view.(AuthRuntimeView.applied_bundle_hash).

Definition pepper_set_is_valid view : bool :=
  let peppers := dvalues view.(AuthRuntimeView.accepted_peppers) in
  (1 <=? Z.of_nat (length peppers)) && (Z.of_nat (length peppers) <=? 2) &&
  forallb (λ p, 32 <=? Z.of_nat (length p)) peppers.

(** The conditions on the record that both paths test before they accept. *)
Definition record_refused record view : bool :=
  negb (bool_decide (ClientKeyRecord.state record = KeyLifecycleState.ENABLED)) ||
  bool_decide (ClientKeyRecord.key_id record ∈ view.(AuthRuntimeView.denied_key_ids)) ||
  (ClientKeyRecord.expires_at_s record <=? view.(AuthRuntimeView.trusted_now_s)).

(** ** Legacy keys *)
Definition legacy_slots view : list (string * bytes) :=
  let slots := take 2 view.(AuthRuntimeView.accepted_peppers) in
  slots ++ ((λ i, (String.append "dummy-" (pretty i), DUMMY_PEPPER)) <$>
              seq 0 (2 - length slots)).

(** One turn of the loop over the slots. *)
Definition legacy_slot (parsed : ParsedLegacyClientKey) view
    (accepted : option (ClientKeyRecord * Z)) (slot : string * bytes) :
    result (option (ClientKeyRecord * Z)) :=
  candidate ← compute_legacy_key_fingerprint hmac_sha256 slot.2
    (ParsedLegacyClientKey.token parsed);
  let entry := dget (legacy_index_key slot.1 (hex candidate))
                 view.(AuthRuntimeView.legacy_key_index) in
  let record := entry ≫= λ e, dget e.(LegacyKeyIndexEntry.key_id)
                                view.(AuthRuntimeView.key_index) in
  let verifier := e ← entry; r ← record;
    List.find (λ item, LegacyClientCredentialVerifier.generation item =?
                       e.(LegacyKeyIndexEntry.credential_generation))
      (ClientKeyRecord.legacy_verifiers r) in
  expected ← match verifier with
    | Some v => fromhex (LegacyClientCredentialVerifier.fingerprint_hex v)
    | None => mret (replicate 32 (byte_of 0))
    end;
  mret (match record, verifier with
    | Some r, Some v =>
        if bool_decide (candidate = expected) &&
           credential_is_accepted (ClientVerifier.Legacy v) r view
        then Some (r, LegacyClientCredentialVerifier.generation v) else accepted
    | _, _ => accepted
    end).

(** [_verify_legacy_client_key] *)
Definition verify_legacy_client_key (parsed : ParsedLegacyClientKey) view :
    result AuthenticatedClient :=
  accepted ← fold_result (legacy_slot parsed view) None (legacy_slots view);
  match accepted with
  | None => Err ClientAuthenticationError
  | Some (r, generation) =>
      raise_if (negb (pepper_set_is_valid view) || record_refused r view)
        ClientAuthenticationError;;
      mret (authenticated r generation view)
  end.

(** ** Canonical keys *)

(** [verifiers[index] if index < len(verifiers) else _DUMMY_CREDENTIALS[index]] *)
Definition slot_verifier (verifiers : list ClientCredentialVerifier.t) (index : nat) :
    ClientCredentialVerifier.t :=
  if Nat.ltb index (length verifiers) then nth index verifiers dummy_credential
  else nth index DUMMY_CREDENTIALS dummy_credential.

(** One turn of [for index in range(2)]. *)
Definition canonical_slot (parsed : ParsedClientKey) view (record : option ClientKeyRecord)
    (accepted_generation : option Z) (index : nat) : result (option Z) :=
  let prepared_record := default DUMMY_RECORD record in
  let verifiers := from_option ClientKeyRecord.credential_verifiers DUMMY_CREDENTIALS record in
  let fallback_pepper := default DUMMY_PEPPER
    (head (dvalues view.(AuthRuntimeView.accepted_peppers))) in
  let v := slot_verifier verifiers index in
  '(pepper, expected, ok) ← prepare_verifier v prepared_record view fallback_pepper;
  candidate ← compute_client_key_verifier hmac_sha256 pepper
    (ParsedClientKey.key_id_bytes parsed) (ParsedClientKey.secret parsed);
  mret (if bool_decide (candidate = expected) && bool_decide (is_Some record) && ok
        then Some (ClientCredentialVerifier.generation v) else accepted_generation).

Definition verify_client_key (parsed : ParsedKey) view : result AuthenticatedClient :=
  match parsed with
  | Legacy parsed => verify_legacy_client_key parsed view
  | Canonical parsed =>
      let record := dget (ParsedClientKey.key_id parsed) view.(AuthRuntimeView.key_index) in
      accepted_generation ← fold_result (canonical_slot parsed view record) None (seq 0 2);
      match record, accepted_generation with
      | Some r, Some generation =>
          raise_if (negb (pepper_set_is_valid view) || record_refused r view)
            ClientAuthenticationError;;
          mret (authenticated r generation view)
      | _, _ => Err ClientAuthenticationError
      end
  end.

(** ** Queued identities *)
Definition queued_identity_is_authorized (client : AuthenticatedClient) view : bool :=
  match dget client.(AuthenticatedClient.key_id) view.(AuthRuntimeView.key_index) with
  | None => false
  | Some r =>
      negb (record_refused r view) &&
      bool_decide (ClientKeyRecord.policy_id r = client.(AuthenticatedClient.policy_id)) &&
      existsb (λ v, (ClientVerifier.generation v =?
                     client.(AuthenticatedClient.accepted_credential_generation)) &&
                    credential_is_accepted v r view)
        (ClientKeyRecord.verifiers r)
  end.
End Verification.
