(* ===== verification/AuthProps.v ===== *)
(** * Properties of client authentication

    A canonical key is accepted exactly when one of the two credentials of its
    record verifies it; whatever path accepts a client, the identity is backed by
    an HMAC under an accepted pepper and passes the queued recheck for as long as
    its credential lasts. *)
From S2P Require Export Auth.
From S2P Require Import ModelFacts KeyLifecycle Samples.
From Stdlib Require Import Ascii.

(** The index maps an id to the validated record of that id. *)
Definition view_ok (view : AuthRuntimeView) : Prop :=
  ∀ k r, dget k view.(AuthRuntimeView.key_index) = Some r →
    ClientKeyRecord.key_id r = k ∧ ClientKeyRecord.validate r = Ok r.

Section AuthFacts.
Context (hmac_sha256 : bytes → bytes → bytes).
Implicit Types (view : AuthRuntimeView) (r : ClientKeyRecord) (v : ClientCredentialVerifier.t).

(** The credential [v] of the record [r] verifies the presented parts. *)
Definition proves view (p : ParsedClientKey) r v : bool :=
  credential_is_accepted (ClientVerifier.Canonical v) r view &&
  match dget (ClientCredentialVerifier.pepper_version v) view.(AuthRuntimeView.accepted_peppers)
  with
  | Some pepper => bool_decide (fromhex (ClientCredentialVerifier.verifier_hex v) =
      Ok (hmac_sha256 pepper (CLIENT_KEY_DOMAIN ++ p.(ParsedClientKey.key_id_bytes) ++
                              p.(ParsedClientKey.secret))))
  | None => false
  end.

(** The reference decision: the newest credential that verifies the key. *)
Definition canonical_decision view (p : ParsedClientKey) : result AuthenticatedClient :=
  match dget p.(ParsedClientKey.key_id) view.(AuthRuntimeView.key_index) with
  | None => Err ClientAuthenticationError
  | Some r =>
      match last (List.filter (proves view p r) (ClientKeyRecord.credential_verifiers r)) with
      | Some v =>
          if pepper_set_is_valid view && negb (record_refused r view)
          then Ok (authenticated r (ClientCredentialVerifier.generation v) view)
          else Err ClientAuthenticationError
      | None => Err ClientAuthenticationError
      end
  end.

Lemma hex64_decodes s : is_hex64 s = true → ∃ b, fromhex s = Ok b.
Proof.
  unfold is_hex64, fullmatch, HEX64_PATTERN. rewrite KeyMaterialFacts.match_replicate.
  unfold fromhex. generalize (String.list_ascii_of_string s). intros l [Hl Hc].
  enough (∃ b, unhex l = Some b) as [b ->] by eauto.
  assert (∃ n, length l = (n * 2)%nat) as [n Hn] by (by exists 32%nat). clear Hl.
  revert l Hn Hc. induction n as [|n IH]; intros [|c1 [|c2 l]]; cbn; try done; [by eexists|].
  rewrite !andb_true_iff. intros Hn (H1 & H2 & H3). injection Hn as Hn.
  destruct (IH l Hn H3) as [b Hb].
  assert (∀ c, hex_class c = true → ∃ z, hex_digit c = Some z) as Hd.
  { intros c Hc. unfold hex_class in Hc. unfold hex_digit.
    destruct (in_range "0" "9" c); [by eexists|]. cbn in Hc. rewrite Hc. by eexists. }
  destruct (Hd c1 H1) as [z1 E1], (Hd c2 H2) as [z2 E2].
  rewrite E1, E2. cbn. rewrite Hb. by eexists.
Qed.

Lemma record_credentials r : ClientKeyRecord.validate r = Ok r →
  (length (ClientKeyRecord.credential_verifiers r) ≤ 2)%nat ∧
  Forall (λ v, ∃ b, fromhex (ClientCredentialVerifier.verifier_hex v) = Ok b)
    (ClientKeyRecord.credential_verifiers r).
Proof.
  unfold ClientKeyRecord.validate. intros H. inv_ok H. bprop in G.
  destruct G as [[_ Hlen] _]. split; [lia|].
  apply validate_all_Ok in G0. clear -G0. induction G0 as [|v v' l l' Hv _ IH]; [done|].
  constructor; [|done]. unfold ClientCredentialVerifier.validate in Hv. inv_ok Hv.
  bprop in G. apply hex64_decodes. tauto.
Qed.

Lemma parsed_lengths token p : parse_client_key_material token = Ok p →
  length p.(ParsedClientKey.key_id_bytes) = KEY_ID_BYTES ∧
  length p.(ParsedClientKey.secret) = SECRET_BYTES.
Proof. intros [_ (? & ? & _)%KeyMaterialFacts.format_Ok]%KeyMaterialFacts.parse_Ok. done. Qed.

Lemma retired_not_accepted v r view :
  ClientCredentialVerifier.status v = CredentialVerifierStatus.RETIRED →
  credential_is_accepted (ClientVerifier.Canonical v) r view = false.
Proof. intros H. unfold credential_is_accepted. cbn. by rewrite H. Qed.

Lemma compute_verifier_Ok pepper id secret :
  length id = KEY_ID_BYTES → length secret = SECRET_BYTES →
  compute_client_key_verifier hmac_sha256 pepper id secret =
    Ok (hmac_sha256 pepper (CLIENT_KEY_DOMAIN ++ id ++ secret)).
Proof. intros Hi Hs. unfold compute_client_key_verifier. by rewrite Hi, Hs. Qed.

(** A turn of the loop accepts exactly the credential that proves the key. *)
Lemma canonical_slot_step view p r acc index b :
  length p.(ParsedClientKey.key_id_bytes) = KEY_ID_BYTES →
  length p.(ParsedClientKey.secret) = SECRET_BYTES →
  let v := slot_verifier (ClientKeyRecord.credential_verifiers r) index in
  fromhex (ClientCredentialVerifier.verifier_hex v) = Ok b →
  canonical_slot hmac_sha256 p view (Some r) acc index =
    Ok (if proves view p r v then Some (ClientCredentialVerifier.generation v) else acc).
Proof.
  intros Hi Hs v Hb. unfold canonical_slot, prepare_verifier. cbn [from_option]. fold v.
  rewrite Hb. cbn [mbind result_bind mret result_ret].
  rewrite compute_verifier_Ok by done. cbn [mbind result_bind mret result_ret]. do 2 f_equal.
  rewrite (bool_decide_true (is_Some (Some r))) by eauto. cbn [default from_option id].
  unfold proves. rewrite Hb, andb_true_r.
  destruct (credential_is_accepted _ r view) eqn:E; [|by rewrite andb_false_r].
  unfold credential_is_accepted in E. bprop in E. destruct E as [[[_ Hm] _] _].
  cbn in Hm. apply dmem_true, dget_is_Some in Hm as [pep Hp]. unfold dget_or.
  rewrite Hp, andb_true_r, andb_true_l. cbn [default from_option id].
  do 2 case_bool_decide; congruence.
Qed.

Lemma canonical_loop view p r :
  length p.(ParsedClientKey.key_id_bytes) = KEY_ID_BYTES →
  length p.(ParsedClientKey.secret) = SECRET_BYTES →
  ClientKeyRecord.validate r = Ok r →
  fold_result (canonical_slot hmac_sha256 p view (Some r)) None (seq 0 2) =
    Ok (ClientCredentialVerifier.generation <$>
          last (List.filter (proves view p r) (ClientKeyRecord.credential_verifiers r))).
Proof.
  intros Hi Hs [Hlen Hhex]%record_credentials.
  assert (∀ d acc index, d ∈ DUMMY_CREDENTIALS →
    slot_verifier (ClientKeyRecord.credential_verifiers r) index = d →
    canonical_slot hmac_sha256 p view (Some r) acc index = Ok acc) as Hdummy.
  { intros d acc index Hd Hv.
    assert (∃ b, fromhex (ClientCredentialVerifier.verifier_hex d) = Ok b ∧
      ClientCredentialVerifier.status d = CredentialVerifierStatus.RETIRED) as (b & Hb & Hst).
    { revert Hd. unfold DUMMY_CREDENTIALS. rewrite !elem_of_cons.
      intros [->|[->|?%elem_of_nil]]; [by eexists..|done]. }
    rewrite (canonical_slot_step view p r acc index b) by (by rewrite ?Hv). rewrite Hv.
    unfold proves. by rewrite retired_not_accepted. }
  cbn [seq fold_result]. pose proof (canonical_slot_step view p r) as Hstep.
  unfold slot_verifier in *.
  destruct (ClientKeyRecord.credential_verifiers r) as [|v1 [|v2 [|]]]; cbn in Hlen; try lia.
  all: rewrite ?Forall_cons in Hhex.
  - rewrite (Hdummy dummy_credential) by (done || left). cbn [mbind result_bind].
    by rewrite (Hdummy (nth 1 DUMMY_CREDENTIALS dummy_credential)) by (done || right; left).
  - destruct Hhex as [[b1 H1] _]. rewrite (Hstep None 0%nat b1) by done.
    cbn [mbind result_bind].
    rewrite (Hdummy (nth 1 DUMMY_CREDENTIALS dummy_credential)) by (done || right; left).
    cbn. by destruct (proves view p r v1).
  - destruct Hhex as ([b1 H1] & [b2 H2] & _). rewrite (Hstep None 0%nat b1) by done.
    cbn [mbind result_bind]. rewrite (Hstep _ 1%nat b2) by done. cbn.
    by destruct (proves view p r v1), (proves view p r v2).
Qed.

Lemma canonical_slot_lengths view p record acc index acc' :
  canonical_slot hmac_sha256 p view record acc index = Ok acc' →
  length p.(ParsedClientKey.key_id_bytes) = KEY_ID_BYTES ∧
  length p.(ParsedClientKey.secret) = SECRET_BYTES.
Proof.
  unfold canonical_slot. intros H. apply bind_Ok in H as ([[pep ex] ok] & _ & H).
  apply bind_Ok in H as (cand & H & _). unfold compute_client_key_verifier in H.
  inv_ok_step H. bprop. by rewrite !Nat.eqb_eq in G.
Qed.

(** An unknown key does the same work on the dummy credentials, and is refused. *)
Lemma unknown_loop view p :
  length p.(ParsedClientKey.key_id_bytes) = KEY_ID_BYTES →
  length p.(ParsedClientKey.secret) = SECRET_BYTES →
  fold_result (canonical_slot hmac_sha256 p view None) None (seq 0 2) = Ok None.
Proof.
  intros Hi Hs.
  assert (∀ index, (index < 2)%nat → canonical_slot hmac_sha256 p view None None index = Ok None)
    as Hslot.
  { intros index Hlt. unfold canonical_slot, prepare_verifier. cbn [from_option default].
    assert (∃ b, fromhex (ClientCredentialVerifier.verifier_hex
      (slot_verifier DUMMY_CREDENTIALS index)) = Ok b) as [b ->].
    { destruct index as [|[|]]; [by eexists..|lia]. }
    cbn [mbind result_bind mret result_ret]. rewrite compute_verifier_Ok by done.
    cbn [mbind result_bind mret result_ret].
    rewrite (bool_decide_false (is_Some None)) by (by intros []). by rewrite andb_false_r. }
  cbn [seq fold_result]. rewrite Hslot by lia. cbn [mbind result_bind].
  by rewrite Hslot by lia.
Qed.

(** The canonical path is the reference decision. *)
Lemma canonical_exact view p :
  view_ok view → length p.(ParsedClientKey.key_id_bytes) = KEY_ID_BYTES →
  length p.(ParsedClientKey.secret) = SECRET_BYTES →
  verify_client_key hmac_sha256 (Canonical p) view = canonical_decision view p.
Proof.
  intros Hv Hi Hs. unfold verify_client_key, canonical_decision.
  destruct (dget _ _) as [r|] eqn:E.
  - rewrite canonical_loop by (done || by eapply Hv). cbn [mbind result_bind].
    destruct (last _) as [v|]; cbn [fmap option_fmap option_map]; [|done].
    by destruct (pepper_set_is_valid view), (record_refused r view).
  - by rewrite unknown_loop.
Qed.

(** What a turn over a legacy slot accepts. *)
Definition legacy_backed view (p : ParsedLegacyClientKey) (x : ClientKeyRecord * Z) : Prop :=
  ∃ k (v : LegacyClientCredentialVerifier.t) (slot : string * bytes),
    dget k view.(AuthRuntimeView.key_index) = Some x.1 ∧
    v ∈ ClientKeyRecord.legacy_verifiers x.1 ∧
    LegacyClientCredentialVerifier.generation v = x.2 ∧
    credential_is_accepted (ClientVerifier.Legacy v) x.1 view = true ∧
    slot ∈ legacy_slots view ∧ 32 ≤ Z.of_nat (length slot.2) ∧
    fromhex (LegacyClientCredentialVerifier.fingerprint_hex v) =
      Ok (hmac_sha256 slot.2 (LEGACY_CLIENT_KEY_DOMAIN ++ p.(ParsedLegacyClientKey.token))).

Lemma compute_fingerprint_Ok pepper token cand :
  compute_legacy_key_fingerprint hmac_sha256 pepper token = Ok cand →
  32 ≤ Z.of_nat (length pepper) ∧ cand = hmac_sha256 pepper (LEGACY_CLIENT_KEY_DOMAIN ++ token).
Proof.
  unfold compute_legacy_key_fingerprint. intros H. apply bind_Ok in H as (u & G & H).
  apply raise_if_Ok in G. bprop in G. split; [lia|]. unfold mret, result_ret in H. congruence.
Qed.

Lemma legacy_slot_backed view p acc slot acc' :
  slot ∈ legacy_slots view → (∀ x, acc = Some x → legacy_backed view p x) →
  legacy_slot hmac_sha256 p view acc slot = Ok acc' →
  ∀ x, acc' = Some x → legacy_backed view p x.
Proof.
  intros Hslot Hacc H x Hx. unfold legacy_slot in H.
  apply bind_Ok in H as (cand & Hc & H). apply compute_fingerprint_Ok in Hc as [Hpep ->].
  destruct (dget _ _) as [e|]; cbn [mbind option_bind] in H;
    [|injection H as <-; by apply Hacc].
  destruct (dget _ _) as [r|] eqn:Hr; cbn [mbind option_bind] in H;
    [|injection H as <-; by apply Hacc].
  destruct (List.find _ _) as [v|] eqn:Hf; [|injection H as <-; by apply Hacc].
  apply bind_Ok in H as (ex & Hex & H). unfold mret, result_ret in H.
  apply (f_equal (λ o, match o with Ok a => a | Err _ => None end)) in H. cbn beta iota in H.
  rewrite <-H in Hx. destruct (bool_decide _ && _) eqn:B; [|by apply Hacc].
  bprop in B. destruct B as [B1 B2]. injection Hx as <-. cbn [fst snd].
  apply List.find_some in Hf as [Hin _]. exists e.(LegacyKeyIndexEntry.key_id), v, slot. cbn [fst snd].
  split_and!; try done; [by apply list_elem_of_In|]. congruence.
Qed.

Lemma legacy_loop_backed view p l acc acc' :
  (∀ slot, slot ∈ l → slot ∈ legacy_slots view) →
  (∀ x, acc = Some x → legacy_backed view p x) →
  fold_result (legacy_slot hmac_sha256 p view) acc l = Ok acc' →
  ∀ x, acc' = Some x → legacy_backed view p x.
Proof.
  revert acc. induction l as [|slot l IH]; intros acc Hl Hacc H; cbn in H.
  { injection H as <-. done. }
  apply bind_Ok in H as (acc1 & H1 & H). eapply IH; [|eapply legacy_slot_backed, H1|exact H].
  - intros s Hs. apply Hl. by right.
  - apply Hl. left.
  - done.
Qed.

(** The credential an accepted identity is backed by. *)
Definition backed view (parsed : ParsedKey) r (v : ClientVerifier) : Prop :=
  match parsed, v with
  | Canonical p, ClientVerifier.Canonical v => proves view p r v = true
  | Legacy p, ClientVerifier.Legacy v =>
      ∃ slot, slot ∈ legacy_slots view ∧ 32 ≤ Z.of_nat (length slot.2) ∧
        fromhex (LegacyClientCredentialVerifier.fingerprint_hex v) =
        Ok (hmac_sha256 slot.2 (LEGACY_CLIENT_KEY_DOMAIN ++ p.(ParsedLegacyClientKey.token)))
  | _, _ => False
  end.

Lemma raised_bind {B} (c : bool) (e : exn) (k : result B) (b : B) :
  (raise_if c e;; k) = Ok b → c = false ∧ k = Ok b.
Proof. destruct c; [done|]. auto. Qed.

Lemma verified view parsed c : view_ok view → verify_client_key hmac_sha256 parsed view = Ok c →
  ∃ r (v : ClientVerifier), dget c.(AuthenticatedClient.key_id) view.(AuthRuntimeView.key_index) = Some r ∧
    v ∈ ClientKeyRecord.verifiers r ∧ c = authenticated r (ClientVerifier.generation v) view ∧
    backed view parsed r v ∧ credential_is_accepted v r view = true ∧
    record_refused r view = false ∧ pepper_set_is_valid view = true.
Proof.
  intros Hview H. destruct parsed as [p|p]; cbn [verify_client_key] in H.
  - assert (length p.(ParsedClientKey.key_id_bytes) = KEY_ID_BYTES ∧
      length p.(ParsedClientKey.secret) = SECRET_BYTES) as [Hi Hs].
    { apply bind_Ok in H as (acc & H & _). cbn [seq fold_result] in H.
      apply bind_Ok in H as (acc' & H & _). by apply canonical_slot_lengths in H. }
    pose proof (canonical_exact view p Hview Hi Hs) as He. cbn [verify_client_key] in He.
    rewrite He in H. unfold canonical_decision in H. clear He.
    destruct (dget _ _) as [r|] eqn:Hr; [|done]. destruct (last _) as [v|] eqn:Hv; [|done].
    destruct (pepper_set_is_valid view) eqn:Hpep; [|done].
    destruct (record_refused r view) eqn:Hrec; [done|]. cbn in H.
    assert (c = authenticated r (ClientCredentialVerifier.generation v) view) as -> by congruence.
    apply last_Some_elem_of, list_elem_of_In, filter_In in Hv as [Hin Hp].
    exists r, (ClientVerifier.Canonical v). destruct (Hview _ _ Hr) as [Hid _].
    cbn [authenticated AuthenticatedClient.key_id]. rewrite Hid. split_and!; try done.
    + unfold ClientKeyRecord.verifiers. apply elem_of_app. left.
      by apply list_elem_of_fmap_2, list_elem_of_In.
    + unfold proves in Hp. by apply andb_true_iff in Hp as [? _].
  - unfold verify_legacy_client_key in H. apply bind_Ok in H as (acc & Hl & H).
    destruct acc as [[r g]|]; [|done]. apply raised_bind in H as [Hc H].
    assert (c = authenticated r g view) as -> by (unfold mret, result_ret in H; congruence).
    apply orb_false_iff in Hc as [Hpep Hrec]. apply negb_false_iff in Hpep.
    eapply legacy_loop_backed in Hl as (k & v & slot & Hr & Hin & Hg & Hacc & Hslot & Hlen & Hfp);
      [|done|done|done]. cbn [fst snd] in *.
    destruct (Hview _ _ Hr) as [Hid _]. exists r, (ClientVerifier.Legacy v).
    cbn [authenticated AuthenticatedClient.key_id]. rewrite Hid. subst g. split_and!; try done.
    + unfold ClientKeyRecord.verifiers. apply elem_of_app. right. by apply list_elem_of_fmap_2.
    + by exists slot.
Qed.

(** The verdict of the recheck at a later trusted time. *)
Definition at_time (t : Z) view : AuthRuntimeView :=
  AuthRuntimeView.mk view.(AuthRuntimeView.key_index)
    view.(AuthRuntimeView.applied_bundle_generation) view.(AuthRuntimeView.applied_bundle_hash)
    view.(AuthRuntimeView.denied_key_ids) view.(AuthRuntimeView.accepted_peppers)
    view.(AuthRuntimeView.legacy_key_index) t.

Lemma recheck_at view r (v : ClientVerifier) t :
  view_ok view →
  dget (ClientKeyRecord.key_id r) view.(AuthRuntimeView.key_index) = Some r →
  v ∈ ClientKeyRecord.verifiers r →
  credential_is_accepted v r view = true → record_refused r view = false →
  view.(AuthRuntimeView.trusted_now_s) ≤ t →
  queued_identity_is_authorized (authenticated r (ClientVerifier.generation v) view)
    (at_time t view) =
  (t <? Z.min (ClientVerifier.not_after_s v) (ClientKeyRecord.expires_at_s r)).
Proof.
  intros Hview Hr Hin Hacc Hrec Ht. unfold queued_identity_is_authorized.
  cbn [at_time authenticated AuthRuntimeView.key_index AuthenticatedClient.key_id
    AuthenticatedClient.policy_id AuthenticatedClient.accepted_credential_generation].
  rewrite Hr, (bool_decide_true (_ = ClientKeyRecord.policy_id r)) by done. rewrite andb_true_r.
  assert (NoDup (ClientVerifier.generation <$> ClientKeyRecord.verifiers r)) as Hn.
  { eapply KeyLifecycleFacts.validate_generations, Hview, Hr. }
  assert (existsb (λ v' : ClientVerifier, (ClientVerifier.generation v' =? ClientVerifier.generation v) &&
    credential_is_accepted v' r (at_time t view)) (ClientKeyRecord.verifiers r) =
    credential_is_accepted v r (at_time t view)) as ->.
  { destruct (credential_is_accepted v r (at_time t view)) eqn:E.
    - apply existsb_exists. exists v. rewrite E, Z.eqb_refl. split; [by apply list_elem_of_In|done].
    - apply existsb_false. intros v' Hv'. destruct (Z.eqb_spec (ClientVerifier.generation v')
        (ClientVerifier.generation v)) as [Heq|]; [|done].
      by rewrite (NoDup_key_inj _ _ v' v Hn Hv' Hin Heq), E. }
  unfold record_refused, credential_is_accepted in *. cbn [at_time AuthRuntimeView.trusted_now_s
    AuthRuntimeView.accepted_peppers AuthRuntimeView.denied_key_ids] in *.
  bprop. destruct Hrec as [[H1 H2] H3]. destruct Hacc as [[[H4 H5] H6] H7].
  rewrite H4, H5, H1, (bool_decide_false _ H2), bool_decide_true by done.
  cbn [negb orb andb]. lia.
Qed.
End AuthFacts.

Module AuthTheorems.
Section AuthTheorems.
Context (hmac_sha256 : bytes → bytes → bytes).

(** A canonical key is decided exactly: for a parsed token, the request is
    authenticated if and only if the key's record is enabled, not denied and not
    expired, the pepper set is valid, and one of its credentials is accepted now
    and equals the HMAC of the presented parts under the accepted pepper of its
    version; the newest such credential is the one the identity is pinned to, and
    every refusal is the same [ClientAuthenticationError], whatever failed and
    whether the key exists or not. *)
Theorem canonical_verification_exact view token p :
  view_ok view → parse_client_key_material token = Ok p →
  verify_client_key hmac_sha256 (Canonical p) view = canonical_decision hmac_sha256 view p.
Proof.
  intros Hview [Hi Hs]%parsed_lengths. by apply canonical_exact.
Qed.

End AuthTheorems.
End AuthTheorems.

(** ** Witnesses *)
Module AuthSamples.
(** A digest for the evaluation: the last 32 bytes of the message. *)
Definition digest (pepper message : bytes) : bytes := take 32 (rev message).
Definition secret : bytes := replicate 32 "s"%char.
Definition id : bytes := replicate 16 (byte_of 0).
Definition record : ClientKeyRecord :=
  ClientKeyRecord.mk (hex id) Samples.policy KeyLifecycleState.ENABLED 1000 100000 2000 2
    [Samples.verifier 1 (hex (digest [] (CLIENT_KEY_DOMAIN ++ id ++ secret))) 1000 3000
       CredentialVerifierStatus.RETIRING;
     Samples.second_verifier] [].
Definition legacy_token : bytes := String.list_ascii_of_string "sk-legacy-token".
Definition legacy_record : ClientKeyRecord :=
  ClientKeyRecord.mk Samples.key Samples.policy KeyLifecycleState.ENABLED 1000 100000 1000 1 []
    [LegacyClientCredentialVerifier.mk 1
       (hex (digest [] (LEGACY_CLIENT_KEY_DOMAIN ++ legacy_token))) "v1" 1000 90000
       CredentialVerifierStatus.ACTIVE].
Definition view : AuthRuntimeView :=
  AuthRuntimeView.mk [(hex id, record); (Samples.key, legacy_record)] 1 Samples.bundle_hash []
    [("v1", replicate 32 "p"%char)]
    (match build_legacy_key_index [record; legacy_record] with Ok d => d | Err _ => [] end) 2500.
Definition token : string :=
  match format_client_key id secret with Ok token => token | Err _ => EmptyString end.

Lemma view_ok_sample : view_ok view.
Proof.
  intros k r Hr. apply dget_elem_of in Hr. cbn in Hr. rewrite !elem_of_cons in Hr.
  destruct Hr as [[= -> ->]|[[= -> ->]|?%elem_of_nil]]; [by vm_compute..|done].
Qed.
End AuthSamples.

Lemma canonical_verification_exact_witness :
  let p := ParsedClientKey.mk (hex AuthSamples.id) AuthSamples.id AuthSamples.secret in
  verify_client_key AuthSamples.digest (Canonical p) AuthSamples.view =
    Ok (authenticated AuthSamples.record 1 AuthSamples.view).
Proof.
  cbv zeta. rewrite (AuthTheorems.canonical_verification_exact AuthSamples.digest
    AuthSamples.view AuthSamples.token); [by vm_compute|apply AuthSamples.view_ok_sample|].
  by vm_compute.
Defined.


(** A legacy client meets an error other than [ClientAuthenticationError] when a
    pepper is too short: the fingerprint is computed before the pepper set is
    checked, and the canonical path answers the same configuration with
    [ClientAuthenticationError]. *)
Example short_pepper_paths_differ :
  let view := AuthRuntimeView.mk AuthSamples.view.(AuthRuntimeView.key_index) 1
    Samples.bundle_hash [] [("v1", replicate 31 "p"%char)] [] 2500 in
  verify_client_key AuthSamples.digest
    (Legacy (ParsedLegacyClientKey.mk AuthSamples.legacy_token)) view =
    Err (ValueError "invalid legacy client key fingerprint input") ∧
  verify_client_key AuthSamples.digest
    (Canonical (ParsedClientKey.mk (hex AuthSamples.id) AuthSamples.id AuthSamples.secret)) view =
    Err ClientAuthenticationError.
Proof. by vm_compute. Qed.
