(* ===== verification/Wire.v ===== *)
(** * Wire contracts between control and gateway

    [core/wire.py].  Each model is a Record in a Module of its name with its field
    constraints and validators ([validate]) and its [model_dump(mode="json")]
    ([dump], the fields in the order of the class); the parse of an incoming JSON
    object is [model_validate], where what Pydantic converts a JSON value to is the
    interface [Pydantic].  Signatures are the interface [Ed25519].  [BaseReference]
    and [BundleReference] have the same fields and are one Record. *)
From S2P Require Export Canonical Models.
From Stdlib Require Import Ascii.

(** ** What is not in the repository *)
(** Pydantic's conversion of a JSON value to an [int] or a [bool] field: it may
    accept more than the exact type. *)
Class Pydantic := {
  as_int : Json → option Z;
  as_bool : Json → option bool;
  as_int_int : ∀ z, as_int (JInt z) = Some z;
  as_bool_bool : ∀ b, as_bool (JBool b) = Some b;
}.

(** The [cryptography] package: an accepted signature was made with the key's
    private part. *)
Class Ed25519 := {
  public_key : Type;
  private_key : Type;
  public_of : private_key → public_key;
  sign : private_key → bytes → bytes;
  verify : public_key → bytes → bytes → bool;
  verify_sign : ∀ k m, verify (public_of k) (sign k m) m = true;
  length_sign : ∀ k m, length (sign k m) = 64%nat;
}.

(** ** Documents *)
Definition jstr (s : string) : Json := JStr (ascii_text s).
Definition jobj (fields : list (string * Json)) : Json :=
  JObj ((λ p, (ascii_text p.1, p.2)) <$> fields).
Definition jopt {A} (f : A → Json) (o : option A) : Json :=
  match o with Some x => f x | None => JNull end.

Definition validation_error : exn := ValueError "validation error".
(** The text of a string field: the identifiers and the patterns are ASCII, so
    another string fails its constraint in any case. *)
Definition ascii_of_text (s : ustr) : option string :=
  if forallb (λ c, (0 <=? c) && (c <? 128)) s
  then Some (String.string_of_list_ascii (byte_of <$> s)) else None.
Definition as_str (v : Json) : option string :=
  match v with JStr s => ascii_of_text s | _ => None end.

Definition or_invalid (A : Type) (o : option A) : result A :=
  match o with Some x => Ok x | None => Err validation_error end.
Arguments or_invalid {A} o.

(** [extra="forbid"]; a field without a default is required. *)
Definition fields_of (known : list string) (v : Json) : result (dict ustr Json) :=
  match v with
  | JObj d =>
      raise_if (negb (forallb (λ k, bool_decide (k ∈ ascii_text <$> known)) (dkeys d)))
        validation_error;;
      mret d
  | _ => Err validation_error
  end.
Definition field {A} (parse : Json → result A) (k : string) (d : dict ustr Json) : result A :=
  match dget (ascii_text k) d with Some v => parse v | None => Err validation_error end.
Definition field_or {A} (parse : Json → result A) (k : string) (default : A) (d : dict ustr Json) :
    result A :=
  match dget (ascii_text k) d with Some v => parse v | None => Ok default end.
Definition str_field (v : Json) : result string := or_invalid (as_str v).
Definition nullable {A} (parse : Json → result A) (v : Json) : result (option A) :=
  match v with JNull => Ok None | v => a ← parse v; mret (Some a) end.

(** [_HEX128], [_KEY_ID] (the pattern of a pepper version), [_SUBJECT_ID] *)
Definition is_hex128 : string → bool := fullmatch (replicate 128 hex_class).
Definition is_key_id : string → bool := is_pepper_version.
Definition is_subject_id (s : string) : bool := bounded (Some 1) (Some 180) (str_len s).
Definition MAX_B64_BUNDLE : Z := (16 * 1024 * 1024 + 2) / 3 * 4.
Definition is_id (cls : IdType) (s : string) : bool := fullmatch (id_pattern cls) s.
Definition at_least (lo : Z) (o : option Z) : bool :=
  match o with Some x => lo <=? x | None => true end.

Definition ZERO_DIGEST : string :=
  "0000000000000000000000000000000000000000000000000000000000000000".
Definition BLANK_SIGNATURE : string := String.append ZERO_DIGEST ZERO_DIGEST.
Definition COMMAND_DOMAIN : bytes := literal_bytes "llmmaxxing.gateway-command.v1" ++ [byte_of 0].
Definition ACK_DOMAIN : bytes := literal_bytes "llmmaxxing.gateway-ack.v1" ++ [byte_of 0].
Definition FENCE_DOMAIN : bytes := literal_bytes "llmmaxxing.fence-receipt.v1" ++ [byte_of 0].
Definition GENESIS_BASE_GENERATION : Z := 0.
Definition GENESIS_BASE_BUNDLE_HASH : string := String.append "bh_" ZERO_DIGEST.

(** ** References and the signed policy *)
Module BundleReference.
Record t := mk { generation : Z; bundle_hash : string }.
#[global] Instance eq_dec : EqDecision t.
Proof. solve_decision. Defined.
Definition fields_ok (r : t) : bool := (1 <=? generation r) && is_id BundleHash (bundle_hash r).
Definition validate (r : t) : result t := raise_if (negb (fields_ok r)) validation_error;; mret r.
Definition dump (r : t) : Json :=
  jobj [("generation", JInt (generation r)); ("bundle_hash", jstr (bundle_hash r))].
Definition model_validate `{Pydantic} (v : Json) : result t :=
  d ← fields_of ["generation"; "bundle_hash"] v;
  generation ← field (λ v, or_invalid (as_int v)) "generation" d;
  bundle_hash ← field str_field "bundle_hash" d;
  validate (mk generation bundle_hash).
End BundleReference.
Abbreviation BundleReference := BundleReference.t.
Abbreviation BaseReference := BundleReference.t.

Module ActivationEnvelope.
Record t := mk {
  trust_epoch : Z;
  signer_key_id : string;
  base_generation : Z;
  base_bundle_hash : string;
  target_generation : Z;
  target_content_hash : string;
  source_fingerprint : string;
  security_fence : string;
  key_set_fence : string;
  impact_hash : string;
}.
#[global] Instance eq_dec : EqDecision t.
Proof. solve_decision. Defined.
Definition fields_ok (e : t) : bool :=
  (1 <=? trust_epoch e) && is_key_id (signer_key_id e) && (0 <=? base_generation e) &&
  is_id BundleHash (base_bundle_hash e) && (1 <=? target_generation e) &&
  is_id BundleHash (target_content_hash e) &&
  forallb is_hex64 [source_fingerprint e; security_fence e; key_set_fence e; impact_hash e].
(** [_genesis_pair_is_exact] *)
Definition genesis_pair_is_exact (e : t) : bool :=
  Bool.eqb (base_generation e =? GENESIS_BASE_GENERATION)
           (bool_decide (base_bundle_hash e = GENESIS_BASE_BUNDLE_HASH)).
Definition validate (e : t) : result t :=
  raise_if (negb (fields_ok e)) validation_error;;
  raise_if (negb (genesis_pair_is_exact e))
    (ValueError "genesis requires the exact absent-base sentinel pair");;
  mret e.
Definition base (e : t) : option BaseReference :=
  if base_generation e =? GENESIS_BASE_GENERATION then None
  else Some (BundleReference.mk (base_generation e) (base_bundle_hash e)).
Definition target (e : t) : BundleReference :=
  BundleReference.mk (target_generation e) (target_content_hash e).
Definition dump (e : t) : Json :=
  jobj [("schema_version", JInt 1); ("trust_epoch", JInt (trust_epoch e));
    ("signer_key_id", jstr (signer_key_id e)); ("base_generation", JInt (base_generation e));
    ("base_bundle_hash", jstr (base_bundle_hash e));
    ("target_generation", JInt (target_generation e));
    ("target_content_hash", jstr (target_content_hash e));
    ("source_fingerprint", jstr (source_fingerprint e));
    ("security_fence", jstr (security_fence e)); ("key_set_fence", jstr (key_set_fence e));
    ("impact_hash", jstr (impact_hash e))].
Definition field_names : list string :=
  ["schema_version"; "trust_epoch"; "signer_key_id"; "base_generation"; "base_bundle_hash";
   "target_generation"; "target_content_hash"; "source_fingerprint"; "security_fence";
   "key_set_fence"; "impact_hash"].
(** [schema_version: Literal[1] = 1] *)
Definition literal_one (v : Json) : result unit :=
  match v with JInt 1 => Ok tt | _ => Err validation_error end.
Definition model_validate `{Pydantic} (v : Json) : result t :=
  d ← fields_of field_names v;
  field_or literal_one "schema_version" tt d;;
  let int k := field (λ v, or_invalid (as_int v)) k d in
  let str k := field str_field k d in
  trust_epoch ← int "trust_epoch"; signer_key_id ← str "signer_key_id";
  base_generation ← int "base_generation"; base_bundle_hash ← str "base_bundle_hash";
  target_generation ← int "target_generation"; target_content_hash ← str "target_content_hash";
  source_fingerprint ← str "source_fingerprint"; security_fence ← str "security_fence";
  key_set_fence ← str "key_set_fence"; impact_hash ← str "impact_hash";
  validate (mk trust_epoch signer_key_id base_generation base_bundle_hash target_generation
    target_content_hash source_fingerprint security_fence key_set_fence impact_hash).
End ActivationEnvelope.
Abbreviation ActivationEnvelope := ActivationEnvelope.t.

Module SignedActivationV1.
Record t := mk {
  payload_b64 : string;
  signature : string;
  trust_epoch : Z;
  signer_key_id : string;
}.
#[global] Instance eq_dec : EqDecision t.
Proof. solve_decision. Defined.
Definition fields_ok (p : t) : bool :=
  bounded (Some 1) (Some (16 * 1024)) (str_len (payload_b64 p)) && is_hex128 (signature p) &&
  (1 <=? trust_epoch p) && is_key_id (signer_key_id p).
Definition validate (p : t) : result t := raise_if (negb (fields_ok p)) validation_error;; mret p.
Definition dump (p : t) : Json :=
  jobj [("payload_b64", jstr (payload_b64 p)); ("signature", jstr (signature p));
    ("trust_epoch", JInt (trust_epoch p)); ("signer_key_id", jstr (signer_key_id p))].
End SignedActivationV1.
Abbreviation SignedActivationV1 := SignedActivationV1.t.

Module ChannelSealV1.
Record t := mk { seal_id : string; trust_epoch : Z; signature : string }.
#[global] Instance eq_dec : EqDecision t.
Proof. solve_decision. Defined.
Definition fields_ok (s : t) : bool :=
  is_key_id (seal_id s) && (1 <=? trust_epoch s) && is_hex128 (signature s).
Definition dump (s : t) : Json :=
  jobj [("seal_id", jstr (seal_id s)); ("trust_epoch", JInt (trust_epoch s));
    ("signature", jstr (signature s))].
(** [_blanked] of the seal *)
Definition blank (s : t) : t := mk (seal_id s) (trust_epoch s) BLANK_SIGNATURE.
End ChannelSealV1.
Abbreviation ChannelSealV1 := ChannelSealV1.t.

(** [base64.b64decode(value, validate=True)]: groups of four, padded. *)
Definition std_digit (c : ascii) : option Z :=
  if Ascii.eqb c "-" || Ascii.eqb c "_" then None else char_digit c.
Definition std_b64decode (value : string) : option bytes :=
  let cs := String.list_ascii_of_string value in
  let body := match rev cs with
    | "="%char :: "="%char :: l => rev l
    | "="%char :: l => rev l
    | _ => cs
    end in
  if negb (Nat.eqb (length cs mod 4) 0) || Nat.eqb (length body mod 4) 1 then None
  else match mapM (M := option) std_digit body ≫= undigits with
       | Some bs => Some (byte_of <$> bs)
       | None => None
       end.

(** ** Commands *)
Module WireCommandKind.
Inductive t := PREPARE | COMMIT | DENY | CLEAR_DENY | STATUS.
#[global] Instance eq_dec : EqDecision t.
Proof. solve_decision. Defined.
Definition value (k : t) : string :=
  match k with
  | PREPARE => "prepare" | COMMIT => "commit" | DENY => "deny" | CLEAR_DENY => "clear_deny"
  | STATUS => "status"
  end.
(** [_MUTATING_POLICY_KINDS] *)
Definition mutating (k : t) : bool := match k with STATUS => false | _ => true end.
End WireCommandKind.
Abbreviation WireCommandKind := WireCommandKind.t.

Module GatewayCommandV1.
Record t := mk {
  command_id : string;
  installation_id : string;
  channel_epoch : Z;
  security_epoch : Z;
  dispatcher_fence : Z;
  boot_id : string;
  sequence : Z;
  previous_digest : string;
  kind : WireCommandKind;
  issued_at_ms : Z;
  payload : dict ustr Json;
  policy : option SignedActivationV1;
  channel_seal : ChannelSealV1;
}.
Definition fields_ok (c : t) : bool :=
  is_id CommandId (command_id c) && is_id InstallationId (installation_id c) &&
  (1 <=? channel_epoch c) && (1 <=? security_epoch c) && (1 <=? dispatcher_fence c) &&
  is_id GatewayBootId (boot_id c) && (1 <=? sequence c) && is_hex64 (previous_digest c) &&
  (1 <=? issued_at_ms c) &&
  match policy c with Some p => SignedActivationV1.fields_ok p | None => true end &&
  ChannelSealV1.fields_ok (channel_seal c).
(** [_policy_presence_is_closed] *)
Definition validate (c : t) : result t :=
  raise_if (negb (fields_ok c)) validation_error;;
  raise_if (negb (Bool.eqb (WireCommandKind.mutating (kind c)) (bool_decide (is_Some (policy c)))))
    (ValueError "command kind has invalid policy signature presence");;
  mret c.
Definition dump (c : t) : Json :=
  jobj [("schema_version", JInt 1); ("command_id", jstr (command_id c));
    ("installation_id", jstr (installation_id c)); ("channel_epoch", JInt (channel_epoch c));
    ("security_epoch", JInt (security_epoch c)); ("dispatcher_fence", JInt (dispatcher_fence c));
    ("boot_id", jstr (boot_id c)); ("sequence", JInt (sequence c));
    ("previous_digest", jstr (previous_digest c));
    ("kind", jstr (WireCommandKind.value (kind c))); ("issued_at_ms", JInt (issued_at_ms c));
    ("payload", JObj (payload c)); ("policy", jopt SignedActivationV1.dump (policy c));
    ("channel_seal", ChannelSealV1.dump (channel_seal c))].
End GatewayCommandV1.
Abbreviation GatewayCommandV1 := GatewayCommandV1.t.

Module PrepareCommandPayload.
Record t := mk { base : option BaseReference; target : BundleReference; bundle_b64 : string }.
Definition fields_ok (p : t) : bool := bounded (Some 1) (Some MAX_B64_BUNDLE) (str_len (bundle_b64 p)).
Definition model_validate `{Pydantic} (v : Json) : result t :=
  d ← fields_of ["base"; "target"; "bundle_b64"] v;
  base ← field (nullable BundleReference.model_validate) "base" d;
  target ← field BundleReference.model_validate "target" d;
  bundle_b64 ← field str_field "bundle_b64" d;
  let p := mk base target bundle_b64 in
  raise_if (negb (fields_ok p)) validation_error;;
  mret p.
Definition bundle_bytes (p : t) : result bytes :=
  match std_b64decode (bundle_b64 p) with
  | Some b => Ok b
  | None => Err (ValueError "bundle is not canonical base64")
  end.
End PrepareCommandPayload.
Abbreviation PrepareCommandPayload := PrepareCommandPayload.t.

Module StatusCommandPayload.
Record t := mk { issue_auth_lease : bool }.
Definition model_validate `{Pydantic} (v : Json) : result t :=
  d ← fields_of ["issue_auth_lease"] v;
  issue_auth_lease ← field_or (λ v, or_invalid (as_bool v)) "issue_auth_lease" false d;
  mret (mk issue_auth_lease).
End StatusCommandPayload.
Abbreviation StatusCommandPayload := StatusCommandPayload.t.

(** ** Deny overlays *)
Module DenySubjectType.
Inductive t := ROUTE_GROUP | ACCOUNT | LEG.
#[global] Instance eq_dec : EqDecision t.
Proof. solve_decision. Defined.
Definition value (s : t) : string :=
  match s with ROUTE_GROUP => "route_group" | ACCOUNT => "account" | LEG => "leg" end.
Definition of_value (s : string) : result t :=
  if bool_decide (s = "route_group"%string) then Ok ROUTE_GROUP
  else if bool_decide (s = "account"%string) then Ok ACCOUNT
  else if bool_decide (s = "leg"%string) then Ok LEG
  else Err validation_error.
(** The type of the subject's identifier. *)
Definition id_type (s : t) : IdType :=
  match s with ROUTE_GROUP => RouteGroupId | ACCOUNT => AccountId | LEG => RouteLegId end.
End DenySubjectType.
Abbreviation DenySubjectType := DenySubjectType.t.

Module DenyReason.
Inductive t := EMERGENCY | MAINTENANCE | COMPROMISE | ROLLBACK_HOLD.
#[global] Instance eq_dec : EqDecision t.
Proof. solve_decision. Defined.
Definition value (s : t) : string :=
  match s with
  | EMERGENCY => "emergency" | MAINTENANCE => "maintenance" | COMPROMISE => "compromise"
  | ROLLBACK_HOLD => "rollback_hold"
  end.
Definition of_value (s : string) : result t :=
  if bool_decide (s = "emergency"%string) then Ok EMERGENCY
  else if bool_decide (s = "maintenance"%string) then Ok MAINTENANCE
  else if bool_decide (s = "compromise"%string) then Ok COMPROMISE
  else if bool_decide (s = "rollback_hold"%string) then Ok ROLLBACK_HOLD
  else Err validation_error.
End DenyReason.
Abbreviation DenyReason := DenyReason.t.

Module DenyCommandPayload.
Record t := mk {
  subject_type : DenySubjectType;
  subject_id : string;
  deny_epoch : Z;
  reason : DenyReason;
  deny_floor_generation : option Z;
}.
Definition fields_ok (p : t) : bool :=
  is_subject_id (subject_id p) && (1 <=? deny_epoch p) && at_least 1 (deny_floor_generation p).
(** [_typed_subject_id] *)
Definition validate (p : t) : result t :=
  raise_if (negb (fields_ok p)) validation_error;;
  typed_id_new (DenySubjectType.id_type (subject_type p)) (subject_id p);;
  mret p.
Definition dump (p : t) : Json :=
  jobj [("subject_type", jstr (DenySubjectType.value (subject_type p)));
    ("subject_id", jstr (subject_id p)); ("deny_epoch", JInt (deny_epoch p));
    ("reason", jstr (DenyReason.value (reason p)));
    ("deny_floor_generation", jopt JInt (deny_floor_generation p))].
Definition model_validate `{Pydantic} (v : Json) : result t :=
  d ← fields_of ["subject_type"; "subject_id"; "deny_epoch"; "reason"; "deny_floor_generation"] v;
  subject_type ← field (λ v, s ← str_field v; DenySubjectType.of_value s) "subject_type" d;
  subject_id ← field str_field "subject_id" d;
  deny_epoch ← field (λ v, or_invalid (as_int v)) "deny_epoch" d;
  reason ← field (λ v, s ← str_field v; DenyReason.of_value s) "reason" d;
  floor ← field_or (nullable (λ v, or_invalid (as_int v))) "deny_floor_generation" None d;
  validate (mk subject_type subject_id deny_epoch reason floor).
End DenyCommandPayload.
Abbreviation DenyCommandPayload := DenyCommandPayload.t.

Module ClearDenyCommandPayload.
Record t := mk { subject_type : DenySubjectType; subject_id : string; deny_epoch : Z }.
Definition fields_ok (p : t) : bool := is_subject_id (subject_id p) && (1 <=? deny_epoch p).
(** [_typed_subject_id] builds the deny payload of the same subject. *)
Definition validate (p : t) : result t :=
  raise_if (negb (fields_ok p)) validation_error;;
  DenyCommandPayload.validate (DenyCommandPayload.mk (subject_type p) (subject_id p)
    (deny_epoch p) DenyReason.MAINTENANCE None);;
  mret p.
Definition dump (p : t) : Json :=
  jobj [("subject_type", jstr (DenySubjectType.value (subject_type p)));
    ("subject_id", jstr (subject_id p)); ("deny_epoch", JInt (deny_epoch p))].
Definition model_validate `{Pydantic} (v : Json) : result t :=
  d ← fields_of ["subject_type"; "subject_id"; "deny_epoch"] v;
  subject_type ← field (λ v, s ← str_field v; DenySubjectType.of_value s) "subject_type" d;
  subject_id ← field str_field "subject_id" d;
  deny_epoch ← field (λ v, or_invalid (as_int v)) "deny_epoch" d;
  validate (mk subject_type subject_id deny_epoch).
End ClearDenyCommandPayload.
Abbreviation ClearDenyCommandPayload := ClearDenyCommandPayload.t.

Module DenyOverlayV1.
Record t := mk {
  subject_type : DenySubjectType;
  subject_id : string;
  deny_epoch : Z;
  reason : DenyReason;
  deny_floor_generation : option Z;
  heartbeat_at_ms : Z;
}.
#[global] Instance eq_dec : EqDecision t.
Proof. solve_decision. Defined.
Definition fields_ok (p : t) : bool :=
  is_subject_id (subject_id p) && (1 <=? deny_epoch p) && at_least 1 (deny_floor_generation p) &&
  (1 <=? heartbeat_at_ms p).
Definition validate (p : t) : result t := raise_if (negb (fields_ok p)) validation_error;; mret p.
Definition dump (p : t) : Json :=
  jobj [("subject_type", jstr (DenySubjectType.value (subject_type p)));
    ("subject_id", jstr (subject_id p)); ("deny_epoch", JInt (deny_epoch p));
    ("reason", jstr (DenyReason.value (reason p)));
    ("deny_floor_generation", jopt JInt (deny_floor_generation p));
    ("heartbeat_at_ms", JInt (heartbeat_at_ms p))].
End DenyOverlayV1.
Abbreviation DenyOverlayV1 := DenyOverlayV1.t.

(** ** Leases and status *)
Module AuthLeaseV1.
Record t := mk {
  lease_id : string;
  installation_id : string;
  security_epoch : Z;
  boot_id : string;
  bundle : BundleReference;
  issued_at_ms : Z;
  expires_at_ms : Z;
}.
#[global] Instance eq_dec : EqDecision t.
Proof. solve_decision. Defined.
Definition fields_ok (l : t) : bool :=
  is_id AuthLeaseId (lease_id l) && is_id InstallationId (installation_id l) &&
  (1 <=? security_epoch l) && is_id GatewayBootId (boot_id l) &&
  BundleReference.fields_ok (bundle l) && (1 <=? issued_at_ms l) && (1 <=? expires_at_ms l).
(** [_bounded_lifetime] *)
Definition validate (l : t) : result t :=
  raise_if (negb (fields_ok l)) validation_error;;
  let lifetime := expires_at_ms l - issued_at_ms l in
  raise_if ((lifetime <? 1) || (15 * 60 * 1000 <? lifetime))
    (ValueError "authorization lease exceeds 15 minutes");;
  mret l.
Definition dump (l : t) : Json :=
  jobj [("schema_version", JInt 1); ("lease_id", jstr (lease_id l));
    ("installation_id", jstr (installation_id l)); ("security_epoch", JInt (security_epoch l));
    ("boot_id", jstr (boot_id l)); ("bundle", BundleReference.dump (bundle l));
    ("issued_at_ms", JInt (issued_at_ms l)); ("expires_at_ms", JInt (expires_at_ms l))].
End AuthLeaseV1.
Abbreviation AuthLeaseV1 := AuthLeaseV1.t.

Module GatewayLifecycle.
Inductive t := NONE | PREPARED | STAGED | APPLIED | RECOVERY_REQUIRED | FENCED_OLD.
#[global] Instance eq_dec : EqDecision t.
Proof. solve_decision. Defined.
Definition value (s : t) : string :=
  match s with
  | NONE => "none" | PREPARED => "prepared" | STAGED => "staged" | APPLIED => "applied"
  | RECOVERY_REQUIRED => "recovery_required" | FENCED_OLD => "fenced_old"
  end.
End GatewayLifecycle.
Abbreviation GatewayLifecycle := GatewayLifecycle.t.

Module GatewayReadiness.
Inductive t := READY | UNREADY.
#[global] Instance eq_dec : EqDecision t.
Proof. solve_decision. Defined.
Definition value (s : t) : string := match s with READY => "ready" | UNREADY => "unready" end.
End GatewayReadiness.
Abbreviation GatewayReadiness := GatewayReadiness.t.

Module ReadinessReason.
Inductive t :=
  SINGLETON | NO_ACTIVE | RECOVERY | FENCED | DENY_STALE | AUTH_LEASE | BACKEND | CAPACITIES.
#[global] Instance eq_dec : EqDecision t.
Proof. solve_decision. Defined.
Definition value (s : t) : string :=
  match s with
  | SINGLETON => "singleton_unavailable" | NO_ACTIVE => "no_active_bundle"
  | RECOVERY => "recovery_required" | FENCED => "fenced_old" | DENY_STALE => "deny_feed_stale"
  | AUTH_LEASE => "auth_lease_invalid" | BACKEND => "backend_unready"
  | CAPACITIES => "gateway_capacities_unready"
  end.
End ReadinessReason.
Abbreviation ReadinessReason := ReadinessReason.t.

Module TakeoverState.
Inductive t := NONE | FENCED_OLD | RELEASED.
#[global] Instance eq_dec : EqDecision t.
Proof. solve_decision. Defined.
Definition value (s : t) : string :=
  match s with NONE => "none" | FENCED_OLD => "fenced_old" | RELEASED => "released" end.
Definition of_value (s : string) : result t :=
  if bool_decide (s = "none"%string) then Ok NONE
  else if bool_decide (s = "fenced_old"%string) then Ok FENCED_OLD
  else if bool_decide (s = "released"%string) then Ok RELEASED
  else Err (ValueError "is not a valid TakeoverState").
End TakeoverState.
Abbreviation TakeoverState := TakeoverState.t.

Module GatewayStatusV1.
Record t := mk {
  installation_id : string;
  channel_epoch : Z;
  security_epoch : Z;
  boot_id : string;
  singleton_held : bool;
  lifecycle : GatewayLifecycle;
  active : option BundleReference;
  staged : option BundleReference;
  previous : option BundleReference;
  base : option BaseReference;
  deny_overlay : list DenyOverlayV1;
  deny_floor_generation : option Z;
  deny_heartbeat_fresh : bool;
  auth_lease : option AuthLeaseV1;
  dispatcher_fence : Z;
  takeover_state : TakeoverState;
  readiness : GatewayReadiness;
  unready_reasons : list ReadinessReason;
}.
Definition opt_ok {A} (f : A → bool) (o : option A) : bool :=
  match o with Some x => f x | None => true end.
Definition fields_ok (s : t) : bool :=
  is_id InstallationId (installation_id s) && (1 <=? channel_epoch s) && (1 <=? security_epoch s) &&
  is_id GatewayBootId (boot_id s) &&
  forallb (opt_ok BundleReference.fields_ok) [active s; staged s; previous s; base s] &&
  forallb DenyOverlayV1.fields_ok (deny_overlay s) && at_least 1 (deny_floor_generation s) &&
  opt_ok (λ l, is_ok (AuthLeaseV1.validate l)) (auth_lease s) && (1 <=? dispatcher_fence s).
Definition validate (s : t) : result t := raise_if (negb (fields_ok s)) validation_error;; mret s.
Definition dump (s : t) : Json :=
  jobj [("schema_version", JInt 1); ("installation_id", jstr (installation_id s));
    ("channel_epoch", JInt (channel_epoch s)); ("security_epoch", JInt (security_epoch s));
    ("boot_id", jstr (boot_id s)); ("singleton_held", JBool (singleton_held s));
    ("lifecycle", jstr (GatewayLifecycle.value (lifecycle s)));
    ("active", jopt BundleReference.dump (active s)); ("staged", jopt BundleReference.dump (staged s));
    ("previous", jopt BundleReference.dump (previous s));
    ("base", jopt BundleReference.dump (base s));
    ("deny_overlay", JArr (DenyOverlayV1.dump <$> deny_overlay s));
    ("deny_floor_generation", jopt JInt (deny_floor_generation s));
    ("deny_heartbeat_fresh", JBool (deny_heartbeat_fresh s));
    ("auth_lease", jopt AuthLeaseV1.dump (auth_lease s));
    ("dispatcher_fence", JInt (dispatcher_fence s));
    ("takeover_state", jstr (TakeoverState.value (takeover_state s)));
    ("readiness", jstr (GatewayReadiness.value (readiness s)));
    ("unready_reasons", JArr ((λ r, jstr (ReadinessReason.value r)) <$> unready_reasons s))].
End GatewayStatusV1.
Abbreviation GatewayStatusV1 := GatewayStatusV1.t.

(** ** Acknowledgements and fence receipts *)
Module GatewayAckStatus.
Inductive t := PREPARED | APPLIED | DENIED | DENY_CLEARED | STATUS.
#[global] Instance eq_dec : EqDecision t.
Proof. solve_decision. Defined.
Definition value (s : t) : string :=
  match s with
  | PREPARED => "prepared" | APPLIED => "applied" | DENIED => "denied"
  | DENY_CLEARED => "deny_cleared" | STATUS => "status"
  end.
End GatewayAckStatus.
Abbreviation GatewayAckStatus := GatewayAckStatus.t.

Module GatewayAckV1.
Record t := mk {
  ack_id : string;
  command_id : string;
  command_digest : string;
  installation_id : string;
  channel_epoch : Z;
  security_epoch : Z;
  dispatcher_fence : Z;
  boot_id : string;
  sequence : Z;
  status : GatewayAckStatus;
  acknowledged_at_ms : Z;
  result : dict ustr Json;
  channel_seal : ChannelSealV1;
}.
Definition fields_ok (a : t) : bool :=
  is_id AckId (ack_id a) && is_id CommandId (command_id a) && is_hex64 (command_digest a) &&
  is_id InstallationId (installation_id a) && (1 <=? channel_epoch a) && (1 <=? security_epoch a) &&
  (1 <=? dispatcher_fence a) && is_id GatewayBootId (boot_id a) && (1 <=? sequence a) &&
  (1 <=? acknowledged_at_ms a) && ChannelSealV1.fields_ok (channel_seal a).
Definition validate (a : t) : Prelude.result t :=
  raise_if (negb (fields_ok a)) validation_error;; mret a.
Definition dump (a : t) : Json :=
  jobj [("schema_version", JInt 1); ("ack_id", jstr (ack_id a)); ("command_id", jstr (command_id a));
    ("command_digest", jstr (command_digest a)); ("installation_id", jstr (installation_id a));
    ("channel_epoch", JInt (channel_epoch a)); ("security_epoch", JInt (security_epoch a));
    ("dispatcher_fence", JInt (dispatcher_fence a)); ("boot_id", jstr (boot_id a));
    ("sequence", JInt (sequence a)); ("status", jstr (GatewayAckStatus.value (status a)));
    ("acknowledged_at_ms", JInt (acknowledged_at_ms a)); ("result", JObj (result a));
    ("channel_seal", ChannelSealV1.dump (channel_seal a))].
Definition with_seal (seal : ChannelSealV1) (a : t) : t := a{{ channel_seal := seal }}.
End GatewayAckV1.
Abbreviation GatewayAckV1 := GatewayAckV1.t.

Module FenceReceiptPayloadV1.
Record t := mk {
  old_installation_id : string;
  target_installation_id : string;
  channel_epoch : Z;
  security_epoch : Z;
  old_boot_id : string;
  credential_digest : string;
  network_digest : string;
  fence_epoch : Z;
  fenced_at_ms : Z;
}.
#[global] Instance eq_dec : EqDecision t.
Proof. solve_decision. Defined.
Definition fields_ok (p : t) : bool :=
  is_id InstallationId (old_installation_id p) && is_id InstallationId (target_installation_id p) &&
  (1 <=? channel_epoch p) && (1 <=? security_epoch p) && is_id GatewayBootId (old_boot_id p) &&
  is_hex64 (credential_digest p) && is_hex64 (network_digest p) && (1 <=? fence_epoch p) &&
  (1 <=? fenced_at_ms p).
Definition dump (p : t) : Json :=
  jobj [("schema_version", JInt 1); ("old_installation_id", jstr (old_installation_id p));
    ("target_installation_id", jstr (target_installation_id p));
    ("channel_epoch", JInt (channel_epoch p)); ("security_epoch", JInt (security_epoch p));
    ("old_boot_id", jstr (old_boot_id p)); ("credential_digest", jstr (credential_digest p));
    ("network_digest", jstr (network_digest p)); ("fence_epoch", JInt (fence_epoch p));
    ("fenced_at_ms", JInt (fenced_at_ms p))].
End FenceReceiptPayloadV1.
Abbreviation FenceReceiptPayloadV1 := FenceReceiptPayloadV1.t.

Module FenceReceiptV1.
Record t := mk { payload : FenceReceiptPayloadV1; channel_seal : ChannelSealV1 }.
#[global] Instance eq_dec : EqDecision t.
Proof. solve_decision. Defined.
Definition fields_ok (r : t) : bool :=
  FenceReceiptPayloadV1.fields_ok (payload r) && ChannelSealV1.fields_ok (channel_seal r).
Definition validate (r : t) : result t := raise_if (negb (fields_ok r)) validation_error;; mret r.
Definition dump (r : t) : Json :=
  jobj [("payload", FenceReceiptPayloadV1.dump (payload r));
    ("channel_seal", ChannelSealV1.dump (channel_seal r))].
Definition with_seal (seal : ChannelSealV1) (r : t) : t := r{{ channel_seal := seal }}.
End FenceReceiptV1.
Abbreviation FenceReceiptV1 := FenceReceiptV1.t.

(** ** Trust *)
Module ChannelSigner.
Record t `{Ed25519} := mk { seal_id : string; trust_epoch : Z; private : private_key }.
(** [__post_init__] *)
Definition validate `{Ed25519} (s : t) : result t :=
  raise_if (bool_decide (seal_id s = ""%string) || (trust_epoch s <? 1))
    (ValueError "channel signer requires an explicit key and trust epoch");;
  mret s.
End ChannelSigner.
Abbreviation ChannelSigner := ChannelSigner.t.

Module ChannelTrustSet.
Record t `{Ed25519} := mk {
  installation_id : string;
  security_epoch : Z;
  channel_epochs : dict Z (dict Z (dict string public_key));
}.
(** [__post_init__]: the mappings are copied. *)
Definition validate `{Ed25519} (s : t) : result t :=
  raise_if ((security_epoch s <? 1) || bool_decide (length (channel_epochs s) = 0%nat))
    (ValueError "channel trust must be explicitly injected");;
  fold_result (λ _ p,
    raise_if ((p.1 <? 1) || bool_decide (length p.2 = 0%nat))
      (ValueError "channel trust contains an empty epoch");;
    fold_result (λ _ q, raise_if ((q.1 <? 1) || bool_decide (length q.2 = 0%nat))
      (ValueError "channel trust contains an empty trust epoch")) tt p.2) tt (channel_epochs s);;
  mret s.
End ChannelTrustSet.
Abbreviation ChannelTrustSet := ChannelTrustSet.t.

Module VerifiedGatewayCommand.
Record t := mk {
  command : GatewayCommandV1;
  command_digest : string;
  policy : option ActivationEnvelope;
}.
End VerifiedGatewayCommand.
Abbreviation VerifiedGatewayCommand := VerifiedGatewayCommand.t.

(** ** Signing and verification *)
Section Signatures.
Context `{Ed25519} `{Pydantic}.
Context (sha256 : bytes → bytes).
(** [json.loads] *)
Context (loads : bytes → result Json).

(** [key.verify(bytes.fromhex(signature), message)], with the exceptions of both
    turned into [SignatureVerificationError]. *)
Definition check_signature (key : public_key) (signature : string) (message : result bytes)
    (msg : string) : result unit :=
  match fromhex signature with
  | Err _ => Err (SignatureVerificationError msg)
  | Ok s =>
      match message with
      | Ok m => if verify key s m then Ok tt else Err (SignatureVerificationError msg)
      | Err e => if is_value_error e then Err (SignatureVerificationError msg) else Err e
      end
  end.

Definition command_blanked (c : GatewayCommandV1) : Json :=
  GatewayCommandV1.dump
    (c{{ GatewayCommandV1.channel_seal ::= ChannelSealV1.blank }}).
Definition gateway_command_signing_bytes (c : GatewayCommandV1) : result bytes :=
  b ← canonical_json_bytes (command_blanked c); mret (COMMAND_DOMAIN ++ b).
Definition seal_gateway_command (c : GatewayCommandV1) (k : private_key) : result GatewayCommandV1 :=
  m ← gateway_command_signing_bytes c;
  GatewayCommandV1.validate (c{{ GatewayCommandV1.channel_seal ::=
    λ s, s{{ ChannelSealV1.signature := hex (sign k m) }} }}).
Definition gateway_command_digest (c : GatewayCommandV1) : result string :=
  payload ← canonical_json_bytes (GatewayCommandV1.dump c);
  mret (hex (sha256 (COMMAND_DOMAIN ++ payload))).

(** [SignedActivationV1.payload_bytes] *)
Definition payload_bytes (p : SignedActivationV1) : result bytes :=
  match std_b64decode (SignedActivationV1.payload_b64 p) with
  | Some b => Ok b
  | None => Err (SignatureVerificationError "invalid policy payload encoding")
  end.
(** [except (UnicodeDecodeError, JSONDecodeError, ValidationError, TypeError)]: of what
    [json.loads] raises, the three named (not the [ValueError] of an integer too long),
    and of what the model's validation raises, any [ValidationError], which the models
    write as a [ValueError]. *)
Definition undecodable (e : exn) : bool :=
  match e with UnicodeDecodeError | JSONDecodeError | TypeError _ => true | _ => false end.
Definition decode_envelope (payload : bytes) : result ActivationEnvelope :=
  match loads payload with
  | Err e => Err (if undecodable e then SignatureVerificationError "invalid activation payload" else e)
  | Ok decoded =>
      match ActivationEnvelope.model_validate decoded with
      | Err e => Err (if is_value_error e || undecodable e
                      then SignatureVerificationError "invalid activation payload" else e)
      | Ok envelope => Ok envelope
      end
  end.
(** ... and the check that the payload is the canonical document of the envelope. *)
Definition parse_canonical (payload : bytes) : result ActivationEnvelope :=
  envelope ← decode_envelope payload;
  canonical ← canonical_json_bytes (ActivationEnvelope.dump envelope);
  raise_if (negb (bool_decide (canonical = payload)))
    (SignatureVerificationError "activation payload is not canonical JSON");;
  mret envelope.
Definition parse_activation (p : SignedActivationV1) : result ActivationEnvelope :=
  payload ← payload_bytes p;
  envelope ← parse_canonical payload;
  raise_if (negb (SignedActivationV1.trust_epoch p =? ActivationEnvelope.trust_epoch envelope))
    UnknownTrustEpoch;;
  raise_if (negb (bool_decide (SignedActivationV1.signer_key_id p =
                               ActivationEnvelope.signer_key_id envelope))) UnknownSigningKey;;
  mret envelope.

Definition verify_signed_activation (p : SignedActivationV1)
    (policy_keys : dict Z (dict string public_key)) : result ActivationEnvelope :=
  envelope ← parse_activation p;
  match dget (ActivationEnvelope.trust_epoch envelope) policy_keys with
  | None => Err UnknownTrustEpoch
  | Some epoch =>
      match dget (ActivationEnvelope.signer_key_id envelope) epoch with
      | None => Err UnknownSigningKey
      | Some key =>
          check_signature key (SignedActivationV1.signature p) (payload_bytes p)
            "invalid activation signature";;
          mret envelope
      end
  end.

Definition channel_key (seal : ChannelSealV1) (channel_epoch : Z) (trust : ChannelTrustSet) :
    result public_key :=
  match dget channel_epoch (ChannelTrustSet.channel_epochs trust) with
  | None => Err UnknownChannelEpoch
  | Some channel =>
      match dget (ChannelSealV1.trust_epoch seal) channel with
      | None => Err UnknownTrustEpoch
      | Some epoch =>
          match dget (ChannelSealV1.seal_id seal) epoch with
          | None => Err UnknownChannelKey
          | Some key => Ok key
          end
      end
  end.

Definition authenticate_gateway_command (command : GatewayCommandV1)
    (policy_keys : dict Z (dict string public_key)) (trust : ChannelTrustSet) :
    result VerifiedGatewayCommand :=
  raise_if (negb (bool_decide (GatewayCommandV1.installation_id command =
                               ChannelTrustSet.installation_id trust)))
    CommandInstallationMismatch;;
  key ← channel_key (GatewayCommandV1.channel_seal command)
          (GatewayCommandV1.channel_epoch command) trust;
  check_signature key (ChannelSealV1.signature (GatewayCommandV1.channel_seal command))
    (gateway_command_signing_bytes command) "invalid channel signature";;
  policy ← match GatewayCommandV1.policy command with
    | None => mret None
    | Some p => e ← verify_signed_activation p policy_keys; mret (Some e)
    end;
  digest ← gateway_command_digest command;
  mret (VerifiedGatewayCommand.mk command digest policy).

Definition verify_gateway_command (command : GatewayCommandV1)
    (policy_keys : dict Z (dict string public_key)) (trust : ChannelTrustSet)
    (expected_boot_id : string) (expected_fence_epoch : Z) : result VerifiedGatewayCommand :=
  verified ← authenticate_gateway_command command policy_keys trust;
  raise_if (negb (bool_decide (GatewayCommandV1.boot_id command = expected_boot_id)))
    CommandBootMismatch;;
  raise_if (negb (GatewayCommandV1.security_epoch command =? ChannelTrustSet.security_epoch trust))
    StaleSecurityEpoch;;
  raise_if (negb (GatewayCommandV1.dispatcher_fence command =? expected_fence_epoch))
    StaleFenceEpoch;;
  mret verified.

(** [_seal_model] *)
Definition unsigned_seal (signer : ChannelSigner) : ChannelSealV1 :=
  ChannelSealV1.mk (ChannelSigner.seal_id signer) (ChannelSigner.trust_epoch signer) BLANK_SIGNATURE.
Definition signed_seal (signer : ChannelSigner) (message : bytes) : ChannelSealV1 :=
  ChannelSealV1.mk (ChannelSigner.seal_id signer) (ChannelSigner.trust_epoch signer)
    (hex (sign (ChannelSigner.private signer) message)).
Definition ack_signing_bytes (a : GatewayAckV1) : result bytes :=
  b ← canonical_json_bytes (GatewayAckV1.dump
        (a{{ GatewayAckV1.channel_seal ::= ChannelSealV1.blank }}));
  mret (ACK_DOMAIN ++ b).
Definition seal_gateway_ack (a : GatewayAckV1) (signer : ChannelSigner) : result GatewayAckV1 :=
  unsigned ← GatewayAckV1.validate (GatewayAckV1.with_seal (unsigned_seal signer) a);
  m ← ack_signing_bytes unsigned;
  GatewayAckV1.validate (GatewayAckV1.with_seal (signed_seal signer m) a).

Definition verify_gateway_ack (a : GatewayAckV1) (trust : ChannelTrustSet)
    (command : GatewayCommandV1) : result GatewayAckV1 :=
  raise_if (negb (bool_decide (GatewayAckV1.installation_id a = ChannelTrustSet.installation_id trust)))
    CommandInstallationMismatch;;
  raise_if (negb (GatewayAckV1.security_epoch a =? ChannelTrustSet.security_epoch trust))
    StaleSecurityEpoch;;
  digest ← gateway_command_digest command;
  raise_if (negb (bool_decide (GatewayAckV1.command_id a = GatewayCommandV1.command_id command)) ||
            negb (bool_decide (GatewayAckV1.command_digest a = digest)) ||
            negb (GatewayAckV1.channel_epoch a =? GatewayCommandV1.channel_epoch command) ||
            negb (bool_decide (GatewayAckV1.boot_id a = GatewayCommandV1.boot_id command)) ||
            negb (GatewayAckV1.sequence a =? GatewayCommandV1.sequence command))
    (SignatureVerificationError "acknowledgement does not bind the exact command");;
  key ← channel_key (GatewayAckV1.channel_seal a) (GatewayAckV1.channel_epoch a) trust;
  check_signature key (ChannelSealV1.signature (GatewayAckV1.channel_seal a)) (ack_signing_bytes a)
    "invalid acknowledgement signature";;
  mret a.

Definition fence_signing_bytes (r : FenceReceiptV1) : result bytes :=
  b ← canonical_json_bytes (FenceReceiptV1.dump
        (r{{ FenceReceiptV1.channel_seal ::= ChannelSealV1.blank }}));
  mret (FENCE_DOMAIN ++ b).
Definition seal_fence_receipt (r : FenceReceiptV1) (signer : ChannelSigner) : result FenceReceiptV1 :=
  unsigned ← FenceReceiptV1.validate (FenceReceiptV1.with_seal (unsigned_seal signer) r);
  m ← fence_signing_bytes unsigned;
  FenceReceiptV1.validate (FenceReceiptV1.with_seal (signed_seal signer m) r).

Definition verify_fence_receipt (r : FenceReceiptV1) (trust : ChannelTrustSet)
    (target_installation_id : string) (minimum_fence_epoch : Z) : result FenceReceiptPayloadV1 :=
  let payload := FenceReceiptV1.payload r in
  raise_if (negb (bool_decide (FenceReceiptPayloadV1.target_installation_id payload =
                               target_installation_id))) CommandInstallationMismatch;;
  raise_if (FenceReceiptPayloadV1.fence_epoch payload <=? minimum_fence_epoch) StaleFenceEpoch;;
  raise_if (negb (FenceReceiptPayloadV1.security_epoch payload =? ChannelTrustSet.security_epoch trust))
    StaleSecurityEpoch;;
  key ← channel_key (FenceReceiptV1.channel_seal r) (FenceReceiptPayloadV1.channel_epoch payload) trust;
  check_signature key (ChannelSealV1.signature (FenceReceiptV1.channel_seal r)) (fence_signing_bytes r)
    "invalid fence receipt signature";;
  mret payload.
End Signatures.
