(* ===== verification/GatewayState.v ===== *)
(** * The gateway's local state

    [gateway/activation.py], [GatewayLocalState]: a SQLite database whose rows
    carry checksums, the directory of content-addressed bundle files, the active
    pointer file, and the values the process keeps of them.

    The durable part is [db], [files] and [pointer_file]; a transaction gives the
    database back as it was when its body raises.  A column that holds JSON text
    holds the document, whose canonical text is what the code writes there.
    [crash] is the injector the code calls at its crash points: it may raise at
    any of them.  Disk and SQLite failures of the operating system are not
    modelled, except what reads back damaged.  Clock readings, minted identifiers
    and holds of the activation gate are numbered by counters of the state. *)
From S2P Require Export Wire Auth CanonicalFacts.
From Stdlib Require Import Ascii.

(** Pydantic's and [json]'s part in reading and writing a bundle; the validators
    are [PolicyBundleV1.validate]. *)
Class BundleCodec := {
  read_bundle : bytes → result PolicyBundleV1;
  write_bundle : PolicyBundleV1 → Json;
}.
Definition bundle_bytes_of `{BundleCodec} (b : PolicyBundleV1) : result bytes :=
  canonical_bundle_bytes (λ b, v ← PolicyBundleV1.validate b; mret (write_bundle v)) b.
(** [except ValueError as error: raise ValueError(msg)] *)
Definition as_value_error {A} (msg : string) (r : result A) : result A :=
  match r with
  | Err e => if is_value_error e then Err (ValueError msg) else Err e
  | r => r
  end.

Module BundleLimits.
Record t := mk {
  max_bundle_bytes : Z;
  max_keys : Z;
  max_policies : Z;
  max_accounts : Z;
  max_route_groups : Z;
  max_legs : Z;
  max_authorized_legs : Z;
  max_command_records : Z;
  max_auth_leases : Z;
}.
Definition default : t :=
  mk (16 * 1024 * 1024) 100000 100000 4096 100000 100000 1000000 100000 128.
Definition fields_ok (l : t) : bool :=
  bounded (Some 1) (Some (16 * 1024 * 1024)) (max_bundle_bytes l) &&
  bounded (Some 1) (Some 100000) (max_keys l) && bounded (Some 1) (Some 100000) (max_policies l) &&
  bounded (Some 1) (Some 4096) (max_accounts l) &&
  bounded (Some 1) (Some 100000) (max_route_groups l) &&
  bounded (Some 1) (Some 100000) (max_legs l) &&
  bounded (Some 1) (Some 1000000) (max_authorized_legs l) &&
  bounded (Some 16) (Some 1000000) (max_command_records l) &&
  bounded (Some 1) (Some 10000) (max_auth_leases l).
End BundleLimits.
Abbreviation BundleLimits := BundleLimits.t.

Definition SCHEMA_VERSION : Z := 1.
Definition DENY_FRESH_MS : Z := 10000.
Definition AUTH_LEASE_MS : Z := 15 * 60 * 1000.

(** [str(n)], [int(text)] *)
Definition str_of_int (n : Z) : string := String.string_of_list_ascii (str_int n).
Fixpoint read_digits (acc : Z) (cs : list ascii) : option Z :=
  match cs with
  | [] => Some acc
  | c :: cs => if in_range "0" "9" c then read_digits (10 * acc + (byte_value c - 48)) cs else None
  end.
Definition int_of_str (s : string) : result Z :=
  let invalid := Err (ValueError "invalid literal for int() with base 10") in
  match String.list_ascii_of_string s with
  | [] | ["-"%char] => invalid
  | "-"%char :: cs => match read_digits 0 cs with Some n => Ok (- n) | None => invalid end
  | cs => match read_digits 0 cs with Some n => Ok n | None => invalid end
  end.

(** [canonical_json_bytes(value).decode()] *)
Fixpoint decode_utf8 (l : list Z) : option ustr :=
  match l with
  | [] => Some []
  | a :: l =>
      if a <? 0x80 then s ← decode_utf8 l; Some (a :: s)
      else if a <? 0xE0 then
        match l with
        | b :: l => s ← decode_utf8 l; Some ((a - 0xC0) * 64 + (b - 0x80) :: s)
        | _ => None
        end
      else if a <? 0xF0 then
        match l with
        | b :: c :: l => s ← decode_utf8 l;
            Some ((a - 0xE0) * 4096 + (b - 0x80) * 64 + (c - 0x80) :: s)
        | _ => None
        end
      else
        match l with
        | b :: c :: d :: l => s ← decode_utf8 l;
            Some ((a - 0xF0) * 262144 + (b - 0x80) * 4096 + (c - 0x80) * 64 + (d - 0x80) :: s)
        | _ => None
        end
  end.
Definition canonical_text (v : Json) : result ustr :=
  b ← canonical_json_bytes v;
  match decode_utf8 (byte_value <$> b) with
  | Some s => Ok s
  | None => Err (ValueError "invalid utf-8")
  end.

(** ** Equality of documents: Python's [==] *)
Definition number_of (v : Json) : option (bool * FloatRepr) :=
  match v with
  | JBool b => numeral (JInt (if b then 1 else 0))
  | v => numeral v
  end.
Definition numbers_eq (p q : bool * FloatRepr) : bool :=
  (mantissa p.2 * 10 ^ Z.max 0 (scale p.2 - scale q.2) =?
   mantissa q.2 * 10 ^ Z.max 0 (scale q.2 - scale p.2)) &&
  ((mantissa p.2 =? 0) || Bool.eqb p.1 q.1).
Definition forallb2 {A B} (f : A → B → bool) : list A → list B → bool :=
  fix go l1 l2 := match l1, l2 with
    | [], [] => true
    | x :: l1, y :: l2 => f x y && go l1 l2
    | _, _ => false
    end.
Fixpoint py_eq (v w : Json) : bool :=
  match v, w with
  | JNull, JNull => true
  | JStr s, JStr t => bool_decide (s = t)
  | JArr l, JArr m => forallb2 py_eq l m
  | JObj d, JObj e => Nat.eqb (length d) (length e) &&
      forallb (λ p : ustr * Json, let (k, v) := p in
        match dget k e with Some w => py_eq v w | None => false end) d
  | v, w => match number_of v, number_of w with
            | Some p, Some q => numbers_eq p q
            | _, _ => false
            end
  end.
(** [ack == other] *)
Definition same_ack (a b : GatewayAckV1) : bool :=
  bool_decide (GatewayAckV1.ack_id a = GatewayAckV1.ack_id b) &&
  bool_decide (GatewayAckV1.command_id a = GatewayAckV1.command_id b) &&
  bool_decide (GatewayAckV1.command_digest a = GatewayAckV1.command_digest b) &&
  bool_decide (GatewayAckV1.installation_id a = GatewayAckV1.installation_id b) &&
  (GatewayAckV1.channel_epoch a =? GatewayAckV1.channel_epoch b) &&
  (GatewayAckV1.security_epoch a =? GatewayAckV1.security_epoch b) &&
  (GatewayAckV1.dispatcher_fence a =? GatewayAckV1.dispatcher_fence b) &&
  bool_decide (GatewayAckV1.boot_id a = GatewayAckV1.boot_id b) &&
  (GatewayAckV1.sequence a =? GatewayAckV1.sequence b) &&
  bool_decide (GatewayAckV1.status a = GatewayAckV1.status b) &&
  (GatewayAckV1.acknowledged_at_ms a =? GatewayAckV1.acknowledged_at_ms b) &&
  py_eq (JObj (GatewayAckV1.result a)) (JObj (GatewayAckV1.result b)) &&
  bool_decide (GatewayAckV1.channel_seal a = GatewayAckV1.channel_seal b).

(** ** The database *)
Module Tables.
Record PointerRow := PRow { p_generation : Z; p_bundle_hash : string; p_checksum : string }.
Record BundleRow := BRow { b_generation : Z; b_size : Z; b_checksum : string }.
Record CommandRow := CRow {
  digest : string;
  channel_epoch : Z;
  sequence : Z;
  ack_id : string;
  status : GatewayAckStatus;
  result : dict ustr Json;
  ack : option GatewayAckV1;
  c_checksum : string;
}.
Record ChainRow := HRow { h_sequence : Z; h_digest : string; h_checksum : string }.
Record DenyRow := DRow {
  d_epoch : Z;
  d_reason : DenyReason;
  d_floor : option Z;
  d_heartbeat : Z;
  d_checksum : string;
}.
Record HighwaterRow := WRow { w_epoch : Z; w_floor : option Z; w_checksum : string }.
Record LeaseRow := LRow { l_lease : AuthLeaseV1; l_checksum : string }.
Record ReceiptRow := RRow { r_receipt : FenceReceiptV1; r_checksum : string }.

(** Rows in the order SQLite scans them: the order of insertion. *)
Record t := mk {
  meta : dict string (string * string);
  bundles : dict string BundleRow;
  pointers : dict string PointerRow;
  commands : dict string CommandRow;
  channel_state : dict Z ChainRow;
  denies : dict (DenySubjectType * string) DenyRow;
  auth_leases : dict string LeaseRow;
  fence_receipts : dict string ReceiptRow;
  deny_highwater : dict (DenySubjectType * string) HighwaterRow;
}.
Definition empty : t := mk [] [] [] [] [] [] [] [] [].
End Tables.
Abbreviation Tables := Tables.t.

(** [_CommandRecord] *)
Module CommandRecord.
Record t := mk {
  command_id : string;
  digest : string;
  ack_id : string;
  status : GatewayAckStatus;
  result : dict ustr Json;
  ack : option GatewayAckV1;
}.
End CommandRecord.
Abbreviation CommandRecord := CommandRecord.t.

Definition subject : Type := DenySubjectType * string.

Module GatewayLocalState.
Record t := mk {
  (* the arguments of the constructor *)
  installation_id : string;
  boot_id : string;
  channel_epoch : Z;
  security_epoch : Z;
  accepted_peppers : dict string bytes;
  limits : BundleLimits;
  (* what the process keeps *)
  connected : bool;
  active : option BundleReference;
  staged : option BundleReference;
  previous : option BundleReference;
  base : option BaseReference;
  active_bundle : option PolicyBundleV1;
  recovery_reason : string;
  denies : dict subject DenyOverlayV1;
  deny_highwater : dict subject (Z * option Z);
  deny_heartbeat_ms : Z;
  recovery_required : bool;
  takeover_state : TakeoverState;
  fence_epoch : Z;
  clock_reads : nat;
  minted : nat;
  gates : nat;
  (* the disk *)
  db : Tables;
  files : dict string bytes;
  pointer_file : option bytes;
  quarantined : list (string * bytes);
}.

(** [__init__], on what the disk holds. *)
Definition init (installation_id boot_id : string) (channel_epoch security_epoch : Z)
    (accepted_peppers : dict string bytes) (limits : BundleLimits)
    (db : Tables) (files : dict string bytes) (pointer_file : option bytes)
    (quarantined : list (string * bytes)) : result t :=
  raise_if ((channel_epoch <? 1) || (security_epoch <? 1))
    (ValueError "channel and security epochs must be positive");;
  raise_if (bool_decide (length accepted_peppers = 0%nat))
    (ValueError "client-key pepper trust must be injected");;
  mret (mk installation_id boot_id channel_epoch security_epoch accepted_peppers limits
    false None None None None None "" [] [] 0 false TakeoverState.NONE 1 0 0 0
    db files pointer_file quarantined).

(** [lifecycle] *)
Definition lifecycle (s : t) : GatewayLifecycle :=
  if recovery_required s then GatewayLifecycle.RECOVERY_REQUIRED
  else if bool_decide (takeover_state s = TakeoverState.FENCED_OLD) then GatewayLifecycle.FENCED_OLD
  else if bool_decide (is_Some (staged s)) then GatewayLifecycle.STAGED
  else if bool_decide (is_Some (active s)) then GatewayLifecycle.APPLIED
  else GatewayLifecycle.NONE.

(** [deny_floor_generation] *)
Definition floors (d : dict subject (Z * option Z)) : list Z := omap snd (dvalues d).
Definition max_of (l : list Z) : option Z :=
  match l with [] => None | x :: l => Some (foldl Z.max x l) end.
Definition deny_floor_generation (s : t) : option Z := max_of (floors (deny_highwater s)).

Definition heartbeat_fresh (now : Z) (s : t) : bool :=
  (0 <=? now - deny_heartbeat_ms s) && (now - deny_heartbeat_ms s <=? DENY_FRESH_MS).
(** [deny_all], at the clock's reading *)
Definition deny_all_at (now : Z) (s : t) : bool :=
  recovery_required s || bool_decide (takeover_state s = TakeoverState.FENCED_OLD) ||
  negb (heartbeat_fresh now s).
End GatewayLocalState.
Abbreviation GatewayLocalState := GatewayLocalState.t.
