(* ===== verification/GatewayOps.v ===== *)
(** * The operations of the gateway's local state

    [gateway/activation.py], the methods of [GatewayLocalState]. *)
From S2P Require Export GatewayState.
From Stdlib Require Import Ascii.
#[local] Open Scope Z_scope.

Module LocalState.
Import GatewayLocalState.

Section Ops.
Context `{BundleCodec}.
Context (sha256 : bytes → bytes).
Context (clock : nat → Z) (mint : nat → string).
Context (crash : string → result unit).

(** [_checksum] *)
Definition checksum (table : string) (value : Json) : result string :=
  b ← canonical_json_bytes value;
  mret (hex (sha256 (literal_bytes "llmmaxxing.gateway-state.v1" ++ [byte_of 0] ++
                     literal_bytes table ++ [byte_of 0] ++ b))).
Definition check_checksum (table : string) (value : Json) (found msg : string) : result unit :=
  expected ← checksum table value;
  raise_if (negb (bool_decide (found = expected))) (ValueError msg).

Definition now_ms : M t Z :=
  s ← get; modify (λ s, s{{ clock_reads ::= S }});; mret (clock (clock_reads s)).
Definition mint_id (cls : IdType) : M t string :=
  s ← get; modify (λ s, s{{ minted ::= S }});; lift (id_new cls (mint (minted s))).
Definition crash_at (point : string) : M t unit := lift (crash point).
Definition update_db (f : Tables → Tables) : M t unit := modify (λ s, s{{ db ::= f }}).

(** [transaction]: [BEGIN IMMEDIATE], then [COMMIT], or [ROLLBACK] and raise. *)
Definition transaction {A} (body : M t A) : M t A := λ s,
  match body s with
  | (s', Err e) => (s'{{ db := db s }}, Err e)
  | done => done
  end.

(** ** Meta *)
Definition meta_doc (key value : string) : Json := jobj [("key", jstr key); ("value", jstr value)].
Definition read_meta (key : string) (s : t) : result (option string) :=
  match dget key (Tables.meta (db s)) with
  | None => mret None
  | Some (value, found) =>
      check_checksum "meta" (meta_doc key value) found "corrupt Gateway meta";;
      mret (Some value)
  end.
Definition set_meta (key value : string) : M t unit :=
  c ← lift (checksum "meta" (meta_doc key value));
  update_db (λ d, d{{ Tables.meta ::= dset key (value, c) }}).
(** [self._meta(key) or default], where an empty text is false *)
Definition meta_or (default key : string) (s : t) : result string :=
  v ← read_meta key s;
  mret (match v with None | Some ""%string => default | Some v => v end).

Definition identity (s : t) : list (string * string) :=
  [("schema_version"%string, str_of_int SCHEMA_VERSION);
   ("installation_id"%string, installation_id s);
   ("channel_epoch"%string, str_of_int (channel_epoch s));
   ("security_epoch"%string, str_of_int (security_epoch s))].
(** [any(self._meta(key) != value ...)] *)
Fixpoint meta_differs (expected : list (string * string)) (s : t) : result bool :=
  match expected with
  | [] => mret false
  | (key, value) :: l =>
      v ← read_meta key s;
      if bool_decide (v = Some value) then meta_differs l s else mret true
  end.

Definition create_identity : M t unit :=
  s ← get;
  for_each (λ p, set_meta p.1 p.2)
    (identity s ++ [("fence_epoch"%string, "1"%string);
                    ("takeover_state"%string, TakeoverState.value TakeoverState.NONE);
                    ("deny_heartbeat_ms"%string, "0"%string); ("recovery_reason"%string, ""%string)]).
(** [_load_identity] *)
Definition load_identity : M t unit :=
  transaction (
    schema ← reads (read_meta "schema_version");
    match schema with
    | None => create_identity
    | Some schema =>
        version ← lift (int_of_str schema);
        lift (raise_if (negb (version =? SCHEMA_VERSION))
          (RuntimeError "unsupported Gateway state schema"));;
        s ← get;
        differs ← reads (meta_differs (drop 1 (identity s)));
        lift (raise_if differs (RuntimeError "Gateway state identity/epoch mismatch"))
    end;;
    epoch ← reads (λ s, v ← meta_or "1" "fence_epoch" s; int_of_str v);
    modify (λ s, s{{ fence_epoch := epoch }});;
    takeover ← reads (λ s, v ← meta_or "none" "takeover_state" s; TakeoverState.of_value v);
    modify (λ s, s{{ takeover_state := takeover }});;
    heartbeat ← reads (λ s, v ← meta_or "0" "deny_heartbeat_ms" s; int_of_str v);
    modify (λ s, s{{ deny_heartbeat_ms := heartbeat }});;
    reason ← reads (meta_or "" "recovery_reason");
    modify (λ s, s{{ recovery_reason := reason;
                     recovery_required := negb (bool_decide (reason = ""%string)) }})).

(** [enter_recovery_required] *)
Definition enter_recovery_required (reason : string) : M t unit :=
  lift (raise_if (bool_decide (reason = ""%string)) (ValueError "recovery reason is required"));;
  modify (λ s, s{{ recovery_reason := reason; recovery_required := true }});;
  transaction (set_meta "recovery_reason" reason).
(** [confirm_live_bundle] *)
Definition confirm_live_bundle (reference : BundleReference) : M t unit :=
  s ← get;
  lift (raise_if (negb (bool_decide (recovery_reason s = "live_swap_failed"%string)) ||
                  negb (bool_decide (active s = Some reference)) ||
                  negb (bool_decide (is_Some (active_bundle s))))
    (ValueError "live bundle cannot clear recovery state"));;
  transaction (set_meta "recovery_reason" "");;
  modify (λ s, s{{ recovery_reason := ""%string; recovery_required := false }}).

(** ** Pointers *)
Definition pointer_doc (name : string) (r : BundleReference) : Json :=
  jobj [("name", jstr name); ("generation", JInt (BundleReference.generation r));
    ("bundle_hash", jstr (BundleReference.bundle_hash r))].
(** [_put_pointer] *)
Definition put_pointer (name : string) (r : option BundleReference) : M t unit :=
  match r with
  | None => update_db (λ d, d{{ Tables.pointers ::= ddel name }})
  | Some r =>
      c ← lift (checksum "pointers" (pointer_doc name r));
      update_db (λ d, d{{ Tables.pointers ::= dset name
        (Tables.PRow (BundleReference.generation r) (BundleReference.bundle_hash r) c) }})
  end.
(** [_read_pointer] *)
Definition read_pointer (name : string) (s : t) : result (option BundleReference) :=
  match dget name (Tables.pointers (db s)) with
  | None => mret None
  | Some (Tables.PRow generation bundle_hash found) =>
      let r := BundleReference.mk generation bundle_hash in
      check_checksum "pointers" (pointer_doc name r) found "corrupt bundle pointer";;
      r ← BundleReference.validate r; mret (Some r)
  end.

(** ** Bundle files *)
(** [_bounded_read] of a file of the directory *)
Definition bounded_read (file : option bytes) (limit : Z) : result bytes :=
  match file with
  | None => Err (OSError "No such file or directory")
  | Some payload =>
      raise_if (limit <? Z.of_nat (length payload))
        (ValueError "stored file exceeds its bounded read limit");;
      mret payload
  end.
(** [load_bundle] *)
Definition load_bundle (expected : string) (s : t) : result PolicyBundleV1 :=
  payload ← bounded_read (dget expected (files s)) (BundleLimits.max_bundle_bytes (limits s));
  h ← bundle_hash sha256 payload;
  raise_if (negb (bool_decide (h = expected))) (ValueError "stored bundle is corrupt");;
  bundle ← as_value_error "stored bundle is invalid" (read_bundle payload ≫= PolicyBundleV1.validate);
  canonical ← bundle_bytes_of bundle;
  raise_if (negb (bool_decide (canonical = payload))) (ValueError "stored bundle is not canonical");;
  mret bundle.
(** [store_bundle] *)
Definition store_bundle (payload : bytes) (expected : string) : M t unit :=
  s ← get;
  lift (raise_if (BundleLimits.max_bundle_bytes (limits s) <? Z.of_nat (length payload))
    (ValueError "bundle size exceeds the configured limit"));;
  h ← lift (bundle_hash sha256 payload);
  lift (raise_if (negb (bool_decide (h = expected)))
    (ValueError "bundle content hash differs from target"));;
  match dget expected (files s) with
  | Some _ =>
      found ← lift (bounded_read (dget expected (files s)) (BundleLimits.max_bundle_bytes (limits s)));
      lift (raise_if (negb (bool_decide (found = payload)))
        (ValueError "content-addressed path contains different bytes"))
  | None =>
      crash_at "bundle_after_write";;
      crash_at "bundle_after_fsync";;
      modify (λ s, s{{ files ::= dset expected payload }});;
      crash_at "bundle_after_rename";;
      crash_at "bundle_after_dir_fsync"
  end.
(** [_quarantine_bundle] *)
Definition quarantine_bundle (h : string) : M t unit :=
  modify (λ s, match dget h (files s) with
               | None => s
               | Some b => s{{ files ::= ddel h; quarantined ::= cons (h, b) }}
               end).
(** [_write_active_pointer]: the rename is the effect. *)
Definition write_active_pointer (payload : bytes) (inject : bool) : M t unit :=
  let crash_at p := if inject then crash_at p else mret tt in
  crash_at "active_pointer_after_write"%string;;
  crash_at "active_pointer_after_fsync"%string;;
  modify (λ s, s{{ pointer_file := Some payload }});;
  crash_at "active_pointer_after_rename"%string;;
  crash_at "active_pointer_after_dir_fsync"%string.
(** [_reconcile_pointer] *)
Definition reconcile_pointer : M t unit :=
  s ← get;
  match active s with
  | None => modify (λ s, s{{ pointer_file := None }})
  | Some r =>
      expected ← lift (canonical_json_bytes (BundleReference.dump r));
      actual ← lift (match pointer_file s with
                     | None => mret []
                     | Some b => bounded_read (Some b) 4096
                     end);
      if bool_decide (actual = expected) then mret tt else write_active_pointer expected false
  end.

(** ** Denies *)
Definition deny_doc (k : subject) (r : Tables.DenyRow) : Json :=
  jobj [("subject_type", jstr (DenySubjectType.value k.1)); ("subject_id", jstr k.2);
    ("deny_epoch", JInt (Tables.d_epoch r)); ("reason", jstr (DenyReason.value (Tables.d_reason r)));
    ("floor_generation", jopt JInt (Tables.d_floor r));
    ("heartbeat_at_ms", JInt (Tables.d_heartbeat r))].
Definition highwater_doc (k : subject) (epoch : Z) (floor : option Z) : Json :=
  jobj [("subject_type", jstr (DenySubjectType.value k.1)); ("subject_id", jstr k.2);
    ("deny_epoch", JInt epoch); ("floor_generation", jopt JInt floor)].
Definition overlay_of (k : subject) (r : Tables.DenyRow) : DenyOverlayV1 :=
  DenyOverlayV1.mk k.1 k.2 (Tables.d_epoch r) (Tables.d_reason r) (Tables.d_floor r)
    (Tables.d_heartbeat r).
Definition load_deny (loaded : dict subject DenyOverlayV1) (p : subject * Tables.DenyRow) :
    result (dict subject DenyOverlayV1) :=
  check_checksum "denies" (deny_doc p.1 p.2) (Tables.d_checksum p.2) "corrupt deny overlay";;
  overlay ← DenyOverlayV1.validate (overlay_of p.1 p.2);
  mret (dset p.1 overlay loaded).
(** [_load_denies] *)
Definition load_denies : M t unit :=
  loaded ← reads (λ s, fold_result load_deny [] (Tables.denies (db s)));
  modify (λ s, s{{ denies := loaded }}).
Definition load_highwater (loaded : dict subject (Z * option Z)) (p : subject * Tables.HighwaterRow) :
    result (dict subject (Z * option Z)) :=
  let '(k, Tables.WRow epoch floor found) := p in
  check_checksum "deny_highwater" (highwater_doc k epoch floor) found "corrupt deny high-water";;
  mret (dset k (epoch, floor) loaded).
(** [_load_deny_highwater] *)
Definition load_deny_highwater : M t unit :=
  loaded ← reads (λ s, fold_result load_highwater [] (Tables.deny_highwater (db s)));
  modify (λ s, s{{ deny_highwater := loaded }}).
Definition put_highwater (k : subject) (epoch : Z) (floor : option Z) : M t unit :=
  c ← lift (checksum "deny_highwater" (highwater_doc k epoch floor));
  update_db (λ d, d{{ Tables.deny_highwater ::= dset k (Tables.WRow epoch floor c) }}).
(** [_backfill_deny_highwater]: [INSERT OR IGNORE] *)
Definition backfill_deny_highwater : M t unit :=
  s ← get;
  for_each (λ p,
      let '(k, o) := p in
      c ← lift (checksum "deny_highwater" (highwater_doc k (DenyOverlayV1.deny_epoch o)
                                             (DenyOverlayV1.deny_floor_generation o)));
      update_db (λ d, if dmem k (Tables.deny_highwater d) then d
        else d{{ Tables.deny_highwater ::= dset k (Tables.WRow (DenyOverlayV1.deny_epoch o)
                   (DenyOverlayV1.deny_floor_generation o) c) }}))
    (denies s).
Definition put_deny (k : subject) (r : DenyOverlayV1) : M t unit :=
  let row c := Tables.DRow (DenyOverlayV1.deny_epoch r) (DenyOverlayV1.reason r)
    (DenyOverlayV1.deny_floor_generation r) (DenyOverlayV1.heartbeat_at_ms r) c in
  c ← lift (checksum "denies" (deny_doc k (row ""%string)));
  update_db (λ d, d{{ Tables.denies ::= dset k (row c) }}).

(** ** Commands *)
Definition command_doc (id : string) (r : Tables.CommandRow) : result Json :=
  result_json ← canonical_text (JObj (Tables.result r));
  ack_json ← match Tables.ack r with
    | None => mret JNull
    | Some a => text ← canonical_text (GatewayAckV1.dump a); mret (JStr text)
    end;
  mret (jobj [("command_id", jstr id); ("digest", jstr (Tables.digest r));
    ("channel_epoch", JInt (Tables.channel_epoch r)); ("sequence", JInt (Tables.sequence r));
    ("ack_id", jstr (Tables.ack_id r)); ("status", jstr (GatewayAckStatus.value (Tables.status r)));
    ("result_json", JStr result_json); ("ack_json", ack_json)]).
Definition command_checksum (id : string) (r : Tables.CommandRow) : result string :=
  doc ← command_doc id r; checksum "commands" doc.
(** [_decode_command] *)
Definition decode_command (id : string) (r : Tables.CommandRow) : result CommandRecord :=
  expected ← command_checksum id r;
  raise_if (negb (bool_decide (Tables.c_checksum r = expected))) (ValueError "corrupt command row");;
  ack ← match Tables.ack r with
    | None => mret None
    | Some a => a ← GatewayAckV1.validate a; mret (Some a)
    end;
  command_id ← typed_id_new CommandId id;
  ack_id ← typed_id_new AckId (Tables.ack_id r);
  mret (CommandRecord.mk command_id (Tables.digest r) ack_id (Tables.status r) (Tables.result r) ack).
(** [_quarantine_corrupt_commands] *)
Definition corrupt_commands (s : t) : result (list string) :=
  fold_result (λ corrupt p,
    match decode_command p.1 p.2 with
    | Ok _ => mret corrupt
    | Err e => if is_value_error e then mret (corrupt ++ [p.1]) else Err e
    end) [] (Tables.commands (db s)).
Definition quarantine_corrupt_commands : M t unit :=
  corrupt ← reads corrupt_commands;
  if bool_decide (corrupt = []) then mret tt
  else transaction (for_each (λ id, update_db (λ d, d{{ Tables.commands ::= ddel id }})) corrupt).

Definition chain_doc (epoch sequence : Z) (digest : string) : Json :=
  jobj [("channel_epoch", JInt epoch); ("sequence", JInt sequence); ("digest", jstr digest)].
(** The sequence and the previous digest that the next command must have. *)
Definition next_in_chain (epoch : Z) (s : t) : result (Z * string) :=
  match dget epoch (Tables.channel_state (db s)) with
  | None => mret (1, ZERO_DIGEST)
  | Some (Tables.HRow sequence digest found) =>
      check_checksum "channel_state" (chain_doc epoch sequence digest) found "corrupt command chain";;
      mret (sequence + 1, digest)
  end.
(** [validate_new_command] *)
Definition validate_new_command (v : VerifiedGatewayCommand) (s : t) : result (option CommandRecord) :=
  let c := VerifiedGatewayCommand.command v in
  match dget (GatewayCommandV1.command_id c) (Tables.commands (db s)) with
  | Some row =>
      record ← decode_command (GatewayCommandV1.command_id c) row;
      raise_if (negb (bool_decide (CommandRecord.digest record = VerifiedGatewayCommand.command_digest v)))
        DuplicateCommand;;
      mret (Some record)
  | None =>
      next ← next_in_chain (GatewayCommandV1.channel_epoch c) s;
      raise_if (negb (GatewayCommandV1.sequence c =? next.1) ||
                negb (bool_decide (GatewayCommandV1.previous_digest c = next.2))) CommandChainGap;;
      mret None
  end.
(** [ack_for] *)
Definition ack_for (command_id : string) (s : t) : result (option GatewayAckV1) :=
  match dget command_id (Tables.commands (db s)) with
  | None => mret None
  | Some row => record ← decode_command command_id row; mret (CommandRecord.ack record)
  end.

(** The acknowledged commands, oldest first: [ORDER BY channel_epoch,sequence]. *)
Definition command_age (p : string * Tables.CommandRow) : Z * Z :=
  (Tables.channel_epoch p.2, Tables.sequence p.2).
Definition acknowledged (d : dict string Tables.CommandRow) : list (string * Tables.CommandRow) :=
  sorted_by command_age (pair_leb Z.leb Z.leb)
    (List.filter (λ p, bool_decide (is_Some (Tables.ack p.2))) d).
Definition delete_all {V} (ids : list string) (d : dict string V) : dict string V :=
  List.filter (λ p, negb (bool_decide (p.1 ∈ ids))) d.
(** [_reserve_command_record] *)
Definition reserve_command_record : M t unit :=
  s ← get;
  let commands := Tables.commands (db s) in
  let maximum := BundleLimits.max_command_records (limits s) in
  let excess := Z.of_nat (length commands) - maximum + 1 in
  if excess <=? 0 then mret tt
  else
    let gone := (take (Z.to_nat excess) (acknowledged commands)).*1 in
    update_db (λ d, d{{ Tables.commands ::= delete_all gone }});;
    s ← get;
    lift (raise_if (maximum <=? Z.of_nat (length (Tables.commands (db s))))
      (RuntimeError "command dedupe retention is full")).
(** [_record_pending] *)
Definition insert_command (id : string) (r : Tables.CommandRow) : M t unit :=
  s ← get;
  let taken p := (Tables.channel_epoch p.2 =? Tables.channel_epoch r) &&
                 (Tables.sequence p.2 =? Tables.sequence r) in
  lift (raise_if (dmem id (Tables.commands (db s)) || existsb taken (Tables.commands (db s)))
    (DatabaseError "UNIQUE constraint failed"));;
  update_db (λ d, d{{ Tables.commands ::= dset id r }}).
Definition record_pending (v : VerifiedGatewayCommand) (ack_id : string) (status : GatewayAckStatus)
    (result : dict ustr Json) : M t unit :=
  existing ← reads (validate_new_command v);
  match existing with
  | Some _ => raise DuplicateCommand
  | None =>
      reserve_command_record;;
      let c := VerifiedGatewayCommand.command v in
      let id := GatewayCommandV1.command_id c in
      let digest := VerifiedGatewayCommand.command_digest v in
      let epoch := GatewayCommandV1.channel_epoch c in
      let sequence := GatewayCommandV1.sequence c in
      let row := Tables.CRow digest epoch sequence ack_id status result None in
      checksum_c ← lift (command_checksum id (row ""%string));
      insert_command id (row checksum_c);;
      checksum_h ← lift (checksum "channel_state" (chain_doc epoch sequence digest));
      update_db (λ d, d{{ Tables.channel_state ::=
        dset epoch (Tables.HRow sequence digest checksum_h) }})
  end.
(** [record_command] *)
Definition record_command (v : VerifiedGatewayCommand) (ack_id : string) (status : GatewayAckStatus)
    (result : dict ustr Json) : M t unit :=
  transaction (record_pending v ack_id status result).

(** [push_ack] *)
Definition push_ack (a : GatewayAckV1) : M t unit :=
  let id := GatewayAckV1.command_id a in
  already ← transaction (
    s ← get;
    match dget id (Tables.commands (db s)) with
    | None => raise (ValueError "unknown command acknowledgement")
    | Some row =>
        record ← lift (decode_command id row);
        lift (raise_if (negb (bool_decide (CommandRecord.digest record = GatewayAckV1.command_digest a)) ||
                        negb (bool_decide (CommandRecord.ack_id record = GatewayAckV1.ack_id a)))
          (ValueError "ack differs from pending command"));;
        match CommandRecord.ack record with
        | Some old =>
            lift (raise_if (negb (same_ack old a)) (ValueError "different ACK already exists"));;
            mret true
        | None =>
            let row := row{{ Tables.ack := Some a }} in
            c ← lift (command_checksum id row);
            update_db (λ d, d{{ Tables.commands ::= dset id (row{{ Tables.c_checksum := c }}) }});;
            mret false
        end
    end);
  if already : bool then mret tt else crash_at "ack_after_commit".

(** ** References *)
Definition active_base (s : t) : option BaseReference := active s.
(** [validate_prepare_reference] *)
Definition validate_prepare_reference (base_ : option BaseReference) (r : BundleReference) (s : t) :
    result unit :=
  raise_if (negb (bool_decide (active s = base_))) (ValueError "activation base differs from active bundle");;
  raise_if (bool_decide (is_Some (staged s))) (ValueError "another activation is staged");;
  raise_if (match deny_floor_generation s with
            | Some floor => BundleReference.generation r <=? floor | None => false end)
    (ValueError "target generation does not exceed deny floor");;
  raise_if (match base_ with
            | Some b => BundleReference.generation r <=? BundleReference.generation b
            | None => false end)
    (ValueError "target generation must increase").
(** [validate_commit_reference] *)
Definition validate_commit_reference (target : BundleReference) (s : t) : result unit :=
  raise_if (negb (bool_decide (staged s = Some target)))
    (ValueError "commit target differs from staged bundle");;
  raise_if (match deny_floor_generation s with
            | Some floor => BundleReference.generation target <=? floor | None => false end)
    (ValueError "commit target does not exceed deny floor");;
  raise_if (negb (bool_decide (base s = active s)))
    (ValueError "staged base differs from current active bundle").

Definition bundle_doc (r : BundleReference) (size : Z) : Json :=
  jobj [("bundle_hash", jstr (BundleReference.bundle_hash r));
    ("generation", JInt (BundleReference.generation r)); ("size", JInt size)].
(** [stage_prepare] *)
Definition stage_prepare (v : VerifiedGatewayCommand) (bundle : PolicyBundleV1) (r : BundleReference)
    (base_ : option BaseReference) (ack_id : string) (result : dict ustr Json) : M t unit :=
  reads (validate_prepare_reference base_ r);;
  crash_at "staged_before_commit";;
  transaction (
    payload ← lift (bundle_bytes_of bundle);
    let size := Z.of_nat (length payload) in
    c ← lift (checksum "bundles" (bundle_doc r size));
    let h := BundleReference.bundle_hash r in
    update_db (λ d, if dmem h (Tables.bundles d) then d
      else d{{ Tables.bundles ::= dset h (Tables.BRow (BundleReference.generation r) size c) }});;
    put_pointer "staged" (Some r);;
    put_pointer "base" base_;;
    record_pending v ack_id GatewayAckStatus.PREPARED result);;
  modify (λ s, s{{ staged := Some r; base := base_ }});;
  crash_at "staged_after_commit".
(** [commit_staged] *)
Definition commit_staged (v : VerifiedGatewayCommand) (target : BundleReference) (ack_id : string)
    (result : dict ustr Json) : M t PolicyBundleV1 :=
  reads (validate_commit_reference target);;
  bundle ← reads (load_bundle (BundleReference.bundle_hash target));
  pointer ← lift (canonical_json_bytes (BundleReference.dump target));
  write_active_pointer pointer true;;
  transaction (
    s ← get;
    put_pointer "previous" (active s);;
    put_pointer "active" (Some target);;
    put_pointer "staged" None;;
    put_pointer "base" None;;
    record_pending v ack_id GatewayAckStatus.APPLIED result);;
  modify (λ s, s{{ previous := active s; active := Some target; active_bundle := Some bundle;
                   staged := None; base := None }});;
  crash_at "active_after_commit";;
  mret bundle.
(** [apply_genesis] *)
Definition apply_genesis (v : VerifiedGatewayCommand) (target : BundleReference) (ack_id : string)
    (result : dict ustr Json) : M t PolicyBundleV1 :=
  s ← get;
  lift (raise_if (bool_decide (is_Some (active s)) || bool_decide (is_Some (base s)))
    (ValueError "genesis requires no active record and an absent base"));;
  commit_staged v target ack_id result.

(** ** The deny feed *)
Definition database_or_value_error (e : exn) : bool :=
  match e with DatabaseError _ => true | e => is_value_error e end.
(** [except (sqlite3.DatabaseError, ValueError): self._recovery_required = True; raise] *)
Definition or_recovery {A} (m : M t A) : M t A :=
  catch database_or_value_error m
    (λ e, modify (λ s, s{{ recovery_required := true }});; raise e).
(** [_verify_deny_store] *)
Definition verify_deny_store : M t unit := or_recovery (load_denies;; load_deny_highwater).
Definition floor_contracts (old new : option Z) : bool :=
  match old with
  | None => false
  | Some o => match new with None => true | Some n => n <? o end
  end.
(** [issue_deny] *)
Definition issue_deny (v : VerifiedGatewayCommand) (payload : DenyCommandPayload) (ack_id : string)
    (result : dict ustr Json) : M t unit :=
  let k : subject := (DenyCommandPayload.subject_type payload, DenyCommandPayload.subject_id payload) in
  let epoch := DenyCommandPayload.deny_epoch payload in
  let floor := DenyCommandPayload.deny_floor_generation payload in
  verify_deny_store;;
  s ← get;
  let highwater := dget k (deny_highwater s) in
  lift (raise_if (match highwater with Some h => epoch <=? h.1 | None => false end)
    (ValueError "deny epoch must strictly increase"));;
  lift (raise_if (match highwater with Some h => floor_contracts h.2 floor | None => false end)
    (ValueError "deny floor cannot contract"));;
  now ← now_ms;
  overlay ← lift (DenyOverlayV1.validate (DenyOverlayV1.mk k.1 k.2 epoch
    (DenyCommandPayload.reason payload) floor now));
  crash_at "deny_before_commit";;
  transaction (
    put_deny k overlay;;
    put_highwater k epoch floor;;
    set_meta "deny_heartbeat_ms" (str_of_int now);;
    record_pending v ack_id GatewayAckStatus.DENIED result);;
  modify (λ s, s{{ denies ::= dset k overlay; deny_heartbeat_ms := now;
                   deny_highwater ::= dset k (epoch, floor) }});;
  crash_at "deny_after_commit".
(** [clear_deny] *)
Definition clear_deny (v : VerifiedGatewayCommand) (payload : ClearDenyCommandPayload) (ack_id : string)
    (result : dict ustr Json) : M t unit :=
  let k : subject := (ClearDenyCommandPayload.subject_type payload,
                      ClearDenyCommandPayload.subject_id payload) in
  verify_deny_store;;
  s ← get;
  lift (raise_if (match dget k (denies s) with
                  | None => true
                  | Some o => negb (DenyOverlayV1.deny_epoch o =? ClearDenyCommandPayload.deny_epoch payload)
                  end) (ValueError "clear-deny requires exact current epoch"));;
  now ← now_ms;
  transaction (
    update_db (λ d, d{{ Tables.denies ::= ddel k }});;
    set_meta "deny_heartbeat_ms" (str_of_int now);;
    record_pending v ack_id GatewayAckStatus.DENY_CLEARED result);;
  modify (λ s, s{{ denies ::= ddel k; deny_heartbeat_ms := now }}).
(** [_renew_deny_rows] *)
Definition renew_deny_rows (now : Z) : M t (dict subject DenyOverlayV1) :=
  load_denies;;
  load_deny_highwater;;
  s ← get;
  let updated := (λ p, (p.1, p.2{{ DenyOverlayV1.heartbeat_at_ms := now }})) <$> denies s in
  for_each (λ p, put_deny p.1 p.2) updated;;
  set_meta "deny_heartbeat_ms" (str_of_int now);;
  mret updated.
(** [renew_deny_heartbeats] *)
Definition renew_deny_heartbeats (now : option Z) : M t unit :=
  now ← match now with None => now_ms | Some n => mret n end;
  lift (raise_if (now <? 1) (ValueError "heartbeat time must be positive"));;
  updated ← or_recovery (transaction (renew_deny_rows now));
  modify (λ s, s{{ denies := updated; deny_heartbeat_ms := now }}).

(** [deny_all] *)
Definition deny_all : M t bool :=
  s ← get;
  if recovery_required s || bool_decide (takeover_state s = TakeoverState.FENCED_OLD) then mret true
  else now ← now_ms; mret (negb (heartbeat_fresh now s)).
(** [permits]: the group of the active bundle that has the leg, when the caller
    names none. *)
Definition group_of_leg (leg_id : string) (b : PolicyBundleV1) : option string :=
  RouteGroupRevision.route_group_id <$> List.find (λ g,
    existsb (λ l, bool_decide (RouteLeg.leg_id l = leg_id)) (RouteGroupRevision.legs g))
    (PolicyBundleV1.route_groups b).
Definition denied_subjects (leg : AuthorizedLeg) (group : string) : list subject :=
  [(DenySubjectType.ACCOUNT, AuthorizedLeg.account_id leg);
   (DenySubjectType.LEG, AuthorizedLeg.leg_id leg); (DenySubjectType.ROUTE_GROUP, group)].
Definition permits (leg : AuthorizedLeg) (route_group_id : option string) : M t bool :=
  s ← get;
  let group := match route_group_id with
    | Some g => Some g
    | None => active_bundle s ≫= group_of_leg (AuthorizedLeg.leg_id leg)
    end in
  match group with
  | None => mret false
  | Some group =>
      all ← deny_all;
      if all : bool then mret false
      else mret (negb (existsb (λ k, dmem k (denies s)) (denied_subjects leg group)))
  end.

(** ** Authorization leases *)
(** [_prune_auth_leases] *)
Definition stale_lease (now : Z) (s : t) (l : AuthLeaseV1) : bool :=
  negb (is_ok (AuthLeaseV1.validate l)) || (AuthLeaseV1.expires_at_ms l <=? now) ||
  negb (bool_decide (AuthLeaseV1.boot_id l = boot_id s)).
Definition prune_auth_leases (now : Z) : M t unit :=
  s ← get;
  let remove := (List.filter (λ p, stale_lease now s (Tables.l_lease p.2)) (Tables.auth_leases (db s))).*1 in
  update_db (λ d, d{{ Tables.auth_leases ::= delete_all remove }});;
  update_db (λ d,
    let excess := Z.of_nat (length (Tables.auth_leases d)) - BundleLimits.max_auth_leases (limits s) + 1 in
    if 0 <? excess
    then d{{ Tables.auth_leases ::= delete_all (take (Z.to_nat excess) (dkeys (Tables.auth_leases d))) }}
    else d).
(** [issue_auth_lease] *)
Definition issue_auth_lease (now : Z) : M t AuthLeaseV1 :=
  s ← get;
  match active s with
  | None => raise (RuntimeError "healthy active state is required for auth lease")
  | Some bundle =>
      all ← deny_all;
      lift (raise_if all (RuntimeError "healthy active state is required for auth lease"));;
      lease_id ← mint_id AuthLeaseId;
      lease ← lift (AuthLeaseV1.validate (AuthLeaseV1.mk lease_id (installation_id s)
        (security_epoch s) (boot_id s) bundle now (now + AUTH_LEASE_MS)));
      c ← lift (checksum "auth_leases" (AuthLeaseV1.dump lease));
      s ← get;
      lift (raise_if (dmem lease_id (Tables.auth_leases (db s)))
        (DatabaseError "UNIQUE constraint failed"));;
      update_db (λ d, d{{ Tables.auth_leases ::= dset lease_id (Tables.LRow lease c) }});;
      mret lease
  end.
(** [_current_lease]: the newest that holds. *)
Definition usable_lease (now : Z) (s : t) (r : Tables.LeaseRow) : result bool :=
  let l := Tables.l_lease r in
  expected ← checksum "auth_leases" (AuthLeaseV1.dump l);
  mret (bool_decide (Tables.l_checksum r = expected) && is_ok (AuthLeaseV1.validate l) &&
        bool_decide (Some (AuthLeaseV1.bundle l) = active s) &&
        (AuthLeaseV1.security_epoch l =? security_epoch s) &&
        (AuthLeaseV1.issued_at_ms l <=? now) && (now <? AuthLeaseV1.expires_at_ms l) &&
        bool_decide (AuthLeaseV1.boot_id l = boot_id s)).
Fixpoint first_usable (now : Z) (s : t) (rows : list Tables.LeaseRow) : option AuthLeaseV1 :=
  match rows with
  | [] => None
  | r :: rows =>
      match usable_lease now s r with
      | Ok true => Some (Tables.l_lease r)
      | _ => first_usable now s rows
      end
  end.
Definition current_lease (now : Z) (s : t) : option AuthLeaseV1 :=
  if bool_decide (active s = None) then None
  else first_usable now s (rev (dvalues (Tables.auth_leases (db s)))).

(** ** Status *)
(** [_status_unlocked] *)
Definition overlay_key (o : DenyOverlayV1) : string * string :=
  (DenySubjectType.value (DenyOverlayV1.subject_type o), DenyOverlayV1.subject_id o).
Definition unready (singleton_held backend_ready capacities_ready fresh : bool)
    (lease : option AuthLeaseV1) (s : t) : list ReadinessReason :=
  (if singleton_held then [] else [ReadinessReason.SINGLETON]) ++
  (if recovery_required s then [ReadinessReason.RECOVERY]
   else if bool_decide (takeover_state s = TakeoverState.FENCED_OLD) then [ReadinessReason.FENCED]
   else if bool_decide (active s = None) then [ReadinessReason.NO_ACTIVE] else []) ++
  (if fresh then [] else [ReadinessReason.DENY_STALE]) ++
  (if bool_decide (is_Some lease) then [] else [ReadinessReason.AUTH_LEASE]) ++
  (if backend_ready then [] else [ReadinessReason.BACKEND]) ++
  (if capacities_ready then [] else [ReadinessReason.CAPACITIES]).
Definition status (singleton_held backend_ready capacities_ready : bool) (now : Z) (s : t) :
    result GatewayStatusV1 :=
  let fresh := heartbeat_fresh now s && negb (recovery_required s) in
  let lease := current_lease now s in
  let reasons := unready singleton_held backend_ready capacities_ready fresh lease s in
  GatewayStatusV1.validate (GatewayStatusV1.mk (installation_id s) (channel_epoch s) (security_epoch s)
    (boot_id s) singleton_held (lifecycle s) (active s) (staged s) (previous s) (base s)
    (sorted_by overlay_key (pair_leb str_leb str_leb) (dvalues (denies s)))
    (deny_floor_generation s) fresh lease (fence_epoch s) (takeover_state s)
    (match reasons with [] => GatewayReadiness.READY | _ => GatewayReadiness.UNREADY end) reasons).
(** [record_status] *)
Definition record_status (v : VerifiedGatewayCommand) (ack_id : string) (issue_lease : bool)
    (result_factory : M t (dict ustr Json)) : M t unit :=
  now ← now_ms;
  s ← get;
  let old_denies := denies s in
  let old_heartbeat := deny_heartbeat_ms s in
  on_error (
    transaction (
      updated ← renew_deny_rows now;
      modify (λ s, s{{ denies := updated; deny_heartbeat_ms := now }});;
      prune_auth_leases now;;
      (if issue_lease then issue_auth_lease now;; mret tt else mret tt);;
      crash_at "status_after_heartbeat";;
      result ← result_factory;
      record_pending v ack_id GatewayAckStatus.STATUS result))
    (modify (λ s, s{{ denies := old_denies; deny_heartbeat_ms := old_heartbeat }})).
(** [current_auth_view] *)
Definition current_auth_view : M t AuthRuntimeView :=
  s ← get;
  match active_bundle s, active s with
  | Some bundle, Some r =>
      let keys := dict_of ((λ k, (ClientKeyRecord.key_id k, k)) <$> PolicyBundleV1.keys bundle) in
      all ← deny_all;
      index ← lift (build_legacy_key_index (PolicyBundleV1.keys bundle));
      now ← now_ms;
      mret (AuthRuntimeView.mk keys (BundleReference.generation r) (BundleReference.bundle_hash r)
        (if all : bool then dkeys keys else []) (accepted_peppers s) index (now / 1000))
  | _, _ => raise (RuntimeError "no verified active auth state")
  end.

(** ** Fences *)
Definition receipt_digest (r : FenceReceiptV1) : result string :=
  b ← canonical_json_bytes (FenceReceiptV1.dump r); mret (hex (sha256 b)).
(** [_store_receipt]: [INSERT OR IGNORE] *)
Definition store_receipt (r : FenceReceiptV1) : M t unit :=
  digest ← lift (receipt_digest r);
  c ← lift (checksum "fence_receipts" (FenceReceiptV1.dump r));
  update_db (λ d, if dmem digest (Tables.fence_receipts d) then d
    else d{{ Tables.fence_receipts ::= dset digest (Tables.RRow r c) }}).
(** [record_old_fence] *)
Definition record_old_fence (r : FenceReceiptV1) : M t unit :=
  s ← get;
  let p := FenceReceiptV1.payload r in
  let epoch := FenceReceiptPayloadV1.fence_epoch p in
  lift (raise_if (negb (bool_decide (FenceReceiptPayloadV1.old_installation_id p = installation_id s)))
    (ValueError "fence receipt does not name this old installation"));;
  lift (raise_if (epoch <=? fence_epoch s) (ValueError "fence epoch must strictly advance"));;
  transaction (
    store_receipt r;;
    set_meta "fence_epoch" (str_of_int epoch);;
    set_meta "takeover_state" (TakeoverState.value TakeoverState.FENCED_OLD));;
  modify (λ s, s{{ fence_epoch := epoch; takeover_state := TakeoverState.FENCED_OLD }});;
  crash_at "old_fence_after_commit".
(** [record_fence_receipt] *)
Definition record_fence_receipt (r : FenceReceiptV1) : M t unit := transaction (store_receipt r).
(** [accept_takeover]: two transactions *)
Definition accept_takeover (r : FenceReceiptV1) : M t unit :=
  s ← get;
  let p := FenceReceiptV1.payload r in
  let epoch := FenceReceiptPayloadV1.fence_epoch p in
  lift (raise_if (negb (bool_decide (FenceReceiptPayloadV1.target_installation_id p = installation_id s)))
    (ValueError "fence receipt targets another installation"));;
  lift (raise_if (epoch <=? fence_epoch s)
    (ValueError "fence receipt does not advance dispatcher fence"));;
  transaction (
    store_receipt r;;
    set_meta "takeover_state" (TakeoverState.value TakeoverState.FENCED_OLD));;
  modify (λ s, s{{ takeover_state := TakeoverState.FENCED_OLD }});;
  crash_at "takeover_after_receipt";;
  transaction (
    set_meta "fence_epoch" (str_of_int epoch);;
    set_meta "takeover_state" (TakeoverState.value TakeoverState.RELEASED));;
  modify (λ s, s{{ fence_epoch := epoch; takeover_state := TakeoverState.RELEASED }});;
  crash_at "takeover_after_advance".
(** [fence_receipts] *)
Definition fence_receipts (s : t) : result (list FenceReceiptV1) :=
  fold_result (λ receipts p,
    check_checksum "fence_receipts" (FenceReceiptV1.dump (Tables.r_receipt p.2))
      (Tables.r_checksum p.2) "corrupt fence receipt";;
    r ← FenceReceiptV1.validate (Tables.r_receipt p.2);
    mret (receipts ++ [r])) [] (sorted_by fst str_leb (Tables.fence_receipts (db s))).

(** ** Garbage *)
(** [gc_bundles]: a file whose name is no hash is left alone. *)
Definition retained (s : t) : list string :=
  (BundleReference.bundle_hash <$> omap id [active s; staged s; previous s]) ++
  match deny_floor_generation s with
  | None => []
  | Some floor =>
      (List.filter (λ p, Tables.b_generation p.2 =? floor) (Tables.bundles (db s))).*1
  end.
Definition gc_bundles : M t unit :=
  modify (λ s, s{{ files ::= List.filter (λ p,
    negb (is_id BundleHash p.1) || bool_decide (p.1 ∈ retained s)) }}).

(** ** Opening *)
(** The staged bundle of [_recover]: an unreadable one is set aside. *)
Definition os_or_value_error (e : exn) : bool :=
  match e with OSError _ => true | e => is_value_error e end.
Definition recover_staged : M t unit :=
  s ← get;
  match staged s with
  | None => mret tt
  | Some r =>
      catch os_or_value_error
        (bundle ← reads (load_bundle (BundleReference.bundle_hash r));
         lift (raise_if (negb (PolicyBundleV1.generation bundle =? BundleReference.generation r))
           (ValueError "staged generation mismatch")))
        (λ _,
          quarantine_bundle (BundleReference.bundle_hash r);;
          transaction (put_pointer "staged" None;; put_pointer "base" None);;
          modify (λ s, s{{ staged := None; base := None }}))
  end.
Definition recover_active : M t unit :=
  s ← get;
  match active s with
  | None => mret tt
  | Some r =>
      bundle ← reads (load_bundle (BundleReference.bundle_hash r));
      modify (λ s, s{{ active_bundle := Some bundle }});;
      lift (raise_if (negb (PolicyBundleV1.generation bundle =? BundleReference.generation r))
        (ValueError "active generation mismatch"))
  end.
Definition recover_body : M t unit :=
  p ← reads (read_pointer "previous"); modify (λ s, s{{ previous := p }});;
  p ← reads (read_pointer "active"); modify (λ s, s{{ active := p }});;
  p ← reads (read_pointer "staged"); modify (λ s, s{{ staged := p }});;
  p ← reads (read_pointer "base"); modify (λ s, s{{ base := p }});;
  s ← get;
  match previous s with
  | None => mret tt
  | Some r => reads (load_bundle (BundleReference.bundle_hash r));; mret tt
  end;;
  recover_active;;
  recover_staged;;
  load_denies;;
  transaction backfill_deny_highwater;;
  load_deny_highwater;;
  quarantine_corrupt_commands;;
  reconcile_pointer.
Definition recovery_error (e : exn) : bool :=
  match e with OSError _ | DatabaseError _ => true | e => is_value_error e end.
(** [_recover] *)
Definition recover : M t unit :=
  catch recovery_error recover_body
    (λ _, modify (λ s, s{{ active := None; active_bundle := None; recovery_required := true }})).
(** [open]: a second call on an open connection does nothing. *)
Definition open : M t unit :=
  s ← get;
  if connected s then mret tt
  else
    modify (λ s, s{{ connected := true }});;
    load_identity;;
    recover;;
    modify (λ s, s{{ deny_heartbeat_ms := 0 }}).
End Ops.
End LocalState.
