(* ===== verification/Activation.v ===== *)
(** * The activation service

    [gateway/activation.py]: [TakeoverCoordinator], [ActivationGenerationGate] and
    [ActivationService].

    The command lock serializes [execute].  The dispatcher gate is shared with the
    dispatch and with the takeovers: [meanwhile n] is what its other holders did
    to the state before the [n]-th hold was granted.  [cancelled] says at which
    awaits the caller's task is cancelled: the durable step completes, and
    [CancelledError] is raised after it. *)
From S2P Require Export GatewayOps.
From Stdlib Require Import Ascii.
#[local] Open Scope Z_scope.

Module Activation.
Import GatewayLocalState LocalState.

Section Service.
Context `{Ed25519} `{Pydantic} `{BundleCodec}.
Context (sha256 : bytes → bytes) (loads : bytes → result Json).
Context (clock : nat → Z) (mint : nat → string).
Context (crash : string → result unit).

(** What the other holders of the gate do. *)
Inductive holder :=
| Heartbeat (now : option Z)
| OldFence (receipt : FenceReceiptV1)
| Takeover (receipt : FenceReceiptV1).
Definition hold (h : holder) : M t unit :=
  match h with
  | Heartbeat now => renew_deny_heartbeats sha256 clock now
  | OldFence r => record_old_fence sha256 crash r
  | Takeover r => accept_takeover sha256 crash r
  end.
(** A holder that raises leaves its state to the next one. *)
Definition held (h : holder) : M t unit := λ s, ((hold h s).1, Ok tt).
Context (meanwhile : nat → list holder).
Context (cancelled : string → bool).
(** [async with dispatcher_gate.hold_activation()] *)
Definition hold_activation : M t unit :=
  s ← get;
  modify (λ s, s{{ gates ::= S }});;
  for_each held (meanwhile (gates s)).
(** [if cancelled: raise asyncio.CancelledError] *)
Definition check_cancelled (site : string) : M t unit :=
  lift (raise_if (cancelled site) CancelledError).

(** ** Takeover *)
Context (signer : ChannelSigner).
(** [TakeoverCoordinator.fence_old] *)
Definition fence_old (old_trust : ChannelTrustSet) (target_installation_id credential_digest
    network_digest : string) (fenced_at_ms : Z) : M t FenceReceiptV1 :=
  hold_activation;;
  s ← get;
  unsigned ← lift (FenceReceiptV1.validate (FenceReceiptV1.mk
    (FenceReceiptPayloadV1.mk (installation_id s) target_installation_id (channel_epoch s)
      (security_epoch s) (boot_id s) credential_digest network_digest (fence_epoch s + 1) fenced_at_ms)
    (unsigned_seal signer)));
  receipt ← lift (seal_fence_receipt unsigned signer);
  lift (verify_fence_receipt receipt old_trust target_installation_id (fence_epoch s));;
  record_old_fence sha256 crash receipt;;
  check_cancelled "fence_old";;
  mret receipt.
(** [TakeoverCoordinator.accept] *)
Definition accept (old_trust : ChannelTrustSet) (receipt : FenceReceiptV1) : M t unit :=
  lift (raise_if (negb (bool_decide (FenceReceiptPayloadV1.old_installation_id
                                       (FenceReceiptV1.payload receipt) =
                                     ChannelTrustSet.installation_id old_trust)))
    (ValueError "fence receipt is not from the trusted old installation"));;
  hold_activation;;
  s ← get;
  lift (verify_fence_receipt receipt old_trust (installation_id s) (fence_epoch s));;
  accept_takeover sha256 crash receipt;;
  check_cancelled "accept".

(** ** The service *)
Context (policy_keys : dict Z (dict string public_key)) (channel_trust : ChannelTrustSet).
Context (generation_gate : AuthorizedLeg → string → result bool).
Context (backend_manifest_hash : string).
Context (apply_bundle preflight_bundle : PolicyBundleV1 → result unit).
Context (service_limits : BundleLimits).
Context (readiness : bool * bool * bool).

(** [ActivationGenerationGate.permits] *)
Definition gate_permits (leg : AuthorizedLeg) (manifest : string) : M t bool :=
  own ← permits clock leg None;
  if own : bool then lift (generation_gate leg manifest) else mret false.

(** [_verify] *)
Definition verify_command (command : GatewayCommandV1) : result VerifiedGatewayCommand :=
  authenticate_gateway_command sha256 loads command policy_keys channel_trust.
(** [_assert_current_fence] *)
Definition assert_current_fence (v : VerifiedGatewayCommand) (s : t) : result unit :=
  raise_if (negb (GatewayCommandV1.dispatcher_fence (VerifiedGatewayCommand.command v) =? fence_epoch s))
    StaleFenceEpoch.
(** [_assert_unseen_binding] *)
Definition assert_unseen_binding (v : VerifiedGatewayCommand) (s : t) : result unit :=
  let c := VerifiedGatewayCommand.command v in
  raise_if (negb (bool_decide (GatewayCommandV1.boot_id c = boot_id s))) CommandBootMismatch;;
  raise_if (negb (GatewayCommandV1.security_epoch c =? ChannelTrustSet.security_epoch channel_trust))
    StaleSecurityEpoch;;
  assert_current_fence v s.
(** [_policy_matches] *)
Definition policy_matches (policy : option ActivationEnvelope) (base_ : option BaseReference)
    (target : BundleReference) : result unit :=
  raise_if (match policy with
            | None => true
            | Some p => negb (bool_decide (ActivationEnvelope.base p = base_)) ||
                        negb (bool_decide (ActivationEnvelope.target p = target))
            end) (ValueError "signed policy does not bind exact base/target").

(** [any(not generation_gate.permits(...))] *)
Fixpoint any_refused (legs : list AuthorizedLeg) (manifest : string) : result bool :=
  match legs with
  | [] => mret false
  | leg :: legs => ok ← generation_gate leg manifest;
      if ok : bool then any_refused legs manifest else mret true
  end.
Definition bundle_counts (b : PolicyBundleV1) : list (Z * Z) :=
  [(zlen (PolicyBundleV1.keys b), BundleLimits.max_keys service_limits);
   (zlen (PolicyBundleV1.policies b), BundleLimits.max_policies service_limits);
   (zlen (PolicyBundleV1.accounts b), BundleLimits.max_accounts service_limits);
   (zlen (PolicyBundleV1.route_groups b), BundleLimits.max_route_groups service_limits);
   (zlen (PolicyBundleV1.route_groups b ≫= RouteGroupRevision.legs), BundleLimits.max_legs service_limits);
   (zlen (PolicyBundleV1.policies b ≫= KeyPolicyRevision.authorized_legs),
    BundleLimits.max_authorized_legs service_limits)].
(** [_validate_bundle] *)
Definition validate_bundle (raw : bytes) (target : BundleReference) : result PolicyBundleV1 :=
  raise_if (BundleLimits.max_bundle_bytes service_limits <? Z.of_nat (length raw))
    (ValueError "bundle size exceeds the configured limit");;
  h ← bundle_hash sha256 raw;
  raise_if (negb (bool_decide (h = BundleReference.bundle_hash target)))
    (ValueError "bundle hash differs from target");;
  bundle ← as_value_error "bundle schema is invalid" (read_bundle raw ≫= PolicyBundleV1.validate);
  canonical ← bundle_bytes_of bundle;
  raise_if (negb (bool_decide (canonical = raw))) (ValueError "bundle is not canonical JSON");;
  raise_if (negb (PolicyBundleV1.generation bundle =? BundleReference.generation target))
    (ValueError "bundle generation differs");;
  raise_if (negb (bool_decide (PolicyBundleV1.backend_manifest_hash bundle = backend_manifest_hash)))
    (ValueError "backend manifest differs");;
  raise_if (existsb (λ p, p.2 <? p.1) (bundle_counts bundle))
    (ValueError "bundle object count exceeds limit");;
  refused ← any_refused (PolicyBundleV1.policies bundle ≫= KeyPolicyRevision.authorized_legs)
    (PolicyBundleV1.backend_manifest_hash bundle);
  raise_if refused (ValueError "bundle deployment generation is not operational");;
  preflight_bundle bundle;;
  mret bundle.

(** [_ack] *)
Definition make_ack (v : VerifiedGatewayCommand) (record : CommandRecord) : M t GatewayAckV1 :=
  match CommandRecord.ack record with
  | Some a => mret a
  | None =>
      s ← get;
      lift (raise_if (bool_decide (CommandRecord.status record = GatewayAckStatus.APPLIED) &&
                      bool_decide (lifecycle s = GatewayLifecycle.RECOVERY_REQUIRED))
        (RuntimeError "live bundle recovery is required before APPLIED ACK"));;
      let c := VerifiedGatewayCommand.command v in
      now ← now_ms clock;
      unsigned ← lift (GatewayAckV1.validate (GatewayAckV1.mk (CommandRecord.ack_id record)
        (GatewayCommandV1.command_id c) (VerifiedGatewayCommand.command_digest v) (installation_id s)
        (GatewayCommandV1.channel_epoch c) (GatewayCommandV1.security_epoch c)
        (GatewayCommandV1.dispatcher_fence c) (GatewayCommandV1.boot_id c) (GatewayCommandV1.sequence c)
        (CommandRecord.status record) now (CommandRecord.result record) (unsigned_seal signer)));
      ack ← lift (seal_gateway_ack unsigned signer);
      push_ack sha256 crash ack;;
      mret ack
  end.
(** [recorded = validate_new_command(verified); assert recorded is not None; _ack(...)] *)
Definition ack_recorded (v : VerifiedGatewayCommand) : M t GatewayAckV1 :=
  recorded ← reads (validate_new_command sha256 v);
  match recorded with
  | None => raise AssertionError
  | Some record => make_ack v record
  end.

Definition payload_of (v : VerifiedGatewayCommand) : Json :=
  JObj (GatewayCommandV1.payload (VerifiedGatewayCommand.command v)).
Definition result_of (k : string) (v : Json) : dict ustr Json := [(ascii_text k, v)].

(** [_prepare] *)
Definition prepare (v : VerifiedGatewayCommand) : M t unit :=
  payload ← lift (PrepareCommandPayload.model_validate (payload_of v));
  let target := PrepareCommandPayload.target payload in
  let base_ := PrepareCommandPayload.base payload in
  raw ← lift (PrepareCommandPayload.bundle_bytes payload);
  bundle ← lift (validate_bundle raw target);
  lift (policy_matches (VerifiedGatewayCommand.policy v) base_ target);;
  reads (validate_prepare_reference base_ target);;
  store_bundle sha256 crash raw (BundleReference.bundle_hash target);;
  check_cancelled "store";;
  hold_activation;;
  reads (assert_current_fence v);;
  reads (validate_prepare_reference base_ target);;
  ack_id ← mint_id mint AckId;
  stage_prepare sha256 crash v bundle target base_ ack_id
    (result_of "target" (BundleReference.dump target));;
  check_cancelled "stage".
(** [_commit] *)
Definition commit (v : VerifiedGatewayCommand) : M t GatewayAckV1 :=
  target ← lift (BundleReference.model_validate (payload_of v));
  s ← get;
  lift (policy_matches (VerifiedGatewayCommand.policy v) (base s) target);;
  hold_activation;;
  reads (assert_current_fence v);;
  reads (validate_commit_reference target);;
  ack_id ← mint_id mint AckId;
  bundle ← commit_staged sha256 crash v target ack_id (result_of "active" (BundleReference.dump target));
  on_error (lift (apply_bundle bundle)) (enter_recovery_required sha256 "live_swap_failed");;
  crash_at crash "memory_after_swap";;
  ack ← ack_recorded v;
  check_cancelled "commit";;
  mret ack.
(** [_active_policy] *)
Definition active_policy (policy : option ActivationEnvelope) (s : t) : result unit :=
  raise_if (match active s, policy with
            | Some r, Some p => negb (bool_decide (ActivationEnvelope.target p = r))
            | _, _ => true
            end) (ValueError "signed policy does not bind active bundle").
(** [_deny] *)
Definition deny (v : VerifiedGatewayCommand) : M t GatewayAckV1 :=
  payload ← lift (DenyCommandPayload.model_validate (payload_of v));
  reads (active_policy (VerifiedGatewayCommand.policy v));;
  hold_activation;;
  reads (assert_current_fence v);;
  ack_id ← mint_id mint AckId;
  issue_deny sha256 clock crash v payload ack_id (result_of "deny" (DenyCommandPayload.dump payload));;
  ack ← ack_recorded v;
  check_cancelled "deny";;
  mret ack.
(** [_clear] *)
Definition clear (v : VerifiedGatewayCommand) : M t GatewayAckV1 :=
  payload ← lift (ClearDenyCommandPayload.model_validate (payload_of v));
  reads (active_policy (VerifiedGatewayCommand.policy v));;
  hold_activation;;
  reads (assert_current_fence v);;
  ack_id ← mint_id mint AckId;
  clear_deny sha256 clock v payload ack_id (result_of "cleared" (ClearDenyCommandPayload.dump payload));;
  ack ← ack_recorded v;
  check_cancelled "clear";;
  mret ack.
(** [_status] *)
Definition status_result : M t (dict ustr Json) :=
  let '(singleton, backend, capacities) := readiness in
  now ← now_ms clock;
  status ← reads (status sha256 singleton backend capacities now);
  mret (result_of "status" (GatewayStatusV1.dump status)).
Definition service_status (v : VerifiedGatewayCommand) : M t GatewayAckV1 :=
  payload ← lift (StatusCommandPayload.model_validate (payload_of v));
  hold_activation;;
  reads (assert_current_fence v);;
  ack_id ← mint_id mint AckId;
  record_status sha256 clock mint crash v ack_id (StatusCommandPayload.issue_auth_lease payload)
    status_result;;
  ack ← ack_recorded v;
  check_cancelled "status";;
  mret ack.

(** [status_readonly] *)
Definition status_readonly (command : GatewayCommandV1) : M t GatewayStatusV1 :=
  verified ← lift (verify_command command);
  reads (assert_unseen_binding verified);;
  lift (raise_if (negb (bool_decide (GatewayCommandV1.kind command = WireCommandKind.STATUS)))
    (ValueError "read-only status requires STATUS"));;
  payload ← lift (StatusCommandPayload.model_validate (JObj (GatewayCommandV1.payload command)));
  lift (raise_if (StatusCommandPayload.issue_auth_lease payload)
    (ValueError "read-only status cannot issue an auth lease"));;
  let '(singleton, backend, capacities) := readiness in
  now ← now_ms clock;
  reads (status sha256 singleton backend capacities now).

(** A command that was not seen before. *)
Definition execute_new (v : VerifiedGatewayCommand) : M t GatewayAckV1 :=
  reads (assert_unseen_binding v);;
  match GatewayCommandV1.kind (VerifiedGatewayCommand.command v) with
  | WireCommandKind.PREPARE => prepare v;; ack_recorded v
  | WireCommandKind.COMMIT => commit v
  | WireCommandKind.DENY => deny v
  | WireCommandKind.CLEAR_DENY => clear v
  | WireCommandKind.STATUS => service_status v
  end.
(** [execute] *)
Definition execute (command : GatewayCommandV1) : M t GatewayAckV1 :=
  verified ← lift (verify_command command);
  existing ← reads (validate_new_command sha256 verified);
  match existing with
  | Some record => make_ack verified record
  | None => execute_new verified
  end.
End Service.
End Activation.
