(* ===== verification/ActivationSpec.v ===== *)
(** * What activation promises

    The policy a gateway enforces, and the only ways it may change: one
    authenticated command of the digest chain at a time.  The detailed model is
    related to this machine in [ActivationRefinement]; what holds of every run of
    the machine is proved here by induction on its steps. *)
From S2P Require Export Activation.
#[local] Open Scope Z_scope.

Module ActivationSpec.

(** The bundle in force and the one that waits, the subjects denied and the
    highest deny epoch and floor each ever had, and the last command of each
    channel epoch. *)
Record Policy := mk {
  active : option BundleReference;
  staged : option BundleReference;
  base : option BaseReference;
  previous : option BundleReference;
  denied : dict subject (Z * DenyReason * option Z);
  highest : dict subject (Z * option Z);
  heads : dict Z (Z * string);
}.

Definition next_command (epoch : Z) (p : Policy) : Z * string :=
  match dget epoch (heads p) with None => (1, ZERO_DIGEST) | Some (n, d) => (n + 1, d) end.

Definition above_floors (r : BundleReference) (p : Policy) : Prop :=
  ∀ k e f, dget k (highest p) = Some (e, Some f) → f < BundleReference.generation r.
(** A floor is kept or raised. *)
Definition floor_le (old new : option Z) : Prop :=
  ∀ f, old = Some f → ∃ g, new = Some g ∧ f ≤ g.

Definition command (v : VerifiedGatewayCommand) : GatewayCommandV1 := VerifiedGatewayCommand.command v.
(** The signed policy of the command approves exactly this move. *)
Definition approves (v : VerifiedGatewayCommand) (b : option BaseReference) (r : BundleReference) : Prop :=
  ∃ e, VerifiedGatewayCommand.policy v = Some e ∧ ActivationEnvelope.base e = b ∧
    ActivationEnvelope.target e = r.
Definition binds_active (v : VerifiedGatewayCommand) (p : Policy) : Prop :=
  ∃ e r, VerifiedGatewayCommand.policy v = Some e ∧ active p = Some r ∧ ActivationEnvelope.target e = r.

(** What a command of each kind may do. *)
Inductive effect (v : VerifiedGatewayCommand) (p : Policy) : Policy → Prop :=
| prepares target : GatewayCommandV1.kind (command v) = WireCommandKind.PREPARE →
    staged p = None → approves v (active p) target → above_floors target p →
    (∀ b, active p = Some b → BundleReference.generation b < BundleReference.generation target) →
    effect v p (p{{ staged := Some target; base := active p }})
| commits target : GatewayCommandV1.kind (command v) = WireCommandKind.COMMIT →
    staged p = Some target → base p = active p → approves v (active p) target →
    above_floors target p →
    effect v p (p{{ previous := active p; active := Some target; staged := None; base := None }})
| denies k epoch reason floor : GatewayCommandV1.kind (command v) = WireCommandKind.DENY →
    binds_active v p →
    (∀ e f, dget k (highest p) = Some (e, f) → e < epoch ∧ floor_le f floor) →
    effect v p (p{{ denied ::= dset k (epoch, reason, floor); highest ::= dset k (epoch, floor) }})
| clears k epoch reason floor : GatewayCommandV1.kind (command v) = WireCommandKind.CLEAR_DENY →
    binds_active v p → dget k (denied p) = Some (epoch, reason, floor) →
    effect v p (p{{ denied ::= ddel k }})
| reports : GatewayCommandV1.kind (command v) = WireCommandKind.STATUS → effect v p p.

(** One command: it is the next of its chain, and becomes its head. *)
Inductive step (v : VerifiedGatewayCommand) (p : Policy) : Policy → Prop :=
| steps q :
    next_command (GatewayCommandV1.channel_epoch (command v)) p =
      (GatewayCommandV1.sequence (command v), GatewayCommandV1.previous_digest (command v)) →
    effect v p q →
    step v p (q{{ heads ::= dset (GatewayCommandV1.channel_epoch (command v))
      (GatewayCommandV1.sequence (command v), VerifiedGatewayCommand.command_digest v) }}).

(** ** Well-formed policies *)
Record wf (p : Policy) : Prop := {
  wf_denied : dict_ok (denied p);
  wf_highest : dict_ok (highest p);
  wf_heads : dict_ok (heads p);
  wf_staged : staged p = None → base p = None;
  wf_base : ∀ t b, staged p = Some t → base p = Some b →
    BundleReference.generation b < BundleReference.generation t;
  wf_epochs : ∀ k e r f, dget k (denied p) = Some (e, r, f) → dget k (highest p) = Some (e, f);
}.

Lemma effect_wf v p q : wf p → effect v p q → wf q ∧ heads q = heads p.
Proof.
  intros [Wd Wh Wc Ws Wb We] [target _ Hs _ _ Hg|target _ Hs Hb _ _|k e r f _ _ Hh|k e r f _ _ Hd|_];
    destruct p; cbn in *; (split; [|done]).
  - split; cbn; try done. intros t b [= <-] Hb. by apply Hg.
  - by split; cbn.
  - split; cbn; try done; [by apply dict_ok_dset..|].
    intros k' e' r' f'. rewrite !dget_dset. case_decide; [by intros [= <- _ <-]|by apply We].
  - split; cbn; try done; [by apply dict_ok_ddel|].
    intros k' e' r' f'. rewrite dget_ddel by done. case_decide; [done|by apply We].
  - by split.
Qed.
Lemma policy_step_wf v p q : wf p → step v p q → wf q.
Proof.
  intros W [q0 _ E]. destruct (effect_wf _ _ _ W E) as [[Wd Wh Wc Ws Wb We] _].
  destruct q0; split; cbn in *; try done. by apply dict_ok_dset.
Qed.

(** ** What never goes back *)
Definition newer (old new : option BundleReference) : Prop :=
  old = new ∨ ∃ r, new = Some r ∧
    ∀ b, old = Some b → BundleReference.generation b < BundleReference.generation r.
Record advances (p q : Policy) : Prop := {
  ad_active : newer (active p) (active q);
  ad_highest : ∀ k e f, dget k (highest p) = Some (e, f) →
    ∃ e' f', dget k (highest q) = Some (e', f') ∧ e ≤ e' ∧ floor_le f f';
  ad_heads : ∀ c n d, dget c (heads p) = Some (n, d) →
    ∃ n' d', dget c (heads q) = Some (n', d') ∧ (n < n' ∨ n = n' ∧ d = d');
}.

Lemma floor_le_refl f : floor_le f f.
Proof. intros x ->. by exists x. Qed.
Lemma floor_le_trans a b c : floor_le a b → floor_le b c → floor_le a c.
Proof. intros H1 H2 x (y & -> & Hxy)%H1. destruct (H2 y eq_refl) as (z & -> & Hyz). exists z. split; [done|lia]. Qed.

#[export] Instance advances_preorder : PreOrder advances.
Proof.
  split.
  - intros p. split; [by left| |].
    + intros k e f H. exists e, f. split_and!; [done|lia|apply floor_le_refl].
    + intros c n d H. exists n, d. auto.
  - intros p q r [A1 H1 C1] [A2 H2 C2]. split.
    + destruct A1 as [->|(r1 & E1 & G1)]; [done|]. destruct A2 as [<-|(r2 & E2 & G2)].
      * right. by exists r1.
      * right. exists r2. split; [done|]. intros b Hb. pose proof (G1 b Hb). pose proof (G2 r1 E1). lia.
    + intros k e f (e1 & f1 & K1 & Le & Lf)%H1. destruct (H2 _ _ _ K1) as (e2 & f2 & K2 & Le' & Lf').
      exists e2, f2. split_and!; [done|lia|by eapply floor_le_trans].
    + intros c n d (n1 & d1 & K1 & L1)%C1. destruct (C2 _ _ _ K1) as (n2 & d2 & K2 & L2).
      exists n2, d2. split; [done|]. destruct L1 as [|[-> ->]], L2 as [|[-> ->]]; auto; lia.
Qed.

Lemma advances_same p q : active q = active p → highest q = highest p → heads q = heads p → advances p q.
Proof. intros Ea Eh Ec. destruct (reflexivity p : advances p p) as [A H C].
  split; rewrite ?Ea, ?Eh, ?Ec; done. Qed.

Lemma effect_advances v p q : wf p → effect v p q → advances p q.
Proof.
  intros [_ _ _ _ Wb _] [target _ Hs _ _ Hg|target _ Hs Hb _ _|k e r f _ _ Hh|k e r f _ _ Hd|_]; [| | | |done].
  - by apply advances_same; destruct p.
  - destruct (reflexivity p : advances p p) as [_ Ah Ac]. destruct p; split; cbn in *; try done.
    right. exists target. split; [done|]. intros b ->. by apply Wb.
  - destruct (reflexivity p : advances p p) as [Aa Ah Ac]. destruct p; split; cbn in *; try done.
    intros k' e' f'. rewrite dget_dset. case_decide; [|apply Ah].
    subst. intros [Hlt Hf]%Hh. exists e, f. split_and!; [done|lia|done].
  - by apply advances_same; destruct p.
Qed.

Theorem step_advances v p q : wf p → step v p q → advances p q.
Proof.
  intros W [q0 Hn E]. pose proof (effect_advances _ _ _ W E) as [Aa Ah Ac].
  destruct (effect_wf _ _ _ W E) as [_ Hh].
  destruct q0 as [a s b pr d h c]; cbn in *. split; cbn; try done. subst c.
  intros c n d'. rewrite dget_dset. intros Hc. case_decide; [|by exists n, d'; auto].
  subst. unfold next_command in Hn. rewrite Hc in Hn. injection Hn as Hn _.
  eexists _, _. split; [done|]. left. lia.
Qed.

(** ** Runs *)
Inductive run : list VerifiedGatewayCommand → Policy → Policy → Prop :=
| run_nil p : run [] p p
| run_cons v vs p q r : step v p q → run vs q r → run (v :: vs) p r.

Lemma run_app vs ws p q r : run vs p q → run ws q r → run (vs ++ ws) p r.
Proof. induction 1; [done|]. intros. econstructor; eauto. Qed.

Theorem run_wf vs p q : wf p → run vs p q → wf q ∧ advances p q.
Proof.
  intros W R. induction R as [p|v vs p q r S R IH]; [done|].
  destruct IH as [Wr A]; [by eapply policy_step_wf|]. split; [done|].
  transitivity q; [by eapply step_advances|done].
Qed.

(** Only CLEAR_DENY lifts a deny. *)
Lemma run_denied vs p q k : wf p → run vs p q → is_Some (dget k (denied p)) →
  Forall (λ v, GatewayCommandV1.kind (command v) ≠ WireCommandKind.CLEAR_DENY) vs →
  is_Some (dget k (denied q)).
Proof.
  intros W R. induction R as [p|v vs p q r S R IH]; [done|]. intros Hk [Hv Hvs]%Forall_cons.
  apply IH; [by eapply policy_step_wf| |done]. clear IH R Hvs r. destruct S as [q0 _ E].
  destruct E as [| |k' e r f| |]; destruct p; cbn in *; try done.
  rewrite dget_dset. by case_decide.
Qed.

(** The commands of one channel epoch are numbered and linked one by one. *)
Definition of_epoch (c : Z) (v : VerifiedGatewayCommand) : bool :=
  GatewayCommandV1.channel_epoch (command v) =? c.
Fixpoint chained (start : Z * string) (vs : list VerifiedGatewayCommand) : Prop :=
  match vs with
  | [] => True
  | v :: vs => (GatewayCommandV1.sequence (command v), GatewayCommandV1.previous_digest (command v)) = start ∧
      chained (GatewayCommandV1.sequence (command v) + 1, VerifiedGatewayCommand.command_digest v) vs
  end.

Theorem run_chained vs p q c : wf p → run vs p q →
  chained (next_command c p) (List.filter (of_epoch c) vs).
Proof.
  intros W R. induction R as [p|v vs p q r S R IH]; [done|].
  specialize (IH (policy_step_wf _ _ _ W S)). destruct S as [q0 Hn E].
  destruct (effect_wf _ _ _ W E) as [_ Hh]. unfold of_epoch at 1. cbn [List.filter].
  assert (next_command c (q0{{ heads ::= dset (GatewayCommandV1.channel_epoch (command v))
      (GatewayCommandV1.sequence (command v), VerifiedGatewayCommand.command_digest v) }}) =
    if decide (GatewayCommandV1.channel_epoch (command v) = c)
    then (GatewayCommandV1.sequence (command v) + 1, VerifiedGatewayCommand.command_digest v)
    else next_command c p) as Hnext.
  { destruct q0; cbn in *. subst. unfold next_command; cbn. rewrite dget_dset. by case_decide. }
  rewrite Hnext in IH. destruct (_ =? c) eqn:Ec; bprop.
  - rewrite decide_True in IH by done. cbn. split; [by rewrite <-Hn, Ec|done].
  - by rewrite decide_False in IH.
Qed.
End ActivationSpec.
