(* ===== verification/ActivationFacts.v ===== *)
(** * What the operations of the local state leave alone

    The durable policy of a state ([policy_of]) and the values the process keeps
    of it ([synced]); most operations are [calm], they change neither. *)
From S2P Require Export ActivationSpec.
#[local] Open Scope Z_scope.

(** Mapping the values of a table. *)
Definition dmap {K A B} (f : A → B) (d : dict K A) : dict K B := (λ p, (p.1, f p.2)) <$> d.
Section Dmap.
Context {K A B : Type} `{EqDecision K} (f : A → B).
Implicit Types (k : K) (d : dict K A).
Lemma dget_dmap k d : dget k (dmap f d) = f <$> dget k d.
Proof. induction d as [|[k' v] d IH]; [done|]. cbn. by case_decide. Qed.
Lemma dmap_dset k v d : dmap f (dset k v d) = dset k (f v) (dmap f d).
Proof.
  unfold dmap. induction d as [|[k' w] d IH]; [done|]. cbn. case_decide; [done|].
  by rewrite fmap_cons, IH.
Qed.
Lemma dmap_ddel k d : dmap f (ddel k d) = ddel k (dmap f d).
Proof.
  unfold dmap. induction d as [|[k' w] d IH]; [done|]. cbn. case_decide; [done|].
  by rewrite fmap_cons, IH.
Qed.
Lemma dkeys_dmap d : dkeys (dmap f d) = dkeys d.
Proof. unfold dkeys, dmap. by rewrite <-list_fmap_compose. Qed.
Lemma dict_ok_dmap d : dict_ok (dmap f d) ↔ dict_ok d.
Proof. unfold dict_ok. by rewrite dkeys_dmap. Qed.
End Dmap.

(** Rebuilding a table entry by entry gives it back. *)
Lemma fold_dset_id {K A B} `{EqDecision K} (load : dict K B → K * A → result (dict K B)) (g : K * A → B) l acc out :
  (∀ acc p out, load acc p = Ok out → out = dset p.1 (g p) acc) →
  NoDup (dkeys acc ++ l.*1) → fold_result load acc l = Ok out → out = acc ++ ((λ p, (p.1, g p)) <$> l).
Proof.
  intros Hl. revert acc. induction l as [|[k a] l IH]; intros acc Hn H; cbn in H.
  - injection H as <-. by rewrite app_nil_r.
  - apply bind_Ok in H as (acc' & H1 & H2). apply Hl in H1 as ->. cbn in *.
    assert (k ∉ dkeys acc) as Hk.
    { apply NoDup_app in Hn as (_ & Hd & _). intros Hk. apply (Hd k Hk). by left. }
    rewrite dset_new in H2 by done. apply IH in H2 as ->; [by rewrite <-app_assoc|].
    unfold dkeys in *. rewrite fmap_app, <-app_assoc. done.
Qed.
Lemma fold_dset_content {K A B C} `{EqDecision K} (load : dict K B → K * A → result (dict K B))
    (g : K * A → B) (f : A → C) (f' : B → C) (l : dict K A) out :
  (∀ acc p out, load acc p = Ok out → out = dset p.1 (g p) acc) → (∀ p, f' (g p) = f p.2) →
  dict_ok (dmap f l) → fold_result load [] l = Ok out → dmap f' out = dmap f l.
Proof.
  intros Hl Hf Hn H. apply (fold_dset_id load g) in H as ->; [|done|by apply dict_ok_dmap in Hn].
  unfold dmap. rewrite app_nil_l, <-list_fmap_compose. apply list_fmap_ext. intros i p _. cbn. by rewrite Hf.
Qed.

(** Take a state and its database apart. *)
Ltac open s := destruct s as [? ? ? ? ? ? ? ? ? ? ? ? ? ? ? ? ? ? ? ? ? ? [] ? ? ?].

Module StateFacts.
Import GatewayLocalState LocalState.
Import ActivationSpec (Policy, wf, step, effect, advances).

(** ** The durable policy *)
Definition reference_in (rows : dict string Tables.PointerRow) (name : string) : option BundleReference :=
  (λ r, BundleReference.mk (Tables.p_generation r) (Tables.p_bundle_hash r)) <$> dget name rows.
Definition pointer (name : string) (d : Tables) : option BundleReference :=
  reference_in (Tables.pointers d) name.
Definition deny_content (r : Tables.DenyRow) : Z * DenyReason * option Z :=
  (Tables.d_epoch r, Tables.d_reason r, Tables.d_floor r).
Definition overlay_content (o : DenyOverlayV1) : Z * DenyReason * option Z :=
  (DenyOverlayV1.deny_epoch o, DenyOverlayV1.reason o, DenyOverlayV1.deny_floor_generation o).
Definition highwater_content (r : Tables.HighwaterRow) : Z * option Z :=
  (Tables.w_epoch r, Tables.w_floor r).
Definition chain_content (r : Tables.ChainRow) : Z * string := (Tables.h_sequence r, Tables.h_digest r).
Definition policy_in (d : Tables) : Policy :=
  ActivationSpec.mk (pointer "active" d) (pointer "staged" d) (pointer "base" d) (pointer "previous" d)
    (dmap deny_content (Tables.denies d)) (dmap highwater_content (Tables.deny_highwater d))
    (dmap chain_content (Tables.channel_state d)).
Definition policy_of (s : t) : Policy := policy_in (db s).
(** The tables that make it. *)
Definition policy_tables (d : Tables) := (Tables.pointers d, dmap deny_content (Tables.denies d),
  dmap highwater_content (Tables.deny_highwater d), dmap chain_content (Tables.channel_state d)).
Lemma policy_tables_eq d d' : policy_tables d' = policy_tables d → policy_in d' = policy_in d.
Proof. unfold policy_tables, policy_in, pointer. intros [= -> -> -> ->]. done. Qed.

Definition config (s : t) := (installation_id s, boot_id s, channel_epoch s, security_epoch s, limits s).
Definition references (s : t) := (active s, staged s, base s, previous s, active_bundle s).

(** What the process keeps is what is durable. *)
Record synced (s : t) : Prop := {
  sy_active : active s = ActivationSpec.active (policy_of s);
  sy_staged : staged s = ActivationSpec.staged (policy_of s);
  sy_base : base s = ActivationSpec.base (policy_of s);
  sy_previous : previous s = ActivationSpec.previous (policy_of s);
  sy_denies : dmap overlay_content (denies s) = ActivationSpec.denied (policy_of s);
  sy_highwater : deny_highwater s = ActivationSpec.highest (policy_of s);
  sy_pointers : dict_ok (Tables.pointers (db s));
  sy_wf : wf (policy_of s);
}.

Definition calm (s s' : t) : Prop := synced s →
  synced s' ∧ config s' = config s ∧ references s' = references s ∧
  policy_tables (db s') = policy_tables (db s).
#[export] Instance calm_preorder : PreOrder calm.
Proof.
  split; [by intros s Hs|]. intros s1 s2 s3 H1 H2 Hs. destruct (H1 Hs) as (S1 & C1 & R1 & P1).
  destruct (H2 S1) as (S2 & C2 & R2 & P2). split_and!; [done|congruence..].
Qed.

(** Only the database changes. *)
Definition db_only (s s' : t) : Prop := s' = s{{ db := db s' }}.
#[export] Instance db_only_preorder : PreOrder db_only.
Proof.
  split; [by intros []|]. unfold db_only. intros s1 s2 s3 -> E3. rewrite E3. by destruct s1, s3.
Qed.
Lemma db_only_back s s' : db_only s s' → s'{{ db := db s }} = s.
Proof. intros ->. by destruct s. Qed.

(** The same policy and the same values of it. *)
Lemma synced_same s s' : synced s → policy_tables (db s') = policy_tables (db s) →
  references s' = references s → dmap overlay_content (denies s') = dmap overlay_content (denies s) →
  deny_highwater s' = deny_highwater s → synced s'.
Proof.
  intros [] P [= Ea Es Eb Ep _] Ed Eh. pose proof (policy_tables_eq _ _ P) as E.
  unfold policy_of in *. injection P as Pp _ _ _.
  split; unfold policy_of; rewrite ?E; congruence.
Qed.
Lemma calm_same s s' : config s' = config s → references s' = references s →
  dmap overlay_content (denies s') = dmap overlay_content (denies s) →
  deny_highwater s' = deny_highwater s → policy_tables (db s') = policy_tables (db s) → calm s s'.
Proof. intros Ec Er Ed Eh Ep Hs. split_and!; try done. by eapply synced_same. Qed.

Lemma calm_rollback s s1 : calm s s1 → calm s (s1{{ db := db s }}).
Proof.
  intros H Hs. destruct (H Hs) as (S1 & C1 & R1 & P1).
  split_and!; try (by destruct s1). apply (synced_same s1); by destruct s1.
Qed.
Lemma keeps_transaction {A} (body : M t A) : keeps calm body → keeps calm (transaction body).
Proof.
  intros Hb s s' r H. unfold transaction in H. destruct (body s) as [s1 [a|e]] eqn:E.
  - injection H as <- _. by eapply Hb.
  - injection H as <- _. eapply calm_rollback, Hb, E.
Qed.

(** A calm computation with what holds when it returns. *)
Definition yields {A} (m : M t A) (Q : A → t → Prop) : Prop := ∀ s s' r, synced s → m s = (s', r) →
  calm s s' ∧ ∀ a, r = Ok a → Q a s'.
Lemma yields_calm {A} (m : M t A) Q : yields m Q → keeps calm m.
Proof. intros Hm s s' r H Hs. by apply (Hm s s' r Hs H). Qed.
Lemma yields_seq {A} (m : M t A) Q {B} (k : A → M t B) : yields m Q →
  (∀ a s s' r, synced s → Q a s → k a s = (s', r) → calm s s') → keeps calm (m ≫= k).
Proof.
  intros Hm Hk s s' r H Hs. apply M_bind_cases in H as [(s1 & a & H1 & H)|(e & H1 & _)];
    destruct (Hm _ _ _ Hs H1) as [C1 Q1].
  - specialize (C1 Hs) as C. destruct C as (Hs1 & _). eapply (transitivity C1); [|done].
    by apply (Hk a _ _ r Hs1 (Q1 a eq_refl)).
  - by apply C1.
Qed.
Lemma yields_transaction {A} (m : M t A) Q : yields m Q → yields (transaction m) Q.
Proof.
  intros Hm s s' r Hs H. unfold transaction in H. destruct (m s) as [s1 [a|e]] eqn:E;
    injection H as <- <-; destruct (Hm _ _ _ Hs E) as [C1 Q1]; [done|].
  split; [by apply calm_rollback|done].
Qed.
Lemma yields_or_recovery {A} (m : M t A) Q : yields m Q → yields (or_recovery m) Q.
Proof.
  intros Hm s s' r Hs H. unfold or_recovery, catch in H. destruct (m s) as [s1 [a|e]] eqn:E;
    destruct (Hm _ _ _ Hs E) as [C1 Q1]; [by injection H as <- <-|].
  destruct (database_or_value_error e); injection H as <- <-; [|done]. split; [|done].
  etrans; [exact C1|]. apply calm_same; by destruct s1.
Qed.

Lemma transaction_Ok {A} (body : M t A) s s' a : transaction body s = (s', Ok a) → body s = (s', Ok a).
Proof. unfold transaction. by destruct (body s) as [s1 []]. Qed.
Lemma transaction_Err {A} (body : M t A) s s' e : keeps db_only body →
  transaction body s = (s', Err e) → s' = s.
Proof.
  intros Hb. unfold transaction. destruct (body s) as [s1 [a|e1]] eqn:E; [done|].
  intros [= <- _]. by eapply db_only_back, Hb.
Qed.

Section Calm.
Context `{BC : BundleCodec}.
Context (sha256 : bytes → bytes) (clock : nat → Z) (mint : nat → string).
Context (crash : string → result unit).

Ltac calm_modify := apply keeps_modify; intros []; by apply calm_same.
Lemma calm_now : keeps calm (now_ms clock).
Proof. unfold now_ms. keeps. calm_modify. Qed.
Lemma calm_mint cls : keeps calm (mint_id mint cls).
Proof. unfold mint_id. keeps. calm_modify. Qed.
Lemma calm_crash p : keeps calm (crash_at crash p).
Proof. unfold crash_at. keeps. Qed.
Lemma calm_set_meta k v : keeps calm (set_meta sha256 k v).
Proof. unfold set_meta, update_db. keeps. calm_modify. Qed.
#[local] Hint Resolve calm_now calm_mint calm_crash calm_set_meta : keeps.

Lemma calm_enter_recovery reason : keeps calm (enter_recovery_required sha256 reason).
Proof.
  unfold enter_recovery_required. keeps; [calm_modify|]. apply keeps_transaction. keeps.
Qed.
Lemma calm_confirm r : keeps calm (confirm_live_bundle sha256 r).
Proof.
  unfold confirm_live_bundle. keeps; [|calm_modify]. apply keeps_transaction. keeps.
Qed.
Lemma calm_store_bundle p h : keeps calm (store_bundle sha256 crash p h).
Proof. unfold store_bundle. keeps. calm_modify. Qed.
Lemma calm_write_pointer p i : keeps calm (write_active_pointer crash p i).
Proof. unfold write_active_pointer. keeps. all: calm_modify. Qed.
Lemma calm_store_receipt r : keeps calm (store_receipt sha256 r).
Proof.
  unfold store_receipt, update_db. keeps. apply keeps_modify. intros s. destruct s as [? ? ? ? ? ? ? ? ? ? ? ? ? ? ? ? ? ? ? ? ? ? d].
  apply calm_same; cbn; try done. by destruct (dmem _ _), d.
Qed.
#[local] Hint Resolve calm_enter_recovery calm_confirm calm_store_bundle calm_write_pointer
  calm_store_receipt : keeps.
Lemma calm_old_fence r : keeps calm (record_old_fence sha256 crash r).
Proof.
  unfold record_old_fence. keeps; [|calm_modify]. apply keeps_transaction. keeps.
Qed.
Lemma calm_takeover r : keeps calm (accept_takeover sha256 crash r).
Proof.
  unfold accept_takeover. keeps; try calm_modify; apply keeps_transaction; keeps.
Qed.
#[local] Hint Resolve calm_old_fence calm_takeover : keeps.

(** ** Writes to the tables of the policy

    [writes s x rows dn hw]: a transaction begun at [s] is at [x]. *)
Record writes (s x : t) (rows : dict string Tables.PointerRow)
    (dn : dict subject (Z * DenyReason * option Z)) (hw : dict subject (Z * option Z)) : Prop := {
  wr_state : x = s{{ db := db x }};
  wr_pointers : Tables.pointers (db x) = rows;
  wr_denies : dmap deny_content (Tables.denies (db x)) = dn;
  wr_highwater : dmap highwater_content (Tables.deny_highwater (db x)) = hw;
  wr_chain : Tables.channel_state (db x) = Tables.channel_state (db s);
}.
Lemma writes_refl s : writes s s (Tables.pointers (db s)) (ActivationSpec.denied (policy_of s))
  (ActivationSpec.highest (policy_of s)).
Proof. split; try done. by destruct s. Qed.
Lemma update_at s x f y : x = s{{ db := db x }} → update_db f x = (y, Ok tt) → y = s{{ db := f (db x) }}.
Proof. intros Es [= <-]. transitivity ((s{{ db := db x }}){{ db ::= f }}); [by rewrite <-Es|by destruct s]. Qed.
Lemma writes_update s x rows dn hw f y rows' dn' hw' : writes s x rows dn hw →
  update_db f x = (y, Ok tt) → Tables.channel_state (f (db x)) = Tables.channel_state (db x) →
  Tables.pointers (f (db x)) = rows' → dmap deny_content (Tables.denies (f (db x))) = dn' →
  dmap highwater_content (Tables.deny_highwater (f (db x))) = hw' → writes s y rows' dn' hw'.
Proof.
  intros [Es _ _ _ Ec] Hu Hc Hp Hd Hh. apply (update_at s) in Hu as ->; [|done].
  split; destruct s; try done. etrans; [exact Hc|exact Ec].
Qed.
Ltac writes_table W H := pose proof W as [_ <- <- <- _];
  eapply writes_update; [exact W|exact H|match goal with |- context [db ?x] => by destruct (db x) end|..];
  try match goal with |- context [db ?x] => by destruct (db x) end.
Lemma writes_meta s x rows dn hw k v y : writes s x rows dn hw → set_meta sha256 k v x = (y, Ok tt) →
  writes s y rows dn hw.
Proof. intros W (x1 & c & [= <- _] & Hu)%M_bind_Ok. writes_table W Hu. Qed.
Lemma writes_bundle s x rows dn hw h row y : writes s x rows dn hw →
  update_db (λ d, if dmem h (Tables.bundles d) then d else d{{ Tables.bundles ::= dset h row }}) x = (y, Ok tt) →
  writes s y rows dn hw.
Proof.
  intros W Hu. pose proof W as [_ <- <- <- _]. eapply writes_update; [exact W|exact Hu|..];
    destruct (db x); cbn; by destruct (dmem _ _).
Qed.
Lemma writes_deny s x rows dn hw k o y : writes s x rows dn hw → put_deny sha256 k o x = (y, Ok tt) →
  writes s y rows (dset k (overlay_content o) dn) hw.
Proof.
  intros W (x1 & c & [= <- _] & Hu)%M_bind_Ok. writes_table W Hu.
  destruct (db x). apply (dmap_dset deny_content).
Qed.
Lemma writes_undeny s x rows dn hw k y : writes s x rows dn hw →
  update_db (λ d, d{{ Tables.denies ::= ddel k }}) x = (y, Ok tt) → writes s y rows (ddel k dn) hw.
Proof. intros W Hu. writes_table W Hu. destruct (db x). apply (dmap_ddel deny_content). Qed.
Lemma writes_highwater s x rows dn hw k e f y : writes s x rows dn hw →
  put_highwater sha256 k e f x = (y, Ok tt) → writes s y rows dn (dset k (e, f) hw).
Proof.
  intros W (x1 & c & [= <- _] & Hu)%M_bind_Ok. writes_table W Hu.
  destruct (db x). apply (dmap_dset highwater_content).
Qed.
Lemma writes_pointer s x rows dn hw name r y : writes s x rows dn hw → dict_ok rows →
  put_pointer sha256 name r x = (y, Ok tt) → ∃ rows', writes s y rows' dn hw ∧ dict_ok rows' ∧
    ∀ n, reference_in rows' n = if decide (name = n) then r else reference_in rows n.
Proof.
  intros W Hok H. destruct r as [[g h]|]; cbn in H.
  - apply M_bind_Ok in H as (x1 & c & [= <- _] & Hu). exists (dset name (Tables.PRow g h c) rows).
    split; [writes_table W Hu|]. split; [by apply dict_ok_dset|].
    intros n. unfold reference_in. rewrite dget_dset. by case_decide.
  - exists (ddel name rows). split; [writes_table W H|]. split; [by apply dict_ok_ddel|].
    intros n. unfold reference_in. rewrite dget_ddel by done. by case_decide.
Qed.

(** A command is recorded when it is the next one of its chain, and becomes the
    head of it. *)
Lemma next_in_chain_Ok epoch s n : next_in_chain sha256 epoch s = Ok n →
  n = ActivationSpec.next_command epoch (policy_of s).
Proof.
  unfold next_in_chain, ActivationSpec.next_command, policy_of. cbn. rewrite dget_dmap.
  destruct (dget _ _) as [[q d c]|]; cbn; [|by intros [= <-]].
  intros (u & _ & [= <-])%bind_Ok. done.
Qed.
Lemma unseen_next v s : validate_new_command sha256 v s = Ok None →
  dget (GatewayCommandV1.command_id (ActivationSpec.command v)) (Tables.commands (db s)) = None ∧
  ActivationSpec.next_command (GatewayCommandV1.channel_epoch (ActivationSpec.command v)) (policy_of s) =
    (GatewayCommandV1.sequence (ActivationSpec.command v),
     GatewayCommandV1.previous_digest (ActivationSpec.command v)).
Proof.
  unfold validate_new_command. destruct (dget _ _) as [row|] eqn:E.
  - intros (r & _ & H)%bind_Ok. apply bind_Ok in H as (? & _ & [=]).
  - intros ([n d] & Hn%next_in_chain_Ok & H)%bind_Ok. apply bind_Ok in H as (u & Hg%raise_if_Ok & _).
    split; [done|]. unfold ActivationSpec.command. rewrite <-Hn. cbn in Hg. bprop. by destruct Hg as [-> ->].
Qed.
Lemma reserve_Ok s s' : reserve_command_record s = (s', Ok tt) →
  ∃ c, update_db (λ d, d{{ Tables.commands := c }}) s = (s', Ok tt).
Proof.
  intros (s1 & s0 & [= <- <-] & H)%M_bind_Ok. cbv zeta in H. case_match.
  - injection H as <-. exists (Tables.commands (db s)). by open s.
  - apply M_bind_Ok in H as (s1 & [] & [= <-] & H). apply M_bind_Ok in H as (s2 & s3 & [= <- <-] & [= <- _]).
    open s. by eexists.
Qed.
Lemma insert_Ok id r s s' : insert_command id r s = (s', Ok tt) →
  ∃ c, update_db (λ d, d{{ Tables.commands := c }}) s = (s', Ok tt).
Proof.
  intros (s1 & s0 & [= <- <-] & H)%M_bind_Ok. apply M_bind_Ok in H as (s1 & [] & [= <- _] & [= <-]).
  open s. by eexists.
Qed.
Definition next_head (v : VerifiedGatewayCommand) : dict Z (Z * string) → dict Z (Z * string) :=
  dset (GatewayCommandV1.channel_epoch (ActivationSpec.command v))
    (GatewayCommandV1.sequence (ActivationSpec.command v), VerifiedGatewayCommand.command_digest v).
Lemma writes_record s x rows dn hw v id st res y : writes s x rows dn hw →
  record_pending sha256 v id st res x = (y, Ok tt) →
  ActivationSpec.next_command (GatewayCommandV1.channel_epoch (ActivationSpec.command v)) (policy_of s) =
    (GatewayCommandV1.sequence (ActivationSpec.command v),
     GatewayCommandV1.previous_digest (ActivationSpec.command v)) ∧
  ∃ d, y = s{{ db := d }} ∧ Tables.pointers d = rows ∧ policy_in d = ActivationSpec.mk
    (reference_in rows "active") (reference_in rows "staged") (reference_in rows "base")
    (reference_in rows "previous") dn hw (next_head v (ActivationSpec.heads (policy_of s))).
Proof.
  intros W H. unfold record_pending in H.
  apply M_bind_Ok in H as (x1 & r & [= <- E] & H). destruct r as [r|]; [done|].
  apply unseen_next in E as [_ E]. assert (ActivationSpec.next_command
    (GatewayCommandV1.channel_epoch (ActivationSpec.command v)) (policy_of x) = ActivationSpec.next_command
    (GatewayCommandV1.channel_epoch (ActivationSpec.command v)) (policy_of s)) as <-.
  { unfold ActivationSpec.next_command, policy_of. cbn. by rewrite (wr_chain _ _ _ _ _ W). }
  split; [done|]. apply M_bind_Ok in H as (x1 & [] & H1%reserve_Ok & H). destruct H1 as [c1 H1].
  apply M_bind_Ok in H as (x2 & ck & [= <- _] & H).
  apply M_bind_Ok in H as (x2 & [] & H2%insert_Ok & H). destruct H2 as [c2 H2].
  apply M_bind_Ok in H as (x3 & ch & [= <- _] & H).
  assert (writes s x1 rows dn hw) as W1 by (writes_table W H1).
  assert (writes s x2 rows dn hw) as W2 by (writes_table W1 H2). clear - W2 H.
  destruct W2 as [Es Ep Ed Eh Ec]. apply (update_at s) in H as ->; [|done]. eexists. split; [done|].
  unfold policy_in, pointer, policy_of. rewrite <-Ep, <-Ed, <-Eh. cbn. rewrite <-Ec.
  destruct (db x2). split; [done|]. f_equal. exact (dmap_dset chain_content _ _ _).
Qed.

(** ** Reading the denies back *)
Lemma loaded_denies d out : dict_ok (dmap deny_content (Tables.denies d)) →
  fold_result (load_deny sha256) [] (Tables.denies d) = Ok out →
  dmap overlay_content out = dmap deny_content (Tables.denies d).
Proof.
  apply (fold_dset_content _ (λ p, overlay_of p.1 p.2)); [|by intros [k []]].
  intros acc p o' (u & _ & (o & (u' & _ & [= <-])%bind_Ok & [= <-])%bind_Ok)%bind_Ok. done.
Qed.
Lemma loaded_highwater d out : dict_ok (dmap highwater_content (Tables.deny_highwater d)) →
  fold_result (load_highwater sha256) [] (Tables.deny_highwater d) = Ok out →
  out = dmap highwater_content (Tables.deny_highwater d).
Proof.
  intros Hn H. eapply (fold_dset_content _ (λ p, highwater_content p.2) _ id) in H; [|..|exact Hn].
  - etrans; [|exact H]. unfold dmap. rewrite <-(list_fmap_id out) at 1. apply list_fmap_ext. by intros ? [].
  - intros acc [k []] o' (u & _ & [= <-])%bind_Ok. done.
  - done.
Qed.
Lemma calm_load_denies : keeps calm (load_denies sha256).
Proof.
  intros s s' r [(s1 & out & [= <- H1] & [= <- _])|(e & [= <- _] & _)]%M_bind_cases; [|done].
  intros Hs. pose proof Hs as []. apply loaded_denies in H1; [|apply sy_wf0].
  assert (dmap overlay_content out = dmap overlay_content (denies s)) as Hd by (rewrite sy_denies0; exact H1).
  apply (calm_same s); [..|exact Hs]; by open s.
Qed.
Lemma calm_load_highwater : keeps calm (load_deny_highwater sha256).
Proof.
  intros s s' r [(s1 & out & [= <- H1] & [= <- _])|(e & [= <- _] & _)]%M_bind_cases; [|done].
  intros Hs. pose proof Hs as []. apply loaded_highwater in H1; [|apply sy_wf0].
  assert (out = deny_highwater s) as Hd by (rewrite sy_highwater0; exact H1).
  apply (calm_same s); [..|exact Hs]; by open s.
Qed.
#[local] Hint Resolve calm_load_denies calm_load_highwater : keeps.
Lemma calm_verify_store : keeps calm (verify_deny_store sha256).
Proof.
  apply (yields_calm _ (λ _ _, True)), yields_or_recovery. intros s s' r Hs H. split; [|done].
  by eapply (keeps_seq calm _ _ calm_load_denies (λ _, calm_load_highwater)).
Qed.
#[local] Hint Resolve calm_verify_store : keeps.

(** A renewal writes every deny back with its content. *)
Lemma calm_put_deny k o s s' r : put_deny sha256 k o s = (s', r) →
  dget k (dmap overlay_content (denies s)) = Some (overlay_content o) → calm s s' ∧ denies s' = denies s.
Proof.
  intros [(s1 & c & [= <- _] & [= <- _])|(e & [= <- _] & _)]%M_bind_cases Hk; [|done]. split; [|by open s].
  intros Hs. pose proof Hs as []. assert (dset k (overlay_content o) (dmap deny_content (Tables.denies (db s))) =
    dmap deny_content (Tables.denies (db s))) as Hd by (apply dset_id; by rewrite <-Hk, sy_denies0).
  unfold update_db. apply (calm_same s); [..|exact Hs]; try by open s.
  open s. unfold policy_tables. cbn in *. f_equal. f_equal. f_equal.
  etrans; [apply (dmap_dset deny_content)|exact Hd].
Qed.
Definition renewed (now : Z) (s : t) : dict subject DenyOverlayV1 :=
  (λ p, (p.1, p.2{{ DenyOverlayV1.heartbeat_at_ms := now }})) <$> denies s.
Lemma renewed_content now s : dmap overlay_content (renewed now s) = dmap overlay_content (denies s).
Proof. unfold renewed, dmap. rewrite <-list_fmap_compose. apply list_fmap_ext. by intros i [k []] _. Qed.
Lemma calm_put_denies l s s' r : for_each (λ p, put_deny sha256 p.1 p.2) l s = (s', r) →
  (∀ k o, (k, o) ∈ l → dget k (dmap overlay_content (denies s)) = Some (overlay_content o)) →
  calm s s' ∧ denies s' = denies s.
Proof.
  revert s. induction l as [|[k o] l IH]; intros s H Hl; [by injection H as <- _|].
  apply M_bind_cases in H as [(s1 & [] & H1 & H)|(e & H1 & _)];
    destruct (calm_put_deny _ _ _ _ _ H1 (Hl k o ltac:(left))) as [C1 E1]; [|done].
  apply IH in H as [C2 E2].
  - split; [by etrans|congruence].
  - rewrite E1. intros k' o' Hin. apply Hl. by right.
Qed.
Lemma renew_rows now : yields (renew_deny_rows sha256 now)
  (λ u s, dmap overlay_content u = dmap overlay_content (denies s)).
Proof.
  intros s s' r Hs H. unfold renew_deny_rows in H.
  apply M_bind_cases in H as [(s1 & [] & H1%calm_load_denies & H)|(e & H1%calm_load_denies & ->)]; [|done].
  apply M_bind_cases in H as [(s2 & [] & H2%calm_load_highwater & H)|(e & H2%calm_load_highwater & ->)];
    [|split; [by etrans|done]].
  apply M_bind_cases in H as [(s3 & s0 & [= <- <-] & H)|(e & [=] & _)]. cbv zeta in H.
  fold (renewed now s2) in H.
  assert (calm s s2) as C2 by (by etrans). destruct (C2 Hs) as (Hs2 & _).
  assert (∀ s3 r, for_each (λ p, put_deny sha256 p.1 p.2) (renewed now s2) s2 = (s3, r) →
    calm s2 s3 ∧ denies s3 = denies s2) as Hp.
  { intros s3 r3 H3. eapply calm_put_denies; [done|]. intros k o Hin.
    rewrite <-(renewed_content now), dget_dmap. apply elem_of_dget in Hin; [by rewrite Hin|].
    apply (dict_ok_dmap overlay_content). rewrite renewed_content, (sy_denies _ Hs2). apply Hs2. }
  apply M_bind_cases in H as [(s3 & [] & H3 & H)|(e & H3 & ->)];
    destruct (Hp _ _ H3) as [C3 E3]; [|split; [by etrans|done]].
  apply M_bind_cases in H as [(s4 & [] & H4 & [= <- <-])|(e & H4%calm_set_meta & ->)];
    [|split; [etrans; [exact C2|by etrans]|done]].
  assert (denies s4 = denies s3) as E4.
  { apply M_bind_Ok in H4 as (s5 & c & [= <- _] & [= <-]). by destruct s3. }
  apply calm_set_meta in H4.
  split; [etrans; [exact C2|by etrans]|]. intros u [= <-]. by rewrite renewed_content, <-E3, E4.
Qed.
End Calm.
End StateFacts.
