(* ===== verification/ActivationSteps.v ===== *)
(** * Each operation is calm, or one step of the policy *)
From S2P Require Export ActivationFacts.
#[local] Open Scope Z_scope.

Module StepFacts.
Import GatewayLocalState LocalState Activation StateFacts.
Import ActivationSpec (Policy, wf, step, effect, advances).

Section Steps.
Context `{E : Ed25519} `{P : Pydantic} `{BC : BundleCodec}.
Context (sha256 : bytes → bytes) (loads : bytes → result Json).
Context (clock : nat → Z) (mint : nat → string).
Context (crash : string → result unit).
Context (meanwhile : nat → list holder) (cancelled : string → bool).
Context (signer : ChannelSigner).

#[local] Hint Resolve calm_now calm_mint calm_crash calm_set_meta calm_enter_recovery calm_confirm
  calm_store_bundle calm_write_pointer calm_store_receipt calm_old_fence calm_takeover
  calm_load_denies calm_load_highwater calm_verify_store : keeps.
Ltac calm_modify := apply keeps_modify; intros ?s; open s; by apply calm_same.

(** ** The other holders of the gate *)
Lemma calm_heartbeats now : keeps calm (renew_deny_heartbeats sha256 clock now).
Proof.
  unfold renew_deny_heartbeats. apply keeps_seq; [apply _|destruct now; keeps|]. intros n.
  apply keeps_seq; [apply _|keeps|]. intros _.
  eapply yields_seq; [apply yields_or_recovery, yields_transaction, renew_rows|].
  cbn beta. intros u s s' r Hs Hu [= <- _]. apply calm_same; by open s.
Qed.
#[local] Hint Resolve calm_heartbeats : keeps.
Lemma calm_one_hold h : keeps calm (hold sha256 clock crash h).
Proof. destruct h; cbn; keeps. Qed.
#[local] Hint Resolve calm_one_hold : keeps.
Lemma calm_hold : keeps calm (hold_activation sha256 clock crash meanwhile).
Proof.
  unfold hold_activation. apply keeps_seq; [apply _|keeps|]. intros s0.
  apply keeps_seq; [apply _|calm_modify|]. intros _. apply keeps_for_each; [apply _|].
  intros h s s' r [= <- _]. eapply calm_one_hold, surjective_pairing.
Qed.

(** ** Leases and acknowledgements *)
Lemma calm_deny_all : keeps calm (deny_all clock).
Proof. unfold deny_all. keeps. Qed.
#[local] Hint Resolve calm_hold calm_deny_all : keeps.
Lemma calm_tables f : (∀ d, policy_tables (f d) = policy_tables d) → keeps calm (update_db f).
Proof. intros Hf. apply keeps_modify. intros s. apply calm_same; try (by open s). apply Hf. Qed.
Lemma calm_prune now : keeps calm (prune_auth_leases now).
Proof.
  unfold prune_auth_leases. keeps; apply calm_tables; [done|]. intros d. by case_match.
Qed.
Lemma calm_issue now : keeps calm (issue_auth_lease sha256 clock mint now).
Proof. unfold issue_auth_lease. keeps. by apply calm_tables. Qed.
Lemma calm_push a : keeps calm (push_ack sha256 crash a).
Proof.
  unfold push_ack. apply keeps_seq; [apply _|apply keeps_transaction|intros []; keeps].
  keeps. by apply calm_tables.
Qed.
#[local] Hint Resolve calm_prune calm_issue calm_push : keeps.
Lemma calm_ack v record : keeps calm (make_ack sha256 clock crash signer v record).
Proof. unfold make_ack. keeps. Qed.
Lemma calm_recorded v : keeps calm (ack_recorded sha256 clock crash signer v).
Proof. pose proof calm_ack. unfold ack_recorded. keeps. Qed.

(** ** The operations a command may reach *)
Definition moves (v : VerifiedGatewayCommand) (s s' : t) : Prop := synced s →
  synced s' ∧ config s' = config s ∧
  (policy_of s' = policy_of s ∨ step v (policy_of s) (policy_of s')).
Lemma calm_policy s s' : calm s s' → synced s →
  synced s' ∧ config s' = config s ∧ references s' = references s ∧ policy_of s' = policy_of s.
Proof. intros H Hs. destruct (H Hs) as (S & C & R & Pt). split_and!; try done. by apply policy_tables_eq. Qed.
Lemma calm_moves v s s' : calm s s' → moves v s s'.
Proof. intros H Hs. apply calm_policy in H as (S & C & _ & Ep); auto. Qed.
Lemma after_calm v s s1 s2 : calm s s1 → moves v s1 s2 → moves v s s2.
Proof.
  intros H1 H2 Hs. apply calm_policy in H1 as (S1 & C1 & _ & E1); [|done].
  destruct (H2 S1) as (S2 & C2 & E2). rewrite <-E1. split_and!; [done|congruence|done].
Qed.
Lemma before_calm v s s1 s2 : moves v s s1 → calm s1 s2 → moves v s s2.
Proof.
  intros H1 H2 Hs. destruct (H1 Hs) as (S1 & C1 & E1). apply calm_policy in H2 as (S2 & C2 & _ & E2); [|done].
  rewrite E2. split_and!; [done|congruence|done].
Qed.
Lemma calm_references s s' : calm s s' → synced s →
  (active s' = active s ∧ staged s' = staged s ∧ base s' = base s ∧ previous s' = previous s) ∧
  (∀ b r, validate_prepare_reference b r s' = validate_prepare_reference b r s) ∧
  (∀ r, validate_commit_reference r s' = validate_commit_reference r s).
Proof.
  intros H Hs. pose proof (calm_policy _ _ H Hs) as (Hs' & _ & [= Ra Rs Rb Rp _] & Ep).
  assert (deny_highwater s' = deny_highwater s) as Eh by (rewrite (sy_highwater _ Hs), (sy_highwater _ Hs'), Ep; done).
  split_and!; try done; intros; unfold validate_prepare_reference, validate_commit_reference, deny_floor_generation;
    by rewrite ?Ra, ?Rs, ?Rb, Eh.
Qed.

Lemma floor_spec s k e f : synced s → dget k (ActivationSpec.highest (policy_of s)) = Some (e, Some f) →
  ∃ m, deny_floor_generation s = Some m ∧ f ≤ m.
Proof.
  intros Hs Hk. rewrite <-(sy_highwater _ Hs) in Hk. apply dget_value in Hk.
  unfold deny_floor_generation. assert (f ∈ floors (deny_highwater s)) as Hf.
  { unfold floors. apply list_elem_of_omap. by exists (e, Some f). }
  revert Hf. generalize (floors (deny_highwater s)). clear. intros l Hf.
  assert (∀ l x, x ≤ foldl Z.max x l ∧ ∀ y, y ∈ l → y ≤ foldl Z.max x l) as Hmax.
  { clear. induction l as [|z l IH]; intros x; cbn; [split; [lia|by intros y ?%elem_of_nil]|].
    destruct (IH (Z.max x z)) as [H1 H2]. split; [lia|]. intros y [->|Hy]%elem_of_cons; [lia|auto]. }
  destruct l as [|x l]; [by apply elem_of_nil in Hf|]. eexists. split; [done|].
  destruct (Hmax l x) as [H1 H2]. apply elem_of_cons in Hf as [->|Hf]; [done|auto].
Qed.
Lemma floor_attained s m : synced s → deny_floor_generation s = Some m →
  ∃ k e, dget k (deny_highwater s) = Some (e, Some m).
Proof.
  intros Hs Hm. assert (m ∈ floors (deny_highwater s)) as Hin.
  { unfold deny_floor_generation in Hm. revert Hm. generalize (floors (deny_highwater s)). clear.
    intros [|x l]; [done|]. cbn. intros [= <-]. revert x. induction l as [|y l IH]; intros x; cbn; [by left|].
    destruct (Z.max_spec x y) as [[_ ->]|[_ ->]].
    - destruct (proj1 (elem_of_cons _ _ _) (IH y)) as [->|Hy]; [right; left|right; by right].
    - destruct (proj1 (elem_of_cons _ _ _) (IH x)) as [->|Hy]; [left|right; by right]. }
  apply list_elem_of_omap in Hin as ([e f] & Hin & [= ->]).
  apply elem_of_dvalues in Hin as [k Hk]; [by exists k, e|]. rewrite (sy_highwater _ Hs). apply (sy_wf _ Hs).
Qed.
Lemma above_floor s r : synced s →
  match deny_floor_generation s with Some floor => BundleReference.generation r <=? floor | None => false end = false →
  ActivationSpec.above_floors r (policy_of s).
Proof. intros Hs Hf k e f Hk. destruct (floor_spec _ _ _ _ Hs Hk) as (m & Em & Hm). rewrite Em in Hf. lia. Qed.
Lemma matches_approves v b r : policy_matches (VerifiedGatewayCommand.policy v) b r = Ok tt →
  ActivationSpec.approves v b r.
Proof.
  unfold policy_matches. intros H%raise_if_Ok. destruct (VerifiedGatewayCommand.policy v) as [e|] eqn:Ep; [|done].
  bprop. destruct H as [<- <-]. by exists e.
Qed.

(** ** Transactions that write the policy *)
Lemma db_only_update f : keeps db_only (update_db f).
Proof. apply keeps_modify. intros s. by destruct s. Qed.
#[local] Hint Resolve db_only_update : keeps.
Lemma db_only_meta k w : keeps db_only (set_meta sha256 k w).
Proof. unfold set_meta. keeps. Qed.
Lemma db_only_pointer n r : keeps db_only (put_pointer sha256 n r).
Proof. unfold put_pointer. keeps. Qed.
Lemma db_only_deny k o : keeps db_only (put_deny sha256 k o).
Proof. unfold put_deny. keeps. Qed.
Lemma db_only_highwater k e f : keeps db_only (put_highwater sha256 k e f).
Proof. unfold put_highwater. keeps. Qed.
Lemma db_only_record v id st res : keeps db_only (record_pending sha256 v id st res).
Proof. unfold record_pending, reserve_command_record, insert_command. keeps. Qed.
#[local] Hint Resolve db_only_meta db_only_pointer db_only_deny db_only_highwater db_only_record : keeps.

(** A committed transaction, and what the process then keeps, are one step. *)
Lemma step_moves v s s' d q : s' = s'{{ db := d }} → config s' = config s →
  ActivationSpec.next_command (GatewayCommandV1.channel_epoch (ActivationSpec.command v)) (policy_of s) =
    (GatewayCommandV1.sequence (ActivationSpec.command v),
     GatewayCommandV1.previous_digest (ActivationSpec.command v)) →
  (synced s → effect v (policy_of s) q) → dict_ok (Tables.pointers d) →
  policy_in d = q{{ ActivationSpec.heads ::= next_head v }} →
  (synced s → active s' = ActivationSpec.active q ∧ staged s' = ActivationSpec.staged q ∧
    base s' = ActivationSpec.base q ∧ previous s' = ActivationSpec.previous q ∧
    dmap overlay_content (denies s') = ActivationSpec.denied q ∧
    deny_highwater s' = ActivationSpec.highest q) → moves v s s'.
Proof.
  intros Hd Hc Hn He Hok Hp Hq Hs. specialize (He Hs). destruct (Hq Hs) as (Qa & Qs & Qb & Qp & Qd & Qh).
  assert (db s' = d) as Ed by (rewrite Hd; by destruct s').
  assert (policy_of s' = q{{ ActivationSpec.heads ::= next_head v }}) as Ep by (unfold policy_of; by rewrite Ed).
  assert (step v (policy_of s) (policy_of s')) as Hstep by (rewrite Ep; by constructor).
  split_and!; [|done|by right]. destruct Hs.
  split; [..|by rewrite Ed|by eapply ActivationSpec.policy_step_wf]; rewrite Ep; destruct q; done.
Qed.

Lemma prepare_guards b r s : validate_prepare_reference b r s = Ok tt → synced s →
  b = ActivationSpec.active (policy_of s) ∧ ActivationSpec.staged (policy_of s) = None ∧
  ActivationSpec.above_floors r (policy_of s) ∧
  ∀ b', b = Some b' → BundleReference.generation b' < BundleReference.generation r.
Proof.
  intros Hv Hs. apply bind_Ok in Hv as ([] & G1%raise_if_Ok & Hv).
  apply bind_Ok in Hv as ([] & G2%raise_if_Ok & Hv). apply bind_Ok in Hv as ([] & G3%raise_if_Ok & G4%raise_if_Ok).
  bprop. rewrite <-(sy_active _ Hs), <-(sy_staged _ Hs). split_and!; [done| |by apply above_floor|].
  - by apply eq_None_not_Some.
  - intros b' ->. lia.
Qed.
Lemma commit_guards r s : validate_commit_reference r s = Ok tt → synced s →
  ActivationSpec.staged (policy_of s) = Some r ∧
  ActivationSpec.base (policy_of s) = ActivationSpec.active (policy_of s) ∧
  ActivationSpec.above_floors r (policy_of s).
Proof.
  intros Hv Hs. apply bind_Ok in Hv as ([] & G1%raise_if_Ok & Hv).
  apply bind_Ok in Hv as ([] & G2%raise_if_Ok & G3%raise_if_Ok).
  bprop. rewrite <-(sy_active _ Hs), <-(sy_staged _ Hs), <-(sy_base _ Hs). split_and!; [done|done|by apply above_floor].
Qed.

Lemma stage_moves v bundle target base_ ack_id res :
  GatewayCommandV1.kind (ActivationSpec.command v) = WireCommandKind.PREPARE →
  policy_matches (VerifiedGatewayCommand.policy v) base_ target = Ok tt →
  keeps (moves v) (stage_prepare sha256 crash v bundle target base_ ack_id res).
Proof.
  intros Hk Hm%matches_approves s s' r H. unfold stage_prepare in H.
  apply M_bind_cases in H as [(s1 & [] & [= <- Hv] & H)|(e & [= <- _] & _)]; [|by apply calm_moves].
  apply M_bind_cases in H as [(s1 & [] & [= <- _] & H)|(e & H1%calm_crash & _)]; [|by apply calm_moves].
  apply M_bind_cases in H as [(s2 & [] & H2 & H)|(e & H2 & _)];
    [|apply transaction_Err in H2 as ->; [by apply calm_moves|keeps]].
  apply transaction_Ok in H2. apply M_bind_Ok in H2 as (x1 & pl & [= <- _] & H2).
  apply M_bind_Ok in H2 as (x1 & c & [= <- _] & H2).
  pose proof (writes_refl s) as W. apply M_bind_Ok in H2 as (x1 & [] & H1 & H2). eapply writes_bundle in W; [|exact H1].
  apply M_bind_Ok in H2 as (x2 & [] & H3 & H2).
  apply M_bind_cases in H as [(s3 & [] & [= <-] & H)|(e & [=] & _)].
  apply calm_crash in H. eapply before_calm; [|exact H]. clear H s'.
  intros Hs. destruct (prepare_guards _ _ _ Hv Hs) as (Eb & Est & Hf & Hg). pose proof (sy_pointers _ Hs).
  eapply writes_pointer in H3 as (rows1 & W1 & Ok1 & P1); [|exact W|done].
  apply M_bind_Ok in H2 as (x3 & [] & H3 & H2).
  eapply writes_pointer in H3 as (rows2 & W2 & Ok2 & P2); [|exact W1|done].
  eapply writes_record in H2 as (Hn & d & -> & Ep & Eq); [|exact W2].
  revert Hs. eapply step_moves with (d := d) (q := (policy_of s){{ ActivationSpec.staged := Some target;
    ActivationSpec.base := ActivationSpec.active (policy_of s) }}); subst base_.
  - by destruct s.
  - by destruct s.
  - done.
  - by constructor.
  - by rewrite Ep.
  - rewrite Eq. unfold policy_of, policy_in, pointer. cbn. by rewrite !P2, !P1.
  - intros []. by destruct s.
Qed.

Lemma commit_moves v target ack_id res :
  GatewayCommandV1.kind (ActivationSpec.command v) = WireCommandKind.COMMIT →
  ∀ s s' r, policy_matches (VerifiedGatewayCommand.policy v) (base s) target = Ok tt →
  commit_staged sha256 crash v target ack_id res s = (s', r) → moves v s s'.
Proof.
  intros Hk s s' r Hm%matches_approves H. unfold commit_staged in H.
  apply M_bind_cases in H as [(s1 & [] & [= <- Hv] & H)|(e & [= <- _] & _)]; [|by apply calm_moves].
  apply M_bind_cases in H as [(s1 & bundle & [= <- _] & H)|(e & [= <- _] & _)]; [|by apply calm_moves].
  apply M_bind_cases in H as [(s1 & text & [= <- _] & H)|(e & [= <- _] & _)]; [|by apply calm_moves].
  apply M_bind_cases in H as [(s1 & [] & H1%calm_write_pointer & H)|(e & H1%calm_write_pointer & _)];
    [|by apply calm_moves].
  intros Hs. destruct (calm_references _ _ H1 Hs) as ((_ & _ & Eb & _) & _ & Ev).
  rewrite <-Ev in Hv. rewrite <-Eb in Hm.
  revert Hs. apply (after_calm v s s1); [done|]. clear Eb Ev H1 s. rename s1 into s.
  apply M_bind_cases in H as [(s2 & [] & H2 & H)|(e & H2 & _)];
    [|apply transaction_Err in H2 as ->; [by apply calm_moves|keeps]].
  apply transaction_Ok in H2. apply M_bind_cases in H as [(s3 & [] & [= <-] & H)|(e & [=] & _)].
  assert (calm (s2{{ previous := active s2; active := Some target; active_bundle := Some bundle;
    staged := None; base := None }}) s') as Hc.
  { apply M_bind_cases in H as [(s3 & [] & H3%calm_crash & [= <- _])|(e & H3%calm_crash & _)]; done. }
  eapply before_calm; [|exact Hc]. clear H Hc s'.
  intros Hs. destruct (commit_guards _ _ Hv Hs) as (Est & Eba & Hf). pose proof (sy_pointers _ Hs).
  pose proof (sy_active _ Hs) as Ea.
  pose proof (writes_refl s) as W. apply M_bind_Ok in H2 as (x & x0 & [= <- <-] & H2).
  apply M_bind_Ok in H2 as (x & [] & H3 & H2).
  eapply writes_pointer in H3 as (rows1 & W1 & Ok1 & P1); [|exact W|done].
  apply M_bind_Ok in H2 as (x2 & [] & H3 & H2).
  eapply writes_pointer in H3 as (rows2 & W2 & Ok2 & P2); [|exact W1|done].
  apply M_bind_Ok in H2 as (x3 & [] & H3 & H2).
  eapply writes_pointer in H3 as (rows3 & W3 & Ok3 & P3); [|exact W2|done].
  apply M_bind_Ok in H2 as (x4 & [] & H3 & H2).
  eapply writes_pointer in H3 as (rows4 & W4 & Ok4 & P4); [|exact W3|done].
  eapply writes_record in H2 as (Hn & d & -> & Ep & Eq); [|exact W4].
  revert Hs. eapply step_moves with (d := d) (q := (policy_of s){{
    ActivationSpec.previous := ActivationSpec.active (policy_of s); ActivationSpec.active := Some target;
    ActivationSpec.staged := None; ActivationSpec.base := None }}).
  - by destruct s.
  - by destruct s.
  - done.
  - intros []. constructor; [done..|rewrite <-Eba, <-sy_base0; congruence|done].
  - by rewrite Ep.
  - rewrite Eq. unfold policy_of, policy_in, pointer. cbn. rewrite !P4, !P3, !P2, !P1, Ea. done.
  - intros []. by destruct s.
Qed.

Lemma active_binds v s : active_policy (VerifiedGatewayCommand.policy v) s = Ok tt → synced s →
  ActivationSpec.binds_active v (policy_of s).
Proof.
  unfold active_policy. intros H%raise_if_Ok Hs. unfold ActivationSpec.binds_active. rewrite <-(sy_active _ Hs).
  destruct (active s) as [r|]; [|done]. destruct (VerifiedGatewayCommand.policy v) as [e|]; [|done].
  bprop. by exists e, r.
Qed.
Lemma calm_active_policy s s' v : calm s s' → synced s →
  active_policy (VerifiedGatewayCommand.policy v) s = Ok tt → active_policy (VerifiedGatewayCommand.policy v) s' = Ok tt.
Proof. intros H Hs. destruct (calm_references _ _ H Hs) as ((Ea & _) & _). unfold active_policy. by rewrite Ea. Qed.
Lemma floor_kept old new : floor_contracts old new = false → ActivationSpec.floor_le old new.
Proof. intros H f ->. cbn in H. destruct new as [n|]; [|done]. exists n. split; [done|lia]. Qed.

Lemma deny_moves v payload ack_id res s s' r :
  GatewayCommandV1.kind (ActivationSpec.command v) = WireCommandKind.DENY →
  active_policy (VerifiedGatewayCommand.policy v) s = Ok tt →
  issue_deny sha256 clock crash v payload ack_id res s = (s', r) → moves v s s'.
Proof.
  intros Hk Ha H. unfold issue_deny in H. cbv zeta in H.
  set (k := (DenyCommandPayload.subject_type payload, DenyCommandPayload.subject_id payload) : subject) in *.
  apply M_bind_cases in H as [(s1 & [] & H1%calm_verify_store & H)|(e & H1%calm_verify_store & _)]; [|by apply calm_moves].
  apply M_bind_cases in H as [(x & x0 & [= <- <-] & H)|(e & [=] & _)].
  apply M_bind_cases in H as [(x & [] & [= <- G1] & H)|(e & [= <- _] & _)]; [|by apply calm_moves].
  apply M_bind_cases in H as [(x & [] & [= <- G2] & H)|(e & [= <- _] & _)]; [|by apply calm_moves].
  apply M_bind_cases in H as [(s2 & now & H2%calm_now & H)|(e & H2%calm_now & _)]; [|apply calm_moves; by etrans].
  assert (calm s s2) as C2 by (by etrans).
  apply M_bind_cases in H as [(x & overlay & [= <- Go] & H)|(e & [= <- _] & _)]; [|by apply calm_moves].
  apply M_bind_cases in H as [(x & [] & [= <- _] & H)|(e & H3%calm_crash & _)]; [|apply calm_moves; by etrans].
  intros Hs. pose proof (calm_policy _ _ C2 Hs) as (Hs2 & _). pose proof (calm_policy _ _ H1 Hs) as (Hs1 & _).
  pose proof (calm_active_policy _ _ _ C2 Hs Ha) as Hb%active_binds; [|done].
  assert (dget k (deny_highwater s1) = dget k (ActivationSpec.highest (policy_of s2))) as Eh.
  { rewrite (sy_highwater _ Hs1). destruct (calm_policy _ _ H2 Hs1) as (_ & _ & _ & Ep). by rewrite Ep. }
  revert Hs. eapply after_calm; [exact C2|]. clear C2 H1 H2 Ha. rename s2 into x.
  apply M_bind_cases in H as [(s2 & [] & H2 & H)|(e & H2 & _)];
    [|apply transaction_Err in H2 as ->; [by apply calm_moves|keeps]].
  apply transaction_Ok in H2. apply M_bind_cases in H as [(s3 & [] & [= <-] & H)|(e & [=] & _)].
  apply calm_crash in H. eapply before_calm; [|exact H]. clear H s'.
  pose proof (writes_refl x) as W.
  apply M_bind_Ok in H2 as (x1 & [] & H3 & H2). eapply writes_deny in H3; [|exact W].
  apply M_bind_Ok in H2 as (x2 & [] & H4 & H2). eapply writes_highwater in H4; [|exact H3].
  apply M_bind_Ok in H2 as (x3 & [] & H5 & H2). eapply writes_meta in H5; [|exact H4].
  eapply writes_record in H2 as (Hn & d & -> & Ep & Eq); [|exact H5].
  apply bind_Ok in Go as (u & _ & [= <-]). clear W H3 H4 H5.
  set (epoch := DenyCommandPayload.deny_epoch payload) in *.
  set (floor := DenyCommandPayload.deny_floor_generation payload) in *.
  apply raise_if_Ok in G1, G2. rewrite Eh in G1, G2.
  eapply step_moves with (d := d) (q := (policy_of x){{
    ActivationSpec.denied ::= dset k (epoch, DenyCommandPayload.reason payload, floor);
    ActivationSpec.highest ::= dset k (epoch, floor) }}).
  - by destruct x.
  - by destruct x.
  - done.
  - intros _. constructor; [done..|]. intros e f Hkf. rewrite Hkf in G1, G2. split; [cbn in G1; lia|by apply floor_kept].
  - rewrite Ep. apply Hs2.
  - by rewrite Eq.
  - intros []. destruct x; cbn in *. split_and!; try done; [|by rewrite <-sy_highwater0].
    rewrite <-sy_denies0. apply (dmap_dset overlay_content).
Qed.

Lemma clear_moves v payload ack_id res s s' r :
  GatewayCommandV1.kind (ActivationSpec.command v) = WireCommandKind.CLEAR_DENY →
  active_policy (VerifiedGatewayCommand.policy v) s = Ok tt →
  clear_deny sha256 clock v payload ack_id res s = (s', r) → moves v s s'.
Proof.
  intros Hk Ha H. unfold clear_deny in H. cbv zeta in H.
  set (k := (ClearDenyCommandPayload.subject_type payload, ClearDenyCommandPayload.subject_id payload) : subject) in *.
  apply M_bind_cases in H as [(s1 & [] & H1%calm_verify_store & H)|(e & H1%calm_verify_store & _)]; [|by apply calm_moves].
  apply M_bind_cases in H as [(x & x0 & [= <- <-] & H)|(e & [=] & _)].
  apply M_bind_cases in H as [(x & [] & [= <- G1] & H)|(e & [= <- _] & _)]; [|by apply calm_moves].
  apply M_bind_cases in H as [(s2 & now & H2%calm_now & H)|(e & H2%calm_now & _)]; [|apply calm_moves; by etrans].
  assert (calm s s2) as C2 by (by etrans).
  intros Hs. pose proof (calm_policy _ _ C2 Hs) as (Hs2 & _). pose proof (calm_policy _ _ H1 Hs) as (Hs1 & _).
  pose proof (calm_active_policy _ _ _ C2 Hs Ha) as Hb%active_binds; [|done].
  assert (overlay_content <$> dget k (denies s1) = dget k (ActivationSpec.denied (policy_of s2))) as Eh.
  { rewrite <-dget_dmap, (sy_denies _ Hs1). destruct (calm_policy _ _ H2 Hs1) as (_ & _ & _ & Ep). by rewrite Ep. }
  revert Hs. eapply after_calm; [exact C2|]. clear C2 H1 H2 Ha. rename s2 into x.
  apply M_bind_cases in H as [(s2 & [] & H2 & H)|(e & H2 & _)];
    [|apply transaction_Err in H2 as ->; [by apply calm_moves|keeps]].
  apply transaction_Ok in H2. injection H as <- _.
  pose proof (writes_refl x) as W.
  apply M_bind_Ok in H2 as (x1 & [] & H3 & H2). eapply writes_undeny in H3; [|exact W].
  apply M_bind_Ok in H2 as (x3 & [] & H5 & H2). eapply writes_meta in H5; [|exact H3].
  eapply writes_record in H2 as (Hn & d & -> & Ep & Eq); [|exact H5]. clear W H3 H5.
  apply raise_if_Ok in G1. destruct (dget k (denies s1)) as [o|] eqn:Eo; [|done]. bprop.
  eapply step_moves with (d := d) (q := (policy_of x){{ ActivationSpec.denied ::= ddel k }}).
  - by destruct x.
  - by destruct x.
  - done.
  - intros _. by econstructor.
  - rewrite Ep. apply Hs2.
  - by rewrite Eq.
  - intros []. destruct x; cbn in *. split_and!; try done.
    rewrite <-sy_denies0. apply (dmap_ddel overlay_content).
Qed.

Lemma status_body v ack_id issue factory now s s' r : keeps calm factory → synced s →
  (updated ← renew_deny_rows sha256 now;
   modify (λ s, s{{ denies := updated; deny_heartbeat_ms := now }});;
   prune_auth_leases now;;
   (if issue : bool then issue_auth_lease sha256 clock mint now;; mret tt else mret tt);;
   crash_at crash "status_after_heartbeat"%string;;
   result ← factory;
   record_pending sha256 v ack_id GatewayAckStatus.STATUS result) s = (s', r) →
  ∃ x, calm s x ∧ ((∃ e, r = Err e ∧ s' = x) ∨
    ∃ res, record_pending sha256 v ack_id GatewayAckStatus.STATUS res x = (s', r)).
Proof.
  intros Hf Hs H.
  apply M_bind_cases in H as [(s1 & u & H1 & H)|(e & H1 & ->)];
    destruct (renew_rows sha256 now _ _ _ Hs H1) as [C1 U1]; [|by exists s'; split; [|left; eauto]].
  apply M_bind_cases in H as [(s2 & [] & H2 & H)|(e & [=] & _)].
  assert (calm s s2) as C2.
  { etrans; [exact C1|]. injection H2 as <-. apply calm_same; open s1; try done. by apply U1. }
  clear C1 U1 H1 H2. apply M_bind_cases in H as [(s3 & [] & H3%calm_prune & H)|(e & H3%calm_prune & ->)];
    [|exists s'; split; [by etrans|eauto]].
  assert (calm s s3) as C3 by (by etrans). clear C2 H3 s1 s2.
  assert (keeps calm (if issue then issue_auth_lease sha256 clock mint now;; mret tt else mret tt)) as Hl
    by (destruct issue; keeps).
  apply M_bind_cases in H as [(s4 & [] & H4%Hl & H)|(e & H4%Hl & ->)]; [|exists s'; split; [by etrans|eauto]].
  apply M_bind_cases in H as [(s5 & [] & H5%calm_crash & H)|(e & H5%calm_crash & ->)];
    [|exists s'; split; [do 2 (etrans; [done|]); done|eauto]].
  apply M_bind_cases in H as [(s6 & res & H6%Hf & H)|(e & H6%Hf & ->)]; [|exists s'];
    [exists s6|]; (split; [do 3 (etrans; [done|]); done|eauto]).
Qed.
Lemma status_undone s x s' now : calm s x → db_only x s' → synced s →
  calm s (s'{{ db := db s }}{{ denies := denies s; deny_heartbeat_ms := now }}).
Proof.
  intros C D Hs. destruct (calm_policy _ _ C Hs) as (Hx & Cx & Rx & Ep).
  assert (deny_highwater x = deny_highwater s) as Eh by (rewrite (sy_highwater _ Hs), (sy_highwater _ Hx), Ep; done).
  apply calm_same; rewrite D; unfold config, references in *; destruct x; cbn in *; done.
Qed.

Lemma status_moves v ack_id issue factory s s' r : keeps calm factory →
  GatewayCommandV1.kind (ActivationSpec.command v) = WireCommandKind.STATUS →
  record_status sha256 clock mint crash v ack_id issue factory s = (s', r) → moves v s s'.
Proof.
  intros Hf Hk H Hs. revert Hs. unfold record_status in H.
  apply M_bind_cases in H as [(s1 & now & H1%calm_now & H)|(e & H1%calm_now & _)]; [|by apply calm_moves].
  eapply after_calm; [exact H1|]. clear H1 s. intros Hs.
  apply M_bind_cases in H as [(x & x0 & [= <- <-] & H)|(e & [=] & _)]. cbv zeta in H.
  unfold on_error, catch, transaction in H.
  destruct ((_ : M t unit) s1) as [s2 [[]|e]] eqn:Eb in H;
    (apply status_body in Eb as (x & C & Hx); [|done|done]).
  - injection H as <- _. destruct Hx as [(e & [=] & _)|[res Hr]]. pose proof (calm_policy _ _ C Hs) as (Hx & _).
    revert Hs. apply (after_calm v s1 x); [done|]. pose proof (writes_refl x) as W. eapply writes_record in Hr as (Hn & d & -> & Ep & Eq); [|exact W].
    eapply step_moves with (d := d) (q := policy_of x).
    + by destruct x.
    + by destruct x.
    + done.
    + intros _. by constructor.
    + rewrite Ep. apply Hx.
    + by rewrite Eq.
    + intros []. by destruct x.
  - injection H as <- _. revert Hs. apply calm_moves. intros Hs. revert Hs.
    destruct Hx as [(e' & _ & ->)|[res Hr%db_only_record]]; intros Hs;
      (apply (status_undone s1 x _ (deny_heartbeat_ms s1)); done).
Qed.

(** ** The handlers of the service

    [from Pre v m]: where [Pre] holds, [m] is calm or one step of [v]. *)
Definition from {A} (Pre : t → Prop) (v : VerifiedGatewayCommand) (m : M t A) : Prop :=
  ∀ s s' r, Pre s → m s = (s', r) → moves v s s'.
Definition stable (Pre : t → Prop) : Prop := ∀ s s', synced s → calm s s' → Pre s → Pre s'.
Lemma from_calm {A} Pre v (m : M t A) : keeps calm m → from Pre v m.
Proof. intros Hm s s' r _ H. eapply calm_moves, Hm, H. Qed.
Lemma from_seq {A B} Pre v (m : M t A) (k : A → M t B) : stable Pre → keeps calm m →
  (∀ a, from Pre v (k a)) → from Pre v (m ≫= k).
Proof.
  intros HP Hm Hk s s' r Hs [(s1 & a & H1%Hm & H)|(e & H1%Hm & _)]%M_bind_cases; [|by apply calm_moves].
  intros Hsync. revert Hsync. intros Hsync. pose proof (HP _ _ Hsync H1 Hs) as P1.
  revert Hsync. eapply after_calm; [exact H1|]. by eapply Hk.
Qed.
Lemma from_then {A B} Pre v (m : M t A) (k : A → M t B) : from Pre v m → (∀ a, keeps calm (k a)) →
  from Pre v (m ≫= k).
Proof.
  intros Hm Hk s s' r Hs [(s1 & a & H1 & H%Hk)|(e & H1 & _)]%M_bind_cases; [|by eapply Hm].
  eapply before_calm; [by eapply Hm|done].
Qed.
Lemma from_lift {A B} Pre v (x : result A) (k : A → M t B) : (∀ a, x = Ok a → from Pre v (k a)) →
  from Pre v (a ← lift x; k a).
Proof.
  intros Hk s s' r Hs [(s1 & a & [= <- E1] & H)|(e & [= <- _] & _)]%M_bind_cases;
    [by eapply Hk|by apply calm_moves].
Qed.
Lemma from_reads {A B} (Pre : t → Prop) v (f : t → result A) (k : A → M t B) :
  (∀ a, from (λ s, Pre s ∧ f s = Ok a) v (k a)) → from Pre v (a ← reads f; k a).
Proof.
  intros Hk s s' r Hs [(s1 & a & [= <- E1] & H)|(e & [= <- _] & _)]%M_bind_cases; [|by apply calm_moves].
  by eapply Hk.
Qed.
Lemma from_weaken {A} (Pre Pre' : t → Prop) v (m : M t A) : (∀ s, Pre s → Pre' s) → from Pre' v m → from Pre v m.
Proof. intros HP Hm s s' r Hs. apply Hm. auto. Qed.
Definition binds (v : VerifiedGatewayCommand) (s : t) : Prop :=
  active_policy (VerifiedGatewayCommand.policy v) s = Ok tt.
Lemma stable_binds v : stable (binds v).
Proof. intros s s' Hs H. by apply calm_active_policy. Qed.
Lemma stable_base v target : stable (λ s, policy_matches (VerifiedGatewayCommand.policy v) (base s) target = Ok tt).
Proof. intros s s' Hs H. destruct (calm_references _ _ H Hs) as ((_ & _ & -> & _) & _). done. Qed.

Context (policy_keys : dict Z (dict string public_key)) (channel_trust : ChannelTrustSet).
Context (generation_gate : AuthorizedLeg → string → result bool) (backend_manifest_hash : string).
Context (apply_bundle preflight_bundle : PolicyBundleV1 → result unit) (service_limits : BundleLimits).
Context (readiness : bool * bool * bool).

#[local] Hint Resolve calm_hold calm_mint calm_store_bundle calm_recorded calm_enter_recovery calm_ack : keeps.
Lemma calm_cancelled site : keeps calm (check_cancelled cancelled site).
Proof. unfold check_cancelled. keeps. Qed.
#[local] Hint Resolve calm_cancelled : keeps.
Ltac pass := apply from_seq; [done || apply stable_binds || apply stable_base|by keeps|intros ?].

Lemma from_prepare v : GatewayCommandV1.kind (ActivationSpec.command v) = WireCommandKind.PREPARE →
  from (λ _, True) v (prepare sha256 clock mint crash meanwhile cancelled generation_gate backend_manifest_hash
    preflight_bundle service_limits v).
Proof.
  intros Hk. unfold prepare. apply from_lift; intros payload _. cbv zeta. apply from_lift; intros raw _.
  apply from_lift; intros bundle _. apply from_lift; intros [] Hm. do 6 pass.
  pass. apply from_then; [|intros; keeps]. intros s s' r _. by apply stage_moves.
Qed.
Lemma from_commit v : GatewayCommandV1.kind (ActivationSpec.command v) = WireCommandKind.COMMIT →
  from (λ _, True) v (commit sha256 clock mint crash meanwhile cancelled signer apply_bundle v).
Proof.
  intros Hk. unfold commit. apply from_lift; intros target _.
  intros s s' r _ [(x & x0 & [= <- <-] & H)|(e & [=] & _)]%M_bind_cases.
  apply M_bind_cases in H as [(x & [] & [= <- Hm] & H)|(e & [= <- _] & _)]; [|by apply calm_moves].
  revert s s' r Hm H. do 4 pass. apply from_then; [|intros; keeps].
  intros s s' r. by apply commit_moves.
Qed.
Lemma from_deny v : GatewayCommandV1.kind (ActivationSpec.command v) = WireCommandKind.DENY →
  from (λ _, True) v (deny sha256 clock mint crash meanwhile cancelled signer v).
Proof.
  intros Hk. unfold deny. apply from_lift; intros payload _. apply from_reads; intros [].
  apply (from_weaken _ (binds v)); [by intros s []|]. do 3 pass. apply from_then; [|intros; keeps].
  intros s s' r. by apply deny_moves.
Qed.
Lemma from_clear v : GatewayCommandV1.kind (ActivationSpec.command v) = WireCommandKind.CLEAR_DENY →
  from (λ _, True) v (clear sha256 clock mint crash meanwhile cancelled signer v).
Proof.
  intros Hk. unfold clear. apply from_lift; intros payload _. apply from_reads; intros [].
  apply (from_weaken _ (binds v)); [by intros s []|]. do 3 pass. apply from_then; [|intros; keeps].
  intros s s' r. by apply clear_moves.
Qed.
Lemma calm_status_result : keeps calm (status_result sha256 clock readiness).
Proof. unfold status_result. keeps. Qed.
Lemma from_status v : GatewayCommandV1.kind (ActivationSpec.command v) = WireCommandKind.STATUS →
  from (λ _, True) v (service_status sha256 clock mint crash meanwhile cancelled signer readiness v).
Proof.
  intros Hk. unfold service_status. apply from_lift; intros payload _. do 3 pass. apply from_then; [|intros; keeps].
  intros s s' r _. apply status_moves; [|done]. apply calm_status_result.
Qed.
End Steps.
End StepFacts.
