(* ===== verification/ActivationProps.v ===== *)
(** * What activation guarantees

    Every call of the service refines the machine of [ActivationSpec]; a command
    is answered once and for all; a denied subject is not permitted; a command of
    an older fence changes nothing ([ActivationFence]). *)
From S2P Require Export ActivationSteps.
#[local] Open Scope Z_scope.

Module ActivationTheorems.
Import GatewayLocalState LocalState Activation StateFacts StepFacts.
Import ActivationSpec (Policy, wf, step, effect, advances).

Section Theorems.
Context `{E : Ed25519} `{P : Pydantic} `{BC : BundleCodec}.
Context (sha256 : bytes → bytes) (loads : bytes → result Json).
Context (policy_keys : dict Z (dict string public_key)) (channel_trust : ChannelTrustSet).
Context (generation_gate : AuthorizedLeg → string → result bool) (backend_manifest_hash : string).
Context (preflight_bundle : PolicyBundleV1 → result unit) (service_limits : BundleLimits).
Context (signer : ChannelSigner).

(** What differs from one call to the next: the readings, the identifiers, where
    the process fails or is cancelled, what the other holders of the gate do,
    whether the swap succeeds. *)
Record Circumstances := {
  clock : nat → Z;
  mint : nat → string;
  crash : string → result unit;
  meanwhile : nat → list holder;
  cancelled : string → bool;
  apply_bundle : PolicyBundleV1 → result unit;
  readiness : bool * bool * bool;
}.
Definition call (w : Circumstances) : GatewayCommandV1 → M t GatewayAckV1 :=
  execute sha256 loads (clock w) (mint w) (crash w) (meanwhile w) (cancelled w) signer policy_keys
    channel_trust generation_gate backend_manifest_hash (apply_bundle w) preflight_bundle service_limits
    (readiness w).
Definition verified : GatewayCommandV1 → result VerifiedGatewayCommand :=
  verify_command sha256 loads policy_keys channel_trust.
Definition unseen (c : GatewayCommandV1) (s : t) : Prop :=
  dget (GatewayCommandV1.command_id c) (Tables.commands (db s)) = None.

(** What the signatures of a verified command say: the channel key that the trust
    set names for its seal signed the command, and the policy key named by the
    approval signed exactly the canonical form of the approval. *)
Definition signed_by (key : public_key) (signature : string) (message : bytes) : Prop :=
  ∃ b, fromhex signature = Ok b ∧ verify key b message = true.
Definition approval_signed (p : SignedActivationV1) (e : ActivationEnvelope) : Prop :=
  ∃ epoch key payload, payload_bytes p = Ok payload ∧
    canonical_json_bytes (ActivationEnvelope.dump e) = Ok payload ∧
    dget (ActivationEnvelope.trust_epoch e) policy_keys = Some epoch ∧
    dget (ActivationEnvelope.signer_key_id e) epoch = Some key ∧
    signed_by key (SignedActivationV1.signature p) payload.
Definition authentic (c : GatewayCommandV1) (v : VerifiedGatewayCommand) : Prop :=
  VerifiedGatewayCommand.command v = c ∧
  GatewayCommandV1.installation_id c = ChannelTrustSet.installation_id channel_trust ∧
  gateway_command_digest sha256 c = Ok (VerifiedGatewayCommand.command_digest v) ∧
  (∃ key m, channel_key (GatewayCommandV1.channel_seal c) (GatewayCommandV1.channel_epoch c) channel_trust = Ok key ∧
    gateway_command_signing_bytes c = Ok m ∧
    signed_by key (ChannelSealV1.signature (GatewayCommandV1.channel_seal c)) m) ∧
  match VerifiedGatewayCommand.policy v with
  | None => GatewayCommandV1.policy c = None
  | Some e => ∃ p, GatewayCommandV1.policy c = Some p ∧ approval_signed p e
  end.

Lemma check_signature_Ok key sig m msg : check_signature key sig m msg = Ok tt →
  ∃ b, m = Ok b ∧ signed_by key sig b.
Proof.
  unfold check_signature. destruct (fromhex sig) as [s|] eqn:Es; [|done]. destruct m as [m|e].
  - destruct (verify key s m) eqn:Ev; [|done]. intros _. exists m. split; [done|]. by exists s.
  - by destruct (is_value_error e).
Qed.
Lemma parsed_canonical p e : parse_activation loads p = Ok e → ∃ payload, payload_bytes p = Ok payload ∧
  canonical_json_bytes (ActivationEnvelope.dump e) = Ok payload.
Proof.
  intros (payload & Ep & (e' & (e'' & _ & (canonical & Ec & ([] & G%raise_if_Ok &
    [= ->])%bind_Ok)%bind_Ok)%bind_Ok & H)%bind_Ok)%bind_Ok. exists payload. split; [done|].
  apply bind_Ok in H as ([] & _ & H). apply bind_Ok in H as ([] & _ & [= ->]). bprop. by subst.
Qed.
Lemma verify_authentic c v : verified c = Ok v → authentic c v.
Proof.
  intros H. apply bind_Ok in H as ([] & G1%raise_if_Ok & H). apply bind_Ok in H as (key & Hk & H).
  apply bind_Ok in H as ([] & (m & Hm & Hs)%check_signature_Ok & H).
  apply bind_Ok in H as (policy & Hp & H). apply bind_Ok in H as (digest & Hd & [= <-]).
  bprop. split_and!; cbn; [done|done|done|by exists key, m|].
  destruct (GatewayCommandV1.policy c) as [p|]; [|by injection Hp as <-].
  apply bind_Ok in Hp as (e & He & [= <-]). exists p. split; [done|]. unfold verify_signed_activation in He.
  apply bind_Ok in He as (e' & (payload & Hb & Hc)%parsed_canonical & He).
  destruct (dget _ policy_keys) as [epoch|] eqn:Ee; [|done].
  destruct (dget _ epoch) as [k|] eqn:Ek; [|done].
  apply bind_Ok in He as ([] & (b & Hb' & Hsig)%check_signature_Ok & [= <-]).
  exists epoch, k, payload. split_and!; try done. congruence.
Qed.

Lemma seen_branch c v s : authentic c v → validate_new_command sha256 v s = Ok None → unseen c s.
Proof. intros (<- & _) H. by apply unseen_next in H as [H _]. Qed.

Lemma call_refines w c s s' r : synced s → call w c s = (s', r) →
  synced s' ∧ config s' = config s ∧
  (policy_of s' = policy_of s ∨
   ∃ v, authentic c v ∧ unseen c s ∧ step v (policy_of s) (policy_of s')).
Proof.
  intros Hs H. unfold call, execute in H.
  apply M_bind_cases in H as [(x & v & [= <- Hv%verify_authentic] & H)|(e & [= <- _] & _)]; [|by auto].
  apply M_bind_cases in H as [(x & existing & [= <- Hn] & H)|(e & [= <- _] & _)]; [|by auto].
  destruct existing as [record|].
  { apply calm_ack, calm_policy in H as (Hs' & Hc & _ & Hp); auto. }
  assert (moves v s s') as Hm.
  { unfold execute_new in H. apply M_bind_cases in H as [(x & [] & [= <- _] & H)|(e & [= <- _] & _)]; [|by apply calm_moves].
    revert s s' r H Hs Hn. intros s s' r H _ _. destruct (GatewayCommandV1.kind _) eqn:Ek.
    - eapply (from_then (λ _, True)); [by apply from_prepare|intros; apply calm_recorded|done|exact H].
    - by eapply from_commit.
    - by eapply from_deny.
    - by eapply from_clear.
    - by eapply from_status. }
  destruct (Hm Hs) as (Hs' & Hc & [Hp|Hp]); [auto|]. split_and!; [done|done|]. right. exists v.
  split_and!; [done| |done]. by eapply seen_branch.
Qed.

(** ** Runs of the service

    The calls of a process, with what the holders of the gate do between them. *)
Inductive served : t → list GatewayCommandV1 → t → Prop :=
| served_nil s : served s [] s
| served_call w s c r s1 cs s2 : call w c s = (s1, r) → served s1 cs s2 → served s (c :: cs) s2
| served_hold w s h cs s2 : served (hold sha256 (clock w) (crash w) h s).1 cs s2 → served s cs s2.

Lemma served_runs s cs s' : synced s → served s cs s' → synced s' ∧
  ∃ vs, ActivationSpec.run vs (policy_of s) (policy_of s') ∧
    Forall (λ v, ∃ c, c ∈ cs ∧ authentic c v) vs.
Proof.
  intros Hs H. induction H as [s|w s c r s1 cs s2 H1 H2 IH|w s h cs s2 H IH].
  - split; [done|]. exists []. split; [constructor|done].
  - apply call_refines in H1 as (Hs1 & _ & Hc); [|done]. destruct (IH Hs1) as (Hs2 & vs & R & Hvs).
    assert (Forall (λ v, ∃ c', c' ∈ c :: cs ∧ authentic c' v) vs) as Hvs'.
    { eapply Forall_impl; [exact Hvs|]. intros v (c' & Hin & Ha). exists c'. split; [by right|done]. }
    split; [done|]. destruct Hc as [<-|(v & Ha & _ & Hstep)]; [by exists vs|].
    exists (v :: vs). split; [by econstructor|]. constructor; [|done]. exists c. split; [by left|done].
  - assert (calm s (hold sha256 (clock w) (crash w) h s).1) as Hc by (eapply calm_one_hold, surjective_pairing).
    destruct (calm_policy _ _ Hc Hs) as (Hs1 & _ & _ & Ep). rewrite <-Ep. by apply IH.
Qed.

(** C10. The service implements the machine of [ActivationSpec]: whatever is called
    in whatever order, at whatever step the process fails or is cancelled and
    whatever the other holders of the gate do between, the durable policy moves
    from one state to the next only by steps of commands that were called and are
    authentic; on each channel epoch these are numbered one by one from the head
    of the chain and each names the digest of the one before, so none takes effect
    twice. *)
Theorem served_refines s cs s' : synced s → served s cs s' →
  ∃ vs, ActivationSpec.run vs (policy_of s) (policy_of s') ∧
    Forall (λ v, ∃ c, c ∈ cs ∧ authentic c v) vs ∧
    ∀ epoch, ActivationSpec.chained (ActivationSpec.next_command epoch (policy_of s))
      (List.filter (ActivationSpec.of_epoch epoch) vs).
Proof.
  intros Hs H. destruct (served_runs _ _ _ Hs H) as (_ & vs & R & Hvs). exists vs. split_and!; [done..|].
  intros epoch. eapply ActivationSpec.run_chained; [apply Hs|exact R].
Qed.

(** C11. In any run, the active generation is kept or grows, and no subject's
    highest deny epoch, deny floor, nor the floor under every activation, falls;
    clearing a deny does not lower them. *)
Theorem served_monotone s cs s' : synced s → served s cs s' →
  (∀ b, active s = Some b → ∃ r, active s' = Some r ∧
     (r = b ∨ BundleReference.generation b < BundleReference.generation r)) ∧
  (∀ k e f, dget k (deny_highwater s) = Some (e, f) →
     ∃ e' f', dget k (deny_highwater s') = Some (e', f') ∧ e ≤ e' ∧ ActivationSpec.floor_le f f') ∧
  (∀ floor, deny_floor_generation s = Some floor →
     ∃ floor', deny_floor_generation s' = Some floor' ∧ floor ≤ floor').
Proof.
  intros Hs H. destruct (served_runs _ _ _ Hs H) as (Hs' & vs & R & _).
  destruct (ActivationSpec.run_wf _ _ _ (sy_wf _ Hs) R) as [_ [Aa Ah _]].
  assert (∀ k e f, dget k (deny_highwater s) = Some (e, f) →
     ∃ e' f', dget k (deny_highwater s') = Some (e', f') ∧ e ≤ e' ∧ ActivationSpec.floor_le f f') as Hh.
  { by rewrite (sy_highwater _ Hs), (sy_highwater _ Hs'). }
  split_and!; [|done|].
  - rewrite (sy_active _ Hs), (sy_active _ Hs'). intros b Eb. destruct Aa as [<-|(r & -> & Hg)].
    + exists b. auto.
    + exists r. auto.
  - intros m (k & e & Hk)%floor_attained; [|done]. destruct (Hh _ _ _ Hk) as (e' & f' & Hk' & _ & Hf).
    destruct (Hf m eq_refl) as (g & -> & Hg). rewrite (sy_highwater _ Hs') in Hk'.
    destruct (floor_spec _ _ _ _ Hs' Hk') as (m' & Em & Hm). exists m'. split; [done|lia].
Qed.

(** ** One answer *)
Lemma validated_ack a b : GatewayAckV1.validate a = Ok b → b = a ∧ GatewayAckV1.validate b = Ok b.
Proof. unfold GatewayAckV1.validate. intros H. pose proof H as ([] & _ & [= ->])%bind_Ok. done. Qed.
Lemma decode_acked id row record a c : decode_command sha256 id row = Ok record → Tables.ack row = None →
  GatewayAckV1.validate a = Ok a →
  command_checksum sha256 id (row{{ Tables.ack := Some a }}) = Ok c →
  decode_command sha256 id (row{{ Tables.ack := Some a }}{{ Tables.c_checksum := c }}) =
    Ok (record{{ CommandRecord.ack := Some a }}).
Proof.
  destruct row as [d ce sq ai st re ack ck]. cbn [Tables.ack]. intros H -> Ha Hc. unfold decode_command in *.
  apply bind_Ok in H as (x & _ & H). apply bind_Ok in H as ([] & _ & H).
  apply bind_Ok in H as (oa & [= <-] & H). apply bind_Ok in H as (cid & Hcid & H).
  apply bind_Ok in H as (aid & Haid & [= <-]). cbn in *.
  change (command_checksum sha256 id _) with (command_checksum sha256 id (Tables.CRow d ce sq ai st re (Some a) ck)).
  rewrite Hc. cbn. rewrite bool_decide_true by done. cbn. rewrite Ha. cbn. rewrite Hcid. cbn. by rewrite Haid.
Qed.
Lemma command_set id row s s' : update_db (λ d, d{{ Tables.commands ::= dset id row }}) s = (s', Ok tt) →
  dget id (Tables.commands (db s')) = Some row.
Proof. intros [= <-]. open s. apply dget_dset_eq. Qed.
Lemma pushed_ack w a s s1 record : push_ack sha256 (crash w) a s = (s1, Ok tt) →
  GatewayAckV1.validate a = Ok a → ∀ v, VerifiedGatewayCommand.command_digest v = GatewayAckV1.command_digest a →
  GatewayCommandV1.command_id (VerifiedGatewayCommand.command v) = GatewayAckV1.command_id a →
  validate_new_command sha256 v s = Ok (Some record) → CommandRecord.ack record = None →
  ∃ record, validate_new_command sha256 v s1 = Ok (Some record) ∧ CommandRecord.ack record = Some a.
Proof.
  intros H Hv v Hd Hid Hr Hnone. unfold push_ack in H. unfold validate_new_command in *. rewrite Hid in *.
  apply M_bind_Ok in H as (s2 & already & H%transaction_Ok & Hc).
  apply M_bind_Ok in H as (x & x0 & [= <- <-] & H).
  destruct (dget _ (Tables.commands (db s))) as [row|] eqn:Erow; [|done].
  apply bind_Ok in Hr as (r & Er & Hr). apply bind_Ok in Hr as ([] & _ & [= ->]).
  apply M_bind_Ok in H as (x & r & [= <- Er'] & H). rewrite Er in Er'. injection Er' as <-.
  apply M_bind_Ok in H as (x & [] & [= <- G%raise_if_Ok] & H). rewrite Hnone in H.
  apply M_bind_Ok in H as (x & c & [= <- Hck] & H). apply M_bind_Ok in H as (x & [] & H%command_set & [= <- <-]).
  assert (Tables.ack row = None) as Hack.
  { apply bind_Ok in Er as (? & _ & Er). apply bind_Ok in Er as ([] & _ & Er).
    apply bind_Ok in Er as (oa & Ho & Er). apply bind_Ok in Er as (? & _ & Er).
    apply bind_Ok in Er as (? & _ & [= <-]). cbn in Hnone. subst oa.
    destruct (Tables.ack row); [|done]. by apply bind_Ok in Ho as (? & _ & [=]). }
  injection Hc as <- _. exists (record{{ CommandRecord.ack := Some a }}).
  split; [|by destruct record]. rewrite H, (decode_acked _ _ _ _ _ Er Hack Hv Hck).
  bprop. destruct G as [G1 _]. clear - G1 Hd. destruct record. cbn in *.
  by rewrite Hd, G1, bool_decide_true.
Qed.
Lemma acked w v record s s1 a : validate_new_command sha256 v s = Ok (Some record) →
  make_ack sha256 (clock w) (crash w) signer v record s = (s1, Ok a) →
  ∃ record, validate_new_command sha256 v s1 = Ok (Some record) ∧ CommandRecord.ack record = Some a.
Proof.
  intros Hr H. unfold make_ack in H. destruct (CommandRecord.ack record) as [a'|] eqn:Ea.
  { injection H as <- <-. by exists record. }
  apply M_bind_Ok in H as (x & x0 & [= <- <-] & H). apply M_bind_Ok in H as (x & [] & [= <- _] & H).
  apply M_bind_Ok in H as (s2 & now & H2 & H). apply M_bind_Ok in H as (x & unsigned & [= <- Hu] & H).
  apply M_bind_Ok in H as (x & ack & [= <- Hs] & H). apply M_bind_Ok in H as (s3 & [] & Hp & [= <- <-]).
  apply validated_ack in Hu as [-> _]. unfold seal_gateway_ack in Hs.
  apply bind_Ok in Hs as (un & _ & Hs). apply bind_Ok in Hs as (m & _ & Hs). apply validated_ack in Hs as [-> Hv].
  assert (db s2 = db s) as Edb by (injection H2 as <- _; by destruct s).
  eapply pushed_ack; [exact Hp|exact Hv|done|done| |exact Ea].
  rewrite <-Hr. unfold validate_new_command, next_in_chain. by rewrite Edb.
Qed.
Lemma recorded_ack w v s s1 a : ack_recorded sha256 (clock w) (crash w) signer v s = (s1, Ok a) →
  ∃ record, validate_new_command sha256 v s1 = Ok (Some record) ∧ CommandRecord.ack record = Some a.
Proof.
  intros (x & [record|] & [= <- Hr] & H)%M_bind_Ok; [|done]. by eapply acked.
Qed.
(** Every handler ends by acknowledging its record. *)
Lemma executed_ack w v s s1 a :
  execute_new sha256 (clock w) (mint w) (crash w) (meanwhile w) (cancelled w) signer channel_trust generation_gate
    backend_manifest_hash (apply_bundle w) preflight_bundle service_limits (readiness w) v s = (s1, Ok a) →
  ∃ record, validate_new_command sha256 v s1 = Ok (Some record) ∧ CommandRecord.ack record = Some a.
Proof.
  intros H. unfold execute_new in H. apply M_bind_Ok in H as (x & [] & _ & H). destruct (GatewayCommandV1.kind _).
  - apply M_bind_Ok in H as (x' & [] & _ & H). by eapply recorded_ack.
  - unfold commit in H. do 8 apply M_bind_Ok in H as (? & ? & _ & H). apply M_bind_Ok in H as (? & [] & _ & H).
    apply M_bind_Ok in H as (? & [] & _ & H).
    apply M_bind_Ok in H as (y & b & Hr & H). apply M_bind_Ok in H as (z & [] & [= <- _] & [= <- <-]).
    by eapply recorded_ack.
  - unfold deny in H. do 5 apply M_bind_Ok in H as (? & ? & _ & H). apply M_bind_Ok in H as (? & [] & _ & H).
    apply M_bind_Ok in H as (y & b & Hr & H). apply M_bind_Ok in H as (z & [] & [= <- _] & [= <- <-]).
    by eapply recorded_ack.
  - unfold clear in H. do 5 apply M_bind_Ok in H as (? & ? & _ & H). apply M_bind_Ok in H as (? & [] & _ & H).
    apply M_bind_Ok in H as (y & b & Hr & H). apply M_bind_Ok in H as (z & [] & [= <- _] & [= <- <-]).
    by eapply recorded_ack.
  - unfold service_status in H. do 4 apply M_bind_Ok in H as (? & ? & _ & H). apply M_bind_Ok in H as (? & [] & _ & H).
    apply M_bind_Ok in H as (y & b & Hr & H). apply M_bind_Ok in H as (z & [] & [= <- _] & [= <- <-]).
    by eapply recorded_ack.
Qed.
Lemma called_ack w c s s1 a : call w c s = (s1, Ok a) → ∃ v record, verified c = Ok v ∧
  validate_new_command sha256 v s1 = Ok (Some record) ∧ CommandRecord.ack record = Some a.
Proof.
  intros (x & v & [= <- Hv] & H)%M_bind_Ok. exists v. apply M_bind_Ok in H as (x & [record|] & [= <- Hr] & H).
  - destruct (acked _ _ _ _ _ _ Hr H) as (r & ?). by exists r.
  - destruct (executed_ack _ _ _ _ _ H) as (r & ?). by exists r.
Qed.

(** C12. A command is answered once: when a call returns an acknowledgement, a
    later call with the same command returns the same acknowledgement and changes
    nothing, in whatever state and circumstances, as long as the record of the
    command is kept. *)
Theorem answer_stable w c s s1 a : call w c s = (s1, Ok a) →
  ∀ w' s2, dget (GatewayCommandV1.command_id c) (Tables.commands (db s2)) =
           dget (GatewayCommandV1.command_id c) (Tables.commands (db s1)) →
  call w' c s2 = (s2, Ok a).
Proof.
  intros H w' s2 Hrow. destruct (called_ack _ _ _ _ _ H) as (v & record & Hv & Hr & Ha).
  pose proof (verify_authentic _ _ Hv) as (Ec & _).
  assert (validate_new_command sha256 v s2 = Ok (Some record)) as Hr2.
  { unfold validate_new_command in *. rewrite Ec in *. rewrite Hrow.
    destruct (dget _ (Tables.commands (db s1))); [exact Hr|]. apply bind_Ok in Hr as (n & _ & Hr). by apply bind_Ok in Hr as ([] & _ & [=]). }
  unfold call, execute. unfold verified in Hv. unfold mbind, M_bind, lift, reads. rewrite Hv, Hr2.
  unfold make_ack. by rewrite Ha.
Qed.

(** ** Permission *)
Lemma permitted clk leg g s s' : synced s → permits clk leg g s = (s', Ok true) →
  recovery_required s = false ∧ takeover_state s ≠ TakeoverState.FENCED_OLD ∧
  heartbeat_fresh (clk (clock_reads s)) s = true ∧
  ∃ group, (g = Some group ∨ g = None ∧ ∃ b, active_bundle s = Some b ∧
      group_of_leg (AuthorizedLeg.leg_id leg) b = Some group) ∧
    ∀ k, k ∈ denied_subjects leg group → dget k (ActivationSpec.denied (policy_of s)) = None.
Proof.
  intros Hs (x & x0 & [= <- <-] & H)%M_bind_Ok.
  destruct (match g with Some g => Some g | None => active_bundle s ≫= group_of_leg (AuthorizedLeg.leg_id leg) end)
    as [group|] eqn:Eg; [|done].
  apply M_bind_Ok in H as (s1 & all & Hall & H). destruct all; [done|]. injection H as _ Hd.
  unfold deny_all in Hall. apply M_bind_Ok in Hall as (x & x0 & [= <- <-] & Hall).
  destruct (recovery_required s || _) eqn:Er; [done|]. bprop. destruct Er as [Er Et].
  apply M_bind_Ok in Hall as (x & now & [= <- <-] & [= <- Hf]).
  split_and!; [done|done|by apply negb_false_iff|]. exists group. split.
  - destruct g; [left; congruence|]. right. split; [done|]. destruct (active_bundle s) as [b|]; [|done]. by exists b.
  - intros k Hk. rewrite <-(sy_denies _ Hs), dget_dmap.
    assert (dget k (denies s) = None) as ->; [|done].
    destruct Hd as (H1 & H2 & H3 & _). unfold denied_subjects in Hk. rewrite !elem_of_cons, elem_of_nil in Hk.
    destruct Hk as [->|[->|[->|[]]]]; by apply dmem_false.
Qed.

(** C13. Once a subject is denied, no leg that has it as its account, its leg or
    its route group is permitted after any run of calls of which none is
    CLEAR_DENY. *)
Theorem deny_persists s cs s' k : synced s → served s cs s' → k ∈ dkeys (denies s) →
  (∀ c, c ∈ cs → GatewayCommandV1.kind c ≠ WireCommandKind.CLEAR_DENY) →
  ∀ clk leg group s'', k ∈ denied_subjects leg group → permits clk leg (Some group) s' ≠ (s'', Ok true).
Proof.
  intros Hs H Hk Hcs clk leg group s'' Hin Hp. destruct (served_runs _ _ _ Hs H) as (Hs' & vs & R & Hvs).
  apply permitted in Hp as (_ & _ & _ & g & [[= ->]|[[=] _]] & Hd); [|done]. specialize (Hd k Hin).
  assert (is_Some (dget k (ActivationSpec.denied (policy_of s')))) as [x Hx]; [|congruence].
  eapply ActivationSpec.run_denied; [apply Hs|exact R| |].
  - rewrite <-(sy_denies _ Hs), dget_dmap. apply dget_is_Some in Hk as [o ->]. by eexists.
  - eapply Forall_impl; [exact Hvs|]. intros v (c & Hc & <- & _). by apply Hcs.
Qed.

(** ** Authentication *)
Context (hmac_sha256 : bytes → bytes → bytes).
Lemma legacy_accepted parsed view acc slot out : legacy_slot hmac_sha256 parsed view acc slot = Ok out →
  (∀ r g, acc = Some (r, g) → r ∈ dvalues (AuthRuntimeView.key_index view)) →
  ∀ r g, out = Some (r, g) → r ∈ dvalues (AuthRuntimeView.key_index view).
Proof.
  intros (c & _ & (x & _ & [= <-])%bind_Ok)%bind_Ok Hacc r g.
  destruct (dget _ (AuthRuntimeView.legacy_key_index view)) as [e|]; [|apply Hacc].
  cbn. destruct (dget _ (AuthRuntimeView.key_index view)) as [r'|] eqn:Er; [|apply Hacc].
  cbn. destruct (List.find _ _); [|apply Hacc]. destruct (_ && _); [|apply Hacc].
  intros [= <- _]. by eapply dget_value.
Qed.
Lemma accepted_record parsed view c : verify_client_key hmac_sha256 parsed view = Ok c →
  ∃ r, r ∈ dvalues (AuthRuntimeView.key_index view) ∧ record_refused r view = false.
Proof.
  destruct parsed as [p|p]; intros H.
  - apply bind_Ok in H as (g & _ & H).
    destruct (dget _ (AuthRuntimeView.key_index view)) as [r|] eqn:Er; [|done]. destruct g; [|done].
    apply bind_Ok in H as ([] & G%raise_if_Ok & _). bprop. exists r. split; [by eapply dget_value|by destruct G].
  - apply bind_Ok in H as (acc & Hf & H). destruct acc as [[r g]|]; [|done].
    apply bind_Ok in H as ([] & G%raise_if_Ok & _). bprop. exists r. split; [|by destruct G].
    revert Hf. generalize (legacy_slots view). intros l Hf.
    assert (∀ acc, (∀ r g, acc = Some (r, g) → r ∈ dvalues (AuthRuntimeView.key_index view)) →
      fold_result (legacy_slot hmac_sha256 p view) acc l = Ok (Some (r, g)) →
      r ∈ dvalues (AuthRuntimeView.key_index view)) as Hl; [|by eapply (Hl None)].
    clear Hf. induction l as [|x l IH]; intros acc Hacc Hf; [injection Hf as ->; by eapply Hacc|].
    apply bind_Ok in Hf as (acc' & H1 & H2). eapply IH; [|exact H2]. by eapply legacy_accepted.
Qed.
Lemma auth_view clk s s' view : current_auth_view clk s = (s', Ok view) →
  recovery_required s = true ∨ takeover_state s = TakeoverState.FENCED_OLD ∨
    heartbeat_fresh (clk (clock_reads s)) s = false →
  ∃ bundle, active_bundle s = Some bundle ∧ AuthRuntimeView.key_index view =
      dict_of ((λ k, (ClientKeyRecord.key_id k, k)) <$> PolicyBundleV1.keys bundle) ∧
    AuthRuntimeView.denied_key_ids view = dkeys (AuthRuntimeView.key_index view).
Proof.
  intros (x & x0 & [= <- <-] & H)%M_bind_Ok Hbad.
  destruct (active_bundle s) as [b|]; [|done]. destruct (active s) as [r|]; [|done].
  apply M_bind_Ok in H as (s1 & all & Ha & H). assert (all = true) as ->.
  { apply M_bind_Ok in Ha as (x & x0 & [= <- <-] & Ha). destruct (recovery_required s) eqn:Er; [by injection Ha as <- <-|].
    destruct (bool_decide (takeover_state s = _)) eqn:Et; [by injection Ha as <- <-|]. bprop.
    apply M_bind_Ok in Ha as (x & now & [= <- <-] & [= <- <-]). destruct Hbad as [| [| ->]]; done. }
  apply M_bind_Ok in H as (s2 & index & [= <- _] & H). apply M_bind_Ok in H as (s3 & now & _ & [= <- <-]).
  by exists b.
Qed.
Lemma refused view bundle r : AuthRuntimeView.key_index view =
    dict_of ((λ k, (ClientKeyRecord.key_id k, k)) <$> PolicyBundleV1.keys bundle) →
  AuthRuntimeView.denied_key_ids view = dkeys (AuthRuntimeView.key_index view) →
  r ∈ dvalues (AuthRuntimeView.key_index view) → record_refused r view = true.
Proof.
  intros Ek Ed Hr. unfold record_refused. rewrite Ed.
  rewrite (bool_decide_true (ClientKeyRecord.key_id r ∈ _)); [by rewrite orb_true_r|].
  rewrite Ek in *. apply elem_of_dvalues in Hr as [k Hk]; [|apply dict_ok_dict_of].
  pose proof (dget_dict_of _ _ _ Hk) as Hin. apply list_elem_of_fmap in Hin as (k' & [= -> <-] & _).
  apply dget_is_Some. by rewrite Hk.
Qed.

(** C15. A gateway that needs recovery, is fenced off or has no fresh deny
    heartbeat authenticates nobody: with the view it hands out no credential is
    accepted, and no queued identity stays authorized. *)
Theorem unhealthy_authenticates_nobody clk s s' view : current_auth_view clk s = (s', Ok view) →
  recovery_required s = true ∨ takeover_state s = TakeoverState.FENCED_OLD ∨
    heartbeat_fresh (clk (clock_reads s)) s = false →
  (∀ parsed c, verify_client_key hmac_sha256 parsed view ≠ Ok c) ∧
  ∀ client, queued_identity_is_authorized client view = false.
Proof.
  intros H (bundle & _ & Ek & Ed)%(auth_view _ _ _ _ H). split.
  - intros parsed c (r & Hr & Hf)%accepted_record. by rewrite (refused _ _ _ Ek Ed Hr) in Hf.
  - intros client. unfold queued_identity_is_authorized.
    destruct (dget _ (AuthRuntimeView.key_index view)) as [r|] eqn:Er; [|done].
    by rewrite (refused _ _ _ Ek Ed (dget_value _ _ _ Er)).
Qed.
End Theorems.
End ActivationTheorems.

(** ** Only the current fence is obeyed

    A command made for an older dispatcher fence, another boot or another security
    epoch changes nothing: the fence is compared under the gate, and nothing that
    follows moves it. *)
Module ActivationFence.
Import GatewayLocalState LocalState Activation StateFacts StepFacts ActivationTheorems.

Definition same_fence (s s' : t) : Prop := fence_epoch s' = fence_epoch s.
#[export] Instance same_fence_preorder : PreOrder same_fence.
Proof. split; [done|]. unfold same_fence. intros s1 s2 s3 -> ->. done. Qed.
Lemma fence_transaction {A} (m : M t A) : keeps same_fence m → keeps same_fence (transaction m).
Proof.
  intros Hm s s' r H. unfold transaction in H. destruct (m s) as [s1 [a|e]] eqn:E1;
    injection H as <- _; apply Hm in E1; [done|by destruct s1].
Qed.
Ltac fence := repeat first
  [ progress keeps
  | apply fence_transaction
  | apply keeps_modify; intros []; reflexivity ].

Section Fence.
Context `{E : Ed25519} `{P : Pydantic} `{BC : BundleCodec}.
Context (sha256 : bytes → bytes) (clock : nat → Z) (mint : nat → string) (crash : string → result unit).
Context (signer : ChannelSigner).

Lemma fence_update f : keeps same_fence (update_db f).
Proof. unfold update_db. fence. Qed.
Lemma fence_now : keeps same_fence (now_ms clock).
Proof. unfold now_ms. fence. Qed.
Lemma fence_mint cls : keeps same_fence (mint_id mint cls).
Proof. unfold mint_id. fence. Qed.
Lemma fence_crash p : keeps same_fence (crash_at crash p).
Proof. unfold crash_at. fence. Qed.
#[local] Hint Resolve fence_update fence_now fence_mint fence_crash : keeps.
Lemma fence_meta k v : keeps same_fence (set_meta sha256 k v).
Proof. unfold set_meta. fence. Qed.
Lemma fence_pointer n r : keeps same_fence (put_pointer sha256 n r).
Proof. unfold put_pointer. fence. Qed.
Lemma fence_record v id st res : keeps same_fence (record_pending sha256 v id st res).
Proof. unfold record_pending, reserve_command_record, insert_command. fence. Qed.
#[local] Hint Resolve fence_meta fence_pointer fence_record : keeps.
Lemma fence_stage v b r base_ id res : keeps same_fence (stage_prepare sha256 crash v b r base_ id res).
Proof. unfold stage_prepare. fence. Qed.
Lemma fence_commit v r id res : keeps same_fence (commit_staged sha256 crash v r id res).
Proof. unfold commit_staged, write_active_pointer. fence. Qed.
Lemma fence_load_denies : keeps same_fence (load_denies sha256).
Proof. unfold load_denies. fence. Qed.
Lemma fence_load_highwater : keeps same_fence (load_deny_highwater sha256).
Proof. unfold load_deny_highwater. fence. Qed.
#[local] Hint Resolve fence_load_denies fence_load_highwater : keeps.
Lemma fence_verify : keeps same_fence (verify_deny_store sha256).
Proof. unfold verify_deny_store, or_recovery. fence. Qed.
#[local] Hint Resolve fence_verify : keeps.
Lemma fence_issue v p id res : keeps same_fence (issue_deny sha256 clock crash v p id res).
Proof. unfold issue_deny, put_deny, put_highwater. fence. Qed.
Lemma fence_clear v p id res : keeps same_fence (clear_deny sha256 clock v p id res).
Proof. unfold clear_deny. fence. Qed.
Lemma fence_status v id issue factory : keeps same_fence factory →
  keeps same_fence (record_status sha256 clock mint crash v id issue factory).
Proof.
  intros Hf. unfold record_status, renew_deny_rows, put_deny, prune_auth_leases, issue_auth_lease, deny_all. fence.
Qed.
Lemma fence_enter reason : keeps same_fence (enter_recovery_required sha256 reason).
Proof. unfold enter_recovery_required. fence. Qed.
Lemma fence_ack v record : keeps same_fence (make_ack sha256 clock crash signer v record).
Proof. unfold make_ack, push_ack. fence. Qed.
#[local] Hint Resolve fence_ack fence_enter fence_issue fence_clear fence_stage fence_commit : keeps.
Lemma fence_recorded v : keeps same_fence (ack_recorded sha256 clock crash signer v).
Proof. unfold ack_recorded. fence. Qed.
#[local] Hint Resolve fence_recorded : keeps.

(** [fenced v m]: [m] leaves the policy, or [v] has the fence it leaves. *)
Definition fenced {A} (v : VerifiedGatewayCommand) (m : M t A) : Prop := ∀ s s' r, synced s → m s = (s', r) →
  policy_of s' = policy_of s ∨
  GatewayCommandV1.dispatcher_fence (VerifiedGatewayCommand.command v) = fence_epoch s'.
Lemma fenced_calm {A} v (m : M t A) : keeps calm m → fenced v m.
Proof. intros Hm s s' r Hs H%Hm. left. by destruct (calm_policy _ _ H Hs) as (_ & _ & _ & ?). Qed.
Lemma fenced_seq {A B} v (m : M t A) (k : A → M t B) : keeps calm m → (∀ a, fenced v (k a)) → fenced v (m ≫= k).
Proof.
  intros Hm Hk s s' r Hs [(s1 & a & H1%Hm & H)|(e & H1%Hm & _)]%M_bind_cases;
    destruct (calm_policy _ _ H1 Hs) as (Hs1 & _ & _ & Ep); [|by left].
  rewrite <-Ep. by eapply Hk.
Qed.
Lemma fenced_assert {A} v (m : M t A) : keeps same_fence m → fenced v (reads (assert_current_fence v);; m).
Proof.
  intros Hm s s' r Hs [(s1 & [] & [= <- H1%raise_if_Ok] & H%Hm)|(e & [= <- _] & _)]%M_bind_cases; [|by left].
  right. rewrite H. bprop. done.
Qed.
Lemma fenced_then {A B} v (m : M t A) (k : A → M t B) : fenced v m →
  (∀ a, keeps calm (k a)) → (∀ a, keeps same_fence (k a)) → keeps (moves v) m → fenced v (m ≫= k).
Proof.
  intros Hm Hk Hf Hmv s s' r Hs [(s1 & a & H1 & H)|(e & H1 & _)]%M_bind_cases; [|by eapply Hm].
  destruct (Hmv _ _ _ H1 Hs) as (Hs1 & _). destruct (Hm _ _ _ Hs H1) as [Ep|Ef]; [left|right].
  - rewrite <-Ep. apply Hk in H. by destruct (calm_policy _ _ H Hs1) as (_ & _ & _ & ?).
  - by rewrite Ef, (Hf _ _ _ _ H).
Qed.
End Fence.

Section Stale.
Context `{E : Ed25519} `{P : Pydantic} `{BC : BundleCodec}.
Context (sha256 : bytes → bytes) (loads : bytes → result Json).
Context (policy_keys : dict Z (dict string public_key)) (channel_trust : ChannelTrustSet).
Context (generation_gate : AuthorizedLeg → string → result bool) (backend_manifest_hash : string).
Context (preflight_bundle : PolicyBundleV1 → result unit) (service_limits : BundleLimits).
Context (signer : ChannelSigner) (w : Circumstances).

#[local] Hint Resolve calm_hold calm_mint calm_store_bundle calm_cancelled : keeps.
#[local] Hint Resolve fence_mint fence_stage fence_commit fence_issue fence_clear fence_enter fence_crash
  fence_recorded : keeps.
Ltac pass := apply fenced_seq; [by keeps|intros ?].
Lemma executed_fenced v : fenced v
  (execute_new sha256 (clock w) (mint w) (crash w) (meanwhile w) (cancelled w) signer channel_trust generation_gate
    backend_manifest_hash (apply_bundle w) preflight_bundle service_limits (readiness w) v).
Proof.
  unfold execute_new, check_cancelled. pass. destruct (GatewayCommandV1.kind _) eqn:Ek.
  - apply fenced_then.
    + unfold prepare, check_cancelled. do 8 pass. apply fenced_assert. fence.
    + intros _. apply calm_recorded.
    + intros _. apply fence_recorded.
    + intros s s' r H. by eapply from_prepare.
  - unfold commit, check_cancelled. do 4 pass. apply fenced_assert. fence.
  - unfold deny, check_cancelled. do 3 pass. apply fenced_assert. fence.
  - unfold clear, check_cancelled. do 3 pass. apply fenced_assert. fence.
  - unfold service_status, check_cancelled. do 2 pass. apply fenced_assert.
    assert (keeps same_fence (status_result sha256 (clock w) (readiness w))) as Hr.
    { unfold status_result, now_ms. fence. }
    pose proof (fence_status sha256 (clock w) (mint w) (crash w)). fence.
Qed.

(** C14. A call moves the policy only with a command made for this boot, for the
    security epoch of the trust set, and for the fence epoch that the gateway has
    when the call is over: a takeover that is granted the gate first makes every
    older command void. *)
Theorem stale_command_ignored c s s' r : synced s →
  call sha256 loads policy_keys channel_trust generation_gate backend_manifest_hash preflight_bundle
    service_limits signer w c s = (s', r) →
  policy_of s' = policy_of s ∨
  GatewayCommandV1.dispatcher_fence c = fence_epoch s' ∧ GatewayCommandV1.boot_id c = boot_id s ∧
    GatewayCommandV1.security_epoch c = ChannelTrustSet.security_epoch channel_trust.
Proof.
  intros Hs H. unfold call, execute in H.
  apply M_bind_cases in H as [(x & v & [= <- Hv%verify_authentic] & H)|(e & [= <- _] & _)]; [|by auto].
  destruct Hv as (<- & _).
  apply M_bind_cases in H as [(x & existing & [= <- Hn] & H)|(e & [= <- _] & _)]; [|by auto].
  destruct existing as [record|].
  { apply calm_ack in H. left. by destruct (calm_policy _ _ H Hs) as (_ & _ & _ & ?). }
  destruct (executed_fenced _ _ _ _ Hs H) as [|Hf]; [by left|].
  unfold execute_new in H. apply M_bind_cases in H as [(x & [] & [= <- Hb] & _)|(e & [= <- _] & _)]; [|by left].
  right. apply bind_Ok in Hb as ([] & G1%raise_if_Ok & Hb). apply bind_Ok in Hb as ([] & G2%raise_if_Ok & _).
  bprop. done.
Qed.
End Stale.
End ActivationFence.
