(* ===== verification/ActivationSamples.v ===== *)
(** * A concrete gateway

    A fresh gateway of one installation; the control plane prepares, commits and
    denies.  The digest, the signatures and the codec are small functions with the
    interfaces' laws. *)
From S2P Require Export ActivationProps.
From S2P Require Import Samples KeyMaterial AuthProps.
From Stdlib Require Import Ascii.
#[local] Open Scope Z_scope.

Module ActivationSamples.
Import GatewayLocalState LocalState Activation StateFacts ActivationTheorems.

(** 32 bytes of a polynomial of the message. *)
Definition mix (b : bytes) : Z :=
  foldl (λ h c, Z.land (2 * h + byte_value c) 4095 + Z.shiftr h 11) 7 b.
Definition sha256 (b : bytes) : bytes :=
  let h := mix b in
  (λ i, byte_of (Z.land (Z.shiftr h (Z.of_nat i mod 5) + Z.of_nat i) 255)) <$> seq 0 32.
Definition toy_sign (k : Z) (m : bytes) : bytes := sha256 (byte_of (k mod 256) :: m) ++ sha256 m.
Lemma toy_verify k m : bool_decide (toy_sign k m = toy_sign k m) = true.
Proof. by apply bool_decide_true. Qed.
Lemma toy_length k m : length (toy_sign k m) = 64%nat.
Proof. done. Qed.
#[export] Instance toy_keys : Ed25519 :=
  Build_Ed25519 Z Z id toy_sign (λ k s m, bool_decide (s = toy_sign k m)) toy_verify toy_length.
#[export] Instance exact_pydantic : Pydantic :=
  Build_Pydantic (λ v, match v with JInt z => Some z | _ => None end)
    (λ v, match v with JBool b => Some b | _ => None end) (λ _, eq_refl) (λ _, eq_refl).

Definition same_bytes (a b : bytes) : bool := bool_decide (a = b).
Definition write (b : PolicyBundleV1) : Json :=
  jobj [("generation", JInt (PolicyBundleV1.generation b));
    ("backend_manifest_hash", jstr (PolicyBundleV1.backend_manifest_hash b))].
Definition or_empty {A} (r : result (list A)) : list A := match r with Ok b => b | Err _ => [] end.
Definition or_text (r : result string) : string := match r with Ok s => s | Err _ => ""%string end.
Definition bundle (generation : Z) : PolicyBundleV1 :=
  Samples.bundle{{ PolicyBundleV1.generation := generation }}.
Definition payload (generation : Z) : bytes := or_empty (canonical_json_bytes (write (bundle generation))).
#[export] Instance sample_codec : BundleCodec :=
  Build_BundleCodec (λ b, if same_bytes b (payload 1) then Ok (bundle 1)
    else if same_bytes b (payload 2) then Ok (bundle 2) else Err (ValueError "json")) write.

(** ** The control plane *)
Definition id (prefix c : string) : string := String.append prefix (Samples.uuid c).
Definition installation : string := id "inst_" "1".
Definition boot : string := id "boot_" "1".
Definition target (generation : Z) : BundleReference :=
  BundleReference.mk generation (or_text (bundle_hash sha256 (payload generation))).
(** The genesis, and the generation after it. *)
Definition approval (generation : Z) : ActivationEnvelope :=
  ActivationEnvelope.mk 1 "policy-key" (generation - 1)
    (if generation =? 1 then GENESIS_BASE_BUNDLE_HASH else BundleReference.bundle_hash (target (generation - 1)))
    generation (BundleReference.bundle_hash (target generation))
    (Samples.hex64 "01") (Samples.hex64 "02") (Samples.hex64 "03") (Samples.hex64 "04").
Definition approval_bytes (generation : Z) : bytes :=
  or_empty (canonical_json_bytes (ActivationEnvelope.dump (approval generation))).
Definition base64 (b : bytes) : string :=
  let text := encode b in
  String.string_of_list_ascii (text ++ replicate ((4 - length text mod 4) mod 4) "="%char).
Definition signed_approval (generation : Z) : SignedActivationV1 :=
  SignedActivationV1.mk (base64 (approval_bytes generation)) (hex (toy_sign 7 (approval_bytes generation))) 1 "policy-key".
Definition loads (b : bytes) : result Json :=
  if same_bytes b (approval_bytes 1) then Ok (ActivationEnvelope.dump (approval 1))
  else if same_bytes b (approval_bytes 2) then Ok (ActivationEnvelope.dump (approval 2))
  else Err (ValueError "json").
Definition policy_keys : dict Z (dict string public_key) := [(1, [("policy-key"%string, 7)])].
Definition trust : ChannelTrustSet :=
  ChannelTrustSet.mk toy_keys installation 1 [(1, [(1, [("channel-key"%string, 5)])])].
Definition signer : ChannelSigner := ChannelSigner.mk toy_keys "gateway-key" 1 9.

Definition unsealed (c : string) (sequence : Z) (previous : string) (kind : WireCommandKind)
    (payload : dict ustr Json) (policy : option SignedActivationV1) : GatewayCommandV1 :=
  GatewayCommandV1.mk (id "cmd_" c) installation 1 1 1 boot sequence previous kind 1000 payload policy
    (ChannelSealV1.mk "channel-key" 1 BLANK_SIGNATURE).
Definition command (c : string) (sequence : Z) (previous : string) (kind : WireCommandKind)
    (payload : Json) (policy : option SignedActivationV1) : GatewayCommandV1 :=
  let u := unsealed c sequence previous kind (match payload with JObj d => d | _ => [] end) policy in
  match seal_gateway_command u 5 with Ok c => c | Err _ => u end.
Definition digest_of (c : GatewayCommandV1) : string := or_text (gateway_command_digest sha256 c).

Definition prepare_of (c : string) (sequence : Z) (previous : string) (generation : Z) : GatewayCommandV1 :=
  command c sequence previous WireCommandKind.PREPARE
    (jobj [("base", if generation =? 1 then JNull else BundleReference.dump (target (generation - 1)));
      ("target", BundleReference.dump (target generation)); ("bundle_b64", jstr (base64 (payload generation)))])
    (Some (signed_approval generation)).
Definition commit_of (c : string) (sequence : Z) (previous : string) (generation : Z) : GatewayCommandV1 :=
  command c sequence previous WireCommandKind.COMMIT (BundleReference.dump (target generation))
    (Some (signed_approval generation)).
Definition prepare : GatewayCommandV1 := prepare_of "1" 1 ZERO_DIGEST 1.
Definition commit : GatewayCommandV1 := commit_of "2" 2 (digest_of prepare) 1.
Definition denial : DenyCommandPayload :=
  DenyCommandPayload.mk DenySubjectType.ACCOUNT (Samples.account "1") 1 DenyReason.EMERGENCY (Some 1).
Definition deny : GatewayCommandV1 :=
  command "3" 3 (digest_of commit) WireCommandKind.DENY (DenyCommandPayload.dump denial) (Some (signed_approval 1)).

(** ** The gateway *)
Definition limits : BundleLimits := BundleLimits.default.
Definition blank : GatewayLocalState :=
  mk installation boot 1 1 [("v1"%string, replicate 32 "p"%char)] limits false None None None None None "" [] []
    0 false TakeoverState.NONE 1 0 0 0 Tables.empty [] None [].
Definition clock (n : nat) : Z := 5000 + Z.of_nat n.
Definition digit (n : nat) : string := String (ascii_of_nat (48 + n)) EmptyString.
Definition mint (n : nat) : string := Samples.uuid (digit n).
Definition calm_world : Circumstances :=
  Build_Circumstances clock mint (λ _, Ok tt) (λ _, []) (λ _, false) (λ _, Ok tt) (true, true, true).
Definition start : GatewayLocalState := (open sha256 (λ _, Ok tt) blank).1.
Abbreviation call := (ActivationTheorems.call sha256 loads policy_keys trust (λ _ _, Ok true)
  (Samples.hex64 "0d") (λ _, Ok tt) limits signer).

Definition prepared : GatewayLocalState := (call calm_world prepare start).1.
Definition committed : GatewayLocalState := (call calm_world commit prepared).1.
Definition denied : GatewayLocalState := (call calm_world deny committed).1.

Abbreviation served := (ActivationTheorems.served sha256 loads policy_keys trust (λ _ _, Ok true)
  (Samples.hex64 "0d") (λ _, Ok tt) limits signer).
Lemma serves w c s cs s' : served (call w c s).1 cs s' → served s (c :: cs) s'.
Proof. exact (served_call _ _ _ _ _ _ _ _ _ w s c _ _ cs s' (surjective_pairing _)). Qed.
Lemma fresh_policy : policy_of start = ActivationSpec.mk None None None None [] [] [].
Proof. by vm_compute. Qed.
Lemma start_synced : synced start.
Proof.
  split; rewrite ?fresh_policy; try by vm_compute.
  - assert (Tables.pointers (db start) = []) as -> by (by vm_compute). by apply NoDup_nil.
  - by split; try apply NoDup_nil.
Qed.
Lemma committing : served start [prepare; commit] committed.
Proof. unfold committed, prepared. apply (serves calm_world), (serves calm_world). apply served_nil. Qed.
Lemma denying : served committed [deny] denied.
Proof. unfold denied. apply (serves calm_world). apply served_nil. Qed.
Lemma committed_synced : synced committed.
Proof. eapply served_runs; [apply start_synced|apply committing]. Qed.
Lemma denied_synced : synced denied.
Proof. eapply served_runs; [apply committed_synced|apply denying]. Qed.

(** A takeover fences the gateway off; its credentials go stale. *)
Definition receipt : FenceReceiptV1 :=
  FenceReceiptV1.mk (FenceReceiptPayloadV1.mk installation (id "inst_" "2") 1 1 boot
    (Samples.hex64 "05") (Samples.hex64 "06") 2 6000) (ChannelSealV1.mk "channel-key" 1 BLANK_SIGNATURE).
Definition fenced : GatewayLocalState := (hold sha256 clock (λ _, Ok tt) (OldFence receipt) committed).1.
Lemma fenced_synced : synced fenced.
Proof.
  assert (calm committed fenced) as H by (unfold fenced; eapply StepFacts.calm_one_hold, surjective_pairing).
  by apply H, committed_synced.
Qed.
Definition or_else {A} (default : A) (r : result A) : A := match r with Ok a => a | Err _ => default end.
Definition no_ack : GatewayAckV1 :=
  GatewayAckV1.mk "" "" "" "" 0 0 0 "" 0 GatewayAckStatus.STATUS 0 [] (ChannelSealV1.mk "" 0 "").
Definition answer : GatewayAckV1 := or_else no_ack (call calm_world commit prepared).2.
Definition late (_ : nat) : Z := 1000000.
Definition no_view : AuthRuntimeView := AuthRuntimeView.mk [] 0 "" [] [] [] 0.
Definition stale_view : AuthRuntimeView := or_else no_view (current_auth_view late committed).2.
Lemma stale_view_shown : current_auth_view late committed = ((current_auth_view late committed).1, Ok stale_view).
Proof. by vm_compute. Qed.

(** ** A generation that falls back

    The second generation is active when its file becomes unreadable.  The next
    start forgets which generation was active and asks for recovery; the genesis
    approval, long used, is accepted again, and after one more start the gateway
    enforces the first generation with nothing to recover. *)
Definition prepare_2 : GatewayCommandV1 := prepare_of "3" 3 (digest_of commit) 2.
Definition commit_2 : GatewayCommandV1 := commit_of "4" 4 (digest_of prepare_2) 2.
Definition second : GatewayLocalState := (call calm_world commit_2 (call calm_world prepare_2 committed).1).1.
Definition reopen (s : GatewayLocalState) : GatewayLocalState :=
  (open sha256 (λ _, Ok tt) (s{{ connected := false; active := None; staged := None; previous := None; base := None;
    active_bundle := None; denies := []; deny_highwater := [] }})).1.
Definition damaged : GatewayLocalState :=
  reopen (second{{ files ::= ddel (BundleReference.bundle_hash (target 2)) }}).
Definition prepare_again : GatewayCommandV1 := prepare_of "5" 5 (digest_of commit_2) 1.
Definition commit_again : GatewayCommandV1 := commit_of "6" 6 (digest_of prepare_again) 1.
Definition fallen : GatewayLocalState :=
  reopen (call calm_world commit_again (call calm_world prepare_again damaged).1).1.
Example generation_falls_back :
  (active second, recovery_required second) = (Some (target 2), false) ∧
  (active damaged, recovery_required damaged) = (None, true) ∧
  (active fallen, recovery_required fallen) = (Some (target 1), false).
Proof. by vm_compute. Qed.

(** ** A lease that is cut short

    With room for one lease, a status that issues none takes away the one in force. *)
Definition one_lease : GatewayLocalState := committed{{ GatewayLocalState.limits :=
  BundleLimits.default{{ BundleLimits.max_auth_leases := 1 }} }}.
Definition status_of (c : string) (sequence : Z) (previous : string) (lease : bool) : GatewayCommandV1 :=
  command c sequence previous WireCommandKind.STATUS (jobj [("issue_auth_lease", JBool lease)]) None.
Definition lease_status : GatewayCommandV1 := status_of "3" 3 (digest_of commit) true.
Definition plain_status : GatewayCommandV1 := status_of "4" 4 (digest_of lease_status) false.
Definition leased : GatewayLocalState := (call calm_world lease_status one_lease).1.
Definition polled : GatewayLocalState := (call calm_world plain_status leased).1.
Example status_ends_the_lease :
  (bool_decide (is_Some (current_lease sha256 6000 leased)), bool_decide (is_Some (current_lease sha256 6000 polled))) = (true, false).
Proof. by vm_compute. Qed.
End ActivationSamples.

Import GatewayLocalState LocalState StateFacts ActivationTheorems ActivationSamples.

Lemma served_refines_witness : ActivationSpec.active (policy_of committed) = Some (target 1) ∧
  ∃ vs, ActivationSpec.run vs (policy_of start) (policy_of committed) ∧
    Forall (λ v, ∃ c, c ∈ [prepare; commit] ∧ authentic sha256 policy_keys trust c v) vs ∧
    ∀ epoch, ActivationSpec.chained (ActivationSpec.next_command epoch (policy_of start))
      (List.filter (ActivationSpec.of_epoch epoch) vs).
Proof.
  split; [by vm_compute|]. eapply served_refines; [exact start_synced|exact committing].
Defined.

Lemma served_monotone_witness : ActivationSpec.active (policy_of committed) = Some (target 1) ∧
  deny_floor_generation denied = Some 1 ∧ ∃ r, active denied = Some r ∧
    (r = target 1 ∨ BundleReference.generation (target 1) < BundleReference.generation r).
Proof.
  split; [by vm_compute|]. split; [by vm_compute|].
  refine (proj1 (served_monotone _ _ _ _ _ _ _ _ _ _ _ _ committed_synced denying) (target 1) _). by vm_compute.
Defined.

Lemma answer_stable_witness : call calm_world commit denied = (denied, Ok answer).
Proof.
  assert (call calm_world commit prepared = (committed, Ok answer)) as H by (by vm_compute).
  assert (dget (GatewayCommandV1.command_id commit) (Tables.commands (db denied)) =
    dget (GatewayCommandV1.command_id commit) (Tables.commands (db committed))) as Hrow by (by vm_compute).
  exact (answer_stable sha256 loads policy_keys trust (λ _ _, Ok true) (Samples.hex64 "0d") (λ _, Ok tt) limits signer
    calm_world commit prepared committed answer H calm_world denied Hrow).
Defined.

Lemma deny_persists_witness :
  permits clock (Samples.authorized "1" "1" 1 true) (Some Samples.group) denied ≠ (denied, Ok true).
Proof.
  eapply (deny_persists sha256 loads policy_keys trust (λ _ _, Ok true) (Samples.hex64 "0d")
    (λ _, Ok tt) limits signer denied [] denied (DenySubjectType.ACCOUNT, Samples.account "1")).
  - exact denied_synced.
  - apply served_nil.
  - apply dmem_true. by vm_compute.
  - by intros c ?%elem_of_nil.
  - by left.
Defined.

Lemma unhealthy_authenticates_nobody_witness :
  (∀ parsed c, verify_client_key AuthSamples.digest parsed stale_view ≠ Ok c) ∧
  ∀ client, queued_identity_is_authorized client stale_view = false.
Proof.
  destruct (unhealthy_authenticates_nobody AuthSamples.digest late committed _ stale_view stale_view_shown) as [H1 H2].
  - right. right. by vm_compute.
  - by split.
Defined.

Lemma stale_command_ignored_witness : policy_of (call calm_world deny fenced).1 = policy_of fenced.
Proof.
  destruct (ActivationFence.stale_command_ignored sha256 loads policy_keys trust (λ _ _, Ok true) (Samples.hex64 "0d")
    (λ _, Ok tt) limits signer calm_world deny fenced _ _ fenced_synced (surjective_pairing _)) as [H|[H _]]; [exact H|].
  exfalso. vm_compute in H. discriminate.
Defined.
