(* ===== verification/Routing.v ===== *)
(** * Routing

    [gateway/routing.py], first part: the emergency window, the classification
    of provider failures, the send budget of a request and the route engine that
    filters authorized legs against the operational view.  The generation gate
    is a parameter that may raise, [bundle_digest] stands for the SHA-256 of the
    canonical bundle bytes and [observation_sha] for the SHA-256 (in hexadecimal)
    of the canonical observation. *)
From S2P Require Export Auth RuntimeState.
From Stdlib Require Import Ascii.
#[local] Open Scope Z_scope.

(** ** Tables *)
Definition CAUSE_TRIGGER (c : DispatchCause) : RouteTrigger :=
  match c with
  | DispatchCause.PRIMARY => RouteTrigger.PRIMARY
  | DispatchCause.CAPACITY => RouteTrigger.CAPACITY_SPILL
  | DispatchCause.FAILURE => RouteTrigger.FAILURE_FALLBACK
  | DispatchCause.QUOTA => RouteTrigger.QUOTA_FALLBACK
  | DispatchCause.MANUAL_EMERGENCY => RouteTrigger.MANUAL_EMERGENCY
  | DispatchCause.SHADOW => RouteTrigger.SHADOW
  end.
Definition FAILURE_DISPATCH (c : FailureCause) : option DispatchCause :=
  match c with
  | FailureCause.CAPACITY => Some DispatchCause.CAPACITY
  | FailureCause.TRANSIENT_FAILURE => Some DispatchCause.FAILURE
  | FailureCause.QUOTA => Some DispatchCause.QUOTA
  | FailureCause.UNKNOWN => None
  end.
(** [_CIRCUIT_CAUSE[cause]] *)
Definition CIRCUIT_CAUSE (c : FailureCause) : result CircuitCause :=
  match c with
  | FailureCause.CAPACITY => Ok CircuitCause.CAPACITY
  | FailureCause.TRANSIENT_FAILURE => Ok CircuitCause.TRANSIENT_FAILURE
  | FailureCause.QUOTA => Ok CircuitCause.QUOTA
  | FailureCause.UNKNOWN => Err (KeyError "unknown")
  end.

(** ** Emergency activation *)
Module EmergencyActivation.
Record t := mk {
  leg_ids : list string;
  dispatcher_fence : Z;
  activated_at_ms : Z;
  expires_at_ms : Z;
}.
#[global] Instance eq_dec : EqDecision t.
Proof. solve_decision. Defined.

(** The constructor: field constraints, then [_bounded_unique_window]. *)
Definition validate (e : t) : result t :=
  raise_if (bool_decide (leg_ids e = []) ||
            negb (forallb (λ l, is_ok (typed_id_new RouteLegId l)) (leg_ids e)) ||
            negb ((1 <=? dispatcher_fence e) && (1 <=? activated_at_ms e) &&
                  (1 <=? expires_at_ms e))) field_error;;
  raise_if (has_duplicates (leg_ids e)) (ValueError "duplicate emergency leg");;
  raise_if (negb (activated_at_ms e <? expires_at_ms e))
    (ValueError "emergency activation expiry must follow activation");;
  raise_if (3600000 <? expires_at_ms e - activated_at_ms e)
    (ValueError "emergency activation exceeds one hour");;
  mret e.

Definition permits (e : t) (leg_id : string) (now_ms deadline_at_ms fence : Z) : bool :=
  bool_decide (leg_id ∈ leg_ids e) && (fence =? dispatcher_fence e) &&
  ((activated_at_ms e <=? now_ms) && (now_ms <? expires_at_ms e)) &&
  (deadline_at_ms <=? expires_at_ms e).
End EmergencyActivation.
Abbreviation EmergencyActivation := EmergencyActivation.t.

Module RoutingContext.
Record t := mk {
  now_ms : Z;
  deadline_at_ms : Z;
  dispatcher_fence : Z;
  emergency : option EmergencyActivation;
}.
#[global] Instance eq_dec : EqDecision t.
Proof. solve_decision. Defined.

(** [__post_init__] *)
Definition validate (c : t) : result t :=
  raise_if ((now_ms c <? 1) || (deadline_at_ms c <? 1) || (dispatcher_fence c <? 1))
    (ValueError "routing context values must be positive");;
  mret c.
End RoutingContext.
Abbreviation RoutingContext := RoutingContext.t.

(** ** Failure classification *)
Module FailureObservation.
Record t := mk {
  status_code : Z;
  error_code : option string;
  message : string;
  pre_response_bytes : bool;
}.
#[global] Instance eq_dec : EqDecision t.
Proof. solve_decision. Defined.

Definition validate (o : t) : result t :=
  raise_if (negb (bounded (Some 100) (Some 599) (status_code o) &&
                  match error_code o with Some e => str_len e <=? 160 | None => true end &&
                  (str_len (message o) <=? 4096))) field_error;;
  mret o.
End FailureObservation.
Abbreviation FailureObservation := FailureObservation.t.

(** [fragment in message] *)
Definition contains (fragment message : string) : bool :=
  match String.index 0 fragment message with Some _ => true | None => false end.

Module FailureRule.
Record t := mk {
  cause : FailureCause;
  scope : FailureScope;
  status_codes : list Z;
  error_codes : list string;
  message_contains : list string;
}.
#[global] Instance eq_dec : EqDecision t.
Proof. solve_decision. Defined.

(** [__post_init__] *)
Definition validate (r : t) : result t :=
  raise_if (bool_decide (cause r = FailureCause.UNKNOWN) ||
            bool_decide (scope r = FailureScope.UNKNOWN))
    (ValueError "classifier rules must prove a known cause and scope");;
  raise_if (bool_decide (status_codes r = []) ||
            existsb (λ s, (s <? 100) || (599 <? s)) (status_codes r))
    (ValueError "classifier rule requires bounded HTTP statuses");;
  raise_if (existsb (λ v, (str_len v =? 0) || (160 <? str_len v)) (error_codes r))
    (ValueError "classifier error code is empty or oversized");;
  raise_if (existsb (λ v, (str_len v =? 0) || (1024 <? str_len v)) (message_contains r))
    (ValueError "classifier message evidence is empty or oversized");;
  mret r.

Definition matches (r : t) (o : FailureObservation) : bool :=
  if negb (bool_decide (FailureObservation.status_code o ∈ status_codes r)) then false
  else if negb (bool_decide (error_codes r = [])) &&
          match FailureObservation.error_code o with
          | Some e => negb (bool_decide (e ∈ error_codes r))
          | None => true
          end then false
  else forallb (λ fragment, contains fragment (FailureObservation.message o))
         (message_contains r).
End FailureRule.
Abbreviation FailureRule := FailureRule.t.

Module FailureClassification.
Record t := mk {
  cause : FailureCause;
  scope : FailureScope;
  evidence_digest : string;
  pre_response_bytes : bool;
}.
#[global] Instance eq_dec : EqDecision t.
Proof. solve_decision. Defined.

(** [__post_init__] *)
Definition validate (c : t) : result t :=
  raise_if (negb (String.prefix "sha256:" (evidence_digest c)) ||
            negb (str_len (evidence_digest c) =? 71))
    (ValueError "failure classification requires a SHA-256 evidence digest");;
  raise_if (xorb (bool_decide (cause c = FailureCause.UNKNOWN))
                 (bool_decide (scope c = FailureScope.UNKNOWN)))
    (ValueError "unknown failure cause and scope must agree");;
  mret c.

Definition dispatch_cause (c : t) : option DispatchCause :=
  if negb (pre_response_bytes c) then None else FAILURE_DISPATCH (cause c).
End FailureClassification.
Abbreviation FailureClassification := FailureClassification.t.

Module FailureClassifier.
Record t := mk { rules : list FailureRule }.

(** [__init__] *)
Definition init (rules : list FailureRule) : result t :=
  raise_if (bool_decide (rules = []))
    (ValueError "failure classifier requires at least one evidence rule");;
  mret (mk rules).

Section Classify.
Context (observation_sha : FailureObservation → string).

Definition evidence_digest (o : FailureObservation) : string :=
  String.append "sha256:" (observation_sha o).

Definition classify (c : t) (o : FailureObservation) : result FailureClassification :=
  let '(cause, scope) :=
    match List.filter (λ r, FailureRule.matches r o) (rules c) with
    | [rule] => (FailureRule.cause rule, FailureRule.scope rule)
    | _ => (FailureCause.UNKNOWN, FailureScope.UNKNOWN)
    end in
  FailureClassification.validate
    (FailureClassification.mk cause scope (evidence_digest o)
       (FailureObservation.pre_response_bytes o)).
End Classify.
End FailureClassifier.
Abbreviation FailureClassifier := FailureClassifier.t.

(** ** Candidates and the send budget *)
Module Candidate.
Record t := mk {
  authorized_leg : AuthorizedLeg;
  cause : DispatchCause;
  account_circuit : CircuitValue;
  deployment_circuit : CircuitValue;
}.
#[global] Instance eq_dec : EqDecision t.
Proof. solve_decision. Defined.

Definition leg_id (c : t) : string := AuthorizedLeg.leg_id (authorized_leg c).
Definition account_id (c : t) : string := AuthorizedLeg.account_id (authorized_leg c).
Definition generation_id (c : t) : string := AuthorizedLeg.generation_id (authorized_leg c).
End Candidate.
Abbreviation Candidate := Candidate.t.

Module DispatchedAttempt.
Record t := mk {
  attempt_id : string;
  leg_id : string;
  generation_id : string;
  circuit_epoch : Z;
  account_circuit_epoch : Z;
  probe_ids : list string;
}.
#[global] Instance eq_dec : EqDecision t.
Proof. solve_decision. Defined.
End DispatchedAttempt.
Abbreviation DispatchedAttempt := DispatchedAttempt.t.

(** [tuple(x for x in xs if x is not None)] *)
Definition present {A} (l : list (option A)) : list A := omap id l.

Module AttemptBudget.
Record t := mk {
  request_id : string;
  attempts : list DispatchedAttempt;
  response_started : bool;
}.
#[global] Instance eq_dec : EqDecision t.
Proof. solve_decision. Defined.

(** [__init__] *)
Definition init (request_id : string) : t := mk request_id [] false.

Definition of_dispatch (d : DispatchOperationalValue.t) : DispatchedAttempt :=
  {| DispatchedAttempt.attempt_id := DispatchOperationalValue.attempt_id d;
     DispatchedAttempt.leg_id := DispatchOperationalValue.leg_id d;
     DispatchedAttempt.generation_id := DispatchOperationalValue.deployment_generation_id d;
     DispatchedAttempt.circuit_epoch := DispatchOperationalValue.circuit_epoch d;
     DispatchedAttempt.account_circuit_epoch := DispatchOperationalValue.account_circuit_epoch d;
     DispatchedAttempt.probe_ids :=
       present [DispatchOperationalValue.account_circuit_probe_id d;
                DispatchOperationalValue.circuit_probe_id d] |}.

(** The body of the loop of [sync_runtime]; [known] is the ids of the attempts. *)
Definition sync_one (request_id : string) (l : list DispatchedAttempt)
    (d : DispatchOperationalValue.t) : list DispatchedAttempt :=
  if negb (bool_decide (DispatchOperationalValue.request_id d = request_id)) ||
     bool_decide (DispatchOperationalValue.attempt_id d ∈ DispatchedAttempt.attempt_id <$> l)
  then l else l ++ [of_dispatch d].

Definition sync_runtime (b : t) (view : OperationalRuntimeView.t) : t :=
  let l := foldl (sync_one (request_id b)) (attempts b)
             (OperationalRuntimeView.dispatches view) in
  b{{ attempts := sorted_by DispatchedAttempt.attempt_id str_leb l }}.

Definition from_runtime (request_id : string) (view : OperationalRuntimeView.t) : t :=
  sync_runtime (init request_id) view.

Definition send_closed (b : t) : bool :=
  response_started b || (3 <=? Z.of_nat (length (attempts b))).
Definition mark_response_started (b : t) : t := b{{ response_started := true }}.

(** [_probe_ids] *)
Definition probe_ids (c : Candidate) : list string :=
  present (CircuitValue.half_open_probe <$>
             [Candidate.account_circuit c; Candidate.deployment_circuit c]).

(** The same leg at the same circuit epochs. *)
Definition repeats (c : Candidate) (a : DispatchedAttempt) : bool :=
  bool_decide (DispatchedAttempt.leg_id a = Candidate.leg_id c) &&
  (DispatchedAttempt.circuit_epoch a =? CircuitValue.epoch (Candidate.deployment_circuit c)) &&
  (DispatchedAttempt.account_circuit_epoch a =? CircuitValue.epoch (Candidate.account_circuit c)).

Definition can_send (b : t) (c : Candidate) : bool :=
  if send_closed b then false
  else if existsb (repeats c) (attempts b) then false
  else
    let generation_seen := existsb (λ a,
      bool_decide (DispatchedAttempt.generation_id a = Candidate.generation_id c)) (attempts b) in
    if negb generation_seen then true
    else
      bool_decide (Candidate.cause c = DispatchCause.CAPACITY) &&
      negb (bool_decide (probe_ids c = [])) &&
      forallb (λ p, forallb (λ a, negb (bool_decide (p ∈ DispatchedAttempt.probe_ids a)))
                      (attempts b)) (probe_ids c).

Definition attempt_of (c : Candidate) (attempt_id : string) : DispatchedAttempt :=
  {| DispatchedAttempt.attempt_id := attempt_id;
     DispatchedAttempt.leg_id := Candidate.leg_id c;
     DispatchedAttempt.generation_id := Candidate.generation_id c;
     DispatchedAttempt.circuit_epoch := CircuitValue.epoch (Candidate.deployment_circuit c);
     DispatchedAttempt.account_circuit_epoch := CircuitValue.epoch (Candidate.account_circuit c);
     DispatchedAttempt.probe_ids := probe_ids c |}.

Definition record_send (c : Candidate) (attempt_id : string) : M t DispatchedAttempt :=
  b ← get;
  if negb (can_send b c) then raise (ValueError "provider send exceeds the request attempt budget")
  else
    let attempt := attempt_of c attempt_id in
    modify (λ b, b{{ attempts ::= (.++ [attempt]) }});;
    mret attempt.
End AttemptBudget.
Abbreviation AttemptBudget := AttemptBudget.t.

(** ** The route engine *)
Module RouteEngine.
Record t := mk {
  bundle : PolicyBundleV1;
  bundle_hash : string;
  keys : dict string ClientKeyRecord;
  policies : dict string KeyPolicyRevision;
  groups : dict string RouteGroupRevision;
  accounts : dict string ProviderAccount;
  groups_by_name : dict string RouteGroupRevision;
}.

Section Engine.
Context (bundle_digest : PolicyBundleV1 → string).
(** [GenerationOperationalGate.permits], which may raise. *)
Context (gate : AuthorizedLeg → string → result bool).
Implicit Types (e : t) (leg : AuthorizedLeg) (profile : RequestProfile)
  (view : OperationalRuntimeView.t) (context : RoutingContext).

(** [{key(x): x for x in xs}] *)
Definition index_by {A} (key : A → string) (l : list A) : dict string A :=
  dict_of ((λ x, (key x, x)) <$> l).

(** [activate], which [__init__] calls: nothing is assigned when validation
    raises. *)
Definition activate (bundle : PolicyBundleV1) : result t :=
  validated ← PolicyBundleV1.validate bundle;
  mret {| bundle := validated;
          bundle_hash := bundle_digest validated;
          keys := index_by ClientKeyRecord.key_id (PolicyBundleV1.keys validated);
          policies := index_by KeyPolicyRevision.policy_id (PolicyBundleV1.policies validated);
          groups := index_by RouteGroupRevision.route_group_id
                      (PolicyBundleV1.route_groups validated);
          accounts := index_by ProviderAccount.account_id (PolicyBundleV1.accounts validated);
          groups_by_name := index_by RouteGroupRevision.name
                              (PolicyBundleV1.route_groups validated) |}.

Definition resolve_route_group_id e (model_alias : string) : result string :=
  match dget model_alias (groups_by_name e) with
  | Some g => Ok (RouteGroupRevision.route_group_id g)
  | None => Err (ValueError "unknown client-visible model")
  end.

Definition policy_deadline_ms e (client : AuthenticatedClient) : result Z :=
  match dget (AuthenticatedClient.policy_id client) (policies e) with
  | Some p => Ok (KeyPolicyRevision.deadline_ms p)
  | None => Err (ValueError "client policy is absent from the current bundle")
  end.

Definition has_trigger (trigger : RouteTrigger) leg : bool :=
  bool_decide (trigger ∈ AuthorizedLeg.allowed_triggers leg).

Definition client_authorizes_shadow e (client : AuthenticatedClient) : bool :=
  match dget (AuthenticatedClient.policy_id client) (policies e) with
  | Some p => existsb (has_trigger RouteTrigger.SHADOW) (KeyPolicyRevision.authorized_legs p)
  | None => false
  end.

(** The legs of the policy that belong to the requested group. *)
Definition group_legs e (p : KeyPolicyRevision) profile : list AuthorizedLeg :=
  match dget (RequestProfile.route_group_id profile) (groups e) with
  | None => []
  | Some g =>
      if negb (bool_decide (RequestProfile.route_group_id profile ∈
                            KeyPolicyRevision.route_group_ids p)) then []
      else List.filter (λ leg, bool_decide (AuthorizedLeg.leg_id leg ∈
                                 RouteLeg.leg_id <$> RouteGroupRevision.legs g))
             (KeyPolicyRevision.authorized_legs p)
  end.

Definition authorize e (client : AuthenticatedClient) profile :
    result RequestAuthorizationCeiling :=
  let refused : exn := ValueError "client key has no current complete authorization" in
  match dget (AuthenticatedClient.key_id client) (keys e) with
  | None => Err refused
  | Some key =>
      raise_if (negb (bool_decide (ClientKeyRecord.state key = KeyLifecycleState.ENABLED)) ||
                negb (bool_decide (ClientKeyRecord.policy_id key =
                                   AuthenticatedClient.policy_id client))) refused;;
      match dget (AuthenticatedClient.policy_id client) (policies e) with
      | None => Err (ValueError "client policy is absent from the current bundle")
      | Some policy =>
          RequestAuthorizationCeiling.validate
            {| RequestAuthorizationCeiling.key_id := AuthenticatedClient.key_id client;
               RequestAuthorizationCeiling.credential_generation :=
                 AuthenticatedClient.accepted_credential_generation client;
               RequestAuthorizationCeiling.policy_id := KeyPolicyRevision.policy_id policy;
               RequestAuthorizationCeiling.bundle_generation :=
                 PolicyBundleV1.generation (bundle e);
               RequestAuthorizationCeiling.bundle_hash := bundle_hash e;
               RequestAuthorizationCeiling.route_group_id :=
                 RequestProfile.route_group_id profile;
               RequestAuthorizationCeiling.authorized_legs := group_legs e policy profile;
               RequestAuthorizationCeiling.queue_tier := KeyPolicyRevision.queue_tier policy;
               RequestAuthorizationCeiling.queue_weight := KeyPolicyRevision.queue_weight policy;
               RequestAuthorizationCeiling.max_concurrency :=
                 KeyPolicyRevision.max_concurrency policy;
               RequestAuthorizationCeiling.max_waiters := KeyPolicyRevision.max_waiters policy;
               RequestAuthorizationCeiling.deadline_ms := KeyPolicyRevision.deadline_ms policy |}
      end
  end.

Definition quota_units e (account_id : string) : result Z :=
  match dget account_id (accounts e) with
  | Some a => Ok (ProviderAccount.quota_units_per_attempt a)
  | None => Err (ValueError "candidate account is absent from the current bundle")
  end.

(** ** The legs in the operational view *)

(** [next((item for item in view.accounts if ...), None)] *)
Definition account_of view leg : option AccountCapacity :=
  List.find (λ c, bool_decide (AccountCapacity.account_id c = AuthorizedLeg.account_id leg))
    (OperationalRuntimeView.accounts view).
Definition deployment_circuit view leg : CircuitValue :=
  match List.find (λ c,
      bool_decide (CircuitOperationalValue.account_id c = AuthorizedLeg.account_id leg) &&
      bool_decide (CircuitOperationalValue.deployment_generation_id c =
                   AuthorizedLeg.generation_id leg)) (OperationalRuntimeView.circuits view) with
  | Some c => CircuitOperationalValue.value c
  | None => CircuitValue.closed 0
  end.

(** [_circuits] *)
Definition circuits leg view : CircuitValue * CircuitValue :=
  (match account_of view leg with
   | None => CircuitValue.closed 0
   | Some a => AccountCapacity.account_circuit a
   end, deployment_circuit view leg).

Definition candidate leg (cause : DispatchCause) (view : option OperationalRuntimeView.t) :
    Candidate :=
  let '(account, deployment) :=
    match view with
    | None => (CircuitValue.closed 0, CircuitValue.closed 0)
    | Some view => circuits leg view
    end in
  Candidate.mk leg cause account deployment.

(** [_capabilities_allow] *)
Definition capabilities_allow leg profile : bool :=
  let c := AuthorizedLeg.capabilities leg in
  bool_decide (RequestProfile.endpoint profile ∈ LegCapabilities.endpoints c) &&
  bool_decide (RequestProfile.modality profile ∈ LegCapabilities.modalities c) &&
  (RequestProfile.input_tokens_max profile + RequestProfile.output_tokens_max profile +
   RequestProfile.reasoning_tokens_max profile <=? LegCapabilities.context_tokens c) &&
  ((RequestProfile.tools_count profile =? 0) || LegCapabilities.tools c) &&
  (negb (RequestProfile.forced_tool_required profile) || LegCapabilities.forced_tool c) &&
  (negb (RequestProfile.response_schema_present profile) || LegCapabilities.response_schema c) &&
  (negb (RequestProfile.stream profile) || LegCapabilities.streaming c) &&
  ((RequestProfile.reasoning_tokens_max profile =? 0) || LegCapabilities.reasoning c) &&
  ((RequestProfile.history_turns profile =? 0) || LegCapabilities.history_continuation c).

(** [try: gate.permits(...) except Exception: False] *)
Definition generation_allowed e leg : bool :=
  match gate leg (PolicyBundleV1.backend_manifest_hash (bundle e)) with
  | Ok b => b
  | Err _ => false
  end.

(** [_operationally_available] *)
Definition operationally_available e leg view : bool :=
  if negb (generation_allowed e leg) then false
  else if negb (bool_decide (OperationalRuntimeView.recovery_state view = JournalStatus.HEALTHY))
  then false
  else
    match account_of view leg with
    | None => false
    | Some a =>
        if negb (bool_decide (AccountCapacity.state a = AccountState.ACTIVE)) ||
           AccountCapacity.recovery_probe_in_flight a ||
           (AccountCapacity.parallel_limit a <=? AccountCapacity.active_attempts a) ||
           CircuitValue.in_state CircuitState.OPEN (AccountCapacity.account_circuit a)
        then false
        else negb (CircuitValue.in_state CircuitState.OPEN (deployment_circuit view leg))
    end.

Definition emergency_permits context leg : bool :=
  match RoutingContext.emergency context with
  | None => false
  | Some em =>
      EmergencyActivation.permits em (AuthorizedLeg.leg_id leg) (RoutingContext.now_ms context)
        (RoutingContext.deadline_at_ms context) (RoutingContext.dispatcher_fence context)
  end.

Definition eligible e leg profile (cause : DispatchCause) view context : bool :=
  if LegCapabilities.shadow (AuthorizedLeg.capabilities leg) ||
     has_trigger RouteTrigger.SHADOW leg then false
  else if negb (has_trigger (CAUSE_TRIGGER cause) leg) then false
  else if negb (capabilities_allow leg profile) then false
  else if bool_decide (cause = DispatchCause.MANUAL_EMERGENCY) &&
          negb (emergency_permits context leg) then false
  else (RoutingContext.now_ms context <? RoutingContext.deadline_at_ms context) &&
       operationally_available e leg view.

(** ** Why the primaries are blocked *)

(** The cause of an open circuit; [None] is the early [return None]. *)
Definition circuit_blocker (v : CircuitValue) : option (list DispatchCause) :=
  if negb (CircuitValue.in_state CircuitState.OPEN v) then Some []
  else
    match CircuitValue.cause v with
    | Some CircuitCause.CAPACITY => Some [DispatchCause.CAPACITY]
    | Some CircuitCause.TRANSIENT_FAILURE => Some [DispatchCause.FAILURE]
    | Some CircuitCause.QUOTA => Some [DispatchCause.QUOTA]
    | Some CircuitCause.MANUAL => None
    | None => None
    end.

(** The only element of a set given by its additions. *)
Definition only (l : list DispatchCause) : option DispatchCause :=
  match remove_dups l with [c] => Some c | _ => None end.

(** The body of the loop over the primaries. *)
Definition leg_blocker e view leg : option DispatchCause :=
  match account_of view leg with
  | None => None
  | Some a =>
      if negb (bool_decide (AccountCapacity.state a = AccountState.ACTIVE)) ||
         AccountCapacity.recovery_probe_in_flight a then None
      else if negb (generation_allowed e leg) then None
      else
        let full := if AccountCapacity.parallel_limit a <=? AccountCapacity.active_attempts a
                    then [DispatchCause.CAPACITY] else [] in
        account ← circuit_blocker (AccountCapacity.account_circuit a);
        deployment ← circuit_blocker (deployment_circuit view leg);
        only (full ++ account ++ deployment)
  end.

Definition primaries (authorization : RequestAuthorizationCeiling) profile :
    list AuthorizedLeg :=
  List.filter (λ leg, has_trigger RouteTrigger.PRIMARY leg &&
    negb (LegCapabilities.shadow (AuthorizedLeg.capabilities leg)) &&
    capabilities_allow leg profile) (RequestAuthorizationCeiling.authorized_legs authorization).

Definition primary_blocking_cause e (authorization : RequestAuthorizationCeiling) profile view :
    option DispatchCause :=
  causes ← mapM (leg_blocker e view) (primaries authorization profile);
  only causes.

(** ** Selection *)
Definition filter e (authorization : RequestAuthorizationCeiling) profile
    (cause : DispatchCause) view context (excluded_accounts : list string) : list Candidate :=
  if negb (bool_decide (RequestProfile.route_group_id profile =
                        RequestAuthorizationCeiling.route_group_id authorization)) then []
  else
    (λ leg, candidate leg cause (Some view)) <$>
      List.filter (λ leg, negb (bool_decide (AuthorizedLeg.account_id leg ∈ excluded_accounts)) &&
                          eligible e leg profile cause view context)
        (RequestAuthorizationCeiling.authorized_legs authorization).

Definition select e authorization profile (cause : DispatchCause) view context
    (excluded_accounts : list string) : option Candidate :=
  head (filter e authorization profile cause view context excluded_accounts).

(** The loop of [shadow_candidate]. *)
Fixpoint shadow_loop e (legs : list AuthorizedLeg) profile view : option Candidate :=
  match legs with
  | [] => None
  | leg :: legs =>
      if negb (has_trigger RouteTrigger.SHADOW leg) ||
         negb (LegCapabilities.shadow (AuthorizedLeg.capabilities leg)) ||
         negb (capabilities_allow leg profile) || negb (operationally_available e leg view)
      then shadow_loop e legs profile view
      else
        let c := candidate leg DispatchCause.SHADOW (Some view) in
        if CircuitValue.in_state CircuitState.CLOSED (Candidate.account_circuit c) &&
           CircuitValue.in_state CircuitState.CLOSED (Candidate.deployment_circuit c)
        then Some c else shadow_loop e legs profile view
  end.

Definition shadow_candidate e (authorization : RequestAuthorizationCeiling) profile view context :
    option Candidate :=
  if negb (bool_decide (RequestProfile.route_group_id profile =
                        RequestAuthorizationCeiling.route_group_id authorization)) ||
     (RoutingContext.deadline_at_ms context <=? RoutingContext.now_ms context) then None
  else shadow_loop e (RequestAuthorizationCeiling.authorized_legs authorization) profile view.
End Engine.
End RouteEngine.
Abbreviation RouteEngine := RouteEngine.t.
