(* ===== verification/Circuits.v ===== *)
(** * Circuit control

    [gateway/routing.py], second part: the transitions of the account and
    deployment circuits, applied through the durable compare-and-swap of the
    runtime.  [sha256] is a parameter, as is the token the probe factory mints. *)
From S2P Require Export Routing.
From Stdlib Require Import Ascii.
From stdpp Require Import pretty.
#[local] Open Scope Z_scope.

Module CircuitProbe.
Record t := mk {
  scope : FailureScope;
  account_id : string;
  generation_id : string;
  value : CircuitValue;
}.
#[global] Instance eq_dec : EqDecision t.
Proof. solve_decision. Defined.

(** [__post_init__] *)
Definition validate (p : t) : result t :=
  raise_if (bool_decide (scope p = FailureScope.UNKNOWN))
    (ValueError "circuit probe scope must be known");;
  raise_if (negb (CircuitValue.in_state CircuitState.HALF_OPEN (value p)))
    (ValueError "circuit probe requires a half-open CAS value");;
  mret p.
End CircuitProbe.
Abbreviation CircuitProbe := CircuitProbe.t.

Module CircuitController.
Section Controller.
Context {safe : SafeSnapshot OwnerSnapshot}.
Context (record_digest : Z → Payload → string → string).
Context (sha256 : bytes → bytes).
Context (io : JournalIO).

(** [int.from_bytes(b, "big")] *)
Definition be_int (b : bytes) : Z := foldl (λ n c, n * 256 + byte_value c) 0 b.

Definition base_ms (step : Z) : Z :=
  if Z.min step 2 =? 0 then 15000 else if Z.min step 2 =? 1 then 30000 else 60000.

(** [_backoff_ms] *)
Definition backoff_ms (step : Z) (evidence_digest : string) : Z :=
  let base := base_ms step in
  let seed := sha256 (String.list_ascii_of_string
    (String.append evidence_digest (String.append ":" (pretty step)))) in
  base + be_int (take 2 seed) mod (base / 5 + 1).

(** An [OPEN] value at the epoch after [current]. *)
Definition opened (current : CircuitValue) (cause : CircuitCause) (evidence : string)
    (now_ms step : Z) : result CircuitValue :=
  CircuitValue.validate
    (CircuitValue.mk CircuitState.OPEN (Some cause) (CircuitValue.epoch current + 1) now_ms
       (now_ms + backoff_ms step evidence) step (Some evidence) None).

(** [_replacement] *)
Definition replacement (current : CircuitValue) (c : FailureClassification) (now_ms step : Z) :
    result CircuitValue :=
  cause ← CIRCUIT_CAUSE (FailureClassification.cause c);
  opened current cause (FailureClassification.evidence_digest c) now_ms step.

(** The circuit and the compare-and-swap of a scope. *)
Definition current_value (scope : FailureScope) (generation : string) (rt : AccountRuntime) :
    CircuitValue :=
  match scope with
  | FailureScope.ACCOUNT => AccountRuntime.account_circuit rt
  | _ => AccountRuntime.circuit_value rt generation
  end.
Definition read_circuit (account generation : string) (scope : FailureScope) :
    M Owner CircuitValue :=
  OwnerOps.on_account account (λ _,
    rt ← AccountOps.get_runtime; mret (current_value scope generation rt)).
Definition swap (account generation : string) (scope : FailureScope)
    (expected value : CircuitValue) : M Owner bool :=
  OwnerOps.on_account account (λ snap,
    match scope with
    | FailureScope.ACCOUNT =>
        AccountOps.compare_and_swap_account_circuit record_digest snap io expected value
    | _ => AccountOps.compare_and_swap_circuit record_digest snap io generation expected value
    end).

(** [x if swapped else None] *)
Definition when_swapped {A} (swapped : bool) (x : A) : option A :=
  if swapped then Some x else None.

Definition open_scope (account generation : string) (c : FailureClassification) (now_ms : Z)
    (scope : FailureScope) : M Owner (option CircuitValue) :=
  current ← read_circuit account generation scope;
  if CircuitValue.in_state CircuitState.OPEN current then mret (Some current)
  else
    let step := Z.min (CircuitValue.backoff_step current +
      (if CircuitValue.in_state CircuitState.HALF_OPEN current then 1 else 0)) 2 in
    value ← lift (replacement current c now_ms step);
    swapped ← swap account generation scope current value;
    mret (when_swapped swapped value).

Definition open (account generation : string) (c : FailureClassification) (now_ms : Z) :
    M Owner (option CircuitValue) :=
  if bool_decide (FailureClassification.cause c = FailureCause.UNKNOWN) then mret None
  else
    OwnerOps.on_account account (λ _, mret tt);;
    match FailureClassification.scope c with
    | FailureScope.UNKNOWN => mret None
    | scope => open_scope account generation c now_ms scope
    end.

Definition begin_probe (account generation : string) (now_ms : Z) (probe_token : string) :
    M Owner (option CircuitProbe) :=
  account_value ← read_circuit account generation FailureScope.ACCOUNT;
  deployment_value ← read_circuit account generation FailureScope.DEPLOYMENT;
  let scope := if CircuitValue.in_state CircuitState.OPEN account_value
               then FailureScope.ACCOUNT else FailureScope.DEPLOYMENT in
  let current := if CircuitValue.in_state CircuitState.OPEN account_value
                 then account_value else deployment_value in
  if negb (CircuitValue.in_state CircuitState.OPEN current) ||
     (now_ms <? CircuitValue.retry_at_ms current) then mret None
  else
    value ← lift (CircuitValue.validate
      (CircuitValue.mk CircuitState.HALF_OPEN (CircuitValue.cause current)
         (CircuitValue.epoch current) (CircuitValue.opened_at_ms current) 0
         (CircuitValue.backoff_step current) (CircuitValue.evidence_digest current)
         (Some probe_token)));
    swapped ← swap account generation scope current value;
    if (swapped : bool)
    then lift (probe ← CircuitProbe.validate (CircuitProbe.mk scope account generation value);
               mret (Some probe))
    else mret None.

Definition probe_succeeded (p : CircuitProbe) : M Owner bool :=
  OwnerOps.on_account (CircuitProbe.account_id p) (λ _, mret tt);;
  value ← lift (CircuitValue.validate
    (CircuitValue.closed (CircuitValue.epoch (CircuitProbe.value p))));
  swap (CircuitProbe.account_id p) (CircuitProbe.generation_id p) (CircuitProbe.scope p)
    (CircuitProbe.value p) value.

(** The value a failed probe leaves: the classified failure of its own scope, or
    else the cause and the evidence it had. *)
Definition failed_value (p : CircuitProbe) (c : FailureClassification) (now_ms : Z) :
    result CircuitValue :=
  let v := CircuitProbe.value p in
  let step := Z.min (CircuitValue.backoff_step v + 1) 2 in
  if negb (bool_decide (FailureClassification.cause c = FailureCause.UNKNOWN)) &&
     bool_decide (FailureClassification.scope c = CircuitProbe.scope p)
  then replacement v c now_ms step
  else
    match CircuitValue.cause v, CircuitValue.evidence_digest v with
    | Some cause, Some evidence => opened v cause evidence now_ms step
    | _, _ => Err AssertionError
    end.

Definition probe_failed (p : CircuitProbe) (c : FailureClassification) (now_ms : Z) :
    M Owner (option CircuitValue) :=
  OwnerOps.on_account (CircuitProbe.account_id p) (λ _, mret tt);;
  value ← lift (failed_value p c now_ms);
  swapped ← swap (CircuitProbe.account_id p) (CircuitProbe.generation_id p)
    (CircuitProbe.scope p) (CircuitProbe.value p) value;
  mret (when_swapped swapped value).

Definition probe_abandoned (p : CircuitProbe) (now_ms : Z) : M Owner (option CircuitValue) :=
  let no_evidence := String.append "sha256:" (String.string_of_list_ascii (replicate 64 "0"%char)) in
  let evidence := match CircuitValue.evidence_digest (CircuitProbe.value p) with
    | Some d => if bool_decide (d = ""%string) then no_evidence else d
    | None => no_evidence
    end in
  c ← lift (FailureClassification.validate
    (FailureClassification.mk FailureCause.UNKNOWN FailureScope.UNKNOWN evidence true));
  probe_failed p c now_ms.

Fixpoint abandon_all (l : list CircuitProbe) (now_ms : Z) : M Owner (list (option CircuitValue)) :=
  match l with
  | [] => mret []
  | p :: l =>
      r ← probe_abandoned p now_ms;
      rs ← abandon_all l now_ms;
      mret (r :: rs)
  end.

(** The probes of a candidate's half-open circuits, the account's first. *)
Definition candidate_probes (c : Candidate) : list CircuitProbe :=
  List.filter (λ p, CircuitValue.in_state CircuitState.HALF_OPEN (CircuitProbe.value p))
    [CircuitProbe.mk FailureScope.ACCOUNT (Candidate.account_id c) (Candidate.generation_id c)
       (Candidate.account_circuit c);
     CircuitProbe.mk FailureScope.DEPLOYMENT (Candidate.account_id c) (Candidate.generation_id c)
       (Candidate.deployment_circuit c)].

Definition abandon_candidate (c : Candidate) (now_ms : Z) :
    M Owner (list (option CircuitValue)) :=
  abandon_all (candidate_probes c) now_ms.
End Controller.
End CircuitController.
