(* ===== verification/RoutingProps.v ===== *)
(** * Properties of routing

    A leg is only ever selected inside the current authorization of the client;
    serving and shadow traffic never share a leg; a reported blocking cause means
    that no primary can be selected; a request sends at most three times, and
    repeats a deployment only through a fresh probe; an ambiguous failure is
    unknown. *)
From S2P Require Export Routing.
From S2P Require Import ModelFacts Samples.
#[local] Open Scope Z_scope.

Module RoutingFacts.
Import RouteEngine.

Lemma index_by_Some {A} (key : A → string) (l : list A) k x :
  dget k (index_by key l) = Some x → x ∈ l ∧ key x = k.
Proof.
  unfold index_by. intros H%dget_dict_of. apply list_elem_of_fmap in H as (y & [= -> ->] & Hy).
  done.
Qed.

Lemma head_fmap_list {A B} (f : A → B) (l : list A) : head (f <$> l) = f <$> head l.
Proof. by destruct l. Qed.

Lemma head_filter_Some {A} (f : A → bool) (l : list A) x :
  head (List.filter f l) = Some x ↔
  ∃ l1 l2, l = l1 ++ x :: l2 ∧ f x = true ∧ ∀ y, y ∈ l1 → f y = false.
Proof.
  split.
  - induction l as [|y l IH]; cbn; [done|]. destruct (f y) eqn:E; cbn.
    + intros [= ->]. exists [], l. split_and!; [done..|]. by intros ? ?%elem_of_nil.
    + intros (l1 & l2 & -> & Hx & Hl)%IH. exists (y :: l1), l2. split_and!; [done..|].
      intros z [->|Hz]%elem_of_cons; auto.
  - intros (l1 & l2 & -> & Hx & Hl). rewrite List.filter_app.
    enough (List.filter f l1 = []) as -> by (cbn; by rewrite Hx).
    induction l1 as [|y l1 IH]; [done|]. cbn. rewrite (Hl y) by left. apply IH.
    intros z Hz. apply Hl. by right.
Qed.

Section Facts.
Context (bundle_digest : PolicyBundleV1 → string).
Context (gate : AuthorizedLeg → string → result bool).
Implicit Types (leg : AuthorizedLeg) (profile : RequestProfile)
  (view : OperationalRuntimeView.t) (context : RoutingContext).

(** The indexes of the engine hold what its bundle holds. *)
Record engine_ok (e : t) : Prop := {
  ok_keys : ∀ k x, dget k (keys e) = Some x →
    x ∈ PolicyBundleV1.keys (bundle e) ∧ ClientKeyRecord.key_id x = k;
  ok_policies : ∀ k x, dget k (policies e) = Some x →
    x ∈ PolicyBundleV1.policies (bundle e) ∧ KeyPolicyRevision.policy_id x = k;
  ok_groups : ∀ k x, dget k (groups e) = Some x →
    x ∈ PolicyBundleV1.route_groups (bundle e) ∧ RouteGroupRevision.route_group_id x = k;
}.

Lemma activate_ok b e : activate bundle_digest b = Ok e →
  engine_ok e ∧ PolicyBundleV1.validate b = Ok (bundle e) ∧
  bundle_hash e = bundle_digest (bundle e).
Proof.
  unfold activate. intros H. inv_ok H. subst e. split_and!; [|done..].
  by split; cbn; intros k y ?%index_by_Some.
Qed.

(** What a ceiling is made of. *)
Lemma authorize_Ok e client profile c : engine_ok e → authorize e client profile = Ok c →
  ∃ key policy, key ∈ PolicyBundleV1.keys (bundle e) ∧
    ClientKeyRecord.key_id key = AuthenticatedClient.key_id client ∧
    ClientKeyRecord.state key = KeyLifecycleState.ENABLED ∧
    ClientKeyRecord.policy_id key = AuthenticatedClient.policy_id client ∧
    policy ∈ PolicyBundleV1.policies (bundle e) ∧
    KeyPolicyRevision.policy_id policy = AuthenticatedClient.policy_id client ∧
    RequestAuthorizationCeiling.route_group_id c = RequestProfile.route_group_id profile ∧
    RequestAuthorizationCeiling.authorized_legs c =
      AuthorizedLeg.sorted_legs (group_legs e policy profile).
Proof.
  intros He H. unfold authorize in H.
  destruct (dget _ (keys e)) as [key|] eqn:Hk; [|done]. inv_ok_step H. bprop in G.
  destruct (dget _ (policies e)) as [policy|] eqn:Hp; [|done].
  apply (ok_keys _ He) in Hk as [Hk Hid]. apply (ok_policies _ He) in Hp as [Hp Hpid].
  unfold RequestAuthorizationCeiling.validate in H. inv_ok H. subst c.
  apply CeilingFacts.validate_legs_Ok in G1 as [-> _].
  exists key, policy. destruct G as [Hst Hpol]. by split_and!.
Qed.

Lemma elem_of_group_legs e policy profile leg : engine_ok e →
  leg ∈ group_legs e policy profile →
  ∃ g, g ∈ PolicyBundleV1.route_groups (bundle e) ∧
    RouteGroupRevision.route_group_id g = RequestProfile.route_group_id profile ∧
    RequestProfile.route_group_id profile ∈ KeyPolicyRevision.route_group_ids policy ∧
    leg ∈ KeyPolicyRevision.authorized_legs policy ∧
    AuthorizedLeg.leg_id leg ∈ RouteLeg.leg_id <$> RouteGroupRevision.legs g.
Proof.
  intros He H. unfold group_legs in H.
  destruct (dget _ (groups e)) as [g|] eqn:Hg; [|by apply elem_of_nil in H].
  apply (ok_groups _ He) in Hg as [Hg Hid]. case_bool_decide; [|by apply elem_of_nil in H].
  cbn [negb] in H. apply list_elem_of_In, filter_In in H as [Hin Hleg].
  apply bool_decide_eq_true in Hleg. exists g. split_and!; try done. by apply list_elem_of_In.
Qed.

(** What [_operationally_available] promises. *)
Definition available e leg view : Prop :=
  gate leg (PolicyBundleV1.backend_manifest_hash (bundle e)) = Ok true ∧
  OperationalRuntimeView.recovery_state view = JournalStatus.HEALTHY ∧
  CircuitValue.state (deployment_circuit view leg) ≠ CircuitState.OPEN ∧
  ∃ a, a ∈ OperationalRuntimeView.accounts view ∧
    account_of view leg = Some a ∧
    AccountCapacity.account_id a = AuthorizedLeg.account_id leg ∧
    AccountCapacity.state a = AccountState.ACTIVE ∧
    AccountCapacity.recovery_probe_in_flight a = false ∧
    AccountCapacity.active_attempts a < AccountCapacity.parallel_limit a ∧
    CircuitValue.state (AccountCapacity.account_circuit a) ≠ CircuitState.OPEN.

Lemma account_of_Some view leg a : account_of view leg = Some a →
  a ∈ OperationalRuntimeView.accounts view ∧
  AccountCapacity.account_id a = AuthorizedLeg.account_id leg.
Proof.
  unfold account_of. intros [Hin Ha]%List.find_some. apply bool_decide_eq_true in Ha.
  by split; [apply list_elem_of_In|].
Qed.

Lemma operationally_available_true e leg view :
  operationally_available gate e leg view = true ↔ available e leg view.
Proof.
  unfold operationally_available, generation_allowed, available, CircuitValue.in_state. split.
  - destruct (gate _ _) as [[]|]; cbn [negb]; [|done..].
    case_bool_decide as Hr; cbn [negb]; [|done].
    destruct (account_of view leg) as [a|] eqn:Ha; [|done].
    destruct (account_of_Some _ _ _ Ha) as [Hin Hid].
    destruct (_ || _) eqn:E; [done|]. bprop. intros Hd. destruct E as [[[E1 E2] E3] E4].
    split_and!; try done. exists a. split_and!; try done.
  - intros (-> & Hr & Hd & a & _ & -> & _ & Hs & Hp & Hlt & Hc). cbn [negb].
    rewrite (bool_decide_true _ Hr), (bool_decide_true _ Hs), Hp, (bool_decide_false _ Hc),
      (bool_decide_false _ Hd). cbn. rewrite (proj2 (Z.leb_gt _ _) Hlt). done.
Qed.

(** What eligibility means. *)
Definition eligible_for e leg profile (cause : DispatchCause) view context : Prop :=
  LegCapabilities.shadow (AuthorizedLeg.capabilities leg) = false ∧
  (RouteTrigger.SHADOW ∉ AuthorizedLeg.allowed_triggers leg) ∧
  CAUSE_TRIGGER cause ∈ AuthorizedLeg.allowed_triggers leg ∧
  capabilities_allow leg profile = true ∧
  (cause = DispatchCause.MANUAL_EMERGENCY → emergency_permits context leg = true) ∧
  RoutingContext.now_ms context < RoutingContext.deadline_at_ms context ∧
  available e leg view.

Lemma eligible_true e leg profile cause view context :
  eligible gate e leg profile cause view context = true ↔
  eligible_for e leg profile cause view context.
Proof.
  unfold eligible, eligible_for, has_trigger. rewrite <-operationally_available_true.
  destruct (LegCapabilities.shadow _); [by naive_solver|]. cbn [orb].
  case_bool_decide; [by naive_solver|]. case_bool_decide; cbn [negb]; [|by naive_solver].
  destruct (capabilities_allow leg profile); cbn [negb]; [|by naive_solver].
  case_bool_decide; cbn [andb].
  - destruct (emergency_permits context leg); cbn [negb]; [|by naive_solver].
    rewrite andb_true_iff, Z.ltb_lt. naive_solver.
  - rewrite andb_true_iff, Z.ltb_lt. naive_solver.
Qed.

Lemma select_Some e ceiling profile cause view context excl c :
  select gate e ceiling profile cause view context excl = Some c →
  RequestProfile.route_group_id profile = RequestAuthorizationCeiling.route_group_id ceiling ∧
  ∃ l1 leg l2, RequestAuthorizationCeiling.authorized_legs ceiling = l1 ++ leg :: l2 ∧
    c = candidate leg cause (Some view) ∧ (AuthorizedLeg.account_id leg ∉ excl) ∧
    eligible_for e leg profile cause view context ∧
    ∀ leg', leg' ∈ l1 → AuthorizedLeg.account_id leg' ∈ excl ∨
      ¬ eligible_for e leg' profile cause view context.
Proof.
  unfold select, filter. case_bool_decide as Hg; cbn [negb]; [|done].
  rewrite head_fmap_list. intros (leg & Hh & ->)%fmap_Some. split; [done|].
  apply head_filter_Some in Hh as (l1 & l2 & Hl & Hf & Hl1).
  apply andb_true_iff in Hf as [Hx He%eligible_true]. bprop in Hx.
  exists l1, leg, l2. split_and!; try done.
  intros leg' Hin. specialize (Hl1 leg' Hin). apply andb_false_iff in Hl1 as [Hx'|He'].
  - left. by apply negb_false_iff, bool_decide_eq_true in Hx'.
  - right. rewrite <-eligible_true. by rewrite He'.
Qed.

Lemma select_None e ceiling profile cause view context excl :
  RequestProfile.route_group_id profile = RequestAuthorizationCeiling.route_group_id ceiling →
  select gate e ceiling profile cause view context excl = None ↔
  ∀ leg, leg ∈ RequestAuthorizationCeiling.authorized_legs ceiling →
    AuthorizedLeg.account_id leg ∈ excl ∨ ¬ eligible_for e leg profile cause view context.
Proof.
  intros Hg. unfold select, filter. rewrite (bool_decide_true _ Hg). cbn [negb].
  rewrite head_fmap_list, fmap_None, head_None. setoid_rewrite <-eligible_true.
  generalize (RequestAuthorizationCeiling.authorized_legs ceiling). intros l. split.
  - intros Hf leg Hin. destruct (decide (AuthorizedLeg.account_id leg ∈ excl)); [by left|right].
    intros He. assert (leg ∈ List.filter (λ leg,
      negb (bool_decide (AuthorizedLeg.account_id leg ∈ excl)) &&
      eligible gate e leg profile cause view context) l) as Hx.
    { apply list_elem_of_In, filter_In. split; [by apply list_elem_of_In|].
      by rewrite He, bool_decide_false. }
    rewrite Hf in Hx. by apply elem_of_nil in Hx.
  - intros H. induction l as [|leg l IH]; [done|]. cbn.
    rewrite IH by (intros leg' ?; apply H; by right).
    destruct (H leg) as [Hx|Hx]; [left|by rewrite (bool_decide_true _ Hx)|].
    apply not_true_is_false in Hx. by rewrite Hx, andb_false_r.
Qed.

Lemma shadow_loop_Some e legs profile view c : shadow_loop gate e legs profile view = Some c →
  ∃ leg, leg ∈ legs ∧ c = candidate leg DispatchCause.SHADOW (Some view) ∧
    RouteTrigger.SHADOW ∈ AuthorizedLeg.allowed_triggers leg ∧
    LegCapabilities.shadow (AuthorizedLeg.capabilities leg) = true ∧
    capabilities_allow leg profile = true ∧ available e leg view ∧
    CircuitValue.state (Candidate.account_circuit c) = CircuitState.CLOSED ∧
    CircuitValue.state (Candidate.deployment_circuit c) = CircuitState.CLOSED.
Proof.
  induction legs as [|leg legs IH]; cbn [shadow_loop]; [done|].
  destruct (_ || _) eqn:E.
  { intros (l & ? & ?)%IH. exists l. split; [by right|done]. }
  destruct (_ && _) eqn:E2.
  - intros [= <-]. exists leg. unfold has_trigger, CircuitValue.in_state in *. bprop.
    rewrite operationally_available_true in *. destruct E as [[[? ?] ?] ?], E2.
    split_and!; try done. left.
  - intros (l & ? & ?)%IH. exists l. split; [by right|done].
Qed.

Lemma only_Some l c : only l = Some c → c ∈ l ∧ ∀ x, x ∈ l → x = c.
Proof.
  unfold only. destruct (remove_dups l) as [|c' [|]] eqn:E; [done| |done]. intros [= ->].
  assert (∀ x, x ∈ l ↔ x = c) as H.
  { intros x. by rewrite <-elem_of_remove_dups, E, list_elem_of_singleton. }
  split; [by apply H|]. intros x. apply H.
Qed.

(** The dispatch cause of a circuit cause; manual circuits have none. *)
Definition circuit_dispatch (c : CircuitCause) : option DispatchCause :=
  match c with
  | CircuitCause.CAPACITY => Some DispatchCause.CAPACITY
  | CircuitCause.TRANSIENT_FAILURE => Some DispatchCause.FAILURE
  | CircuitCause.QUOTA => Some DispatchCause.QUOTA
  | CircuitCause.MANUAL => None
  end.

Lemma circuit_blocker_Some v l : circuit_blocker v = Some l →
  (CircuitValue.state v ≠ CircuitState.OPEN ∧ l = []) ∨
  (CircuitValue.state v = CircuitState.OPEN ∧
   ∃ cc d, CircuitValue.cause v = Some cc ∧ circuit_dispatch cc = Some d ∧ l = [d]).
Proof.
  unfold circuit_blocker, CircuitValue.in_state. case_bool_decide; cbn [negb].
  - destruct (CircuitValue.cause v) as [[]|]; intros [= <-] || done; right; eauto 10.
  - intros [= <-]. by left.
Qed.

(** The only reason that keeps a leg of an active account from being used. *)
Definition blocked_by e leg view (c : DispatchCause) : Prop :=
  ∃ a, account_of view leg = Some a ∧ AccountCapacity.state a = AccountState.ACTIVE ∧
    gate leg (PolicyBundleV1.backend_manifest_hash (bundle e)) = Ok true ∧
    (AccountCapacity.parallel_limit a ≤ AccountCapacity.active_attempts a ∧
       c = DispatchCause.CAPACITY ∨
     ∃ v cc, (v = AccountCapacity.account_circuit a ∨ v = deployment_circuit view leg) ∧
       CircuitValue.state v = CircuitState.OPEN ∧ CircuitValue.cause v = Some cc ∧
       circuit_dispatch cc = Some c) ∧
    (AccountCapacity.parallel_limit a ≤ AccountCapacity.active_attempts a →
       c = DispatchCause.CAPACITY) ∧
    ∀ v, v = AccountCapacity.account_circuit a ∨ v = deployment_circuit view leg →
      CircuitValue.state v = CircuitState.OPEN →
      CircuitValue.cause v ≫= circuit_dispatch = Some c.

Lemma leg_blocker_Some e view leg c : leg_blocker gate e view leg = Some c →
  blocked_by e leg view c.
Proof.
  unfold leg_blocker, generation_allowed. destruct (account_of view leg) as [a|] eqn:Ha; [|done].
  destruct (_ || _) eqn:E; [done|]. bprop. destruct E as [Hs _].
  destruct (gate _ _) as [[]|] eqn:Hgate; cbn [negb]; [|done..].
  destruct (circuit_blocker (AccountCapacity.account_circuit a)) as [l1|] eqn:H1; [|done].
  destruct (circuit_blocker (deployment_circuit view leg)) as [l2|] eqn:H2; [|done].
  cbn [mbind option_bind]. intros [Hin Hall]%only_Some. rewrite !elem_of_app in Hin.
  setoid_rewrite elem_of_app in Hall. setoid_rewrite elem_of_app in Hall.
  apply circuit_blocker_Some in H1, H2. exists a. split_and!; try done.
  - destruct Hin as [Hin|[Hin|Hin]].
    + left. destruct (Z.leb_spec (AccountCapacity.parallel_limit a)
        (AccountCapacity.active_attempts a)); [|by apply elem_of_nil in Hin].
      by apply list_elem_of_singleton in Hin.
    + right. destruct H1 as [[_ ->]|(Ho & cc & d & Hc & Hd & ->)]; [by apply elem_of_nil in Hin|].
      apply list_elem_of_singleton in Hin as ->. eauto 10.
    + right. destruct H2 as [[_ ->]|(Ho & cc & d & Hc & Hd & ->)]; [by apply elem_of_nil in Hin|].
      apply list_elem_of_singleton in Hin as ->. eauto 10.
  - intros Hle. symmetry. apply Hall. left. rewrite (proj2 (Z.leb_le _ _) Hle). left.
  - intros v [->| ->] Ho.
    + destruct H1 as [[? _]|(_ & cc & d & Hc & Hd & ->)]; [done|]. rewrite Hc. cbn. rewrite Hd.
      f_equal. apply Hall. right; left. left.
    + destruct H2 as [[? _]|(_ & cc & d & Hc & Hd & ->)]; [done|]. rewrite Hc. cbn. rewrite Hd.
      f_equal. apply Hall. right; right. left.
Qed.

Lemma blocked_not_available e leg view c : blocked_by e leg view c → ¬ available e leg view.
Proof.
  intros (a & Ha & _ & _ & Hb & _) (_ & _ & Hd & a' & _ & Ha' & _ & _ & _ & Hlt & Hc).
  rewrite Ha in Ha'. injection Ha' as <-.
  destruct Hb as [[? _]|(v & cc & [->| ->] & Ho & _)]; [lia|done|done].
Qed.
End Facts.
End RoutingFacts.

(** ** The send budget over a run *)
Module BudgetFacts.
Import AttemptBudget.

(** The calls a request makes on its budget. *)
Inductive call :=
| Send (c : Candidate) (attempt_id : string)
| Started
| Sync (view : OperationalRuntimeView.t).

(** The attempts the budget accepts, in order. *)
Fixpoint accepted (calls : list call) (b : t) : list DispatchedAttempt :=
  match calls with
  | [] => []
  | Send c attempt_id :: calls =>
      match record_send c attempt_id b with
      | (b, Ok a) => a :: accepted calls b
      | (b, Err _) => accepted calls b
      end
  | Started :: calls => accepted calls (mark_response_started b)
  | Sync view :: calls => accepted calls (sync_runtime b view)
  end.

(** [a] may follow [a']: another leg or another epoch, and on a deployment that
    was already sent to, only probes that [a'] did not use. *)
Definition fresh (a' a : DispatchedAttempt) : Prop :=
  ¬ (DispatchedAttempt.leg_id a' = DispatchedAttempt.leg_id a ∧
     DispatchedAttempt.circuit_epoch a' = DispatchedAttempt.circuit_epoch a ∧
     DispatchedAttempt.account_circuit_epoch a' = DispatchedAttempt.account_circuit_epoch a) ∧
  (DispatchedAttempt.generation_id a' = DispatchedAttempt.generation_id a →
   DispatchedAttempt.probe_ids a ≠ [] ∧
   ∀ p, p ∈ DispatchedAttempt.probe_ids a → p ∉ DispatchedAttempt.probe_ids a').

Lemma record_send_eq c i b : record_send c i b =
  if can_send b c then (b{{ attempts ::= (.++ [attempt_of c i]) }}, Ok (attempt_of c i))
  else (b, Err (ValueError "provider send exceeds the request attempt budget")).
Proof.
  unfold record_send, get, raise, modify, mbind, M_bind. cbv beta iota.
  by destruct (can_send b c).
Qed.

Lemma record_send_Ok c i b b' a : record_send c i b = (b', Ok a) →
  response_started b = false ∧ (length (attempts b) < 3)%nat ∧ a = attempt_of c i ∧
  attempts b' = attempts b ++ [a] ∧ response_started b' = false ∧
  ∀ a', a' ∈ attempts b → fresh a' a.
Proof.
  rewrite record_send_eq. destruct (can_send b c) eqn:E; [|done]. intros [= <- <-].
  unfold can_send in E.
  destruct (send_closed b) eqn:Hc; [done|]. unfold send_closed in Hc. bprop in Hc.
  destruct Hc as [Hr Hlen]. destruct (existsb (repeats c) (attempts b)) eqn:Hrep; [done|].
  destruct b as [rid l started]; cbn in *. split_and!; [done|lia|done|done|done|].
  intros a' Ha'. split.
  - intros (H1 & H2 & H3). rewrite existsb_false in Hrep. specialize (Hrep a' Ha').
    unfold repeats in Hrep. cbn in H1, H2, H3.
    by rewrite H2, H3, !Z.eqb_refl, (bool_decide_true _ H1) in Hrep.
  - intros Hgen. assert (existsb (λ a, bool_decide (DispatchedAttempt.generation_id a =
      Candidate.generation_id c)) l = true) as Hs.
    { apply existsb_exists. exists a'. rewrite bool_decide_true by done.
      split; [by apply list_elem_of_In|done]. }
    rewrite Hs in E. cbn [negb] in E. bprop in E. destruct E as [[_ Hne] Hall].
    split; [done|]. intros p Hp Hin. specialize (Hall p (proj1 (list_elem_of_In _ _) Hp)).
    rewrite forallb_forall in Hall. specialize (Hall a' (proj1 (list_elem_of_In _ _) Ha')).
    by rewrite (bool_decide_true _ Hin) in Hall.
Qed.

Lemma record_send_Err c i b b' e : record_send c i b = (b', Err e) → b' = b.
Proof.
  rewrite record_send_eq. by destruct (can_send b c); intros [= <-].
Qed.

Lemma sync_one_extends rid l d : ∃ k, sync_one rid l d = l ++ k.
Proof. unfold sync_one. destruct (_ || _); [exists []; by rewrite app_nil_r|by eexists]. Qed.

(** Synchronising only adds attempts. *)
Lemma sync_extends b view : ∃ k, attempts (sync_runtime b view) ≡ₚ attempts b ++ k.
Proof.
  unfold sync_runtime. destruct b as [rid l started]. cbn.
  enough (∃ k, foldl (sync_one rid) l (OperationalRuntimeView.dispatches view) = l ++ k)
    as [k Hk]. { exists k. by rewrite sorted_by_perm, Hk. }
  generalize (OperationalRuntimeView.dispatches view). intros ds. revert l.
  induction ds as [|d ds IH]; intros l; cbn; [exists []; by rewrite app_nil_r|].
  destruct (sync_one_extends rid l d) as [k1 ->]. destruct (IH (l ++ k1)) as [k2 ->].
  exists (k1 ++ k2). by rewrite app_assoc.
Qed.

Lemma accepted_spec calls b :
  (length (accepted calls b) + length (attempts b) ≤ Nat.max 3 (length (attempts b)))%nat ∧
  (∀ a' a, a' ∈ attempts b → a ∈ accepted calls b → fresh a' a) ∧
  ForallOrdPairs fresh (accepted calls b) ∧
  (response_started b = true → accepted calls b = []).
Proof.
  revert b. induction calls as [|[c i| |view] calls IH]; intros b; cbn [accepted].
  - cbn. split_and!; [lia| |constructor|by intros _]. by intros ? ? _ ?%elem_of_nil.
  - destruct (record_send c i b) as [b' [a|e]] eqn:E.
    + apply record_send_Ok in E as (Hs & Hlen & _ & Hb & Hs' & Hfresh).
      destruct (IH b') as (IH1 & IH2 & IH3 & _). rewrite Hb, length_app in IH1. cbn in *.
      split_and!; [lia| | |congruence].
      * intros a' x Ha' [->|Hx]%elem_of_cons; [by apply Hfresh|].
        apply IH2; [|done]. rewrite Hb, elem_of_app. by left.
      * constructor; [|done]. apply Forall_forall. intros x Hx. apply IH2; [|done].
        rewrite Hb, elem_of_app. right. left.
    + apply record_send_Err in E as ->. apply IH.
  - destruct (IH (mark_response_started b)) as (IH1 & IH2 & IH3 & IH4). destruct b. cbn in *.
    by split_and!; [..|intros _; apply IH4].
  - destruct (sync_extends b view) as [k Hk]. destruct (IH (sync_runtime b view))
      as (IH1 & IH2 & IH3 & IH4).
    pose proof (Permutation_length Hk) as Hlen. rewrite length_app in Hlen.
    split_and!; [lia| |done|].
    + intros a' a Ha' Ha. apply IH2; [|done]. rewrite Hk, elem_of_app. by left.
    + intros Hs. apply IH4. by destruct b.
Qed.
End BudgetFacts.

(** ** Classification *)
Module ClassifierFacts.
Import FailureClassifier.
Section Facts.
Context (observation_sha : FailureObservation → string).

Lemma prefix_sha s : String.prefix "sha256:" (String.append "sha256:" s) = true.
Proof. by destruct s. Qed.

Lemma classification_valid cause scope o : str_len (observation_sha o) = 64 →
  (cause = FailureCause.UNKNOWN ↔ scope = FailureScope.UNKNOWN) →
  let f := FailureClassification.mk cause scope (evidence_digest observation_sha o)
             (FailureObservation.pre_response_bytes o) in
  FailureClassification.validate f = Ok f.
Proof.
  intros Hlen Hc. cbn zeta. unfold FailureClassification.validate.
  rewrite raise_if_pass; [rewrite raise_if_pass; [done|]|].
  - cbn. destruct cause, scope; cbn; try done; naive_solver.
  - cbn [FailureClassification.evidence_digest]. unfold evidence_digest, str_len in *.
    rewrite prefix_sha. cbn [negb orb]. apply negb_false_iff, Z.eqb_eq. 
    change (String.length _) with (7 + String.length (observation_sha o))%nat. lia.
Qed.

Lemma filter_perm_singleton {A} (f : A → bool) (l l' : list A) x :
  l ≡ₚ l' → List.filter f l = [x] → List.filter f l' = [x].
Proof.
  intros Hp Hx. apply Permutation_singleton_r. rewrite <-Hx. symmetry.
  clear Hx. induction Hp as [|y l1 l2 _ IH|y z l1|l1 l2 l3 _ IH1 _ IH2]; cbn.
  - done.
  - destruct (f y); by rewrite IH.
  - destruct (f y), (f z); try done. constructor.
  - by rewrite IH1.
Qed.
End Facts.
End ClassifierFacts.

Module RoutingTheorems.
Import RouteEngine RoutingFacts.
Section RoutingTheorems.
Context (bundle_digest : PolicyBundleV1 → string).
Context (gate : AuthorizedLeg → string → result bool).
Implicit Types (leg : AuthorizedLeg) (profile : RequestProfile)
  (view : OperationalRuntimeView.t) (context : RoutingContext).

(** C19. A selected leg is inside the client's current authorization: the bundle
    holds an enabled key of the client with the client's policy, the policy
    authorizes the leg, and the leg belongs to the requested route group, which
    the policy grants.  It carries the trigger of the dispatch cause, is not a
    shadow leg, can serve the profile, its account is active and below its limit
    with no probe in flight and no open circuit, its generation is permitted, and
    a manual emergency leg is inside its signed window.  It is the first such leg
    of the ceiling, in ascending order: everything before it is excluded or not
    eligible. *)
Theorem selection_authorized b e client profile ceiling cause view context excl c :
  activate bundle_digest b = Ok e → authorize e client profile = Ok ceiling →
  select gate e ceiling profile cause view context excl = Some c →
  ∃ key policy group leg before after,
    key ∈ PolicyBundleV1.keys (bundle e) ∧
    ClientKeyRecord.key_id key = AuthenticatedClient.key_id client ∧
    ClientKeyRecord.state key = KeyLifecycleState.ENABLED ∧
    ClientKeyRecord.policy_id key = KeyPolicyRevision.policy_id policy ∧
    policy ∈ PolicyBundleV1.policies (bundle e) ∧
    KeyPolicyRevision.policy_id policy = AuthenticatedClient.policy_id client ∧
    group ∈ PolicyBundleV1.route_groups (bundle e) ∧
    RouteGroupRevision.route_group_id group = RequestProfile.route_group_id profile ∧
    RouteGroupRevision.route_group_id group ∈ KeyPolicyRevision.route_group_ids policy ∧
    leg ∈ KeyPolicyRevision.authorized_legs policy ∧
    AuthorizedLeg.leg_id leg ∈ RouteLeg.leg_id <$> RouteGroupRevision.legs group ∧
    c = candidate leg cause (Some view) ∧
    eligible_for gate e leg profile cause view context ∧
    RequestAuthorizationCeiling.authorized_legs ceiling = before ++ leg :: after ∧
    StronglySorted (λ x y, AuthorizedLeg.key_leb x y = true)
      (AuthorizedLeg.sort_key <$> before ++ leg :: after) ∧
    ∀ leg', leg' ∈ before → AuthorizedLeg.account_id leg' ∈ excl ∨
      ¬ eligible_for gate e leg' profile cause view context.
Proof.
  intros (He & _ & _)%activate_ok Ha Hs.
  pose proof Ha as (key & policy & Hk & Hkid & Hst & Hkp & Hp & Hpid & Hg & Hlegs)%authorize_Ok;
    [|done].
  apply select_Some in Hs as (_ & l1 & leg & l2 & Hl & Hc & _ & Hel & Hfirst).
  assert (leg ∈ group_legs e policy profile) as Hin.
  { rewrite <-(sorted_by_perm AuthorizedLeg.sort_key AuthorizedLeg.key_leb).
    change (leg ∈ AuthorizedLeg.sorted_legs (group_legs e policy profile)).
    rewrite <-Hlegs, Hl, elem_of_app. right. left. }
  apply elem_of_group_legs in Hin as (g & Hgin & Hgid & Hpg & Hpl & Hgl); [|done].
  exists key, policy, g, leg, l1, l2. rewrite <-Hgid in Hpg. split_and!; try done; [congruence|].
  apply (proj1 (StronglySorted_key AuthorizedLeg.sort_key _ _)). rewrite <-Hl, Hlegs.
  apply sorted_by_sorted, pair_leb_order; apply _.
Qed.

(** Serving and shadow traffic never share a leg: a shadow candidate is a
    shadow leg with both circuits closed that can serve the profile, and no
    selection, whatever the cause, the view and the context, returns its leg. *)
Theorem shadow_isolated e ceiling profile view context s :
  RequestAuthorizationCeiling.validate ceiling = Ok ceiling →
  shadow_candidate gate e ceiling profile view context = Some s →
  CircuitValue.state (Candidate.account_circuit s) = CircuitState.CLOSED ∧
  CircuitValue.state (Candidate.deployment_circuit s) = CircuitState.CLOSED ∧
  capabilities_allow (Candidate.authorized_leg s) profile = true ∧
  available gate e (Candidate.authorized_leg s) view ∧
  RoutingContext.now_ms context < RoutingContext.deadline_at_ms context ∧
  ∀ profile' cause view' context' excl c,
    select gate e ceiling profile' cause view' context' excl = Some c →
    Candidate.leg_id c ≠ Candidate.leg_id s.
Proof.
  intros Hwf%CeilingFacts.ceiling_validate_wf Hs. unfold shadow_candidate in Hs.
  destruct (_ || _) eqn:E; [done|]. bprop. destruct E as [_ Hd].
  apply shadow_loop_Some in Hs as (leg & Hin & -> & Ht & _ & Hcap & Hav & Hc1 & Hc2).
  split_and!; try done. intros profile' cause view' context' excl c Hsel.
  apply select_Some in Hsel as (_ & l1 & leg' & l2 & Hl & -> & _ & Hel & _).
  unfold Candidate.leg_id. cbn [candidate Candidate.authorized_leg]. intros Heq.
  assert (leg' = leg) as ->.
  { eapply (NoDup_key_inj AuthorizedLeg.leg_id), Heq; [apply (CeilingFacts.wf_nodup _ Hwf)| |done].
    rewrite Hl, elem_of_app. right. left. }
  destruct Hel as (_ & Hnot & _). done.
Qed.

(** A blocking cause is reported only when the primaries are blocked by it:
    some primary leg can serve the profile, each such leg belongs to an active
    account with a permitted generation and is kept back by exactly that cause
    (its limit, or an open circuit of that cause), and no primary can be
    selected, whatever the context. *)
Theorem primary_blocking_sound e ceiling profile view c :
  primary_blocking_cause gate e ceiling profile view = Some c →
  primaries ceiling profile ≠ [] ∧
  (∀ leg, leg ∈ primaries ceiling profile → blocked_by gate e leg view c) ∧
  ∀ context excl, select gate e ceiling profile DispatchCause.PRIMARY view context excl = None.
Proof.
  unfold primary_blocking_cause.
  destruct (mapM _ _) as [causes|] eqn:Hm; [|done]. cbn [mbind option_bind]. intros Ho.
  apply mapM_Some in Hm. apply only_Some in Ho as [Hin Hall].
  assert (∀ leg, leg ∈ primaries ceiling profile → blocked_by gate e leg view c) as Hb.
  { intros leg Hleg. apply leg_blocker_Some.
    apply list_elem_of_lookup in Hleg as [i Hi].
    destruct (Forall2_lookup_l _ _ _ _ _ Hm Hi) as (d & Hd & Hleg').
    by rewrite <-(Hall d (list_elem_of_lookup_2 _ _ _ Hd)). }
  split_and!; [|done|].
  - intros Hn. rewrite Hn in Hm. inversion Hm. subst. by apply elem_of_nil in Hin.
  - intros context excl. destruct (select _ _ _ _ _ _ _ _) as [s|] eqn:Hs; [|done]. exfalso.
    apply select_Some in Hs as (_ & l1 & leg & l2 & Hl & -> & _ & Hel & _).
    destruct Hel as (Hsh & _ & Ht & Hcap & _ & _ & Hav).
    eapply blocked_not_available, Hav. apply Hb. unfold primaries.
    apply list_elem_of_In, filter_In. split.
    + apply list_elem_of_In. rewrite Hl, elem_of_app. right. left.
    + unfold has_trigger. by rewrite (bool_decide_true _ Ht), Hsh, Hcap.
Qed.
End RoutingTheorems.

(** C34. The send budget of a request, over any calls it makes: at most three
    sends are accepted and none once the response has started; a leg is never
    sent to twice at the same circuit epochs, and a deployment that was sent to is
    sent to again only through a half-open probe that no earlier send used. *)
Theorem send_budget request_id calls :
  let sends := BudgetFacts.accepted calls (AttemptBudget.init request_id) in
  (length sends ≤ 3)%nat ∧ ForallOrdPairs BudgetFacts.fresh sends ∧
  ∀ b, AttemptBudget.response_started b = true → BudgetFacts.accepted calls b = [].
Proof.
  cbv zeta. destruct (BudgetFacts.accepted_spec calls (AttemptBudget.init request_id))
    as (H1 & _ & H3 & _). cbn in H1. split_and!; [lia|done|].
  intros b Hb. by apply (BudgetFacts.accepted_spec calls b).
Qed.

(** A failure is classified by the one rule that matches it, and as unknown
    when no rule or several match: the answer does not depend on the order of the
    rules, is known exactly when one rule alone matches, and asks for another
    dispatch only when it is known and no response byte was sent. *)
Theorem classification_unambiguous observation_sha rules o :
  Forall (λ r, FailureRule.validate r = Ok r) rules → str_len (observation_sha o) = 64 →
  ∃ f, FailureClassifier.classify observation_sha (FailureClassifier.mk rules) o = Ok f ∧
    (∀ rules', rules ≡ₚ rules' →
      FailureClassifier.classify observation_sha (FailureClassifier.mk rules') o = Ok f) ∧
    (FailureClassification.cause f ≠ FailureCause.UNKNOWN ↔
      ∃ r, List.filter (λ r, FailureRule.matches r o) rules = [r] ∧
        FailureClassification.cause f = FailureRule.cause r ∧
        FailureClassification.scope f = FailureRule.scope r) ∧
    (is_Some (FailureClassification.dispatch_cause f) ↔
      FailureObservation.pre_response_bytes o = true ∧
      FailureClassification.cause f ≠ FailureCause.UNKNOWN).
Proof.
  intros Hv Hlen. set (m := λ r, FailureRule.matches r o).
  assert (∀ f : FailureClassification, FailureClassification.pre_response_bytes f =
    FailureObservation.pre_response_bytes o →
    (is_Some (FailureClassification.dispatch_cause f) ↔
     FailureObservation.pre_response_bytes o = true ∧
     FailureClassification.cause f ≠ FailureCause.UNKNOWN)) as Hdispatch.
  { intros f Hf. unfold FailureClassification.dispatch_cause. rewrite Hf, <-not_eq_None_Some.
    destruct (FailureObservation.pre_response_bytes o), (FailureClassification.cause f); cbn;
      naive_solver. }
  assert (∀ rules', rules ≡ₚ rules' → List.filter m rules' = List.filter m rules ∨
    (∀ r, List.filter m rules ≠ [r]) ∧ ∀ r, List.filter m rules' ≠ [r]) as Hperm.
  { intros rules' Hp. destruct (List.filter m rules) as [|r [|r2 l]] eqn:E.
    1,3: right; split; [done|]; intros r' Hr';
      symmetry in Hp; by rewrite (ClassifierFacts.filter_perm_singleton _ _ _ _ Hp Hr') in E.
    left. by eapply ClassifierFacts.filter_perm_singleton. }
  unfold FailureClassifier.classify. cbn [FailureClassifier.rules]. fold m.
  destruct (List.filter m rules) as [|r [|r2 l]] eqn:E.
  1,3: eexists; split; [by apply ClassifierFacts.classification_valid|];
    split_and!; [|cbn; split; [done|by intros (r' & ? & _)]|by apply Hdispatch];
    intros rules' Hp; fold m; destruct (Hperm rules' Hp) as [->|[_ Hn]];
    [by apply ClassifierFacts.classification_valid|];
    destruct (List.filter m rules') as [|r' [|? ?]];
    [by apply ClassifierFacts.classification_valid|by destruct (Hn r')|
     by apply ClassifierFacts.classification_valid].
  assert (r ∈ rules) as Hin.
  { apply list_elem_of_In. apply (filter_In m). rewrite E. by left. }
  assert (FailureRule.cause r ≠ FailureCause.UNKNOWN ∧ FailureRule.scope r ≠ FailureScope.UNKNOWN)
    as [Hc Hs].
  { eapply Forall_forall in Hin; [|exact Hv]. unfold FailureRule.validate in Hin.
    inv_ok Hin. by bprop in G. }
  eexists; split; [by apply ClassifierFacts.classification_valid|].
  split_and!; [|cbn; split; [by eauto|done]|by apply Hdispatch].
  intros rules' Hp. fold m. destruct (Hperm rules' Hp) as [->|[Hn _]]; [|by destruct (Hn r)].
  by apply ClassifierFacts.classification_valid.
Qed.
End RoutingTheorems.

(** ** Witnesses *)
Module RoutingSamples.
Definition digest (_ : PolicyBundleV1) : string := Samples.bundle_hash.
Definition gate (_ : AuthorizedLeg) (_ : string) : result bool := Ok true.
Definition profile : RequestProfile :=
  RequestProfile.mk Samples.group "chat" CHAT Modality.TEXT true 100 100 0 0 false false 0 60000.
Definition client : AuthenticatedClient :=
  AuthenticatedClient.mk Samples.key 1 Samples.policy KeyLifecycleState.ENABLED 100000 1
    Samples.bundle_hash.
Definition evidence : string := String.append "sha256:" (Samples.hex64 "0e").
Definition open_circuit (cause : CircuitCause) : CircuitValue :=
  CircuitValue.mk CircuitState.OPEN (Some cause) 1 1000 16000 0 (Some evidence) None.
Definition capacity (active : Z) (circuit : CircuitValue) : AccountCapacity :=
  AccountCapacity.mk (Samples.account "1") AccountState.ACTIVE 4 active 0 0 0 0 circuit 0 false 0.
Definition view (active : Z) (circuit : CircuitValue) : OperationalRuntimeView.t :=
  OperationalRuntimeView.mk 1 JournalStatus.HEALTHY 1000 [capacity active circuit] [] [] [].
Definition context : RoutingContext := RoutingContext.mk 2000 60000 1 None.
Definition engine : RouteEngine :=
  match RouteEngine.activate digest Samples.bundle with
  | Ok e => e
  | Err _ => RouteEngine.mk Samples.bundle "" [] [] [] [] []
  end.
Definition ceiling : RequestAuthorizationCeiling :=
  match RouteEngine.authorize engine client profile with
  | Ok c => c
  | Err _ => Samples.ceiling [] 8
  end.
(** A ceiling with one serving and one shadow leg. *)
Definition shadow_leg : AuthorizedLeg :=
  AuthorizedLeg.mk (Samples.leg "2") (Samples.account "1") Samples.generation 2
    [RouteTrigger.SHADOW]
    (LegCapabilities.mk [CHAT] [Modality.TEXT] 8192 true false false true false true true).
Definition shadow_ceiling : RequestAuthorizationCeiling :=
  Samples.ceiling [Samples.authorized "1" "1" 1 true; shadow_leg] 8.
Definition half_open (probe : string) : CircuitValue :=
  CircuitValue.mk CircuitState.HALF_OPEN (Some CircuitCause.CAPACITY) 1 1000 0 0 (Some evidence)
    (Some probe).
Definition candidate (cause : DispatchCause) (circuit : CircuitValue) : Candidate :=
  Candidate.mk (Samples.authorized "1" "1" 1 true) cause (CircuitValue.closed 0) circuit.
Definition rule (cause : FailureCause) (codes : list Z) : FailureRule :=
  FailureRule.mk cause FailureScope.ACCOUNT codes [] [].
Definition sha (_ : FailureObservation) : string := Samples.hex64 "0f".
End RoutingSamples.

Lemma selection_authorized_witness :
  let c := RoutingSamples.candidate DispatchCause.PRIMARY (CircuitValue.closed 0) in
  RouteEngine.select RoutingSamples.gate RoutingSamples.engine RoutingSamples.ceiling
    RoutingSamples.profile DispatchCause.PRIMARY
    (RoutingSamples.view 3 (CircuitValue.closed 0)) RoutingSamples.context [] = Some c ∧
  ∃ policy : KeyPolicyRevision, KeyPolicyRevision.policy_id policy = Samples.policy.
Proof.
  cbv zeta.
  assert (RouteEngine.select RoutingSamples.gate RoutingSamples.engine RoutingSamples.ceiling
    RoutingSamples.profile DispatchCause.PRIMARY
    (RoutingSamples.view 3 (CircuitValue.closed 0)) RoutingSamples.context [] =
    Some (RoutingSamples.candidate DispatchCause.PRIMARY (CircuitValue.closed 0))) as H
    by (by vm_compute).
  split; [exact H|].
  destruct (RoutingTheorems.selection_authorized RoutingSamples.digest RoutingSamples.gate
    Samples.bundle RoutingSamples.engine RoutingSamples.client RoutingSamples.profile
    RoutingSamples.ceiling DispatchCause.PRIMARY
    (RoutingSamples.view 3 (CircuitValue.closed 0)) RoutingSamples.context []
    (RoutingSamples.candidate DispatchCause.PRIMARY (CircuitValue.closed 0)))
    as (_ & policy & _ & _ & _ & _ & _ & _ & _ & _ & _ & Hp & _).
  - by vm_compute.
  - by vm_compute.
  - exact H.
  - exists policy. exact Hp.
Defined.

Lemma shadow_isolated_witness :
  ∃ s, RouteEngine.shadow_candidate RoutingSamples.gate RoutingSamples.engine
      RoutingSamples.shadow_ceiling RoutingSamples.profile
      (RoutingSamples.view 3 (CircuitValue.closed 0)) RoutingSamples.context = Some s ∧
    Candidate.leg_id s = Samples.leg "2" ∧
    CircuitValue.state (Candidate.account_circuit s) = CircuitState.CLOSED.
Proof.
  destruct (RouteEngine.shadow_candidate RoutingSamples.gate RoutingSamples.engine
      RoutingSamples.shadow_ceiling RoutingSamples.profile
      (RoutingSamples.view 3 (CircuitValue.closed 0)) RoutingSamples.context) as [s|] eqn:E;
    [|exfalso; revert E; by vm_compute].
  exists s. split; [done|]. split; [revert E; vm_compute; by intros [= <-]|].
  refine (proj1 (RoutingTheorems.shadow_isolated RoutingSamples.gate RoutingSamples.engine
    RoutingSamples.shadow_ceiling RoutingSamples.profile
    (RoutingSamples.view 3 (CircuitValue.closed 0)) RoutingSamples.context s _ E)).
  by vm_compute.
Defined.

(** The account's circuit is open for its quota: the primary is blocked by it. *)
Lemma primary_blocking_sound_witness :
  let view := RoutingSamples.view 3 (RoutingSamples.open_circuit CircuitCause.QUOTA) in
  RouteEngine.primary_blocking_cause RoutingSamples.gate RoutingSamples.engine
    RoutingSamples.ceiling RoutingSamples.profile view = Some DispatchCause.QUOTA ∧
  RouteEngine.select RoutingSamples.gate RoutingSamples.engine RoutingSamples.ceiling
    RoutingSamples.profile DispatchCause.PRIMARY view RoutingSamples.context [] = None.
Proof.
  cbv zeta.
  assert (RouteEngine.primary_blocking_cause RoutingSamples.gate RoutingSamples.engine
    RoutingSamples.ceiling RoutingSamples.profile
    (RoutingSamples.view 3 (RoutingSamples.open_circuit CircuitCause.QUOTA)) =
    Some DispatchCause.QUOTA) as H by (by vm_compute).
  split; [exact H|].
  destruct (RoutingTheorems.primary_blocking_sound _ _ _ _ _ _ H) as (_ & _ & Hs).
  apply Hs.
Defined.

(** A second send to the deployment is accepted through a fresh probe only. *)
Lemma send_budget_witness :
  let send c i := BudgetFacts.Send c (Samples.attempt i) in
  let sends := BudgetFacts.accepted
    [send (RoutingSamples.candidate DispatchCause.PRIMARY (CircuitValue.closed 0)) "1";
     send (RoutingSamples.candidate DispatchCause.CAPACITY (CircuitValue.closed 1)) "2";
     send (RoutingSamples.candidate DispatchCause.CAPACITY
             (RoutingSamples.half_open "probe_1")) "3"]
    (AttemptBudget.init (Samples.request "1")) in
  (DispatchedAttempt.attempt_id <$> sends) = [Samples.attempt "1"; Samples.attempt "3"] ∧
  (length sends ≤ 3)%nat.
Proof. cbv zeta. split; [by vm_compute|apply RoutingTheorems.send_budget]. Defined.

Lemma classification_unambiguous_witness :
  let o := FailureObservation.mk 429 None "rate limited" true in
  ∃ f, FailureClassifier.classify RoutingSamples.sha
    (FailureClassifier.mk [RoutingSamples.rule FailureCause.CAPACITY [429];
                           RoutingSamples.rule FailureCause.QUOTA [402]]) o = Ok f ∧
    FailureClassification.cause f = FailureCause.CAPACITY.
Proof.
  cbv zeta. destruct (RoutingTheorems.classification_unambiguous RoutingSamples.sha
    [RoutingSamples.rule FailureCause.CAPACITY [429]; RoutingSamples.rule FailureCause.QUOTA [402]]
    (FailureObservation.mk 429 None "rate limited" true)) as (f & Hf & _).
  - by repeat constructor.
  - by vm_compute.
  - exists f. split; [exact Hf|]. revert Hf. vm_compute. by intros [= <-].
Defined.

(** The design allows one half-open probe of a generation already sent to; the
    budget accepts a second one with another probe and epoch. *)
Example two_probes_of_one_generation :
  let probe epoch token := CircuitValue.mk CircuitState.HALF_OPEN (Some CircuitCause.CAPACITY)
    epoch 1000 0 0 (Some RoutingSamples.evidence) (Some token) in
  let send c i := BudgetFacts.Send c (Samples.attempt i) in
  (DispatchedAttempt.probe_ids <$> BudgetFacts.accepted
    [send (RoutingSamples.candidate DispatchCause.PRIMARY (CircuitValue.closed 0)) "1";
     send (RoutingSamples.candidate DispatchCause.CAPACITY (probe 1 "probe_1"%string)) "2";
     send (RoutingSamples.candidate DispatchCause.CAPACITY (probe 2 "probe_2"%string)) "3"]
    (AttemptBudget.init (Samples.request "1"))) =
  [[]; ["probe_1"%string]; ["probe_2"%string]].
Proof. by vm_compute. Qed.
