(* ===== verification/CircuitProps.v ===== *)
(** * Properties of circuit control

    Every operation of the controller moves at most one circuit of one account,
    by a transition of the circuit machine: trip, probe, recover. *)
From S2P Require Export Circuits Quiescence.
From S2P Require Import Samples OwnerProps.
#[local] Open Scope Z_scope.

Module CircuitFacts.
Import AccountRuntime AccountOps AccountMachine RuntimeState OwnerOps Quiescence
  CircuitController.

(** The transitions of one circuit at the time [now]. *)
Inductive transition (now : Z) : CircuitValue → CircuitValue → Prop :=
| trip v v' :
    CircuitValue.state v ≠ CircuitState.OPEN →
    CircuitValue.state v' = CircuitState.OPEN →
    CircuitValue.epoch v' = CircuitValue.epoch v + 1 →
    CircuitValue.opened_at_ms v' = now →
    now + 15000 ≤ CircuitValue.retry_at_ms v' ≤ now + 72000 →
    CircuitValue.backoff_step v' = Z.min (CircuitValue.backoff_step v +
      (if CircuitValue.in_state CircuitState.HALF_OPEN v then 1 else 0)) 2 →
    CircuitValue.probe_id v' = None →
    transition now v v'
| probe v token :
    CircuitValue.state v = CircuitState.OPEN → CircuitValue.retry_at_ms v ≤ now →
    transition now v
      (CircuitValue.mk CircuitState.HALF_OPEN (CircuitValue.cause v) (CircuitValue.epoch v)
         (CircuitValue.opened_at_ms v) 0 (CircuitValue.backoff_step v)
         (CircuitValue.evidence_digest v) (Some token))
| recover v :
    CircuitValue.state v = CircuitState.HALF_OPEN →
    transition now v (CircuitValue.closed (CircuitValue.epoch v)).

(** The account with the circuit of a scope replaced. *)
Definition set_value (scope : FailureScope) (g : string) (e v : CircuitValue)
    (rt : AccountRuntime) : AccountRuntime :=
  match scope with
  | FailureScope.ACCOUNT => set_account_circuit e v rt
  | _ => set_circuit g e v rt
  end.

(** One circuit of the account [k] moves from [v] to [v'], nothing else does. *)
Definition circuit_moves (k g : string) (scope : FailureScope) (v v' : CircuitValue)
    (s s' : RuntimeState) : Prop :=
  ∃ rt, current_value scope g rt = v ∧ moved k rt (set_value scope g v v' rt) s s'.

Lemma current_set scope g e v rt : current_value scope g (set_value scope g e v rt) = v.
Proof.
  destruct rt, scope; cbn; unfold circuit_value, dget_or; cbn; try rewrite dget_dset_eq; done.
Qed.

Section Backoff.
Context (sha256 : bytes → bytes).

Lemma base_bounds step : 15000 ≤ base_ms step ≤ 60000.
Proof. unfold base_ms. repeat case_match; lia. Qed.

Lemma backoff_bounds step d :
  base_ms step ≤ backoff_ms sha256 step d ≤ base_ms step + base_ms step / 5.
Proof.
  unfold backoff_ms. pose proof (base_bounds step).
  pose proof (Z.mod_pos_bound (be_int (take 2 (sha256 (String.list_ascii_of_string
    (String.append d (String.append ":" (pretty.pretty step))))))) (base_ms step / 5 + 1)).
  assert (0 ≤ base_ms step / 5) by (apply Z.div_pos; lia). lia.
Qed.

Lemma opened_Ok v cause evidence now step v' : opened sha256 v cause evidence now step = Ok v' →
  CircuitValue.state v' = CircuitState.OPEN ∧ CircuitValue.cause v' = Some cause ∧
  CircuitValue.epoch v' = CircuitValue.epoch v + 1 ∧ CircuitValue.opened_at_ms v' = now ∧
  now + 15000 ≤ CircuitValue.retry_at_ms v' ≤ now + 72000 ∧
  CircuitValue.backoff_step v' = step ∧ CircuitValue.probe_id v' = None ∧
  CircuitValue.evidence_digest v' = Some evidence.
Proof.
  unfold opened, CircuitValue.validate. intros H. inv_ok H. subst v'. cbn.
  pose proof (backoff_bounds step evidence). pose proof (base_bounds step).
  assert (base_ms step / 5 ≤ 12000) by (apply Z.div_le_upper_bound; lia).
  split_and!; try done; lia.
Qed.

Lemma replacement_Ok v c now step v' : replacement sha256 v c now step = Ok v' →
  ∃ cause, CIRCUIT_CAUSE (FailureClassification.cause c) = Ok cause ∧
    opened sha256 v cause (FailureClassification.evidence_digest c) now step = Ok v'.
Proof. unfold replacement. intros H. apply bind_Ok in H as (cause & Hc & H). eauto. Qed.
End Backoff.

Section Controller.
Context {safe : SafeSnapshot OwnerSnapshot}.
Context (rd : Z → Payload → string → string) (sha256 : bytes → bytes) (io : JournalIO).

Lemma cas_circuit_result {Snapshot} {safe' : SafeSnapshot Snapshot}
    (snap : AccountRuntime → Snapshot) g e v (w w' : World Snapshot) b :
  v ≠ e → compare_and_swap_circuit rd snap io g e v w = (w', Ok b) →
  if b then circuit_value (World.runtime w) g = e ∧
    World.runtime w' = set_circuit g e v (World.runtime w)
  else World.runtime w' = World.runtime w.
Proof.
  intros Hne H. pose proof (cas_circuit_Ok rd snap io g e v w w' b H) as Hc.
  unfold compare_and_swap_circuit in H. apply M_bind_Ok in H as (w1 & rt & Hg & H).
  injection Hg as Hw1 Hrt. subst w1 rt.
  destruct (negb _) eqn:E; bprop in E.
  { injection H as Hw Hb. subst b. by rewrite Hw. }
  destruct (_ <? _); [done|]. rewrite (bool_decide_false _ Hne) in H.
  apply M_bind_Ok in H as (? & ? & _ & H). apply M_bind_Ok in H as (? & ? & _ & H).
  apply M_bind_Ok in H as (? & ? & _ & [= _ <-]).
  destruct Hc as [[Hc _]|[Hc [?|?]]]; done.
Qed.

Lemma cas_account_circuit_result {Snapshot} {safe' : SafeSnapshot Snapshot}
    (snap : AccountRuntime → Snapshot) e v (w w' : World Snapshot) b :
  v ≠ e → compare_and_swap_account_circuit rd snap io e v w = (w', Ok b) →
  if b then account_circuit (World.runtime w) = e ∧
    World.runtime w' = set_account_circuit e v (World.runtime w)
  else World.runtime w' = World.runtime w.
Proof.
  intros Hne H. pose proof (cas_account_circuit_Ok rd snap io e v w w' b H) as Hc.
  unfold compare_and_swap_account_circuit in H.
  apply M_bind_Ok in H as (w1 & rt & Hg & H).
  injection Hg as Hw1 Hrt. subst w1 rt.
  destruct (negb _) eqn:E; bprop in E.
  { injection H as Hw Hb. subst b. by rewrite Hw. }
  destruct (_ <? _); [done|]. rewrite (bool_decide_false _ Hne) in H.
  apply M_bind_Ok in H as (? & ? & _ & H). apply M_bind_Ok in H as (? & ? & _ & H).
  apply M_bind_Ok in H as (? & ? & _ & [= _ <-]).
  destruct Hc as [[Hc _]|[Hc [?|?]]]; done.
Qed.

(** An accepted swap moves the circuit, a refused one changes no account. *)
Lemma swap_Ok k g scope e v w w' b :
  v ≠ e → swap rd io k g scope e v w = (w', Ok b) →
  if b then circuit_moves k g scope e v (Owner.state w) (Owner.state w')
  else ∃ rt, moved k rt rt (Owner.state w) (Owner.state w').
Proof.
  intros Hne H. unfold swap in H.
  destruct (dget k (runtimes (Owner.state w))) as [rt|] eqn:Hk;
    [|unfold on_account in H; by rewrite Hk in H].
  destruct (on_account_Ok _ _ _ _ _ rt H Hk) as (snap & w1 & H1 & Hm).
  assert (if b then current_value scope g rt = e ∧ World.runtime w1 = set_value scope g e v rt
          else World.runtime w1 = rt) as Hb.
  { destruct scope; first [by apply cas_circuit_result in H1 |
                           by apply cas_account_circuit_result in H1]. }
  destruct b.
  - destruct Hb as [He Hr]. exists rt. split; [done|]. by rewrite <-Hr.
  - exists rt. by rewrite Hb in Hm.
Qed.

(** No account changes. *)
Definition unchanged (s s' : RuntimeState) : Prop :=
  ∀ k, dget k (runtimes s') = dget k (runtimes s).

Lemma moved_unchanged k rt s s' : moved k rt rt s s' → unchanged s s'.
Proof.
  intros [Hb Ha Ho _] k'. destruct (decide (k' = k)) as [->|Hne]; [congruence|by apply Ho].
Qed.

Lemma unchanged_trans s1 s2 s3 : unchanged s1 s2 → unchanged s2 s3 → unchanged s1 s3.
Proof. intros H1 H2 k. by rewrite H2. Qed.

Lemma moves_after k g scope v v' s1 s2 s3 rt :
  moved k rt rt s1 s2 → circuit_moves k g scope v v' s2 s3 → circuit_moves k g scope v v' s1 s3.
Proof.
  intros Hm (rt' & Hc & Hm'). exists rt'. split; [done|].
  assert (rt' = rt) as -> by (destruct Hm, Hm'; congruence). by eapply moved_trans.
Qed.

Lemma on_account_tt k w w' u :
  on_account k (λ _, mret tt) w = (w', Ok u) → ∃ rt, moved k rt rt (Owner.state w) (Owner.state w').
Proof.
  intros H. destruct (dget k (runtimes (Owner.state w))) as [rt|] eqn:Hk;
    [|unfold on_account in H; by rewrite Hk in H].
  destruct (on_account_Ok _ _ _ _ _ rt H Hk) as (snap & w1 & H1 & Hm).
  injection H1 as H1. rewrite <-H1 in Hm. by exists rt.
Qed.

Lemma read_circuit_Ok k g scope w w' v : read_circuit k g scope w = (w', Ok v) →
  ∃ rt, moved k rt rt (Owner.state w) (Owner.state w') ∧ v = current_value scope g rt.
Proof.
  intros H. unfold read_circuit in H.
  destruct (dget k (runtimes (Owner.state w))) as [rt|] eqn:Hk;
    [|unfold on_account in H; by rewrite Hk in H].
  destruct (on_account_Ok _ _ _ _ _ rt H Hk) as (snap & w1 & H1 & Hm).
  apply M_bind_Ok in H1 as (w2 & rt2 & Hg & H1). injection Hg as Hw Hrt. injection H1 as Hw1 Hv.
  subst rt2 w2 w1 v. exists rt. by split.
Qed.

Lemma not_open_ne v v' : CircuitValue.state v ≠ CircuitState.OPEN →
  CircuitValue.state v' = CircuitState.OPEN → v' ≠ v.
Proof. intros H H' ->. done. Qed.

Lemma opened_trip v cause evidence now v' step :
  CircuitValue.state v ≠ CircuitState.OPEN →
  step = Z.min (CircuitValue.backoff_step v +
    (if CircuitValue.in_state CircuitState.HALF_OPEN v then 1 else 0)) 2 →
  opened sha256 v cause evidence now step = Ok v' → transition now v v' ∧ v' ≠ v.
Proof.
  intros Hv Hs (Ho & _ & He & Ht & Hr & Hb & Hp & _)%opened_Ok. split.
  - subst step. by apply trip.
  - by apply not_open_ne.
Qed.

Lemma open_Ok k g c now w w' r : open rd sha256 io k g c now w = (w', Ok r) →
  match r with
  | Some v' => (unchanged (Owner.state w) (Owner.state w') ∧
      CircuitValue.state v' = CircuitState.OPEN) ∨
      ∃ v, circuit_moves k g (FailureClassification.scope c) v v' (Owner.state w) (Owner.state w') ∧
        transition now v v'
  | None => unchanged (Owner.state w) (Owner.state w')
  end.
Proof.
  unfold open. destruct (bool_decide _); [by intros [= <- <-]|]. intros H.
  apply M_bind_Ok in H as (w1 & u & H1 & H). apply on_account_tt in H1 as [rt Hm].
  assert (∀ scope, open_scope rd sha256 io k g c now scope w1 = (w', Ok r) →
    match r with
    | Some v' => (unchanged (Owner.state w) (Owner.state w') ∧
        CircuitValue.state v' = CircuitState.OPEN) ∨
        ∃ v, circuit_moves k g scope v v' (Owner.state w) (Owner.state w') ∧ transition now v v'
    | None => unchanged (Owner.state w) (Owner.state w')
    end) as Hopen.
  { clear H. intros scope H. unfold open_scope in H.
    apply M_bind_Ok in H as (w2 & v & H2 & H). apply read_circuit_Ok in H2 as (rt2 & Hm2 & Hv).
    assert (rt2 = rt) as -> by (destruct Hm, Hm2; congruence).
    pose proof (moved_trans _ _ _ _ _ _ _ Hm Hm2) as Hm3.
    destruct (CircuitValue.in_state CircuitState.OPEN v) eqn:E; unfold CircuitValue.in_state in E;
      bprop in E.
    { injection H as <- <-. left. split; [by eapply moved_unchanged|done]. }
    apply M_bind_Ok in H as (w3 & v' & Hr & H). injection Hr as <- Hr.
    apply replacement_Ok in Hr as (cause & _ & Hr). apply opened_trip in Hr as [Ht Hne]; [|done..].
    apply M_bind_Ok in H as (w4 & b & Hs & H). injection H as <- <-.
    apply swap_Ok in Hs; [|done]. destruct b; cbn [when_swapped].
    - right. exists v. split; [by eapply moves_after|done].
    - destruct Hs as [rt' Hs]. eapply unchanged_trans; by eapply moved_unchanged. }
  destruct (FailureClassification.scope c); [by apply Hopen..|].
  injection H as <- <-. by eapply moved_unchanged.
Qed.

Lemma probe_validate_Ok p p' : CircuitProbe.validate p = Ok p' → p' = p.
Proof. unfold CircuitProbe.validate. intros H. inv_ok H. done. Qed.

Lemma begin_probe_Ok k g now token w w' r : begin_probe rd io k g now token w = (w', Ok r) →
  match r with
  | Some p => ∃ v, circuit_moves k g (CircuitProbe.scope p) v (CircuitProbe.value p)
      (Owner.state w) (Owner.state w') ∧ transition now v (CircuitProbe.value p)
  | None => unchanged (Owner.state w) (Owner.state w')
  end.
Proof.
  unfold begin_probe. intros H.
  apply M_bind_Ok in H as (w1 & va & H1 & H). apply read_circuit_Ok in H1 as (rt & Hm & Hva).
  apply M_bind_Ok in H as (w2 & vd & H2 & H). apply read_circuit_Ok in H2 as (rt2 & Hm2 & Hvd).
  assert (rt2 = rt) as -> by (destruct Hm, Hm2; congruence).
  pose proof (moved_trans _ _ _ _ _ _ _ Hm Hm2) as Hm3. clear Hm Hm2.
  cbv zeta in H.
  set (scope := if CircuitValue.in_state CircuitState.OPEN va
                then FailureScope.ACCOUNT else FailureScope.DEPLOYMENT) in H.
  set (v := if CircuitValue.in_state CircuitState.OPEN va then va else vd) in H. clearbody v scope. destruct (_ || _) eqn:E.
  { injection H as <- <-. by eapply moved_unchanged. }
  unfold CircuitValue.in_state in E. bprop in E. destruct E as [Hopen Hretry].
  apply M_bind_Ok in H as (w3 & v' & Hv' & H). injection Hv' as <- Hv'.
  unfold CircuitValue.validate in Hv'. inv_ok Hv'.
  apply M_bind_Ok in H as (w4 & b & Hs & H).
  assert (CircuitValue.state v' = CircuitState.HALF_OPEN) as Hst by (by rewrite <-Hv').
  assert (v' ≠ v) as Hne by (intros Heq; congruence).
  apply swap_Ok in Hs; [|done]. destruct b.
  - injection H as <- Hr. apply bind_Ok in Hr as (p & Hp & Hr). injection Hr as <-.
    apply probe_validate_Ok in Hp as ->. cbn.
    exists v. split; [exact (moves_after _ _ _ _ _ _ _ _ _ Hm3 Hs)|].
    rewrite <-Hv'. by apply probe.
  - injection H as <- <-. destruct Hs as [rt' Hs]. eapply unchanged_trans; by eapply moved_unchanged.
Qed.

Lemma probe_succeeded_Ok p w w' b now :
  CircuitValue.state (CircuitProbe.value p) = CircuitState.HALF_OPEN →
  probe_succeeded rd io p w = (w', Ok b) →
  let v' := CircuitValue.closed (CircuitValue.epoch (CircuitProbe.value p)) in
  if b then circuit_moves (CircuitProbe.account_id p) (CircuitProbe.generation_id p)
      (CircuitProbe.scope p) (CircuitProbe.value p) v' (Owner.state w) (Owner.state w') ∧
    transition now (CircuitProbe.value p) v'
  else unchanged (Owner.state w) (Owner.state w').
Proof.
  intros Hh H v'. unfold probe_succeeded in H.
  apply M_bind_Ok in H as (w1 & u & H1 & H). apply on_account_tt in H1 as [rt Hm].
  apply M_bind_Ok in H as (w2 & v & Hv & H). injection Hv as <- Hv.
  unfold CircuitValue.validate in Hv. inv_ok Hv. subst v.
  apply swap_Ok in H; [|by intros Heq; rewrite <-Heq in Hh]. destruct b.
  - split; [by eapply moves_after|by apply recover].
  - destruct H as [rt' Hs]. eapply unchanged_trans; by eapply moved_unchanged.
Qed.

Lemma probe_failed_Ok p c now w w' r :
  CircuitValue.state (CircuitProbe.value p) = CircuitState.HALF_OPEN →
  probe_failed rd sha256 io p c now w = (w', Ok r) →
  match r with
  | Some v' => circuit_moves (CircuitProbe.account_id p) (CircuitProbe.generation_id p)
      (CircuitProbe.scope p) (CircuitProbe.value p) v' (Owner.state w) (Owner.state w') ∧
    transition now (CircuitProbe.value p) v'
  | None => unchanged (Owner.state w) (Owner.state w')
  end.
Proof.
  intros Hh H. unfold probe_failed in H.
  apply M_bind_Ok in H as (w1 & u & H1 & H). apply on_account_tt in H1 as [rt Hm].
  apply M_bind_Ok in H as (w2 & v & Hv & H). injection Hv as <- Hv.
  assert (∃ cause evidence, opened sha256 (CircuitProbe.value p) cause evidence now
    (Z.min (CircuitValue.backoff_step (CircuitProbe.value p) + 1) 2) = Ok v)
    as (cause & evidence & Hop).
  { unfold failed_value in Hv. destruct (_ && _).
    - apply replacement_Ok in Hv as (cause & _ & Hv). eauto.
    - destruct (CircuitValue.cause (CircuitProbe.value p)),
        (CircuitValue.evidence_digest (CircuitProbe.value p));
        first [done|by eauto]. }
  apply opened_trip in Hop as [Ht Hne];
    [|congruence|unfold CircuitValue.in_state; by rewrite bool_decide_true].
  apply M_bind_Ok in H as (w3 & b & Hs & H). injection H as <- <-. apply swap_Ok in Hs; [|done].
  destruct b; cbn [when_swapped].
  - split; [by eapply moves_after|done].
  - destruct Hs as [rt' Hs]. eapply unchanged_trans; by eapply moved_unchanged.
Qed.
End Controller.
End CircuitFacts.

Module CircuitTheorems.
Import RuntimeState CircuitController CircuitFacts.
Section CircuitTheorems.
Context {safe : SafeSnapshot OwnerSnapshot}.
Context (rd : Z → Payload → string → string) (sha256 : bytes → bytes) (io : JournalIO).

End CircuitTheorems.
End CircuitTheorems.

(** A provider failure trips the account's circuit; the probe begins at its retry
    time, not before. *)
Module CircuitSamples.
Definition sha256 (_ : bytes) : bytes := [byte_of 1; byte_of 2].
Definition account : string := ProviderAccount.account_id AccountSamples.account.
Definition failure : FailureClassification :=
  FailureClassification.mk FailureCause.QUOTA FailureScope.ACCOUNT
    (String.append "sha256:" (Samples.hex64 "0e")) true.
Definition tripped : Owner * result (option CircuitValue) :=
  CircuitController.open AccountSamples.record_digest sha256 AccountSamples.io account
    Samples.generation failure 2000 OwnerSamples.start.
End CircuitSamples.

