(* ===== verification/Admission.v ===== *)
(** * The admission controller

    [gateway/scheduler.py], class [AdmissionController] and its value types:
    admission of a request to the queue, the pump that previews the waiters,
    proposes one and dispatches it under the activation gate, the shadow path and
    the dispatch lease.

    The pump lock makes the calls atomic, so a call is a state-passing
    computation.  What happens outside is a parameter: [clock n] is the [n]-th
    reading of the clock, [mint n] the [n]-th identifier minted, and
    [publication n] what the [n]-th entry of the activation gate lets happen to
    the route engine and the authorization view before it is granted.  The
    attempt budgets are objects the callers share with their waiters; they are
    kept in a store by request.  A caller is cancelled while it awaits its future
    ([withdraw]); a cancellation that lands inside the pump is not modelled. *)
From S2P Require Export Queue Circuits.
#[local] Open Scope Z_scope.

Module AdmissionRequest.
Record t := mk {
  request_id : string;
  client : AuthenticatedClient;
  profile : RequestProfile;
  authorization_ceiling : RequestAuthorizationCeiling;
  runtime_identity : RuntimeIdentity;
  deadline_at_ms : Z;
  cause : DispatchCause;
  attempt_budget : string;
  emergency : option EmergencyActivation;
}.

(** [__post_init__]; the budget is named by its [request_id]. *)
Definition validate (r : t) : result t :=
  raise_if (negb (bool_decide (request_id r = attempt_budget r)))
    (ValueError "attempt budget belongs to a different request");;
  raise_if (negb (bool_decide (RequestProfile.route_group_id (profile r) =
              RequestAuthorizationCeiling.route_group_id (authorization_ceiling r))))
    (ValueError "profile and authorization ceiling route groups differ");;
  raise_if (negb (bool_decide (AuthenticatedClient.key_id (client r) =
              RequestAuthorizationCeiling.key_id (authorization_ceiling r))))
    (ValueError "client and authorization ceiling keys differ");;
  raise_if (deadline_at_ms r <? 1)
    (ValueError "absolute request deadline must be positive");;
  mret r.
End AdmissionRequest.
Abbreviation AdmissionRequest := AdmissionRequest.t.

Module WaiterState.
Inductive t := QUEUED | DISPATCHED | CANCELLED.
#[global] Instance eq_dec : EqDecision t.
Proof. solve_decision. Defined.
End WaiterState.
Abbreviation WaiterState := WaiterState.t.

(** [_Waiter]; its future is in the controller's store. *)
Module Waiter.
Record t := mk {
  request : AdmissionRequest;
  effective_ceiling : RequestAuthorizationCeiling;
  admitted_at_ms : Z;
  effective_deadline_at_ms : Z;
  fallback_once : option DispatchCause;
  state : WaiterState;
}.
Definition key_id (w : t) : string := AuthenticatedClient.key_id (AdmissionRequest.client (request w)).
Definition request_id (w : t) : string := AdmissionRequest.request_id (request w).
End Waiter.
Abbreviation Waiter := Waiter.t.

(** [DispatchLease]: [active_key] is the key whose permit [_release_active]
    gives back, [None] on the shadow path. *)
Module DispatchLease.
Record t := mk {
  account_id : string;
  candidate : Candidate;
  attempt_id : string;
  attempt_budget : string;
  active_key : option string;
  released : bool;
}.
End DispatchLease.
Abbreviation DispatchLease := DispatchLease.t.

(** [asyncio.Future[DispatchLease]] *)
Inductive Future :=
| Pending
| Done (lease : DispatchLease)
| Failed (e : exn)
| Cancelled.

Definition future_done (f : Future) : bool :=
  match f with Pending => false | _ => true end.

(** What the activation gate serializes publications of. *)
Module Environment.
Record t := mk { route_engine : RouteEngine; auth_view : result AuthRuntimeView }.
End Environment.
Abbreviation Environment := Environment.t.

Module AdmissionController.
Record t := mk {
  environment : Environment;
  runtime : Owner;
  max_waiters_global : Z;
  queue : WDRRQueue;
  waiters : dict string Waiter;
  active_by_key : dict string Z;
  futures : dict string Future;
  budgets : dict string AttemptBudget;
  clock_reads : nat;
  minted : nat;
  gates : nat;
}.

(** [__init__] *)
Definition init (env : Environment) (runtime : Owner) (max_waiters_global : Z) : result t :=
  raise_if (max_waiters_global <? 1) (ValueError "global waiter bound must be positive");;
  queue ← WDRRQueue.init 64;
  mret (mk env runtime max_waiters_global queue [] [] [] [] 0 0 0).
End AdmissionController.
Abbreviation AdmissionController := AdmissionController.t.

Module Admission.
Import AdmissionController.

(** [except AdmissionUnavailable] *)
Definition unavailable (e : exn) : bool :=
  match e with AdmissionUnavailable _ => true | _ => false end.

Definition lookup {V} (k : string) (d : dict string V) : result V :=
  match dget k d with Some v => Ok v | None => Err (KeyError k) end.

(** [dict.fromkeys(xs)] *)
Definition fromkeys (l : list string) : list string :=
  foldl (λ d x, if bool_decide (x ∈ d) then d else d ++ [x]) [] l.

Section Controller.
Context {safe : SafeSnapshot OwnerSnapshot}.
Context (record_digest : Z → Payload → string → string).
Context (profile_digest : RequestProfile → string).
Context (resolution_digest : AttemptResolution → string).
Context (sha256 : bytes → bytes).
Context (gate : AuthorizedLeg → string → result bool).
Context (io : JournalIO).
Context (clock : nat → Z) (mint : nat → string).
Context (publication : nat → Environment → Environment).

(** ** The environment *)
Definition now_ms : M t Z :=
  s ← get;
  modify (λ s, s{{ clock_reads ::= S }});;
  mret (clock (clock_reads s)).
Definition mint_id : M t string :=
  s ← get;
  modify (λ s, s{{ minted ::= S }});;
  mret (mint (minted s)).
(** [hold_dispatch.__aenter__] *)
Definition enter_gate : M t unit :=
  modify (λ s, s{{ environment ::= publication (gates s); gates ::= S }}).

Definition on_runtime {A} (m : M Owner A) : M t A := λ s,
  let '(w, r) := m (runtime s) in (s{{ runtime := w }}, r).

Definition operational_view : M t OperationalRuntimeView.t :=
  now ← now_ms; on_runtime (OwnerOps.operational_view io now).

(** ** Shared objects *)
Definition waiter_of (request_id : string) : M t Waiter :=
  s ← get; lift (lookup request_id (waiters s)).
Definition update_waiter (request_id : string) (f : Waiter → Waiter) : M t unit :=
  w ← waiter_of request_id;
  modify (λ s, s{{ waiters ::= dset request_id (f w) }}).

Definition budget_of (request_id : string) (s : t) : AttemptBudget :=
  default (AttemptBudget.init request_id) (dget request_id (budgets s)).
Definition on_budget {A} (request_id : string) (m : M AttemptBudget A) : M t A := λ s,
  let '(b, r) := m (budget_of request_id s) in (s{{ budgets ::= dset request_id b }}, r).
Definition sync_budget (request_id : string) (view : OperationalRuntimeView.t) : M t unit :=
  on_budget request_id (modify (λ b, AttemptBudget.sync_runtime b view)).

Definition set_future (request_id : string) (f : Future) : M t unit :=
  s ← get;
  match dget request_id (futures s) with
  | Some old => if future_done old then mret tt
                else modify (λ s, s{{ futures ::= dset request_id f }})
  | None => modify (λ s, s{{ futures ::= dset request_id f }})
  end.

(** ** Active permits *)
Definition active_count (key_id : string) (s : t) : Z := dget_or key_id 0 (active_by_key s).

Definition acquire_active (key_id : string) (maximum : Z) : M t bool :=
  s ← get;
  if maximum <=? active_count key_id s then mret false
  else
    modify (λ s, s{{ active_by_key ::= dset key_id (active_count key_id s + 1) }});;
    mret true.

(** [_release_active]; waking the pump is a later call. *)
Definition release_active (key_id : string) : M t unit :=
  modify (λ s,
    let current := active_count key_id s in
    s{{ active_by_key ::= if current <=? 1 then ddel key_id else dset key_id (current - 1) }}).

(** ** Authorization of a waiter *)
Definition routing_context (w : Waiter) : M t RoutingContext :=
  now ← now_ms;
  lift (RoutingContext.validate
    (RoutingContext.mk now (Waiter.effective_deadline_at_ms w)
       (RuntimeIdentity.dispatcher_fence (AdmissionRequest.runtime_identity (Waiter.request w)))
       (AdmissionRequest.emergency (Waiter.request w)))).

Definition abandon_candidate (c : Candidate) : M t unit :=
  now ← now_ms;
  on_runtime (CircuitController.abandon_candidate record_digest sha256 io c now);;
  mret tt.

(** [_current_authorization] *)
Definition current_authorization (request_id : string) : M t RequestAuthorizationCeiling :=
  w ← waiter_of request_id;
  s ← get;
  let client := AdmissionRequest.client (Waiter.request w) in
  match Environment.auth_view (environment s) with
  | Err _ => raise (AdmissionUnavailable "queued authorization state unavailable")
  | Ok view =>
      if negb (queued_identity_is_authorized client view)
      then raise (AdmissionUnavailable "queued client authorization is no longer valid")
      else
        match RouteEngine.authorize (Environment.route_engine (environment s)) client
                (AdmissionRequest.profile (Waiter.request w)) with
        | Err (ValueError _) =>
            update_waiter request_id (λ w, w{{ Waiter.effective_ceiling ::=
              λ c, c{{ RequestAuthorizationCeiling.authorized_legs := [] }} }});;
            raise (AdmissionUnavailable "queued route authorization contracted to empty")
        | Err e => raise e
        | Ok current =>
            contracted ← lift (RequestAuthorizationCeiling.intersection
              (Waiter.effective_ceiling w) current);
            update_waiter request_id (λ w, w{{
              Waiter.effective_ceiling := contracted;
              Waiter.effective_deadline_at_ms ::= λ d, Z.min d (Waiter.admitted_at_ms w +
                RequestAuthorizationCeiling.deadline_ms contracted) }});;
            if bool_decide (RequestAuthorizationCeiling.authorized_legs contracted = [])
            then raise (AdmissionUnavailable "queued route authorization contracted to empty")
            else
              position ← lift (WDRRQueue.key_position (queue s) request_id);
              if RequestAuthorizationCeiling.max_waiters contracted <=? position
              then raise (AdmissionUnavailable "queued key waiter ceiling contracted")
              else mret contracted
        end
  end.

(** [_fail_waiter_locked] *)
Definition fail_waiter (request_id : string) (e : exn) : M t unit :=
  modify (λ s, s{{ waiters ::= ddel request_id;
                   queue ::= λ q, (WDRRQueue.cancel q request_id).1 }});;
  set_future request_id (Failed e).

(** ** Previews *)

(** The guards of [_preview] before the candidates; [None] is [return ()]. *)
Definition preview_authorization (request_id : string) :
    M t (option RequestAuthorizationCeiling) :=
  catch unavailable
    (authorization ← current_authorization request_id; mret (Some authorization))
    (λ e, fail_waiter request_id e;; mret None).

Definition contract_queued (request_id : string) (c : RequestAuthorizationCeiling) : M t unit :=
  s ← get;
  queued ← lift (WDRRQueue.entry (queue s) request_id);
  if negb (QueueEntry.tier queued =? RequestAuthorizationCeiling.queue_tier c) ||
     negb (QueueEntry.weight queued =? RequestAuthorizationCeiling.queue_weight c) ||
     negb (bool_decide (QueueEntry.authorized_legs queued =
                        RequestAuthorizationCeiling.authorized_legs c))
  then
    '(q, _) ← lift (WDRRQueue.contract (queue s) request_id
      (Some (RequestAuthorizationCeiling.queue_tier c))
      (Some (RequestAuthorizationCeiling.queue_weight c))
      (Some (RequestAuthorizationCeiling.authorized_legs c)));
    modify (λ s, s{{ queue := q }})
  else mret tt.

(** [waiter.fallback_once or waiter.request.cause] *)
Definition wanted_cause (w : Waiter) : DispatchCause :=
  default (AdmissionRequest.cause (Waiter.request w)) (Waiter.fallback_once w).

(** The candidates a waiter could be dispatched to. *)
Definition preview_candidates (request_id : string) (c : RequestAuthorizationCeiling) :
    M t (list Candidate) :=
  view ← operational_view;
  sync_budget request_id view;;
  w ← waiter_of request_id;
  let profile := AdmissionRequest.profile (Waiter.request w) in
  context ← routing_context w;
  s ← get;
  let engine := Environment.route_engine (environment s) in
  let candidates := RouteEngine.filter gate engine c profile (wanted_cause w) view context [] in
  candidates ←
    (if bool_decide (candidates = []) && bool_decide (wanted_cause w = DispatchCause.PRIMARY)
     then
       match RouteEngine.primary_blocking_cause gate engine c profile view with
       | None => mret []
       | Some fallback =>
           context ← routing_context w;
           mret (RouteEngine.filter gate engine c profile fallback view context [])
       end
     else mret candidates);
  s ← get;
  mret (List.filter (AttemptBudget.can_send (budget_of request_id s)) candidates).

(** [_preview] *)
Definition preview (request_id : string) : M t (list Candidate) :=
  authorization ← preview_authorization request_id;
  match authorization with
  | None => mret []
  | Some c =>
      contract_queued request_id c;;
      now ← now_ms;
      w ← waiter_of request_id;
      if Waiter.effective_deadline_at_ms w <=? now
      then
        fail_waiter request_id (AdmissionUnavailable "queued request deadline elapsed");;
        mret []
      else
        s ← get;
        if RequestAuthorizationCeiling.max_concurrency c <=? active_count (Waiter.key_id w) s
        then mret []
        else preview_candidates request_id c
  end.

(** [_previews], over the entries queued when it starts. *)
Fixpoint previews_of (entries : list QueueEntry) (found : dict string (list Candidate)) :
    M t (dict string (list Candidate)) :=
  match entries with
  | [] => mret found
  | e :: entries =>
      let request_id := QueueEntry.request_id e in
      s ← get;
      if negb (dmem request_id (waiters s)) then previews_of entries found
      else
        candidates ← preview request_id;
        previews_of entries
          (if bool_decide (candidates = []) then found else dset request_id candidates found)
  end.
Definition previews : M t (dict string (list Candidate)) :=
  s ← get; previews_of (WDRRQueue.entries (queue s)) [].

(** ** Leases *)
Definition lease_finish (lease : DispatchLease) (r : AttemptResolution) : M t JournalReceipt :=
  now ← now_ms;
  on_runtime (OwnerOps.on_account (DispatchLease.account_id lease)
    (λ snap, AccountOps.finish record_digest resolution_digest snap io now
       (DispatchLease.attempt_id lease) r)).

(** [_release]: once per lease. *)
Definition release (lease : DispatchLease) : M t DispatchLease :=
  if DispatchLease.released lease then mret lease
  else
    match DispatchLease.active_key lease with
    | Some key_id => release_active key_id
    | None => mret tt
    end;;
    mret (lease{{ DispatchLease.released := true }}).

(** [finish], [finish_async] *)
Definition finish (lease : DispatchLease) (r : AttemptResolution) :
    M t (JournalReceipt * DispatchLease) :=
  receipt ← lease_finish lease r;
  lease ← release lease;
  mret (receipt, lease).

(** Nothing was sent: the resolution gives the whole charge back. *)
Definition unsent (outcome : TerminalOutcome) : AttemptResolution :=
  AttemptResolution.mk outcome true (Some 0) (Some 0) (Some 0).
Definition cancel_before_send (lease : DispatchLease) : M t (JournalReceipt * DispatchLease) :=
  abandon_candidate (DispatchLease.candidate lease);;
  finish lease (unsent CLIENT_CANCELLED).
Definition fail_before_send (lease : DispatchLease) : M t (JournalReceipt * DispatchLease) :=
  abandon_candidate (DispatchLease.candidate lease);;
  finish lease (unsent UPSTREAM_FAILED).

(** ** Reservation and dispatch *)
Definition reservation_of (request_id attempt_id : string) (deadline_at_ms quota_units : Z)
    (r : AdmissionRequest) (c : Candidate) : ReservationRequest :=
  let profile := AdmissionRequest.profile r in
  {| ReservationRequest.request_id := request_id;
     ReservationRequest.attempt_id := attempt_id;
     ReservationRequest.account_id := Candidate.account_id c;
     ReservationRequest.leg_id := Candidate.leg_id c;
     ReservationRequest.deployment_generation_id := Candidate.generation_id c;
     ReservationRequest.runtime_identity := AdmissionRequest.runtime_identity r;
     ReservationRequest.deadline_at_ms := deadline_at_ms;
     ReservationRequest.profile := profile;
     ReservationRequest.input_tokens_upper_bound := RequestProfile.input_tokens_max profile;
     ReservationRequest.account_circuit := Candidate.account_circuit c;
     ReservationRequest.max_output_tokens := RequestProfile.output_tokens_max profile;
     ReservationRequest.max_reasoning_tokens := RequestProfile.reasoning_tokens_max profile;
     ReservationRequest.quota_units := quota_units;
     ReservationRequest.circuit := Candidate.deployment_circuit c |}.

Definition reserve (r : ReservationRequest) : M t Reservation :=
  now ← now_ms;
  on_runtime (OwnerOps.try_reserve record_digest profile_digest io now r).

Definition mark_dispatched (account_id attempt_id : string) : M t JournalReceipt :=
  now ← now_ms;
  on_runtime (OwnerOps.on_account account_id
    (λ snap, AccountOps.mark_dispatched record_digest snap io now attempt_id)).

(** [_denial_cause] *)
Definition denial_cause (d : ReservationDenied) : option DispatchCause :=
  match ReservationDenied.reason d with
  | ReservationDenialReason.PARALLEL_EXHAUSTED | ReservationDenialReason.RPM_EXHAUSTED =>
      Some DispatchCause.CAPACITY
  | ReservationDenialReason.TPM_EXHAUSTED | ReservationDenialReason.MONTHLY_QUOTA_EXHAUSTED =>
      Some DispatchCause.QUOTA
  | _ => None
  end.

(** [self._queue.commit(selection)] *)
Definition commit (selection : QueueSelection) : M t unit :=
  s ← get;
  q ← lift (WDRRQueue.commit (queue s) selection);
  modify (λ s, s{{ queue := q }}).

(** How a turn of the pump ends: the queue has nothing to propose, the loop goes
    on with these requests excluded, or a request was dispatched. *)
Inductive turn :=
| Stop
| Again (excluded : list string)
| Dispatched (request_id : string) (lease : DispatchLease).

(** The send: durable dispatch, the budget, the queue; a failure settles the
    lease as unsent, abandons the probes and gives the permit back.  The branch
    for a cancellation differs in the outcome only and is not modelled. *)
Definition send (request_id key_id attempt_id : string) (c : Candidate)
    (selection : QueueSelection) : M t unit :=
  on_error
    (mark_dispatched (Candidate.account_id c) attempt_id;;
     on_budget request_id (AttemptBudget.record_send c attempt_id);;
     commit selection)
    (lease_finish (DispatchLease.mk (Candidate.account_id c) c attempt_id request_id None false)
       (unsent UPSTREAM_FAILED);;
     abandon_candidate c;;
     release_active key_id).

(** [waiter.future]: a cancelled caller gives the lease back. *)
Definition deliver (request_id : string) (lease : DispatchLease) : M t unit :=
  s ← get;
  match dget request_id (futures s) with
  | Some Cancelled => cancel_before_send lease;; mret tt
  | _ => set_future request_id (Done lease)
  end.

(** From the reservation to the end of the turn. *)
Definition dispatch (request_id : string) (excluded : list string)
    (authorization : RequestAuthorizationCeiling) (selection : QueueSelection) (c : Candidate) :
    M t turn :=
  w ← waiter_of request_id;
  let key_id := Waiter.key_id w in
  acquired ← acquire_active key_id (RequestAuthorizationCeiling.max_concurrency authorization);
  if negb (acquired : bool) then mret (Again (request_id :: excluded))
  else
    attempt_id ← mint_id;
    s ← get;
    units ← lift (RouteEngine.quota_units (Environment.route_engine (environment s))
      (Candidate.account_id c));
    reservation ← lift (ReservationRequest.validate
      (reservation_of request_id attempt_id (Waiter.effective_deadline_at_ms w) units
         (Waiter.request w) c));
    granted ← on_error (reserve reservation) (abandon_candidate c;; release_active key_id);
    match granted with
    | Denied denial =>
        release_active key_id;;
        match denial_cause denial with
        | Some next_cause =>
            update_waiter request_id (λ w, w{{ Waiter.fallback_once := Some next_cause }});;
            mret (Again excluded)
        | None => mret (Again (request_id :: excluded))
        end
    | Granted _ _ =>
        send request_id key_id attempt_id c selection;;
        modify (λ s, s{{ waiters ::= ddel request_id }});;
        let lease := DispatchLease.mk (Candidate.account_id c) c attempt_id request_id
                       (Some key_id) false in
        deliver request_id lease;;
        mret (Dispatched request_id lease)
    end.

(** The part of a turn under the activation gate. *)
Definition under_gate (request_id : string) (excluded : list string)
    (selection : QueueSelection) (candidates : list Candidate)
    (barred_accounts : list string) : M t turn :=
  enter_gate;;
  authorization ← preview_authorization request_id;
  match authorization with
  | None => mret (Again excluded)
  | Some authorization =>
      now ← now_ms;
      w ← waiter_of request_id;
      if Waiter.effective_deadline_at_ms w <=? now
      then
        fail_waiter request_id (AdmissionUnavailable "queued request deadline elapsed");;
        mret (Again excluded)
      else
        desired_cause ← lift (match candidates with
          | c :: _ => Ok (Candidate.cause c) | [] => Err (IndexError "tuple index out of range") end);
        update_waiter request_id (λ w, w{{ Waiter.fallback_once ::= λ f,
          if bool_decide (f = Some desired_cause) then None else f }});;
        view ← operational_view;
        sync_budget request_id view;;
        context ← routing_context w;
        s ← get;
        match RouteEngine.select gate (Environment.route_engine (environment s)) authorization
                (AdmissionRequest.profile (Waiter.request w)) desired_cause view context
                barred_accounts with
        | None => mret (Again (request_id :: excluded))
        | Some c =>
            if negb (existsb (λ p, bool_decide (Candidate.authorized_leg c =
                                                Candidate.authorized_leg p)) candidates) ||
               negb (AttemptBudget.can_send (budget_of request_id s) c)
            then mret (Again (request_id :: excluded))
            else dispatch request_id excluded authorization selection c
        end
  end.

(** The accounts of each preview, each once. *)
Definition candidate_accounts (previews : dict string (list Candidate)) :
    dict string (list string) :=
  (λ p, (p.1, fromkeys (Candidate.account_id <$> p.2))) <$> previews.

(** One turn of the loop of [_pump_locked]. *)
Definition pump_turn (excluded : list string) : M t turn :=
  found ← previews;
  s ← get;
  selection ← lift (WDRRQueue.propose (queue s)
    (λ e, bool_decide (QueueEntry.request_id e ∈ dkeys found)) excluded);
  match selection with
  | None => mret Stop
  | Some selection =>
      let entry := QueueSelection.entry selection in
      let request_id := QueueEntry.request_id entry in
      waiter_of request_id;;
      candidates ← lift (lookup request_id found);
      let accounts := candidate_accounts found in
      own ← lift (lookup request_id accounts);
      let allowed := WDRRQueue.unprotected_accounts (queue s) entry own accounts in
      if bool_decide (allowed = []) then mret (Again (request_id :: excluded))
      else
        under_gate request_id excluded selection candidates
          (List.filter (λ a, negb (bool_decide (a ∈ allowed))) own)
  end.

(** [while self._waiters]: [None] when the fuel runs out. *)
Fixpoint pump_loop (fuel : nat) (excluded : list string) : M t (option unit) :=
  s ← get;
  if bool_decide (waiters s = []) then mret (Some tt)
  else
    match fuel with
    | O => mret None
    | S fuel =>
        r ← pump_turn excluded;
        match r with
        | Stop => mret (Some tt)
        | Again excluded => pump_loop fuel excluded
        | Dispatched _ _ => pump_loop fuel []
        end
    end.

(** [_pump_locked], [wake] *)
Definition pump (fuel : nat) : M t (option unit) :=
  modify (λ s, s{{ waiters ::= fmap (λ p, (p.1, p.2{{ Waiter.fallback_once := None }})) }});;
  pump_loop fuel [].
Definition wake (fuel : nat) : M t (option unit) := pump fuel.

(** ** Admission *)
Definition key_waiters (key_id : string) (s : t) : Z :=
  Z.of_nat (length (List.filter (λ w, bool_decide (Waiter.key_id w = key_id))
    (dvalues (waiters s)))).

(** The body of [acquire] before the pump. *)
Definition take_in (r : AdmissionRequest) : M t unit :=
  let request_id := AdmissionRequest.request_id r in
  let ceiling := AdmissionRequest.authorization_ceiling r in
  let key_id := AuthenticatedClient.key_id (AdmissionRequest.client r) in
  now ← now_ms;
  view ← operational_view;
  sync_budget request_id view;;
  s ← get;
  lift (raise_if (AttemptBudget.send_closed (budget_of request_id s))
    (AdmissionUnavailable "provider send budget is closed"));;
  lift (raise_if (AdmissionRequest.deadline_at_ms r <=? now)
    (AdmissionUnavailable "request deadline elapsed before queue admission"));;
  lift (raise_if (dmem request_id (waiters s)) (ValueError "duplicate admission request"));;
  lift (raise_if (max_waiters_global s <=? Z.of_nat (length (waiters s)))
    (AdmissionUnavailable "global waiter bound reached"));;
  lift (raise_if (RequestAuthorizationCeiling.max_waiters ceiling <=? key_waiters key_id s)
    (AdmissionUnavailable "key waiter bound reached"));;
  match Environment.auth_view (environment s) with
  | Err _ => raise (AdmissionUnavailable "client authorization state unavailable")
  | Ok auth_view =>
      lift (raise_if (negb (queued_identity_is_authorized (AdmissionRequest.client r) auth_view))
        (AdmissionUnavailable "client authorization expired before queue admission"))
  end;;
  modify (λ s, s{{
    waiters ::= dset request_id {|
      Waiter.request := r;
      Waiter.effective_ceiling := ceiling;
      Waiter.admitted_at_ms := now;
      Waiter.effective_deadline_at_ms :=
        Z.min (AdmissionRequest.deadline_at_ms r)
              (now + RequestAuthorizationCeiling.deadline_ms ceiling);
      Waiter.fallback_once := None;
      Waiter.state := WaiterState.QUEUED |};
    futures ::= dset request_id Pending }});;
  q ← lift (e ← QueueEntry.new request_id key_id
    (RequestAuthorizationCeiling.queue_tier ceiling)
    (RequestAuthorizationCeiling.queue_weight ceiling)
    (RequestAuthorizationCeiling.authorized_legs ceiling);
    WDRRQueue.enqueue (queue s) e);
  modify (λ s, s{{ queue := q }}).

(** [acquire]: the caller then awaits its future. *)
Definition acquire (fuel : nat) (r : AdmissionRequest) : M t (option unit) :=
  take_in r;; pump fuel.

(** [DispatchLease.terminal] *)
Definition terminal (lease : DispatchLease) (s : t) : bool :=
  match dget (DispatchLease.account_id lease) (RuntimeState.runtimes (Owner.state (runtime s))) with
  | Some rt => AccountOps.lease_terminal (DispatchLease.attempt_id lease) rt
  | None => false
  end.

(** [acquire] when its caller is cancelled while it awaits its future. *)
Definition withdraw (request_id : string) : M t unit :=
  s ← get;
  (if dmem request_id (waiters s)
   then modify (λ s, s{{ waiters ::= ddel request_id;
                         queue ::= λ q, (WDRRQueue.cancel q request_id).1 }})
   else mret tt);;
  s ← get;
  match dget request_id (futures s) with
  | Some (Done lease) =>
      if terminal lease s then mret tt else cancel_before_send lease;; mret tt
  | Some (Failed e) => raise e
  | Some Cancelled => mret tt
  | Some Pending | None => set_future request_id Cancelled
  end.

(** ** The shadow path *)
Definition shadow_authorization (r : AdmissionRequest) (env : Environment) :
    option RequestAuthorizationCeiling :=
  match Environment.auth_view env with
  | Err _ => None
  | Ok auth_view =>
      if negb (queued_identity_is_authorized (AdmissionRequest.client r) auth_view) then None
      else
        match (current ← RouteEngine.authorize (Environment.route_engine env)
                 (AdmissionRequest.client r) (AdmissionRequest.profile r);
               RequestAuthorizationCeiling.intersection
                 (AdmissionRequest.authorization_ceiling r) current) with
        | Ok c => Some c
        | Err _ => None
        end
  end.

Definition try_acquire_shadow (r : AdmissionRequest) : M t (option DispatchLease) :=
  shadow_request_id ← mint_id;
  modify (λ s, s{{ budgets ::= dset shadow_request_id (AttemptBudget.init shadow_request_id) }});;
  enter_gate;;
  s ← get;
  match shadow_authorization r (environment s) with
  | None => mret None
  | Some authorization =>
      now ← now_ms;
      if AdmissionRequest.deadline_at_ms r <=? now then mret None
      else
        view ← operational_view;
        context ← lift (RoutingContext.validate
          (RoutingContext.mk now (AdmissionRequest.deadline_at_ms r)
             (RuntimeIdentity.dispatcher_fence (AdmissionRequest.runtime_identity r)) None));
        match RouteEngine.shadow_candidate gate (Environment.route_engine (environment s))
                authorization (AdmissionRequest.profile r) view context with
        | None => mret None
        | Some c =>
            attempt_id ← mint_id;
            units ← lift (RouteEngine.quota_units (Environment.route_engine (environment s))
              (Candidate.account_id c));
            reservation ← lift (ReservationRequest.validate
              (reservation_of shadow_request_id attempt_id (AdmissionRequest.deadline_at_ms r)
                 units r c));
            granted ← reserve reservation;
            match granted with
            | Denied _ => mret None
            | Granted _ _ =>
                let lease := DispatchLease.mk (Candidate.account_id c) c attempt_id
                               shadow_request_id None false in
                on_error
                  (mark_dispatched (Candidate.account_id c) attempt_id;;
                   on_budget shadow_request_id (AttemptBudget.record_send c attempt_id);;
                   mret tt)
                  (lease_finish lease (unsent UPSTREAM_FAILED);; mret tt);;
                mret (Some lease)
            end
        end
  end.
End Controller.
End Admission.
