(* ===== verification/AdmissionFacts.v ===== *)
(** * What the calls of the admission controller keep

    Each operation of [Admission.v] touches a few parts of the controller.  Two
    preorders on its states say what a call leaves alone, [quiet] and, weaker,
    [outer]; a call is related to its parts by the rules of [keeps]. *)
From S2P Require Export Admission.
From S2P Require Import QueueFacts RoutingProps.
#[local] Open Scope Z_scope.

Module AdmissionFacts.
Import AdmissionController Admission.

(** The waiters, their futures, the permits and the queue are untouched. *)
Definition quiet (s s' : t) : Prop :=
  waiters s' = waiters s ∧ futures s' = futures s ∧ active_by_key s' = active_by_key s ∧
  queue s' = queue s ∧ environment s' = environment s ∧
  max_waiters_global s' = max_waiters_global s.

(** What is left of an admission: the effective ceiling is a contraction of the
    admitted one and the deadline is no later. *)
Record waiter_ok (k : string) (w : Waiter) : Prop := {
  wo_id : Waiter.request_id w = k;
  wo_wf : CeilingFacts.wf (Waiter.effective_ceiling w);
  wo_legs l : l ∈ RequestAuthorizationCeiling.authorized_legs (Waiter.effective_ceiling w) →
    ∃ a, a ∈ RequestAuthorizationCeiling.authorized_legs
               (AdmissionRequest.authorization_ceiling (Waiter.request w)) ∧
         LegFacts.contracts a l;
  wo_concurrency : RequestAuthorizationCeiling.max_concurrency (Waiter.effective_ceiling w) ≤
    RequestAuthorizationCeiling.max_concurrency
      (AdmissionRequest.authorization_ceiling (Waiter.request w));
  wo_deadline : Waiter.effective_deadline_at_ms w ≤
    AdmissionRequest.deadline_at_ms (Waiter.request w);
}.

(** The stores are indexed by request, every queued entry has its waiter, and a
    waiter's future has no result yet. *)
Definition queue_ids (s : t) : list string := dkeys (WDRRQueue.queued (queue s)).
Definition indexed (s : t) : Prop :=
  dict_ok (waiters s) ∧ NoDup (queue_ids s) ∧
  (∀ k, k ∈ queue_ids s → k ∈ dkeys (waiters s)) ∧
  (∀ k w, dget k (waiters s) = Some w → waiter_ok k w) ∧
  (∀ k, k ∈ dkeys (waiters s) →
     dget k (futures s) = Some Pending ∨ dget k (futures s) = Some Cancelled).

(** A waiter may be updated or dropped with its queue entry; its request is what
    was admitted. *)
Record narrowing (s s' : t) : Prop := {
  nr_indexed : indexed s';
  nr_requests k w' : dget k (waiters s') = Some w' →
     ∃ w, dget k (waiters s) = Some w ∧ Waiter.request w' = Waiter.request w;
  nr_futures k : k ∈ dkeys (waiters s') → dget k (futures s') = dget k (futures s);
  nr_length : (length (waiters s') ≤ length (waiters s))%nat;
  nr_bound : max_waiters_global s' = max_waiters_global s;
}.
Definition narrowed (s s' : t) : Prop := indexed s → narrowing s s'.
Definition outer (s s' : t) : Prop :=
  narrowed s s' ∧ active_by_key s' = active_by_key s ∧ environment s' = environment s.

#[export] Instance quiet_preorder : PreOrder quiet.
Proof.
  split; [by intros s; split_and!|]. unfold quiet. intros s1 s2 s3 H1 H2.
  destruct_and!. split_and!; congruence.
Qed.
#[export] Instance narrowed_preorder : PreOrder narrowed.
Proof.
  split; [intros s Hs; split; by eauto|]. intros s1 s2 s3 H1 H2 [I2 R2 F2 L2 B2]%H1.
  destruct (H2 I2) as [I3 R3 F3 L3 B3]. split; [done| | |lia|congruence].
  - intros k w' (w & Hw & E)%R3. destruct (R2 _ _ Hw) as (w0 & Hw0 & E0).
    exists w0. split; congruence.
  - intros k Hk. rewrite F3 by done. apply F2. apply dget_is_Some in Hk as [w Hw].
    destruct (R3 _ _ Hw) as (w0 & Hw0 & _). apply dget_is_Some. by eexists.
Qed.
#[export] Instance outer_preorder : PreOrder outer.
Proof.
  split; [by intros s; split_and!|]. intros s1 s2 s3 (N1 & A1 & E1) (N2 & A2 & E2).
  split_and!; [by etrans|congruence..].
Qed.

Lemma quiet_outer s s' : quiet s s' → outer s s'.
Proof.
  intros (Hw & Hf & Ha & Hq & He & Hb). split_and!; [|done..]. intros Hs.
  split; unfold indexed, queue_ids; rewrite ?Hw, ?Hq, ?Hf; by eauto.
Qed.
Lemma keeps_outer {A} (m : M t A) : keeps quiet m → keeps outer m.
Proof. apply keeps_weaken, quiet_outer. Qed.
Lemma keeps_narrowed {A} (m : M t A) : keeps outer m → keeps narrowed m.
Proof. apply keeps_weaken. by intros s s' []. Qed.

(** ** Waiters *)
Lemma indexed_update s k w w' : dget k (waiters s) = Some w → Waiter.request w' = Waiter.request w →
  (waiter_ok k w → waiter_ok k w') → outer s (s{{ waiters ::= dset k w' }}).
Proof.
  intros Hw Hr Hok. destruct s as [e r mx q ws ac fu bu cr mi ga]; cbn in *.
  assert (dkeys (dset k w' ws) = dkeys ws) as Hk.
  { apply dkeys_dset_old, dget_is_Some. by eexists. }
  split_and!; [|done..]. intros (Hd & Hn & Ha & Ho & Hp). unfold queue_ids, dict_ok in *; cbn in *.
  split; cbn; [| |done| |done].
  - unfold indexed, queue_ids, dict_ok, dkeys in *; cbn. rewrite Hk. split_and!; try done.
    intros k' v. rewrite dget_dset. case_decide; [|by eauto]. subst. intros [= <-]. eauto.
  - intros k' v. rewrite dget_dset. case_decide; [|by eauto]. subst. intros [= <-]. eauto.
  - apply (f_equal length) in Hk. unfold dkeys in Hk. rewrite !length_fmap in Hk. lia.
Qed.

Lemma elem_of_dkeys_ddel {V} k k' (d : dict string V) : dict_ok d →
  k' ∈ dkeys (ddel k d) ↔ k' ≠ k ∧ k' ∈ dkeys d.
Proof.
  intros Hd. rewrite <-!dget_is_Some, dget_ddel by done. case_decide; [|naive_solver].
  subst. split; [by intros []|naive_solver].
Qed.

(** Dropping a waiter with its queue entry; its future may get a result. *)
Lemma indexed_drop s s' k : waiters s' = ddel k (waiters s) →
  WDRRQueue.queued (queue s') = ddel k (WDRRQueue.queued (queue s)) →
  (∀ k', k' ≠ k → dget k' (futures s') = dget k' (futures s)) →
  max_waiters_global s' = max_waiters_global s → narrowed s s'.
Proof.
  intros Hw Hq Hf Hm (Hd & Hn & Ha & Ho & Hp). unfold queue_ids in *.
  assert (∀ k', k' ∈ dkeys (waiters s') ↔ k' ≠ k ∧ k' ∈ dkeys (waiters s)) as Hk.
  { intros k'. rewrite Hw. by apply elem_of_dkeys_ddel. }
  assert (∀ k' v, dget k' (waiters s') = Some v → dget k' (waiters s) = Some v) as Hv.
  { intros k' v. rewrite Hw, dget_ddel by done. by case_decide. }
  split; [| | | |done].
  - split_and!; unfold queue_ids.
    + rewrite Hw. by apply dict_ok_ddel.
    + rewrite Hq. by apply dict_ok_ddel.
    + intros k'. rewrite Hq, Hk, elem_of_dkeys_ddel by done. naive_solver.
    + intros k' v Hk'%Hv. by apply Ho.
    + intros k' [Hne Hin]%Hk. rewrite Hf by done. by apply Hp.
  - intros k' v Hk'%Hv. by eauto.
  - intros k' [Hne Hin]%Hk. by apply Hf.
  - rewrite Hw. apply sublist_length, ddel_sublist.
Qed.

#[export] Hint Resolve keeps_outer keeps_narrowed : keeps.

Section Facts.
Context {safe : SafeSnapshot OwnerSnapshot}.
Context (rd : Z → Payload → string → string).
Context (pd : RequestProfile → string) (sd : AttemptResolution → string).
Context (sha256 : bytes → bytes).
Context (gate : AuthorizedLeg → string → result bool).
Context (io : JournalIO) (clock : nat → Z) (mint : nat → string).
Context (publication : nat → Environment → Environment).

(** ** Quiet calls: the clock, the identifiers, the runtime and the budgets *)
Ltac quiet_modify := apply keeps_modify; by intros [].
Lemma quiet_now : keeps quiet (now_ms clock).
Proof. unfold now_ms. keeps. quiet_modify. Qed.
Lemma quiet_mint : keeps quiet (mint_id mint).
Proof. unfold mint_id. keeps. quiet_modify. Qed.
Lemma quiet_on_runtime {A} (m : M Owner A) : keeps quiet (on_runtime m).
Proof. intros [] s' r. unfold on_runtime. destruct (m _). by intros [= <- _]. Qed.
Lemma quiet_on_budget {A} k (m : M AttemptBudget A) : keeps quiet (on_budget k m).
Proof. intros [] s' r. unfold on_budget. destruct (m _). by intros [= <- _]. Qed.
#[local] Hint Resolve quiet_now quiet_mint quiet_on_runtime quiet_on_budget : keeps.

Lemma quiet_waiter_of k : keeps quiet (waiter_of k).
Proof. unfold waiter_of. keeps. Qed.
Lemma quiet_view : keeps quiet (operational_view io clock).
Proof. unfold operational_view. keeps. Qed.
Lemma quiet_context w : keeps quiet (routing_context clock w).
Proof. unfold routing_context. keeps. Qed.
Lemma quiet_abandon c : keeps quiet (abandon_candidate rd sha256 io clock c).
Proof. unfold abandon_candidate. keeps. Qed.
Lemma quiet_lease_finish l r : keeps quiet (lease_finish rd sd io clock l r).
Proof. unfold lease_finish. keeps. Qed.
Lemma quiet_reserve r : keeps quiet (reserve rd pd io clock r).
Proof. unfold reserve. keeps. Qed.
Lemma quiet_dispatched k a : keeps quiet (mark_dispatched rd io clock k a).
Proof. unfold mark_dispatched. keeps. Qed.
Lemma quiet_sync k v : keeps quiet (sync_budget k v).
Proof. apply quiet_on_budget. Qed.
#[local] Hint Resolve quiet_waiter_of quiet_view quiet_context quiet_abandon quiet_lease_finish
  quiet_reserve quiet_dispatched quiet_sync : keeps.

(** ** Calls that touch waiters, futures and the queue *)
Lemma lookup_Ok {V} k (d : dict string V) v : lookup k d = Ok v ↔ dget k d = Some v.
Proof. unfold lookup. destruct (dget k d); split; congruence. Qed.
Lemma waiter_of_cases k s s' r : waiter_of k s = (s', r) → s' = s ∧
  match r with Ok w => dget k (waiters s) = Some w | Err _ => dget k (waiters s) = None end.
Proof.
  unfold waiter_of, get, lift, mbind, M_bind, lookup. cbn.
  destruct (dget k (waiters s)) eqn:E; by intros [= <- <-].
Qed.
Lemma waiter_of_Ok k s s' w : waiter_of k s = (s', Ok w) → s' = s ∧ dget k (waiters s) = Some w.
Proof.
  unfold waiter_of. intros (s1 & x & [= <- <-] & H)%M_bind_Ok. injection H as <- H.
  by apply lookup_Ok in H.
Qed.

Lemma update_waiter_at k f s s' r w : dget k (waiters s) = Some w → update_waiter k f s = (s', r) →
  s' = s{{ waiters ::= dset k (f w) }} ∧ r = Ok tt.
Proof.
  unfold update_waiter. intros Hw [(s1 & w' & H1 & [= <- <-])|(e & H1 & _)]%M_bind_cases;
    apply waiter_of_cases in H1 as [-> Hw']; [|congruence].
  rewrite Hw in Hw'. by injection Hw' as <-.
Qed.
Lemma outer_update k f : (∀ w, Waiter.request (f w) = Waiter.request w) →
  (∀ w, waiter_ok k w → waiter_ok k (f w)) → keeps outer (update_waiter k f).
Proof.
  intros Hf Hok s s' r [(s1 & w & H1 & H2)|(e & H1 & _)]%M_bind_cases.
  - apply waiter_of_Ok in H1 as [-> Hw]. injection H2 as <- _. eapply indexed_update; eauto.
  - apply quiet_outer. by eapply quiet_waiter_of.
Qed.
(** A fallback is no part of the admission. *)
Lemma outer_fallback k f : keeps outer (update_waiter k (λ w, w{{ Waiter.fallback_once ::= f }})).
Proof. apply outer_update; [by intros []|]. by intros [] []. Qed.
Lemma set_future_cases k x s s' r : set_future k x s = (s', r) → r = Ok tt ∧
  (s' = s ∨ s' = s{{ futures ::= dset k x }}) ∧
  (default Pending (dget k (futures s)) = Pending → dget k (futures s') = Some x).
Proof.
  unfold set_future, get, modify, mbind, M_bind. destruct (dget k (futures s)) as [[]|] eqn:E; cbn;
    intros [= <- <-]; (split_and!; [done|by auto|]); intros; try done;
    destruct s; apply dget_dset_eq.
Qed.
Lemma cancel_queued q k : WDRRQueue.queued (WDRRQueue.cancel q k).1 = ddel k (WDRRQueue.queued q).
Proof.
  unfold WDRRQueue.cancel. destruct (dmem k (WDRRQueue.queued q)) eqn:E; [by destruct q|].
  symmetry. by apply ddel_absent, dmem_false.
Qed.
Lemma outer_fail k e : keeps outer (fail_waiter k e).
Proof.
  intros s s' r [(s1 & [] & M & H)|(e' & [=] & _)]%M_bind_cases.
  assert (waiters s1 = ddel k (waiters s) ∧ queue s1 = (WDRRQueue.cancel (queue s) k).1 ∧
    futures s1 = futures s ∧ max_waiters_global s1 = max_waiters_global s ∧
    active_by_key s1 = active_by_key s ∧ environment s1 = environment s) as (Hw & Hq & Hf & Hm & Ha & He).
  { injection M as <-. by destruct s. }
  clear M. apply set_future_cases in H as (_ & Hs & _).
  assert (waiters s' = waiters s1 ∧ queue s' = queue s1 ∧ max_waiters_global s' = max_waiters_global s1 ∧
    active_by_key s' = active_by_key s1 ∧ environment s' = environment s1 ∧
    ∀ k', k' ≠ k → dget k' (futures s') = dget k' (futures s1)) as (Hw' & Hq' & Hm' & Ha' & He' & Hf').
  { destruct Hs as [->| ->]; [done|]. destruct s1; cbn. split_and!; try done.
    intros k' Hne. by apply dget_dset_ne. }
  split_and!; [|congruence..]. apply (indexed_drop _ _ k); [congruence| | |congruence].
  - rewrite Hq', Hq. apply cancel_queued.
  - intros k' Hne. rewrite Hf' by done. by rewrite Hf.
Qed.
(** Replacing the queue by one with the same identifiers. *)
Lemma outer_requeue s q : dkeys (WDRRQueue.queued q) = queue_ids s → outer s (s{{ queue := q }}).
Proof.
  destruct s; unfold queue_ids; cbn. intros Hq. split_and!; [|done..].
  intros Hs. split; [|by eauto..]. unfold indexed, queue_ids in *. cbn [queue waiters] in *.
  by rewrite Hq.
Qed.
Lemma outer_contract k c : keeps outer (contract_queued k c).
Proof.
  apply keeps_read. intros s s' r H.
  apply M_bind_cases in H as [(s1 & e & [= <- _] & H)|(e & [= <- _] & _)]; [|done].
  destruct (_ || _ || _); [|by injection H as <- _].
  apply M_bind_cases in H as [(s1 & [q e'] & H1 & [= <- _])|(e' & [= <- _] & _)]; [|done].
  injection H1 as <- H1. apply QueueInv.contract_Ok in H1 as [old Hc]. apply outer_requeue.
  rewrite (QueueInv.con_queued _ _ _ _ _ Hc). apply dkeys_dset_old, dget_is_Some.
  eexists. apply (QueueInv.con_old _ _ _ _ _ Hc).
Qed.
#[local] Hint Resolve outer_fallback outer_fail outer_contract : keeps.


(** ** The authorization in force *)
Definition contraction (k : string) (w : Waiter) (c : RequestAuthorizationCeiling) : Waiter :=
  w{{ Waiter.effective_ceiling := c;
      Waiter.effective_deadline_at_ms ::= λ d, Z.min d (Waiter.admitted_at_ms w +
        RequestAuthorizationCeiling.deadline_ms c) }}.

(** The authorization in force for a waiter: what the view accepts, and what is
    left of its ceiling under the engine. *)
Record in_force (env : Environment) (w : Waiter) (c : RequestAuthorizationCeiling) : Prop := {
  if_view : ∃ view, Environment.auth_view env = Ok view ∧
    queued_identity_is_authorized (AdmissionRequest.client (Waiter.request w)) view = true;
  if_ceiling : ∃ current,
    RouteEngine.authorize (Environment.route_engine env)
      (AdmissionRequest.client (Waiter.request w))
      (AdmissionRequest.profile (Waiter.request w)) = Ok current ∧
    RequestAuthorizationCeiling.intersection (Waiter.effective_ceiling w) current = Ok c;
}.

Lemma authorize_wf e client profile c : RouteEngine.authorize e client profile = Ok c → CeilingFacts.wf c.
Proof.
  unfold RouteEngine.authorize. intros H. destruct (dget _ _); [|done]. inv_ok_step H.
  destruct (dget _ _); [|done]. by eapply CeilingFacts.ceiling_validate_wf.
Qed.

Lemma contraction_ok env k w c : in_force env w c → waiter_ok k w → waiter_ok k (contraction k w c).
Proof.
  intros [_ (cur & Hcur%authorize_wf & Hc)] [Hid Hwf Hl Hm Hd].
  assert (RequestAuthorizationCeiling.same_admitted_identity (Waiter.effective_ceiling w) cur = true)
    as Hsame.
  { unfold RequestAuthorizationCeiling.intersection in Hc. inv_ok_step Hc. by bprop. }
  destruct (CeilingFacts.ceiling_intersection_wf _ _ Hwf Hcur Hsame)
    as (c' & Hc' & Hwf' & Hl' & _ & _ & _ & _ & _ & _ & Hm' & _).
  rewrite Hc in Hc'. injection Hc' as <-. destruct w; cbn in *. split; cbn; try done; [|lia..].
  intros l. rewrite Hl'. intros (a & b & Ha & _ & Hab)%CeilingFacts.elem_of_intersect_legs; [|apply Hcur].
  destruct (Hl a Ha) as (a0 & Ha0 & Hc0). exists a0. split; [done|].
  eapply LegFacts.leg_contracts_trans; [done|]. by eapply LegFacts.leg_intersection_contracts.
Qed.
Definition emptied (w : Waiter) : Waiter := w{{ Waiter.effective_ceiling ::=
  λ c, c{{ RequestAuthorizationCeiling.authorized_legs := [] }} }}.
Lemma emptied_ok k w : waiter_ok k w → waiter_ok k (emptied w).
Proof.
  intros [Hid [Hs _ _ _] _ Hm Hd]. destruct w as [? []]; cbn in *. split; cbn; try done.
  - split; cbn; [done|constructor|constructor|done].
  - by intros l ?%elem_of_nil.
Qed.

Lemma current_cases k s s' r : current_authorization k s = (s', r) →
  match r with
  | Ok c => ∃ w, dget k (waiters s) = Some w ∧ in_force (environment s) w c ∧
      s' = s{{ waiters ::= dset k (contraction k w c) }}
  | Err _ => s' = s ∨ ∃ w w', dget k (waiters s) = Some w ∧
      Waiter.request w' = Waiter.request w ∧ (waiter_ok k w → waiter_ok k w') ∧
      s' = s{{ waiters ::= dset k w' }}
  end.
Proof.
  unfold current_authorization. intros [(s1 & w & H1 & H2)|(e & H1 & ->)]%M_bind_cases;
    apply waiter_of_cases in H1 as [-> Hw]; [|by left].
  apply M_bind_cases in H2 as [(s1 & s2 & [= <- <-] & H)|(e & [=] & _)].
  destruct (Environment.auth_view (environment s)) as [view|] eqn:Ev; [|injection H as <- <-; by left].
  destruct (queued_identity_is_authorized _ view) eqn:Eq; cbn [negb] in H;
    [|injection H as <- <-; by left].
  destruct (RouteEngine.authorize _ _ _) as [cur|[]] eqn:Ea; try (injection H as <- <-; by left).
  - apply M_bind_cases in H as [(s1 & c & [= <- Hc] & H)|(e & [= <- _] & ->)]; [|by left].
    assert (in_force (environment s) w c) as Hf by (split; eauto).
    apply M_bind_cases in H as [(s1 & [] & Hu & H)|(e & Hu & ->)].
    + apply (update_waiter_at _ _ _ _ _ _ Hw) in Hu as [Hu _].
      assert (s' = s1 ∧ ∀ c', r = Ok c' → c' = c) as [-> Hr].
      { case_bool_decide; [by injection H as <- <-|].
        apply M_bind_cases in H as [(s2 & p & [= <- _] & H)|(e & [= <- _] & ->)]; [|done].
        destruct (_ <=? p); injection H as <- <-; split; congruence. }
      destruct r as [c'|e]; [rewrite (Hr c') by done; by eauto|right].
      exists w, (contraction k w c). split_and!; [done|by destruct w| |done].
      by eapply contraction_ok.
    + by apply (update_waiter_at _ _ _ _ _ _ Hw) in Hu as [_ [=]].
  - apply M_bind_cases in H as [(s1 & [] & Hu & [= <- <-])|(e & Hu & ->)];
      apply (update_waiter_at _ _ _ _ _ _ Hw) in Hu as [-> Hu]; [|done].
    right. exists w, (emptied w). split_and!; [done|by destruct w|by apply emptied_ok|done].
Qed.
Lemma outer_current k : keeps outer (current_authorization k).
Proof.
  intros s s' r H%current_cases. destruct r as [c|e].
  - destruct H as (w & Hw & Hc & ->). eapply indexed_update; [done| |].
    + by destruct w.
    + by eapply contraction_ok.
  - destruct H as [->|(w & w' & Hw & Hr & Hok & ->)]; [done|]. by eapply indexed_update.
Qed.
#[local] Hint Resolve outer_current : keeps.
Lemma outer_authorization k : keeps outer (preview_authorization k).
Proof. unfold preview_authorization. keeps. Qed.
Lemma outer_candidates k c : keeps outer (preview_candidates gate io clock k c).
Proof. unfold preview_candidates. keeps. Qed.
#[local] Hint Resolve outer_authorization outer_candidates : keeps.
Lemma outer_preview k : keeps outer (preview gate io clock k).
Proof. unfold preview. keeps. Qed.
#[local] Hint Resolve outer_preview : keeps.
Lemma outer_previews_of l found : keeps outer (previews_of gate io clock l found).
Proof. revert found. induction l as [|e l IH]; cbn; intros found; keeps. Qed.
Lemma outer_previews : keeps outer (previews gate io clock).
Proof. unfold previews. keeps. apply outer_previews_of. Qed.
End Facts.
End AdmissionFacts.
