(* ===== verification/AdmissionTurns.v ===== *)
(** * The turns of the pump

    What one turn of [_pump_locked] does to the waiters, the queue and the active
    permits, and what a dispatch rests on. *)
From S2P Require Export AdmissionFacts.
From S2P Require Import QueueFacts RoutingProps.
#[local] Open Scope Z_scope.

Module TurnFacts.
Import AdmissionController Admission AdmissionFacts.

(** Active permits are counted from one. *)
Definition permits_ok (s : t) : Prop :=
  dict_ok (active_by_key s) ∧ ∀ k v, dget k (active_by_key s) = Some v → 1 ≤ v.

(** The environment stays as the gate left it. *)
Definition steady (s s' : t) : Prop := narrowed s s' ∧ environment s' = environment s.
#[export] Instance steady_preorder : PreOrder steady.
Proof.
  split; [by intros s; split|]. intros s1 s2 s3 [N1 E1] [N2 E2]. split; [by etrans|congruence].
Qed.
Lemma outer_steady s s' : outer s s' → steady s s'.
Proof. by intros (? & ? & ?). Qed.

Lemma count_nonneg k s : permits_ok s → 0 ≤ active_count k s.
Proof.
  intros [_ Hp]. unfold active_count, dget_or. destruct (dget k (active_by_key s)) eqn:E; cbn; [|lia].
  apply Hp in E. lia.
Qed.

Lemma count_dset k v k' s d : active_by_key s = dset k v d →
  active_count k' s = if decide (k = k') then v else dget_or k' 0 d.
Proof. unfold active_count, dget_or. intros ->. rewrite dget_dset. by case_decide. Qed.

Lemma permits_dset k v s s' : permits_ok s → 1 ≤ v →
  active_by_key s' = dset k v (active_by_key s) → permits_ok s'.
Proof.
  intros [Hd Hp] Hv E. unfold permits_ok. rewrite E. split; [by apply dict_ok_dset|].
  intros k' v'. rewrite dget_dset. case_decide; [by intros [= <-]|by eauto].
Qed.

Lemma acquire_cases k m s s' b : acquire_active k m s = (s', Ok b) →
  steady s s' ∧ futures s' = futures s ∧ waiters s' = waiters s ∧ queue s' = queue s ∧
  if b then active_count k s < m ∧ active_by_key s' = dset k (active_count k s + 1) (active_by_key s)
  else s' = s.
Proof.
  unfold acquire_active. intros (s1 & s0 & [= <- <-] & H)%M_bind_Ok.
  destruct (m <=? active_count k s) eqn:E; [by injection H as <- <-|].
  bprop. apply M_bind_Ok in H as (s1 & [] & [= <-] & [= <- <-]).
  destruct s; cbn in *. split_and!; try done. split; [|done]. intros Hs. by split; eauto.
Qed.

(** A permit given back: the counts are what they were before it was taken. *)
Lemma release_acquired k s s1 s2 r : permits_ok s →
  active_by_key s1 = dset k (active_count k s + 1) (active_by_key s) →
  release_active k s1 = (s2, r) →
  permits_ok s2 ∧ (∀ k', active_count k' s2 = active_count k' s).
Proof.
  intros Hp E. pose proof (count_nonneg k s Hp) as Hn.
  assert (permits_ok s1) as Hp1 by (eapply permits_dset; [done| |done]; lia).
  assert (active_count k s1 = active_count k s + 1) as Hc.
  { rewrite (count_dset _ _ _ _ _ E). by rewrite decide_True. }
  unfold release_active. intros [= <- _]. rewrite Hc.
  destruct (active_count k s + 1 <=? 1) eqn:El; bprop.
  - destruct s1 as [e1 r1 mx1 q1 ws1 ac1 fu1 bu1 cr1 mi1 ga1]; cbn in *. destruct Hp1 as [Hd1 Hv1]; cbn in *.
    split.
    + split; cbn [active_by_key]; [by apply dict_ok_ddel|]. intros k' v.
      rewrite dget_ddel by done. case_decide; [done|by apply Hv1].
    + intros k'. unfold active_count, dget_or in *; cbn [active_by_key] in *.
      rewrite dget_ddel by done. case_decide; [subst; cbn; lia|]. by rewrite E, dget_dset_ne.
  - destruct s1 as [e1 r1 mx1 q1 ws1 ac1 fu1 bu1 cr1 mi1 ga1]; cbn in *. split.
    + eapply permits_dset; [exact Hp1| |reflexivity]. cbn. lia.
    + intros k'. unfold active_count, dget_or in *; cbn [active_by_key] in *.
      rewrite E, !dget_dset. repeat case_decide; try done. subst. cbn. lia.
Qed.

Lemma steady_release k : keeps steady (release_active k).
Proof.
  unfold release_active. apply keeps_modify. intros []. split; [|done].
  intros Hs. by split; eauto.
Qed.

Section Turns.
Context {safe : SafeSnapshot OwnerSnapshot}.
Context (rd : Z → Payload → string → string).
Context (pd : RequestProfile → string) (sd : AttemptResolution → string).
Context (sha256 : bytes → bytes).
Context (gate : AuthorizedLeg → string → result bool).
Context (io : JournalIO) (clock : nat → Z) (mint : nat → string).
Context (publication : nat → Environment → Environment).

(** The send that succeeds takes the request off the queue. *)
Lemma send_Ok k key a c sel s s' : QueueEntry.request_id (QueueSelection.entry sel) = k →
  send rd sd sha256 io clock k key a c sel s = (s', Ok tt) →
  waiters s' = waiters s ∧ futures s' = futures s ∧ active_by_key s' = active_by_key s ∧
  environment s' = environment s ∧ max_waiters_global s' = max_waiters_global s ∧
  WDRRQueue.queued (queue s') = ddel k (WDRRQueue.queued (queue s)).
Proof.
  intros Hk (s1 & rc & Q1%quiet_dispatched & H)%on_error_Ok%M_bind_Ok.
  apply M_bind_Ok in H as (s2 & at' & Q2%quiet_on_budget & H).
  pose proof (transitivity Q1 Q2) as (Hw & Hf & Ha & Hq & He & Hm). clear Q1 Q2.
  apply M_bind_Ok in H as (s3 & s3' & [= <- <-] & H).
  apply M_bind_Ok in H as (s3 & q & [= <- Hc] & [= <-]).
  apply QueueInv.commit_Ok in Hc as (_ & _ & ->). rewrite Hk, <-Hw, <-Hf, <-Ha, <-Hq, <-He, <-Hm.
  by destruct s2 as [? ? ? []].
Qed.

(** The result of a request that waits no longer. *)
Lemma steady_future k x s s' r : dget k (waiters s) = None → set_future k x s = (s', r) →
  steady s s' ∧ active_by_key s' = active_by_key s.
Proof.
  intros Hk%dget_None H. apply set_future_cases in H as (_ & [->| ->] & _); [done|].
  destruct s as [e0 r0 mx q ws ac fu bu cr mi ga]; cbn in *. split; [|done]. split; [|done].
  intros (Hd & Hn & Ha & Ho & Hp); cbn in *.
  assert (∀ k', k' ∈ ws.*1 → dget k' (dset k x fu) = dget k' fu) as Hf.
  { intros k' Hk'. apply dget_dset_ne. by intros <-. }
  split; cbn; try done; [|by eauto].
  split_and!; cbn; try done. intros k' Hk'. rewrite Hf by done. by apply Hp.
Qed.

(** The delivered lease is the caller's, or is given back if it was cancelled. *)
Lemma deliver_cases k key c a s0 s s' : permits_ok s0 → dget k (waiters s) = None →
  active_by_key s = dset key (active_count key s0 + 1) (active_by_key s0) →
  let lease := DispatchLease.mk (Candidate.account_id c) c a k (Some key) false in
  deliver rd sd sha256 io clock k lease s = (s', Ok tt) →
  steady s s' ∧ permits_ok s' ∧
  match dget k (futures s) with
  | Some Cancelled => ∀ k', active_count k' s' = active_count k' s0
  | f => active_by_key s' = active_by_key s ∧
      (default Pending f = Pending → dget k (futures s') = Some (Done lease))
  end.
Proof.
  intros Hp0 Hk Ha lease (s1 & s1' & [= <- <-] & H)%M_bind_Ok.
  assert (permits_ok s) as Hp by (eapply permits_dset; [exact Hp0| |exact Ha];
    pose proof (count_nonneg key s0 Hp0); lia).
  assert (set_future k (Done lease) s = (s', Ok tt) → steady s s' ∧ permits_ok s' ∧
    active_by_key s' = active_by_key s ∧
    (default Pending (dget k (futures s)) = Pending → dget k (futures s') = Some (Done lease))) as Hset.
  { intros Hx. pose proof (steady_future _ _ _ _ _ Hk Hx) as [S A].
    apply set_future_cases in Hx as (_ & _ & Hx). split_and!; try done.
    unfold permits_ok. by rewrite A. }
  destruct (dget k (futures s)) as [[|l|e|]|] eqn:Ef; try (by apply Hset). clear Hset.
  apply M_bind_Ok in H as (s1 & [rc l'] & H & [= <-]).
  apply M_bind_Ok in H as (s2 & [] & Q1%quiet_abandon & H).
  apply M_bind_Ok in H as (s3 & rc' & Q2%quiet_lease_finish & H).
  pose proof (transitivity Q1 Q2) as Q. clear Q1 Q2.
  apply M_bind_Ok in H as (s4 & l4 & H & [= <- <- <-]).
  apply M_bind_Ok in H as (s5 & [] & H & [= <- <-]). cbn in H.
  destruct (release_acquired key s0 s3 s5 (Ok tt) Hp0) as [Hp' Hc]; [|done|].
  { destruct Q as (_ & _ & -> & _). exact Ha. }
  split_and!; [|done|done]. transitivity s3; [by apply outer_steady, quiet_outer|].
  by eapply steady_release.
Qed.

(** What a dispatched turn delivers. *)
Definition delivered (k key : string) (m : Z) (lease : DispatchLease) (s s' : t) : Prop :=
  match dget k (futures s) with
  | Some Cancelled => ∀ k', active_count k' s' = active_count k' s
  | f => active_count key s < m ∧
      (∀ k', active_count k' s' = active_count k' s + if decide (k' = key) then 1 else 0) ∧
      (default Pending f = Pending → dget k (futures s') = Some (Done lease))
  end.

Lemma delivered_of k key m lease s s5 s6 : active_count key s < m →
  active_by_key s5 = dset key (active_count key s + 1) (active_by_key s) →
  match dget k (futures s) with
  | Some Cancelled => ∀ k', active_count k' s6 = active_count k' s
  | f => active_by_key s6 = active_by_key s5 ∧
      (default Pending f = Pending → dget k (futures s6) = Some (Done lease))
  end → delivered k key m lease s s6.
Proof.
  intros Hlt A5 Hd. unfold delivered.
  assert (active_by_key s6 = active_by_key s5 → ∀ k', active_count k' s6 =
    active_count k' s + if decide (k' = key) then 1 else 0) as Hc.
  { intros A6 k'. rewrite A5 in A6. rewrite (count_dset _ _ _ _ _ A6). unfold active_count.
    repeat case_decide; subst; (done || lia). }
  destruct (dget k (futures s)) as [[]|]; naive_solver.
Qed.

(** The denied request turns to a fallback cause. *)
Definition retries (k : string) (s' : t) : Prop :=
  ∃ w cause, dget k (waiters s') = Some w ∧ Waiter.fallback_once w = Some cause ∧
    (cause = DispatchCause.CAPACITY ∨ cause = DispatchCause.QUOTA).
Lemma denial_causes d cause : denial_cause d = Some cause →
  cause = DispatchCause.CAPACITY ∨ cause = DispatchCause.QUOTA.
Proof. unfold denial_cause. destruct (ReservationDenied.reason d); intros [= <-]; auto. Qed.

Definition turn_outcome (k : string) (m : Z) (c : Candidate) (excluded : list string)
    (s s' : t) (r : turn) : Prop :=
  match r with
  | Stop => False
  | Again l => (l = k :: excluded ∨ (l = excluded ∧ retries k s')) ∧
      ∀ k', active_count k' s' = active_count k' s
  | Dispatched k' lease => k' = k ∧ dget k (waiters s') = None ∧
      ∃ w a, dget k (waiters s) = Some w ∧
        lease = DispatchLease.mk (Candidate.account_id c) c a k (Some (Waiter.key_id w)) false ∧
        delivered k (Waiter.key_id w) m lease s s'
  end.

Lemma dispatch_turn k excluded auth sel c s s' r : indexed s → permits_ok s →
  QueueEntry.request_id (QueueSelection.entry sel) = k →
  dispatch rd pd sd sha256 io clock mint k excluded auth sel c s = (s', Ok r) →
  steady s s' ∧ permits_ok s' ∧
  turn_outcome k (RequestAuthorizationCeiling.max_concurrency auth) c excluded s s' r.
Proof.
  intros Hix Hp Hk (s1 & w & H1 & H)%M_bind_Ok. apply waiter_of_Ok in H1 as [-> Hw].
  apply M_bind_Ok in H as (s1 & b & (A1 & F1 & W1 & Q1 & B)%acquire_cases & H).
  destruct b; cbn [negb] in H; [|].
  2: { subst s1. injection H as <- <-. split_and!; [done|done|]. split; [by left|done]. }
  destruct B as [Hlt Ha].
  apply M_bind_Ok in H as (s2 & a & T2%quiet_mint & H).
  apply M_bind_Ok in H as (s3 & s3' & [= <- <-] & H).
  apply M_bind_Ok in H as (s3 & units & [= <- _] & H).
  apply M_bind_Ok in H as (s3 & res & [= <- _] & H).
  apply M_bind_Ok in H as (s3 & granted & T3%on_error_Ok%quiet_reserve & H).
  pose proof (transitivity T2 T3) as T. clear T2 T3.
  assert (steady s s3) as S3 by (transitivity s1; [done|by apply outer_steady, quiet_outer]).
  destruct T as (W3 & F3 & A3 & Q3 & E3 & M3). rewrite Ha in A3.
  destruct granted as [gr rc|d].
  - apply M_bind_Ok in H as (s4 & [] & (W4 & F4 & A4 & E4 & M4 & Q4)%send_Ok & H); [|done].
    apply M_bind_Ok in H as (s5 & [] & M5 & H).
    assert (waiters s5 = ddel k (waiters s3) ∧ futures s5 = futures s ∧
      active_by_key s5 = dset (Waiter.key_id w) (active_count (Waiter.key_id w) s + 1) (active_by_key s) ∧
      queue s5 = queue s4 ∧ environment s5 = environment s4 ∧
      max_waiters_global s5 = max_waiters_global s4) as (W5 & F5 & A5 & Q5 & E5 & B5).
    { injection M5 as <-. destruct s4; cbn in *. split_and!; try done; congruence. }
    clear M5. apply M_bind_Ok in H as (s6 & [] & H & [= -> <-]).
    assert (steady s3 s5) as S5.
    { split; [|congruence]. apply (indexed_drop _ _ k); [done|congruence| |congruence].
      intros k' _. by rewrite F5, F3, F1. }
    assert (dget k (waiters s5) = None) as Hw5.
    { rewrite W5, W3, W1. apply dget_ddel_eq, Hix. }
    eapply deliver_cases in H as (S6 & Hp6 & Hd); [|exact Hp|exact Hw5|exact A5].
    rewrite F5 in Hd. pose proof (transitivity S3 S5) as S35.
    assert (dget k (waiters s') = None) as Hgone.
    { destruct (dget k (waiters s')) as [v|] eqn:Ev; [|done].
      destruct S35 as [N5 _], S6 as [N6 _]. pose proof (nr_indexed _ _ (N5 Hix)) as I5.
      destruct (nr_requests _ _ (N6 I5) _ _ Ev) as (v' & Hv' & _). congruence. }
    split_and!; [by transitivity s5|done|].
    split_and!; [done..|]. exists w, a. split_and!; [done..|].
    by eapply delivered_of.
  - apply M_bind_Ok in H as (s4 & [] & R4 & H).
    pose proof (release_acquired _ _ _ _ _ Hp A3 R4) as [Hp4 Hc4].
    apply steady_release in R4. pose proof (transitivity S3 R4) as S4.
    destruct (denial_cause d) as [cause|] eqn:Hcause.
    + apply M_bind_Ok in H as (s5 & [] & U & [= -> <-]). assert (retries k s') as Hretry.
      { pose proof U as [(s6 & v & Hv & [= E])|(e & _ & [=])]%M_bind_cases.
        exists (v{{ Waiter.fallback_once := Some cause }}), cause.
        rewrite <-E. destruct s6, v; cbn. split_and!; [apply dget_dset_eq|done|].
        by eapply denial_causes. }
      apply (outer_fallback _ (λ _, Some cause)) in U. destruct U as (N5 & A5 & E5).
      split_and!; [by transitivity s4| |].
      * unfold permits_ok. by rewrite A5.
      * split; [by right|]. intros k'. unfold active_count. rewrite A5. apply Hc4.
    + injection H as <- <-. split_and!; [done|done|]. split; [by left|done].
Qed.

(** The leg of a dispatch in the environment it was decided in: the view accepts
    the client, the engine authorizes it now, the leg is a contraction of an
    admitted leg by a leg authorized now, and it is eligible before the deadline. *)
Record licensed (env : Environment) (r : AdmissionRequest) (m : Z) (c : Candidate) : Prop := {
  li_view : ∃ view, Environment.auth_view env = Ok view ∧
    queued_identity_is_authorized (AdmissionRequest.client r) view = true;
  li_leg : ∃ current a b leg,
    RouteEngine.authorize (Environment.route_engine env) (AdmissionRequest.client r)
      (AdmissionRequest.profile r) = Ok current ∧
    a ∈ RequestAuthorizationCeiling.authorized_legs (AdmissionRequest.authorization_ceiling r) ∧
    b ∈ RequestAuthorizationCeiling.authorized_legs current ∧
    LegFacts.contracts a leg ∧ AuthorizedLeg.intersection leg b = Some leg ∧
    m ≤ RequestAuthorizationCeiling.max_concurrency (AdmissionRequest.authorization_ceiling r) ∧
    m ≤ RequestAuthorizationCeiling.max_concurrency current ∧
    ∃ cause view context, c = RouteEngine.candidate leg cause (Some view) ∧
      RoutingFacts.eligible_for gate (Environment.route_engine env) leg
        (AdmissionRequest.profile r) cause view context ∧
      RoutingContext.deadline_at_ms context ≤ AdmissionRequest.deadline_at_ms r;
}.

Lemma licensed_of env k w ceiling cause view context barred c :
  waiter_ok k w → in_force env w ceiling →
  RouteEngine.select gate (Environment.route_engine env) ceiling
    (AdmissionRequest.profile (Waiter.request w)) cause view context barred = Some c →
  RoutingContext.deadline_at_ms context ≤ AdmissionRequest.deadline_at_ms (Waiter.request w) →
  licensed env (Waiter.request w) (RequestAuthorizationCeiling.max_concurrency ceiling) c.
Proof.
  intros Hok Hf Hs Hd. split; [apply Hf|].
  pose proof Hok as [_ Hwf Hl Hm _]. pose proof Hf as [_ (cur & Ha & Hc)].
  pose proof (authorize_wf _ _ _ _ Ha) as Hcur.
  assert (RequestAuthorizationCeiling.same_admitted_identity (Waiter.effective_ceiling w) cur = true)
    as Hsame.
  { unfold RequestAuthorizationCeiling.intersection in Hc. inv_ok_step Hc. by bprop. }
  destruct (CeilingFacts.ceiling_intersection_wf _ _ Hwf Hcur Hsame)
    as (c' & Hc' & _ & Hl' & _ & _ & _ & _ & _ & _ & Hm' & _).
  rewrite Hc in Hc'. injection Hc' as <-.
  apply RoutingFacts.select_Some in Hs as (_ & l1 & leg & l2 & El & -> & _ & He & _).
  assert (leg ∈ RequestAuthorizationCeiling.authorized_legs ceiling) as Hin.
  { rewrite El, elem_of_app. right. left. }
  rewrite Hl' in Hin. apply CeilingFacts.elem_of_intersect_legs in Hin as (a & b & Hia & Hib & Hab);
    [|apply Hcur].
  destruct (Hl a Hia) as (a0 & Ha0 & Hc0). exists cur, a0, b, leg. split_and!; try done; try lia.
  - eapply LegFacts.leg_contracts_trans; [done|]. by eapply LegFacts.leg_intersection_contracts.
  - by eapply LegFacts.leg_intersection_again.
  - by exists cause, view, context.
Qed.

(** ** The gate *)
Lemma enter_gate_Ok s s' : enter_gate publication s = (s', Ok tt) →
  narrowed s s' ∧ active_by_key s' = active_by_key s ∧ waiters s' = waiters s ∧
  futures s' = futures s.
Proof.
  intros [= <-]. destruct s. split_and!; [|done..]. intros Hs. split; by eauto.
Qed.

Lemma authorization_Some k s s' c : preview_authorization k s = (s', Ok (Some c)) →
  ∃ w, dget k (waiters s) = Some w ∧ in_force (environment s) w c ∧
    s' = s{{ waiters ::= dset k (contraction k w c) }}.
Proof.
  unfold preview_authorization, catch.
  destruct ((authorization ← current_authorization k; mret (Some authorization)) s)
    as [s1 [a|e]] eqn:E.
  - intros [= <- ->]. apply M_bind_Ok in E as (s2 & c' & H & [= <- <-]). by apply current_cases in H.
  - destruct (unavailable e); [|done]. intros (s2 & [] & _ & [=])%M_bind_Ok.
Qed.

Lemma context_Ok w s s' x : routing_context clock w s = (s', Ok x) →
  RoutingContext.deadline_at_ms x = Waiter.effective_deadline_at_ms w.
Proof.
  intros (s1 & now & _ & [= _ H])%M_bind_Ok. unfold RoutingContext.validate in H.
  inv_ok H. by subst x.
Qed.

(** A dispatched turn: the request is gone from the waiters, the lease holds the
    selected candidate, the permit is taken, and the leg is licensed by the
    environment the gate granted. *)
Definition dispatched (k : string) (lease : DispatchLease) (s s' : t) : Prop :=
  dget k (waiters s') = None ∧
  ∃ w c a m, dget k (waiters s) = Some w ∧
    lease = DispatchLease.mk (Candidate.account_id c) c a k (Some (Waiter.key_id w)) false ∧
    licensed (environment s') (Waiter.request w) m c ∧
    delivered k (Waiter.key_id w) m lease s s'.

Definition turn_ok (s s' : t) (r : turn) : Prop :=
  narrowed s s' ∧ permits_ok s' ∧
  match r with
  | Dispatched k lease => dispatched k lease s s'
  | _ => ∀ k', active_count k' s' = active_count k' s
  end.

Lemma delivered_from k key m lease s0 s s' : dget k (futures s) = dget k (futures s0) →
  active_by_key s = active_by_key s0 → delivered k key m lease s s' → delivered k key m lease s0 s'.
Proof. intros Hf Ha. unfold delivered, active_count. by rewrite Hf, Ha. Qed.

Lemma under_gate_turn k excluded sel cands barred s s' r : indexed s → permits_ok s →
  QueueEntry.request_id (QueueSelection.entry sel) = k →
  under_gate rd pd sd sha256 gate io clock mint publication k excluded sel cands barred s
    = (s', Ok r) →
  turn_ok s s' r ∧ (∀ k' lease, r = Dispatched k' lease → k' = k).
Proof.
  intros Hix Hp Hk (s1 & [] & (N1 & A1 & W1 & F1)%enter_gate_Ok & H)%M_bind_Ok.
  assert (∀ s2, outer s1 s2 → turn_ok s s2 (Again excluded) ∧ turn_ok s s2 (Again (k :: excluded))) as Hagain.
  { intros s2 (N2 & A2 & _). assert (permits_ok s2) by (unfold permits_ok; by rewrite A2, A1).
    unfold turn_ok, active_count. rewrite A2, A1. split; (split_and!; [by etrans|done|done]). }
  apply M_bind_Ok in H as (s2 & [ceiling|] & P & H).
  2: { apply outer_authorization in P. injection H as <- <-. split; [by apply Hagain|done]. }
  pose proof (outer_authorization _ _ _ _ P) as O2.
  apply authorization_Some in P as (w & Hw & Hf & E2).
  set (w2 := contraction k w ceiling) in *.
  assert (dget k (waiters s2) = Some w2 ∧ futures s2 = futures s1 ∧ Waiter.request w2 = Waiter.request w)
    as (Hw2 & F2 & R2).
  { subst s2 w2. destruct s1, w; cbn. split_and!; [apply dget_dset_eq|done..]. }
  assert (waiter_ok k w2) as Hok2.
  { eapply contraction_ok; [done|]. apply Hix. by rewrite <-W1. }
  clearbody w2. clear E2.
  apply M_bind_Ok in H as (s3 & now & Q3%quiet_now & H).
  apply M_bind_Ok in H as (s3' & w3 & Hw3 & H). apply waiter_of_Ok in Hw3 as [-> Hw3].
  assert (w3 = w2) as -> by (destruct Q3 as (E & _); rewrite E in Hw3; congruence).
  pose proof (transitivity O2 (quiet_outer _ _ Q3)) as O3.
  destruct (_ <=? now).
  { apply M_bind_Ok in H as (s4 & [] & P%outer_fail & [= <- <-]).
    split; [apply Hagain; by etrans|done]. }
  apply M_bind_Ok in H as (s4 & cause & [= <- _] & H).
  apply M_bind_Ok in H as (s4 & [] & U & H).
  pose proof (outer_fallback _ _ _ _ _ U) as O4. pose proof (transitivity O3 O4) as O. clear O3 O4.
  apply (update_waiter_at _ _ _ _ _ _ Hw3) in U as [U _].
  set (w4 := w2{{ Waiter.fallback_once ::= _ }}) in *.
  assert (dget k (waiters s4) = Some w4 ∧ futures s4 = futures s3 ∧ Waiter.request w4 = Waiter.request w)
    as (Hw4 & F4 & R4).
  { rewrite U. subst w4. destruct s3, w2; cbn in *. split_and!; [apply dget_dset_eq|done..]. }
  apply M_bind_Ok in H as (s5 & view & Q5%quiet_view & H).
  apply M_bind_Ok in H as (s6 & [] & Q6%quiet_sync & H).
  apply M_bind_Ok in H as (s7 & ctx & X & H).
  pose proof (context_Ok _ _ _ _ X) as Hctx. apply quiet_context in X.
  pose proof (transitivity Q5 (transitivity Q6 X)) as Q. clear Q5 Q6 X.
  pose proof (transitivity O (quiet_outer _ _ Q)) as O7.
  apply M_bind_Ok in H as (s8 & s8' & [= <- <-] & H).
  destruct (RouteEngine.select _ _ _ _ _ _ _ _) as [c|] eqn:Hsel.
  2: { injection H as <- <-. split; [by apply Hagain|done]. }
  destruct (_ || _).
  { injection H as <- <-. split; [by apply Hagain|done]. }
  assert (narrowed s s7) as N7 by (etrans; [exact N1|apply O7]).
  assert (active_by_key s7 = active_by_key s) as A7 by (rewrite <-A1; apply O7).
  assert (permits_ok s7) as Hp7 by (unfold permits_ok; by rewrite A7).
  apply dispatch_turn in H as ([N8 E8] & Hp8 & Ho); [|apply N7, Hix|done|done].
  assert (dget k (waiters s7) = Some w4 ∧ futures s7 = futures s) as [Hw7 F7].
  { destruct Q as (-> & -> & _), Q3 as (_ & F3 & _). split; congruence. }
  assert (environment s' = environment s1) as E1 by (rewrite E8; apply O7).
  destruct r as [|l|k' lease]; [done| |].
  { destruct Ho as [_ Hc]. split; [|done]. split_and!; [by etrans|done|].
    intros k'. rewrite Hc. unfold active_count. by rewrite A7. }
  destruct Ho as (-> & Hgone & w' & a & Hw' & Hlease & Hd).
  rewrite Hw7 in Hw'. injection Hw' as <-.
  assert (Waiter.key_id w4 = Waiter.key_id w) as Hkey by (unfold Waiter.key_id; by rewrite R4).
  rewrite Hkey in *. split; [|by intros ? ? [= <- _]].
  split_and!; [by etrans|done|]. split; [done|].
  exists w, c, a, (RequestAuthorizationCeiling.max_concurrency ceiling).
  rewrite W1 in Hw. split_and!; [done|done| |by eapply delivered_from; [rewrite F7|..]].
  rewrite E1. assert (environment s7 = environment s1) as E7 by apply O7. rewrite E7 in Hsel.
  eapply licensed_of; [by apply Hix|done|by rewrite <-R2|].
  rewrite Hctx, <-R2. apply Hok2.
Qed.

(** ** Turns and pumps *)
Lemma turn_ok_outer s0 s s' r : indexed s0 → outer s0 s → turn_ok s s' r → turn_ok s0 s' r.
Proof.
  intros Hix (N & A & E) (N' & P & H). split_and!; [by etrans|done|].
  destruct r as [|l|k lease].
  - intros k'. rewrite H. unfold active_count. by rewrite A.
  - intros k'. rewrite H. unfold active_count. by rewrite A.
  - destruct H as (Hgone & w & c & a & m & Hw & Hl & Hli & Hd). split; [done|].
    destruct (nr_requests _ _ (N Hix) _ _ Hw) as (w0 & Hw0 & Hr). rewrite Hr in Hli.
    assert (Waiter.key_id w = Waiter.key_id w0) as Hk by (unfold Waiter.key_id; by rewrite Hr).
    rewrite Hk in *. exists w0, c, a, m. split_and!; try done.
    eapply delivered_from; [|exact A|exact Hd]. apply (nr_futures _ _ (N Hix)).
    apply dget_is_Some. by eexists.
Qed.

Lemma pump_turn_ok excluded s s' r : indexed s → permits_ok s →
  pump_turn rd pd sd sha256 gate io clock mint publication excluded s = (s', Ok r) →
  turn_ok s s' r.
Proof.
  intros Hix Hp (s1 & found & O1%outer_previews & H)%M_bind_Ok.
  assert (permits_ok s1) as Hp1 by (unfold permits_ok; destruct O1 as (_ & -> & _); done).
  assert (indexed s1) as Hix1 by (apply O1, Hix).
  apply (turn_ok_outer s s1); [done..|]. clear Hix Hp O1 s.
  assert (∀ l, turn_ok s1 s1 (Again l)) as Hagain by done.
  apply M_bind_Ok in H as (s2 & s2' & [= <- <-] & H).
  apply M_bind_Ok in H as (s2 & [sel|] & [= <- _] & H); [|by injection H as <- <-].
  apply M_bind_Ok in H as (s2 & w & Hw & H). apply waiter_of_Ok in Hw as [-> _].
  apply M_bind_Ok in H as (s2 & cands & [= <- _] & H).
  apply M_bind_Ok in H as (s2 & own & [= <- _] & H).
  cbv zeta in H. case_bool_decide; [injection H as <- <-; apply Hagain|].
  by eapply under_gate_turn in H as [? _].
Qed.
End Turns.
End TurnFacts.
