(* ===== verification/AdmissionProps.v ===== *)
(** * The admission controller: theorems

    The invariant every call keeps whether it raises or not, what a dispatch rests
    on, and how the pump spends the active permits. *)
From S2P Require Export AdmissionTurns.
From S2P Require Import QueueFacts RoutingProps.
#[local] Open Scope Z_scope.

Module AdmissionInv.
Import AdmissionController Admission AdmissionFacts TurnFacts.

(** What every call but an admission does to the stores, raising or not. *)
Definition tame (s s' : t) : Prop :=
  indexed s → narrowing s s' ∧ (permits_ok s → permits_ok s').
#[export] Instance tame_preorder : PreOrder tame.
Proof.
  split; [intros s Hs; split; [by apply narrowed_preorder|done]|].
  intros s1 s2 s3 T1 T2 Hix. destruct (T1 Hix) as [N1 P1].
  destruct (T2 (nr_indexed _ _ N1)) as [N2 P2]. split; [|auto].
  apply (transitivity (R := narrowed) (y := s2)); by intros _ || done.
Qed.
Lemma outer_tame s s' : outer s s' → tame s s'.
Proof. intros (N & A & _) Hix. split; [by apply N|]. unfold permits_ok. by rewrite A. Qed.
Lemma keeps_tame {A} (m : M t A) : keeps outer m → keeps tame m.
Proof. apply keeps_weaken, outer_tame. Qed.
#[local] Hint Resolve keeps_tame : keeps.

Lemma tame_release k : keeps tame (release_active k).
Proof.
  intros s s' r H Hix. split; [by eapply steady_release|]. intros Hp.
  injection H as <- _. destruct s as [e0 r0 mx q ws ac fu bu cr mi ga], Hp as [Hd Hv]; cbn in *.
  unfold permits_ok; cbn [active_by_key]. destruct (_ <=? 1) eqn:E; bprop.
  - split; [by apply dict_ok_ddel|]. intros k' v. rewrite dget_ddel by done.
    case_decide; [done|by apply Hv].
  - split; [by apply dict_ok_dset|]. intros k' v. rewrite dget_dset.
    case_decide; [intros [= <-]; lia|by apply Hv].
Qed.
Lemma tame_acquire k m : keeps tame (acquire_active k m).
Proof.
  intros s s' [b|e] H Hix.
  - apply acquire_cases in H as ([N _] & _ & _ & _ & Hb). split; [by apply N|]. intros Hp.
    destruct b; [|by subst]. destruct Hb as [_ Hb]. pose proof (count_nonneg k s Hp).
    eapply permits_dset; [exact Hp| |exact Hb]. lia.
  - unfold acquire_active in H. apply M_bind_Err in H as [[=]|(s1 & s0 & [= <- <-] & H)].
    by destruct (m <=? _).
Qed.
Lemma tame_gate publication : keeps tame (enter_gate publication).
Proof.
  intros s s' r H. assert (r = Ok tt) as -> by by injection H as _ <-.
  apply enter_gate_Ok in H as (N & A & _). intros Hix. split; [by apply N|]. unfold permits_ok. by rewrite A.
Qed.
Lemma tame_commit sel : keeps tame (commit sel).
Proof.
  apply keeps_read. intros s s' r H.
  apply M_bind_cases in H as [(s1 & q & [= <- Hc] & [= <- _])|(e & [= <- _] & _)]; [|done].
  apply QueueInv.commit_Ok in Hc as (_ & _ & ->). set (k := QueueEntry.request_id _).
  destruct s as [e0 r0 mx [mh qd fa ns ve] ws ac fu bu cr mi ga].
  intros (Hd & Hn & Ha & Ho & Hp). split; [|done]. unfold queue_ids in *; cbn in *.
  split; cbn; [|by eauto|done..]. unfold indexed, queue_ids; cbn. split_and!; try done.
  - by apply dict_ok_ddel.
  - intros k' Hk'. apply Ha. eapply elem_of_sublist; [exact Hk'|]. apply fmap_sublist, ddel_sublist.
Qed.
#[local] Hint Resolve tame_release tame_acquire tame_gate tame_commit : keeps.

Section Tame.
Context {safe : SafeSnapshot OwnerSnapshot}.
Context (rd : Z → Payload → string → string).
Context (pd : RequestProfile → string) (sd : AttemptResolution → string).
Context (sha256 : bytes → bytes).
Context (gate : AuthorizedLeg → string → result bool).
Context (io : JournalIO) (clock : nat → Z) (mint : nat → string).
Context (publication : nat → Environment → Environment).
#[local] Hint Resolve quiet_now quiet_mint quiet_on_runtime quiet_on_budget quiet_waiter_of
  quiet_view quiet_context quiet_abandon quiet_lease_finish quiet_reserve quiet_dispatched
  quiet_sync outer_fallback outer_fail outer_contract outer_authorization outer_previews : keeps.

Lemma tame_release_lease l : keeps tame (release l).
Proof. unfold release. keeps. Qed.
#[local] Hint Resolve tame_release_lease : keeps.
Lemma tame_finish l r : keeps tame (finish rd sd io clock l r).
Proof. unfold finish. keeps. Qed.
#[local] Hint Resolve tame_finish : keeps.
Lemma tame_cancel_before_send l : keeps tame (cancel_before_send rd sd sha256 io clock l).
Proof. unfold cancel_before_send. keeps. Qed.
Lemma tame_fail_before_send l : keeps tame (fail_before_send rd sd sha256 io clock l).
Proof. unfold fail_before_send. keeps. Qed.
Lemma tame_send k key a c sel : keeps tame (send rd sd sha256 io clock k key a c sel).
Proof. unfold send. keeps. Qed.
#[local] Hint Resolve tame_cancel_before_send tame_fail_before_send tame_send : keeps.

(** The delivery of a request that waits no longer. *)
Lemma tame_deliver k lease s s' r : dget k (waiters s) = None →
  deliver rd sd sha256 io clock k lease s = (s', r) → tame s s'.
Proof.
  intros Hk [(s1 & s1' & [= <- <-] & H)|(e & [=] & _)]%M_bind_cases.
  assert (set_future k (Done lease) s = (s', r) → tame s s') as Hset.
  { intros [[N _] A]%(steady_future _ _ _ _ _ Hk) Hix. split; [by apply N|].
    unfold permits_ok. by rewrite A. }
  destruct (dget k (futures s)) as [[]|]; try (by apply Hset).
  enough (keeps tame (cancel_before_send rd sd sha256 io clock lease;; mret tt)) as Hc by by eapply Hc.
  keeps.
Qed.

(** A cancelled caller. *)
Lemma tame_withdraw k : keeps tame (withdraw rd sd sha256 io clock k).
Proof.
  unfold withdraw. apply keeps_read. intros s s' r H.
  apply M_bind_cases in H as [(s1 & [] & H1 & H)|(e & H1 & _)]; cycle 1.
  { by destruct (dmem k (waiters s)). }
  assert (waiters s1 = ddel k (waiters s) ∧
    WDRRQueue.queued (queue s1) = (if dmem k (waiters s) then ddel k (WDRRQueue.queued (queue s))
                                   else WDRRQueue.queued (queue s)) ∧
    futures s1 = futures s ∧ active_by_key s1 = active_by_key s ∧
    max_waiters_global s1 = max_waiters_global s) as (W & Q & F & A & B).
  { destruct (dmem k (waiters s)) eqn:E; injection H1 as <-.
    - destruct s; cbn. split_and!; try done. apply cancel_queued.
    - split_and!; try done. symmetry. by apply ddel_absent, dmem_false. }
  clear H1. intros Hix. pose proof Hix as (Hd & Hn & Hi & _).
  assert (tame s s1) as T1.
  { intros _. split; [|unfold permits_ok; by rewrite A].
    apply (indexed_drop _ _ k); [done| |by rewrite F|done|done].
    destruct (dmem k (waiters s)) eqn:E; [done|]. rewrite Q. symmetry.
    apply ddel_absent, dget_None. intros Hk%Hi. apply dget_is_Some in Hk as [w Hw].
    apply dmem_false in E. congruence. }
  assert (dget k (waiters s1) = None) as Hgone by (rewrite W; by apply dget_ddel_eq).
  enough (tame s1 s') as T by by apply (transitivity T1 T).
  apply M_bind_cases in H as [(s2 & s3 & [= <- <-] & H)|(e & [=] & _)].
  assert (set_future k Cancelled s1 = (s', r) → tame s1 s') as Hset.
  { intros [[N _] A1]%(steady_future _ _ _ _ _ Hgone) Hix1. split; [by apply N|].
    unfold permits_ok. by rewrite A1. }
  destruct (dget k (futures s1)) as [[|l|e|]|];
    [by apply Hset| |by injection H as <- _|by injection H as <- _|by apply Hset].
  destruct (terminal l s1); [by injection H as <- _|].
  enough (keeps tame (cancel_before_send rd sd sha256 io clock l;; mret tt)) as Hc by by eapply Hc.
  keeps.
Qed.

(** From the send to the delivery. *)
Lemma tame_settle k key a c sel lease (r : turn) :
  QueueEntry.request_id (QueueSelection.entry sel) = k →
  keeps tame (send rd sd sha256 io clock k key a c sel;;
    modify (λ s : t, s{{ waiters ::= ddel k }});;
    deliver rd sd sha256 io clock k lease;; mret r).
Proof.
  intros Hk s s' r' [(s1 & [] & H1 & H)|(e & H1 & _)]%M_bind_cases; [|by eapply tame_send].
  intros Hix. destruct (tame_send _ _ _ _ _ _ _ _ H1 Hix) as [N1 P1].
  apply send_Ok in H1 as (W1 & F1 & A1 & E1 & M1 & Q1); [|done].
  apply M_bind_cases in H as [(s2 & [] & M & H)|(e & [=] & _)].
  assert (waiters s2 = ddel k (waiters s1) ∧ futures s2 = futures s1 ∧ queue s2 = queue s1 ∧
    active_by_key s2 = active_by_key s1 ∧ max_waiters_global s2 = max_waiters_global s1)
    as (W2 & F2 & Q2 & A2 & M2) by (injection M as <-; by destruct s1).
  clear M. assert (tame s s2) as T2.
  { intros _. split; [|intros Hp; apply P1 in Hp; unfold permits_ok in *; by rewrite A2].
    apply (indexed_drop _ _ k); [congruence|congruence| |congruence|done].
    intros k' _. by rewrite F2, F1. }
  assert (dget k (waiters s2) = None) as Hgone by (rewrite W2, W1; apply dget_ddel_eq, Hix).
  enough (tame s2 s') as T by by apply (transitivity T2 T).
  apply M_bind_cases in H as [(s3 & [] & H & [= <- _])|(e & H & _)];
    by eapply tame_deliver.
Qed.
#[local] Hint Extern 0 (keeps tame (send _ _ _ _ _ _ _ _ _ _ ≫= _)) =>
  apply tame_settle; assumption : keeps.

Lemma tame_dispatch k excluded auth sel c : QueueEntry.request_id (QueueSelection.entry sel) = k →
  keeps tame (dispatch rd pd sd sha256 io clock mint k excluded auth sel c).
Proof.
  intros Hk. unfold dispatch. keeps.
Qed.
#[local] Hint Resolve tame_dispatch : keeps.
Lemma tame_under_gate k excluded sel cands barred : QueueEntry.request_id (QueueSelection.entry sel) = k →
  keeps tame (under_gate rd pd sd sha256 gate io clock mint publication k excluded sel cands barred).
Proof. intros Hk. unfold under_gate. keeps. Qed.
#[local] Hint Resolve tame_under_gate : keeps.
Lemma tame_pump_turn excluded :
  keeps tame (pump_turn rd pd sd sha256 gate io clock mint publication excluded).
Proof. unfold pump_turn. keeps. Qed.
#[local] Hint Resolve tame_pump_turn : keeps.
Lemma tame_pump_loop fuel excluded :
  keeps tame (pump_loop rd pd sd sha256 gate io clock mint publication fuel excluded).
Proof. revert excluded. induction fuel as [|fuel IH]; cbn; intros excluded; keeps. Qed.

Lemma dget_fmap {V W} (f : V → W) k (d : dict string V) :
  dget k ((λ p, (p.1, f p.2)) <$> d) = f <$> dget k d.
Proof. induction d as [|[k' v] d IH]; cbn; [done|]. by case_decide. Qed.
(** Updating every waiter. *)
Lemma tame_map f s s' : waiters s' = (λ p, (p.1, f p.2)) <$> waiters s →
  queue s' = queue s → futures s' = futures s → active_by_key s' = active_by_key s →
  max_waiters_global s' = max_waiters_global s →
  (∀ w, Waiter.request (f w) = Waiter.request w) →
  (∀ k w, waiter_ok k w → waiter_ok k (f w)) → tame s s'.
Proof.
  intros Hw Hq Hf Ha Hm Hr Hok (Hd & Hn & Hi & Ho & Hp).
  split; [|unfold permits_ok; by rewrite Ha].
  assert (dkeys (waiters s') = dkeys (waiters s)) as Hk.
  { rewrite Hw. unfold dkeys. by rewrite <-list_fmap_compose. }
  assert (∀ k w', dget k (waiters s') = Some w' → ∃ w, dget k (waiters s) = Some w ∧ w' = f w) as Hg.
  { intros k w'. rewrite Hw, dget_fmap. intros (w & ? & ->)%fmap_Some. eauto. }
  split; [| |by rewrite Hf|by rewrite Hw, length_fmap|done].
  - unfold indexed, queue_ids, dict_ok. rewrite Hk, Hq, Hf. split_and!; try done.
    intros k w' (w & Hw' & ->)%Hg. by apply Hok, Ho.
  - intros k w' (w & Hw' & ->)%Hg. eauto.
Qed.
Lemma tame_forgotten s :
  tame s (s{{ waiters ::= fmap (λ p, (p.1, p.2{{ Waiter.fallback_once := None }})) }}).
Proof.
  apply (tame_map (λ w, w{{ Waiter.fallback_once := None }}));
    first [by destruct s | by intros [] | by intros ? [] []; split].
Qed.
Lemma tame_pump fuel : keeps tame (pump rd pd sd sha256 gate io clock mint publication fuel).
Proof.
  unfold pump. apply keeps_seq; [apply _| |intros; apply tame_pump_loop].
  apply keeps_modify, tame_forgotten.
Qed.
#[local] Hint Resolve tame_pump : keeps.

Lemma tame_shadow r : keeps tame
  (try_acquire_shadow rd pd sd gate io clock mint publication r).
Proof.
  unfold try_acquire_shadow. keeps.
  apply keeps_tame, keeps_outer, keeps_modify. by intros [].
Qed.

(** ** Admission *)
Record sound (s : t) : Prop := {
  so_indexed : indexed s;
  so_permits : permits_ok s;
  so_bound : Z.of_nat (length (waiters s)) ≤ max_waiters_global s;
}.
Lemma tame_sound s s' : tame s s' → sound s → sound s'.
Proof.
  intros T [I P B]. destruct (T I) as [[I' _ _ L M] P']. split; [done|auto|]. rewrite M. lia.
Qed.

(** A new request enters the stores. *)
Lemma sound_insert k w q s s' : sound s → dget k (waiters s) = None → waiter_ok k w →
  Z.of_nat (length (waiters s)) < max_waiters_global s →
  waiters s' = dset k w (waiters s) → futures s' = dset k Pending (futures s) →
  active_by_key s' = active_by_key s → max_waiters_global s' = max_waiters_global s →
  queue s' = q → (q = queue s ∨ ∃ i, dget k (WDRRQueue.queued (queue s)) = None ∧
    WDRRQueue.queued q = WDRRQueue.queued (queue s) ++ [(k, i)]) →
  sound s'.
Proof.
  intros [(Hd & Hn & Hi & Ho & Hp) P B] Hk Hok Hlt Hw Hf Ha Hm <- Hq.
  assert (∀ k', k' ∈ dkeys (waiters s') ↔ k' = k ∨ k' ∈ dkeys (waiters s)) as Hks.
  { intros k'. rewrite Hw. apply elem_of_dkeys_dset. }
  split; [split_and!| |].
  - rewrite Hw. by apply dict_ok_dset.
  - destruct Hq as [E|(i & Hnew & E)]; unfold queue_ids; rewrite E; [done|].
    unfold dkeys. rewrite fmap_app. apply NoDup_app. split_and!; [done| |apply NoDup_singleton].
    intros k' Hk' ->%list_elem_of_singleton. by apply dget_None in Hnew.
  - intros k'. rewrite Hks. destruct Hq as [E|(i & _ & E)]; unfold queue_ids; rewrite E; [by auto|].
    unfold dkeys at 1. rewrite fmap_app. intros [Hk'|Hk'%list_elem_of_singleton]%elem_of_app; auto.
  - intros k' w'. rewrite Hw, dget_dset. case_decide; [by intros [= <-]; subst|apply Ho].
  - intros k' [->|Hk']%Hks; rewrite Hf, dget_dset; [rewrite decide_True by done; by left|].
    case_decide; [by left|by apply Hp].
  - unfold permits_ok. by rewrite Ha.
  - rewrite Hw, Hm, length_dset_new by done. lia.
Qed.

Lemma keeps_tame_sound {A} (m : M t A) s s' r : keeps tame m → m s = (s', r) → sound s → sound s'.
Proof. intros Hm H. eapply tame_sound. by eapply Hm. Qed.

(** A guard passed, or the state as it was. *)
Ltac passed H G :=
  apply M_bind_cases in H as [(? & [] & [= <- G%raise_if_Ok] & H)|(? & [= <- _] & _)]; [|done].
(** A tame step, after which the invariant holds as before. *)
Ltac tame_step H Hs :=
  let Q := fresh "Q" in
  apply M_bind_cases in H as [(? & ? & Q & H)|(? & Q & _)];
  (eapply keeps_tame_sound in Hs; [|clear|exact Q]; [|solve [keeps]]); [|done]; clear Q.

(** What [take_in] puts in the stores. *)
Definition admitted (r : AdmissionRequest) (now : Z) : Waiter := {|
  Waiter.request := r;
  Waiter.effective_ceiling := AdmissionRequest.authorization_ceiling r;
  Waiter.admitted_at_ms := now;
  Waiter.effective_deadline_at_ms :=
    Z.min (AdmissionRequest.deadline_at_ms r)
      (now + RequestAuthorizationCeiling.deadline_ms (AdmissionRequest.authorization_ceiling r));
  Waiter.fallback_once := None;
  Waiter.state := WaiterState.QUEUED |}.
Lemma admitted_ok r now : CeilingFacts.wf (AdmissionRequest.authorization_ceiling r) →
  waiter_ok (AdmissionRequest.request_id r) (admitted r now).
Proof.
  intros Hwf. split; cbn; [done|done| |lia|lia]. intros l Hl. exists l. split; [done|].
  apply LegFacts.leg_contracts_refl. pose proof (CeilingFacts.wf_legs _ Hwf) as W.
  rewrite Forall_forall in W. by apply W.
Qed.

Lemma sound_admitted r now s s1 s' res (e : result WDRRQueue) :
  CeilingFacts.wf (AdmissionRequest.authorization_ceiling r) → sound s →
  dget (AdmissionRequest.request_id r) (waiters s) = None →
  Z.of_nat (length (waiters s)) < max_waiters_global s →
  s1 = s{{ waiters ::= dset (AdmissionRequest.request_id r) (admitted r now);
           futures ::= dset (AdmissionRequest.request_id r) Pending }} →
  (∀ q, e = Ok q → ∃ i, dget (AdmissionRequest.request_id r) (WDRRQueue.queued (queue s)) = None ∧
     WDRRQueue.queued q = WDRRQueue.queued (queue s) ++ [(AdmissionRequest.request_id r, i)]) →
  (q ← lift e; modify (λ s, s{{ queue := q }})) s1 = (s', res) → sound s'.
Proof.
  intros Hwf Hs Hk Hlt E He [(s3 & q & [= <- Hq] & [= <- _])|(x & [= <- _] & _)]%M_bind_cases.
  - eapply (sound_insert _ (admitted r now) q); try done; [by apply admitted_ok|..];
      rewrite ?E; try (by destruct s). right. by apply He.
  - eapply (sound_insert _ (admitted r now) (queue s)); try done; [by apply admitted_ok|..];
      rewrite ?E; try (by destruct s). by left.
Qed.

Lemma sound_admit r s s' res :
  CeilingFacts.wf (AdmissionRequest.authorization_ceiling r) →
  take_in io clock r s = (s', res) → sound s → sound s'.
Proof.
  intros Hwf H Hs. tame_step H Hs. tame_step H Hs. tame_step H Hs.
  apply M_bind_cases in H as [(s4 & s5 & [= <- <-] & H)|(e & [=] & _)].
  passed H G1. passed H G2. passed H G3. passed H G4. passed H G5.
  apply M_bind_cases in H as [(s4 & [] & Hv & H)|(e & Hv & _)]; cycle 1.
  { by destruct (Environment.auth_view _); injection Hv as <- _. }
  match type of Hv with _ ?s = _ =>
    assert (s4 = s) as -> by (by destruct (Environment.auth_view _); injection Hv as <- _) end.
  clear Hv. apply dmem_false in G3. bprop.
  apply M_bind_cases in H as [(s1 & [] & M & H)|(e & [=] & _)].
  eapply (sound_admitted r x0 x3 s1); [done..| | |exact H]; [by injection M|].
  intros q Hq. inv_ok_step Hq. apply QueueInv.enqueue_new in Hq as (Hn & Hq & _).
  apply QueueInv.post_init_Ok in G as (_ & _ & ->). cbn in Hn, Hq. eauto.
Qed.

(** ** The calls of the controller *)
Inductive call :=
| Acquire (r : AdmissionRequest)
| Wake
| Withdraw (request_id : string)
| Shadow (r : AdmissionRequest)
| Finish (lease : DispatchLease) (r : AttemptResolution)
| CancelBeforeSend (lease : DispatchLease)
| FailBeforeSend (lease : DispatchLease).

Definition perform (fuel : nat) (c : call) (s : t) : t :=
  match c with
  | Acquire r => (acquire rd pd sd sha256 gate io clock mint publication fuel r s).1
  | Wake => (wake rd pd sd sha256 gate io clock mint publication fuel s).1
  | Withdraw k => (withdraw rd sd sha256 io clock k s).1
  | Shadow r => (try_acquire_shadow rd pd sd gate io clock mint publication r s).1
  | Finish lease r => (finish rd sd io clock lease r s).1
  | CancelBeforeSend lease => (cancel_before_send rd sd sha256 io clock lease s).1
  | FailBeforeSend lease => (fail_before_send rd sd sha256 io clock lease s).1
  end.
Definition performed (fuel : nat) (calls : list call) (s : t) : t :=
  foldl (λ s c, perform fuel c s) s calls.

Definition call_ok (c : call) : Prop :=
  match c with
  | Acquire r => CeilingFacts.wf (AdmissionRequest.authorization_ceiling r)
  | _ => True
  end.

Lemma sound_state {A} (m : M t A) s : keeps tame m → sound s → sound (m s).1.
Proof. intros Hm. destruct (m s) as [s' r] eqn:E. by eapply keeps_tame_sound. Qed.

Lemma sound_perform fuel c s : call_ok c → sound s → sound (perform fuel c s).
Proof.
  destruct c as [r| |k|r|l r|l|l]; cbn; intros Hok Hs; [|apply sound_state; [|done]..].
  - destruct (acquire _ _ _ _ _ _ _ _ _ _ _ _) as [s' res] eqn:E. cbn.
    apply M_bind_cases in E as [(s1 & [] & H1 & H2)|(e & H1 & _)].
    + eapply keeps_tame_sound; [apply tame_pump|exact H2|]. by eapply sound_admit.
    + by eapply sound_admit.
  - apply tame_pump.
  - apply tame_withdraw.
  - apply tame_shadow.
  - apply tame_finish.
  - apply tame_cancel_before_send.
  - apply tame_fail_before_send.
Qed.

Lemma sound_init env runtime bound s : init env runtime bound = Ok s → sound s.
Proof.
  unfold init. intros H. inv_ok H. subst s. bprop.
  pose proof (QueueInv.wf_init _ _ G0) as Hq.
  assert (WDRRQueue.queued x0 = []) as E by (unfold WDRRQueue.init in G0; inv_ok G0; by subst).
  split; unfold indexed, permits_ok, queue_ids; cbn; [|by split; [apply NoDup_nil_2|]|lia].
  rewrite E. split_and!; first [by apply NoDup_nil_2|done|by intros ? ?%elem_of_nil].
Qed.
End Tame.
End AdmissionInv.

Module AdmissionTheorems.
Import AdmissionController Admission AdmissionFacts TurnFacts AdmissionInv.
Section AdmissionTheorems.
Context {safe : SafeSnapshot OwnerSnapshot}.
Context (rd : Z → Payload → string → string).
Context (pd : RequestProfile → string) (sd : AttemptResolution → string).
Context (sha256 : bytes → bytes).
Context (gate : AuthorizedLeg → string → result bool).
Context (io : JournalIO) (clock : nat → Z) (mint : nat → string).
Context (publication : nat → Environment → Environment).


(** The pump spends active permits one by one and never leaks one: a turn that
    returns without a dispatch, after a denial or an exclusion, leaves every key
    with the permits it had; a dispatch takes exactly one, of the client's key,
    which held fewer than the concurrency both the admitted ceiling and the
    current policy grant; and when the caller has gone meanwhile the permit is
    given back and the counts are as before. *)
Theorem permits_conserved excluded s s' r : sound s →
  pump_turn rd pd sd sha256 gate io clock mint publication excluded s = (s', Ok r) →
  match r with
  | Dispatched k lease => ∃ w current, dget k (waiters s) = Some w ∧
      RouteEngine.authorize (Environment.route_engine (environment s'))
        (AdmissionRequest.client (Waiter.request w))
        (AdmissionRequest.profile (Waiter.request w)) = Ok current ∧
      ((dget k (futures s) = Some Cancelled ∧ ∀ key, active_count key s' = active_count key s) ∨
       (dget k (futures s') = Some (Done lease) ∧
        active_count (Waiter.key_id w) s' = active_count (Waiter.key_id w) s + 1 ∧
        active_count (Waiter.key_id w) s' ≤ RequestAuthorizationCeiling.max_concurrency
          (AdmissionRequest.authorization_ceiling (Waiter.request w)) ∧
        active_count (Waiter.key_id w) s' ≤ RequestAuthorizationCeiling.max_concurrency current ∧
        ∀ key, key ≠ Waiter.key_id w → active_count key s' = active_count key s))
  | _ => ∀ key, active_count key s' = active_count key s
  end.
Proof.
  intros [Hix Hp _] H%pump_turn_ok; [|done..]. destruct H as (_ & _ & H).
  destruct r as [|l|k lease]; [done..|].
  destruct H as (_ & w & c & a & m & Hw & Hlease & [_ Hl] & Hd).
  destruct Hl as (cur & _ & _ & _ & Ha & _ & _ & _ & _ & Hm1 & Hm2 & _).
  exists w, cur. split_and!; [done..|]. unfold delivered in Hd.
  assert (dget k (futures s) = Some Pending ∨ dget k (futures s) = Some Cancelled) as Hf.
  { destruct Hix as (_ & _ & _ & _ & Hf). apply Hf, dget_is_Some. by eexists. }
  destruct Hf as [Hf|Hf]; rewrite Hf in Hd; [right|by left].
  destruct Hd as (Hlt & Hc & Hdone). split_and!; [by apply Hdone|..].
  - rewrite Hc, decide_True by done. done.
  - rewrite Hc, decide_True by done. lia.
  - rewrite Hc, decide_True by done. lia.
  - intros key Hne. rewrite Hc, decide_False by done. lia.
Qed.

(** C26. Whatever the calls and however they end, an exception included, the
    controller's stores stay sound: every queued entry has its waiter, every waiter
    is indexed by its request and has a future without a result, what a waiter may
    still use is a contraction of what it was admitted with and its deadline is no
    later, a key is counted only while it holds a permit, and the waiters are no
    more than the global bound. *)
Theorem admission_invariant env runtime bound s fuel calls :
  init env runtime bound = Ok s →
  (∀ r, Acquire r ∈ calls → CeilingFacts.wf (AdmissionRequest.authorization_ceiling r)) →
  sound (performed rd pd sd sha256 gate io clock mint publication fuel calls s).
Proof.
  intros H%sound_init Hc. revert s H. induction calls as [|c calls IH]; intros s Hs; [done|].
  apply IH; [intros r Hr; apply Hc; by right|]. apply sound_perform; [|done].
  destruct c as [r| |k|r|l r|l|l]; try done. apply Hc. by left.
Qed.
End AdmissionTheorems.
End AdmissionTheorems.
