(* ===== verification/AdmissionTermination.v ===== *)
(** * How long a pump runs

    Every turn of the pump that goes on dispatches a request, drops one, or
    excludes one, but the turn after which a denied request is retried with its
    fallback cause.  Without a retry a pump ends within a number of turns bounded
    by its waiters. *)
From S2P Require Export AdmissionProps.
From S2P Require Import QueueFacts.
#[local] Open Scope Z_scope.

Module ProgressFacts.
Import AdmissionController Admission AdmissionFacts TurnFacts AdmissionInv.

(** A proposal is one of the available requests. *)
Lemma proposed_available q eligible excluded sel :
  WDRRQueue.propose q eligible excluded = Ok (Some sel) →
  QueueEntry.request_id (QueueSelection.entry sel) ∉ excluded.
Proof.
  unfold WDRRQueue.propose. set (avail := WDRRQueue.available q eligible excluded).
  intros H. case_bool_decide; [done|].
  apply bind_Ok in H as ([top tier] & _ & H). cbv beta iota zeta in H.
  apply bind_Ok in H as (key & _ & H). apply bind_Ok in H as (quantum & _ & H).
  apply bind_Ok in H as (item & Hi & H). apply bind_Ok in H as (following & _ & H).
  injection H as <-. cbn. apply ChoiceFacts.oldest_Ok in Hi as [Hi _].
  apply ChoiceFacts.elem_of_key in Hi as [_ Hi]. apply ChoiceFacts.elem_of_class in Hi as [_ Hi].
  apply ChoiceFacts.elem_of_tier in Hi as [_ Hi].
  by apply QueueInv.elem_of_available in Hi as (_ & Hi & _).
Qed.

(** The turn leaves a denied request to its fallback cause, and excludes nothing. *)
Definition retried (excluded : list string) (s' : t) (r : turn) : Prop :=
  r = Again excluded ∧ ∃ k, (k ∉ excluded) ∧ retries k s'.

(** A turn that brings the end of the pump nearer. *)
Definition advanced (excluded : list string) (s s' : t) (r : turn) : Prop :=
  match r with
  | Stop => True
  | Again l => (l = excluded ∧ (length (waiters s') < length (waiters s))%nat) ∨
      ∃ k, l = k :: excluded ∧ (k ∉ excluded) ∧ k ∈ dkeys (waiters s)
  | Dispatched k lease => (length (waiters s') < length (waiters s))%nat
  end.
Definition progress (excluded : list string) (s s' : t) (r : turn) : Prop :=
  advanced excluded s s' r ∨ retried excluded s' r.

Lemma progress_narrowed excluded s0 s s' r : indexed s0 → narrowed s0 s →
  progress excluded s s' r → progress excluded s0 s' r.
Proof.
  intros Hix N [H|H]; [left|by right]. destruct (N Hix) as [_ R _ L _].
  destruct r as [|l|k lease]; cbn in *; [done| |lia].
  destruct H as [[-> H]|(k & -> & Hk & Hw)]; [left; split; [done|lia]|right].
  exists k. split_and!; [done|done|]. apply dget_is_Some in Hw as [w Hw].
  destruct (R _ _ Hw) as (w0 & Hw0 & _). apply dget_is_Some. by eexists.
Qed.

Lemma dget_length {V} k (d : dict string V) v : dget k d = Some v →
  (length (ddel k d) < length d)%nat.
Proof. intros H. rewrite (length_ddel k v d H). lia. Qed.

(** A failed waiter is gone. *)
Lemma fail_length k e s s' r : fail_waiter k e s = (s', r) → is_Some (dget k (waiters s)) →
  (length (waiters s') < length (waiters s))%nat.
Proof.
  intros [(s1 & [] & M & H)|(e' & [=] & _)]%M_bind_cases [w Hw].
  assert (waiters s1 = ddel k (waiters s)) as W by (injection M as <-; by destruct s).
  apply set_future_cases in H as (_ & Hs & _).
  assert (waiters s' = waiters s1) as -> by (destruct Hs as [->| ->]; by destruct s1).
  rewrite W. by eapply dget_length.
Qed.
Lemma authorization_None k s s' : preview_authorization k s = (s', Ok None) →
  is_Some (dget k (waiters s)) → (length (waiters s') < length (waiters s))%nat.
Proof.
  unfold preview_authorization, catch. intros H Hk.
  destruct ((authorization ← current_authorization k; mret (Some authorization)) s)
    as [s1 [a|e]] eqn:E.
  - injection H as <- ->. by apply M_bind_Ok in E as (s2 & c & _ & [=]).
  - apply M_bind_Err in E as [E|(s2 & c & _ & [=])]. apply current_cases in E.
    destruct (unavailable e); [|done]. apply M_bind_Ok in H as (s2 & [] & H & [= <-]).
    destruct E as [->|(w & w' & Hw & _ & _ & E)]; [by eapply fail_length|].
    assert (waiters s1 = dset k w' (waiters s)) as W by (subst s1; by destruct s).
    apply fail_length in H; [|rewrite W, dget_dset_eq; by eexists].
    assert (length (waiters s1) = length (waiters s)) as <-; [|done].
    rewrite W. rewrite (dset_perm_old _ _ _ _ Hw). cbn. symmetry. by apply (length_ddel k w).
Qed.

Section Progress.
Context {safe : SafeSnapshot OwnerSnapshot}.
Context (rd : Z → Payload → string → string).
Context (pd : RequestProfile → string) (sd : AttemptResolution → string).
Context (sha256 : bytes → bytes).
Context (gate : AuthorizedLeg → string → result bool).
Context (io : JournalIO) (clock : nat → Z) (mint : nat → string).
Context (publication : nat → Environment → Environment).

Lemma dispatch_progress k excluded auth sel c s s' r : indexed s → permits_ok s →
  QueueEntry.request_id (QueueSelection.entry sel) = k → (k ∉ excluded) →
  dispatch rd pd sd sha256 io clock mint k excluded auth sel c s = (s', Ok r) →
  progress excluded s s' r.
Proof.
  intros Hix Hp Hk Hex H. pose proof H as H0.
  apply dispatch_turn in H0 as ([N _] & _ & Ho); [|done..].
  destruct r as [|l|k' lease]; [done| |].
  2: { left. cbn. destruct Ho as (-> & Hgone & w & a & Hw & _).
    destruct (N Hix) as [(Hd' & _) R _ L _].
    assert (∀ x, x ∈ dkeys (waiters s') → x ∈ dkeys (ddel k (waiters s))) as Hsub.
    { intros x Hx. apply elem_of_dkeys_ddel; [apply Hix|].
      apply dget_is_Some in Hx as [v Hv]. split; [congruence|].
      destruct (R _ _ Hv) as (v0 & Hv0 & _). apply dget_is_Some. by eexists. }
    pose proof (submseteq_length _ _ (NoDup_submseteq _ _ Hd' Hsub)) as Hs.
    unfold dkeys in Hs. rewrite !length_fmap in Hs.
    pose proof (dget_length _ _ _ Hw). lia. }
  destruct Ho as [[-> | [-> Hr]] _]; [left; right|right].
  - exists k. split_and!; try done. apply dget_is_Some.
    apply M_bind_Ok in H as (s1 & w & Hw & _). apply waiter_of_Ok in Hw as [_ Hw]. by eexists.
  - split; [done|]. by exists k.
Qed.

Lemma under_gate_progress k excluded sel cands barred s s' r : indexed s → permits_ok s →
  QueueEntry.request_id (QueueSelection.entry sel) = k → (k ∉ excluded) →
  is_Some (dget k (waiters s)) →
  under_gate rd pd sd sha256 gate io clock mint publication k excluded sel cands barred s
    = (s', Ok r) →
  progress excluded s s' r.
Proof.
  intros Hix Hp Hk Hex Hin (s1 & [] & (N1 & A1 & W1 & F1)%enter_gate_Ok & H)%M_bind_Ok.
  apply (progress_narrowed _ s s1); [done..|].
  assert (indexed s1) as Hix1 by (by apply N1).
  assert (permits_ok s1) as Hp1 by (unfold permits_ok; by rewrite A1).
  rewrite <-W1 in Hin. clear Hix Hp N1 A1 W1 F1 s.
  apply M_bind_Ok in H as (s2 & [ceiling|] & P & H).
  2: { injection H as <- <-. left. left. split; [done|]. by eapply authorization_None. }
  pose proof (outer_authorization _ _ _ _ P) as O2.
  apply M_bind_Ok in H as (s3 & now & Q3%quiet_now & H).
  apply M_bind_Ok in H as (s3' & w3 & Hw3 & H). apply waiter_of_Ok in Hw3 as [-> Hw3].
  pose proof (transitivity O2 (quiet_outer _ _ Q3)) as O3.
  destruct (_ <=? now).
  { apply M_bind_Ok in H as (s4 & [] & P' & [= <- <-]). left. left. split; [done|].
    apply fail_length in P'; [|by eexists]. pose proof (nr_length _ _ (proj1 O3 Hix1)). lia. }
  assert (∀ s2, progress excluded s1 s2 (Again (k :: excluded))) as Hagain.
  { intros s0. left. right. exists k. split_and!; [done..|]. by apply dget_is_Some. }
  apply M_bind_Ok in H as (s4 & cause & [= <- _] & H).
  apply M_bind_Ok in H as (s4 & [] & U%outer_fallback & H).
  apply M_bind_Ok in H as (s5 & view & Q5%quiet_view & H).
  apply M_bind_Ok in H as (s6 & [] & Q6%quiet_sync & H).
  apply M_bind_Ok in H as (s7 & ctx & X%quiet_context & H).
  pose proof (transitivity O3 (transitivity U (quiet_outer _ _ (transitivity Q5 (transitivity Q6 X)))))
    as O7.
  apply M_bind_Ok in H as (s8 & s8' & [= <- <-] & H).
  destruct (RouteEngine.select _ _ _ _ _ _ _ _) as [c|]; [|by injection H as <- <-].
  destruct (_ || _); [by injection H as <- <-|].
  apply (progress_narrowed _ s1 s7); [done|apply O7|].
  assert (permits_ok s7) by (destruct O7 as (_ & A7 & _); unfold permits_ok; by rewrite A7).
  eapply (dispatch_progress k); [by apply O7|done|exact Hk|exact Hex|exact H].
Qed.

Lemma pump_turn_progress excluded s s' r : indexed s → permits_ok s →
  pump_turn rd pd sd sha256 gate io clock mint publication excluded s = (s', Ok r) →
  progress excluded s s' r.
Proof.
  intros Hix Hp (s1 & found & O1%outer_previews & H)%M_bind_Ok.
  assert (permits_ok s1) as Hp1 by (unfold permits_ok; destruct O1 as (_ & -> & _); done).
  assert (indexed s1) as Hix1 by (apply O1, Hix).
  apply (progress_narrowed _ s s1); [done|apply O1|]. clear Hix Hp O1 s.
  apply M_bind_Ok in H as (s2 & s2' & [= <- <-] & H).
  apply M_bind_Ok in H as (s2 & [sel|] & [= <- Hs] & H); [|injection H as <- <-; by left].
  apply proposed_available in Hs.
  apply M_bind_Ok in H as (s2 & w & Hw & H). apply waiter_of_Ok in Hw as [-> Hw].
  apply M_bind_Ok in H as (s2 & cands & [= <- _] & H).
  apply M_bind_Ok in H as (s2 & own & [= <- _] & H).
  cbv zeta in H. case_bool_decide.
  { injection H as <- <-. left. right. eexists. split_and!; [done..|].
    apply dget_is_Some. by eexists. }
  eapply under_gate_progress; [done|done|reflexivity|done|by eexists|exact H].
Qed.

(** ** The pump *)
(** The states its loop comes to, with what it excludes there. *)
Inductive reached (s0 : t) : list string → t → Prop :=
| reached_start : reached s0 [] s0
| reached_again excluded s s' l : reached s0 excluded s →
    pump_turn rd pd sd sha256 gate io clock mint publication excluded s = (s', Ok (Again l)) →
    reached s0 l s'
| reached_dispatched excluded s s' k lease : reached s0 excluded s →
    pump_turn rd pd sd sha256 gate io clock mint publication excluded s
      = (s', Ok (Dispatched k lease)) →
    reached s0 [] s'.

(** The waiters that may still be proposed, and the turns left without a retry. *)
Definition pending_waiters (excluded : list string) (s : t) : nat :=
  length (filter (λ k, k ∉ excluded) (dkeys (waiters s))).
Definition turns_left (excluded : list string) (s : t) : nat :=
  (length (waiters s) * S (length (waiters s)) + pending_waiters excluded s)%nat.

Lemma pending_bound excluded s : (pending_waiters excluded s ≤ length (waiters s))%nat.
Proof.
  unfold pending_waiters. rewrite length_filter. unfold dkeys. by rewrite length_fmap.
Qed.

(** Excluding a waiter leaves fewer. *)
Lemma pending_excluded k excluded s s' : sound s → sound s' → narrowed s s' →
  (k ∉ excluded) → k ∈ dkeys (waiters s) →
  (pending_waiters (k :: excluded) s' < pending_waiters excluded s)%nat.
Proof.
  intros Hs Hs' N Hk Hin. destruct (N (so_indexed _ Hs)) as [_ R _ _ _].
  assert (NoDup (k :: filter (λ x, x ∉ k :: excluded) (dkeys (waiters s')))) as Hd.
  { constructor; [rewrite list_elem_of_filter; set_solver|].
    apply NoDup_filter, (so_indexed _ Hs'). }
  apply (submseteq_length (k :: filter (λ x, x ∉ k :: excluded) (dkeys (waiters s')))).
  apply NoDup_submseteq; [done|]. intros x [->|Hx]%elem_of_cons; apply list_elem_of_filter; [done|].
  apply list_elem_of_filter in Hx as [Hx [v Hv]%dget_is_Some].
  split; [set_solver|]. destruct (R _ _ Hv) as (v0 & Hv0 & _). apply dget_is_Some. by eexists.
Qed.

Lemma turns_left_fewer excluded excluded' s s' :
  (length (waiters s') < length (waiters s))%nat →
  (turns_left excluded' s' < turns_left excluded s)%nat.
Proof. intros H. pose proof (pending_bound excluded' s'). unfold turns_left. nia. Qed.

Lemma pump_turn_sound excluded s s' r : sound s →
  pump_turn rd pd sd sha256 gate io clock mint publication excluded s = (s', r) → sound s'.
Proof. intros Hs H. eapply keeps_tame_sound; [apply tame_pump_turn|exact H|done]. Qed.

(** A turn that does not end the loop and is no retry leaves fewer turns. *)
Lemma turn_decreases excluded s s' r : sound s →
  pump_turn rd pd sd sha256 gate io clock mint publication excluded s = (s', Ok r) →
  retried excluded s' r ∨
  match r with
  | Stop => True
  | Again l => (turns_left l s' < turns_left excluded s)%nat
  | Dispatched _ _ => (turns_left [] s' < turns_left excluded s)%nat
  end.
Proof.
  intros Hs H. pose proof (pump_turn_sound _ _ _ _ Hs H) as Hs'.
  pose proof (pump_turn_ok _ _ _ _ _ _ _ _ _ _ _ _ _ (so_indexed _ Hs) (so_permits _ Hs) H)
    as (N & _ & _).
  apply pump_turn_progress in H as [H|H]; [right|by left|apply Hs..].
  destruct r as [|l|k lease]; [done| |by apply turns_left_fewer].
  destruct H as [[_ H]|(k & -> & Hk & Hin)]; [by apply turns_left_fewer|].
  pose proof (pending_excluded _ _ _ _ Hs Hs' N Hk Hin).
  pose proof (nr_length _ _ (N (so_indexed _ Hs))). unfold turns_left. nia.
Qed.

Lemma loop_bounded s0 fuel excluded s : sound s → reached s0 excluded s →
  (turns_left excluded s ≤ fuel)%nat →
  (pump_loop rd pd sd sha256 gate io clock mint publication fuel excluded s).2 ≠ Ok None ∨
  ∃ l s1 s2 r, reached s0 l s1 ∧
    pump_turn rd pd sd sha256 gate io clock mint publication l s1 = (s2, Ok r) ∧ retried l s2 r.
Proof.
  revert excluded s. induction fuel as [|fuel IH]; intros excluded s Hs Hr Hm;
    cbn [pump_loop]; unfold get at 1, mbind at 1, M_bind at 1; cbn beta iota;
    (case_bool_decide as Hw; [by left|]).
  { destruct Hw. unfold turns_left in Hm. destruct (waiters s); [done|cbn in Hm; lia]. }
  unfold mbind, M_bind. destruct (pump_turn _ _ _ _ _ _ _ _ _ _ _) as [s' [r|e]] eqn:H; [|by left].
  pose proof (pump_turn_sound _ _ _ _ Hs H) as Hs'.
  destruct (turn_decreases _ _ _ _ Hs H) as [Hret|Hlt].
  { right. by exists excluded, s, s', r. }
  destruct r as [|l|k lease]; [by left|..]; (apply IH; [done| |lia]).
  - by eapply reached_again.
  - by eapply reached_dispatched.
Qed.
End Progress.
End ProgressFacts.

(** ** The theorem *)
Module TerminationTheorems.
Import AdmissionController Admission AdmissionFacts TurnFacts AdmissionInv ProgressFacts.
Section TerminationTheorems.
Context {safe : SafeSnapshot OwnerSnapshot}.
Context (rd : Z → Payload → string → string).
Context (pd : RequestProfile → string) (sd : AttemptResolution → string).
Context (sha256 : bytes → bytes).
Context (gate : AuthorizedLeg → string → result bool).
Context (io : JournalIO) (clock : nat → Z) (mint : nat → string).
Context (publication : nat → Environment → Environment).

End TerminationTheorems.
End TerminationTheorems.
