(* ===== verification/AdmissionSamples.v ===== *)
(** * A concrete admission controller

    One account that may start one request a minute, one leg for the primary and
    the capacity cause, and two requests of one client. *)
From S2P Require Export AdmissionProps AdmissionTermination.
From S2P Require Import OwnerProps AuthProps RoutingProps.
From Stdlib Require Import Ascii.
#[local] Open Scope Z_scope.

Module AdmissionSamples.
Definition account : ProviderAccount :=
  (Samples.provider_account "1" (Samples.known 4) None)
    {{ ProviderAccount.rpm_limit := Samples.known 1 }}.
Definition leg : AuthorizedLeg :=
  (Samples.authorized "1" "1" 1 true)
    {{ AuthorizedLeg.allowed_triggers := [RouteTrigger.PRIMARY; RouteTrigger.CAPACITY_SPILL] }}.
Definition bundle : PolicyBundleV1 :=
  PolicyBundleV1.mk 1 1 "1.0" []
    [Samples.key_before]
    [KeyPolicyRevision.mk Samples.policy "default" [Samples.group] [leg] 0 8 4 8 60000]
    [account]
    [RouteGroupRevision.mk Samples.group "chat" ORDERED_CAPACITY
       [RouteLeg.mk (Samples.leg "1") 1 [RouteTrigger.PRIMARY; RouteTrigger.CAPACITY_SPILL]
          (Samples.account "1") Samples.generation (Samples.capabilities true)]]
    (Samples.hex64 "0d").
Definition engine : RouteEngine :=
  match RouteEngine.activate RoutingSamples.digest bundle with
  | Ok e => e
  | Err _ => RoutingSamples.engine
  end.
Definition view : AuthRuntimeView :=
  AuthRuntimeView.mk [(Samples.key, Samples.key_before)] 1 Samples.bundle_hash []
    [("v1", replicate 32 "p"%char)] [] 2500.
Definition environment : Environment := Environment.mk engine (Ok view).
Definition ceiling : RequestAuthorizationCeiling :=
  match RouteEngine.authorize engine RoutingSamples.client RoutingSamples.profile with
  | Ok c => c
  | Err _ => Samples.ceiling [] 8
  end.
Definition owner : Owner :=
  match OwnerSamples.init 1000 1000 86400000 OwnerSamples.nothing OwnerSamples.empty [account] with
  | Ok w => w
  | Err _ => OwnerSamples.start
  end.
Definition request (c : string) : AdmissionRequest :=
  AdmissionRequest.mk (Samples.request c) RoutingSamples.client RoutingSamples.profile ceiling
    AccountSamples.identity 50000 DispatchCause.PRIMARY (Samples.request c) None.

(** The time stands still: the pump does not wait for anything. *)
Definition clock (_ : nat) : Z := 2000.
Definition mint (n : nat) : string := Samples.attempt (match n with O => "1" | S _ => "2" end).
Definition publication (_ : nat) (e : Environment) : Environment := e.
Definition sha256 (b : bytes) : bytes := AuthSamples.digest [] b.

Definition perform := AdmissionInv.perform AccountSamples.record_digest AccountSamples.profile_digest
  AccountSamples.resolution_digest sha256 RoutingSamples.gate AccountSamples.io clock mint publication.
Definition pump_turn := Admission.pump_turn AccountSamples.record_digest AccountSamples.profile_digest
  AccountSamples.resolution_digest sha256 RoutingSamples.gate AccountSamples.io clock mint publication.
Definition start : AdmissionController :=
  match AdmissionController.init environment owner 64 with
  | Ok s => s
  | Err _ => AdmissionController.mk environment owner 64 (WDRRQueue.mk 64 [] 0 0 FairnessState.empty) [] [] [] [] 0 0 0
  end.
Definition take_in (r : AdmissionRequest) := Admission.take_in AccountSamples.io clock r.
Definition pump := Admission.pump AccountSamples.record_digest AccountSamples.profile_digest
  AccountSamples.resolution_digest sha256 RoutingSamples.gate AccountSamples.io clock mint publication.

(** The first request waits; it is dispatched; the second one is admitted. *)
Definition waiting : AdmissionController := (take_in (request "1") start).1.
Definition served : AdmissionController := perform 10 (AdmissionInv.Acquire (request "1")) start.
Definition stuck : AdmissionController := (take_in (request "2") served).1.

(** A state of the pump that found nothing: the counters move. *)
Definition spinning (reads attempts gates : nat) : AdmissionController :=
  (pump_turn [] stuck).1{{ AdmissionController.clock_reads := reads;
    AdmissionController.minted := S attempts; AdmissionController.gates := gates }}.

Definition pump_loop := Admission.pump_loop AccountSamples.record_digest
  AccountSamples.profile_digest AccountSamples.resolution_digest sha256 RoutingSamples.gate
  AccountSamples.io clock mint publication.
Definition forgotten (s : AdmissionController) : AdmissionController :=
  s{{ AdmissionController.waiters ::= fmap (λ p, (p.1, p.2{{ Waiter.fallback_once := None }})) }}.

Lemma loop_again fuel excluded s s' l : AdmissionController.waiters s ≠ [] →
  pump_turn excluded s = (s', Ok (Admission.Again l)) →
  pump_loop (S fuel) excluded s = pump_loop fuel l s'.
Proof.
  intros Hw Ht. unfold pump_loop, pump_turn in *. cbn [Admission.pump_loop].
  unfold get at 1, mbind at 1, M_bind at 1. cbn beta iota.
  rewrite bool_decide_eq_false_2 by done. unfold mbind, M_bind. by rewrite Ht.
Qed.
Lemma loop_out excluded s : AdmissionController.waiters s ≠ [] →
  (pump_loop 0 excluded s).2 = Ok None.
Proof.
  intros Hw. unfold pump_loop. cbn [Admission.pump_loop].
  unfold get, mbind, M_bind. cbn beta iota. by rewrite bool_decide_eq_false_2.
Qed.

Lemma stuck_turn : ∃ r a g,
  pump_turn [] (forgotten stuck) = (spinning r a g, Ok (Admission.Again [])).
Proof.
  exists (AdmissionController.clock_reads (pump_turn [] stuck).1), 1%nat,
    (AdmissionController.gates (pump_turn [] stuck).1).
  vm_compute. reflexivity.
Qed.
Lemma spinning_turn r a g : ∃ r', pump_turn [] (spinning r a g) =
  (spinning r' (S a) (S g), Ok (Admission.Again [])).
Proof. eexists. vm_compute. reflexivity. Qed.
Lemma spinning_waits r a g : AdmissionController.waiters (spinning r a g) ≠ [].
Proof. vm_compute. discriminate. Qed.
Lemma spinning_loop fuel r a g : (pump_loop fuel [] (spinning r a g)).2 = Ok None.
Proof.
  revert r a g. induction fuel as [|fuel IH]; intros r a g.
  - apply loop_out, spinning_waits.
  - destruct (spinning_turn r a g) as [r' H].
    by rewrite (loop_again _ _ _ _ _ (spinning_waits r a g) H).
Qed.
End AdmissionSamples.

Lemma start_init :
  AdmissionController.init AdmissionSamples.environment AdmissionSamples.owner 64 =
  Ok AdmissionSamples.start.
Proof. vm_compute. reflexivity. Qed.
Lemma requests_ok c : CeilingFacts.wf (AdmissionRequest.authorization_ceiling (AdmissionSamples.request c)).
Proof.
  apply (CeilingFacts.ceiling_validate_wf AdmissionSamples.ceiling). vm_compute. reflexivity.
Qed.

Lemma stuck_sound : AdmissionInv.sound AdmissionSamples.stuck.
Proof.
  destruct (AdmissionSamples.take_in (AdmissionSamples.request "2") AdmissionSamples.served)
    as [s r] eqn:E.
  unfold AdmissionSamples.stuck. rewrite E. cbn.
  eapply AdmissionInv.sound_admit; [apply (requests_ok "2")|exact E|].
  apply AdmissionInv.sound_perform; [apply (requests_ok "1")|].
  eapply AdmissionInv.sound_init, start_init.
Qed.

(** C38. The pump can spend every turn it is given without letting time or the
    queue move.  The account of the only leg has started its one request of the
    minute; the leg serves the primary and the capacity cause.  A second request
    waits, well before its deadline.  Each turn previews it, proposes it, is
    denied the reservation for the request rate, turns to the capacity cause for
    one turn, and excludes nothing; so with the clock at rest no number of turns
    ends the pump, which holds the pump lock meanwhile. *)
Theorem pump_livelock :
  dkeys (AdmissionController.waiters AdmissionSamples.stuck) = [Samples.request "2"] ∧
  AdmissionInv.sound AdmissionSamples.stuck ∧
  ∀ fuel, (AdmissionSamples.pump fuel AdmissionSamples.stuck).2 = Ok None.
Proof.
  split_and!; [by vm_compute| |].
  - apply stuck_sound.
  - intros fuel.
    change ((AdmissionSamples.pump_loop fuel [] (AdmissionSamples.forgotten AdmissionSamples.stuck)).2
      = Ok None).
    assert (AdmissionController.waiters (AdmissionSamples.forgotten AdmissionSamples.stuck) ≠ [])
      as Hw by (vm_compute; discriminate).
    destruct fuel as [|fuel]; [by apply AdmissionSamples.loop_out|].
    destruct AdmissionSamples.stuck_turn as (r & a & g & H).
    rewrite (AdmissionSamples.loop_again _ _ _ _ _ Hw H). apply AdmissionSamples.spinning_loop.
Qed.

(** The first request: its turn dispatches it. *)
Definition first_turn : AdmissionController * result Admission.turn :=
  AdmissionSamples.pump_turn [] AdmissionSamples.waiting.
Lemma waiting_sound : AdmissionInv.sound AdmissionSamples.waiting.
Proof.
  destruct (AdmissionSamples.take_in (AdmissionSamples.request "1") AdmissionSamples.start) as [s r] eqn:E.
  unfold AdmissionSamples.waiting. rewrite E. cbn.
  eapply AdmissionInv.sound_admit; [apply (requests_ok "1")|exact E|].
  eapply AdmissionInv.sound_init, start_init.
Qed.


(** The permit is the first of the four the client's policy grants. *)
Lemma permits_conserved_witness :
  Admission.active_count Samples.key AdmissionSamples.waiting = 0 ∧
  Admission.active_count Samples.key first_turn.1 = 1 ∧
  ∃ w : Waiter, dget (Samples.request "1") (AdmissionController.waiters AdmissionSamples.waiting) = Some w.
Proof.
  split; [by vm_compute|]. split; [by vm_compute|].
  assert (∃ lease, AdmissionSamples.pump_turn [] AdmissionSamples.waiting =
    (first_turn.1, Ok (Admission.Dispatched (Samples.request "1") lease))) as [lease H].
  { eexists. vm_compute. reflexivity. }
  unfold AdmissionSamples.pump_turn in H.
  pose proof (AdmissionTheorems.permits_conserved AccountSamples.record_digest
    AccountSamples.profile_digest AccountSamples.resolution_digest AdmissionSamples.sha256
    RoutingSamples.gate AccountSamples.io AdmissionSamples.clock AdmissionSamples.mint
    AdmissionSamples.publication [] AdmissionSamples.waiting first_turn.1
    (Admission.Dispatched (Samples.request "1") lease) waiting_sound H) as (w & _ & Hw & _).
  exists w. exact Hw.
Defined.


Lemma admission_invariant_witness :
  AdmissionInv.sound (AdmissionInv.performed AccountSamples.record_digest
    AccountSamples.profile_digest AccountSamples.resolution_digest AdmissionSamples.sha256
    RoutingSamples.gate AccountSamples.io AdmissionSamples.clock AdmissionSamples.mint
    AdmissionSamples.publication 5
    [AdmissionInv.Acquire (AdmissionSamples.request "1");
     AdmissionInv.Acquire (AdmissionSamples.request "2"); AdmissionInv.Wake]
    AdmissionSamples.start).
Proof.
  eapply AdmissionTheorems.admission_invariant; [apply start_init|].
  intros r. rewrite !elem_of_cons. intros [[= ->]|[[= ->]|[[=]|?%elem_of_nil]]];
    [apply (requests_ok "1")|apply (requests_ok "2")|done].
Defined.

(** A request whose ceiling has no leg is refused by the queue entry, after its
    waiter was inserted: the waiter stays, is counted by the bounds of later
    admissions, and no pump considers it, since it has no queue entry. *)
Definition legless : AdmissionRequest :=
  (AdmissionSamples.request "3"){{ AdmissionRequest.authorization_ceiling ::=
    λ c, c{{ RequestAuthorizationCeiling.authorized_legs := [] }} }}.
Example legless_waiter_stays :
  let '(s, r) := AdmissionSamples.take_in legless AdmissionSamples.start in
  is_ok r = false ∧
  dkeys (AdmissionController.waiters s) = [Samples.request "3"] ∧
  WDRRQueue.entries (AdmissionController.queue s) = [] ∧
  (AdmissionSamples.pump 5 s).2 = Ok (Some tt) ∧
  dkeys (AdmissionController.waiters (AdmissionSamples.pump 5 s).1) = [Samples.request "3"].
Proof. by vm_compute. Qed.
