(* ===== verification/KeyControl.v ===== *)
(** * Client-key commands of the control plane

    [control/keys.py]: issuance, rotation and the lifecycle commands on one
    client-key record, and the one-time handoff of a minted key.  What
    [secrets.token_bytes] returns is the argument [key_id_bytes] or [secret] of
    the command that draws it. *)
From S2P Require Export KeyMaterial KeyLifecycle.
From Stdlib Require Import Ascii.
#[local] Open Scope Z_scope.

(** ** The one-time handoff *)
Module RevealedClientKey.
Record t := mk { value : string; response_headers : dict string string }.
End RevealedClientKey.
Abbreviation RevealedClientKey := RevealedClientKey.t.

Definition RESPONSE_HEADERS : dict string string :=
  [("Cache-Control", "no-store"); ("Referrer-Policy", "no-referrer")].

Module IssuedOnce.
Record t := mk { record : ClientKeyRecord; value : option string }.

Definition init (record : ClientKeyRecord) (value : string) : t := mk record (Some value).

Definition reveal_once : M t RevealedClientKey :=
  self ← get;
  match value self with
  | None => raise (RuntimeError "client key was already revealed")
  | Some v =>
      put (mk (record self) None);;
      mret (RevealedClientKey.mk v RESPONSE_HEADERS)
  end.
End IssuedOnce.
Abbreviation IssuedOnce := IssuedOnce.t.

(** ** Verifiers of either kind

    [_expire_verifiers] and [_retire_verifiers] are generic in the class of the
    verifier; [model_copy(update={"status": ..., "not_after_s": ...})] is all
    they do to one. *)
Class Verifier (T : Type) := {
  v_status : T → CredentialVerifierStatus;
  v_not_after_s : T → Z;
  v_update : CredentialVerifierStatus → Z → T → T;
}.

#[export] Instance canonical_verifier : Verifier ClientCredentialVerifier.t := {|
  v_status := ClientCredentialVerifier.status;
  v_not_after_s := ClientCredentialVerifier.not_after_s;
  v_update status not_after_s v :=
    ClientCredentialVerifier.mk (ClientCredentialVerifier.generation v)
      (ClientCredentialVerifier.verifier_hex v) (ClientCredentialVerifier.pepper_version v)
      (ClientCredentialVerifier.not_before_s v) not_after_s status;
|}.

#[export] Instance legacy_verifier : Verifier LegacyClientCredentialVerifier.t := {|
  v_status := LegacyClientCredentialVerifier.status;
  v_not_after_s := LegacyClientCredentialVerifier.not_after_s;
  v_update status not_after_s v :=
    LegacyClientCredentialVerifier.mk (LegacyClientCredentialVerifier.generation v)
      (LegacyClientCredentialVerifier.fingerprint_hex v)
      (LegacyClientCredentialVerifier.pepper_version v)
      (LegacyClientCredentialVerifier.not_before_s v) not_after_s status;
|}.

#[export] Instance client_verifier : Verifier ClientVerifier := {|
  v_status := ClientVerifier.status;
  v_not_after_s := ClientVerifier.not_after_s;
  v_update status not_after_s v :=
    match v with
    | ClientVerifier.Canonical v => ClientVerifier.Canonical (v_update status not_after_s v)
    | ClientVerifier.Legacy v => ClientVerifier.Legacy (v_update status not_after_s v)
    end;
|}.

Section Generic.
Context {T : Type} `{VT : Verifier T}.

(** [_expire_verifiers] *)
Definition expire_verifiers (verifiers : list T) (expires_at_s : Z) : list T :=
  (λ item,
    if bool_decide (v_status item = CredentialVerifierStatus.ACTIVE) ||
       bool_decide (v_status item = CredentialVerifierStatus.RETIRING)
    then v_update CredentialVerifierStatus.EXPIRED (Z.min (v_not_after_s item) expires_at_s) item
    else item) <$> verifiers.

(** [_retire_verifiers] *)
Definition retire_verifiers (verifiers : list T) (now_s : Z) : list T :=
  (λ item, v_update CredentialVerifierStatus.RETIRED (Z.min (v_not_after_s item) now_s) item)
    <$> verifiers.
End Generic.

(** ** Revisions of a record *)
Definition with_state (state : KeyLifecycleState) (r : ClientKeyRecord) : ClientKeyRecord :=
  ClientKeyRecord.mk (ClientKeyRecord.key_id r) (ClientKeyRecord.policy_id r) state
    (ClientKeyRecord.issued_at_s r) (ClientKeyRecord.expires_at_s r)
    (ClientKeyRecord.time_high_water_s r) (ClientKeyRecord.generation_high_water r)
    (ClientKeyRecord.credential_verifiers r) (ClientKeyRecord.legacy_verifiers r).
Definition with_policy (policy_id : string) (r : ClientKeyRecord) : ClientKeyRecord :=
  ClientKeyRecord.mk (ClientKeyRecord.key_id r) policy_id (ClientKeyRecord.state r)
    (ClientKeyRecord.issued_at_s r) (ClientKeyRecord.expires_at_s r)
    (ClientKeyRecord.time_high_water_s r) (ClientKeyRecord.generation_high_water r)
    (ClientKeyRecord.credential_verifiers r) (ClientKeyRecord.legacy_verifiers r).
Definition with_time (now_s : Z) (r : ClientKeyRecord) : ClientKeyRecord :=
  ClientKeyRecord.mk (ClientKeyRecord.key_id r) (ClientKeyRecord.policy_id r)
    (ClientKeyRecord.state r) (ClientKeyRecord.issued_at_s r) (ClientKeyRecord.expires_at_s r)
    now_s (ClientKeyRecord.generation_high_water r)
    (ClientKeyRecord.credential_verifiers r) (ClientKeyRecord.legacy_verifiers r).
Definition with_verifiers (generation : Z) (canonical : list ClientCredentialVerifier.t)
    (legacy : list LegacyClientCredentialVerifier.t) (r : ClientKeyRecord) : ClientKeyRecord :=
  ClientKeyRecord.mk (ClientKeyRecord.key_id r) (ClientKeyRecord.policy_id r)
    (ClientKeyRecord.state r) (ClientKeyRecord.issued_at_s r) (ClientKeyRecord.expires_at_s r)
    (ClientKeyRecord.time_high_water_s r) generation canonical legacy.

(** [ClientKeyRecord.model_validate(...)] and [validate_key_record_delta(...)] on
    the candidate. *)
Definition revision (record candidate : ClientKeyRecord)
    (policy_reassignment : option PolicyReassignment) : result ClientKeyRecord :=
  candidate ← ClientKeyRecord.validate candidate;
  validate_key_record_delta record candidate policy_reassignment;;
  mret candidate.

(** [policy_id or record.policy_id] *)
Definition or_policy (policy_id : option string) (record : ClientKeyRecord) : string :=
  match policy_id with
  | Some p => if bool_decide (p = "") then ClientKeyRecord.policy_id record else p
  | None => ClientKeyRecord.policy_id record
  end.

(** [_transition] *)
Definition transition (record : ClientKeyRecord) (now_s : Z) (state : KeyLifecycleState)
    (credential_verifiers : option (list ClientCredentialVerifier.t))
    (legacy_verifiers : option (list LegacyClientCredentialVerifier.t))
    (policy_id : option string) (policy_reassignment : option PolicyReassignment) :
    result ClientKeyRecord :=
  revision record
    (with_state state (with_time now_s (with_policy (or_policy policy_id record)
      (with_verifiers (ClientKeyRecord.generation_high_water record)
        (default (ClientKeyRecord.credential_verifiers record) credential_verifiers)
        (default (ClientKeyRecord.legacy_verifiers record) legacy_verifiers) record))))
    policy_reassignment.

(** [_require_live_time] *)
Definition require_live_time (record : ClientKeyRecord) (now_s : Z) : result unit :=
  raise_if (now_s <? ClientKeyRecord.time_high_water_s record)
    (ValueError "trusted clock high-water cannot move backward");;
  raise_if (ClientKeyRecord.expires_at_s record <=? now_s)
    (ValueError "client key is expired and terminal").

Definition refuse_revoked (record : ClientKeyRecord) : result unit :=
  raise_if (bool_decide (ClientKeyRecord.state record = KeyLifecycleState.REVOKED))
    (ValueError "revoked client key is terminal").

Definition activate_key (record : ClientKeyRecord) (now_s : Z) : result ClientKeyRecord :=
  refuse_revoked record;;
  require_live_time record now_s;;
  state ← key_transition (ClientKeyRecord.state record) "activate";
  transition record now_s state None None None None.

Definition suspend_key (record : ClientKeyRecord) (now_s : Z) : result ClientKeyRecord :=
  refuse_revoked record;;
  require_live_time record now_s;;
  state ← key_transition (ClientKeyRecord.state record) "suspend";
  transition record now_s state None None None None.

Definition resume_key (record : ClientKeyRecord) (now_s : Z) : result ClientKeyRecord :=
  refuse_revoked record;;
  require_live_time record now_s;;
  state ← key_transition (ClientKeyRecord.state record) "resume";
  transition record now_s state None None None None.

Definition expire_key (record : ClientKeyRecord) (now_s : Z) : result ClientKeyRecord :=
  let expires_at_s := ClientKeyRecord.expires_at_s record in
  raise_if (now_s <? ClientKeyRecord.time_high_water_s record)
    (ValueError "trusted clock high-water cannot move backward");;
  raise_if (now_s <? expires_at_s) (ValueError "client key has not reached absolute expiry");;
  if expires_at_s <=? ClientKeyRecord.time_high_water_s record then mret record
  else
    revision record
      (with_time now_s (with_verifiers (ClientKeyRecord.generation_high_water record)
        (expire_verifiers (ClientKeyRecord.credential_verifiers record) expires_at_s)
        (expire_verifiers (ClientKeyRecord.legacy_verifiers record) expires_at_s) record))
      None.

Definition revoke_key (record : ClientKeyRecord) (now_s : Z) : result ClientKeyRecord :=
  if bool_decide (ClientKeyRecord.state record = KeyLifecycleState.REVOKED) then mret record
  else
    require_live_time record now_s;;
    state ← key_transition (ClientKeyRecord.state record) "revoke";
    transition record now_s state
      (Some (retire_verifiers (ClientKeyRecord.credential_verifiers record) now_s))
      (Some (retire_verifiers (ClientKeyRecord.legacy_verifiers record) now_s)) None None.

Definition reassign_key_policy (record : ClientKeyRecord) (reassignment : PolicyReassignment)
    (now_s : Z) : result ClientKeyRecord :=
  require_live_time record now_s;;
  raise_if (negb (bool_decide (PolicyReassignment.expected_policy_id reassignment =
                               ClientKeyRecord.policy_id record)))
    (ValueError "policy reassignment expected policy does not match");;
  transition record now_s (ClientKeyRecord.state record) None None
    (Some (PolicyReassignment.target_policy_id reassignment)) (Some reassignment).

(** ** Minting *)

(** [KeyLifecycleState(value)] *)
Definition lifecycle_state_of (value : string) : result KeyLifecycleState :=
  if bool_decide (value = "draft") then Ok KeyLifecycleState.DRAFT
  else if bool_decide (value = "enabled") then Ok KeyLifecycleState.ENABLED
  else if bool_decide (value = "suspended") then Ok KeyLifecycleState.SUSPENDED
  else if bool_decide (value = "revoked") then Ok KeyLifecycleState.REVOKED
  else Err (ValueError "not a valid KeyLifecycleState").

(** [KeyPolicyRevision | PolicyRevisionId] *)
Definition policy_id_of (policy : KeyPolicyRevision + string) : string :=
  match policy with inl p => KeyPolicyRevision.policy_id p | inr id => id end.

Definition validate_pepper (pepper : bytes) (pepper_version : string) : result unit :=
  raise_if (Z.of_nat (length pepper) <? 32)
    (ValueError "client-key pepper must contain at least 256 bits");;
  raise_if (bool_decide (pepper_version = ""))
    (ValueError "client-key pepper version is required").

Section Minting.
Context (hmac_sha256 : bytes → bytes → bytes).

(** [_new_material] *)
Definition new_material (secret key_id_bytes pepper : bytes) (pepper_version : string)
    (generation now_s expires_at_s : Z) : result (ClientCredentialVerifier.t * string) :=
  digest ← compute_client_key_verifier hmac_sha256 pepper key_id_bytes secret;
  verifier ← ClientCredentialVerifier.validate
    (ClientCredentialVerifier.mk generation (hex digest) pepper_version now_s expires_at_s
       CredentialVerifierStatus.ACTIVE);
  value ← format_client_key key_id_bytes secret;
  mret (verifier, value).

Definition issue_key (key_id_bytes secret : bytes) (policy : KeyPolicyRevision + string)
    (expiry : option Z) (pepper : bytes) (pepper_version : string) (now_s : Z)
    (initial_state : string) : result IssuedOnce :=
  validate_pepper pepper pepper_version;;
  let expires_at_s := default (now_s + DEFAULT_KEY_LIFETIME_S) expiry in
  raise_if (expires_at_s <=? now_s) (ValueError "client key expiry must be in the future");;
  raise_if (MAX_KEY_LIFETIME_S <? expires_at_s - now_s)
    (ValueError "client key expiry cannot exceed 365 days");;
  '(verifier, value) ← new_material secret key_id_bytes pepper pepper_version 1 now_s expires_at_s;
  state ← lifecycle_state_of initial_state;
  record ← ClientKeyRecord.validate
    (ClientKeyRecord.mk (hex key_id_bytes) (policy_id_of policy) state now_s expires_at_s now_s 1
       [verifier] []);
  mret (IssuedOnce.init record value).

(** [next(item for item in reversed(all_verifiers) if ... is ACTIVE)] *)
Definition current_verifier (record : ClientKeyRecord) : result ClientVerifier :=
  match List.find (ClientKeyRecord.status_is CredentialVerifierStatus.ACTIVE)
          (rev (ClientKeyRecord.verifiers record)) with
  | Some v => Ok v
  | None => Err StopIteration
  end.

Definition rotate_key (secret : bytes) (record : ClientKeyRecord) (pepper : bytes)
    (pepper_version : string) (now_s overlap_s : Z) : result IssuedOnce :=
  let expires_at_s := ClientKeyRecord.expires_at_s record in
  validate_pepper pepper pepper_version;;
  require_live_time record now_s;;
  refuse_revoked record;;
  raise_if (negb ((0 <=? overlap_s) && (overlap_s <=? MAX_ROTATION_OVERLAP_S)))
    (ValueError "credential overlap must be between zero and seven days");;
  current ← current_verifier record;
  let retiring := v_update
    (if overlap_s =? 0 then CredentialVerifierStatus.RETIRED else CredentialVerifierStatus.RETIRING)
    (Z.min expires_at_s (now_s + overlap_s)) current in
  key_id_bytes ← fromhex (ClientKeyRecord.key_id record);
  let generation := ClientKeyRecord.generation_high_water record + 1 in
  '(verifier, value) ← new_material secret key_id_bytes pepper pepper_version generation now_s
                         expires_at_s;
  let '(canonical, legacy) :=
    match retiring with
    | ClientVerifier.Canonical retiring => ([retiring; verifier], [])
    | ClientVerifier.Legacy retiring => ([verifier], [retiring])
    end in
  candidate ← revision record (with_time now_s (with_verifiers generation canonical legacy record))
                None;
  mret (IssuedOnce.init candidate value).
End Minting.
