(* ===== verification/KeyControlFacts.v ===== *)
(** * Facts on the client-key commands

    What a valid record is, as a proposition; when a revision passes its delta
    check; hexadecimal text; and the invariant of the records the commands make. *)
From S2P Require Export KeyControl AuthProps.
From Stdlib Require Import Ascii.
Import ClientKeyRecord.
#[local] Open Scope Z_scope.

(** ** Valid records *)
Definition verifier_ok (v : ClientVerifier) : Prop :=
  1 ≤ ClientVerifier.generation v ∧ is_hex64 (ClientVerifier.digest v) = true ∧
  is_pepper_version (ClientVerifier.pepper_version v) = true ∧
  0 < ClientVerifier.not_before_s v ∧
  ClientVerifier.not_before_s v ≤ ClientVerifier.not_after_s v.

(** The generations of the canonical and of the legacy verifiers. *)
Definition shape (cg lg : list Z) (high_water : Z) : Prop :=
  is_sorted cg = true ∧ is_sorted lg = true ∧ cg ++ lg ≠ [] ∧ (length (cg ++ lg) ≤ 2)%nat ∧
  NoDup (cg ++ lg) ∧ foldr Z.max 0 (cg ++ lg) = high_water.

Definition canonical_generations (r : ClientKeyRecord) : list Z :=
  ClientCredentialVerifier.generation <$> credential_verifiers r.
Definition legacy_generations (r : ClientKeyRecord) : list Z :=
  LegacyClientCredentialVerifier.generation <$> legacy_verifiers r.

Record wf (r : ClientKeyRecord) : Prop := {
  wf_key : is_hex32 (key_id r) = true;
  wf_policy : is_ok (typed_id_new PolicyRevisionId (policy_id r)) = true;
  wf_issued : 0 < issued_at_s r < expires_at_s r;
  wf_lifetime : expires_at_s r - issued_at_s r ≤ MAX_KEY_LIFETIME_S;
  wf_time : issued_at_s r ≤ time_high_water_s r;
  wf_high_water : 1 ≤ generation_high_water r;
  wf_shape : shape (canonical_generations r) (legacy_generations r) (generation_high_water r);
  wf_verifiers : ∀ v, v ∈ verifiers r → verifier_ok v;
  wf_windows : ∀ v, v ∈ verifiers r →
    issued_at_s r ≤ ClientVerifier.not_before_s v ∧ ClientVerifier.not_after_s v ≤ expires_at_s r;
  wf_terminal : terminal r = true → accepted r = [];
  wf_live : terminal r = false →
    ∃ v, active r = [v] ∧ ClientVerifier.generation v = generation_high_water r;
}.

Lemma verifier_generations r :
  ClientVerifier.generation <$> verifiers r = canonical_generations r ++ legacy_generations r.
Proof. unfold verifiers. by rewrite fmap_app, <-!list_fmap_compose. Qed.

Lemma elem_of_verifiers r v : v ∈ verifiers r ↔
  match v with
  | ClientVerifier.Canonical c => c ∈ credential_verifiers r
  | ClientVerifier.Legacy l => l ∈ legacy_verifiers r
  end.
Proof.
  unfold verifiers. rewrite elem_of_app, !list_elem_of_fmap. destruct v; naive_solver.
Qed.

Lemma canonical_validate_Ok v v' : ClientCredentialVerifier.validate v = Ok v' ↔
  v' = v ∧ verifier_ok (ClientVerifier.Canonical v).
Proof.
  unfold ClientCredentialVerifier.validate, verifier_ok. cbn. split.
  - intros H. inv_ok H. bprop. subst. naive_solver lia.
  - intros (-> & H1 & H2 & H3 & H4 & H5). rewrite H2, H3.
    rewrite !raise_if_pass by (bprop; naive_solver lia). done.
Qed.

Lemma legacy_validate_Ok v v' : LegacyClientCredentialVerifier.validate v = Ok v' ↔
  v' = v ∧ verifier_ok (ClientVerifier.Legacy v).
Proof.
  unfold LegacyClientCredentialVerifier.validate, verifier_ok. cbn. split.
  - intros H. inv_ok H. bprop. subst. naive_solver lia.
  - intros (-> & H1 & H2 & H3 & H4 & H5). rewrite H2, H3.
    rewrite !raise_if_pass by (bprop; naive_solver lia). done.
Qed.

(** A validator that returns its argument, over a list. *)
Lemma validate_all_Forall {A} (f : A → result A) (P : A → Prop) l l' :
  (∀ x y, f x = Ok y ↔ y = x ∧ P x) → validate_all f l = Ok l' ↔ l' = l ∧ Forall P l.
Proof.
  intros Hf. rewrite validate_all_Ok. split.
  - induction 1 as [|x y l l' Hxy _ [-> IH]]; [done|]. apply Hf in Hxy as [-> ?]. by split; [|constructor].
  - intros [-> HP]. induction HP; constructor; [by apply Hf|done].
Qed.

Lemma length_filter_bool {A} (f : A → bool) l : (length (List.filter f l) ≤ length l)%nat.
Proof. induction l as [|x l IH]; cbn; [done|]. destruct (f x); cbn; lia. Qed.

Lemma validate_wf r r' : validate r = Ok r' → wf r.
Proof.
  unfold validate. intros H. inv_ok H.
  apply (validate_all_Forall _ _ _ _ canonical_validate_Ok) in G0 as [_ Hc].
  apply (validate_all_Forall _ _ _ _ legacy_validate_Ok) in G1 as [_ Hl].
  unfold valid_lifetime_and_generations in H. inv_ok H. bprop.
  rewrite Forall_forall in Hc. rewrite Forall_forall in Hl. unfold max_generation in *. rewrite verifier_generations in *.
  split; try tauto; try (unfold MAX_KEY_LIFETIME_S; lia).
  - split_and!; try tauto; [|rewrite <-verifier_generations, length_fmap; lia].
    intros Hn. rewrite <-verifier_generations in Hn. by apply fmap_nil_inv in Hn.
  - intros v Hv%elem_of_verifiers. destruct v; auto.
  - intros v Hv. match goal with H : existsb _ _ = false |- _ => rename H into Hw end.
    rewrite existsb_false in Hw. specialize (Hw v Hv). bprop. lia.
  - intros Ht. match goal with H : (if terminal r then _ else _) = _ |- _ => rename H into Hi end.
    rewrite Ht in Hi. inv_ok Hi. by bprop.
  - intros Ht. match goal with H : (if terminal r then _ else _) = _ |- _ => rename H into Hi end.
    rewrite Ht in Hi. inv_ok Hi. destruct (active r) as [|v []]; try done. bprop. by exists v.
Qed.

Lemma wf_validate r : wf r → validate r = Ok r.
Proof.
  intros [Hk Hp Hi Hlt Ht Hg (S1 & S2 & S3 & S4 & S5 & S6) Hv Hw Hterm Hlive].
  rewrite <-verifier_generations in *. rewrite length_fmap in S4.
  assert (length (credential_verifiers r) ≤ 2 ∧ length (legacy_verifiers r) ≤ 2)%nat as [L1 L2].
  { unfold verifiers in S4. rewrite length_app, !length_fmap in S4. lia. }
  assert (length (accepted r) ≤ 2)%nat as L3.
  { unfold accepted. etrans; [apply length_filter_bool|done]. }
  unfold validate. rewrite Hk, Hp. cbn [andb negb].
  rewrite raise_if_pass by (bprop; lia).
  rewrite (proj2 (validate_all_Forall _ _ _ _ canonical_validate_Ok)) by
    (split; [done|]; apply Forall_forall; intros v Hin; apply Hv; by apply elem_of_verifiers).
  cbn [mbind result_bind].
  rewrite (proj2 (validate_all_Forall _ _ _ _ legacy_validate_Ok)) by
    (split; [done|]; apply Forall_forall; intros v Hin; apply Hv; by apply elem_of_verifiers).
  cbn [mbind result_bind]. unfold valid_lifetime_and_generations, max_generation.
  unfold MAX_KEY_LIFETIME_S in Hlt. unfold canonical_generations, legacy_generations in S1, S2.
  rewrite S1, S2, S6.
  rewrite !raise_if_pass; try (bprop; tauto || lia).
  - destruct (terminal r) eqn:E.
    + by rewrite raise_if_pass by (bprop; auto).
    + destruct Hlive as (v & -> & Hvg); [done|]. by rewrite raise_if_pass by (bprop; lia).
  - apply existsb_false. intros v Hin. specialize (Hw v Hin). bprop. lia.
  - bprop. split; [lia|done].
  - bprop. intros Hn. by rewrite Hn in S3.
Qed.

(** ** When a revision passes its delta check *)
Lemma wf_generations r : wf r →
  NoDup (ClientVerifier.generation <$> verifiers r) ∧
  ∀ v, v ∈ verifiers r → ClientVerifier.generation v ≤ generation_high_water r.
Proof. intros H%wf_validate. by apply KeyLifecycleFacts.validate_generations in H. Qed.

Lemma foldr_max_elem l : l ≠ [] → Forall (λ x, 0 ≤ x) l → foldr Z.max 0 l ∈ l.
Proof.
  intros Hn Hl. induction Hl as [|x l Hx Hl IH]; [done|]. cbn.
  destruct l as [|y l]; [cbn; rewrite Z.max_l by lia; left|].
  specialize (IH ltac:(done)). destruct (Z.max_spec x (foldr Z.max 0 (y :: l))) as [[_ ->]|[_ ->]];
    [by right|left].
Qed.

Lemma newest_generation r : wf r →
  ∃ v, v ∈ verifiers r ∧ ClientVerifier.generation v = generation_high_water r.
Proof.
  intros H. destruct (wf_shape r H) as (_ & _ & Hn & _ & _ & Hm).
  rewrite <-verifier_generations in Hn, Hm. apply foldr_max_elem in Hn.
  - rewrite Hm, list_elem_of_fmap in Hn. destruct Hn as (v & -> & Hv). eauto.
  - apply Forall_fmap, Forall_forall. intros v Hv. destruct (wf_verifiers r H v Hv). cbn. lia.
Qed.

Lemma validate_all_units {A} (f : A → result unit) l :
  (∀ x, x ∈ l → f x = Ok tt) → ∃ us, validate_all f l = Ok us.
Proof.
  intros Hf. exists ((λ _, tt) <$> l). apply validate_all_Ok. induction l as [|x l IH]; [done|].
  constructor; [apply Hf; left|]. apply IH. intros y Hy. apply Hf. by right.
Qed.

Lemma elem_of_by_generation r g v : wf r →
  (g, v) ∈ by_generation r ↔ v ∈ verifiers r ∧ ClientVerifier.generation v = g.
Proof.
  intros [Hn _]%wf_generations. rewrite KeyLifecycleFacts.by_generation_items by done.
  rewrite list_elem_of_fmap. naive_solver.
Qed.

Lemma dmem_by_generation r v : wf r → v ∈ verifiers r →
  dmem (ClientVerifier.generation v) (by_generation r) = true.
Proof.
  intros Hr Hv. apply dmem_true, dget_is_Some. exists v.
  apply KeyLifecycleFacts.dget_by_generation; [by apply wf_generations|done].
Qed.

Lemma continues_checks before after v' : wf before →
  KeyLifecycleFacts.continues before after v' →
  check_existing (by_generation before) (ClientVerifier.generation v', v') = Ok tt ∧
  check_new before after (by_generation before) (ClientVerifier.generation v', v') = Ok tt.
Proof.
  intros Hb Hc. unfold check_existing, check_new. cbn [fst snd].
  destruct Hc as [(v & Hv & Hg & Hc)|(Hne & Hlt & Ht)].
  - rewrite <-Hg, dmem_by_generation by done.
    rewrite KeyLifecycleFacts.dget_by_generation by (by apply wf_generations || done).
    split; [|done]. by apply KeyLifecycleFacts.validate_existing_verifier_Ok.
  - destruct (dget _ _) as [w|] eqn:E.
    { apply KeyLifecycleFacts.dget_by_generation_Some in E as [Hw Hwg]. by destruct (Hne w Hw). }
    rewrite (proj2 (dmem_false _ _)) by done. split; [done|].
    rewrite !raise_if_pass by (bprop; lia). apply raise_if_Ok. bprop. lia.
Qed.

(** The facts under which [after] is an accepted revision of a live record. *)
Record narrows (before after : ClientKeyRecord) (p : option PolicyReassignment) : Prop := {
  nar_live : terminal before = false;
  nar_key : key_id after = key_id before;
  nar_issued : issued_at_s after = issued_at_s before;
  nar_expiry : expires_at_s after = expires_at_s before;
  nar_time : time_high_water_s before ≤ time_high_water_s after;
  nar_generation : generation_high_water before ≤ generation_high_water after;
  nar_policy : check_reassignment before after p = Ok tt;
  nar_verifiers : ∀ v', v' ∈ verifiers after → KeyLifecycleFacts.continues before after v';
  nar_overlap : check_overlap after = Ok tt;
}.

Lemma narrows_delta before after p : wf before → wf after → narrows before after p →
  validate_key_record_delta before after p = Ok tt.
Proof.
  intros Hb Ha [Hl Hk Hi He Ht Hg Hp Hv Ho]. unfold validate_key_record_delta.
  rewrite (wf_validate before), (wf_validate after) by done. cbn [mbind result_bind].
  rewrite Hk, Hi, He, Hl, bool_decide_true, Z.eqb_refl by done. cbv iota.
  rewrite !raise_if_pass by (done || (bprop; lia)). rewrite Hp. cbn [mbind result_bind].
  destruct (validate_all_units (check_existing (by_generation before)) (by_generation after)) as [us ->].
  { intros [g v] [Hin <-]%elem_of_by_generation; [|done]. by apply continues_checks with after, Hv. }
  destruct (validate_all_units (check_new before after (by_generation before)) (by_generation after))
    as [us' ->].
  { intros [g v] [Hin <-]%elem_of_by_generation; [|done]. by apply continues_checks, Hv. }
  cbn [mbind result_bind]. rewrite Ho. case_match eqn:E; bprop in E.
  - destruct (newest_generation after Ha) as (w & Hw & <-).
    by rewrite dmem_by_generation by done.
  - rewrite raise_if_pass; [done|]. apply existsb_false. intros g Hin.
    apply dget_is_Some in Hin as [w Hw].
    apply KeyLifecycleFacts.dget_by_generation_Some in Hw as [Hw <-]. apply negb_false_iff.
    pose proof (proj2 (wf_generations after Ha) w Hw).
    destruct (Hv w Hw) as [(v & Hvb & Hvg & _)|(_ & Hlt & _)]; [|lia].
    rewrite <-Hvg. by apply dmem_by_generation.
Qed.

Lemma revision_Ok record candidate p : wf record → wf candidate → narrows record candidate p →
  revision record candidate p = Ok candidate.
Proof.
  intros Hr Hc Hn. unfold revision. rewrite wf_validate by done. cbn [mbind result_bind].
  by rewrite narrows_delta.
Qed.

(** ** Hexadecimal text *)
Lemma hex_list_cons c b : hex_list (c :: b) =
  hex_char (byte_value c / 16) :: hex_char (byte_value c mod 16) :: hex_list b.
Proof. done. Qed.

Lemma length_hex_list b : length (hex_list b) = (2 * length b)%nat.
Proof. induction b as [|c b IH]; [done|]. rewrite hex_list_cons. cbn [length]. lia. Qed.

Lemma hex_char_class z : 0 ≤ z < 16 → hex_class (hex_char z) = true.
Proof. apply (KeyMaterialFacts.forallb_range (λ z, hex_class (hex_char z)) 16). by vm_compute. Qed.

Lemma hex_list_class b : forallb hex_class (hex_list b) = true.
Proof.
  induction b as [|c b IH]; [done|]. rewrite hex_list_cons. cbn [forallb].
  pose proof (KeyMaterialFacts.byte_value_range c).
  rewrite !hex_char_class, IH; [done|apply Z.mod_pos_bound; lia|KeyMaterialFacts.div_lia].
Qed.

Lemma hex_matches b n : length b = n →
  fullmatch (replicate (2 * n) hex_class) (hex b) = true.
Proof.
  intros <-. unfold fullmatch, hex. rewrite String.list_ascii_of_string_of_list_ascii.
  apply KeyMaterialFacts.match_replicate. split; [apply length_hex_list|apply hex_list_class].
Qed.

Lemma hex_char_digit c : hex_class c = true → ∃ z, hex_digit c = Some z ∧ 0 ≤ z < 16 ∧ hex_char z = c.
Proof.
  intros H. assert (∀ z, 0 ≤ z < 256 → let c := byte_of z in
    implb (hex_class c) match hex_digit c with
      | Some d => (0 <=? d) && (d <? 16) && Ascii.eqb (hex_char d) c | None => false end = true) as Hall.
  { apply (KeyMaterialFacts.forallb_range (λ z, let c := byte_of z in
      implb (hex_class c) match hex_digit c with
      | Some d => (0 <=? d) && (d <? 16) && Ascii.eqb (hex_char d) c | None => false end) 256).
    by vm_compute. }
  specialize (Hall (byte_value c) (KeyMaterialFacts.byte_value_range c)). cbv zeta in Hall.
  rewrite KeyMaterialFacts.byte_of_value, H in Hall. cbn [implb] in Hall.
  destruct (hex_digit c) as [d|]; [|done]. exists d. bprop. rewrite Ascii.eqb_eq in Hall.
  naive_solver lia.
Qed.

Lemma unhex_hex l n : length l = (2 * n)%nat → forallb hex_class l = true →
  ∃ b, unhex l = Some b ∧ length b = n ∧ hex_list b = l.
Proof.
  revert l n. fix IH 1. intros [|c1 [|c2 l]] n Hn Hc; cbn in Hn.
  - exists []. by destruct n.
  - lia.
  - destruct n as [|n]; [lia|]. cbn [forallb] in Hc. rewrite !andb_true_iff in Hc.
    destruct Hc as (H1 & H2 & H3). destruct (IH l n ltac:(lia) H3) as (b & Hb & Hl & Hx).
    apply hex_char_digit in H1 as (z1 & E1 & R1 & C1), H2 as (z2 & E2 & R2 & C2).
    exists (byte_of (z1 * 16 + z2) :: b). cbn [unhex]. rewrite E1, E2, Hb. split_and!; [done|cbn; lia|].
    rewrite hex_list_cons, KeyMaterialFacts.byte_value_of, KeyMaterialFacts.joined_div,
      KeyMaterialFacts.joined_mod by lia. congruence.
Qed.

(** A key id in the record's form is the id of 16 bytes. *)
Lemma key_id_bytes s : is_hex32 s = true →
  ∃ b, fromhex s = Ok b ∧ length b = KEY_ID_BYTES ∧ hex b = s.
Proof.
  unfold is_hex32, fullmatch. rewrite KeyMaterialFacts.match_replicate. intros [Hl Hc].
  destruct (unhex_hex _ 16 Hl Hc) as (b & Hb & Hlb & Hx). exists b. unfold fromhex.
  rewrite Hb. split_and!; [done..|]. unfold hex. by rewrite Hx, String.string_of_list_ascii_of_string.
Qed.
