(* ===== verification/KeyControlRevisions.v ===== *)
(** * Revisions of client-key records

    The invariant of the records that the client-key commands make, and the three
    kinds of revision: a change of state, policy and time, the end of every
    verifier, and a rotation. *)
From S2P Require Export KeyControlFacts.
From Stdlib Require Import Ascii.
Import ClientKeyRecord.
#[local] Open Scope Z_scope.

(** ** Errors *)
Definition value_errors {A} (m : result A) : Prop :=
  match m with Ok _ => True | Err e => is_value_error e = true end.

Lemma value_errors_bind {A B} (m : result A) (f : A → result B) :
  value_errors m → (∀ a, value_errors (f a)) → value_errors (m ≫= f).
Proof. destruct m as [a|e]; intros Hm Hf; [apply Hf|exact Hm]. Qed.

Lemma value_errors_validate_all {A B} (f : A → result B) l :
  (∀ x, value_errors (f x)) → value_errors (validate_all f l).
Proof.
  intros Hf. induction l as [|x l IH]; [done|]. cbn. apply value_errors_bind; [done|].
  intros y. by apply value_errors_bind.
Qed.

Ltac value_errors := repeat first
  [ progress intros
  | apply value_errors_bind
  | apply value_errors_validate_all
  | match goal with
    | |- value_errors (raise_if ?c _) => destruct c; exact I || reflexivity
    | |- value_errors (mret _) => exact I
    | |- value_errors (Err _) => reflexivity
    | |- value_errors (if ?b then _ else _) => destruct b
    | |- value_errors (match ?x with _ => _ end) => destruct x
    end ].

Lemma validate_value_errors r : value_errors (validate r).
Proof.
  unfold validate, ClientCredentialVerifier.validate, LegacyClientCredentialVerifier.validate,
    valid_lifetime_and_generations, field_error. value_errors.
Qed.

Lemma revision_value_errors r c p : value_errors (revision r c p).
Proof.
  unfold revision, validate_key_record_delta, check_reassignment, check_existing,
    validate_existing_verifier, check_new, check_overlap. cbv zeta.
  repeat first [apply validate_value_errors | progress value_errors].
Qed.

(** ** The records the commands make *)
Record managed (r : ClientKeyRecord) : Prop := {
  man_wf : wf r;
  man_started : ∀ v, v ∈ verifiers r → ClientVerifier.not_before_s v ≤ time_high_water_s r;
  man_status : terminal r = false → ∀ v, v ∈ verifiers r →
    ClientVerifier.status v ≠ CredentialVerifierStatus.EXPIRED;
  man_window : terminal r = false → ∀ v, v ∈ active r →
    ClientVerifier.not_after_s v = expires_at_s r;
  man_overlap : check_overlap r = Ok tt;
}.

Definition is_live (r : ClientKeyRecord) (now_s : Z) : bool :=
  (time_high_water_s r <=? now_s) && (now_s <? expires_at_s r).

Definition revoked (r : ClientKeyRecord) : bool :=
  bool_decide (state r = KeyLifecycleState.REVOKED).

Lemma live_not_terminal r now_s : is_live r now_s = true → revoked r = false → terminal r = false.
Proof.
  unfold is_live, revoked, terminal. intros H ->. bprop in H. cbn. apply Z.leb_gt. lia.
Qed.

Lemma require_live r now_s : require_live_time r now_s =
  if is_live r now_s then Ok tt else require_live_time r now_s.
Proof.
  destruct (is_live r now_s) eqn:E; [|done]. unfold is_live in E. bprop in E.
  unfold require_live_time. rewrite raise_if_pass by (bprop; lia). apply raise_if_Ok. bprop. lia.
Qed.

Lemma not_live_Err {A} r now_s (k : result A) : is_live r now_s = false →
  ∃ e, (require_live_time r now_s;; k) = Err e ∧ is_value_error e = true.
Proof.
  unfold is_live, require_live_time, raise_if. intros H.
  destruct (now_s <? time_high_water_s r) eqn:E1; [by eexists|]. cbn [mbind result_bind].
  destruct (expires_at_s r <=? now_s) eqn:E2; [by eexists|]. bprop in E1. bprop in E2. bprop in H. lia.
Qed.

(** ** A change of state, policy and time *)
Definition advanced (s : KeyLifecycleState) (p : string) (now_s : Z) (r : ClientKeyRecord) :=
  with_state s (with_time now_s (with_policy p r)).

Lemma advanced_terminal s p now_s r : s ≠ KeyLifecycleState.REVOKED → is_live r now_s = true →
  terminal (advanced s p now_s r) = false.
Proof.
  intros Hs Hl. unfold is_live in Hl. bprop in Hl. unfold terminal, advanced. cbn.
  rewrite bool_decide_false by done. cbn. apply Z.leb_gt. lia.
Qed.

Lemma advanced_managed s p now_s r : managed r → is_live r now_s = true →
  revoked r = false → s ≠ KeyLifecycleState.REVOKED →
  is_ok (typed_id_new PolicyRevisionId p) = true → managed (advanced s p now_s r).
Proof.
  intros [[Hk Hp Hi Hlt Ht Hg Hsh Hv Hw Hterm Hlive] Hst Hstat Hwin Hov] Hl Hr Hs Hpol.
  pose proof (live_not_terminal r now_s Hl Hr) as Hnt.
  pose proof (advanced_terminal s p now_s r Hs Hl) as Hnt'.
  unfold is_live in Hl. bprop in Hl. destruct r. split; [split|..]; try done.
  - cbn in *. lia.
  - by rewrite Hnt'.
  - intros _. by apply Hlive.
  - intros v Hin. specialize (Hst v Hin). cbn in *. lia.
  - intros _. by apply Hstat.
  - intros _. by apply Hwin.
Qed.

Lemma kept_continues before after v : v ∈ verifiers before →
  KeyLifecycleFacts.continues before after v.
Proof.
  intros Hv. left. exists v. split_and!; [done..|]. apply KeyLifecycleFacts.key_contracts_refl.
Qed.

Lemma advanced_revision s p now_s r q : managed r → is_live r now_s = true → revoked r = false →
  s ≠ KeyLifecycleState.REVOKED → is_ok (typed_id_new PolicyRevisionId p) = true →
  check_reassignment r (advanced s p now_s r) q = Ok tt →
  revision r (advanced s p now_s r) q = Ok (advanced s p now_s r).
Proof.
  intros Hm Hl Hr Hs Hp Hq. pose proof (advanced_managed s p now_s r Hm Hl Hr Hs Hp) as Hm'.
  apply revision_Ok; [apply Hm|apply Hm'|]. pose proof (live_not_terminal r now_s Hl Hr) as Hnt.
  unfold is_live in Hl. bprop in Hl. split; try done; [cbn; lia..| |apply Hm].
  intros v Hv. by apply kept_continues.
Qed.

Lemma same_policy_reassignment r after : policy_id after = policy_id r →
  check_reassignment r after None = Ok tt.
Proof. intros H. unfold check_reassignment. by rewrite H, bool_decide_true. Qed.

(** [_transition] without verifiers, on a live record. *)
Lemma transition_advanced r now_s s : managed r → is_live r now_s = true → revoked r = false →
  s ≠ KeyLifecycleState.REVOKED →
  transition r now_s s None None None None = Ok (advanced s (policy_id r) now_s r).
Proof.
  intros Hm Hl Hr Hs. unfold transition. cbn [or_policy default from_option].
  assert (with_verifiers (generation_high_water r) (credential_verifiers r) (legacy_verifiers r) r = r)
    as -> by (by destruct r).
  apply advanced_revision; try done; [apply Hm|]. by apply same_policy_reassignment.
Qed.

(** What [model_copy] does to a verifier. *)
Lemma update_fields (v : ClientVerifier) st na :
  let v' := v_update st na v in
  ClientVerifier.generation v' = ClientVerifier.generation v ∧
  ClientVerifier.digest v' = ClientVerifier.digest v ∧
  ClientVerifier.pepper_version v' = ClientVerifier.pepper_version v ∧
  ClientVerifier.not_before_s v' = ClientVerifier.not_before_s v ∧
  ClientVerifier.not_after_s v' = na ∧ ClientVerifier.status v' = st ∧
  ClientVerifier.same_type v v' = true.
Proof. by destruct v. Qed.

Lemma update_contracts (v : ClientVerifier) st na : na ≤ ClientVerifier.not_after_s v →
  st ∈ ALLOWED_CREDENTIAL_TRANSITIONS (ClientVerifier.status v) →
  KeyLifecycleFacts.contracts v (v_update st na v).
Proof.
  intros Hle Hst. destruct (update_fields v st na) as (E1 & E2 & E3 & E4 & E5 & E6 & E7).
  split_and!; try done; [by rewrite E5|by rewrite E6].
Qed.

(** ** Stopping every verifier *)
Definition stopped_status (v : ClientVerifier) : Prop :=
  ClientVerifier.status v ≠ CredentialVerifierStatus.ACTIVE ∧
  ClientVerifier.status v ≠ CredentialVerifierStatus.RETIRING.

Lemma no_accepted r : (∀ v, v ∈ verifiers r → stopped_status v) → accepted r = [] ∧ active r = [].
Proof.
  unfold accepted, active. induction (verifiers r) as [|v l IH]; intros Hs; [done|]. cbn.
  destruct (Hs v ltac:(left)) as [H1 H2]. unfold status_is.
  rewrite (bool_decide_false _ H1), (bool_decide_false _ H2). cbn. apply IH.
  intros w Hw. apply Hs. by right.
Qed.

(** [c] is [r] with the verifier [f v] for [v], all of them stopped. *)
Record stops (f : ClientVerifier → ClientVerifier) (r c : ClientKeyRecord) : Prop := {
  st_key : key_id c = key_id r;
  st_policy : policy_id c = policy_id r;
  st_issued : issued_at_s c = issued_at_s r;
  st_expires : expires_at_s c = expires_at_s r;
  st_time : time_high_water_s r ≤ time_high_water_s c;
  st_high_water : generation_high_water c = generation_high_water r;
  st_terminal : terminal c = true;
  st_verifiers : verifiers c = f <$> verifiers r;
  st_canonical : canonical_generations c = canonical_generations r;
  st_legacy : legacy_generations c = legacy_generations r;
  st_stopped : ∀ v, v ∈ verifiers r →
    ClientVerifier.generation (f v) = ClientVerifier.generation v ∧
    KeyLifecycleFacts.contracts v (f v) ∧ stopped_status (f v) ∧
    ClientVerifier.not_before_s v ≤ ClientVerifier.not_after_s (f v);
}.

Lemma stops_managed f r c : managed r → terminal r = false → stops f r c →
  managed c ∧ revision r c None = Ok c.
Proof.
  intros Hm Hnt Hst. pose proof Hm as [[Hk Hp Hi Hlt Ht Hg Hsh Hv Hw Hterm Hlive] Hstart _ _ _].
  pose proof Hst as [Ek Ep Ei Ee Et Eg Eterm Ev Ec El Hf].
  assert (∀ w, w ∈ verifiers c → ∃ v, w = f v ∧ v ∈ verifiers r) as Hin.
  { intros w Hw'. rewrite Ev in Hw'. by apply list_elem_of_fmap in Hw'. }
  destruct (no_accepted c) as [Hacc Hact].
  { intros w (v & -> & Hvr)%Hin. by apply Hf. }
  assert (managed c) as Hmc.
  { split; [split|..]; rewrite ?Eterm, ?Ek, ?Ep, ?Ei, ?Ee, ?Eg, ?Ec, ?El; try done.
    - lia.
    - intros w (v & -> & Hvr)%Hin.
      destruct (Hf v Hvr) as (Hgen & (_ & Hd & Hpv & Hnb & _) & _ & Hle).
      destruct (Hv v Hvr) as (V1 & V2 & V3 & V4 & V5). unfold verifier_ok.
      rewrite Hgen, Hd, Hpv, Hnb. done.
    - intros w (v & -> & Hvr)%Hin.
      destruct (Hf v Hvr) as (_ & (_ & _ & _ & Hnb & Hna & _) & _). rewrite Hnb.
      specialize (Hw v Hvr). lia.
    - intros w (v & -> & Hvr)%Hin.
      destruct (Hf v Hvr) as (_ & (_ & _ & _ & Hnb & _ & _) & _). rewrite Hnb.
      specialize (Hstart v Hvr). lia.
    - unfold check_overlap. by rewrite Hact. }
  split; [done|]. apply revision_Ok; [apply Hm|apply Hmc|].
  split; try done; [by rewrite Eg| | |apply Hmc].
  - by apply same_policy_reassignment.
  - intros w (v & -> & Hvr)%Hin. left. exists v. destruct (Hf v Hvr) as (Hgen & Hc & _).
    split_and!; done || apply Hc.
Qed.

Lemma stopped_update st na (v : ClientVerifier) :
  ClientVerifier.not_before_s v ≤ na → na ≤ ClientVerifier.not_after_s v →
  st ∈ ALLOWED_CREDENTIAL_TRANSITIONS (ClientVerifier.status v) →
  st = CredentialVerifierStatus.RETIRED ∨ st = CredentialVerifierStatus.EXPIRED →
  let v' := v_update st na v in
  ClientVerifier.generation v' = ClientVerifier.generation v ∧
  KeyLifecycleFacts.contracts v v' ∧ stopped_status v' ∧
  ClientVerifier.not_before_s v ≤ ClientVerifier.not_after_s v'.
Proof.
  intros Hb Ha Hst Ht v'. destruct (update_fields v st na) as (E1 & _ & _ & _ & E5 & E6 & _).
  split_and!; [done|by apply update_contracts|..].
  - unfold stopped_status, v'. rewrite E6. by destruct Ht as [-> | ->].
  - unfold v'. by rewrite E5.
Qed.

Definition retire1 {T} `{Verifier T} (now_s : Z) (v : T) : T :=
  v_update CredentialVerifierStatus.RETIRED (Z.min (v_not_after_s v) now_s) v.
Definition expire1 {T} `{Verifier T} (expires_at_s : Z) (v : T) : T :=
  if bool_decide (v_status v = CredentialVerifierStatus.ACTIVE) ||
     bool_decide (v_status v = CredentialVerifierStatus.RETIRING)
  then v_update CredentialVerifierStatus.EXPIRED (Z.min (v_not_after_s v) expires_at_s) v else v.

(** A class-generic update of both kinds of verifiers, as one of the union. *)
Lemma map_verifiers (fc : ClientCredentialVerifier.t → ClientCredentialVerifier.t)
    (fl : LegacyClientCredentialVerifier.t → LegacyClientCredentialVerifier.t)
    (f : ClientVerifier → ClientVerifier) (c : list ClientCredentialVerifier.t)
    (l : list LegacyClientCredentialVerifier.t) :
  (∀ v, f (ClientVerifier.Canonical v) = ClientVerifier.Canonical (fc v)) →
  (∀ v, f (ClientVerifier.Legacy v) = ClientVerifier.Legacy (fl v)) →
  (ClientVerifier.Canonical <$> (fc <$> c)) ++ (ClientVerifier.Legacy <$> (fl <$> l)) =
  f <$> ((ClientVerifier.Canonical <$> c) ++ (ClientVerifier.Legacy <$> l)).
Proof.
  intros Hc Hl. rewrite fmap_app, <-!list_fmap_compose.
  f_equal; apply list_fmap_ext; intros i x _; cbn; [by rewrite Hc|by rewrite Hl].
Qed.

Definition retired_record (now_s : Z) (r : ClientKeyRecord) : ClientKeyRecord :=
  with_state KeyLifecycleState.REVOKED (with_time now_s
    (with_verifiers (generation_high_water r) (retire_verifiers (credential_verifiers r) now_s)
       (retire_verifiers (legacy_verifiers r) now_s) r)).
Definition expired_record (now_s : Z) (r : ClientKeyRecord) : ClientKeyRecord :=
  with_time now_s (with_verifiers (generation_high_water r)
    (expire_verifiers (credential_verifiers r) (expires_at_s r))
    (expire_verifiers (legacy_verifiers r) (expires_at_s r)) r).

Lemma retire_stops r now_s : managed r → is_live r now_s = true → revoked r = false →
  stops (retire1 now_s) r (retired_record now_s r).
Proof.
  intros Hm Hl Hr. pose proof (live_not_terminal r now_s Hl Hr) as Hnt.
  unfold is_live in Hl. bprop in Hl. split; try done.
  - cbn. lia.
  - by apply map_verifiers.
  - unfold canonical_generations, retired_record, retire_verifiers. cbn.
    by rewrite <-list_fmap_compose.
  - unfold legacy_generations, retired_record, retire_verifiers. cbn.
    by rewrite <-list_fmap_compose.
  - intros v Hv. pose proof (man_started r Hm v Hv).
    pose proof (man_status r Hm Hnt v Hv) as Hs.
    destruct (wf_verifiers r (man_wf r Hm) v Hv) as (_ & _ & _ & _ & Hle).
    apply (stopped_update CredentialVerifierStatus.RETIRED); [cbn; lia..| |by left].
    destruct (ClientVerifier.status v); cbn; try done; set_solver.
Qed.

Lemma expire_stops r now_s : managed r → terminal r = false → expires_at_s r ≤ now_s →
  time_high_water_s r ≤ now_s → stops (expire1 (expires_at_s r)) r (expired_record now_s r).
Proof.
  intros Hm Hnt He Ht. split; try done.
  - unfold terminal, expired_record. cbn. apply orb_true_iff. right. by apply Z.leb_le.
  - apply map_verifiers; intros v; unfold expire1; cbn; by case_match.
  - unfold canonical_generations, expired_record, expire_verifiers. cbn.
    rewrite <-list_fmap_compose. apply list_fmap_ext. intros i v _. cbn. by case_match.
  - unfold legacy_generations, expired_record, expire_verifiers. cbn.
    rewrite <-list_fmap_compose. apply list_fmap_ext. intros i v _. cbn. by case_match.
  - intros v Hv. pose proof (man_started r Hm v Hv).
    pose proof (man_status r Hm Hnt v Hv) as Hs.
    destruct (wf_verifiers r (man_wf r Hm) v Hv) as (_ & _ & _ & _ & Hle).
    pose proof (wf_windows r (man_wf r Hm) v Hv) as Hw.
    pose proof (wf_issued r (man_wf r Hm)) as Hi. unfold expire1. cbn [v_status client_verifier].
    destruct (bool_decide _ || bool_decide _) eqn:Es; bprop in Es.
    + apply (stopped_update CredentialVerifierStatus.EXPIRED); [cbn; lia..| |by right].
      destruct Es as [-> | ->]; cbn; set_solver.
    + split_and!; [done|apply KeyLifecycleFacts.key_contracts_refl|apply Es..|done].
Qed.

(** ** Rotation *)
Section Rotation.
Context (hmac_sha256 : bytes → bytes → bytes).
Hypothesis hmac_length : ∀ pepper message, length (hmac_sha256 pepper message) = 32%nat.

Definition minted_digest (pepper id secret : bytes) : string :=
  hex (hmac_sha256 pepper (CLIENT_KEY_DOMAIN ++ id ++ secret)).
Definition minted (pepper id secret : bytes) (version : string) (generation now_s expires : Z) :
    ClientCredentialVerifier.t :=
  ClientCredentialVerifier.mk generation (minted_digest pepper id secret) version now_s expires
    CredentialVerifierStatus.ACTIVE.

Lemma minted_ok pepper id secret version generation now_s expires :
  1 ≤ generation → is_pepper_version version = true → 0 < now_s ≤ expires →
  verifier_ok (ClientVerifier.Canonical (minted pepper id secret version generation now_s expires)).
Proof.
  intros Hg Hv Ht. unfold verifier_ok. cbn. split_and!; try done; try lia.
  apply (hex_matches _ 32). apply hmac_length.
Qed.

Lemma new_material_Ok secret id pepper version generation now_s expires :
  length id = KEY_ID_BYTES → length secret = SECRET_BYTES →
  is_pepper_version version = true → 1 ≤ generation → 0 < now_s ≤ expires →
  ∃ token, format_client_key id secret = Ok token ∧
    new_material hmac_sha256 secret id pepper version generation now_s expires =
      Ok (minted pepper id secret version generation now_s expires, token).
Proof.
  intros Hi Hs Hv Hg Ht. pose proof (KeyMaterialFacts.format_lengths id secret Hi Hs) as Hf.
  eexists. split; [exact Hf|]. unfold new_material. rewrite compute_verifier_Ok by done.
  cbn [mbind result_bind]. rewrite (proj2 (canonical_validate_Ok _ _)) by
    (split; [done|]; by apply minted_ok). cbn [mbind result_bind]. by rewrite Hf.
Qed.

Lemma find_rev_filter {A} (f : A → bool) l v : List.filter f l = [v] →
  List.find f (rev l) = Some v.
Proof.
  intros Hf. destruct (List.find f (rev l)) as [w|] eqn:E.
  - apply List.find_some in E as [Hin Hw]. apply in_rev in Hin.
    assert (In w (List.filter f l)) as Hw' by (by apply filter_In). rewrite Hf in Hw'.
    by destruct Hw' as [<-|[]].
  - assert (In v (List.filter f l)) as Hv by (rewrite Hf; left; done).
    apply filter_In in Hv as [Hin Hv]. apply List.find_none with (x := v) in E; [congruence|].
    by apply in_rev in Hin.
Qed.

Lemma current_active r v : active r = [v] → current_verifier r = Ok v.
Proof. intros H. unfold current_verifier. by rewrite (find_rev_filter _ _ v). Qed.

Definition retiring_of (now_s overlap_s : Z) (r : ClientKeyRecord) (v : ClientVerifier) :
    ClientVerifier :=
  v_update
    (if overlap_s =? 0 then CredentialVerifierStatus.RETIRED else CredentialVerifierStatus.RETIRING)
    (Z.min (expires_at_s r) (now_s + overlap_s)) v.

Definition rotated_record (now_s : Z) (r : ClientKeyRecord) (retiring : ClientVerifier)
    (new : ClientCredentialVerifier.t) : ClientKeyRecord :=
  with_time now_s (with_verifiers (generation_high_water r + 1)
    (match retiring with ClientVerifier.Canonical c => [c; new] | ClientVerifier.Legacy _ => [new] end)
    (match retiring with ClientVerifier.Canonical _ => [] | ClientVerifier.Legacy l => [l] end) r).

Lemma rotated_verifiers now_s r retiring new w :
  w ∈ verifiers (rotated_record now_s r retiring new) ↔
  w = retiring ∨ w = ClientVerifier.Canonical new.
Proof.
  unfold verifiers, rotated_record. destruct retiring; cbn;
    rewrite !elem_of_cons; (split; [intros [ | [ |?%elem_of_nil]]; tauto|tauto]).
Qed.

(** The verifiers after a rotation at [now_s]: what retires and what is new. *)
Record rotation (now_s : Z) (r : ClientKeyRecord) (retiring : ClientVerifier)
    (new : ClientCredentialVerifier.t) : Prop := {
  rot_old : ∃ v, active r = [v] ∧ KeyLifecycleFacts.contracts v retiring ∧
    ClientVerifier.generation v = generation_high_water r ∧
    ClientVerifier.generation retiring = generation_high_water r;
  rot_status : ClientVerifier.status retiring = CredentialVerifierStatus.RETIRED ∨
    ClientVerifier.status retiring = CredentialVerifierStatus.RETIRING;
  rot_window : ClientVerifier.not_before_s retiring ≤ ClientVerifier.not_after_s retiring;
  rot_overlap : ClientVerifier.not_after_s retiring ≤ now_s + MAX_ROTATION_OVERLAP_S;
  rot_new : verifier_ok (ClientVerifier.Canonical new);
  rot_generation : ClientCredentialVerifier.generation new = generation_high_water r + 1;
  rot_start : ClientCredentialVerifier.not_before_s new = now_s;
  rot_end : ClientCredentialVerifier.not_after_s new = expires_at_s r;
  rot_active : ClientCredentialVerifier.status new = CredentialVerifierStatus.ACTIVE;
}.

Lemma rotated_active now_s r retiring new : rotation now_s r retiring new →
  active (rotated_record now_s r retiring new) = [ClientVerifier.Canonical new].
Proof.
  intros [_ Hs _ _ _ _ _ _ Ha]. unfold active, verifiers, rotated_record.
  destruct retiring as [v|v]; cbn; unfold status_is; cbn in *; rewrite Ha;
    by destruct Hs as [-> | ->].
Qed.

Lemma rotated_shape now_s r retiring new : wf r → rotation now_s r retiring new →
  shape (canonical_generations (rotated_record now_s r retiring new))
    (legacy_generations (rotated_record now_s r retiring new)) (generation_high_water r + 1).
Proof.
  intros Hr [(v & _ & _ & _ & Hg) _ _ _ _ Hn _ _ _]. pose proof (wf_high_water r Hr).
  unfold canonical_generations, legacy_generations, rotated_record.
  destruct retiring as [c|c]; cbn in *; rewrite ?Hg, ?Hn;
    set (h := generation_high_water r) in *; unfold shape, is_sorted; cbn;
    rewrite ?(proj2 (Z.leb_le h (h + 1))) by lia;
    (split_and!; try (by apply bool_decide_eq_true); try done; try lia;
     apply NoDup_cons; split; [rewrite list_elem_of_singleton; lia|apply NoDup_singleton]).
Qed.

Lemma rotated_managed now_s r retiring new : managed r → is_live r now_s = true →
  revoked r = false → rotation now_s r retiring new →
  managed (rotated_record now_s r retiring new).
Proof.
  intros Hm Hl Hr Hrot. pose proof (live_not_terminal r now_s Hl Hr) as Hnt.
  pose proof (rotated_shape now_s r retiring new (man_wf r Hm) Hrot) as Hsh.
  pose proof (rotated_active now_s r retiring new Hrot) as Hact.
  pose proof Hm as [[Hk Hp Hi Hlt Ht Hg _ Hv Hw Hterm Hlive] Hstart _ _ _].
  unfold is_live in Hl. bprop in Hl.
  assert (terminal (rotated_record now_s r retiring new) = false) as Hnt'.
  { unfold terminal, rotated_record. cbn. unfold revoked in Hr. rewrite Hr. cbn.
    apply Z.leb_gt. lia. }
  pose proof Hrot as [(v & Hav & Hc & Hvg & Hrg) Hs Hwin Hov Hnew Hng Hnb Hne Hna].
  assert (v ∈ verifiers r) as Hvin.
  { assert (v ∈ active r) as Hin by (rewrite Hav; left).
    by apply list_elem_of_In, filter_In in Hin as [?%list_elem_of_In _]. }
  destruct Hc as (_ & Hd & Hpv & Hb & Ha & _).
  destruct (Hv v Hvin) as (V1 & V2 & V3 & V4 & V5). specialize (Hw v Hvin).
  specialize (Hstart v Hvin).
  split; [split|..]; try done; try (cbn; lia).
  - intros w [-> | ->]%rotated_verifiers; [|done].
    unfold verifier_ok. rewrite Hrg, Hd, Hpv, Hb. rewrite Hb in Hwin. done.
  - intros w [-> | ->]%rotated_verifiers; cbn; lia.
  - by rewrite Hnt'.
  - intros _. exists (ClientVerifier.Canonical new). done.
  - intros w [-> | ->]%rotated_verifiers; cbn; lia.
  - intros _ w [-> | ->]%rotated_verifiers; cbn; [by destruct Hs as [-> | ->]|by rewrite Hna].
  - intros _ w. rewrite Hact. by intros ->%list_elem_of_singleton.
  - unfold check_overlap. rewrite Hact. apply raise_if_Ok, existsb_false. intros w Hin.
    apply list_elem_of_In, filter_In in Hin as [Hin Hst]. apply list_elem_of_In in Hin.
    apply Z.ltb_ge. apply rotated_verifiers in Hin as [-> | ->].
    + cbn. lia.
    + unfold status_is in Hst. cbn in Hst. by rewrite Hna in Hst.
Qed.

Lemma rotated_revision now_s r retiring new : managed r → is_live r now_s = true →
  revoked r = false → rotation now_s r retiring new →
  revision r (rotated_record now_s r retiring new) None = Ok (rotated_record now_s r retiring new).
Proof.
  intros Hm Hl Hr Hrot. pose proof (rotated_managed now_s r retiring new Hm Hl Hr Hrot) as Hm'.
  apply revision_Ok; [apply Hm|apply Hm'|].
  pose proof (live_not_terminal r now_s Hl Hr) as Hnt.
  unfold is_live in Hl. bprop in Hl. split; try done; try (cbn; lia).
  - by apply same_policy_reassignment.
  - destruct Hrot as [(v & Hav & Hc & Hvg & Hrg) _ _ _ _ Hng Hnb _ _].
    intros w [-> | ->]%rotated_verifiers.
    + left. exists v. split_and!; [|congruence|apply Hc..].
      assert (v ∈ active r) as Hin by (rewrite Hav; left).
      by apply list_elem_of_In, filter_In in Hin as [?%list_elem_of_In _].
    + right. pose proof (wf_generations r (man_wf r Hm)) as [_ Hmax].
      split_and!; cbn; try lia. intros w Hw Hwg. specialize (Hmax w Hw). cbn in Hwg. lia.
  - apply Hm'.
Qed.
End Rotation.
