(* ===== verification/KeyControlProps.v ===== *)
(** * Properties of the client-key commands

    On the records the commands themselves make, every command does exactly what
    its guards say; a minted key authenticates, a rotated one for exactly its
    overlap, and a revoked or expired one never again. *)
From S2P Require Export KeyControlRevisions.
From S2P Require Import Samples.
From Stdlib Require Import Ascii.
Import ClientKeyRecord.
#[local] Open Scope Z_scope.

(** ** The commands as one machine *)
Inductive command :=
| Activate | Suspend | Resume | Expire | Revoke
| Reassign (reassignment : PolicyReassignment)
| Rotate (secret pepper : bytes) (pepper_version : string) (overlap_s : Z).

Section Commands.
Context (hmac_sha256 : bytes → bytes → bytes).

Definition run_command (c : command) (r : ClientKeyRecord) (now_s : Z) : result ClientKeyRecord :=
  match c with
  | Activate => activate_key r now_s
  | Suspend => suspend_key r now_s
  | Resume => resume_key r now_s
  | Expire => expire_key r now_s
  | Revoke => revoke_key r now_s
  | Reassign p => reassign_key_policy r p now_s
  | Rotate secret pepper version overlap_s =>
      issued ← rotate_key hmac_sha256 secret r pepper version now_s overlap_s;
      mret (IssuedOnce.record issued)
  end.

(** What a command is for: its conditions and its effect, without the checks of
    the result that the code makes. *)
Definition edge (from to : KeyLifecycleState) (r : ClientKeyRecord) (now_s : Z) :
    option ClientKeyRecord :=
  if bool_decide (state r = from) && is_live r now_s
  then Some (advanced to (policy_id r) now_s r) else None.

Definition rotation_of (secret id pepper : bytes) (version : string) (now_s overlap_s : Z)
    (r : ClientKeyRecord) (v : ClientVerifier) : ClientKeyRecord :=
  rotated_record now_s r (retiring_of now_s overlap_s r v)
    (minted hmac_sha256 pepper id secret version (generation_high_water r + 1) now_s
       (expires_at_s r)).

Definition effect (c : command) (r : ClientKeyRecord) (now_s : Z) : option ClientKeyRecord :=
  match c with
  | Activate => edge KeyLifecycleState.DRAFT KeyLifecycleState.ENABLED r now_s
  | Suspend => edge KeyLifecycleState.ENABLED KeyLifecycleState.SUSPENDED r now_s
  | Resume => edge KeyLifecycleState.SUSPENDED KeyLifecycleState.ENABLED r now_s
  | Expire =>
      if (now_s <? time_high_water_s r) || (now_s <? expires_at_s r) then None
      else if expires_at_s r <=? time_high_water_s r then Some r
      else if revoked r then None else Some (expired_record now_s r)
  | Revoke =>
      if revoked r then Some r
      else if is_live r now_s then Some (retired_record now_s r) else None
  | Reassign p =>
      let target := PolicyReassignment.target_policy_id p in
      if negb (is_live r now_s &&
               bool_decide (PolicyReassignment.expected_policy_id p = policy_id r)) then None
      else if revoked r then
        if (now_s =? time_high_water_s r) && bool_decide (or_policy (Some target) r = policy_id r)
        then Some r else None
      else if is_ok (typed_id_new PolicyRevisionId target)
      then Some (advanced (state r) target now_s r) else None
  | Rotate secret pepper version overlap_s =>
      match fromhex (key_id r), active r with
      | Ok id, [v] =>
          if (32 <=? Z.of_nat (length pepper)) && is_pepper_version version &&
             is_live r now_s && negb (revoked r) &&
             ((0 <=? overlap_s) && (overlap_s <=? MAX_ROTATION_OVERLAP_S))
          then Some (rotation_of secret id pepper version now_s overlap_s r v) else None
      | _, _ => None
      end
  end.

(** The secrets are the bytes [secrets.token_bytes(32)] returns. *)
Definition well_drawn (c : command) : Prop :=
  match c with Rotate secret _ _ _ => length secret = SECRET_BYTES | _ => True end.

(** What a run of a command has to be. *)
Definition meets (r : ClientKeyRecord) (effect : option ClientKeyRecord)
    (run : result ClientKeyRecord) : Prop :=
  match effect with
  | Some r' => run = Ok r' ∧ managed r' ∧ (r' = r ∨ KeyLifecycleFacts.revises r r')
  | None => ∃ e, run = Err e ∧ is_value_error e = true
  end.

Lemma meets_revision r r' p : managed r' → revision r r' p = Ok r' → meets r (Some r') (Ok r').
Proof.
  intros Hm H. split_and!; [done..|]. right. exists p. unfold revision in H.
  apply bind_Ok in H as (c & Hc & H). apply KeyLifecycleFacts.key_validate_id in Hc as ->.
  by apply bind_Ok in H as ([] & H & _).
Qed.

Lemma failed_bind {A B} (m : result A) (k : A → result B) :
  (∃ e, m = Err e ∧ is_value_error e = true) → ∃ e, (m ≫= k) = Err e ∧ is_value_error e = true.
Proof. intros (e & -> & He). by exists e. Qed.

Lemma command_refused r (b : bool) msg (k : result ClientKeyRecord) : b = true →
  meets r None (raise_if b (ValueError msg);; k).
Proof. intros ->. by eexists. Qed.

(** A run that cannot succeed fails with a [ValueError]. *)
Lemma meets_never r m : value_errors m → (∀ r', m ≠ Ok r') → meets r None m.
Proof. destruct m as [r'|e]; intros Hv Hn; [by destruct (Hn r')|by exists e]. Qed.

Lemma edge_meets r now_s from to event : managed r → from ≠ KeyLifecycleState.REVOKED →
  to ≠ KeyLifecycleState.REVOKED →
  (∀ s, key_transition s event = if bool_decide (s = from) then Ok to
        else Err (ValueError "illegal key lifecycle event")) →
  meets r (edge from to r now_s)
    (refuse_revoked r;; require_live_time r now_s;;
     s ← key_transition (state r) event; transition r now_s s None None None None).
Proof.
  intros Hm Hf Ht Hev. unfold edge, refuse_revoked. fold (revoked r). rewrite Hev.
  destruct (revoked r) eqn:Er.
  { unfold revoked in Er. bprop in Er. rewrite Er, bool_decide_false by done. by apply command_refused. }
  rewrite raise_if_pass by done. destruct (is_live r now_s) eqn:El.
  - rewrite require_live, El. cbn [mbind result_bind].
    case_bool_decide; cbn [andb mbind result_bind]; [|by eexists].
    rewrite transition_advanced by done.
    assert (is_ok (typed_id_new PolicyRevisionId (policy_id r)) = true) as Hp by apply Hm.
    eapply meets_revision; [by apply advanced_managed|]. apply advanced_revision; try done.
    by apply same_policy_reassignment.
  - rewrite andb_false_r. by apply not_live_Err.
Qed.

Lemma expire_meets r now_s : managed r → meets r (effect Expire r now_s) (expire_key r now_s).
Proof.
  intros Hm. cbn [effect]. unfold expire_key. cbv zeta.
  destruct (now_s <? time_high_water_s r) eqn:E1; [by eexists|].
  destruct (now_s <? expires_at_s r) eqn:E2; [by eexists|]. cbn [orb raise_if mbind result_bind].
  destruct (expires_at_s r <=? time_high_water_s r) eqn:E3; [by split_and!; [..|left]|].
  fold (expired_record now_s r). bprop in E1. bprop in E2. bprop in E3.
  destruct (revoked r) eqn:Er.
  - apply meets_never; [apply revision_value_errors|]. intros r' H. unfold revision in H.
    apply bind_Ok in H as (c & Hc & H). apply KeyLifecycleFacts.key_validate_id in Hc as ->.
    apply bind_Ok in H as ([] & H%KeyLifecycleFacts.delta_narrowed & _).
    apply KeyLifecycleFacts.nar_terminal in H.
    + apply (f_equal time_high_water_s) in H. cbn in H. lia.
    + unfold terminal. unfold revoked in Er. by rewrite Er.
  - assert (terminal r = false) as Hnt.
    { unfold terminal. unfold revoked in Er. rewrite Er. by apply Z.leb_gt. }
    destruct (stops_managed _ _ _ Hm Hnt (expire_stops r now_s Hm Hnt ltac:(lia) ltac:(lia)))
      as [Hmc Hrev].
    rewrite Hrev. by eapply meets_revision.
Qed.

Lemma revoke_meets r now_s : managed r → meets r (effect Revoke r now_s) (revoke_key r now_s).
Proof.
  intros Hm. cbn [effect]. unfold revoke_key. fold (revoked r).
  destruct (revoked r) eqn:Er; [by split_and!; [..|left]|]. destruct (is_live r now_s) eqn:El.
  - rewrite require_live, El. cbn [mbind result_bind].
    assert (key_transition (state r) "revoke" = Ok KeyLifecycleState.REVOKED) as ->
      by (by destruct (state r)). cbn [mbind result_bind].
    change (transition _ _ _ _ _ _ _) with (revision r (with_state KeyLifecycleState.REVOKED
      (with_time now_s (with_policy (policy_id r) (with_verifiers (generation_high_water r)
        (retire_verifiers (credential_verifiers r) now_s)
        (retire_verifiers (legacy_verifiers r) now_s) r)))) None).
    change (with_state _ _) with (retired_record now_s r).
    destruct (stops_managed _ _ _ Hm (live_not_terminal r now_s El Er)
      (retire_stops r now_s Hm El Er)) as [Hmc Hrev].
    rewrite Hrev. by eapply meets_revision.
  - by apply not_live_Err.
Qed.

Lemma revision_target r c p : revision r c (Some p) = Ok c → terminal r = false →
  PolicyReassignment.target_policy_id p = policy_id c.
Proof.
  intros H Hnt. unfold revision in H. apply bind_Ok in H as (c' & Hc & H).
  apply KeyLifecycleFacts.key_validate_id in Hc as ->. apply bind_Ok in H as ([] & H & _).
  unfold validate_key_record_delta in H.
  apply bind_Ok in H as (b & Hb & H). apply bind_Ok in H as (a & Ha & H).
  apply KeyLifecycleFacts.key_validate_id in Hb as ->, Ha as ->.
  inv_ok_step H. inv_ok_step H. rewrite Hnt in H. repeat inv_ok_step H.
  match goal with H : check_reassignment _ _ _ = _ |- _ => rename H into Hr end.
  unfold check_reassignment in Hr. destruct (negb (bool_decide (policy_id c = _))); inv_ok Hr; bprop; tauto.
Qed.

Lemma revision_valid r c p c' : revision r c p = Ok c' → c' = c ∧ wf c.
Proof.
  unfold revision. intros H. apply bind_Ok in H as (d & Hd & H).
  pose proof (validate_wf _ _ Hd). apply KeyLifecycleFacts.key_validate_id in Hd as ->.
  apply bind_Ok in H as (u & _ & H). by injection H as <-.
Qed.

Lemma reassign_meets r now_s p : managed r →
  meets r (effect (Reassign p) r now_s) (reassign_key_policy r p now_s).
Proof.
  intros Hm. cbn [effect]. unfold reassign_key_policy. cbv zeta.
  set (t := PolicyReassignment.target_policy_id p).
  destruct (is_live r now_s) eqn:El; [|by apply not_live_Err].
  rewrite require_live, El. cbn [mbind result_bind andb].
  case_bool_decide as Hexp; [|by apply command_refused]. cbn [negb raise_if mbind result_bind].
  assert (with_verifiers (generation_high_water r) (credential_verifiers r) (legacy_verifiers r) r = r)
    as Hsame by (by destruct r).
  unfold transition. cbn [default from_option]. rewrite Hsame.
  change (with_state _ _) with (advanced (state r) (or_policy (Some t) r) now_s r).
  destruct (revoked r) eqn:Er.
  - assert (terminal r = true) as Ht by (unfold terminal; unfold revoked in Er; by rewrite Er).
    destruct ((now_s =? time_high_water_s r) && _) eqn:E.
    + bprop in E. destruct E as [-> Et]. rewrite Et.
      assert (advanced (state r) (policy_id r) (time_high_water_s r) r = r) as -> by (by destruct r).
      unfold revision, validate_key_record_delta.
      do 2 (rewrite !(wf_validate r) by apply Hm; cbn [mbind result_bind]).
      rewrite Ht, !bool_decide_true, Z.eqb_refl by done. by split_and!; [..|left].
    + apply meets_never; [apply revision_value_errors|]. intros r' H. pose proof H as H'.
      apply revision_valid in H' as [-> _]. unfold revision in H.
      apply bind_Ok in H as (c & Hc & H). apply KeyLifecycleFacts.key_validate_id in Hc as ->.
      apply bind_Ok in H as ([] & H%KeyLifecycleFacts.delta_narrowed & _).
      apply KeyLifecycleFacts.nar_terminal in H; [|done].
      pose proof (f_equal time_high_water_s H) as Hn. apply (f_equal policy_id) in H.
      cbn [advanced with_state with_time with_policy time_high_water_s policy_id] in H, Hn.
      by rewrite H, Hn, Z.eqb_refl, bool_decide_true in E.
  - pose proof (live_not_terminal r now_s El Er) as Hnt.
    destruct (is_ok (typed_id_new PolicyRevisionId t)) eqn:Et.
    + assert (or_policy (Some t) r = t) as ->.
      { cbn. case_bool_decide as Hempty; [|done]. by rewrite Hempty in Et. }
      assert (state r ≠ KeyLifecycleState.REVOKED) as Hs by (unfold revoked in Er; by bprop in Er).
      assert (check_reassignment r (advanced (state r) t now_s r) (Some p) = Ok tt) as Hc.
      { unfold check_reassignment. cbn [advanced with_state with_time with_policy policy_id].
        fold t. rewrite Hexp.
        destruct (negb (bool_decide (t = _))); by rewrite !bool_decide_true by done. }
      rewrite advanced_revision by done.
      eapply meets_revision; [by apply advanced_managed|by apply advanced_revision].
    + apply meets_never; [apply revision_value_errors|]. intros r' H. pose proof H as H'.
      apply revision_valid in H' as [-> Hwf]. apply revision_target in H; [|done].
      pose proof (wf_policy _ Hwf) as Hp. rewrite <-H in Hp. fold t in Hp. congruence.
Qed.

Hypothesis hmac_length : ∀ pepper message, length (hmac_sha256 pepper message) = 32%nat.

Lemma rotation_rotation secret id pepper version now_s overlap_s r v :
  managed r → is_live r now_s = true → revoked r = false → active r = [v] →
  is_pepper_version version = true → 0 ≤ overlap_s ≤ MAX_ROTATION_OVERLAP_S →
  rotation now_s r (retiring_of now_s overlap_s r v)
    (minted hmac_sha256 pepper id secret version (generation_high_water r + 1) now_s
       (expires_at_s r)).
Proof.
  intros Hm Hl Hr Hv Hver Hov. pose proof (live_not_terminal r now_s Hl Hr) as Hnt.
  pose proof (man_wf r Hm) as Hwf. destruct (wf_live r Hwf Hnt) as (v' & Hv' & Hg).
  rewrite Hv in Hv'. injection Hv' as <-.
  assert (v ∈ active r) as Hact by (rewrite Hv; left).
  assert (v ∈ verifiers r ∧ ClientVerifier.status v = CredentialVerifierStatus.ACTIVE) as [Hin Hst].
  { apply list_elem_of_In, filter_In in Hact as [Hin Hst]. apply list_elem_of_In in Hin.
    unfold status_is in Hst. by bprop in Hst. }
  pose proof (man_window r Hm Hnt v Hact) as Hna. pose proof (man_started r Hm v Hin) as Hnb.
  pose proof (wf_issued r Hwf). pose proof (wf_time r Hwf). pose proof (wf_high_water r Hwf).
  unfold is_live in Hl. bprop in Hl.
  pose proof (update_fields v (if overlap_s =? 0 then CredentialVerifierStatus.RETIRED
    else CredentialVerifierStatus.RETIRING) (Z.min (expires_at_s r) (now_s + overlap_s)))
    as (E1 & _ & _ & E4 & E5 & E6 & _).
  split; unfold retiring_of; rewrite ?E1, ?E4, ?E5, ?E6; try done.
  - exists v. split_and!; [done| |done..]. apply update_contracts; [lia|]. rewrite Hst.
    destruct (overlap_s =? 0); cbn; set_solver.
  - destruct (overlap_s =? 0); auto.
  - lia.
  - lia.
  - apply minted_ok; [done|lia|done|lia].
Qed.

Lemma rotate_meets r now_s secret pepper version overlap_s : managed r →
  length secret = SECRET_BYTES →
  meets r (effect (Rotate secret pepper version overlap_s) r now_s)
    (run_command (Rotate secret pepper version overlap_s) r now_s).
Proof.
  intros Hm Hs. pose proof (man_wf r Hm) as Hwf.
  destruct (key_id_bytes (key_id r) (wf_key r Hwf)) as (id & Hid & Hlen & _).
  cbn [effect run_command]. rewrite Hid. unfold rotate_key. cbv zeta.
  assert (∀ k, meets r None k → meets r (match active r with [_] => None | _ => None end) k) as Hnone.
  { intros k. by destruct (active r) as [|? []]. }
  unfold validate_pepper. destruct (32 <=? Z.of_nat (length pepper)) eqn:Epep.
  2: { apply Hnone. rewrite (proj2 (Z.ltb_lt _ _)) by (bprop in Epep; lia). by eexists. }
  rewrite (proj2 (Z.ltb_ge _ _)) by (bprop in Epep; lia). cbn [raise_if mbind result_bind andb].
  case_bool_decide as Hver0.
  { subst version. apply Hnone. by eexists. }
  cbn [raise_if mbind result_bind]. destruct (is_live r now_s) eqn:El.
  2: { rewrite andb_false_r. apply Hnone, failed_bind. by apply not_live_Err. }
  rewrite require_live, El, andb_true_r. cbn [mbind result_bind].
  unfold refuse_revoked. fold (revoked r). destruct (revoked r) eqn:Er.
  { rewrite andb_false_r. apply Hnone. by eexists. }
  cbn [raise_if mbind result_bind negb]. rewrite andb_true_r.
  destruct ((0 <=? overlap_s) && _) eqn:Eov.
  2: { rewrite andb_false_r. apply Hnone. by eexists. }
  rewrite andb_true_r. cbn [negb raise_if mbind result_bind].
  pose proof (live_not_terminal r now_s El Er) as Hnt.
  destruct (wf_live r Hwf Hnt) as (v & Hv & Hg). rewrite Hv, (current_active r v Hv).
  cbn [mbind result_bind]. rewrite Hid. cbn [mbind result_bind]. pose proof (wf_issued r Hwf). pose proof (wf_time r Hwf).
  pose proof (wf_high_water r Hwf). pose proof El as El'. unfold is_live in El'. bprop in El'.
  destruct (is_pepper_version version) eqn:Ever.
  - destruct (new_material_Ok hmac_sha256 hmac_length secret id pepper version
      (generation_high_water r + 1) now_s (expires_at_s r)) as (token & _ & ->); try done; try lia.
    cbn [mbind result_bind]. bprop in Eov.
    pose proof (rotation_rotation secret id pepper version now_s overlap_s r v Hm El Er Hv Ever Eov)
      as Hrot. fold (retiring_of now_s overlap_s r v).
    pose proof (rotated_revision _ _ _ _ Hm El Er Hrot) as Hrev.
    unfold rotation_of. pose proof (rotated_managed _ _ _ _ Hm El Er Hrot) as Hm'.
    unfold rotated_record in *.
    destruct (retiring_of now_s overlap_s r v); cbn [mbind result_bind];
      rewrite Hrev; cbn [mbind result_bind]; by eapply meets_revision.
  - unfold new_material. rewrite compute_verifier_Ok by done. cbn [mbind result_bind].
    unfold ClientCredentialVerifier.validate.
    cbn [ClientCredentialVerifier.pepper_version]. rewrite Ever, andb_false_r. cbn. by eexists.
Qed.

Lemma command_meets c r now_s : managed r → well_drawn c →
  meets r (effect c r now_s) (run_command c r now_s).
Proof.
  intros Hm Hd. destruct c as [| | | | |p|secret pepper version overlap_s].
  - apply edge_meets; try done. by intros [].
  - apply edge_meets; try done. by intros [].
  - apply edge_meets; try done. by intros [].
  - by apply expire_meets.
  - by apply revoke_meets.
  - by apply reassign_meets.
  - by apply rotate_meets.
Qed.

Lemma command_managed c r now_s r' : managed r → well_drawn c →
  run_command c r now_s = Ok r' →
  effect c r now_s = Some r' ∧ managed r' ∧ (r' = r ∨ KeyLifecycleFacts.revises r r').
Proof.
  intros Hm Hd H. pose proof (command_meets c r now_s Hm Hd) as Hc. rewrite H in Hc.
  destruct (effect c r now_s) as [r''|]; [|by destruct Hc as (e & [=] & _)].
  destruct Hc as ([= ->] & ? & ?). done.
Qed.

(** ** Issuance *)
Definition issued_record (id secret : bytes) (policy_id : string) (s : KeyLifecycleState)
    (pepper : bytes) (version : string) (now_s expires : Z) : ClientKeyRecord :=
  ClientKeyRecord.mk (hex id) policy_id s now_s expires now_s 1
    [minted hmac_sha256 pepper id secret version 1 now_s expires] [].

Lemma issued_managed id secret policy s pepper version now_s expires :
  length id = KEY_ID_BYTES → is_ok (typed_id_new PolicyRevisionId policy) = true →
  is_pepper_version version = true → 0 < now_s < expires → expires - now_s ≤ MAX_KEY_LIFETIME_S →
  s ≠ KeyLifecycleState.REVOKED →
  managed (issued_record id secret policy s pepper version now_s expires).
Proof.
  intros Hi Hp Hv Ht Hl Hs.
  assert (terminal (issued_record id secret policy s pepper version now_s expires) = false) as Hnt.
  { unfold terminal. cbn. rewrite bool_decide_false by done. apply Z.leb_gt. lia. }
  split; [split|..]; rewrite ?Hnt; try done; try (cbn; lia).
  - by apply (hex_matches id 16).
  - split_and!; try done; try (cbn; lia). cbn. apply NoDup_singleton.
  - intros v ->%list_elem_of_singleton. apply minted_ok; [done|lia|done|lia].
  - intros v ->%list_elem_of_singleton. cbn. lia.
  - intros _. by eexists.
  - intros v ->%list_elem_of_singleton. cbn. lia.
  - intros _ v ->%list_elem_of_singleton. done.
  - intros _ v ->%list_elem_of_singleton. done.
Qed.

Lemma issue_Ok id secret policy expiry pepper version now_s st issued :
  length id = KEY_ID_BYTES → length secret = SECRET_BYTES →
  issue_key hmac_sha256 id secret policy expiry pepper version now_s st = Ok issued →
  let expires := default (now_s + DEFAULT_KEY_LIFETIME_S) expiry in
  ∃ s token, lifecycle_state_of st = Ok s ∧ s ≠ KeyLifecycleState.REVOKED ∧
    0 < now_s < expires ∧ 32 ≤ Z.of_nat (length pepper) ∧ format_client_key id secret = Ok token ∧
    issued = IssuedOnce.init
      (issued_record id secret (policy_id_of policy) s pepper version now_s expires) token ∧
    managed (IssuedOnce.record issued).
Proof.
  intros Hi Hs H expires. unfold issue_key, validate_pepper in H. cbv zeta in H.
  apply bind_Ok in H as ([] & Hp & H). apply bind_Ok in Hp as ([] & Hp & Hver0).
  fold expires in H. inv_ok_step H. inv_ok_step H. apply raise_if_Ok in Hp. bprop.
  apply bind_Ok in H as ([v value] & Hn & H). apply bind_Ok in H as (s & Hst & H).
  apply bind_Ok in H as (r & Hr & H). unfold new_material in Hn.
  apply bind_Ok in Hn as (d & Hd & Hn). apply bind_Ok in Hn as (v' & Hv & Hn).
  apply bind_Ok in Hn as (token & Htok & Hn). injection Hn as -> ->.
  rewrite compute_verifier_Ok in Hd by done. injection Hd as <-.
  apply canonical_validate_Ok in Hv as [-> (_ & _ & Hpv & Hnow & _)]. cbn in Hpv, Hnow.
  assert (r = issued_record id secret (policy_id_of policy) s pepper version now_s expires) as Er.
  { by apply KeyLifecycleFacts.key_validate_id in Hr. }
  apply validate_wf in Hr.
  assert (s ≠ KeyLifecycleState.REVOKED) as Hs'.
  { intros ->. subst r. pose proof (wf_terminal _ Hr eq_refl) as Hf. cbn in Hf. done. }
  exists s, value. injection H as <-. subst r.
  split_and!; try done. cbn [IssuedOnce.record IssuedOnce.init].
  apply issued_managed; try done. apply Hr.
Qed.

(** Every record the commands make of an issued one. *)
Inductive lifetime : ClientKeyRecord → Prop :=
| lifetime_issued id secret policy expiry pepper version now_s st issued :
    length id = KEY_ID_BYTES → length secret = SECRET_BYTES →
    issue_key hmac_sha256 id secret policy expiry pepper version now_s st = Ok issued →
    lifetime (IssuedOnce.record issued)
| lifetime_command r c now_s r' :
    lifetime r → well_drawn c → run_command c r now_s = Ok r' → lifetime r'.

Lemma lifetime_managed r : lifetime r → managed r.
Proof.
  induction 1 as [id secret policy expiry pepper version now_s st issued Hi Hs H|r c now_s r' _ IH Hd H].
  - by destruct (issue_Ok _ _ _ _ _ _ _ _ _ Hi Hs H) as (s & token & _ & _ & _ & _ & _ & _ & Hm).
  - by destruct (command_managed c r now_s r' IH Hd H) as (_ & Hm & _).
Qed.

(** ** What becomes of a key that stopped *)
Lemma terminal_chain r r' : rtc KeyLifecycleFacts.revises r r' → terminal r = true → r' = r.
Proof.
  induction 1 as [r|r r1 r' [p H%KeyLifecycleFacts.delta_narrowed] _ IH]; intros Ht; [done|].
  pose proof (KeyLifecycleFacts.nar_terminal _ _ _ H Ht) as ->. by apply IH.
Qed.

Lemma stopped_credential view r v : wf r → terminal r = true → v ∈ verifiers r →
  credential_is_accepted v r view = false.
Proof.
  intros Hr Ht Hv. destruct (credential_is_accepted v r view) eqn:E; [|done].
  unfold credential_is_accepted, status_is_accepted in E. apply andb_true_iff in E as [E _].
  apply andb_true_iff in E as [E _]. apply andb_true_iff in E as [E _].
  assert (v ∈ accepted r) as Hin.
  { apply list_elem_of_In, filter_In. split; [by apply list_elem_of_In|done]. }
  rewrite (wf_terminal r Hr Ht) in Hin. by apply elem_of_nil in Hin.
Qed.

Lemma stopped_refused view r : wf r → terminal r = true → view_ok view →
  dget (key_id r) view.(AuthRuntimeView.key_index) = Some r →
  (∀ parsed c, verify_client_key hmac_sha256 parsed view = Ok c →
    c.(AuthenticatedClient.key_id) ≠ key_id r) ∧
  (∀ c, c.(AuthenticatedClient.key_id) = key_id r → queued_identity_is_authorized c view = false).
Proof.
  intros Hr Ht Hview Hg. split.
  - intros parsed c H Hc.
    destruct (verified hmac_sha256 view parsed c Hview H) as (r' & v & Hr' & Hv & _ & _ & Ha & _).
    rewrite Hc, Hg in Hr'. injection Hr' as <-. by rewrite stopped_credential in Ha.
  - intros c Hc. unfold queued_identity_is_authorized. rewrite Hc, Hg. apply andb_false_iff. right.
    apply existsb_false. intros v Hv. by rewrite stopped_credential, andb_false_r.
Qed.

Lemma stopping_effect c r now_s r' : c = Revoke ∨ c = Expire → effect c r now_s = Some r' →
  terminal r' = true ∧ key_id r' = key_id r.
Proof.
  intros [-> | ->] H; cbn [effect] in H.
  - destruct (revoked r) eqn:Er.
    + injection H as <-. unfold terminal. unfold revoked in Er. by rewrite Er.
    + destruct (is_live r now_s); [|done]. by injection H as <-.
  - destruct (_ || _) eqn:E; [done|]. bprop in E. destruct (Z.leb_spec (expires_at_s r) (time_high_water_s r)).
    + injection H as <-. unfold terminal. split; [|done]. apply orb_true_iff. right. by apply Z.leb_le.
    + destruct (revoked r); [done|]. injection H as <-. split; [|done].
      unfold terminal, expired_record. cbn. apply orb_true_iff. right. apply Z.leb_le. lia.
Qed.

(** ** What a minted key opens *)

(** What the identity of a view requires besides a credential. *)
Definition admissible (view : AuthRuntimeView) (r : ClientKeyRecord) : bool :=
  pepper_set_is_valid view && bool_decide (state r = KeyLifecycleState.ENABLED) &&
  negb (bool_decide (key_id r ∈ view.(AuthRuntimeView.denied_key_ids))).

Lemma not_refused view r : record_refused r view = false ↔
  state r = KeyLifecycleState.ENABLED ∧ (key_id r ∉ view.(AuthRuntimeView.denied_key_ids)) ∧
  view.(AuthRuntimeView.trusted_now_s) < expires_at_s r.
Proof. unfold record_refused. split; intros H; bprop; bprop in H; naive_solver lia. Qed.

(** The presentation of a token: parse and verify. *)
Definition authenticate (token : string) (view : AuthRuntimeView) : result AuthenticatedClient :=
  parsed ← parse_client_key (Text token) []; verify_client_key hmac_sha256 parsed view.

Lemma authenticate_minted id secret token view : length id = KEY_ID_BYTES →
  length secret = SECRET_BYTES → format_client_key id secret = Ok token → view_ok view →
  authenticate token view =
    canonical_decision hmac_sha256 view (ParsedClientKey.mk (hex id) id secret).
Proof.
  intros Hi Hs Ht Hv. unfold authenticate, parse_client_key.
  change (one_candidate (Text token) []) with (Ok token). cbn [mbind result_bind mret result_ret].
  rewrite (KeyMaterialFacts.parse_format _ _ _ Ht). cbn [mbind result_bind mret result_ret on_invalid].
  by rewrite canonical_exact.
Qed.

Lemma proves_minted view id secret r pepper version generation now_s expires secret' :
  dget version view.(AuthRuntimeView.accepted_peppers) = Some pepper →
  proves hmac_sha256 view (ParsedClientKey.mk (hex id) id secret') r
    (minted hmac_sha256 pepper id secret version generation now_s expires) =
  (now_s <=? view.(AuthRuntimeView.trusted_now_s)) &&
  (view.(AuthRuntimeView.trusted_now_s) <? expires) &&
  (view.(AuthRuntimeView.trusted_now_s) <? expires_at_s r) &&
  bool_decide (hmac_sha256 pepper (CLIENT_KEY_DOMAIN ++ id ++ secret) =
               hmac_sha256 pepper (CLIENT_KEY_DOMAIN ++ id ++ secret')).
Proof.
  intros Hp. unfold proves, credential_is_accepted.
  cbn [minted ClientVerifier.status ClientVerifier.pepper_version ClientVerifier.not_before_s
    ClientVerifier.not_after_s ClientCredentialVerifier.status ClientCredentialVerifier.not_before_s
    ClientCredentialVerifier.not_after_s ClientCredentialVerifier.pepper_version
    ClientCredentialVerifier.verifier_hex ParsedClientKey.key_id_bytes ParsedClientKey.secret].
  rewrite Hp, (proj2 (dmem_true _ _)) by (apply dget_is_Some; eauto).
  unfold minted_digest. rewrite KeyMaterialFacts.fromhex_hex. cbn [status_is_accepted].
  rewrite andb_true_l. f_equal. apply bool_decide_ext. split; congruence.
Qed.

Lemma record_refused_admissible view r : view.(AuthRuntimeView.trusted_now_s) < expires_at_s r →
  pepper_set_is_valid view && negb (record_refused r view) = admissible view r.
Proof.
  intros Ht. unfold admissible, record_refused. rewrite (proj2 (Z.leb_gt _ _) Ht), orb_false_r.
  by rewrite negb_orb, negb_involutive, andb_assoc.
Qed.

(** A record refuses everything from its expiry on. *)
Lemma expired_refuses view p r :
  dget p.(ParsedClientKey.key_id) view.(AuthRuntimeView.key_index) = Some r →
  expires_at_s r ≤ view.(AuthRuntimeView.trusted_now_s) →
  canonical_decision hmac_sha256 view p = Err ClientAuthenticationError.
Proof.
  intros Hr Ht. unfold canonical_decision. rewrite Hr. destruct (last _); [|done].
  unfold record_refused. by rewrite (proj2 (Z.leb_le _ _) Ht), orb_true_r, andb_false_r.
Qed.

(** The decision on a key that exactly the verifier [v] of the record proves. *)
Lemma decided_by view p r v (b : bool) :
  dget p.(ParsedClientKey.key_id) view.(AuthRuntimeView.key_index) = Some r →
  view.(AuthRuntimeView.trusted_now_s) < expires_at_s r →
  last (List.filter (proves hmac_sha256 view p r) (credential_verifiers r)) =
    (if b then Some v else None) →
  canonical_decision hmac_sha256 view p =
  if admissible view r && b
  then Ok (authenticated r (ClientCredentialVerifier.generation v) view)
  else Err ClientAuthenticationError.
Proof.
  intros Hr Ht Hl. unfold canonical_decision.
  rewrite Hr, Hl, record_refused_admissible by done.
  destruct b; [by rewrite andb_true_r|by rewrite andb_false_r].
Qed.

(** ** What a rotation hands out *)
Lemma rotate_Ok secret r pepper version now_s overlap_s issued :
  managed r → length secret = SECRET_BYTES →
  rotate_key hmac_sha256 secret r pepper version now_s overlap_s = Ok issued →
  ∃ id v token, fromhex (key_id r) = Ok id ∧ length id = KEY_ID_BYTES ∧ hex id = key_id r ∧
    active r = [v] ∧ is_live r now_s = true ∧ 0 ≤ overlap_s ∧
    format_client_key id secret = Ok token ∧
    issued = IssuedOnce.init (rotation_of secret id pepper version now_s overlap_s r v) token ∧
    managed (IssuedOnce.record issued).
Proof.
  intros Hm Hs H. destruct (key_id_bytes (key_id r) (wf_key r (man_wf r Hm))) as (id & Hid & Hlen & Hx).
  assert (run_command (Rotate secret pepper version overlap_s) r now_s = Ok (IssuedOnce.record issued))
    as Hrun by (cbn; by rewrite H).
  destruct (command_managed (Rotate secret pepper version overlap_s) _ _ _ Hm Hs Hrun) as (He & Hm' & _). cbn [effect] in He.
  rewrite Hid in He. destruct (active r) as [|v []] eqn:Hv; [done| |done].
  destruct (_ && _) eqn:Hc; [|done]. injection He as He. bprop in Hc.
  destruct Hc as [[[[_ Hver] Hl] _] Hov].
  assert (∃ token, format_client_key id secret = Ok token ∧ IssuedOnce.value issued = Some token)
    as (token & Htok & Hval).
  { unfold rotate_key in H. cbv zeta in H.
    apply bind_Ok in H as (u1 & _ & H). apply bind_Ok in H as (u2 & _ & H).
    apply bind_Ok in H as (u3 & _ & H). apply bind_Ok in H as (u4 & _ & H).
    apply bind_Ok in H as (cur & _ & H). rewrite Hid in H. cbn [mbind result_bind] in H.
    apply bind_Ok in H as ([nv value] & Hn & H). exists value.
    unfold new_material in Hn. apply bind_Ok in Hn as (d & _ & Hn).
    apply bind_Ok in Hn as (v' & _ & Hn). apply bind_Ok in Hn as (tok & Htok & Hn).
    injection Hn as _ <-. split; [done|].
    destruct (v_update _ _ _); apply bind_Ok in H as (c & _ & H); by injection H as <-. }
  exists id, v, token. split_and!; try done; [tauto|].
  destruct issued as [rec value]. cbn in He, Hval. by subst.
Qed.

Lemma last_filter_snoc {A} (f : A → bool) l x : f x = true →
  last (List.filter f (l ++ [x])) = Some x.
Proof. intros Hf. rewrite List.filter_app. cbn. rewrite Hf. apply last_snoc. Qed.

Lemma retiring_credential r c now_s overlap_s :
  retiring_of now_s overlap_s r (ClientVerifier.Canonical c) = ClientVerifier.Canonical
    (v_update (if overlap_s =? 0 then CredentialVerifierStatus.RETIRED
               else CredentialVerifierStatus.RETIRING) (Z.min (expires_at_s r) (now_s + overlap_s)) c).
Proof. done. Qed.

(** The ACTIVE credential of a live record is its newest, and has started. *)
Lemma active_credential r c now_s : managed r → is_live r now_s = true →
  active r = [ClientVerifier.Canonical c] →
  ClientCredentialVerifier.generation c = generation_high_water r ∧
  ClientCredentialVerifier.not_before_s c ≤ now_s.
Proof.
  intros Hm Hl Hv.
  assert (ClientVerifier.Canonical c ∈ active r) as Hin by (rewrite Hv; left).
  assert (terminal r = false) as Hnt.
  { destruct (terminal r) eqn:Ht; [|done]. pose proof (wf_terminal r (man_wf r Hm) Ht) as Hacc.
    unfold active in Hin. apply list_elem_of_In, filter_In in Hin as [Hin Hs].
    assert (ClientVerifier.Canonical c ∈ accepted r) as Ha.
    { apply list_elem_of_In, filter_In. by rewrite Hs. }
    rewrite Hacc in Ha. by apply elem_of_nil in Ha. }
  destruct (wf_live r (man_wf r Hm) Hnt) as (v & Hv' & Hg). rewrite Hv in Hv'. injection Hv' as <-.
  split; [done|]. apply list_elem_of_In, filter_In in Hin as [Hin _]. apply list_elem_of_In in Hin.
  pose proof (man_started r Hm _ Hin). cbn in *. unfold is_live in Hl. bprop in Hl. lia.
Qed.

(** The retiring credential proves the previous secret for the overlap. *)
Lemma proves_retiring view id secret r' r c pepper now_s overlap_s :
  dget (ClientCredentialVerifier.pepper_version c) view.(AuthRuntimeView.accepted_peppers) =
    Some pepper →
  ClientCredentialVerifier.verifier_hex c = minted_digest hmac_sha256 pepper id secret →
  ClientCredentialVerifier.not_before_s c ≤ now_s → 0 ≤ overlap_s →
  now_s ≤ view.(AuthRuntimeView.trusted_now_s) → expires_at_s r' = expires_at_s r →
  proves hmac_sha256 view (ParsedClientKey.mk (hex id) id secret) r'
    (v_update (if overlap_s =? 0 then CredentialVerifierStatus.RETIRED
               else CredentialVerifierStatus.RETIRING) (Z.min (expires_at_s r) (now_s + overlap_s)) c) =
  (view.(AuthRuntimeView.trusted_now_s) <? Z.min (expires_at_s r) (now_s + overlap_s)).
Proof.
  intros Hp Hd Hnb Hov Hn He. unfold proves, credential_is_accepted.
  cbn [v_update canonical_verifier ClientVerifier.status ClientVerifier.pepper_version
    ClientVerifier.not_before_s ClientVerifier.not_after_s ClientCredentialVerifier.status
    ClientCredentialVerifier.not_before_s ClientCredentialVerifier.not_after_s
    ClientCredentialVerifier.pepper_version ClientCredentialVerifier.verifier_hex
    ParsedClientKey.key_id_bytes ParsedClientKey.secret].
  rewrite Hp, Hd, (proj2 (dmem_true _ _)) by (apply dget_is_Some; eauto).
  unfold minted_digest. rewrite KeyMaterialFacts.fromhex_hex, bool_decide_true, He by done.
  set (t := AuthRuntimeView.trusted_now_s view) in *.
  rewrite (proj2 (Z.leb_le _ t)) by lia. rewrite !andb_true_r, andb_true_l.
  destruct (Z.eqb_spec overlap_s 0) as [->|]; cbn [status_is_accepted].
  - symmetry. apply Z.ltb_ge. lia.
  - change (status_is_accepted CredentialVerifierStatus.RETIRING) with true. cbn [andb].
    destruct (Z.ltb_spec t (Z.min (expires_at_s r) (now_s + overlap_s))); [|done].
    apply Z.ltb_lt. lia.
Qed.
End Commands.

Module KeyControlTheorems.
Section KeyControlTheorems.
Context (hmac_sha256 : bytes → bytes → bytes).
Hypothesis hmac_length : ∀ pepper message, length (hmac_sha256 pepper message) = 32%nat.

(** The client-key commands do exactly what they are for.  On every record
    the control plane makes, from issuance on, a command succeeds if and only if
    its own conditions hold, its result is then the record the command describes,
    which is again such a record and (unless the command changed nothing) an
    accepted revision of the old one: the validators and the delta check that
    every command runs on its result never stop a legitimate command.  When the
    conditions fail the command raises a [ValueError] and nothing else; rotation
    in particular always finds an ACTIVE verifier. *)
Theorem key_commands_exact :
  (∀ r, lifetime hmac_sha256 r → managed r) ∧
  ∀ c r now_s, managed r → well_drawn c →
    match effect hmac_sha256 c r now_s with
    | Some r' => run_command hmac_sha256 c r now_s = Ok r' ∧ managed r' ∧
        (r' = r ∨ KeyLifecycleFacts.revises r r')
    | None => ∃ e, run_command hmac_sha256 c r now_s = Err e ∧ is_value_error e = true
    end.
Proof.
  split; [intros r; by apply lifetime_managed|]. intros c r now_s Hm Hd.
  by apply command_meets.
Qed.

(** An issued key opens exactly its record's lifetime.  What [issue_key]
    hands out can be revealed once and only once, the record keeps no secret but
    the digest, and the revealed token, presented to any gateway whose view holds
    the record and the pepper, authenticates as credential generation 1 if and
    only if the record is enabled, its key not denied, the pepper set valid, and
    the trusted time between issuance and expiry; every refusal is the same
    [ClientAuthenticationError]. *)
Theorem issued_key_opens id secret policy expiry pepper version now_s st issued :
  length id = KEY_ID_BYTES → length secret = SECRET_BYTES →
  issue_key hmac_sha256 id secret policy expiry pepper version now_s st = Ok issued →
  ∃ token spent, let r := IssuedOnce.record issued in
    IssuedOnce.reveal_once issued = (spent, Ok (RevealedClientKey.mk token RESPONSE_HEADERS)) ∧
    IssuedOnce.reveal_once spent =
      (spent, Err (RuntimeError "client key was already revealed")) ∧
    IssuedOnce.record spent = r ∧
    ∀ view, view_ok view →
      dget (key_id r) view.(AuthRuntimeView.key_index) = Some r →
      dget version view.(AuthRuntimeView.accepted_peppers) = Some pepper →
      authenticate hmac_sha256 token view =
        if admissible view r && ((now_s <=? view.(AuthRuntimeView.trusted_now_s)) &&
            (view.(AuthRuntimeView.trusted_now_s) <? expires_at_s r))
        then Ok (authenticated r 1 view) else Err ClientAuthenticationError.
Proof.
  intros Hi Hs H.
  destruct (issue_Ok hmac_sha256 hmac_length _ _ _ _ _ _ _ _ _ Hi Hs H)
    as (s & token & _ & _ & _ & _ & Htok & -> & _).
  eexists token, _. cbv zeta. split_and!; [done..|]. intros view Hview Hr Hp.
  set (r := IssuedOnce.record _) in *. rewrite (authenticate_minted hmac_sha256 id secret) by done.
  set (p := ParsedClientKey.mk _ _ _).
  destruct (Z.ltb_spec (AuthRuntimeView.trusted_now_s view) (expires_at_s r)) as [Hlt|Hge].
  2: { rewrite !andb_false_r. by apply (expired_refuses hmac_sha256 view p r). }
  rewrite andb_true_r. eapply (decided_by hmac_sha256 view p r (minted hmac_sha256 pepper id secret
    version 1 now_s (expires_at_s r))); [done..|].
  change (credential_verifiers r) with [minted hmac_sha256 pepper id secret version 1 now_s
    (expires_at_s r)]. cbn [List.filter]. unfold p. rewrite proves_minted by done.
  rewrite (proj2 (Z.ltb_lt _ _) Hlt), bool_decide_true, !andb_true_r by done.
  by destruct (now_s <=? _).
Qed.

(** C17. A rotation hands over exactly.  Once [rotate_key] returns, a gateway that
    holds the new record accepts the new token, as the next generation, until the
    key expires, and it accepts the previous token, as its old generation, until
    the overlap is over and not one second longer (with no overlap, not at all):
    whatever else could be accepted for the previous token is a collision of the
    digest. *)
Theorem rotation_hands_over secret r pepper version now_s overlap_s issued :
  managed r → length secret = SECRET_BYTES →
  rotate_key hmac_sha256 secret r pepper version now_s overlap_s = Ok issued →
  ∃ token spent id, let r' := IssuedOnce.record issued in
    managed r' ∧ key_id r' = key_id r ∧ fromhex (key_id r) = Ok id ∧
    IssuedOnce.reveal_once issued = (spent, Ok (RevealedClientKey.mk token RESPONSE_HEADERS)) ∧
    ∀ view, view_ok view →
      dget (key_id r') view.(AuthRuntimeView.key_index) = Some r' →
      dget version view.(AuthRuntimeView.accepted_peppers) = Some pepper →
      now_s ≤ view.(AuthRuntimeView.trusted_now_s) →
      authenticate hmac_sha256 token view =
        (if admissible view r' && (view.(AuthRuntimeView.trusted_now_s) <? expires_at_s r)
         then Ok (authenticated r' (generation_high_water r + 1) view)
         else Err ClientAuthenticationError) ∧
      ∀ old_token old_secret old_pepper v,
        active r = [ClientVerifier.Canonical v] →
        length old_secret = SECRET_BYTES → format_client_key id old_secret = Ok old_token →
        dget (ClientCredentialVerifier.pepper_version v)
          view.(AuthRuntimeView.accepted_peppers) = Some old_pepper →
        ClientCredentialVerifier.verifier_hex v = minted_digest hmac_sha256 old_pepper id old_secret →
        authenticate hmac_sha256 old_token view =
          (if admissible view r' &&
              (view.(AuthRuntimeView.trusted_now_s) <? Z.min (expires_at_s r) (now_s + overlap_s))
           then Ok (authenticated r' (generation_high_water r) view)
           else Err ClientAuthenticationError) ∨
        hmac_sha256 pepper (CLIENT_KEY_DOMAIN ++ id ++ secret) =
          hmac_sha256 pepper (CLIENT_KEY_DOMAIN ++ id ++ old_secret).
Proof.
  intros Hm Hs H. destruct (rotate_Ok hmac_sha256 hmac_length _ _ _ _ _ _ _ Hm Hs H)
    as (id & v & token & Hid & Hlen & Hx & Hv & Hl & Hov & Htok & -> & Hm').
  eexists token, _, id. cbv zeta. cbn [IssuedOnce.record IssuedOnce.init] in *.
  set (r' := rotation_of _ _ _ _ _ _ _ _ _) in *.
  set (new := minted hmac_sha256 pepper id secret version (generation_high_water r + 1) now_s
    (expires_at_s r)).
  split_and!; [done..|]. intros view Hview Hr Hp Hn.
  change (key_id r') with (key_id r) in Hr. rewrite <-Hx in Hr.
  assert (expires_at_s r' = expires_at_s r) as He by done.
  set (t := AuthRuntimeView.trusted_now_s view) in *.
  assert (∀ secret', t < expires_at_s r →
    proves hmac_sha256 view (ParsedClientKey.mk (hex id) id secret') r' new =
    bool_decide (hmac_sha256 pepper (CLIENT_KEY_DOMAIN ++ id ++ secret) =
                 hmac_sha256 pepper (CLIENT_KEY_DOMAIN ++ id ++ secret'))) as Hnew.
  { intros secret' Ht. unfold new. rewrite proves_minted, He by done. fold t.
    by rewrite (proj2 (Z.leb_le _ _) Hn), (proj2 (Z.ltb_lt _ _) Ht). }
  assert (∃ l, credential_verifiers r' = l ++ [new] ∧ ∀ c, v = ClientVerifier.Canonical c →
    l = [v_update (if overlap_s =? 0 then CredentialVerifierStatus.RETIRED
      else CredentialVerifierStatus.RETIRING) (Z.min (expires_at_s r) (now_s + overlap_s)) c])
    as (l & Hc & Hlc).
  { destruct v as [c|c].
    - eexists [_]. split; [done|]. by intros c' [= <-].
    - exists []. by split. }
  split.
  - rewrite (authenticate_minted hmac_sha256 id secret) by done.
    destruct (Z.ltb_spec t (expires_at_s r)) as [Hlt|Hge].
    2: { rewrite andb_false_r. by apply (expired_refuses hmac_sha256 view _ r'). }
    apply (decided_by hmac_sha256 view _ r' new true); [done..|].
    rewrite Hc. apply last_filter_snoc. rewrite Hnew by done. by apply bool_decide_true.
  - intros old_token old_secret old_pepper c Hact Hos Hotok Hop Hd.
    rewrite Hv in Hact. injection Hact as ->. specialize (Hlc c eq_refl).
    destruct (decide (hmac_sha256 pepper (CLIENT_KEY_DOMAIN ++ id ++ secret) =
      hmac_sha256 pepper (CLIENT_KEY_DOMAIN ++ id ++ old_secret))) as [|Hne]; [by right|left].
    rewrite (authenticate_minted hmac_sha256 id old_secret) by done.
    destruct (Z.ltb_spec t (expires_at_s r)) as [Hlt|Hge].
    2: { rewrite (proj2 (Z.ltb_ge _ _)), andb_false_r by lia.
         by apply (expired_refuses hmac_sha256 view _ r'). }
    pose proof (active_credential r c now_s Hm Hl Hv) as [Hg Hnb].
    set (ret := v_update _ _ c) in Hlc.
    assert (ClientCredentialVerifier.generation ret = generation_high_water r) as <- by exact Hg.
    apply (decided_by hmac_sha256 view _ r' ret); [done..|]. rewrite Hc, Hlc. cbn [app List.filter].
    rewrite Hnew, bool_decide_false by done. unfold ret.
    rewrite (proves_retiring hmac_sha256 view id old_secret r' r c old_pepper) by done.
    fold t. by destruct (t <? _).
Qed.

(** C16. Revocation and expiry are final for every gateway.  After [revoke_key] or
    [expire_key], in whatever revision of the record is accepted later, no
    presented credential, canonical or legacy, authenticates as that key, and no
    queued identity of that key passes its recheck, whatever the gateway's clock,
    peppers and denials are. *)
Theorem stopped_key_never_opens c r now_s r1 r2 view :
  managed r → c = Revoke ∨ c = Expire → run_command hmac_sha256 c r now_s = Ok r1 →
  rtc KeyLifecycleFacts.revises r1 r2 → view_ok view →
  dget (key_id r) view.(AuthRuntimeView.key_index) = Some r2 →
  (∀ parsed client, verify_client_key hmac_sha256 parsed view = Ok client →
    client.(AuthenticatedClient.key_id) ≠ key_id r) ∧
  (∀ client, client.(AuthenticatedClient.key_id) = key_id r →
    queued_identity_is_authorized client view = false).
Proof.
  intros Hm Hc Hrun Hchain Hview Hg.
  assert (well_drawn c) as Hd by (by destruct Hc as [-> | ->]).
  destruct (command_managed hmac_sha256 hmac_length c r now_s r1 Hm Hd Hrun) as (He & Hm1 & _).
  destruct (stopping_effect hmac_sha256 c r now_s r1 Hc He) as [Ht Hk].
  rewrite (terminal_chain _ _ Hchain Ht) in Hg. rewrite <-Hk in *.
  apply stopped_refused; try done. apply Hm1.
Qed.
End KeyControlTheorems.
End KeyControlTheorems.

(** ** Witnesses *)
Module KeyControlSamples.
(** A digest for the evaluation: the last 32 bytes of the padded message. *)
Definition digest (pepper message : bytes) : bytes :=
  take 32 (rev message ++ replicate 32 "0"%char).
Lemma digest_length pepper message : length (digest pepper message) = 32%nat.
Proof. unfold digest. rewrite length_take, length_app, length_replicate. lia. Qed.

Definition id : bytes := replicate 16 "i"%char.
Definition secret : bytes := replicate 32 "s"%char.
Definition next_secret : bytes := replicate 32 "t"%char.
Definition pepper : bytes := replicate 32 "p"%char.
Definition or_else {A} (d : A) (r : result A) : A := match r with Ok a => a | Err _ => d end.

Definition issued : IssuedOnce := or_else (IssuedOnce.init DUMMY_RECORD "")
  (issue_key digest id secret (inr Samples.policy) (Some 9000) pepper "v1" 1000 "enabled").
Definition record : ClientKeyRecord := IssuedOnce.record issued.
Definition rotated : IssuedOnce := or_else (IssuedOnce.init DUMMY_RECORD "")
  (rotate_key digest next_secret record pepper "v1" 2000 500).
Definition view (r : ClientKeyRecord) (now_s : Z) : AuthRuntimeView :=
  AuthRuntimeView.mk [(key_id r, r)] 1 Samples.bundle_hash [] [("v1", pepper)] [] now_s.

Lemma issued_Ok : issue_key digest id secret (inr Samples.policy) (Some 9000) pepper "v1" 1000
  "enabled" = Ok issued.
Proof. by vm_compute. Qed.
Lemma rotated_Ok : rotate_key digest next_secret record pepper "v1" 2000 500 = Ok rotated.
Proof. by vm_compute. Qed.
Lemma record_managed : managed record.
Proof.
  apply (lifetime_managed digest digest_length). by eapply lifetime_issued, issued_Ok.
Qed.
Lemma view_ok_of r now_s : ClientKeyRecord.validate r = Ok r → view_ok (view r now_s).
Proof.
  intros Hr k r' H. apply dget_elem_of in H.
  by apply list_elem_of_singleton in H as [= -> ->].
Qed.
End KeyControlSamples.
Import KeyControlSamples.

(** The issued record is suspended and revoked; it cannot be expired before its time. *)
Lemma key_commands_exact_witness :
  run_command digest Suspend record 1500 =
    Ok (advanced KeyLifecycleState.SUSPENDED Samples.policy 1500 record) ∧
  ∃ e, run_command digest Expire record 1500 = Err e ∧ is_value_error e = true.
Proof.
  destruct (KeyControlTheorems.key_commands_exact digest digest_length) as [_ H].
  assert (effect digest Suspend record 1500 =
    Some (advanced KeyLifecycleState.SUSPENDED Samples.policy 1500 record)) as E1 by (by vm_compute).
  assert (effect digest Expire record 1500 = None) as E2 by (by vm_compute).
  pose proof (H Suspend record 1500 record_managed I) as H1. rewrite E1 in H1.
  pose proof (H Expire record 1500 record_managed I) as H2. rewrite E2 in H2.
  split; [exact (proj1 H1)|exact H2].
Defined.

Lemma issued_key_opens_witness :
  ∃ token spent, IssuedOnce.reveal_once issued =
      (spent, Ok (RevealedClientKey.mk token RESPONSE_HEADERS)) ∧
    authenticate digest token (view record 5000) = Ok (authenticated record 1 (view record 5000)).
Proof.
  destruct (KeyControlTheorems.issued_key_opens digest digest_length id secret (inr Samples.policy)
    (Some 9000) pepper "v1" 1000 "enabled" issued) as (token & spent & H1 & _ & _ & H2);
    [reflexivity|reflexivity|exact issued_Ok|].
  exists token, spent. split; [exact H1|].
  rewrite (H2 (view record 5000)); [by vm_compute|apply view_ok_of; by vm_compute|by vm_compute..].
Defined.

(** The new token opens the key, and the old one for the 500 seconds of overlap. *)
Lemma rotation_hands_over_witness :
  ∃ token, let r := IssuedOnce.record rotated in
    authenticate digest token (view r 2600) = Ok (authenticated r 2 (view r 2600)) ∧
    ∃ old_token, format_client_key id secret = Ok old_token ∧
      authenticate digest old_token (view r 2499) = Ok (authenticated r 1 (view r 2499)) ∧
      authenticate digest old_token (view r 2500) = Err ClientAuthenticationError.
Proof.
  destruct (KeyControlTheorems.rotation_hands_over digest digest_length next_secret record pepper
    "v1" 2000 500 rotated) as (token & spent & i & _ & _ & Hi & _ & H);
    [exact record_managed|reflexivity|exact rotated_Ok|].
  assert (i = id) as -> by (vm_compute in Hi; injection Hi as <-; reflexivity).
  assert (ClientKeyRecord.validate (IssuedOnce.record rotated) = Ok (IssuedOnce.record rotated)) as Hr
    by (by vm_compute).
  exists token. cbv zeta. split.
  { destruct (H (view (IssuedOnce.record rotated) 2600)) as [H1 _];
      [by apply view_ok_of|by vm_compute..|done|]. rewrite H1. by vm_compute. }
  eexists. split; [by vm_compute|]. split.
  - destruct (H (view (IssuedOnce.record rotated) 2499)) as [_ H1];
      [by apply view_ok_of|by vm_compute..|done|].
    destruct (H1 _ secret pepper (minted digest pepper id secret "v1" 1 1000 9000)
      ltac:(by vm_compute) ltac:(reflexivity) ltac:(by vm_compute) ltac:(by vm_compute)
      ltac:(by vm_compute)) as [H2|H2]; [rewrite H2; by vm_compute|by vm_compute in H2].
  - destruct (H (view (IssuedOnce.record rotated) 2500)) as [_ H1];
      [by apply view_ok_of|by vm_compute..|done|].
    destruct (H1 _ secret pepper (minted digest pepper id secret "v1" 1 1000 9000)
      ltac:(by vm_compute) ltac:(reflexivity) ltac:(by vm_compute) ltac:(by vm_compute)
      ltac:(by vm_compute)) as [H2|H2]; [rewrite H2; by vm_compute|by vm_compute in H2].
Defined.

Lemma stopped_key_never_opens_witness :
  ∃ r1, run_command digest Revoke record 1500 = Ok r1 ∧
    ∀ parsed client, verify_client_key digest parsed (view r1 1200) = Ok client →
      client.(AuthenticatedClient.key_id) ≠ key_id record.
Proof.
  eexists. split; [by vm_compute|].
  eapply (KeyControlTheorems.stopped_key_never_opens digest digest_length Revoke record 1500);
    [exact record_managed|by left|by vm_compute|constructor|apply view_ok_of; by vm_compute|
     by vm_compute].
Defined.
