(* ===== verification/Adapter.v ===== *)
(** * The LiteLLM adapter: contract, generation guard and dispatch

    [adapters/litellm/contract.py], [guard.py] and [dispatch.py]: the certified
    contract with the validators of its records, the semantic fingerprint of a
    deployment, the preparation of a dispatch and the reconciliation of its
    receipt.  SHA-256 is the parameter [sha256].  A JSON value is a [Json] of
    [Canonical]; the records' own strings are ASCII. *)
From S2P Require Export Canonical Models.
From Stdlib Require Import Ascii.
#[local] Open Scope Z_scope.

(** [str.startswith] *)
Definition starts_with (prefix s : string) : bool := String.prefix prefix s.
(** [s in (..., ...)] *)
Definition one_of (values : list string) (s : string) : bool := bool_decide (s ∈ values).
(** [len(set(l)) != len(l)] *)
Definition repeats {A} `{EqDecision A} (l : list A) : bool := has_duplicates l.
(** [set(a) == set(b)] *)
Definition same_set {A} `{EqDecision A} (a b : list A) : bool :=
  forallb (λ x, bool_decide (x ∈ b)) a && forallb (λ x, bool_decide (x ∈ a)) b.

(** ** Patterns *)
Definition SHA256_PATTERN : list charclass := literal "sha256:" ++ HEX64_PATTERN.
Definition MANIFEST_PATTERN : list charclass := literal "bm1_" ++ HEX64_PATTERN.
(** White space of the pattern language. *)
Definition is_space (c : ascii) : bool :=
  let z := byte_value c in ((9 <=? z) && (z <=? 13)) || (z =? 32) || (z =? 0x85) || (z =? 0xA0).
(** [^[^/\s]+/[^/\s]+$] *)
Fixpoint split_slash (l : list ascii) : option (list ascii * list ascii) :=
  match l with
  | [] => None
  | c :: l =>
      if Ascii.eqb c "/" then Some ([], l)
      else match split_slash l with Some (a, b) => Some (c :: a, b) | None => None end
  end.
Definition alias_char (c : ascii) : bool := negb (Ascii.eqb c "/") && negb (is_space c).
Definition is_hidden_alias (s : string) : bool :=
  match split_slash (String.list_ascii_of_string s) with
  | Some (a, b) => negb (bool_decide (a = [])) && negb (bool_decide (b = [])) &&
                   forallb alias_char a && forallb alias_char b
  | None => false
  end.

(** ** The contract *)
Module ExactLiteLLMBuild.
Record t := mk {
  version : string; image : string; source_commit : string; source_files : dict string string }.

Definition validate (b : t) : result t :=
  raise_if (negb (one_of ["1.98.0"] (version b) &&
      fullmatch (literal "ghcr.io/berriai/litellm@sha256:" ++ HEX64_PATTERN) (image b) &&
      fullmatch (replicate 40 hex_class) (source_commit b))) field_error;;
  raise_if (bool_decide (source_files b = []))
    (ValueError "certified source-file digests are empty");;
  raise_if (existsb (λ p, negb (starts_with "litellm/" p.1) || negb (starts_with "sha256:" p.2) ||
                          negb (str_len p.2 =? 71)) (source_files b))
    (ValueError "certified source-file attestation is malformed");;
  mret b.
End ExactLiteLLMBuild.
Abbreviation ExactLiteLLMBuild := ExactLiteLLMBuild.t.

Definition FENCE_FIELDS : list string :=
  ["alias"; "generation_id"; "account_id"; "account_binding"; "backend_manifest";
   "credential_fingerprint"; "credential_epoch"; "contract_id"; "endpoint"].

Module GuardContract.
Record t := mk {
  mount_path : string; callback_name : string; digest : string; registration : string;
  hook : string; dynamic_credential_lists : string; credential_fingerprint : string;
  fence_fields : list string }.

Definition validate (g : t) : result t :=
  raise_if (negb ((1 <=? str_len (mount_path g)) && one_of ["llmmaxxing_guard"] (callback_name g) &&
      fullmatch SHA256_PATTERN (digest g) && one_of ["last"] (registration g) &&
      one_of ["async_pre_call_deployment_hook"] (hook g) &&
      one_of ["unsupported"] (dynamic_credential_lists g) &&
      one_of ["hcf1_hmac_sha256"] (credential_fingerprint g) &&
      negb (bool_decide (fence_fields g = [])))) field_error;;
  raise_if (negb (same_set (fence_fields g) FENCE_FIELDS) ||
            negb (Nat.eqb (length (fence_fields g)) (length FENCE_FIELDS)))
    (ValueError "guard fence fields do not match the certified hook");;
  mret g.

Definition active_callback_identity (g : t) : string :=
  String.append (callback_name g) (String.append "@" (digest g)).
End GuardContract.
Abbreviation GuardContract := GuardContract.t.

Module ServiceKeyContract.
Record t := mk {
  user_role : string; allowed_routes : list string; models : list string; policy_kind : string }.

Definition validate (k : t) : result t :=
  raise_if (negb ((1 <=? str_len (user_role k)) && negb (bool_decide (allowed_routes k = [])) &&
      negb (bool_decide (models k = [])) &&
      one_of ["explicit_routes_hidden_models"; "proxy_admin_viewer_explicit_routes"]
        (policy_kind k))) field_error;;
  raise_if (repeats (allowed_routes k)) (ValueError "duplicate service-key route");;
  raise_if (existsb (one_of ["read_only"; "llm_api_routes"; "llm_api"]) (allowed_routes k))
    (ValueError "broad service-key route groups are not certified");;
  mret k.
End ServiceKeyContract.
Abbreviation ServiceKeyContract := ServiceKeyContract.t.

Module DiscoveryContract.
Record t := mk {
  readiness_path : string; callbacks_path : string; model_info_path : string;
  models_path : string; page_size : Z; models_query : dict string string }.
Definition validate (d : t) : result t :=
  raise_if (negb (one_of ["/health/readiness/details"] (readiness_path d) &&
      one_of ["/active/callbacks"] (callbacks_path d) &&
      one_of ["/v2/model/info"] (model_info_path d) && one_of ["/v1/models"] (models_path d) &&
      ((1 <=? page_size d) && (page_size d <=? 1000)))) field_error;;
  mret d.
End DiscoveryContract.
Abbreviation DiscoveryContract := DiscoveryContract.t.

Module CertifiedEndpoint.
Record t := mk {
  name : string; method : string; path : string; model_locator : string; fence_locator : string;
  execution_normalizers : dict string string; receipt_header : string; guard_required : bool }.
#[global] Instance eq_dec : EqDecision t.
Proof. solve_decision. Defined.

Definition validate (e : t) : result t :=
  raise_if (negb ((1 <=? str_len (name e)) && one_of ["POST"] (method e) &&
      starts_with "/v1/" (path e) && one_of ["json.model"; "multipart.model"] (model_locator e) &&
      one_of ["json.metadata"; "multipart.metadata"] (fence_locator e) &&
      forallb (λ p, one_of ["provider_prefix_removed"] p.2) (execution_normalizers e) &&
      one_of ["x-litellm-model-id"] (receipt_header e) && guard_required e)) field_error;;
  mret e.
End CertifiedEndpoint.
Abbreviation CertifiedEndpoint := CertifiedEndpoint.t.

Module DenialProbe.
Record t := mk { protocol : string; method : string; path : string }.
Definition validate (p : t) : result t :=
  raise_if (negb (one_of ["http"; "websocket"] (protocol p) &&
      one_of ["GET"; "POST"; "DELETE"] (method p) &&
      (starts_with "/v1/messages" (path p) || starts_with "/v1/responses" (path p)))) field_error;;
  mret p.
Definition row (p : t) : string * string * string := (protocol p, method p, path p).
End DenialProbe.
Abbreviation DenialProbe := DenialProbe.t.

Definition EXPECTED_DENIALS : list (string * string * string) :=
  [("http", "POST", "/v1/messages"); ("http", "POST", "/v1/messages/count_tokens");
   ("http", "GET", "/v1/responses/{response_id}"); ("http", "DELETE", "/v1/responses/{response_id}");
   ("http", "GET", "/v1/responses/{response_id}/input_items");
   ("http", "POST", "/v1/responses/{response_id}/cancel"); ("http", "POST", "/v1/responses/compact");
   ("websocket", "GET", "/v1/responses")].

Module AdapterContract.
Record t := mk {
  contract_id : string;
  litellm : ExactLiteLLMBuild;
  guard : GuardContract;
  inference : ServiceKeyContract;
  discovery_key : ServiceKeyContract;
  discovery : DiscoveryContract;
  known_litellm_params : list string;
  known_execution_fields : list string;
  endpoints : list CertifiedEndpoint;
  denial_probes : list DenialProbe;
}.

(** [_unique_closed_contract] *)
Definition unique_closed_contract (c : t) : result t :=
  let paths := CertifiedEndpoint.path <$> endpoints c in
  raise_if (repeats (CertifiedEndpoint.name <$> endpoints c))
    (ValueError "duplicate certified endpoint name");;
  raise_if (repeats ((λ e, (CertifiedEndpoint.method e, CertifiedEndpoint.path e)) <$> endpoints c))
    (ValueError "duplicate certified endpoint route");;
  raise_if (repeats (known_litellm_params c)) (ValueError "duplicate known LiteLLM parameter");;
  raise_if (repeats (known_execution_fields c)) (ValueError "duplicate known execution field");;
  raise_if (negb (same_set (ServiceKeyContract.allowed_routes (inference c)) paths))
    (ValueError "inference service key must name exactly the certified routes");;
  let d := discovery c in
  raise_if (negb (same_set (ServiceKeyContract.allowed_routes (discovery_key c))
      [DiscoveryContract.readiness_path d; DiscoveryContract.callbacks_path d;
       DiscoveryContract.model_info_path d; DiscoveryContract.models_path d]))
    (ValueError "discovery service key must name exactly the discovery routes");;
  let observed := DenialProbe.row <$> denial_probes c in
  raise_if (negb (same_set observed EXPECTED_DENIALS) ||
            negb (Nat.eqb (length (denial_probes c)) (length EXPECTED_DENIALS)))
    (ValueError "certified denial probes do not match pinned routes");;
  mret c.

Definition validate (c : t) : result t :=
  raise_if (negb (one_of ["litellm-1.98.0"] (contract_id c))) field_error;;
  ExactLiteLLMBuild.validate (litellm c);;
  GuardContract.validate (guard c);;
  ServiceKeyContract.validate (inference c);;
  ServiceKeyContract.validate (discovery_key c);;
  DiscoveryContract.validate (discovery c);;
  validate_all CertifiedEndpoint.validate (endpoints c);;
  validate_all DenialProbe.validate (denial_probes c);;
  unique_closed_contract c.

Definition endpoint (c : t) (name : string) : result CertifiedEndpoint :=
  match List.find (λ e, bool_decide (CertifiedEndpoint.name e = name)) (endpoints c) with
  | Some e => Ok e
  | None => Err (ValueError "unsupported LiteLLM endpoint")
  end.
End AdapterContract.
Abbreviation AdapterContract := AdapterContract.t.

(** ** Deployments *)
Module EffectiveDeployment.
Record t := mk {
  runtime_id : string; hidden_alias : string; mode : string;
  execution : dict ustr Json; capabilities : dict ustr Json; context : dict ustr Json;
  defaults : dict ustr Json; pricing : dict ustr Json;
  account_id : string; account_binding : string; credential_field : string;
  credential_fingerprint : string; credential_epoch : Z }.
End EffectiveDeployment.
Abbreviation EffectiveDeployment := EffectiveDeployment.t.

Module DeploymentGenerationProjection.
Record t := mk {
  contract_id : string; hidden_alias : string; mode : string;
  execution : dict ustr Json; capabilities : dict ustr Json; context : dict ustr Json;
  defaults : dict ustr Json; pricing : dict ustr Json;
  account_id : string; account_binding : string;
  credential_fingerprint : string; credential_epoch : Z }.

Definition text (s : string) : Json := JStr (ascii_text s).
(** [model_dump(mode="json")] *)
Definition dump_items (p : t) : dict ustr Json :=
       [(ascii_text "contract_id", text (contract_id p));
        (ascii_text "hidden_alias", text (hidden_alias p)); (ascii_text "mode", text (mode p));
        (ascii_text "execution", JObj (execution p));
        (ascii_text "capabilities", JObj (capabilities p));
        (ascii_text "context", JObj (context p)); (ascii_text "defaults", JObj (defaults p));
        (ascii_text "pricing", JObj (pricing p)); (ascii_text "account_id", text (account_id p));
        (ascii_text "account_binding", text (account_binding p));
        (ascii_text "credential_fingerprint", text (credential_fingerprint p));
        (ascii_text "credential_epoch", JInt (credential_epoch p))].
Definition dump (p : t) : Json := JObj (dump_items p).

(** The validators of the fields. *)
Definition validate (p : t) : result t :=
  raise_if (negb ((1 <=? str_len (contract_id p)) && is_hidden_alias (hidden_alias p) &&
      (1 <=? str_len (mode p)) && is_ok (typed_id_new AccountId (account_id p)) &&
      (1 <=? str_len (account_binding p)) &&
      is_credential_fingerprint (credential_fingerprint p) && (1 <=? credential_epoch p)))
    field_error;;
  mret p.
End DeploymentGenerationProjection.
Abbreviation DeploymentGenerationProjection := DeploymentGenerationProjection.t.

Module DeploymentGenerationFingerprint.
Record t := mk { generation_id : string; projection : DeploymentGenerationProjection }.
End DeploymentGenerationFingerprint.
Abbreviation DeploymentGenerationFingerprint := DeploymentGenerationFingerprint.t.

(** ** Python's equality of JSON values

    [1 == 1.0 == True], and dictionaries are compared without their order. *)
Definition py_number (v : Json) : option (bool * FloatRepr) :=
  match v with
  | JBool b => Some (false, FloatRepr.mk [if b then 1 else 0] [] 0)
  | JInt z => Some (z <? 0, FloatRepr.mk (decimal (Z.abs z)) [] 0)
  | JFloat (Finite negative r) => Some (negative, r)
  | _ => None
  end.
Definition number_eqb (p q : bool * FloatRepr) : bool :=
  (is_zero p.2 && is_zero q.2) ||
  (negb (is_zero p.2) && negb (is_zero q.2) && Bool.eqb p.1 q.1 &&
   bool_decide (significant p.2 = significant q.2) && (point p.2 =? point q.2)).

Fixpoint py_eqb (v w : Json) : bool :=
  match v, w with
  | JNull, JNull => true
  | JStr s, JStr t => bool_decide (s = t)
  | JArr l, JArr m =>
      (fix go (l m : list Json) : bool := match l, m with
       | [], [] => true
       | x :: l, y :: m => py_eqb x y && go l m
       | _, _ => false
       end) l m
  | JObj d, JObj e => Nat.eqb (length d) (length e) &&
      (fix go (d : dict ustr Json) : bool := match d with
       | [] => true
       | (k, x) :: d => match dget k e with Some y => py_eqb x y | None => false end && go d
       end) d
  | v, w => match py_number v, py_number w with
            | Some p, Some q => number_eqb p q
            | _, _ => false
            end
  end.

Definition projection_eqb (p q : DeploymentGenerationProjection) : bool :=
  py_eqb (DeploymentGenerationProjection.dump p) (DeploymentGenerationProjection.dump q).
(** [==] of two frozen models compares their fields. *)
Definition fingerprint_eqb (a b : DeploymentGenerationFingerprint) : bool :=
  bool_decide (DeploymentGenerationFingerprint.generation_id a =
               DeploymentGenerationFingerprint.generation_id b) &&
  projection_eqb (DeploymentGenerationFingerprint.projection a)
                 (DeploymentGenerationFingerprint.projection b).

(** ** Dispatch *)
Module PreparedDispatch.
Record t := mk {
  endpoint : string; method : string; path : string; model_locator : string;
  fence_locator : string; execution_normalizers : dict string string; hidden_alias : string;
  expected_deployment_id : string; generation_id : string; backend_manifest : string;
  trusted_metadata : dict ustr Json }.

Definition validate (p : t) : result t :=
  raise_if (negb (one_of ["POST"] (method p) &&
      one_of ["json.model"; "multipart.model"] (model_locator p) &&
      one_of ["json.metadata"; "multipart.metadata"] (fence_locator p) &&
      forallb (λ p, one_of ["provider_prefix_removed"] p.2) (execution_normalizers p) &&
      is_hidden_alias (hidden_alias p) &&
      is_ok (typed_id_new DeploymentGenerationId (generation_id p)) &&
      fullmatch MANIFEST_PATTERN (backend_manifest p))) field_error;;
  mret p.
End PreparedDispatch.
Abbreviation PreparedDispatch := PreparedDispatch.t.

Module DeploymentReceipt.
Record t := mk { endpoint : string; deployment_id : string; generation_id : string }.
End DeploymentReceipt.
Abbreviation DeploymentReceipt := DeploymentReceipt.t.

(** The error raised, with its code. *)
Definition UNSUPPORTED_ENDPOINT : exn := DispatchError "unsupported_endpoint" false false.
Definition GENERATION_MISMATCH : exn := DispatchError "generation_mismatch" true false.
Definition RECEIPT_MISSING : exn := DispatchError "receipt_missing" true false.
Definition RECEIPT_MISMATCH : exn := DispatchError "receipt_mismatch" true false.
Definition UPSTREAM_ERROR : exn := DispatchError "upstream_error" false false.

Section Generation.
Context (sha256 : bytes → bytes).

Definition projection_of (row : EffectiveDeployment) (contract : AdapterContract) :
    result DeploymentGenerationProjection :=
  DeploymentGenerationProjection.validate
    (DeploymentGenerationProjection.mk (AdapterContract.contract_id contract)
       (EffectiveDeployment.hidden_alias row) (EffectiveDeployment.mode row)
       (EffectiveDeployment.execution row) (EffectiveDeployment.capabilities row)
       (EffectiveDeployment.context row) (EffectiveDeployment.defaults row)
       (EffectiveDeployment.pricing row) (EffectiveDeployment.account_id row)
       (EffectiveDeployment.account_binding row) (EffectiveDeployment.credential_fingerprint row)
       (EffectiveDeployment.credential_epoch row)).

Definition deployment_generation (row : EffectiveDeployment) (contract : AdapterContract) :
    result DeploymentGenerationFingerprint :=
  projection ← projection_of row contract;
  canonical ← canonical_json_bytes (DeploymentGenerationProjection.dump projection);
  generation_id ← from_digest DeploymentGenerationId (hex (sha256 canonical));
  mret (DeploymentGenerationFingerprint.mk generation_id projection).

(** The [metadata] dictionary of [prepare_dispatch]. *)
Definition guard_metadata (deployment : EffectiveDeployment) (generation_id backend_manifest : string)
    (contract : AdapterContract) (certified : CertifiedEndpoint) : Json :=
  let text := DeploymentGenerationProjection.text in
  JObj [(ascii_text "alias", text (EffectiveDeployment.hidden_alias deployment));
        (ascii_text "generation_id", text generation_id);
        (ascii_text "account_id", text (EffectiveDeployment.account_id deployment));
        (ascii_text "account_binding", text (EffectiveDeployment.account_binding deployment));
        (ascii_text "backend_manifest", text backend_manifest);
        (ascii_text "credential_fingerprint",
           text (EffectiveDeployment.credential_fingerprint deployment));
        (ascii_text "credential_epoch", JInt (EffectiveDeployment.credential_epoch deployment));
        (ascii_text "contract_id", text (AdapterContract.contract_id contract));
        (ascii_text "endpoint", text (CertifiedEndpoint.name certified))].

Definition prepare_dispatch (contract : AdapterContract) (endpoint : string)
    (deployment : EffectiveDeployment) (generation : DeploymentGenerationFingerprint)
    (backend_manifest : string) : result PreparedDispatch :=
  certified ← match AdapterContract.endpoint contract endpoint with
              | Ok e => Ok e | Err _ => Err UNSUPPORTED_ENDPOINT end;
  actual ← deployment_generation deployment contract;
  raise_if (negb (fingerprint_eqb actual generation)) GENERATION_MISMATCH;;
  let generation_id := DeploymentGenerationFingerprint.generation_id generation in
  PreparedDispatch.validate (PreparedDispatch.mk (CertifiedEndpoint.name certified)
    (CertifiedEndpoint.method certified) (CertifiedEndpoint.path certified)
    (CertifiedEndpoint.model_locator certified) (CertifiedEndpoint.fence_locator certified)
    (CertifiedEndpoint.execution_normalizers certified)
    (EffectiveDeployment.hidden_alias deployment) (EffectiveDeployment.runtime_id deployment)
    generation_id backend_manifest
    [(ascii_text "llmmaxxing_guard",
      guard_metadata deployment generation_id backend_manifest contract certified)]).
End Generation.

(** [str.lower] of an ASCII string. *)
Definition lower_char (c : ascii) : ascii :=
  if in_range "A" "Z" c then byte_of (byte_value c + 32) else c.
Definition lower (s : string) : string :=
  String.string_of_list_ascii (lower_char <$> String.list_ascii_of_string s).

Definition reconcile_dispatch (contract : AdapterContract) (prepared : PreparedDispatch)
    (status_code : Z) (headers : dict string string) (response_started : bool) :
    result DeploymentReceipt :=
  endpoint ← AdapterContract.endpoint contract (PreparedDispatch.endpoint prepared);
  raise_if response_started RECEIPT_MISMATCH;;
  raise_if (negb ((200 <=? status_code) && (status_code <? 300))) UPSTREAM_ERROR;;
  let normalized := dict_of ((λ p, (lower p.1, p.2)) <$> headers) in
  match dget (CertifiedEndpoint.receipt_header endpoint) normalized with
  | None => Err RECEIPT_MISSING
  | Some observed =>
      raise_if (negb (bool_decide (observed = PreparedDispatch.expected_deployment_id prepared)))
        RECEIPT_MISMATCH;;
      mret (DeploymentReceipt.mk (PreparedDispatch.endpoint prepared) observed
              (PreparedDispatch.generation_id prepared))
  end.

(** ** The guard manifest *)

(** The fields of a [DiscoverySnapshot] that the guard reads. *)
Module DiscoverySnapshot.
Record t := mk { deployments : list EffectiveDeployment; manifest_revision : string }.
End DiscoverySnapshot.
Abbreviation DiscoverySnapshot := DiscoverySnapshot.t.

Module GuardDeploymentExpectation.
Record t := mk {
  runtime_id : string; generation_id : string; credential_field : string;
  projection : DeploymentGenerationProjection }.
Definition validate (e : t) : result t :=
  raise_if (negb ((1 <=? str_len (runtime_id e)) && (1 <=? str_len (credential_field e)) &&
      is_ok (typed_id_new DeploymentGenerationId (generation_id e)))) field_error;;
  DeploymentGenerationProjection.validate (projection e);;
  mret e.
End GuardDeploymentExpectation.
Abbreviation GuardDeploymentExpectation := GuardDeploymentExpectation.t.

Module GuardManifest.
Record t := mk {
  contract_id : string; backend_manifest : string; guard_digest : string;
  deployments : dict string GuardDeploymentExpectation }.

Section Validate.
Context (sha256 : bytes → bytes).

Definition check_deployment (p : string * GuardDeploymentExpectation) : result unit :=
  let expectation := p.2 in
  let projection := GuardDeploymentExpectation.projection expectation in
  raise_if (negb (bool_decide (DeploymentGenerationProjection.hidden_alias projection = p.1)))
    (ValueError "guard deployment alias differs from semantic projection");;
  canonical ← canonical_json_bytes (DeploymentGenerationProjection.dump projection);
  digest_id ← from_digest DeploymentGenerationId (hex (sha256 canonical));
  raise_if (negb (bool_decide (GuardDeploymentExpectation.generation_id expectation = digest_id)))
    (ValueError "guard generation differs from semantic projection").

Definition has_slash (alias : string) : bool :=
  existsb (λ c, Ascii.eqb c "/") (String.list_ascii_of_string alias).

Definition validate (m : t) : result t :=
  raise_if (negb (one_of ["litellm-1.98.0"] (contract_id m) &&
      fullmatch MANIFEST_PATTERN (backend_manifest m) &&
      fullmatch SHA256_PATTERN (guard_digest m))) field_error;;
  validate_all GuardDeploymentExpectation.validate (dvalues (deployments m));;
  raise_if (bool_decide (deployments m = [])) (ValueError "guard manifest deployments are empty");;
  raise_if (existsb (λ alias, negb (has_slash alias)) (dkeys (deployments m)))
    (ValueError "guard manifest contains an unqualified alias");;
  validate_all check_deployment (deployments m);;
  mret m.
End Validate.
End GuardManifest.
Abbreviation GuardManifest := GuardManifest.t.

Section Manifest.
Context (sha256 : bytes → bytes).

Definition build_dump (b : ExactLiteLLMBuild) : Json :=
  let text := DeploymentGenerationProjection.text in
  JObj [(ascii_text "version", text (ExactLiteLLMBuild.version b));
        (ascii_text "image", text (ExactLiteLLMBuild.image b));
        (ascii_text "source_commit", text (ExactLiteLLMBuild.source_commit b));
        (ascii_text "source_files",
           JObj ((λ p, (ascii_text p.1, text p.2)) <$> ExactLiteLLMBuild.source_files b))].

Definition backend_manifest_revision (contract : AdapterContract)
    (deployments : list EffectiveDeployment) : result string :=
  fingerprints ← validate_all (λ row, deployment_generation sha256 row contract) deployments;
  let projections := sorted_by DeploymentGenerationProjection.hidden_alias str_leb
    (DeploymentGenerationFingerprint.projection <$> fingerprints) in
  canonical ← canonical_json_bytes
    (JObj [(ascii_text "contract_id",
              DeploymentGenerationProjection.text (AdapterContract.contract_id contract));
           (ascii_text "build", build_dump (AdapterContract.litellm contract));
           (ascii_text "deployments", JArr (DeploymentGenerationProjection.dump <$> projections))]);
  mret (String.append "bm1_" (hex (sha256 canonical))).

Definition expectation_of (contract : AdapterContract) (row : EffectiveDeployment) :
    result (string * GuardDeploymentExpectation) :=
  generation ← deployment_generation sha256 row contract;
  expectation ← GuardDeploymentExpectation.validate
    (GuardDeploymentExpectation.mk (EffectiveDeployment.runtime_id row)
       (DeploymentGenerationFingerprint.generation_id generation)
       (EffectiveDeployment.credential_field row)
       (DeploymentGenerationFingerprint.projection generation));
  mret (EffectiveDeployment.hidden_alias row, expectation).

Definition build_guard_manifest (snapshot : DiscoverySnapshot) (contract : AdapterContract) :
    result GuardManifest :=
  items ← validate_all (expectation_of contract) (DiscoverySnapshot.deployments snapshot);
  revision ← backend_manifest_revision contract (DiscoverySnapshot.deployments snapshot);
  raise_if (negb (bool_decide (revision = DiscoverySnapshot.manifest_revision snapshot)))
    (ValueError "snapshot manifest revision differs from canonical guard payload");;
  GuardManifest.validate sha256
    (GuardManifest.mk (AdapterContract.contract_id contract) revision
       (GuardContract.digest (AdapterContract.guard contract)) (dict_of items)).
End Manifest.
