(* ===== verification/AdapterProps.v ===== *)
(** * Properties of the LiteLLM adapter

    What is prepared is fenced to the deployment that was certified, and a receipt
    is given only for the deployment that was prepared. *)
From S2P Require Export Adapter CanonicalProps.
From S2P Require Import ModelFacts.
From Stdlib Require Import Ascii.
#[local] Open Scope Z_scope.

(** ** Semantic projections *)
Module P := DeploymentGenerationProjection.

(** The same semantics: equal identities, and the same JSON values. *)
Record same_projection (p q : DeploymentGenerationProjection) : Prop := {
  sp_contract : P.contract_id p = P.contract_id q;
  sp_alias : P.hidden_alias p = P.hidden_alias q;
  sp_mode : P.mode p = P.mode q;
  sp_execution : JsonFacts.same_json (JObj (P.execution p)) (JObj (P.execution q));
  sp_capabilities : JsonFacts.same_json (JObj (P.capabilities p)) (JObj (P.capabilities q));
  sp_context : JsonFacts.same_json (JObj (P.context p)) (JObj (P.context q));
  sp_defaults : JsonFacts.same_json (JObj (P.defaults p)) (JObj (P.defaults q));
  sp_pricing : JsonFacts.same_json (JObj (P.pricing p)) (JObj (P.pricing q));
  sp_account : P.account_id p = P.account_id q;
  sp_binding : P.account_binding p = P.account_binding q;
  sp_fingerprint : P.credential_fingerprint p = P.credential_fingerprint q;
  sp_epoch : P.credential_epoch p = P.credential_epoch q;
}.

Lemma byte_value_inj c d : byte_value c = byte_value d → c = d.
Proof. intros H. rewrite <-(KeyMaterialFacts.byte_of_value c), H. apply KeyMaterialFacts.byte_of_value. Qed.

Lemma ascii_text_inj s t : ascii_text s = ascii_text t → s = t.
Proof.
  unfold ascii_text. intros H.
  assert (String.list_ascii_of_string s = String.list_ascii_of_string t) as E.
  { eapply list_fmap_eq_inj; [|exact H]. exact byte_value_inj. }
  by rewrite <-(String.string_of_list_ascii_of_string s), E, String.string_of_list_ascii_of_string.
Qed.

Lemma text_ok_ascii s : text_ok (ascii_text s).
Proof.
  unfold text_ok, ascii_text. apply Forall_fmap, Forall_true. intros c. cbn.
  pose proof (KeyMaterialFacts.byte_value_range c). unfold char_ok. lia.
Qed.

(** The values of a projection are values Python can hold. *)
Definition projection_ok (p : DeploymentGenerationProjection) : Prop :=
  JsonFacts.json_ok (JObj (P.execution p)) ∧ JsonFacts.json_ok (JObj (P.capabilities p)) ∧
  JsonFacts.json_ok (JObj (P.context p)) ∧ JsonFacts.json_ok (JObj (P.defaults p)) ∧
  JsonFacts.json_ok (JObj (P.pricing p)).

Definition DUMP_KEYS : list ustr := ascii_text <$>
  ["contract_id"; "hidden_alias"; "mode"; "execution"; "capabilities"; "context"; "defaults";
   "pricing"; "account_id"; "account_binding"; "credential_fingerprint"; "credential_epoch"].

Lemma dump_keys p : dkeys (P.dump_items p) = DUMP_KEYS.
Proof. done. Qed.
Lemma dump_dict p : dict_ok (P.dump_items p).
Proof. unfold dict_ok. rewrite dump_keys. apply (bool_decide_unpack _). by vm_compute. Qed.

Lemma dump_ok p : projection_ok p → JsonFacts.json_ok (P.dump p).
Proof.
  intros (H1 & H2 & H3 & H4 & H5). unfold P.dump. split; [apply dump_dict|].
  unfold P.dump_items, P.text. repeat split; try apply text_ok_ascii;
    first [apply H1|apply H2|apply H3|apply H4|apply H5].
Qed.

Lemma dump_same_item p q k v w : JsonFacts.same_json (P.dump p) (P.dump q) →
  (k, v) ∈ P.dump_items p → (k, w) ∈ P.dump_items q → JsonFacts.same_json v w.
Proof.
  intros [_ H] Hv Hw. rewrite JsonFacts.all_Forall, Forall_forall in H.
  destruct (H _ Hv) as (w' & Hw' & Hs). apply elem_of_dget in Hw; [|apply dump_dict].
  assert (w' = w) as -> by congruence. done.
Qed.

Ltac in_dump := unfold P.dump_items; repeat first [apply list_elem_of_here | apply list_elem_of_further].

Lemma same_int a b : JsonFacts.same_json (JInt a) (JInt b) → a = b.
Proof.
  intros [Hv Hs]. unfold same_value, mantissa, scale in Hv. cbn [fst snd FloatRepr.whole
    FloatRepr.frac FloatRepr.exponent] in *. rewrite !app_nil_r in Hv.
  change (10 ^ Z.max 0 (0 - zlen [] - (0 - zlen []))) with 1 in Hv.
  rewrite !Z.mul_1_r in Hv.
  destruct (decimal_spec (Z.abs a) ltac:(lia)) as (_ & Ha & _).
  destruct (decimal_spec (Z.abs b) ltac:(lia)) as (_ & Hb & _).
  unfold mantissa in Hs. cbn [FloatRepr.whole FloatRepr.frac] in Hs. rewrite app_nil_r in Hs.
  rewrite Ha, Hb in Hv. rewrite Ha in Hs.
  destruct Hs as [Hs|Hs]; [lia|].
  destruct (Z.ltb_spec a 0), (Z.ltb_spec b 0); try done; lia.
Qed.

Lemma dump_same p q : JsonFacts.same_json (P.dump p) (P.dump q) → same_projection p q.
Proof.
  intros H.
  pose proof (λ k v w, dump_same_item p q (ascii_text k) v w H) as Hk.
  split; [..|].
  - apply ascii_text_inj. exact (Hk "contract_id" _ _ ltac:(in_dump) ltac:(in_dump)).
  - apply ascii_text_inj. exact (Hk "hidden_alias" _ _ ltac:(in_dump) ltac:(in_dump)).
  - apply ascii_text_inj. exact (Hk "mode" _ _ ltac:(in_dump) ltac:(in_dump)).
  - exact (Hk "execution" _ _ ltac:(in_dump) ltac:(in_dump)).
  - exact (Hk "capabilities" _ _ ltac:(in_dump) ltac:(in_dump)).
  - exact (Hk "context" _ _ ltac:(in_dump) ltac:(in_dump)).
  - exact (Hk "defaults" _ _ ltac:(in_dump) ltac:(in_dump)).
  - exact (Hk "pricing" _ _ ltac:(in_dump) ltac:(in_dump)).
  - apply ascii_text_inj. exact (Hk "account_id" _ _ ltac:(in_dump) ltac:(in_dump)).
  - apply ascii_text_inj. exact (Hk "account_binding" _ _ ltac:(in_dump) ltac:(in_dump)).
  - apply ascii_text_inj. exact (Hk "credential_fingerprint" _ _ ltac:(in_dump) ltac:(in_dump)).
  - apply same_int. exact (Hk "credential_epoch" _ _ ltac:(in_dump) ltac:(in_dump)).
Qed.

Lemma canonical_same v w b : JsonFacts.json_ok v → JsonFacts.json_ok w →
  canonical_json_bytes v = Ok b → canonical_json_bytes w = Ok b → JsonFacts.same_json v w.
Proof.
  intros Hv Hw H1 H2.
  by destruct (JsonFacts.serialize_parses v Hv w b b [] [] Hw H1 H2) as [S _]; [intros c [=]..| |].
Qed.

(** ** Preparation *)
Section Dispatch.
Context (sha256 : bytes → bytes).

Lemma generation_Ok row contract g : deployment_generation sha256 row contract = Ok g →
  ∃ canonical, projection_of row contract = Ok (DeploymentGenerationFingerprint.projection g) ∧
    canonical_json_bytes (P.dump (DeploymentGenerationFingerprint.projection g)) = Ok canonical ∧
    DeploymentGenerationFingerprint.generation_id g =
      String.append "dg1_" (hex (sha256 canonical)) ∧
    is_ok (typed_id_new DeploymentGenerationId
      (DeploymentGenerationFingerprint.generation_id g)) = true.
Proof.
  unfold deployment_generation. intros H. apply bind_Ok in H as (p & Hp & H).
  apply bind_Ok in H as (c & Hc & H). apply bind_Ok in H as (i & Hi & H).
  injection H as <-. exists c. unfold from_digest, typed_id_new in *.
  cbn [DeploymentGenerationFingerprint.generation_id DeploymentGenerationFingerprint.projection].
  destruct (fullmatch _ _) eqn:E; [|done].
  assert (i = String.append (id_prefix DeploymentGenerationId) (hex (sha256 c))) as -> by congruence.
  by rewrite E.
Qed.

Lemma endpoint_Ok contract name e : AdapterContract.endpoint contract name = Ok e →
  e ∈ AdapterContract.endpoints contract ∧ CertifiedEndpoint.name e = name.
Proof.
  unfold AdapterContract.endpoint. destruct (List.find _ _) as [e'|] eqn:E; [|done].
  intros [= <-]. apply List.find_some in E as [Hin He]. bprop in He. by apply list_elem_of_In in Hin.
Qed.

Lemma generation_id_inj c1 c2 : String.append "dg1_" (hex (sha256 c1)) =
  String.append "dg1_" (hex (sha256 c2)) → sha256 c1 = sha256 c2.
Proof.
  intros H. apply (f_equal String.list_ascii_of_string) in H. rewrite !list_ascii_append in H.
  apply (inj (app _)) in H. apply list_ascii_inj in H.
  assert (fromhex (hex (sha256 c1)) = fromhex (hex (sha256 c2))) as E by (by rewrite H).
  rewrite !KeyMaterialFacts.fromhex_hex in E. by injection E.
Qed.

Lemma prepared_Ok contract endpoint deployment generation manifest p :
  prepare_dispatch sha256 contract endpoint deployment generation manifest = Ok p →
  ∃ e actual, AdapterContract.endpoint contract endpoint = Ok e ∧
    deployment_generation sha256 deployment contract = Ok actual ∧
    fingerprint_eqb actual generation = true ∧
    p = PreparedDispatch.mk (CertifiedEndpoint.name e) (CertifiedEndpoint.method e)
      (CertifiedEndpoint.path e) (CertifiedEndpoint.model_locator e)
      (CertifiedEndpoint.fence_locator e) (CertifiedEndpoint.execution_normalizers e)
      (EffectiveDeployment.hidden_alias deployment) (EffectiveDeployment.runtime_id deployment)
      (DeploymentGenerationFingerprint.generation_id generation) manifest
      [(ascii_text "llmmaxxing_guard", guard_metadata deployment
          (DeploymentGenerationFingerprint.generation_id generation) manifest contract e)].
Proof.
  unfold prepare_dispatch. intros H. apply bind_Ok in H as (e & He & H).
  apply bind_Ok in H as (actual & Ha & H). apply bind_Ok in H as ([] & Hf & H).
  apply raise_if_Ok in Hf. bprop in Hf. unfold PreparedDispatch.validate in H.
  apply bind_Ok in H as ([] & _ & H). injection H as <-. exists e, actual.
  destruct (AdapterContract.endpoint contract endpoint); [|done]. by injection He as ->.
Qed.

(** What one generation id stands for. *)
Lemma same_generation g g' row row' contract contract' :
  deployment_generation sha256 row contract = Ok g →
  deployment_generation sha256 row' contract' = Ok g' →
  projection_ok (DeploymentGenerationFingerprint.projection g) →
  projection_ok (DeploymentGenerationFingerprint.projection g') →
  DeploymentGenerationFingerprint.generation_id g = DeploymentGenerationFingerprint.generation_id g' →
  same_projection (DeploymentGenerationFingerprint.projection g)
    (DeploymentGenerationFingerprint.projection g') ∨
  ∃ b b', b ≠ b' ∧ sha256 b = sha256 b'.
Proof.
  intros H H' Hok Hok' He. apply generation_Ok in H as (c & _ & Hc & Hi & _).
  apply generation_Ok in H' as (c' & _ & Hc' & Hi' & _). rewrite Hi, Hi' in He.
  apply generation_id_inj in He. destruct (decide (c = c')) as [->|Hne]; [left|right; by exists c, c'].
  apply dump_same. eapply canonical_same; eauto using dump_ok.
Qed.
End Dispatch.

(** ** Equality of a value with itself *)
Lemma number_eqb_refl p : number_eqb p p = true.
Proof.
  unfold number_eqb. destruct (is_zero p.2); [done|]. cbn.
  by rewrite Bool.eqb_reflx, bool_decide_true, Z.eqb_refl by done.
Qed.

Lemma py_eqb_arr l m : py_eqb (JArr l) (JArr m) = true ↔ Forall2 (λ x y, py_eqb x y = true) l m.
Proof.
  revert m. induction l as [|x l IH]; intros [|y m]; cbn.
  - by split; [constructor|].
  - by split; [|intros ?%Forall2_nil_cons_inv].
  - by split; [|intros ?%Forall2_cons_nil_inv].
  - cbn in IH. by rewrite andb_true_iff, Forall2_cons, IH.
Qed.

Lemma py_eqb_obj d e : py_eqb (JObj d) (JObj e) = true ↔ length d = length e ∧
  Forall (λ p : ustr * Json, ∃ w, dget p.1 e = Some w ∧ py_eqb p.2 w = true) d.
Proof.
  cbn. rewrite andb_true_iff, Nat.eqb_eq. apply and_iff_compat_l.
  induction d as [|[k x] d IH]; cbn.
  - by split; [constructor|].
  - rewrite andb_true_iff, Forall_cons, IH. cbn. apply and_iff_compat_r.
    destruct (dget k e) as [w|]; [|by split; [|intros (w & [=] & _)]].
    split; [by intros H; exists w|]. by intros (w' & [= ->] & H).
Qed.

Lemma py_eqb_refl v : ∀ b, JsonFacts.json_ok v → serialize v = Ok b → py_eqb v v = true.
Proof.
  induction v as [|x|s|z|f|l IH|d IH] using JsonFacts.json_ind'; intros b Hok Hs.
  - done.
  - by apply number_eqb_refl.
  - by apply bool_decide_true.
  - apply number_eqb_refl.
  - destruct f; [apply number_eqb_refl|done].
  - apply py_eqb_arr. cbn [serialize] in Hs. apply bind_Ok in Hs as (parts & Hp & _).
    apply JsonFacts.sequence_map in Hp. cbn [JsonFacts.json_ok] in Hok.
    rewrite JsonFacts.all_Forall in Hok. revert parts Hp.
    induction IH as [|v l Hv _ IHl]; intros parts Hp; [done|].
    apply Forall2_cons_inv_l in Hp as (c & parts' & Hc & Hp & ->).
    apply Forall_cons in Hok as [Hokv Hokl]. constructor; [by eapply Hv|by eapply IHl].
  - apply JsonFacts.serialize_obj in Hs as (_ & parts & Hp & _). apply py_eqb_obj. split; [done|].
    destruct Hok as [Hd Hok]. rewrite JsonFacts.all_Forall in Hok. rewrite Forall_forall in IH, Hok |- *.
    intros [k v] Hin. exists v. split; [by apply elem_of_dget|].
    pose proof Hin as Hin'. rewrite <-(JsonFacts.items_perm d) in Hin'.
    apply list_elem_of_lookup in Hin' as [i Hi].
    destruct (Forall2_lookup_l _ _ _ _ _ Hp Hi) as (c & _ & Hc).
    apply JsonFacts.member_Ok in Hc as (kb & vb & _ & Hvb & _).
    eapply (IH (k, v) Hin); [apply (Hok (k, v) Hin)|exact Hvb].
Qed.

(** ** What the manifest certifies *)
Section Manifest.
Context (sha256 : bytes → bytes).

Lemma endpoint_validate_id e e' : CertifiedEndpoint.validate e = Ok e' → e' = e.
Proof. unfold CertifiedEndpoint.validate. intros H. inv_ok H. done. Qed.

Lemma contract_endpoint contract contract' e :
  AdapterContract.validate contract = Ok contract' → e ∈ AdapterContract.endpoints contract →
  CertifiedEndpoint.validate e = Ok e.
Proof.
  unfold AdapterContract.validate. intros H He.
  do 6 (apply bind_Ok in H as (? & _ & H)). apply bind_Ok in H as (es & Hes & H).
  destruct (BundleFacts.validate_all_elem _ _ _ _ Hes He) as (e' & He' & _).
  by rewrite (endpoint_validate_id _ _ He') in He'.
Qed.

Lemma projection_Ok row contract p : projection_of row contract = Ok p →
  P.hidden_alias p = EffectiveDeployment.hidden_alias row ∧
  is_hidden_alias (EffectiveDeployment.hidden_alias row) = true.
Proof.
  unfold projection_of, P.validate. intros H. apply bind_Ok in H as ([] & G & H).
  apply raise_if_Ok in G. injection H as <-. bprop in G. cbn in G. split; [done|tauto].
Qed.

Lemma expectation_Ok contract row a x : expectation_of sha256 contract row = Ok (a, x) →
  ∃ g, deployment_generation sha256 row contract = Ok g ∧
    a = EffectiveDeployment.hidden_alias row ∧
    GuardDeploymentExpectation.generation_id x = DeploymentGenerationFingerprint.generation_id g ∧
    GuardDeploymentExpectation.projection x = DeploymentGenerationFingerprint.projection g ∧
    GuardDeploymentExpectation.runtime_id x = EffectiveDeployment.runtime_id row.
Proof.
  unfold expectation_of, GuardDeploymentExpectation.validate. intros H.
  apply bind_Ok in H as (g & Hg & H). apply bind_Ok in H as (y & Hy & H).
  apply bind_Ok in Hy as ([] & _ & Hy). apply bind_Ok in Hy as (p & _ & Hy).
  injection Hy as <-. injection H as <- <-. by exists g.
Qed.

(** The manifest's entry for a deployment of the snapshot. *)
Lemma manifest_entry snapshot contract m row :
  build_guard_manifest sha256 snapshot contract = Ok m →
  NoDup (EffectiveDeployment.hidden_alias <$> DiscoverySnapshot.deployments snapshot) →
  row ∈ DiscoverySnapshot.deployments snapshot →
  fullmatch MANIFEST_PATTERN (GuardManifest.backend_manifest m) = true ∧
  ∃ x, dget (EffectiveDeployment.hidden_alias row) (GuardManifest.deployments m) = Some x ∧
    expectation_of sha256 contract row = Ok (EffectiveDeployment.hidden_alias row, x).
Proof.
  unfold build_guard_manifest, GuardManifest.validate. intros H Hn Hrow.
  apply bind_Ok in H as (items & Hi & H). apply bind_Ok in H as (rev & _ & H).
  apply bind_Ok in H as ([] & _ & H). apply bind_Ok in H as ([] & G & H).
  apply raise_if_Ok in G. apply bind_Ok in H as (? & _ & H). apply bind_Ok in H as (? & _ & H).
  apply bind_Ok in H as (? & _ & H). apply bind_Ok in H as (? & _ & H). injection H as <-.
  bprop in G. cbn [GuardManifest.backend_manifest GuardManifest.deployments] in *.
  split; [tauto|]. apply validate_all_Ok in Hi.
  assert (dkeys items = EffectiveDeployment.hidden_alias <$> DiscoverySnapshot.deployments snapshot)
    as Hk.
  { clear -Hi. induction Hi as [|r [a x] rows items Hx _ IH]; [done|].
    apply expectation_Ok in Hx as (g & _ & -> & _). unfold dkeys in *. cbn. by rewrite IH. }
  assert (dict_ok items) as Hd by (unfold dict_ok; by rewrite Hk).
  rewrite dict_of_id by done. apply list_elem_of_lookup in Hrow as [i Hr].
  destruct (Forall2_lookup_l _ _ _ _ _ Hi Hr) as ([a y] & Hx & He). exists y.
  pose proof (expectation_Ok _ _ _ _ He) as (g & _ & -> & _). split; [|done].
  apply elem_of_dget; [done|]. by apply list_elem_of_lookup_2 in Hx.
Qed.
End Manifest.

Module AdapterTheorems.
Section AdapterTheorems.
Context (sha256 : bytes → bytes).


(** What discovery certified can be dispatched, and a receipt is given for
    nothing else.  For every deployment of a snapshot whose aliases are unique, the
    guard manifest built from it holds an expectation with which
    [prepare_dispatch] succeeds on every certified endpoint, as long as the
    deployment has not changed; and [reconcile_dispatch] gives a receipt for the
    prepared dispatch exactly when the response has not started, the status is
    2xx and the receipt header, whatever its case, names the runtime id of that
    deployment. *)
Theorem certified_is_dispatchable snapshot contract contract' m row endpoint e :
  build_guard_manifest sha256 snapshot contract = Ok m →
  AdapterContract.validate contract = Ok contract' →
  NoDup (EffectiveDeployment.hidden_alias <$> DiscoverySnapshot.deployments snapshot) →
  row ∈ DiscoverySnapshot.deployments snapshot →
  (∀ g, deployment_generation sha256 row contract = Ok g →
    projection_ok (DeploymentGenerationFingerprint.projection g)) →
  AdapterContract.endpoint contract endpoint = Ok e →
  ∃ x p, dget (EffectiveDeployment.hidden_alias row) (GuardManifest.deployments m) = Some x ∧
    prepare_dispatch sha256 contract endpoint row
      (DeploymentGenerationFingerprint.mk (GuardDeploymentExpectation.generation_id x)
         (GuardDeploymentExpectation.projection x)) (GuardManifest.backend_manifest m) = Ok p ∧
    ∀ status headers started receipt,
      reconcile_dispatch contract p status headers started = Ok receipt ↔
      started = false ∧ 200 ≤ status < 300 ∧
      dget "x-litellm-model-id" (dict_of ((λ h, (lower h.1, h.2)) <$> headers)) =
        Some (EffectiveDeployment.runtime_id row) ∧
      receipt = DeploymentReceipt.mk endpoint (EffectiveDeployment.runtime_id row)
        (GuardDeploymentExpectation.generation_id x).
Proof.
  intros Hb Hc Hn Hrow Hok He.
  destruct (manifest_entry sha256 _ _ _ _ Hb Hn Hrow) as (Hman & x & Hx & Hexp).
  apply expectation_Ok in Hexp as (g & Hg & _ & Hxg & Hxp & _). exists x.
  destruct (generation_Ok sha256 _ _ _ Hg) as (canonical & Hp & Hcan & Hid & Htyped).
  apply projection_Ok in Hp as [Halias Hhid].
  pose proof (endpoint_Ok _ _ _ He) as [Hin Hname].
  pose proof (contract_endpoint _ _ _ Hc Hin) as Hev. unfold CertifiedEndpoint.validate in Hev.
  apply bind_Ok in Hev as ([] & Hev & _). apply raise_if_Ok in Hev.
  apply negb_false_iff in Hev. rewrite !andb_true_iff in Hev.
  destruct Hev as [[[[[[[_ Hmeth] _] Hloc] Hfen] Hnorm] Hrec] _].
  unfold prepare_dispatch. rewrite He, Hg. cbn [mbind result_bind].
  rewrite Hxg, Hxp. unfold fingerprint_eqb, projection_eqb.
  cbn [DeploymentGenerationFingerprint.generation_id DeploymentGenerationFingerprint.projection].
  rewrite bool_decide_true, (py_eqb_refl _ _ (dump_ok _ (Hok g Hg)) Hcan) by done.
  rewrite raise_if_pass by done. unfold PreparedDispatch.validate.
  cbn [PreparedDispatch.method PreparedDispatch.model_locator PreparedDispatch.fence_locator
    PreparedDispatch.execution_normalizers PreparedDispatch.hidden_alias
    PreparedDispatch.generation_id PreparedDispatch.backend_manifest].
  rewrite Hmeth, Hloc, Hfen, Hnorm, Hhid, Htyped, Hman. rewrite raise_if_pass by done.
  eexists. split; [exact Hx|]. split; [done|]. intros status headers started receipt.
  unfold reconcile_dispatch.
  cbn [PreparedDispatch.endpoint PreparedDispatch.expected_deployment_id
    PreparedDispatch.generation_id]. rewrite Hname, He. cbn [mbind result_bind].
  unfold one_of in Hrec. bprop in Hrec. apply list_elem_of_singleton in Hrec as ->.
  split.
  - intros H. apply bind_Ok in H as ([] & H1 & H). apply bind_Ok in H as ([] & H2 & H).
    apply raise_if_Ok in H1, H2. bprop in H2.
    match type of H with context [dget ?k ?d] => destruct (dget k d) as [v|]; [|done] end.
    apply bind_Ok in H as ([] & H3 & H). apply raise_if_Ok in H3. bprop in H3.
    injection H as <-. rewrite H3. split_and!; try done; lia.
  - intros (-> & Hs & -> & ->). rewrite !raise_if_pass; [done|..].
    + by rewrite bool_decide_true.
    + bprop. lia.
    + done.
Qed.
End AdapterTheorems.
End AdapterTheorems.

(** ** Witnesses *)
Module AdapterSamples.
Definition sha (m : bytes) : bytes := take 32 (rev m ++ replicate 32 "0"%char).
Definition hex64 (c : ascii) : string := String.string_of_list_ascii (replicate 64 c).
Definition endpoint : CertifiedEndpoint :=
  CertifiedEndpoint.mk "chat" "POST" "/v1/chat/completions" "json.model" "json.metadata" []
    "x-litellm-model-id" true.
Definition contract : AdapterContract :=
  AdapterContract.mk "litellm-1.98.0"
    (ExactLiteLLMBuild.mk "1.98.0"
       (String.append "ghcr.io/berriai/litellm@sha256:" (hex64 "a"))
       (String.string_of_list_ascii (replicate 40 "b"%char))
       [("litellm/router.py", String.append "sha256:" (hex64 "c"))])
    (GuardContract.mk "/guard" "llmmaxxing_guard" (String.append "sha256:" (hex64 "d")) "last"
       "async_pre_call_deployment_hook" "unsupported" "hcf1_hmac_sha256" FENCE_FIELDS)
    (ServiceKeyContract.mk "internal" ["/v1/chat/completions"] ["hidden"]
       "explicit_routes_hidden_models")
    (ServiceKeyContract.mk "viewer" ["/health/readiness/details"; "/active/callbacks";
       "/v2/model/info"; "/v1/models"] ["all"] "proxy_admin_viewer_explicit_routes")
    (DiscoveryContract.mk "/health/readiness/details" "/active/callbacks" "/v2/model/info"
       "/v1/models" 100 [])
    ["model"; "api_key"] ["model"] [endpoint]
    ((λ r : string * string * string, DenialProbe.mk r.1.1 r.1.2 r.2) <$> EXPECTED_DENIALS).
Definition row : EffectiveDeployment :=
  EffectiveDeployment.mk "runtime-1" "lmx/gpt" "chat" [(ascii_text "model", JStr (ascii_text "gpt"))]
    [] [] [] [] "acc_00000000-0000-4000-8000-000000000001" "binding" "api_key"
    (String.append "hcf1_" (hex64 "e")) 1.
Definition snapshot : DiscoverySnapshot :=
  DiscoverySnapshot.mk [row]
    (match backend_manifest_revision sha contract [row] with Ok r => r | Err _ => "" end).
Definition manifest : GuardManifest :=
  match build_guard_manifest sha snapshot contract with
  | Ok m => m | Err _ => GuardManifest.mk "" "" "" [] end.
Lemma manifest_Ok : build_guard_manifest sha snapshot contract = Ok manifest.
Proof. by vm_compute. Qed.
Lemma sample_contract_Ok : is_ok (AdapterContract.validate contract) = true.
Proof. by vm_compute. Qed.
Lemma row_ok g : deployment_generation sha row contract = Ok g →
  projection_ok (DeploymentGenerationFingerprint.projection g).
Proof.
  intros (c & H & _)%generation_Ok. destruct g as [i p].
  cbn [DeploymentGenerationFingerprint.projection] in *. vm_compute in H. injection H as <-.
  split_and!; apply JsonFacts.json_okb_sound; by vm_compute.
Qed.
End AdapterSamples.

Lemma certified_is_dispatchable_witness :
  ∃ p, reconcile_dispatch AdapterSamples.contract p 200 [("X-LiteLLM-Model-Id", "runtime-1")] false =
    Ok (DeploymentReceipt.mk "chat" "runtime-1" (PreparedDispatch.generation_id p)).
Proof.
  pose proof AdapterSamples.sample_contract_Ok as E.
  destruct (AdapterContract.validate AdapterSamples.contract) as [c|] eqn:Hc;
    [|discriminate].
  destruct (AdapterTheorems.certified_is_dispatchable AdapterSamples.sha AdapterSamples.snapshot
    AdapterSamples.contract c AdapterSamples.manifest AdapterSamples.row "chat"
    AdapterSamples.endpoint AdapterSamples.manifest_Ok Hc) as (x & p & Hx & Hp & H).
  - apply NoDup_singleton.
  - left.
  - exact AdapterSamples.row_ok.
  - by vm_compute.
  - exists p. apply H. apply prepared_Ok in Hp as (e & g & _ & _ & _ & ->).
    split_and!; [done|lia|lia|by vm_compute|done].
Defined.

