(* ===== verification/Ingress.v ===== *)
(** * Request ingress

    [gateway/ingress.py]: the validation of an HTTP request before anything is
    read, the process-wide counts of requests, readers and retained bytes, and the
    reading of a body under them.

    The locks of the source guard code that awaits nothing, so an acquisition
    never waits and every method is atomic; the only point of
    [read_retained_body] where other tasks run is [receive()].  The leases,
    reservations and bodies are objects of a store, named by their position. *)
From S2P Require Export Adapter.
From Stdlib Require Import Ascii.
#[local] Open Scope Z_scope.

(** ** Limits *)
Module IngressLimits.
Record t := mk {
  inbound : Z; preauth : Z; body_readers_global : Z; body_readers_per_key : Z;
  max_body_bytes : Z; retained_bytes_global : Z; retained_bytes_per_key : Z;
  max_target_bytes : Z; max_header_count : Z; max_header_bytes : Z; max_header_name_bytes : Z;
  max_header_value_bytes : Z; multipart_spool_bytes : Z; max_body_events : Z;
  (* in milliseconds *)
  body_chunk_timeout : Z; body_total_timeout : Z;
}.

Definition DEFAULT : t :=
  mk 384 64 16 4 (32 * 1024 * 1024) (256 * 1024 * 1024) (64 * 1024 * 1024) (8 * 1024) 100
    (64 * 1024) 256 (8 * 1024) (1024 * 1024) 100000 5000 300000.

(** [__post_init__] *)
Definition post_init (l : t) : result t :=
  raise_if (existsb (λ v, v <? 1)
      [inbound l; preauth l; body_readers_global l; body_readers_per_key l; max_body_bytes l;
       retained_bytes_global l; retained_bytes_per_key l; max_target_bytes l; max_header_count l;
       max_header_bytes l; max_header_name_bytes l; max_header_value_bytes l;
       multipart_spool_bytes l; max_body_events l])
    (ValueError "ingress limits must be positive");;
  raise_if (inbound l <? preauth l) (ValueError "pre-auth limit cannot exceed inbound limit");;
  raise_if (body_readers_global l <? body_readers_per_key l)
    (ValueError "per-key body readers cannot exceed global readers");;
  raise_if (retained_bytes_per_key l <? max_body_bytes l)
    (ValueError "one body cannot exceed the per-key retained limit");;
  raise_if (retained_bytes_global l <? retained_bytes_per_key l)
    (ValueError "per-key retained limit cannot exceed global retained limit");;
  raise_if ((body_chunk_timeout l <=? 0) || (body_total_timeout l <=? 0))
    (ValueError "body timeouts must be positive");;
  mret l.
End IngressLimits.
Abbreviation IngressLimits := IngressLimits.t.

(** ** Bytes *)
Definition bytes_lower (b : bytes) : bytes := lower_char <$> b.
(** [b.isdigit()] *)
Definition is_digits (b : bytes) : bool :=
  negb (bool_decide (b = [])) && forallb (in_range "0" "9") b.
(** [int(b)]: Python refuses more than 4300 digits. *)
Definition MAX_INT_DIGITS : Z := 4300.
Definition digits_value (b : bytes) : Z := foldl (λ n c, 10 * n + (byte_value c - 48)) 0 b.
Definition int_of_digits (b : bytes) : result Z :=
  raise_if (MAX_INT_DIGITS <? Z.of_nat (length b))
    (ValueError "Exceeds the limit (4300 digits) for integer string conversion");;
  mret (digits_value b).
(** [b.split(sep)] for one byte. *)
Fixpoint split_byte (sep : ascii) (b : bytes) : list bytes :=
  match b with
  | [] => [[]]
  | c :: b =>
      if Ascii.eqb c sep then [] :: split_byte sep b
      else match split_byte sep b with
           | p :: ps => (c :: p) :: ps
           | [] => [[c]]
           end
  end.
(** [strip()] of the characters [space]. *)
Fixpoint strip_left (space : ascii → bool) (b : bytes) : bytes :=
  match b with c :: b' => if space c then strip_left space b' else b | [] => [] end.
Definition strip (space : ascii → bool) (b : bytes) : bytes :=
  rev (strip_left space (rev (strip_left space b))).
(** White space of [bytes] and of [str]. *)
Definition bytes_space (c : ascii) : bool :=
  let z := byte_value c in ((9 <=? z) && (z <=? 13)) || (z =? 32).
Definition str_space (c : ascii) : bool :=
  let z := byte_value c in bytes_space c || ((0x1c <=? z) && (z <=? 0x1f)).
Definition is_ascii (b : bytes) : bool := forallb (λ c, byte_value c <? 128) b.
Definition text_bytes (s : string) : bytes := String.list_ascii_of_string s.
Definition ends_with (suffix b : bytes) : bool :=
  bool_decide (drop (length b - length suffix) b = suffix) && Nat.leb (length suffix) (length b).

(** ** Requests *)
Module Scope.
(** [None] stands for a value of another type; an absent [query_string] is
    [Some []], as its default. *)
Record t := mk {
  type : option string; method : option string; path : option string;
  raw_path : option bytes; query_string : option bytes;
  headers : option (list (option (bytes * bytes)));
}.
End Scope.
Abbreviation Scope := Scope.t.

Abbreviation header := (prod (list ascii) (list ascii)).

Module IngressRequest.
Record t := mk {
  endpoint : CertifiedEndpoint; headers : list header; content_length : option Z;
  content_type : bytes; chunked : bool;
}.

Definition values (r : t) (name : bytes) : list bytes :=
  (List.filter (λ h : header, bool_decide (h.1 = bytes_lower name)) (headers r)).*2.
Definition multipart (r : t) : bool :=
  bool_decide (CertifiedEndpoint.model_locator (endpoint r) = "multipart.model").
End IngressRequest.
Abbreviation IngressRequest := IngressRequest.t.

(** [_HEADER_NAME] *)
Definition header_name_char (c : ascii) : bool :=
  in_range "0" "9" c || in_range "A" "Z" c || in_range "a" "z" c ||
  bool_decide (c ∈ text_bytes "!#$%&'*+.^_`|~-").
Definition is_header_name (b : bytes) : bool :=
  negb (bool_decide (b = [])) && forallb header_name_char b.
(** [\r], [\n] or a null byte *)
Definition unsafe_value_char (c : ascii) : bool :=
  let z := byte_value c in (z =? 13) || (z =? 10) || (z =? 0).

Definition SINGLETON_HEADERS : list bytes := text_bytes <$>
  ["authorization"; "content-length"; "content-type"; "content-encoding"; "expect"; "host";
   "transfer-encoding"; "upgrade"].

Module HeaderScan.
Record t := mk { result : list header; total : Z; counts : dict bytes Z }.
End HeaderScan.

(** One turn of the loop of [_headers]. *)
Definition scan_header (limits : IngressLimits) (s : HeaderScan.t) (item : option header) :
    result HeaderScan.t :=
  match item with
  | None => Err (IngressError 400 "malformed_headers")
  | Some (name, value) =>
      raise_if (bool_decide (name = []) ||
                (IngressLimits.max_header_name_bytes limits <? zlen name) ||
                (IngressLimits.max_header_value_bytes limits <? zlen value) ||
                negb (is_header_name name) || existsb unsafe_value_char value)
        (IngressError 431 "header_limit");;
      let lowered := bytes_lower name in
      let total := HeaderScan.total s + (zlen lowered + zlen value + 4) in
      raise_if (IngressLimits.max_header_bytes limits <? total)
        (IngressError 431 "headers_too_large");;
      mret (HeaderScan.mk (HeaderScan.result s ++ [(lowered, value)]) total
              (dset lowered (dget_or lowered 0 (HeaderScan.counts s) + 1) (HeaderScan.counts s)))
  end.

(** [_headers] *)
Definition headers_of (scope : Scope) (limits : IngressLimits) : result (list header) :=
  match Scope.headers scope with
  | None => Err (IngressError 400 "malformed_headers")
  | Some raw_headers =>
      raise_if (IngressLimits.max_header_count limits <? zlen raw_headers)
        (IngressError 431 "too_many_headers");;
      s ← fold_result (scan_header limits) (HeaderScan.mk [] 0 []) raw_headers;
      raise_if (existsb (λ name, 1 <? dget_or name 0 (HeaderScan.counts s)) SINGLETON_HEADERS)
        (IngressError 400 "duplicate_singleton_header");;
      mret (HeaderScan.result s)
  end.

(** [_one] *)
Definition one_header (headers : list header) (name : string) : option bytes :=
  snd <$> List.find (λ h : header, bool_decide (h.1 = text_bytes name)) headers.

(** [value or default] *)
Definition or_bytes (value : option bytes) (default : bytes) : bytes :=
  match value with Some [] | None => default | Some v => v end.

Definition check_target (scope : Scope) (limits : IngressLimits) :
    result (string * string) :=
  method ← match Scope.method scope with
           | Some m => Ok m | None => Err (IngressError 400 "malformed_target") end;
  path ← match Scope.path scope with
         | Some p => Ok p | None => Err (IngressError 400 "malformed_target") end;
  raw_path ← match Scope.raw_path scope with
             | Some p => Ok p | None => Err (IngressError 400 "malformed_target") end;
  query ← match Scope.query_string scope with
          | Some q => Ok q | None => Err (IngressError 400 "malformed_target") end;
  let target_bytes := zlen raw_path + (if bool_decide (query = []) then 0 else 1 + zlen query) in
  raise_if (IngressLimits.max_target_bytes limits <? target_bytes)
    (IngressError 414 "target_too_long");;
  raise_if (negb (is_ascii (text_bytes path))) (IngressError 400 "noncanonical_target");;
  raise_if (negb (bool_decide (raw_path = text_bytes path)) ||
            existsb (Ascii.eqb "%") raw_path || negb (bool_decide (query = [])))
    (IngressError 400 "noncanonical_target");;
  mret (method, path).

Definition check_hop_headers (headers : list header) : result unit :=
  let connection := bytes_lower (or_bytes (one_header headers "connection") []) in
  raise_if (bool_decide (is_Some (one_header headers "upgrade")) ||
            bool_decide (text_bytes "upgrade" ∈ strip bytes_space <$> split_byte "," connection))
    (IngressError 426 "upgrade_not_supported");;
  raise_if (bool_decide (is_Some (one_header headers "expect")))
    (IngressError 417 "expect_not_supported");;
  raise_if (bool_decide (is_Some (one_header headers "proxy-authorization")))
    (IngressError 400 "proxy_authorization_not_supported").

(** The content length, and whether the body is chunked. *)
Definition check_framing (headers : list header) (limits : IngressLimits) :
    result (option Z * bool) :=
  let content_length_value := one_header headers "content-length" in
  let transfer_encoding := one_header headers "transfer-encoding" in
  raise_if (bool_decide (is_Some content_length_value) && bool_decide (is_Some transfer_encoding))
    (IngressError 400 "ambiguous_framing");;
  content_length ← match content_length_value with
    | None => mret None
    | Some v =>
        raise_if (negb (is_digits v)) (IngressError 400 "malformed_content_length");;
        n ← int_of_digits v;
        raise_if (IngressLimits.max_body_bytes limits <? n) (IngressError 413 "body_too_large");;
        mret (Some n)
    end;
  match transfer_encoding with
  | None => mret (content_length, false)
  | Some v =>
      raise_if (negb (bool_decide (bytes_lower v = text_bytes "chunked")))
        (IngressError 400 "unsupported_transfer_encoding");;
      mret (content_length, true)
  end.

Definition check_content_encoding (headers : list header) : result unit :=
  let content_encoding :=
    bytes_lower (or_bytes (one_header headers "content-encoding") (text_bytes "identity")) in
  raise_if (negb (bool_decide (content_encoding ∈ [[]; text_bytes "identity"])))
    (IngressError 415 "unsupported_content_encoding").

Definition find_endpoint (contract : AdapterContract) (path method : string) :
    result CertifiedEndpoint :=
  match List.find (λ c, bool_decide (CertifiedEndpoint.path c = path) &&
                        bool_decide (CertifiedEndpoint.method c = method))
          (AdapterContract.endpoints contract) with
  | Some e => Ok e
  | None =>
      if bool_decide (path ∈ CertifiedEndpoint.path <$> AdapterContract.endpoints contract)
      then Err (IngressError 405 "method_not_allowed")
      else Err (IngressError 404 "route_not_found")
  end.

Definition media_type (content_type : bytes) : bytes :=
  bytes_lower (strip str_space (default [] (head (split_byte ";" content_type)))).

Definition check_content_type (endpoint : CertifiedEndpoint) (content_type : bytes) : result unit :=
  raise_if (negb (is_ascii content_type)) (IngressError 415 "unsupported_content_type");;
  let media := media_type content_type in
  let locator := CertifiedEndpoint.model_locator endpoint in
  raise_if (bool_decide (locator = "json.model") &&
            negb (bool_decide (media = text_bytes "application/json") ||
                  ends_with (text_bytes "+json") media))
    (IngressError 415 "unsupported_content_type");;
  raise_if (bool_decide (locator = "multipart.model") &&
            negb (bool_decide (media = text_bytes "multipart/form-data")))
    (IngressError 415 "unsupported_content_type").

Definition validate_http_request (scope : Scope) (contract : AdapterContract)
    (limits : IngressLimits) : result IngressRequest :=
  raise_if (negb (bool_decide (Scope.type scope = Some "http")))
    (IngressError 400 "unsupported_asgi_scope");;
  '(method, path) ← check_target scope limits;
  headers ← headers_of scope limits;
  check_hop_headers headers;;
  '(content_length, chunked) ← check_framing headers limits;
  check_content_encoding headers;;
  endpoint ← find_endpoint contract path method;
  let content_type := or_bytes (one_header headers "content-type") [] in
  check_content_type endpoint content_type;;
  mret (IngressRequest.mk endpoint headers content_length content_type chunked).
