(* ===== verification/IngressState.v ===== *)
(** * The counts and retained bodies of ingress

    The second half of [gateway/ingress.py]: [_CounterLimiter], the leases,
    [IngressResources], [RetainedBody] and [read_retained_body]. *)
From S2P Require Export Ingress.
From Stdlib Require Import Ascii.
From coqutil Require Import Datatypes.RecordSetters.
#[local] Open Scope Z_scope.

(** ** Objects *)
Module CounterLimiter.
Record t := mk { limit : Z; active : Z }.
End CounterLimiter.
Abbreviation CounterLimiter := CounterLimiter.t.

(** Which limiter a counter lease belongs to. *)
Inductive counter := Inbound | Preauth.
#[export] Instance counter_eq_dec : EqDecision counter.
Proof. solve_decision. Defined.

Module CounterLease.
Record t := mk { owner : counter; released : bool }.
End CounterLease.
Abbreviation CounterLease := CounterLease.t.

Module BodyReaderLease.
Record t := mk { key_id : string; released : bool }.
End BodyReaderLease.
Abbreviation BodyReaderLease := BodyReaderLease.t.

Module BodyReservation.
Record t := mk { key_id : string; size : Z; released : bool }.
End BodyReservation.
Abbreviation BodyReservation := BodyReservation.t.

(** The file is the bytes it holds. *)
Module RetainedBody.
Record t := mk {
  file : bytes; reservation : nat; size : Z; spooled_to_disk : bool; released : bool }.
End RetainedBody.
Abbreviation RetainedBody := RetainedBody.t.

Module IngressResources.
Record t := mk {
  limits : IngressLimits;
  inbound : CounterLimiter;
  preauth : CounterLimiter;
  body_readers : Z;
  body_readers_by_key : dict string Z;
  retained : Z;
  retained_by_key : dict string Z;
  (* the objects handed out *)
  counter_leases : list CounterLease;
  reader_leases : list BodyReaderLease;
  reservations : list BodyReservation;
  bodies : list RetainedBody;
}.
Definition init (l : IngressLimits) : t :=
  mk l (CounterLimiter.mk (IngressLimits.inbound l) 0)
     (CounterLimiter.mk (IngressLimits.preauth l) 0) 0 [] 0 [] [] [] [] [].
End IngressResources.
Abbreviation IngressResources := IngressResources.t.

Import IngressResources.
Implicit Types s : IngressResources.

(** ** The limiters *)
Definition limiter (c : counter) s : CounterLimiter :=
  match c with Inbound => inbound s | Preauth => preauth s end.
Definition set_active (c : counter) (n : Z) s : IngressResources :=
  let l := CounterLimiter.mk (CounterLimiter.limit (limiter c s)) n in
  match c with
  | Inbound => mk (limits s) l (preauth s) (body_readers s) (body_readers_by_key s) (retained s)
      (retained_by_key s) (counter_leases s) (reader_leases s) (reservations s) (bodies s)
  | Preauth => mk (limits s) (inbound s) l (body_readers s) (body_readers_by_key s) (retained s)
      (retained_by_key s) (counter_leases s) (reader_leases s) (reservations s) (bodies s)
  end.
Definition set_counter_leases (l : list CounterLease) s : IngressResources :=
  mk (limits s) (inbound s) (preauth s) (body_readers s) (body_readers_by_key s) (retained s)
    (retained_by_key s) l (reader_leases s) (reservations s) (bodies s).
Definition set_readers (n : Z) (by_key : dict string Z) s : IngressResources :=
  mk (limits s) (inbound s) (preauth s) n by_key (retained s) (retained_by_key s)
    (counter_leases s) (reader_leases s) (reservations s) (bodies s).
Definition set_reader_leases (l : list BodyReaderLease) s : IngressResources :=
  mk (limits s) (inbound s) (preauth s) (body_readers s) (body_readers_by_key s) (retained s)
    (retained_by_key s) (counter_leases s) l (reservations s) (bodies s).
Definition set_retained (n : Z) (by_key : dict string Z) s : IngressResources :=
  mk (limits s) (inbound s) (preauth s) (body_readers s) (body_readers_by_key s) n by_key
    (counter_leases s) (reader_leases s) (reservations s) (bodies s).
Definition set_reservations (l : list BodyReservation) s : IngressResources :=
  mk (limits s) (inbound s) (preauth s) (body_readers s) (body_readers_by_key s) (retained s)
    (retained_by_key s) (counter_leases s) (reader_leases s) l (bodies s).
Definition set_bodies (l : list RetainedBody) s : IngressResources :=
  mk (limits s) (inbound s) (preauth s) (body_readers s) (body_readers_by_key s) (retained s)
    (retained_by_key s) (counter_leases s) (reader_leases s) (reservations s) l.

(** [_CounterLimiter.try_acquire]: the lease, or [None]. *)
Definition try_acquire (c : counter) : M IngressResources (option nat) :=
  s ← get;
  let l := limiter c s in
  if CounterLimiter.limit l <=? CounterLimiter.active l then mret None
  else
    modify (set_active c (CounterLimiter.active l + 1));;
    modify (set_counter_leases (counter_leases s ++ [CounterLease.mk c false]));;
    mret (Some (length (counter_leases s))).
Definition try_inbound : M IngressResources (option nat) := try_acquire Inbound.
Definition try_preauth : M IngressResources (option nat) := try_acquire Preauth.

(** [_CounterLimiter._release] *)
Definition release_counter (c : counter) : M IngressResources unit :=
  s ← get;
  let n := CounterLimiter.active (limiter c s) in
  if n <? 1 then raise (RuntimeError "counter lease underflow")
  else modify (set_active c (n - 1)).

(** [_CounterLease.release] *)
Definition release_counter_lease (i : nat) : M IngressResources unit :=
  s ← get;
  match counter_leases s !! i with
  | None => mret tt
  | Some l =>
      if CounterLease.released l then mret tt
      else
        modify (set_counter_leases
          (<[i := CounterLease.mk (CounterLease.owner l) true]> (counter_leases s)));;
        release_counter (CounterLease.owner l)
  end.

(** ** Readers *)
Definition try_body_reader (key_id : string) : M IngressResources (option nat) :=
  s ← get;
  let key_count := dget_or key_id 0 (body_readers_by_key s) in
  if (IngressLimits.body_readers_global (limits s) <=? body_readers s) ||
     (IngressLimits.body_readers_per_key (limits s) <=? key_count)
  then mret None
  else
    modify (set_readers (body_readers s + 1)
              (dset key_id (key_count + 1) (body_readers_by_key s)));;
    modify (set_reader_leases (reader_leases s ++ [BodyReaderLease.mk key_id false]));;
    mret (Some (length (reader_leases s))).

(** [_release_body_reader] *)
Definition release_body_reader (key_id : string) : M IngressResources unit :=
  s ← get;
  let key_count := dget_or key_id 0 (body_readers_by_key s) in
  if (body_readers s <? 1) || (key_count <? 1)
  then raise (RuntimeError "body-reader lease underflow")
  else
    modify (set_readers (body_readers s - 1)
      (if key_count =? 1 then ddel key_id (body_readers_by_key s)
       else dset key_id (key_count - 1) (body_readers_by_key s))).

(** [BodyReaderLease.release] *)
Definition release_reader_lease (i : nat) : M IngressResources unit :=
  s ← get;
  match reader_leases s !! i with
  | None => mret tt
  | Some l =>
      if BodyReaderLease.released l then mret tt
      else
        modify (set_reader_leases
          (<[i := BodyReaderLease.mk (BodyReaderLease.key_id l) true]> (reader_leases s)));;
        release_body_reader (BodyReaderLease.key_id l)
  end.

(** ** Reservations *)
Definition new_body_reservation (key_id : string) : M IngressResources nat :=
  s ← get;
  modify (set_reservations (reservations s ++ [BodyReservation.mk key_id 0 false]));;
  mret (length (reservations s)).

(** [_grow_body] *)
Definition grow_body (key_id : string) (current amount : Z) : M IngressResources bool :=
  s ← get;
  let key_total := dget_or key_id 0 (retained_by_key s) in
  if (IngressLimits.max_body_bytes (limits s) <? current + amount) ||
     (IngressLimits.retained_bytes_global (limits s) <? retained s + amount) ||
     (IngressLimits.retained_bytes_per_key (limits s) <? key_total + amount)
  then mret false
  else
    modify (set_retained (retained s + amount)
              (dset key_id (key_total + amount) (retained_by_key s)));;
    mret true.

(** [BodyReservation.grow] *)
Definition grow (i : nat) (amount : Z) : M IngressResources bool :=
  s ← get;
  match reservations s !! i with
  | None => mret false
  | Some r =>
      if BodyReservation.released r || (amount <? 0) then mret false
      else if amount =? 0 then mret true
      else
        grown ← grow_body (BodyReservation.key_id r) (BodyReservation.size r) amount;
        if negb grown then mret false
        else
          modify (λ s, set_reservations (<[i := BodyReservation.mk (BodyReservation.key_id r)
            (BodyReservation.size r + amount) (BodyReservation.released r)]> (reservations s)) s);;
          mret true
  end.

(** [_release_body] *)
Definition release_body (key_id : string) (amount : Z) : M IngressResources unit :=
  s ← get;
  let key_total := dget_or key_id 0 (retained_by_key s) in
  if (retained s <? amount) || (key_total <? amount)
  then raise (RuntimeError "retained-body reservation underflow")
  else
    let remaining := key_total - amount in
    modify (set_retained (retained s - amount)
      (if remaining =? 0 then ddel key_id (retained_by_key s)
       else dset key_id remaining (retained_by_key s))).

(** [BodyReservation.release] *)
Definition release_reservation (i : nat) : M IngressResources unit :=
  s ← get;
  match reservations s !! i with
  | None => mret tt
  | Some r =>
      if BodyReservation.released r then mret tt
      else
        modify (set_reservations (<[i := BodyReservation.mk (BodyReservation.key_id r)
          (BodyReservation.size r) true]> (reservations s)));;
        release_body (BodyReservation.key_id r) (BodyReservation.size r)
  end.

(** ** Retained bodies *)

(** [RetainedBody.read] *)
Definition read_body (i : nat) : M IngressResources bytes :=
  s ← get;
  match bodies s !! i with
  | None => raise AssertionError
  | Some b =>
      if RetainedBody.released b then raise (RuntimeError "retained body is released")
      else mret (RetainedBody.file b)
  end.

(** [RetainedBody.release] *)
Definition release_retained_body (i : nat) : M IngressResources unit :=
  s ← get;
  match bodies s !! i with
  | None => mret tt
  | Some b =>
      if RetainedBody.released b then mret tt
      else
        modify (set_bodies (<[i := RetainedBody.mk (RetainedBody.file b)
          (RetainedBody.reservation b) (RetainedBody.size b) (RetainedBody.spooled_to_disk b)
          true]> (bodies s)));;
        release_reservation (RetainedBody.reservation b)
  end.

(** ** The operations other tasks run *)
Inductive op :=
| TryCounter (c : counter)
| ReleaseCounter (i : nat)
| TryReader (key_id : string)
| ReleaseReader (i : nat)
| NewReservation (key_id : string)
| Grow (i : nat) (amount : Z)
| ReleaseReservation (i : nat)
| NewBody (file : bytes) (reservation : nat) (spooled : bool)
| ReleaseBody (i : nat).

(** The construction of a [RetainedBody]. *)
Definition new_body (file : bytes) (reservation : nat) (spooled : bool) :
    M IngressResources nat :=
  s ← get;
  modify (set_bodies (bodies s ++ [RetainedBody.mk file reservation (zlen file) spooled false]));;
  mret (length (bodies s)).

Definition run_op (o : op) : M IngressResources unit :=
  match o with
  | TryCounter c => try_acquire c;; mret tt
  | ReleaseCounter i => release_counter_lease i
  | TryReader k => try_body_reader k;; mret tt
  | ReleaseReader i => release_reader_lease i
  | NewReservation k => new_body_reservation k;; mret tt
  | Grow i n => grow i n;; mret tt
  | ReleaseReservation i => release_reservation i
  | NewBody f r sp => new_body f r sp;; mret tt
  | ReleaseBody i => release_retained_body i
  end.

(** ** Reading a body *)

(** What [receive()] gives: a message whose ["body"] may be of another type
    ([None]), nothing within the time it is given, or an exception (a
    cancellation of the task included). *)
Inductive arrival :=
| Message (type : string) (body : option bytes) (more_body : bool)
| Late
| Raised (e : exn).

(** One turn of the loop ([started] is the clock before the first): the clock when it starts, what other tasks do while it
    waits, what arrives, and what writing the chunk raises, if anything. *)
Module Turn.
Record t := mk { now : Z; others : list op; received : arrival; write : option exn }.
End Turn.

(** [try: ... finally: cleanup] *)
Definition finally {S A} (m : M S A) (cleanup : M S unit) : M S A := λ st,
  let '(st1, r) := m st in
  let '(st2, c) := cleanup st1 in
  (st2, match c with Ok _ => r | Err e => Err e end).

(** What the other tasks do; an exception of theirs is theirs. *)
Definition run_others (ops : list op) : M IngressResources unit := λ s,
  (foldl (λ s o, (run_op o s).1) s ops, Ok tt).

Section Read.
Context (request : IngressRequest) (started : Z) (turns : nat → Turn.t) (spool_mode : Z).

Definition lengthy (n : Z) : bool :=
  match IngressRequest.content_length request with Some l => l <? n | None => false end.

(** The loop after [events] turns; [fuel] more are allowed. *)
Fixpoint read_loop (reservation : nat) (deadline : Z) (fuel events : nat) (file : bytes) :
    M IngressResources bytes :=
  match fuel with
  | O => raise (IngressError 408 "body_event_limit")
  | S fuel =>
      let turn := turns events in
      if deadline - Turn.now turn <=? 0 then raise (IngressError 408 "body_timeout")
      else
        run_others (Turn.others turn);;
        match Turn.received turn with
        | Late => raise (IngressError 408 "body_timeout")
        | Raised e => raise e
        | Message type body more_body =>
            if bool_decide (type = "http.disconnect")
            then raise (IngressError 499 "client_disconnected")
            else if negb (bool_decide (type = "http.request"))
            then raise (IngressError 400 "invalid_asgi_body_event")
            else match body with
            | None => raise (IngressError 400 "invalid_asgi_body_event")
            | Some chunk =>
                if lengthy (zlen file + zlen chunk)
                then raise (IngressError 400 "content_length_mismatch")
                else
                  grown ← grow reservation (zlen chunk);
                  s ← get;
                  if negb grown then
                    if IngressLimits.max_body_bytes (limits s) <? zlen file + zlen chunk
                    then raise (IngressError 413 "body_too_large")
                    else raise (IngressError 429 "retained_body_limit")
                  else
                    match Turn.write turn with
                    | Some e => raise e
                    | None =>
                        let file := file ++ chunk in
                        if more_body then read_loop reservation deadline fuel (S events) file
                        else mret file
                    end
            end
        end
  end.

Definition threshold (l : IngressLimits) : Z :=
  if IngressRequest.multipart request then IngressLimits.multipart_spool_bytes l
  else IngressLimits.max_body_bytes l + 1.

Definition read_retained_body (client_key_id : string) : M IngressResources nat :=
  reader ← try_body_reader client_key_id;
  match reader with
  | None => raise (IngressError 429 "body_reader_limit")
  | Some reader =>
      reservation ← new_body_reservation client_key_id;
      finally
        (on_error
          (s ← get;
           let l := limits s in
           let deadline := started + IngressLimits.body_total_timeout l in
           file ← read_loop reservation deadline (Z.to_nat (IngressLimits.max_body_events l)) 0 [];
           if match IngressRequest.content_length request with
              | Some n => negb (zlen file =? n) | None => false end
           then raise (IngressError 400 "content_length_mismatch")
           else
             let spooled := threshold l <? zlen file in
             if spooled && negb (spool_mode =? 0x180)
             then raise (IngressError 500 "unsafe_spool_mode")
             else new_body file reservation spooled)
          (release_reservation reservation))
        (release_reader_lease reader)
  end.
End Read.
