(* ===== verification/IngressFacts.v ===== *)
(** * The invariant of ingress accounting

    Every count is the sum over the objects that hold it, within its limit, and
    every operation keeps it so without raising. *)
From S2P Require Export IngressState.
From Stdlib Require Import Ascii.
Import IngressResources.
#[local] Open Scope Z_scope.
Implicit Types s : IngressResources.

(** ** Sums over lists *)
Fixpoint lsum {A} (f : A → Z) (l : list A) : Z :=
  match l with [] => 0 | x :: l => f x + lsum f l end.

Lemma lsum_app {A} (f : A → Z) l1 l2 : lsum f (l1 ++ l2) = lsum f l1 + lsum f l2.
Proof. induction l1 as [|x l IH]; cbn; [lia|]. lia. Qed.

Lemma lsum_snoc {A} (f : A → Z) l x : lsum f (l ++ [x]) = lsum f l + f x.
Proof. rewrite lsum_app. cbn. lia. Qed.

Lemma lsum_insert {A} (f : A → Z) l i x y : l !! i = Some x →
  lsum f (<[i := y]> l) = lsum f l - f x + f y.
Proof.
  revert i. induction l as [|z l IH]; intros [|i]; cbn; try done.
  - intros [= ->]. lia.
  - intros H. change (f z + lsum f (<[i := y]> l) = f z + lsum f l - f x + f y).
    rewrite (IH i H). lia.
Qed.

Lemma lsum_nonneg {A} (f : A → Z) l : (∀ x, x ∈ l → 0 ≤ f x) → 0 ≤ lsum f l.
Proof.
  induction l as [|x l IH]; intros Hf; cbn [lsum]; [lia|].
  pose proof (Hf x ltac:(left)). specialize (IH ltac:(intros; apply Hf; by right)).
  lia.
Qed.

Lemma lsum_elem {A} (f : A → Z) l i x : (∀ x, x ∈ l → 0 ≤ f x) → l !! i = Some x → f x ≤ lsum f l.
Proof.
  revert i. induction l as [|y l IH]; intros [|i] Hf Hi; try done.
  - injection Hi as ->. cbn [lsum].
    pose proof (lsum_nonneg f l ltac:(intros; apply Hf; by right)). lia.
  - cbn [lsum]. specialize (IH i ltac:(intros; apply Hf; by right) Hi).
    pose proof (Hf y ltac:(left)). lia.
Qed.

Lemma lsum_le {A} (f g : A → Z) l : (∀ x, x ∈ l → f x ≤ g x) → lsum f l ≤ lsum g l.
Proof.
  induction l as [|x l IH]; intros H; cbn [lsum]; [lia|].
  pose proof (H x ltac:(left)). specialize (IH ltac:(intros; apply H; by right)).
  lia.
Qed.

(** ** Counts by key *)
Definition put_count (k : string) (n : Z) (d : dict string Z) : dict string Z :=
  if n =? 0 then ddel k d else dset k n d.

(** [d] holds exactly the keys that count. *)
Definition counts (d : dict string Z) (f : string → Z) : Prop :=
  dict_ok d ∧ (∀ k, dget_or k 0 d = f k) ∧ ∀ k n, dget k d = Some n → 0 < n.

Lemma counts_put d f k n f' : counts d f → 0 ≤ n →
  (∀ k', f' k' = if decide (k' = k) then n else f k') → counts (put_count k n d) f'.
Proof.
  intros (Hok & Hget & Hpos) Hn Hf'. unfold put_count. destruct (Z.eqb_spec n 0) as [->|Hne].
  - split_and!; [by apply dict_ok_ddel|..].
    + intros k'. rewrite Hf'. unfold dget_or. case_decide as E.
      * subst. by rewrite dget_ddel_eq.
      * rewrite dget_ddel_ne by congruence. apply Hget.
    + intros k' m H. destruct (decide (k' = k)) as [->|E]; [by rewrite dget_ddel_eq in H|].
      rewrite dget_ddel_ne in H by congruence. by eapply Hpos.
  - split_and!; [by apply dict_ok_dset|..].
    + intros k'. rewrite Hf'. unfold dget_or. rewrite dget_dset.
      repeat case_decide; subst; done || apply Hget.
    + intros k' m. rewrite dget_dset. case_decide; [intros [= <-]; lia|apply Hpos].
Qed.

(** ** The invariant *)
Definition counter_weight (c : counter) (l : CounterLease) : Z :=
  if negb (CounterLease.released l) && bool_decide (CounterLease.owner l = c) then 1 else 0.
Definition reader_weight (l : BodyReaderLease) : Z := if BodyReaderLease.released l then 0 else 1.
Definition reader_weight_of (k : string) (l : BodyReaderLease) : Z :=
  if bool_decide (BodyReaderLease.key_id l = k) then reader_weight l else 0.
Definition size_weight (r : BodyReservation) : Z :=
  if BodyReservation.released r then 0 else BodyReservation.size r.
Definition size_weight_of (k : string) (r : BodyReservation) : Z :=
  if bool_decide (BodyReservation.key_id r = k) then size_weight r else 0.

Definition configured (c : counter) (l : IngressLimits) : Z :=
  match c with Inbound => IngressLimits.inbound l | Preauth => IngressLimits.preauth l end.

Record inv s : Prop := {
  inv_limits : IngressLimits.post_init (limits s) = Ok (limits s);
  inv_limit : ∀ c, CounterLimiter.limit (limiter c s) = configured c (limits s);
  inv_active : ∀ c, CounterLimiter.active (limiter c s) = lsum (counter_weight c) (counter_leases s);
  inv_active_le : ∀ c, CounterLimiter.active (limiter c s) ≤ configured c (limits s);
  inv_readers : body_readers s = lsum reader_weight (reader_leases s);
  inv_readers_le : body_readers s ≤ IngressLimits.body_readers_global (limits s);
  inv_readers_by_key : counts (body_readers_by_key s)
    (λ k, lsum (reader_weight_of k) (reader_leases s));
  inv_readers_key_le : ∀ k, lsum (reader_weight_of k) (reader_leases s) ≤
    IngressLimits.body_readers_per_key (limits s);
  inv_retained : retained s = lsum size_weight (reservations s);
  inv_retained_le : retained s ≤ IngressLimits.retained_bytes_global (limits s);
  inv_retained_by_key : counts (retained_by_key s) (λ k, lsum (size_weight_of k) (reservations s));
  inv_retained_key_le : ∀ k, lsum (size_weight_of k) (reservations s) ≤
    IngressLimits.retained_bytes_per_key (limits s);
  inv_sizes : ∀ r, r ∈ reservations s →
    0 ≤ BodyReservation.size r ≤ IngressLimits.max_body_bytes (limits s);
}.

Lemma limits_positive l : IngressLimits.post_init l = Ok l →
  1 ≤ IngressLimits.inbound l ∧ 1 ≤ IngressLimits.preauth l ∧
  1 ≤ IngressLimits.body_readers_global l ∧ 1 ≤ IngressLimits.body_readers_per_key l ∧
  1 ≤ IngressLimits.max_body_bytes l ≤ IngressLimits.retained_bytes_per_key l ∧
  IngressLimits.retained_bytes_per_key l ≤ IngressLimits.retained_bytes_global l ∧
  1 ≤ IngressLimits.max_body_events l.
Proof.
  unfold IngressLimits.post_init. intros H. inv_ok H. rewrite existsb_false in G.
  assert (∀ v, v ∈ [IngressLimits.inbound l; IngressLimits.preauth l;
    IngressLimits.body_readers_global l; IngressLimits.body_readers_per_key l;
    IngressLimits.max_body_bytes l; IngressLimits.max_body_events l] → 1 ≤ v) as Hp.
  { intros v Hv. specialize (G v ltac:(set_solver)). cbn beta in G. bprop in G. lia. }
  bprop. split_and!; try lia; apply Hp; set_solver.
Qed.

Lemma ingress_inv_init l : IngressLimits.post_init l = Ok l → inv (init l).
Proof.
  intros H. pose proof (limits_positive l H).
  assert (∀ f : string → Z, (∀ k, f k = 0) → counts [] f) as Hc.
  { intros f Hf. split_and!; [apply dict_ok_nil|intros k; by rewrite Hf|done]. }
  split; try done; try (intros []; cbn; done || lia); try (cbn; lia); try (intros; cbn; lia).
  - by apply Hc.
  - by apply Hc.
  - by intros r ?%elem_of_nil.
Qed.

(** ** Every operation keeps it, and none raises *)
Definition kept s (r : IngressResources * result unit) : Prop :=
  r.2 = Ok tt ∧ inv r.1 ∧ limits r.1 = limits s.

Lemma counter_weight_nonneg c (l : CounterLease) : 0 ≤ counter_weight c l.
Proof. unfold counter_weight. destruct (_ && _); lia. Qed.
Lemma reader_weight_nonneg l : 0 ≤ reader_weight l.
Proof. unfold reader_weight. destruct (BodyReaderLease.released l); lia. Qed.
Lemma reader_weight_of_nonneg k l : 0 ≤ reader_weight_of k l.
Proof. unfold reader_weight_of. destruct (bool_decide _); [apply reader_weight_nonneg|lia]. Qed.

Lemma acquired_inv c s : inv s →
  CounterLimiter.active (limiter c s) < CounterLimiter.limit (limiter c s) →
  inv (set_counter_leases (counter_leases s ++ [CounterLease.mk c false])
    (set_active c (CounterLimiter.active (limiter c s) + 1) s)).
Proof.
  intros H Hlt. pose proof (inv_limit s H) as HL. pose proof (inv_active s H) as HA.
  pose proof (inv_active_le s H) as HE. rewrite HL in Hlt.
  assert (∀ c', CounterLimiter.active (limiter c' (set_active c
      (CounterLimiter.active (limiter c s) + 1) s)) =
    CounterLimiter.active (limiter c' s) + (if decide (c = c') then 1 else 0)) as Hact.
  { intros c'. case_decide; destruct c, c'; cbn; done || lia. }
  assert (∀ c', limiter c' (set_counter_leases (counter_leases s ++ [CounterLease.mk c false])
    (set_active c (CounterLimiter.active (limiter c s) + 1) s)) =
    limiter c' (set_active c (CounterLimiter.active (limiter c s) + 1) s)) as Hlim by (by intros []).
  split; try (by destruct c; apply H).
  - intros c'. rewrite Hlim. destruct c, c'; exact (HL Inbound) || exact (HL Preauth).
  - intros c'. rewrite Hlim, Hact, HA.
    change (counter_leases (set_counter_leases ?l _)) with l. rewrite lsum_snoc. f_equal.
    unfold counter_weight. cbn. by case_decide; destruct c, c'.
  - intros c'. rewrite Hlim, Hact. specialize (HE c'). specialize (HA c').
    case_decide; destruct c, c'; cbn in *; done || lia.
Qed.

Lemma released_inv i (l : CounterLease) s : inv s → counter_leases s !! i = Some l →
  CounterLease.released l = false →
  let c := CounterLease.owner l in
  1 ≤ CounterLimiter.active (limiter c s) ∧
  inv (set_active c (CounterLimiter.active (limiter c s) - 1)
    (set_counter_leases (<[i := CounterLease.mk c true]> (counter_leases s)) s)).
Proof.
  intros H Hi Hr c. pose proof (inv_limit s H) as HL. pose proof (inv_active s H) as HA.
  pose proof (inv_active_le s H) as HE.
  assert (∀ c', counter_weight c' l = if decide (c = c') then 1 else 0) as Hw.
  { intros c'. unfold counter_weight. rewrite Hr. cbn. fold c. by case_decide; destruct c, c'. }
  assert (1 ≤ CounterLimiter.active (limiter c s)) as Hge.
  { rewrite HA. pose proof (lsum_elem (counter_weight c) _ i l
      (λ x _, counter_weight_nonneg c x) Hi) as Hle. rewrite Hw, decide_True in Hle by done. done. }
  split; [done|].
  set (s1 := set_counter_leases _ s).
  assert (∀ c', CounterLimiter.active (limiter c' (set_active c
      (CounterLimiter.active (limiter c s) - 1) s1)) =
    CounterLimiter.active (limiter c' s) - (if decide (c = c') then 1 else 0)) as Hact.
  { intros c'. case_decide; destruct c, c'; cbn; done || lia. }
  split; try (by destruct c; apply H).
  - intros c'. destruct c, c'; exact (HL Inbound) || exact (HL Preauth).
  - intros c'. rewrite Hact, HA.
    assert (counter_leases (set_active c (CounterLimiter.active (limiter c s) - 1) s1) =
      <[i := CounterLease.mk c true]> (counter_leases s)) as -> by (by destruct c).
    rewrite (lsum_insert _ _ _ l) by done. rewrite Hw.
    assert (counter_weight c' (CounterLease.mk c true) = 0) as -> by done. lia.
  - intros c'. rewrite Hact. specialize (HE c').
    assert (limits (set_active c (CounterLimiter.active (limiter c s) - 1) s1) = limits s) as ->
      by (by destruct c).
    destruct (decide (c = c')); lia.
Qed.

Lemma reader_acquired_inv k s : inv s →
  body_readers s < IngressLimits.body_readers_global (limits s) →
  dget_or k 0 (body_readers_by_key s) < IngressLimits.body_readers_per_key (limits s) →
  inv (set_reader_leases (reader_leases s ++ [BodyReaderLease.mk k false])
    (set_readers (body_readers s + 1)
       (dset k (dget_or k 0 (body_readers_by_key s) + 1) (body_readers_by_key s)) s)).
Proof.
  intros H Hg Hk. destruct (inv_readers_by_key s H) as (Hok & Hget & Hpos).
  assert (0 ≤ dget_or k 0 (body_readers_by_key s)) as Hge.
  { rewrite Hget. apply lsum_nonneg. intros; apply reader_weight_of_nonneg. }
  assert (∀ k', lsum (reader_weight_of k') (reader_leases s ++ [BodyReaderLease.mk k false]) =
    if decide (k' = k) then dget_or k 0 (body_readers_by_key s) + 1
    else lsum (reader_weight_of k') (reader_leases s)) as Hsum.
  { intros k'. rewrite lsum_snoc. unfold reader_weight_of at 2. cbn.
    case_decide as E; [subst; rewrite bool_decide_true by done; rewrite Hget; cbn; lia|].
    rewrite bool_decide_false by congruence. lia. }
  split; try (by apply H); cbn.
  - rewrite lsum_snoc, (inv_readers s H). cbn. lia.
  - lia.
  - assert (dset k (dget_or k 0 (body_readers_by_key s) + 1) (body_readers_by_key s) =
      put_count k (dget_or k 0 (body_readers_by_key s) + 1) (body_readers_by_key s)) as ->.
    { unfold put_count. by rewrite (proj2 (Z.eqb_neq _ _)) by lia. }
    eapply counts_put; [exact (inv_readers_by_key s H)|lia|exact Hsum].
  - intros k'. rewrite Hsum. case_decide; [lia|]. apply H.
Qed.

Lemma reader_released_inv i (l : BodyReaderLease) s : inv s → reader_leases s !! i = Some l →
  BodyReaderLease.released l = false →
  let k := BodyReaderLease.key_id l in
  1 ≤ body_readers s ∧ 1 ≤ dget_or k 0 (body_readers_by_key s) ∧
  inv (set_readers (body_readers s - 1)
      (put_count k (dget_or k 0 (body_readers_by_key s) - 1) (body_readers_by_key s))
    (set_reader_leases (<[i := BodyReaderLease.mk k true]> (reader_leases s)) s)).
Proof.
  intros H Hi Hr k. destruct (inv_readers_by_key s H) as (Hok & Hget & Hpos).
  assert (reader_weight l = 1) as Hw by (unfold reader_weight; by rewrite Hr).
  assert (1 ≤ body_readers s) as Hb.
  { rewrite (inv_readers s H), <-Hw.
    apply (lsum_elem reader_weight _ i); [|done]. intros; apply reader_weight_nonneg. }
  assert (1 ≤ dget_or k 0 (body_readers_by_key s)) as Hk.
  { rewrite Hget. etrans; [|apply (lsum_elem (reader_weight_of k) _ i l); [|done]].
    - unfold reader_weight_of. rewrite bool_decide_true by done. lia.
    - intros; apply reader_weight_of_nonneg. }
  split_and!; [done..|].
  assert (∀ k', lsum (reader_weight_of k') (<[i := BodyReaderLease.mk k true]> (reader_leases s)) =
    if decide (k' = k) then dget_or k 0 (body_readers_by_key s) - 1
    else lsum (reader_weight_of k') (reader_leases s)) as Hsum.
  { intros k'. rewrite (lsum_insert _ _ _ l) by done. unfold reader_weight_of at 2 3. cbn.
    fold k. case_decide as E.
    - subst k'. rewrite bool_decide_true by done. rewrite Hget, Hw. cbn. lia.
    - rewrite bool_decide_false by congruence. lia. }
  split; try (by apply H); cbn.
  - rewrite (lsum_insert _ _ _ l), (inv_readers s H), Hw by done. cbn. lia.
  - pose proof (inv_readers_le s H). lia.
  - eapply counts_put; [exact (inv_readers_by_key s H)|lia|exact Hsum].
  - intros k'. rewrite Hsum. case_decide as E; [|apply H]. subst k'.
    pose proof (inv_readers_key_le s H k). rewrite Hget. lia.
Qed.

Lemma size_nonneg s r : inv s → r ∈ reservations s → 0 ≤ size_weight r.
Proof.
  intros H Hr. destruct (inv_sizes s H r Hr). unfold size_weight.
  destruct (BodyReservation.released r); lia.
Qed.
Lemma size_of_nonneg s k r : inv s → r ∈ reservations s → 0 ≤ size_weight_of k r.
Proof.
  intros H Hr. unfold size_weight_of. destruct (bool_decide _); [by eapply size_nonneg|lia].
Qed.

Lemma elem_of_insert_list {A} (l : list A) i x y : x ∈ <[i := y]> l → x = y ∨ x ∈ l.
Proof.
  intros (j & Hj)%list_elem_of_lookup. destruct (decide (i = j)) as [->|Hne].
  - left. rewrite list_lookup_insert in Hj. case_decide as E; [congruence|].
    by destruct E; apply lookup_lt_Some in Hj.
  - right. rewrite list_lookup_insert_ne in Hj by done. by apply list_elem_of_lookup_2 in Hj.
Qed.

Lemma reserved_inv k s : inv s →
  inv (set_reservations (reservations s ++ [BodyReservation.mk k 0 false]) s).
Proof.
  intros H. pose proof (limits_positive _ (inv_limits s H)) as Hp.
  assert (∀ k', lsum (size_weight_of k') (reservations s ++ [BodyReservation.mk k 0 false]) =
    lsum (size_weight_of k') (reservations s)) as Hsum.
  { intros k'. rewrite lsum_snoc. unfold size_weight_of at 2. cbn. destruct (bool_decide _); lia. }
  split; try (by apply H); cbn.
  - rewrite lsum_snoc, (inv_retained s H). cbn. lia.
  - destruct (inv_retained_by_key s H) as (H1 & H2 & H3). split_and!; try done.
    intros k'. by rewrite Hsum.
  - intros k'. rewrite Hsum. apply H.
  - intros r [Hr| ->%list_elem_of_singleton]%elem_of_app; [by apply H|]. cbn. lia.
Qed.

(** A reservation that holds [n] in the place of [r]. *)
Lemma resized_sums s i r n rel k' : reservations s !! i = Some r →
  BodyReservation.released r = false →
  let r' := BodyReservation.mk (BodyReservation.key_id r) n rel in
  let delta := (if rel then 0 else n) - BodyReservation.size r in
  lsum size_weight (<[i := r']> (reservations s)) = lsum size_weight (reservations s) + delta ∧
  lsum (size_weight_of k') (<[i := r']> (reservations s)) =
    lsum (size_weight_of k') (reservations s) +
    (if decide (k' = BodyReservation.key_id r) then delta else 0).
Proof.
  intros Hi Hr r' delta. rewrite !(lsum_insert _ _ _ r) by done.
  assert (size_weight r' = if rel then 0 else n) as E1 by done.
  assert (size_weight r = BodyReservation.size r) as E2 by (unfold size_weight; by rewrite Hr).
  unfold size_weight_of at 2 3. rewrite E1, E2. split; [unfold delta; lia|].
  change (BodyReservation.key_id r') with (BodyReservation.key_id r).
  case_decide as E; [rewrite bool_decide_true by congruence|rewrite bool_decide_false by congruence];
    unfold delta; lia.
Qed.

Lemma grown_inv s i r amount : inv s → reservations s !! i = Some r →
  BodyReservation.released r = false → 0 < amount →
  let k := BodyReservation.key_id r in
  BodyReservation.size r + amount ≤ IngressLimits.max_body_bytes (limits s) →
  retained s + amount ≤ IngressLimits.retained_bytes_global (limits s) →
  dget_or k 0 (retained_by_key s) + amount ≤ IngressLimits.retained_bytes_per_key (limits s) →
  inv (set_reservations (<[i := BodyReservation.mk k (BodyReservation.size r + amount) false]>
      (reservations s))
    (set_retained (retained s + amount)
      (dset k (dget_or k 0 (retained_by_key s) + amount) (retained_by_key s)) s)).
Proof.
  intros H Hi Hr Ha k H1 H2 H3.
  pose proof (resized_sums s i r (BodyReservation.size r + amount) false) as Hsum.
  cbv zeta in Hsum. fold k in Hsum.
  destruct (inv_retained_by_key s H) as (Hok & Hget & Hpos).
  pose proof (inv_sizes s H r (list_elem_of_lookup_2 _ _ _ Hi)) as Hsz.
  assert (0 ≤ dget_or k 0 (retained_by_key s)) as Hge.
  { rewrite Hget. apply lsum_nonneg. intros; by eapply size_of_nonneg. }
  split; try (by apply H); cbn.
  - destruct (Hsum k Hi Hr) as [-> _]. rewrite (inv_retained s H). cbn. lia.
  - lia.
  - assert (dset k (dget_or k 0 (retained_by_key s) + amount) (retained_by_key s) =
      put_count k (dget_or k 0 (retained_by_key s) + amount) (retained_by_key s)) as ->.
    { unfold put_count. by rewrite (proj2 (Z.eqb_neq _ _)) by lia. }
    eapply counts_put; [exact (inv_retained_by_key s H)|lia|].
    intros k'. destruct (Hsum k' Hi Hr) as [_ ->]. fold k. rewrite Hget.
    case_decide; [subst; lia|lia].
  - intros k'. destruct (Hsum k' Hi Hr) as [_ ->]. fold k. case_decide as E.
    + subst k'. rewrite Hget in H3. lia.
    + pose proof (inv_retained_key_le s H k'). lia.
  - intros r' [-> |Hr']%elem_of_insert_list; [cbn; lia|by apply H].
Qed.

Lemma unreserved_inv s i r : inv s → reservations s !! i = Some r →
  BodyReservation.released r = false →
  let k := BodyReservation.key_id r in let n := BodyReservation.size r in
  n ≤ retained s ∧ n ≤ dget_or k 0 (retained_by_key s) ∧
  inv (set_retained (retained s - n)
      (put_count k (dget_or k 0 (retained_by_key s) - n) (retained_by_key s))
    (set_reservations (<[i := BodyReservation.mk k n true]> (reservations s)) s)).
Proof.
  intros H Hi Hr k n. pose proof (resized_sums s i r n true) as Hsum.
  cbv zeta in Hsum. fold k n in Hsum.
  destruct (inv_retained_by_key s H) as (Hok & Hget & Hpos).
  pose proof (inv_sizes s H r (list_elem_of_lookup_2 _ _ _ Hi)) as Hsz. fold n in Hsz.
  assert (size_weight r = n) as Hw by (unfold size_weight; by rewrite Hr).
  assert (n ≤ retained s) as Hn.
  { rewrite (inv_retained s H), <-Hw. apply (lsum_elem size_weight _ i); [|done].
    intros; by eapply size_nonneg. }
  assert (n ≤ dget_or k 0 (retained_by_key s)) as Hk.
  { rewrite Hget. etrans; [|apply (lsum_elem (size_weight_of k) _ i r); [|done]].
    - unfold size_weight_of. rewrite bool_decide_true by done. lia.
    - intros; by eapply size_of_nonneg. }
  split_and!; [done..|]. split; try (by apply H); cbn.
  - destruct (Hsum k Hi Hr) as [-> _]. rewrite (inv_retained s H). fold n. lia.
  - pose proof (inv_retained_le s H). lia.
  - eapply counts_put; [exact (inv_retained_by_key s H)|lia|].
    intros k'. destruct (Hsum k' Hi Hr) as [_ ->]. fold k n. rewrite Hget.
    case_decide; [subst; lia|lia].
  - intros k'. destruct (Hsum k' Hi Hr) as [_ ->]. fold k n.
    pose proof (inv_retained_key_le s H k'). case_decide; lia.
  - intros r' [-> |Hr']%elem_of_insert_list; [cbn; lia|by apply H].
Qed.

(** ** The operations *)
Ltac run := cbv [mbind M_bind get put modify raise lift mret M_ret].
Ltac run_in H := cbv [mbind M_bind get put modify raise lift mret M_ret] in H.

Lemma release_reservation_kept i s : inv s → kept s (release_reservation i s).
Proof.
  intros H. unfold kept, release_reservation. run.
  destruct (reservations s !! i) as [r|] eqn:Hi; [|done].
  destruct (BodyReservation.released r) eqn:Hr; [done|].
  destruct (unreserved_inv s i r H Hi Hr) as (H1 & H2 & H3).
  unfold release_body. run. cbn [retained retained_by_key set_reservations].
  rewrite (proj2 (Z.ltb_ge _ _)), (proj2 (Z.ltb_ge _ _)) by done. done.
Qed.

Lemma release_reader_kept i s : inv s → kept s (release_reader_lease i s).
Proof.
  intros H. unfold kept, release_reader_lease. run.
  destruct (reader_leases s !! i) as [l|] eqn:Hi; [|done].
  destruct (BodyReaderLease.released l) eqn:Hr; [done|].
  destruct (reader_released_inv i l s H Hi Hr) as (H1 & H2 & H3).
  unfold release_body_reader. run. cbn [body_readers body_readers_by_key set_reader_leases].
  rewrite (proj2 (Z.ltb_ge _ _)), (proj2 (Z.ltb_ge _ _)) by done.
  cbn. split_and!; [done| |done]. unfold put_count in H3.
  destruct (Z.eqb_spec (dget_or (BodyReaderLease.key_id l) 0 (body_readers_by_key s)) 1) as [E|E].
  - rewrite E in H3. exact H3.
  - rewrite (proj2 (Z.eqb_neq _ _)) in H3 by lia. exact H3.
Qed.

Lemma release_counter_kept i s : inv s → kept s (release_counter_lease i s).
Proof.
  intros H. unfold kept, release_counter_lease. run.
  destruct (counter_leases s !! i) as [l|] eqn:Hi; [|done].
  destruct (CounterLease.released l) eqn:Hr; [done|].
  destruct (released_inv i l s H Hi Hr) as (H1 & H2).
  unfold release_counter. run.
  assert (limiter (CounterLease.owner l) (set_counter_leases
    (<[i := CounterLease.mk (CounterLease.owner l) true]> (counter_leases s)) s) =
    limiter (CounterLease.owner l) s) as -> by (by destruct (CounterLease.owner l)).
  rewrite (proj2 (Z.ltb_ge _ _)) by done. cbn. split_and!; [done..|].
  by destruct (CounterLease.owner l).
Qed.

Lemma run_op_kept o s : inv s → kept s (run_op o s).
Proof.
  intros H. destruct o as [c|i|k|i|k|i n|i|f r sp|i]; cbn [run_op].
  - unfold kept, try_acquire. run. destruct (_ <=? _) eqn:E; [done|].
    apply Z.leb_gt in E. split_and!; [done|by apply acquired_inv|by destruct c].
  - by apply release_counter_kept.
  - unfold kept, try_body_reader. run. destruct (_ || _) eqn:E; [done|]. bprop in E.
    destruct E as [E1 E2]. split_and!; [done|by apply reader_acquired_inv|done].
  - by apply release_reader_kept.
  - unfold kept, new_body_reservation. run. split_and!; [done|by apply reserved_inv|done].
  - unfold kept, grow. run. destruct (reservations s !! i) as [r|] eqn:Hi; [|done].
    destruct (BodyReservation.released r || (n <? 0)) eqn:E; [done|]. bprop in E.
    destruct E as [Er En]. destruct (Z.eqb_spec n 0); [done|]. unfold grow_body. run.
    destruct (_ || _) eqn:E2; [done|]. bprop in E2. destruct E2 as [[E3 E4] E5].
    split_and!; [done| |done]. rewrite Er. exact (grown_inv s i r n H Hi Er ltac:(lia) E3 E4 E5).
  - by apply release_reservation_kept.
  - unfold kept, new_body. run. split_and!; [done| |done]. destruct H. by split.
  - unfold kept, release_retained_body. run. destruct (bodies s !! i) as [b|]; [|done].
    destruct (RetainedBody.released b); [done|].
    match goal with |- context [release_reservation ?j ?s'] =>
      assert (inv s') as Hs' by (destruct H; by split);
      destruct (release_reservation_kept j s' Hs') as (H1 & H2 & H3) end.
    split_and!; done.
Qed.

Lemma foldl_ops_kept ops s : inv s →
  inv (foldl (λ s o, (run_op o s).1) s ops) ∧ limits (foldl (λ s o, (run_op o s).1) s ops) = limits s.
Proof.
  revert s. induction ops as [|o ops IH]; intros s H; cbn; [done|].
  destruct (run_op_kept o s H) as (_ & H1 & H2). destruct (IH _ H1) as [H3 H4].
  split; [done|congruence].
Qed.
