(* ===== verification/IngressProps.v ===== *)
(** * Properties of ingress

    The counts are exact and bounded under every interleaving, a body is read
    exactly or leaves nothing behind, and a request that passes validation is
    framed unambiguously. *)
From S2P Require Export IngressFacts.
From S2P Require Import ModelFacts.
From Stdlib Require Import Ascii.
Import IngressResources.
#[local] Open Scope Z_scope.
Implicit Types s : IngressResources.

(** ** What a read owns *)
Definition mine (reader reservation : nat) (key_id : string) (n : Z) s : Prop :=
  reader_leases s !! reader = Some (BodyReaderLease.mk key_id false) ∧
  reservations s !! reservation = Some (BodyReservation.mk key_id n false) ∧
  ∀ b, b ∈ bodies s → RetainedBody.reservation b ≠ reservation.

(** An operation of a task that does not hold these handles. *)
Definition foreign (reader reservation : nat) (o : op) : Prop :=
  match o with
  | ReleaseReader i => i ≠ reader
  | Grow i _ | ReleaseReservation i => i ≠ reservation
  | NewBody _ r _ => r ≠ reservation
  | _ => True
  end.

Lemma mine_lookups ρ v k n s s' :
  mine ρ v k n s →
  reader_leases s' !! ρ = reader_leases s !! ρ →
  reservations s' !! v = reservations s !! v →
  (∀ b, b ∈ bodies s' → RetainedBody.reservation b ≠ v) → mine ρ v k n s'.
Proof. intros (H1 & H2 & H3) E1 E2 E3. split_and!; [by rewrite E1|by rewrite E2|done]. Qed.

Lemma release_reservation_lookup i s v : i ≠ v →
  let s' := (release_reservation i s).1 in
  reader_leases s' = reader_leases s ∧ reservations s' !! v = reservations s !! v ∧
  bodies s' = bodies s.
Proof.
  intros Hne. unfold release_reservation. run. destruct (reservations s !! i) as [r|]; [|done].
  destruct (BodyReservation.released r); [done|]. unfold release_body. run.
  assert (<[i:=BodyReservation.mk (BodyReservation.key_id r) (BodyReservation.size r) true]>
    (reservations s) !! v = reservations s !! v) as E by (by apply list_lookup_insert_ne).
  destruct (_ || _); by split_and!.
Qed.

Lemma foreign_keeps ρ v k n o s : mine ρ v k n s → foreign ρ v o → mine ρ v k n (run_op o s).1.
Proof.
  intros Hm Hf. pose proof Hm as (M1 & M2 & M3). destruct o as [c|i|key|i|key|i m|i|f r sp|i]; cbn [run_op foreign] in *.
  - unfold try_acquire. run. destruct (_ <=? _); [done|]. destruct c; by apply (mine_lookups _ _ _ _ s).
  - unfold release_counter_lease. run. destruct (counter_leases s !! i) as [l|]; [|done].
    destruct (CounterLease.released l); [done|]. unfold release_counter. run.
    destruct (_ <? 1); destruct (CounterLease.owner l); by apply (mine_lookups _ _ _ _ s).
  - unfold try_body_reader. run. destruct (_ || _); [done|]. apply (mine_lookups _ _ _ _ s); try done.
    cbn. apply lookup_app_l. by eapply lookup_lt_Some.
  - unfold release_reader_lease. run. destruct (reader_leases s !! i) as [l|]; [|done].
    destruct (BodyReaderLease.released l); [done|]. unfold release_body_reader. run.
    destruct (_ || _); apply (mine_lookups _ _ _ _ s); try done; cbn; by apply list_lookup_insert_ne.
  - unfold new_body_reservation. run. apply (mine_lookups _ _ _ _ s); try done.
    cbn. apply lookup_app_l. by eapply lookup_lt_Some.
  - unfold grow. run. destruct (reservations s !! i) as [r|]; [|done].
    destruct (_ || _); [done|]. destruct (m =? 0); [done|]. unfold grow_body. run.
    destruct (_ || _); [done|]. apply (mine_lookups _ _ _ _ s); try done. cbn.
    by apply list_lookup_insert_ne.
  - destruct (release_reservation_lookup i s v Hf) as (E1 & E2 & E3).
    apply (mine_lookups _ _ _ _ s); try done; [by rewrite E1|by rewrite E3].
  - unfold new_body. run. apply (mine_lookups _ _ _ _ s); try done. cbn.
    intros b [Hb| ->%list_elem_of_singleton]%elem_of_app; [by apply M3|done].
  - unfold release_retained_body. run. destruct (bodies s !! i) as [b|] eqn:Hb; [|done].
    destruct (RetainedBody.released b); [done|].
    assert (RetainedBody.reservation b ≠ v) as Hne by (apply M3; by eapply list_elem_of_lookup_2).
    match goal with |- mine _ _ _ _ (release_reservation _ ?s1).1 => set (s1' := s1) end.
    assert (mine ρ v k n s1') as Hm1.
    { apply (mine_lookups _ _ _ _ s); try done. intros b' [-> |Hb']%elem_of_insert_list; [done|].
      by apply M3. }
    destruct (release_reservation_lookup (RetainedBody.reservation b) s1' v Hne) as (E1 & E2 & E3).
    apply (mine_lookups _ _ _ _ s1'); try done; [by rewrite E1|]. rewrite E3. apply Hm1.
Qed.

Lemma others_keep ρ v k n ops s : inv s → mine ρ v k n s → (∀ o, o ∈ ops → foreign ρ v o) →
  let s' := foldl (λ s o, (run_op o s).1) s ops in
  inv s' ∧ limits s' = limits s ∧ mine ρ v k n s'.
Proof.
  intros Hi Hm Hf s'. destruct (foldl_ops_kept ops s Hi) as [H1 H2]. split_and!; [done..|].
  clear Hi H1 H2. unfold s'. clear s'. revert s Hm. induction ops as [|o ops IH]; intros s Hm; [done|].
  cbn. apply IH; [intros; apply Hf; by right|]. apply foreign_keeps; [done|apply Hf; left].
Qed.

(** ** The loop *)
Section Read.
Context (request : IngressRequest) (turns : nat → Turn.t) (ρ v : nat) (k : string).
Context (Hforeign : ∀ n o, o ∈ Turn.others (turns n) → foreign ρ v o).

Definition chunk_of (t : Turn.t) : bytes :=
  match Turn.received t with Message _ (Some chunk) _ => chunk | _ => [] end.
Definition more_of (t : Turn.t) : bool :=
  match Turn.received t with Message _ _ more => more | _ => true end.
(** The body that the first [n] messages carry. *)
Definition received (n : nat) : bytes := seq 0 n ≫= λ i, chunk_of (turns i).

Lemma received_S n : received (S n) = received n ++ chunk_of (turns n).
Proof.
  unfold received. rewrite seq_S, bind_app. cbn. by rewrite app_nil_r.
Qed.

(** The messages that make a body: requests, of which only the last is final. *)
Definition complete_after (n : nat) : Prop :=
  (0 < n)%nat ∧ ∀ i, (i < n)%nat → more_of (turns i) = negb (Nat.eqb (S i) n) ∧
    ∃ chunk, Turn.received (turns i) = Message "http.request" (Some chunk) (more_of (turns i)).

Lemma grown_mine n amount s s' b : inv s → mine ρ v k n s → 0 ≤ amount →
  grow v amount s = (s', Ok b) →
  inv s' ∧ limits s' = limits s ∧
  (if b then mine ρ v k (n + amount) s' ∧ n + amount ≤ IngressLimits.max_body_bytes (limits s)
   else mine ρ v k n s').
Proof.
  intros Hi Hm Ha H. destruct (run_op_kept (Grow v amount) s Hi) as (_ & H1 & H2).
  cbn [run_op] in H1, H2. run_in H1. run_in H2. rewrite H in H1, H2. cbn in H1, H2.
  split_and!; [done..|]. destruct Hm as (M1 & M2 & M3). unfold grow in H. run_in H.
  rewrite M2 in H. cbn in H. rewrite (proj2 (Z.ltb_ge _ _)) in H by done.
  destruct (Z.eqb_spec amount 0) as [->|Hne].
  - injection H as <- <-. rewrite Z.add_0_r. split; [done|].
    apply (inv_sizes s Hi (BodyReservation.mk k n false)). by eapply list_elem_of_lookup_2.
  - unfold grow_body in H. run_in H. destruct (_ || _) eqn:E.
    + injection H as <- <-. done.
    + injection H as <- <-. bprop in E. destruct E as [[E1 _] _]. split; [|done].
      split_and!; [done| |done]. cbn. rewrite list_lookup_insert_eq; [done|].
      by eapply lookup_lt_Some.
Qed.

Lemma grow_returns n amount s s' r : inv s → mine ρ v k n s → grow v amount s = (s', r) →
  ∃ b, r = Ok b.
Proof.
  intros _ (_ & M2 & _) H. unfold grow in H. run_in H. rewrite M2 in H. cbn in H.
  destruct (amount <? 0); [injection H as _ <-; eauto|].
  destruct (amount =? 0); [injection H as _ <-; eauto|]. unfold grow_body in H. run_in H.
  destruct (_ || _); injection H as _ <-; eauto.
Qed.

Lemma zlen_app_bytes (a b : bytes) : zlen (a ++ b) = zlen a + zlen b.
Proof. unfold zlen. rewrite length_app. lia. Qed.

Lemma read_loop_spec deadline fuel : ∀ events file s s' r,
  inv s → mine ρ v k (zlen file) s → file = received events →
  (∀ i, (i < events)%nat → more_of (turns i) = true ∧
    ∃ chunk, Turn.received (turns i) = Message "http.request" (Some chunk) true) →
  read_loop request turns v deadline fuel events file s = (s', r) →
  inv s' ∧ limits s' = limits s ∧
  match r with
  | Ok file' => mine ρ v k (zlen file') s' ∧
      ∃ n, (events < n ≤ events + fuel)%nat ∧ file' = received n ∧ complete_after n ∧
        lengthy request (zlen file') = false ∧
        zlen file' ≤ IngressLimits.max_body_bytes (limits s)
  | Err e => ∃ n, mine ρ v k n s'
  end.
Proof.
  induction fuel as [|fuel IH]; intros events file s s' r Hi Hm Hfile Hprev H; cbn [read_loop] in H.
  { injection H as <- <-. split_and!; [done..|]. by eexists. }
  destruct (_ <=? 0). { injection H as <- <-. split_and!; [done..|]. by eexists. }
  unfold run_others in H. run_in H.
  destruct (others_keep ρ v k (zlen file) (Turn.others (turns events)) s Hi Hm (Hforeign events))
    as (Hi1 & Hl1 & Hm1).
  set (s1 := foldl _ s _) in *.
  assert (∀ e, (s1, Err e) = (s', r) → inv s' ∧ limits s' = limits s ∧ match r with
    | Ok file' => mine ρ v k (zlen file') s' ∧
      ∃ n, (events < n ≤ events + S fuel)%nat ∧ file' = received n ∧ complete_after n ∧
        lengthy request (zlen file') = false ∧
        zlen file' ≤ IngressLimits.max_body_bytes (limits s)
    | Err e => ∃ n, mine ρ v k n s' end) as Hfail.
  { intros e [= <- <-]. split_and!; [done..|]. by eexists. }
  destruct (Turn.received (turns events)) as [type body more| |e] eqn:Erec; [|by eapply Hfail..].
  destruct (bool_decide (type = "http.disconnect")); [by eapply Hfail|].
  destruct (negb (bool_decide (type = "http.request"))) eqn:Etype; [by eapply Hfail|].
  bprop in Etype. subst type. destruct body as [chunk|]; [|by eapply Hfail].
  destruct (lengthy request (zlen file + zlen chunk)) eqn:Elen; [by eapply Hfail|].
  destruct (grow v (zlen chunk) s1) as [s2 g] eqn:Eg.
  destruct (grow_returns _ _ _ _ _ Hi1 Hm1 Eg) as [b ->].
  destruct (grown_mine (zlen file) (zlen chunk) s1 s2 b Hi1 Hm1 ltac:(unfold zlen; lia) Eg) as (Hi2 & Hl2 & Hg).
  destruct b; cbn [negb] in H.
  2: { destruct (_ <? _); injection H as <- <-; (split_and!; [done|congruence|]); by eexists. }
  destruct Hg as [Hm2 Hmax]. rewrite <-zlen_app_bytes in Hm2, Hmax, Elen.
  destruct (Turn.write (turns events)) as [e|].
  { injection H as <- <-. split_and!; [done|congruence|]. by eexists. }
  assert (chunk_of (turns events) = chunk) as Hc by (unfold chunk_of; by rewrite Erec).
  assert (more_of (turns events) = more) as Hmore by (unfold more_of; by rewrite Erec).
  assert (file ++ chunk = received (S events)) as Hf' by (by rewrite received_S, Hc, Hfile).
  destruct more.
  - apply IH in H; [|done|done|done|].
    + destruct H as (H1 & H2 & H3). split_and!; [done|congruence|]. destruct r as [file'|e]; [|done].
      destruct H3 as (H3 & n & Hn & Hr & Hco & Hle & Hmx). split; [done|]. exists n.
      rewrite Hl2, Hl1 in Hmx. split_and!; try done; lia.
    + intros i Hlt. destruct (decide (i = events)) as [->|Hne]; [by split; [|exists chunk]|].
      apply Hprev. lia.
  - injection H as <- <-. split; [done|]. split; [congruence|]. split; [done|].
    exists (S events). split; [lia|]. split; [done|].
    split; [|split; [done|by rewrite Hl1 in Hmax]]. split; [lia|]. intros i Hlt. destruct (decide (i = events)) as [->|Hne].
    + rewrite Hmore, Nat.eqb_refl. split; [done|by exists chunk].
    + destruct (Hprev i ltac:(lia)) as [Hp1 Hp2]. rewrite Hp1. split; [|done].
      symmetry. apply negb_true_iff, Nat.eqb_neq. lia.
Qed.
End Read.

(** ** What releases leave *)
Lemma release_mine_reservation ρ v k n s : inv s → mine ρ v k n s →
  ∃ s', release_reservation v s = (s', Ok tt) ∧ inv s' ∧
    reader_leases s' = reader_leases s ∧
    reservations s' !! v = Some (BodyReservation.mk k n true).
Proof.
  intros Hi (M1 & M2 & M3). destruct (release_reservation_kept v s Hi) as (H1 & H2 & H3).
  destruct (release_reservation v s) as [s' r] eqn:E. cbn in *. subst r. exists s'.
  split; [done|]. split; [done|]. unfold release_reservation in E. run_in E. rewrite M2 in E. cbn in E.
  unfold release_body in E. run_in E. destruct (_ || _); [done|]. injection E as <-.
  split; [done|]. cbn. rewrite list_lookup_insert_eq; [done|by eapply lookup_lt_Some].
Qed.

Lemma release_mine_reader ρ k s : inv s → reader_leases s !! ρ = Some (BodyReaderLease.mk k false) →
  ∃ s', release_reader_lease ρ s = (s', Ok tt) ∧ inv s' ∧
    reader_leases s' !! ρ = Some (BodyReaderLease.mk k true) ∧
    reservations s' = reservations s ∧ bodies s' = bodies s.
Proof.
  intros Hi M1. destruct (release_reader_kept ρ s Hi) as (H1 & H2 & H3).
  destruct (release_reader_lease ρ s) as [s' r] eqn:E. cbn in *. subst r. exists s'.
  split; [done|]. split; [done|]. unfold release_reader_lease in E. run_in E. rewrite M1 in E.
  cbn in E. unfold release_body_reader in E. run_in E. destruct (_ || _); [done|].
  injection E as <-. split_and!; try done. cbn.
  rewrite list_lookup_insert_eq; [done|by eapply lookup_lt_Some].
Qed.

(** The state once the reader and the reservation are taken. *)
Lemma read_starts k s : inv s →
  (∀ b, b ∈ bodies s → (RetainedBody.reservation b < length (reservations s))%nat) →
  try_body_reader k s = (s, Ok None) ∨
  ∃ s1 s2, try_body_reader k s = (s1, Ok (Some (length (reader_leases s)))) ∧
    new_body_reservation k s1 = (s2, Ok (length (reservations s))) ∧
    inv s2 ∧ limits s2 = limits s ∧ mine (length (reader_leases s)) (length (reservations s)) k 0 s2.
Proof.
  intros Hi Hb. unfold try_body_reader. run. destruct (_ || _) eqn:E; [by left|right].
  bprop in E. destruct E as [E1 E2]. eexists _, _. split; [done|]. split; [done|].
  pose proof (reader_acquired_inv k s Hi E1 E2) as Hi1. split; [exact (reserved_inv k _ Hi1)|].
  split; [done|]. split_and!; cbn.
  - by rewrite lookup_app_r, Nat.sub_diag by lia.
  - by rewrite lookup_app_r, Nat.sub_diag by lia.
  - intros b Hin. specialize (Hb b Hin). lia.
Qed.

Section Read.
Context (request : IngressRequest) (started : Z) (turns : nat → Turn.t) (spool_mode : Z).

(** What a successful read has stored. *)
Definition stored (v : nat) (k : string) (b : nat) (s0 s : IngressResources) : Prop :=
  ∃ n content spooled, (n ≤ Z.to_nat (IngressLimits.max_body_events (limits s0)))%nat ∧
    complete_after turns n ∧ content = received turns n ∧
    zlen content ≤ IngressLimits.max_body_bytes (limits s0) ∧
    (∀ l, IngressRequest.content_length request = Some l → zlen content = l) ∧
    spooled = (threshold request (limits s0) <? zlen content) ∧
    (spooled = true → spool_mode = 0x180) ∧
    bodies s !! b = Some (RetainedBody.mk content v (zlen content) spooled false) ∧
    reservations s !! v = Some (BodyReservation.mk k (zlen content) false).

Lemma read_spec k s s' r :
  let ρ := length (reader_leases s) in let v := length (reservations s) in
  inv s → (∀ b, b ∈ bodies s → (RetainedBody.reservation b < length (reservations s))%nat) →
  (∀ n o, o ∈ Turn.others (turns n) → foreign ρ v o) →
  read_retained_body request started turns spool_mode k s = (s', r) →
  inv s' ∧
  match r with
  | Ok b => reader_leases s' !! ρ = Some (BodyReaderLease.mk k true) ∧ stored v k b s s'
  | Err e => (e = IngressError 429 "body_reader_limit" ∧ s' = s) ∨
      (reader_leases s' !! ρ = Some (BodyReaderLease.mk k true) ∧
       ∃ n, reservations s' !! v = Some (BodyReservation.mk k n true))
  end.
Proof.
  intros ρ v Hi Hb Hf H. unfold read_retained_body in H.
  apply M_bind_cases in H as [(s1 & o & H1 & H)|(e & H1 & ->)].
  2: { destruct (read_starts k s Hi Hb) as [E|(s1 & s2 & E & _)]; congruence. }
  destruct (read_starts k s Hi Hb) as [E|(s1' & s2 & E1 & E2 & Hi2 & Hl2 & Hm2)].
  { rewrite E in H1. injection H1 as <- <-. injection H as <- <-. split; [done|]. by left. }
  fold ρ in E1, Hm2. fold v in E2, Hm2. rewrite E1 in H1. injection H1 as <- <-.
  apply M_bind_cases in H as [(s2' & v' & H1 & H)|(e & H1 & ->)]; [|congruence].
  rewrite E2 in H1. injection H1 as <- <-. unfold finally in H.
  match type of H with context [on_error ?b _ _] => set (body := b) in H end.
  assert (∀ s3 e, (∃ n, mine ρ v k n s3) → inv s3 → body s2 = (s3, Err e) →
    inv s' ∧ match r with
    | Ok b => reader_leases s' !! ρ = Some (BodyReaderLease.mk k true) ∧ stored v k b s s'
    | Err e => (e = IngressError 429 "body_reader_limit" ∧ s' = s) ∨
        (reader_leases s' !! ρ = Some (BodyReaderLease.mk k true) ∧
         ∃ n, reservations s' !! v = Some (BodyReservation.mk k n true)) end) as Hfail.
  { intros s3 e [n Hm3] Hi3 He. unfold on_error, catch in H. rewrite He in H.
    destruct (release_mine_reservation ρ v k n s3 Hi3 Hm3) as (s4 & E4 & Hi4 & Hr4 & Hv4).
    run_in H. rewrite E4 in H.
    assert (reader_leases s4 !! ρ = Some (BodyReaderLease.mk k false)) as M4.
    { rewrite Hr4. apply Hm3. }
    destruct (release_mine_reader ρ k s4 Hi4 M4) as (s5 & E5 & Hi5 & H5 & Hv5 & _).
    rewrite E5 in H. injection H as <- <-. split; [done|]. right. split; [done|]. exists n.
    by rewrite Hv5. }
  unfold on_error, catch in H. destruct (body s2) as [s3 r3] eqn:Ebody.
  destruct (read_loop request turns v (started + IngressLimits.body_total_timeout (limits s2))
    (Z.to_nat (IngressLimits.max_body_events (limits s2))) 0 [] s2) as [s3' r3'] eqn:Eloop.
  pose proof (read_loop_spec request turns ρ v k Hf _ _ 0 [] s2 s3' r3' Hi2 Hm2 eq_refl
    ltac:(intros i Hlt; lia) Eloop) as (Hi3 & Hl3 & Hr3).
  unfold body in Ebody. run_in Ebody. rewrite Eloop in Ebody.
  destruct r3' as [file|e].
  2: { injection Ebody as <- <-. eapply Hfail; [exact Hr3|done|]. unfold body. run. by rewrite ?Eloop. }
  destruct Hr3 as (Hm3 & n & Hn & Hfile & Hco & Hlen & Hmax).
  destruct (match IngressRequest.content_length request with Some _ => _ | None => _ end) eqn:Ecl.
  { injection Ebody as <- <-. eapply Hfail; [by eexists|done|]. unfold body. run. by rewrite ?Eloop, ?Ecl. }
  destruct ((threshold request (limits s2) <? zlen file) && negb (spool_mode =? 384)) eqn:Esp.
  { injection Ebody as <- <-. eapply Hfail; [by eexists|done|]. unfold body. run.
    by rewrite ?Eloop, ?Ecl, ?Esp. }
  unfold new_body in Ebody. run_in Ebody. injection Ebody as <- <-.
  match type of H with context [release_reader_lease ρ ?t] => set (s4 := t) in H end.
  assert (inv s4) as Hi4 by (destruct Hi3; by split).
  destruct (release_mine_reader ρ k s4 Hi4 (proj1 Hm3)) as (s5 & E5 & Hi5 & H5 & Hv5 & Hb5).
  rewrite E5 in H. injection H as <- <-. split; [done|]. split; [done|].
  exists n, file, (threshold request (limits s2) <? zlen file). rewrite <-Hl2.
  split; [lia|]. split; [done|]. split; [done|]. split; [done|]. split.
  { intros l El. rewrite El in Ecl. apply negb_false_iff, Z.eqb_eq in Ecl. done. }
  split; [done|]. split.
  { intros Et. rewrite Et in Esp. cbn in Esp. by apply negb_false_iff, Z.eqb_eq in Esp. }
  split.
  - rewrite Hb5. unfold s4. cbn. by rewrite lookup_app_r, Nat.sub_diag by lia.
  - rewrite Hv5. apply Hm3.
Qed.
End Read.

(** ** The accounting *)
Module IngressTheorems.
(** C23. From a validated configuration, whatever the tasks do and in whatever order,
    leases released twice and reservations grown after their release included: no
    operation raises (no count underflows), each limiter's count is the number of its
    leases not yet released, the reader counts and the retained bytes are, in total and
    per client key, those of the leases and reservations still held, and none of them is
    ever above its limit. *)
Theorem ingress_accounting l ops : IngressLimits.post_init l = Ok l →
  let s := foldl (λ s o, (run_op o s).1) (init l) ops in
  (∀ c, CounterLimiter.active (limiter c s) = lsum (counter_weight c) (counter_leases s) ∧
     CounterLimiter.active (limiter c s) ≤ configured c l) ∧
  body_readers s = lsum reader_weight (reader_leases s) ∧
  body_readers s ≤ IngressLimits.body_readers_global l ∧
  retained s = lsum size_weight (reservations s) ∧
  retained s ≤ IngressLimits.retained_bytes_global l ∧
  (∀ k, dget_or k 0 (body_readers_by_key s) = lsum (reader_weight_of k) (reader_leases s) ∧
     dget_or k 0 (body_readers_by_key s) ≤ IngressLimits.body_readers_per_key l ∧
     dget_or k 0 (retained_by_key s) = lsum (size_weight_of k) (reservations s) ∧
     dget_or k 0 (retained_by_key s) ≤ IngressLimits.retained_bytes_per_key l) ∧
  ∀ o, (run_op o s).2 = Ok tt.
Proof.
  intros Hl s. destruct (foldl_ops_kept ops (init l) (ingress_inv_init l Hl)) as [Hi Hlim].
  fold s in Hi, Hlim. cbn in Hlim.
  pose proof Hi as [_ _ Ha Hc Hr Hrle (_ & R1 & _) Hrk Hb Hble (_ & R2 & _) Hbk _].
  rewrite Hlim in *.
  split; [done|]. do 4 (split; [done|]). split.
  - intros k. rewrite R1, R2. by split_and!.
  - intros o. apply (run_op_kept o s Hi).
Qed.

(** C22. Reading a body, while other tasks do anything but release or grow what the read
    holds: the body stored is, byte for byte, what the messages up to and including the
    first final one carried, all of them requests, at most as many as the event limit; it
    is within the size limit, equals the declared length where one was declared, is the
    size of its reservation, and is spooled exactly when above the threshold, to a file of
    mode 600. On any other end, a cancellation included, either no reader was free and
    nothing changed, or the reservation and the reader are given back; the reader is given
    back on success too. The accounting holds afterwards. *)
Theorem body_read_exactly request started turns spool_mode k s s' r :
  let reader := length (reader_leases s) in let reservation := length (reservations s) in
  inv s → (∀ b, b ∈ bodies s → (RetainedBody.reservation b < reservation)%nat) →
  (∀ n o, o ∈ Turn.others (turns n) → foreign reader reservation o) →
  read_retained_body request started turns spool_mode k s = (s', r) →
  inv s' ∧
  match r with
  | Ok b => reader_leases s' !! reader = Some (BodyReaderLease.mk k true) ∧
      stored request turns spool_mode reservation k b s s'
  | Err e => (e = IngressError 429 "body_reader_limit" ∧ s' = s) ∨
      (reader_leases s' !! reader = Some (BodyReaderLease.mk k true) ∧
       ∃ n, reservations s' !! reservation = Some (BodyReservation.mk k n true))
  end.
Proof. intros reader reservation. apply read_spec. Qed.
End IngressTheorems.

(** ** Witnesses *)
Module IngressSamples.
Definition request : IngressRequest :=
  IngressRequest.mk (CertifiedEndpoint.mk "chat" "POST" "/v1/chat/completions" "json.model"
    "json.metadata" [] "x-litellm-model-id" true) [] (Some 3) (text_bytes "application/json") false.
(** Two messages; another task takes and returns a reader in between. *)
Definition turns (n : nat) : Turn.t :=
  match n with
  | O => Turn.mk 0 [TryReader "other"] (Message "http.request" (Some (text_bytes "{}")) true) None
  | _ => Turn.mk 10 [ReleaseReader 1] (Message "http.request" (Some (text_bytes "!")) false) None
  end.
Definition start : IngressResources := init IngressLimits.DEFAULT.
End IngressSamples.

Lemma ingress_accounting_witness :
  let s := foldl (λ s o, (run_op o s).1) IngressSamples.start
    [TryReader "k"; NewReservation "k"; Grow 0 5; ReleaseReader 0; ReleaseReader 0; Grow 0 6] in
  retained s = lsum size_weight (reservations s) ∧ retained s = 11.
Proof.
  split; [|by vm_compute].
  apply (IngressTheorems.ingress_accounting IngressLimits.DEFAULT
    [TryReader "k"; NewReservation "k"; Grow 0 5; ReleaseReader 0; ReleaseReader 0; Grow 0 6]).
  by vm_compute.
Defined.

Lemma body_read_exactly_witness :
  let e := read_retained_body IngressSamples.request 0 IngressSamples.turns 0x180 "k"
    IngressSamples.start in
  e.2 = Ok 0%nat ∧ stored IngressSamples.request IngressSamples.turns 0x180 0 "k" 0
    IngressSamples.start e.1.
Proof.
  intros e. split; [by vm_compute|].
  destruct (IngressTheorems.body_read_exactly IngressSamples.request 0 IngressSamples.turns 0x180 "k"
    IngressSamples.start e.1 (Ok 0%nat)) as (_ & _ & H).
  - apply ingress_inv_init. by vm_compute.
  - by intros b ?%elem_of_nil.
  - intros [|n] o ->%list_elem_of_singleton; cbn; [done|lia].
  - by vm_compute.
  - exact H.
Defined.
