(* ===== verification/IngressRequests.v ===== *)
(** * What a validated request is

    A request that [validate_http_request] accepts has one canonical target and one
    unambiguous framing, within the limits; a request it refuses is refused with an
    [IngressError], but for one way out. *)
From S2P Require Export Ingress.
From S2P Require Import ModelFacts.
From Stdlib Require Import Ascii.
#[local] Open Scope Z_scope.

Lemma find_filter {A} (f : A → bool) l : List.find f l = head (List.filter f l).
Proof. induction l as [|x l IH]; cbn; [done|]. by destruct (f x). Qed.

(** ** The scan of the headers *)
Definition named (name : bytes) (h : header) : bool := bool_decide (h.1 = name).
Definition occurrences (name : bytes) (l : list header) : Z := zlen (List.filter (named name) l).

(** What a header counts for. *)
Definition header_bytes (h : header) : Z := zlen (bytes_lower h.1) + zlen h.2 + 4.
Fixpoint all_header_bytes (l : list header) : Z :=
  match l with [] => 0 | h :: l => header_bytes h + all_header_bytes l end.

(** What the loop has established about the headers it took. *)
Record scanned (limits : IngressLimits) (raw : list header) (s : HeaderScan.t) : Prop := {
  sc_result : HeaderScan.result s = (λ h, (bytes_lower h.1, h.2)) <$> raw;
  sc_limits : ∀ h, h ∈ raw → is_header_name h.1 = true ∧
    zlen h.1 ≤ IngressLimits.max_header_name_bytes limits ∧
    zlen h.2 ≤ IngressLimits.max_header_value_bytes limits ∧
    ∀ c, c ∈ h.2 → unsafe_value_char c = false;
  sc_total : HeaderScan.total s = all_header_bytes raw;
  sc_total_le : HeaderScan.total s ≤ Z.max 0 (IngressLimits.max_header_bytes limits);
  sc_counts : ∀ name, dget_or name 0 (HeaderScan.counts s) = occurrences name (HeaderScan.result s);
}.

Lemma all_header_bytes_snoc l h : all_header_bytes (l ++ [h]) = all_header_bytes l + header_bytes h.
Proof. induction l as [|y l IH]; cbn -[header_bytes]; [lia|]. rewrite IH. lia. Qed.

Lemma occurrences_snoc name l h :
  occurrences name (l ++ [h]) = occurrences name l + (if named name h then 1 else 0).
Proof.
  unfold occurrences, zlen. rewrite List.filter_app, length_app. cbn.
  destruct (named name h); cbn; lia.
Qed.

Lemma scan_header_Ok limits raw s item s' : scanned limits raw s →
  scan_header limits s item = Ok s' → ∃ h, item = Some h ∧ scanned limits (raw ++ [h]) s'.
Proof.
  intros [H1 H2 H3 H4 H5] H. destruct item as [[name value]|]; [|done]. cbn [scan_header] in H.
  exists (name, value). split; [done|].
  apply bind_Ok in H as ([] & G1 & H). apply bind_Ok in H as ([] & G2 & H).
  apply raise_if_Ok in G1, G2. injection H as <-. bprop in G1. bprop in G2.
  destruct G1 as [[[[_ L1] L2] L3] L4]. split; cbn.
  - by rewrite H1, fmap_app.
  - intros h [Hh| ->%list_elem_of_singleton]%elem_of_app; [by apply H2|]. cbn.
    split_and!; try done. intros c Hc. rewrite existsb_false in L4. by apply L4.
  - by rewrite all_header_bytes_snoc, <-H3.
  - lia.
  - intros n. rewrite occurrences_snoc. unfold dget_or. rewrite dget_dset. unfold named. cbn.
    case_decide as E.
    + subst n. rewrite bool_decide_true by done. cbn. fold (dget_or (bytes_lower name) 0 (HeaderScan.counts s)).
      by rewrite H5.
    + rewrite bool_decide_false by congruence. fold (dget_or n 0 (HeaderScan.counts s)).
      rewrite H5. lia.
Qed.

Lemma scan_Ok limits items : ∀ raw s s', scanned limits raw s →
  fold_result (scan_header limits) s items = Ok s' →
  ∃ raw', items = Some <$> raw' ∧ scanned limits (raw ++ raw') s'.
Proof.
  induction items as [|item items IH]; intros raw s s' Hs H; cbn in H.
  - injection H as <-. exists []. by rewrite app_nil_r.
  - apply bind_Ok in H as (s1 & H1 & H). destruct (scan_header_Ok _ _ _ _ _ Hs H1) as (h & -> & Hs1).
    destruct (IH _ _ _ Hs1 H) as (raw' & -> & Hs'). exists (h :: raw'). split; [done|].
    by rewrite <-app_assoc in Hs'.
Qed.

Lemma headers_Ok scope limits hs : headers_of scope limits = Ok hs →
  ∃ raw s, Scope.headers scope = Some (Some <$> raw) ∧ scanned limits raw s ∧
    hs = HeaderScan.result s ∧ zlen raw ≤ IngressLimits.max_header_count limits ∧
    ∀ name, name ∈ SINGLETON_HEADERS → occurrences name hs ≤ 1.
Proof.
  unfold headers_of. destruct (Scope.headers scope) as [items|]; [|done]. intros H.
  apply bind_Ok in H as ([] & G1 & H). apply bind_Ok in H as (s & Hs & H).
  apply bind_Ok in H as ([] & G2 & H). injection H as <-. apply raise_if_Ok in G1, G2.
  apply (scan_Ok limits items []) in Hs as (raw & -> & Hs).
  2: { split; try done; try (cbn; lia). by intros h ?%elem_of_nil. }
  cbn [app] in Hs. exists raw, s. bprop in G1. unfold zlen in G1. rewrite length_fmap in G1.
  split_and!; try done.
  intros name Hn. rewrite existsb_false in G2. specialize (G2 name Hn). bprop in G2.
  by rewrite (sc_counts _ _ _ Hs) in G2.
Qed.

(** ** One header *)
Lemma one_header_None hs name : one_header hs name = None ↔
  List.filter (named (text_bytes name)) hs = [].
Proof.
  unfold one_header. rewrite find_filter. fold (named (text_bytes name)).
  by destruct (List.filter _ hs).
Qed.

Lemma one_header_Some hs name v : occurrences (text_bytes name) hs ≤ 1 →
  one_header hs name = Some v ↔
  List.filter (named (text_bytes name)) hs = [(text_bytes name, v)].
Proof.
  intros Ho. unfold one_header. rewrite find_filter. fold (named (text_bytes name)).
  unfold occurrences, zlen in Ho.
  assert (∀ h, In h (List.filter (named (text_bytes name)) hs) → h.1 = text_bytes name) as Hall.
  { intros h [_ Hh]%filter_In. unfold named in Hh. by bprop in Hh. }
  destruct (List.filter _ hs) as [|[n w] [|]]; cbn in *; [done| |lia].
  specialize (Hall (n, w) ltac:(by left)). cbn in Hall. subst. split; [by intros [= ->]|by intros [= ->]].
Qed.

Lemma singleton_is name : bool_decide (text_bytes name ∈ SINGLETON_HEADERS) = true →
  text_bytes name ∈ SINGLETON_HEADERS.
Proof. apply bool_decide_eq_true_1. Qed.

(** ** Errors *)
Definition ingress_errors {A} (m : result A) : Prop :=
  match m with Ok _ => True | Err (IngressError _ _) => True | Err _ => False end.

Lemma ingress_errors_bind {A B} (m : result A) (f : A → result B) :
  ingress_errors m → (∀ a, m = Ok a → ingress_errors (f a)) → ingress_errors (m ≫= f).
Proof. destruct m; intros Hm Hf; [by apply Hf|exact Hm]. Qed.

Lemma ingress_errors_raise b st code : ingress_errors (raise_if b (IngressError st code)).
Proof. by destruct b. Qed.

Ltac ingress_errors := repeat first
  [ progress intros
  | apply ingress_errors_raise
  | apply ingress_errors_bind
  | match goal with
    | |- ingress_errors (mret _) => exact I
    | |- ingress_errors (Ok _) => exact I
    | |- ingress_errors (Err (IngressError _ _)) => exact I
    | |- ingress_errors (if ?b then _ else _) => destruct b
    | |- ingress_errors (match ?x with _ => _ end) => destruct x
    end ].

Lemma scan_errors limits items : ∀ s, ingress_errors (fold_result (scan_header limits) s items).
Proof.
  induction items as [|x l IH]; intros s; cbn; [exact I|].
  apply ingress_errors_bind; [|intros; apply IH]. unfold scan_header. ingress_errors.
Qed.

Lemma headers_errors scope limits : ingress_errors (headers_of scope limits).
Proof. unfold headers_of. ingress_errors. apply scan_errors. Qed.

Lemma framing_errors hs limits :
  (∀ v, one_header hs "content-length" = Some v → zlen v ≤ MAX_INT_DIGITS) →
  ingress_errors (check_framing hs limits).
Proof.
  intros Hv. unfold check_framing.
  assert (∀ v, zlen v ≤ MAX_INT_DIGITS → ingress_errors (int_of_digits v)) as Hint.
  { intros v Hle. unfold int_of_digits. by rewrite raise_if_pass by by apply Z.ltb_ge. }
  destruct (one_header hs "content-length") as [v|]; [specialize (Hint v (Hv v eq_refl)); destruct (int_of_digits v) as [n|[]]; try done|];
    ingress_errors; done.
Qed.

Lemma framing_long hs limits e : check_framing hs limits = Err e →
  ingress_errors (Err (A := unit) e) ∨
  e = ValueError "Exceeds the limit (4300 digits) for integer string conversion".
Proof.
  destruct (one_header hs "content-length") as [v|] eqn:Ev.
  - destruct (Z.ltb_spec MAX_INT_DIGITS (zlen v)) as [Hlt|Hle].
    + intros H. unfold check_framing in H. rewrite Ev in H.
      destruct (bool_decide _ && _); [injection H as <-; by left|]. cbn [raise_if mbind result_bind] in H.
      destruct (negb (is_digits v)); [injection H as <-; by left|]. cbn [raise_if mbind result_bind] in H.
      unfold int_of_digits in H. unfold zlen in Hlt. rewrite (proj2 (Z.ltb_lt _ _) Hlt) in H.
      injection H as <-. by right.
    + intros H. left. pose proof (framing_errors hs limits) as Hf. rewrite H in Hf. apply Hf.
      intros v'. rewrite Ev. by intros [= <-].
  - intros H. left. pose proof (framing_errors hs limits) as Hf. rewrite H in Hf. apply Hf.
    intros v'. by rewrite Ev.
Qed.

(** ** What is accepted *)

(** Every value a header has. *)
Definition values_of (name : string) (hs : list header) : list bytes :=
  (List.filter (named (text_bytes name)) hs).*2.

Lemma values_None hs name : one_header hs name = None → values_of name hs = [].
Proof. intros H%one_header_None. unfold values_of. by rewrite H. Qed.

Lemma values_Some hs name v : occurrences (text_bytes name) hs ≤ 1 →
  one_header hs name = Some v → values_of name hs = [v].
Proof. intros Ho H%one_header_Some; [|done]. unfold values_of. by rewrite H. Qed.

Record canonical_target (scope : Scope) (limits : IngressLimits) (method path : string) : Prop := {
  ct_type : Scope.type scope = Some "http";
  ct_method : Scope.method scope = Some method;
  ct_path : Scope.path scope = Some path;
  ct_raw : Scope.raw_path scope = Some (text_bytes path);
  ct_query : Scope.query_string scope = Some [];
  ct_plain : ∀ c, c ∈ text_bytes path → byte_value c < 128 ∧ c ≠ "%"%char;
  ct_length : zlen (text_bytes path) ≤ IngressLimits.max_target_bytes limits;
}.

(** The one framing of a body: no length, one length, or chunks. *)
Definition framed (limits : IngressLimits) (hs : list header) (length : option Z) (chunked : bool) :
    Prop :=
  match values_of "content-length" hs, values_of "transfer-encoding" hs with
  | [], [] => length = None ∧ chunked = false
  | [v], [] => is_digits v = true ∧ length = Some (digits_value v) ∧
      digits_value v ≤ IngressLimits.max_body_bytes limits ∧ chunked = false
  | [], [v] => bytes_lower v = text_bytes "chunked" ∧ length = None ∧ chunked = true
  | _, _ => False
  end.

Lemma target_Ok scope limits method path : Scope.type scope = Some "http" →
  check_target scope limits = Ok (method, path) → canonical_target scope limits method path.
Proof.
  intros Ht H. unfold check_target in H.
  destruct (Scope.method scope) as [m|] eqn:Em; [|done].
  destruct (Scope.path scope) as [p|] eqn:Ep; [|done].
  destruct (Scope.raw_path scope) as [rp|] eqn:Er; [|done].
  destruct (Scope.query_string scope) as [q|] eqn:Eq; [|done]. cbn [mbind result_bind] in H.
  apply bind_Ok in H as ([] & G1 & H). apply bind_Ok in H as ([] & G2 & H).
  apply bind_Ok in H as ([] & G3 & H). injection H as <- <-.
  apply raise_if_Ok in G1, G2, G3. bprop in G3. destruct G3 as [[G3 G4] ->]. subst rp.
  bprop in G1. apply negb_false_iff in G2. unfold is_ascii in G2. rewrite forallb_forall in G2.
  rewrite existsb_false in G4. cbn in G1. split; try done.
  - intros c Hc. split.
    + specialize (G2 c). rewrite <-list_elem_of_In in G2. by apply Z.ltb_lt, G2.
    + intros ->. specialize (G4 _ Hc). by rewrite Ascii.eqb_refl in G4.
  - lia.
Qed.

Lemma framing_Ok limits hs length chunked :
  (∀ name, name ∈ SINGLETON_HEADERS → occurrences name hs ≤ 1) →
  check_framing hs limits = Ok (length, chunked) → framed limits hs length chunked.
Proof.
  intros Hs H. unfold check_framing in H. unfold framed.
  assert (occurrences (text_bytes "content-length") hs ≤ 1) as Ho1 by (apply Hs, singleton_is; by vm_compute).
  assert (occurrences (text_bytes "transfer-encoding") hs ≤ 1) as Ho2 by (apply Hs, singleton_is; by vm_compute).
  destruct (one_header hs "content-length") as [v|] eqn:E1;
    destruct (one_header hs "transfer-encoding") as [w|] eqn:E2; try done;
    [rewrite (values_Some _ _ _ Ho1 E1), (values_None _ _ E2)
    |rewrite (values_None _ _ E1), (values_Some _ _ _ Ho2 E2)
    |rewrite (values_None _ _ E1), (values_None _ _ E2)]; cbn -[int_of_digits is_digits] in H.
  - apply bind_Ok in H as (l & H1 & H). injection H as <- <-.
    apply bind_Ok in H1 as ([] & G1 & H1). apply bind_Ok in H1 as (n & Hn & H1).
    apply bind_Ok in H1 as ([] & G2 & H1). injection H1 as <-. apply raise_if_Ok in G1, G2.
    unfold int_of_digits in Hn. apply bind_Ok in Hn as (_ & _ & Hn). injection Hn as <-.
    bprop in G1. bprop in G2. split_and!; done || lia.
  - apply bind_Ok in H as ([] & G1 & H). apply raise_if_Ok in G1. injection H as <- <-.
    by bprop in G1.
  - by injection H as <- <-.
Qed.

Lemma hop_Ok hs : check_hop_headers hs = Ok tt →
  values_of "upgrade" hs = [] ∧ values_of "expect" hs = [] ∧ values_of "proxy-authorization" hs = [].
Proof.
  unfold check_hop_headers. intros H. apply bind_Ok in H as ([] & G1 & H).
  apply bind_Ok in H as ([] & G2 & H). apply raise_if_Ok in G1, G2, H.
  apply orb_false_iff in G1 as [G1 _].
  assert (∀ name, bool_decide (is_Some (one_header hs name)) = false → values_of name hs = []) as Hn.
  { intros name Hb. apply values_None. bprop in Hb. by apply eq_None_not_Some. }
  by split_and!; apply Hn.
Qed.

Lemma find_endpoint_Ok contract path method e : find_endpoint contract path method = Ok e →
  e ∈ AdapterContract.endpoints contract ∧ CertifiedEndpoint.path e = path ∧
  CertifiedEndpoint.method e = method.
Proof.
  unfold find_endpoint. destruct (List.find _ _) as [e'|] eqn:E; [|by destruct (bool_decide _)].
  intros [= <-]. apply List.find_some in E as [Hin E]. rewrite list_elem_of_In. bprop in E. tauto.
Qed.

(** What [headers] says of the request, in the limits. *)
Definition headers_within (scope : Scope) (limits : IngressLimits) (hs : list header) : Prop :=
  ∃ raw, Scope.headers scope = Some (Some <$> raw) ∧
    hs = (λ h, (bytes_lower h.1, h.2)) <$> raw ∧
    zlen raw ≤ IngressLimits.max_header_count limits ∧
    all_header_bytes raw ≤ Z.max 0 (IngressLimits.max_header_bytes limits) ∧
    (∀ h, h ∈ raw → is_header_name h.1 = true ∧
      zlen h.1 ≤ IngressLimits.max_header_name_bytes limits ∧
      zlen h.2 ≤ IngressLimits.max_header_value_bytes limits ∧
      ∀ c, c ∈ h.2 → unsafe_value_char c = false) ∧
    ∀ name, name ∈ SINGLETON_HEADERS → occurrences name hs ≤ 1.

Lemma headers_within_Ok scope limits hs : headers_of scope limits = Ok hs →
  headers_within scope limits hs.
Proof.
  intros (raw & s & H1 & [H2 H3 H4 H5 _] & -> & H6 & H7)%headers_Ok. exists raw.
  rewrite H2 in *. rewrite H4 in H5. by split_and!.
Qed.

Lemma bind_errors {A B} (m : result A) (f : A → result B) e : m ≫= f = Err e →
  m = Err e ∨ ∃ a, m = Ok a ∧ f a = Err e.
Proof. destruct m; cbn; [right; eauto|]. intros [= ->]. by left. Qed.

Module RequestTheorems.
(** C21. A request passes validation only as an HTTP request whose target is one
    ASCII path without an escape or a query, that the certified contract has an
    endpoint for under that very path and method; whose headers are, lowered, those of
    the scope, within every limit on count, size and characters, none of the singleton
    ones twice; with a single framing (no length, one decimal length within the limit, or
    chunks, never two of them), no upgrade, expectation or proxy authorization, and a
    content type that fits where the endpoint keeps its model. A request that does not
    pass raises an [IngressError], with one way out: a length of more than 4300 digits,
    which [int] refuses. *)
Theorem request_validation_exact scope contract limits :
  match validate_http_request scope contract limits with
  | Ok r =>
      let e := IngressRequest.endpoint r in let hs := IngressRequest.headers r in
      let media := media_type (IngressRequest.content_type r) in
      canonical_target scope limits (CertifiedEndpoint.method e) (CertifiedEndpoint.path e) ∧
      e ∈ AdapterContract.endpoints contract ∧
      headers_within scope limits hs ∧
      framed limits hs (IngressRequest.content_length r) (IngressRequest.chunked r) ∧
      values_of "upgrade" hs = [] ∧ values_of "expect" hs = [] ∧
      values_of "proxy-authorization" hs = [] ∧
      match values_of "content-type" hs with
      | [] => IngressRequest.content_type r = [] | [v] => IngressRequest.content_type r = v
      | _ => False end ∧
      (CertifiedEndpoint.model_locator e = "json.model" →
       media = text_bytes "application/json" ∨ ends_with (text_bytes "+json") media = true) ∧
      (CertifiedEndpoint.model_locator e = "multipart.model" →
       media = text_bytes "multipart/form-data")
  | Err e => (∃ status code, e = IngressError status code) ∨
      e = ValueError "Exceeds the limit (4300 digits) for integer string conversion"
  end.
Proof.
  destruct (validate_http_request scope contract limits) as [r|x] eqn:H;
    unfold validate_http_request in H.
  - apply bind_Ok in H as ([] & G1 & H). apply raise_if_Ok in G1. bprop in G1.
    apply bind_Ok in H as ([method path] & Ht & H). apply bind_Ok in H as (hs & Hh & H).
    apply bind_Ok in H as ([] & Hhop & H). apply bind_Ok in H as ([l c] & Hf & H).
    apply bind_Ok in H as ([] & _ & H). apply bind_Ok in H as (e & He & H).
    apply bind_Ok in H as ([] & Hc & H). injection H as <-. cbv zeta.
    cbn [IngressRequest.endpoint IngressRequest.headers IngressRequest.content_type
      IngressRequest.content_length IngressRequest.chunked].
    apply find_endpoint_Ok in He as (He & <- & <-). apply headers_within_Ok in Hh.
    assert (∀ name, name ∈ SINGLETON_HEADERS → occurrences name hs ≤ 1) as Hs
      by (by destruct Hh as (? & ? & ? & ? & ? & ? & ?)).
    destruct (hop_Ok hs Hhop) as (U1 & U2 & U3). unfold check_content_type in Hc.
    apply bind_Ok in Hc as ([] & _ & Hc). apply bind_Ok in Hc as ([] & C1 & C2).
    apply raise_if_Ok in C1, C2.
    split; [by apply target_Ok|]. split; [done|]. split; [done|]. split; [by apply framing_Ok|].
    do 3 (split; [done|]). split; [|split].
    + destruct (one_header hs "content-type") as [v|] eqn:Ev.
      * rewrite (values_Some _ _ v); [by destruct v|apply Hs, singleton_is; by vm_compute|done].
      * by rewrite (values_None _ _ Ev).
    + intros El. rewrite bool_decide_true in C1 by done. cbn [andb] in C1.
      apply negb_false_iff, orb_true_iff in C1 as [C1|C1]; [left; by bprop in C1|by right].
    + intros El. rewrite bool_decide_true in C2 by done. cbn [andb] in C2.
      apply negb_false_iff in C2. by bprop in C2.
  - assert (ingress_errors (Err (A := unit) x) →
      (∃ status code, x = IngressError status code) ∨
      x = ValueError "Exceeds the limit (4300 digits) for integer string conversion") as Hx
      by (destruct x; try done; intros _; left; by eexists _, _).
    assert (∀ A (m : result A), m = Err x → ingress_errors m → ingress_errors (Err (A := unit) x))
      as Hm by (intros A m ->; done).
    apply bind_errors in H as [H|([] & _ & H)]; [apply Hx, (Hm _ _ H), ingress_errors_raise|].
    apply bind_errors in H as [H|([method path] & _ & H)].
    { apply Hx, (Hm _ _ H). unfold check_target. ingress_errors. }
    apply bind_errors in H as [H|(hs & _ & H)]; [apply Hx, (Hm _ _ H), headers_errors|].
    apply bind_errors in H as [H|([] & _ & H)].
    { apply Hx, (Hm _ _ H). unfold check_hop_headers. ingress_errors. }
    apply bind_errors in H as [H|([l c] & _ & H)].
    { destruct (framing_long _ _ _ H) as [H'|H']; [by apply Hx|by right]. }
    apply bind_errors in H as [H|([] & _ & H)].
    { apply Hx, (Hm _ _ H). unfold check_content_encoding. ingress_errors. }
    apply bind_errors in H as [H|(e & _ & H)].
    { apply Hx, (Hm _ _ H). unfold find_endpoint. ingress_errors. }
    apply bind_errors in H as [H|([] & _ & H)]; [|done].
    apply Hx, (Hm _ _ H). unfold check_content_type. ingress_errors.
Qed.
End RequestTheorems.

(** ** A long length *)
Module RequestSamples.
Definition post (digits : nat) : Scope :=
  Scope.mk (Some "http") (Some "POST") (Some "/v1/chat/completions")
    (Some (text_bytes "/v1/chat/completions")) (Some [])
    (Some [Some (text_bytes "Content-Length", replicate digits "1"%char);
           Some (text_bytes "Content-Type", text_bytes "application/json; charset=utf-8")]).
(** The certified endpoints are all of the contract that validation looks at. *)
Definition contract (c : AdapterContract) : AdapterContract :=
  AdapterContract.mk (AdapterContract.contract_id c) (AdapterContract.litellm c)
    (AdapterContract.guard c) (AdapterContract.inference c) (AdapterContract.discovery_key c)
    (AdapterContract.discovery c) (AdapterContract.known_litellm_params c)
    (AdapterContract.known_execution_fields c)
    [CertifiedEndpoint.mk "chat" "POST" "/v1/chat/completions" "json.model" "json.metadata" []
       "x-litellm-model-id" true]
    (AdapterContract.denial_probes c).

Example short_length c : IngressRequest.content_length <$>
    (match validate_http_request (post 3) (contract c) IngressLimits.DEFAULT with
     | Ok r => Some r | Err _ => None end) = Some (Some 111).
Proof. by vm_compute. Qed.

(** The value fits in the header limits, and the error is not an [IngressError]. *)
Example long_length c : validate_http_request (post 4301) (contract c) IngressLimits.DEFAULT =
  Err (ValueError "Exceeds the limit (4300 digits) for integer string conversion").
Proof. by vm_compute. Qed.
End RequestSamples.
