(* ===== verification/PyJson.v ===== *)
(** * Python's [json] and UTF-8

    What the program uses of [bytes.decode], [json.loads] and [json.dumps]: the
    strict UTF-8 decoder, the recursive descent of the scanner with the program's
    [object_pairs_hook] and [parse_constant] as arguments, and the writer without
    ASCII escapes and spaces.  [float(text)] is the parameter [parse_float]. *)
From S2P Require Export Canonical.
From Stdlib Require Import Ascii.
#[local] Open Scope Z_scope.

(** ** UTF-8 *)
Definition continuation (z : Z) : bool := (0x80 <=? z) && (z <=? 0xBF).

(** Overlong forms, surrogates and code points above the last are refused. *)
Fixpoint decode_units (l : list Z) : option ustr :=
  match l with
  | [] => Some []
  | a :: l =>
      if a <? 0x80 then cons a <$> decode_units l
      else match l with
      | [] => None
      | b :: l =>
          if negb (continuation b) || (a <? 0xC2) then None
          else if a <? 0xE0 then cons ((a - 0xC0) * 64 + (b - 0x80)) <$> decode_units l
          else match l with
          | [] => None
          | c :: l =>
              if negb (continuation c) then None
              else if a <? 0xF0 then
                let v := (a - 0xE0) * 4096 + (b - 0x80) * 64 + (c - 0x80) in
                if (v <? 0x800) || is_surrogate v then None else cons v <$> decode_units l
              else match l with
              | [] => None
              | d :: l =>
                  let v := (a - 0xF0) * 262144 + (b - 0x80) * 4096 + (c - 0x80) * 64 +
                           (d - 0x80) in
                  if negb (continuation d) || (v <? 0x10000) || (0x110000 <=? v) then None
                  else cons v <$> decode_units l
              end
          end
      end
  end.
(** [b.decode("utf-8")]; [None] is a [UnicodeDecodeError]. *)
Definition decode_utf8 (b : bytes) : option ustr := decode_units (byte_value <$> b).

(** ** Reading *)
Section Loads.
Context (parse_float : ustr → float).
Context (object_pairs_hook : list (ustr * Json) → result (dict ustr Json)).
Context (parse_constant : result Json).

Definition json_space (c : Z) : bool := (c =? 32) || (c =? 9) || (c =? 10) || (c =? 13).
Fixpoint skip_space (s : ustr) : ustr :=
  match s with
  | c :: s' => if json_space c then skip_space s' else s
  | [] => []
  end.

(** What follows the character [c], when it comes first. *)
Definition starts (c : Z) (s : ustr) : option ustr :=
  match s with x :: r => if x =? c then Some r else None | [] => None end.

Definition hex_value (c : Z) : option Z :=
  if (48 <=? c) && (c <=? 57) then Some (c - 48)
  else if (65 <=? c) && (c <=? 70) then Some (c - 55)
  else if (97 <=? c) && (c <=? 102) then Some (c - 87)
  else None.
Definition hex4 (a b c d : Z) : result Z :=
  match hex_value a, hex_value b, hex_value c, hex_value d with
  | Some a, Some b, Some c, Some d => Ok (a * 4096 + b * 256 + c * 16 + d)
  | _, _, _, _ => Err JSONDecodeError
  end.
Definition unescape (c : Z) : option Z :=
  if c =? 34 then Some 34 else if c =? 92 then Some 92 else if c =? 47 then Some 47
  else if c =? 98 then Some 8 else if c =? 102 then Some 12 else if c =? 110 then Some 10
  else if c =? 114 then Some 13 else if c =? 116 then Some 9 else None.

Definition push (c : Z) (r : result (ustr * ustr)) : result (ustr * ustr) :=
  '(s, rest) ← r; mret (c :: s, rest).

(** [scanstring], after the opening quote: the string and what follows it. *)
Fixpoint scan_string (s : ustr) : result (ustr * ustr) :=
  match s with
  | [] => Err JSONDecodeError
  | c :: s =>
      if c =? 34 then Ok ([], s)
      else if c =? 92 then
        match s with
        | e :: s =>
            if e =? 117 then
              match s with
              | h1 :: h2 :: h3 :: h4 :: s =>
                  u ← hex4 h1 h2 h3 h4;
                  match s with
                  | b :: e :: l1 :: l2 :: l3 :: l4 :: s' =>
                      if (0xD800 <=? u) && (u <=? 0xDBFF) && (b =? 92) && (e =? 117) then
                        v ← hex4 l1 l2 l3 l4;
                        if (0xDC00 <=? v) && (v <=? 0xDFFF)
                        then push (0x10000 + (u - 0xD800) * 1024 + (v - 0xDC00)) (scan_string s')
                        else push u (scan_string s)
                      else push u (scan_string s)
                  | _ => push u (scan_string s)
                  end
              | _ => Err JSONDecodeError
              end
            else match unescape e with
                 | Some u => push u (scan_string s)
                 | None => Err JSONDecodeError
                 end
        | [] => Err JSONDecodeError
        end
      else if c <? 32 then Err JSONDecodeError
      else push c (scan_string s)
  end.

Definition digit (c : Z) : bool := (48 <=? c) && (c <=? 57).
(** The digits at the front. *)
Fixpoint span_digits (s : ustr) : ustr * ustr :=
  match s with
  | c :: s' => if digit c then let '(ds, r) := span_digits s' in (c :: ds, r) else ([], s)
  | [] => ([], [])
  end.
(** The fraction: a point and digits, or nothing. *)
Definition scan_frac (s : ustr) : ustr * ustr :=
  match starts 46 s with
  | Some s' => match span_digits s' with ([], _) => ([], s) | (ds, r) => (46 :: ds, r) end
  | None => ([], s)
  end.
(** The exponent, with its sign, or nothing. *)
Definition scan_exp (s : ustr) : ustr * ustr :=
  match s with
  | e :: s' =>
      if (e =? 101) || (e =? 69) then
        let '(sign, s'') := match s' with
                            | c :: r => if (c =? 43) || (c =? 45) then ([c], r) else ([], s')
                            | [] => ([], s')
                            end in
        match span_digits s'' with
        | ([], _) => ([], s)
        | (ds, r) => (e :: sign ++ ds, r)
        end
      else ([], s)
  | [] => ([], s)
  end.
(** The digits of an integer, a zero alone or none in front. *)
Definition scan_natural (s : ustr) : option (ustr * ustr) :=
  match s with
  | c :: r =>
      if c =? 48 then Some ([48], r) else if digit c then Some (span_digits s) else None
  | [] => None
  end.
(** The integer: the sign, the digits. *)
Definition scan_int (s : ustr) : option (ustr * ustr * ustr) :=
  match starts 45 s with
  | Some r => (λ p : ustr * ustr, ([45], p.1, p.2)) <$> scan_natural r
  | None => (λ p : ustr * ustr, ([], p.1, p.2)) <$> scan_natural s
  end.
Definition ustr_value (ds : ustr) : Z := foldl (λ n c, 10 * n + (c - 48)) 0 ds.
(** [int(text)]: at most 4300 digits. *)
Definition MAX_STR_DIGITS : Z := 4300.
Definition parse_int (sign ds : ustr) : result Json :=
  raise_if (MAX_STR_DIGITS <? zlen ds)
    (ValueError "Exceeds the limit (4300 digits) for integer string conversion");;
  mret (JInt (if bool_decide (sign = []) then ustr_value ds else - ustr_value ds)).
Definition scan_number (s : ustr) : result (Json * ustr) :=
  match scan_int s with
  | None => Err JSONDecodeError
  | Some (sign, ds, r) =>
      let '(frac, r) := scan_frac r in
      let '(exp, r) := scan_exp r in
      match frac, exp with
      | [], [] => v ← parse_int sign ds; mret (v, r)
      | _, _ => mret (JFloat (parse_float (sign ++ ds ++ frac ++ exp)), r)
      end
  end.

(** [s.startswith(text)], and what follows. *)
Fixpoint after (text s : ustr) : option ustr :=
  match text, s with
  | [], _ => Some s
  | t :: text, c :: s => if t =? c then after text s else None
  | _ :: _, [] => None
  end.

(** What follows [NaN], [Infinity] or [-Infinity]. *)
Definition constant (s : ustr) : option ustr :=
  match after (ascii_text "NaN") s with
  | Some r => Some r
  | None => match after (ascii_text "Infinity") s with
            | Some r => Some r | None => after (ascii_text "-Infinity") s end
  end.

(** [scan_once]: a value at the front; [scan_items] and [scan_members] are the
    loops of [JSONArray] and [JSONObject]. *)
Fixpoint scan_value (fuel : nat) (s : ustr) : result (Json * ustr) :=
  match fuel with
  | O => Err JSONDecodeError
  | S fuel =>
      match s with
      | [] => Err JSONDecodeError
      | c :: r =>
          if c =? 34 then '(t, r) ← scan_string r; mret (JStr t, r)
          else if c =? 123 then
            match starts 125 (skip_space r) with
            | Some r => d ← object_pairs_hook []; mret (JObj d, r)
            | None =>
                '(l, r) ← scan_members fuel (skip_space r);
                d ← object_pairs_hook l; mret (JObj d, r)
            end
          else if c =? 91 then
            match starts 93 (skip_space r) with
            | Some r => mret (JArr [], r)
            | None => '(l, r) ← scan_items fuel (skip_space r); mret (JArr l, r)
            end
          else match after (ascii_text "null") s with
          | Some r => mret (JNull, r)
          | None => match after (ascii_text "true") s with
          | Some r => mret (JBool true, r)
          | None => match after (ascii_text "false") s with
          | Some r => mret (JBool false, r)
          | None => match scan_int s with
          | Some _ => scan_number s
          | None => match constant s with
          | Some r => v ← parse_constant; mret (v, r)
          | None => Err JSONDecodeError
          end end end end end
      end
  end
with scan_items (fuel : nat) (s : ustr) : result (list Json * ustr) :=
  match fuel with
  | O => Err JSONDecodeError
  | S fuel =>
      '(v, r) ← scan_value fuel s;
      match starts 93 (skip_space r), starts 44 (skip_space r) with
      | Some r, _ => mret ([v], r)
      | None, Some r => '(l, r) ← scan_items fuel (skip_space r); mret (v :: l, r)
      | None, None => Err JSONDecodeError
      end
  end
with scan_members (fuel : nat) (s : ustr) : result (list (ustr * Json) * ustr) :=
  match fuel with
  | O => Err JSONDecodeError
  | S fuel =>
      match starts 34 s with
      | None => Err JSONDecodeError
      | Some r =>
          '(k, r) ← scan_string r;
          match starts 58 (skip_space r) with
          | None => Err JSONDecodeError
          | Some r =>
              '(v, r) ← scan_value fuel (skip_space r);
              match starts 125 (skip_space r), starts 44 (skip_space r) with
              | Some r, _ => mret ([(k, v)], r)
              | None, Some r => '(l, r) ← scan_members fuel (skip_space r); mret ((k, v) :: l, r)
              | None, None => Err JSONDecodeError
              end
          end
      end
  end.

(** [json.loads(text)]: one value, and nothing after it but space. *)
Definition loads (text : ustr) : result Json :=
  if bool_decide (is_Some (starts 0xFEFF text)) then Err JSONDecodeError
  else
    '(v, r) ← scan_value (S (length text)) (skip_space text);
    match skip_space r with [] => mret v | _ => Err JSONDecodeError end.
End Loads.

(** ** Writing *)

(** [float.__repr__] *)
Definition repr_digits (ds : list Z) : ustr := Z.add 48 <$> ds.
Definition repr_exponent (e : Z) : ustr :=
  if e =? 0 then []
  else ascii_text (if e <? 0 then "e-" else "e+") ++
       (if Z.abs e <? 10 then [48] else []) ++ repr_digits (decimal (Z.abs e)).
Definition repr_float (f : float) : ustr :=
  match f with
  | Finite negative r =>
      (if negative then [45] else []) ++ repr_digits (FloatRepr.whole r) ++
      match FloatRepr.frac r with [] => [] | ds => 46 :: repr_digits ds end ++
      repr_exponent (FloatRepr.exponent r)
  | NonFinite NaN => ascii_text "NaN"
  | NonFinite (Infinity negative) => (if negative then [45] else []) ++ ascii_text "Infinity"
  end.
Definition dumps_int (z : Z) : ustr := (if z <? 0 then [45] else []) ++ repr_digits (decimal (Z.abs z)).

Fixpoint comma (parts : list ustr) : ustr :=
  match parts with
  | [] => []
  | [p] => p
  | p :: parts => p ++ 44 :: comma parts
  end.
(** [json.dumps(value, ensure_ascii=False, separators=(",", ":"))] *)
Fixpoint dumps (value : Json) : ustr :=
  match value with
  | JNull => ascii_text "null"
  | JBool b => ascii_text (if b then "true" else "false")
  | JStr s => dumps_str s
  | JInt z => dumps_int z
  | JFloat f => repr_float f
  | JArr l => 91 :: comma (List.map dumps l) ++ [93]
  | JObj d => 123 :: comma (List.map (λ p : ustr * Json, let (k, v) := p in
                dumps_str k ++ 58 :: dumps v) d) ++ [125]
  end.
