(* ===== verification/PyJsonFacts.v ===== *)
(** * What is written is read back

    [decode_utf8] inverts [encode_utf8], and [loads] reads what [dumps] writes, for
    values of finite floats whose [repr] [float] reads back. *)
From S2P Require Export PyJson CanonicalProps.
From S2P Require Import ModelFacts.
From Stdlib Require Import Ascii.
#[local] Open Scope Z_scope.

(** ** UTF-8 *)
Lemma decode_utf8_char c l : char_ok c → is_surrogate c = false →
  decode_units (utf8_char c ++ l) = cons c <$> decode_units l.
Proof.
  unfold char_ok, utf8_char, is_surrogate. intros Hc Hs.
  assert (∀ x y, 0 ≤ y → 0x80 ≤ 0x80 + x mod 64 ≤ 0xBF) as Hm by (intros; Z.div_mod_to_equations; lia).
  assert (∀ x, continuation (0x80 + x mod 64) = true) as Hcont.
  { intros x. unfold continuation. specialize (Hm x 0 ltac:(lia)). bprop. lia. }
  destruct (Z.ltb_spec c 0x80); [|destruct (Z.ltb_spec c 0x800);
    [|destruct (Z.ltb_spec c 0x10000)]]; cbn [app decode_units].
  - by rewrite (proj2 (Z.ltb_lt _ _)).
  - rewrite Hcont. assert (2 ≤ c / 64 < 32) by (Z.div_mod_to_equations; lia).
    rewrite !(proj2 (Z.ltb_ge _ _)), (proj2 (Z.ltb_lt (0xC0 + c / 64) 0xE0)) by lia. cbn [negb orb].
    f_equal. f_equal. pose proof (Z.div_mod c 64). lia.
  - rewrite !Hcont. assert (0 ≤ c / 4096 < 16) by (Z.div_mod_to_equations; lia).
    rewrite !(proj2 (Z.ltb_ge _ _)) by lia. rewrite (proj2 (Z.ltb_lt (0xE0 + c / 4096) 0xF0)) by lia.
    cbn [negb orb].
    replace ((0xE0 + c / 4096 - 0xE0) * 4096 + (0x80 + c / 64 mod 64 - 0x80) * 64 + (0x80 + c mod 64 - 0x80))
      with c by (Z.div_mod_to_equations; lia).
    unfold is_surrogate. by rewrite Hs, (proj2 (Z.ltb_ge c 0x800)) by lia.
  - rewrite !Hcont. assert (0 ≤ c / 262144 < 5) by (Z.div_mod_to_equations; lia).
    rewrite !(proj2 (Z.ltb_ge _ _)) by lia. cbn [negb orb].
    replace ((0xF0 + c / 262144 - 0xF0) * 262144 + (0x80 + c / 4096 mod 64 - 0x80) * 4096 +
      (0x80 + c / 64 mod 64 - 0x80) * 64 + (0x80 + c mod 64 - 0x80))
      with c by (Z.div_mod_to_equations; lia).
    rewrite (proj2 (Z.ltb_ge c 0x10000)), (proj2 (Z.leb_gt _ _)) by lia. done.
Qed.

Lemma decode_units_encode s : text_ok s → encodable s = true →
  decode_units (s ≫= utf8_char) = Some s.
Proof.
  rewrite encodable_Forall. intros Hs He. induction s as [|c s IH]; [done|].
  apply Forall_cons in Hs as [Hc Hs]. apply Forall_cons in He as [Hn He]. cbn.
  rewrite decode_utf8_char by done. by rewrite IH.
Qed.

Lemma decode_encode_utf8 s b : text_ok s → encode_utf8 s = Ok b → decode_utf8 b = Some s.
Proof.
  intros Hs H. unfold encode_utf8 in H. apply bind_Ok in H as ([] & G & H). injection H as <-.
  apply raise_if_Ok in G. apply negb_false_iff in G. unfold decode_utf8.
  rewrite <-(decode_units_encode s Hs G). f_equal.
  assert (Forall (λ z, 0 ≤ z < 256) (s ≫= utf8_char)) as Hb.
  { clear G. induction Hs as [|c s Hc Hs IH]; cbn; [constructor|].
    apply Forall_app. split; [by apply utf8_char_bytes|done]. }
  generalize dependent (s ≫= utf8_char). intros l Hl. rewrite <-list_fmap_compose.
  induction Hl as [|z l Hz Hl IH]; [done|]. cbn. by rewrite IH, KeyMaterialFacts.byte_value_of.
Qed.

(** ** Strings *)
Lemma scan_hex c h1 h2 h3 h4 s : hex4 h1 h2 h3 h4 = Ok c → c < 0xD800 →
  scan_string (92 :: 117 :: h1 :: h2 :: h3 :: h4 :: s) = push c (scan_string s).
Proof.
  intros H Hlt. cbn [scan_string]. cbn [Z.eqb Pos.eqb]. rewrite H. cbn [mbind result_bind].
  rewrite (proj2 (Z.leb_gt _ _) Hlt). cbn [andb]. by repeat case_match.
Qed.
Lemma scan_unescape c e s : (e =? 117) = false → unescape e = Some c →
  scan_string (92 :: e :: s) = push c (scan_string s).
Proof. intros He H. cbn [scan_string]. cbn [Z.eqb Pos.eqb]. by rewrite He, H. Qed.

Lemma escaped_scan c s : c ∈ escaped → scan_string (escape c ++ s) = push c (scan_string s).
Proof.
  intros He. change escaped with (34 :: 92 :: (Z.of_nat <$> seq 0 32)) in He.
  cbn [seq fmap list_fmap Z.of_nat] in He.
  repeat (apply elem_of_cons in He as [->|He];
    [match goal with |- scan_string (escape ?c ++ _) = _ =>
       let e := eval vm_compute in (escape c) in change (escape c) with e end; cbn [app];
     first [by apply scan_unescape | apply scan_hex; [done|lia]]|]).
  by apply elem_of_nil in He.
Qed.

Lemma escape_other c : char_ok c → c ∉ escaped → escape c = [c] ∧ c ≠ 34 ∧ c ≠ 92 ∧ 32 ≤ c.
Proof.
  intros Hc He. unfold escaped in He. rewrite !not_elem_of_cons in He. destruct He as (H1 & H2 & H3).
  assert (32 <= c) as H32.
  { apply Znot_gt_le. intros Hlt. apply H3. apply list_elem_of_fmap. exists (Z.to_nat c).
    unfold char_ok in Hc. split; [lia|]. apply elem_of_seq. lia. }
  split_and!; try done. unfold escape. rewrite (proj2 (Z.ltb_ge c 32) H32).
  repeat (rewrite (proj2 (Z.eqb_neq c _)) by lia). done.
Qed.

Lemma scan_escape c s : char_ok c → scan_string (escape c ++ s) = push c (scan_string s).
Proof.
  intros Hc. destruct (decide (c ∈ escaped)) as [He|He]; [by apply escaped_scan|].
  destruct (escape_other c Hc He) as (-> & H1 & H2 & H32).
  cbn [app scan_string]. rewrite (proj2 (Z.eqb_neq _ _) H1), (proj2 (Z.eqb_neq _ _) H2).
  by rewrite (proj2 (Z.ltb_ge c 32) H32).
Qed.

Lemma scan_dumps_str s r : text_ok s → scan_string ((s ≫= escape) ++ 34 :: r) = Ok (s, r).
Proof.
  induction 1 as [|c s Hc Hs IH]; [done|]. cbn [mbind list_bind]. rewrite <-app_assoc.
  rewrite scan_escape by done. by rewrite IH.
Qed.

(** ** Numbers *)
Definition ended (r : ustr) : Prop := match r with [] => True | c :: _ => c ∈ [44; 93; 125] end.

Lemma ended_digit c r : ended (c :: r) → digit c = false ∧ c ≠ 46 ∧ c ≠ 101 ∧ c ≠ 69.
Proof.
  cbn. intros H. rewrite !elem_of_cons, elem_of_nil in H. unfold digit. bprop. lia.
Qed.

Definition no_digit (r : ustr) : Prop := match r with [] => True | c :: _ => digit c = false end.
Lemma span_digits_app ds r : Forall digit_ok ds → no_digit r →
  span_digits (repr_digits ds ++ r) = (repr_digits ds, r).
Proof.
  intros Hd Hr. induction Hd as [|d ds Hd Hds IH]; cbn.
  - destruct r as [|c r]; [done|]. cbn in *. by rewrite Hr.
  - assert (digit (48 + d) = true) as -> by (unfold digit, digit_ok in *; bprop; lia).
    unfold repr_digits in IH. by rewrite IH.
Qed.

Lemma starts_ne c x r : x ≠ c → starts c (x :: r) = None.
Proof. intros H. cbn. by rewrite (proj2 (Z.eqb_neq _ _) H). Qed.

Lemma scan_int_digits (negative : bool) ds r : Forall digit_ok ds → ds ≠ [] →
  (ds = [0] ∨ head ds ≠ Some 0) → no_digit r →
  scan_int ((if negative then [45] else []) ++ repr_digits ds ++ r) =
    Some (if negative then [45] else [], repr_digits ds, r).
Proof.
  intros Hd Hne Hz Hr. destruct ds as [|d ds]; [done|].
  assert (0 ≤ d ≤ 9) as Hd0 by (by apply Forall_cons in Hd as [? _]).
  assert (scan_natural (repr_digits (d :: ds) ++ r) = Some (repr_digits (d :: ds), r)) as E.
  { pose proof (span_digits_app (d :: ds) r Hd Hr) as Hsp.
    cbn [repr_digits fmap list_fmap app] in *. destruct Hz as [[= -> ->]|Hz]; [done|].
    cbn [scan_natural].
    assert ((48 + d =? 48) = false) as -> by (apply Z.eqb_neq; intros ?; apply Hz; cbn; f_equal; lia).
    assert (digit (48 + d) = true) as -> by (unfold digit; bprop; lia). by rewrite Hsp. }
  unfold scan_int. cbn [repr_digits fmap list_fmap app] in E |- *. destruct negative; cbn [app].
  - cbn [starts Z.eqb Pos.eqb]. by rewrite E.
  - rewrite (starts_ne 45 (48 + d)) by lia. by rewrite E.
Qed.

Lemma decimal_head n : 0 ≤ n → decimal n ≠ [] ∧ (decimal n = [0] ∨ head (decimal n) ≠ Some 0).
Proof.
  intros Hn. destruct (decimal_repr_ok n) as (_ & H1 & H2). cbn in *. rewrite Z.abs_eq in * by done.
  split; [done|]. destruct H2 as [[H2 _]|H2]; [by left|by right].
Qed.

Lemma ustr_value_digits ds : ustr_value (repr_digits ds) = int_of ds.
Proof.
  unfold ustr_value, int_of, repr_digits. generalize 0. induction ds as [|d ds IH]; intros n; cbn; [done|].
  rewrite IH. f_equal. lia.
Qed.

Lemma scan_frac_app frac t : Forall digit_ok frac → no_digit t → (∀ c, head t = Some c → c ≠ 46) →
  scan_frac (match frac with [] => [] | _ => 46 :: repr_digits frac end ++ t) =
    (match frac with [] => [] | _ => 46 :: repr_digits frac end, t).
Proof.
  intros Hd Ht Hh. unfold scan_frac. destruct frac as [|d frac]; cbn [app].
  - destruct t as [|c t]; [done|]. rewrite starts_ne by (by apply Hh). done.
  - change (starts 46 (46 :: (repr_digits (d :: frac) ++ t))) with (Some (repr_digits (d :: frac) ++ t)).
    cbv beta iota. by rewrite span_digits_app.
Qed.

Lemma scan_exp_ended r : ended r → scan_exp r = ([], r).
Proof.
  intros Hr. destruct r as [|c r]; [done|]. apply ended_digit in Hr as (_ & _ & H1 & H2).
  unfold scan_exp. by rewrite (proj2 (Z.eqb_neq _ _) H1), (proj2 (Z.eqb_neq _ _) H2).
Qed.
Lemma ended_no_digit r : ended r → no_digit r.
Proof. destruct r as [|c r]; [done|]. by intros (? & _)%ended_digit. Qed.

Lemma repr_exponent_form e : e ≠ 0 → ∃ sign ds, repr_exponent e = 101 :: sign :: repr_digits ds ∧
  (sign = 43 ∨ sign = 45) ∧ ds ≠ [] ∧ Forall digit_ok ds.
Proof.
  intros He. unfold repr_exponent. rewrite (proj2 (Z.eqb_neq _ _) He).
  pose proof (decimal_ok (Z.abs e) ltac:(lia)) as Hd.
  pose proof (decimal_head (Z.abs e) ltac:(lia)) as [Hne _].
  exists (if e <? 0 then 45 else 43), ((if Z.abs e <? 10 then [0] else []) ++ decimal (Z.abs e)).
  split; [|split; [by destruct (e <? 0); [right|left]|]].
  - unfold repr_digits. rewrite fmap_app. by destruct (e <? 0), (Z.abs e <? 10).
  - split; [by destruct (Z.abs e <? 10), (decimal (Z.abs e))|].
    destruct (Z.abs e <? 10); [|done]. constructor; [unfold digit_ok; lia|done].
Qed.

Lemma scan_exp_app e r : ended r → scan_exp (repr_exponent e ++ r) = (repr_exponent e, r).
Proof.
  intros Hr. destruct (decide (e = 0)) as [->|He]; [by apply scan_exp_ended|].
  destruct (repr_exponent_form e He) as (sign & ds & -> & Hs & Hne & Hd). cbn [app scan_exp].
  cbn [Z.eqb Pos.eqb orb]. assert ((sign =? 43) || (sign =? 45) = true) as -> by (bprop; lia).
  rewrite span_digits_app by (done || by apply ended_no_digit). by destruct ds.
Qed.

Lemma exponent_front e r : ended r →
  no_digit (repr_exponent e ++ r) ∧ ∀ c, head (repr_exponent e ++ r) = Some c → c ≠ 46.
Proof.
  intros Hr. destruct (decide (e = 0)) as [->|He].
  - cbn. split; [by apply ended_no_digit|]. destruct r as [|c r]; [done|].
    intros ? [= <-]. by apply ended_digit in Hr as (_ & ? & _).
  - destruct (repr_exponent_form e He) as (sign & ds & -> & _). cbn. split; [done|]. by intros ? [= <-].
Qed.

Lemma decimal_short ds : Forall digit_ok ds → ds ≠ [] → zlen (decimal (int_of ds)) ≤ zlen ds.
Proof.
  intros Hd Hne. pose proof (int_of_bound ds Hd) as Hb. pose proof (zlen_pos ds Hne).
  destruct (decimal_spec (int_of ds) ltac:(lia)) as (D1 & D2 & D3 & D4).
  destruct (decide (int_of ds = 0)) as [E|E]; [rewrite D4 by done; unfold zlen in *; cbn; lia|].
  pose proof (lead_bound _ D1 (D3 E)) as Hl. rewrite D2 in Hl.
  assert (zlen (decimal (int_of ds)) - 1 < zlen ds); [|lia].
  apply (Z.pow_lt_mono_r_iff 10); [lia|apply zlen_nonneg|lia].
Qed.
Lemma ustr_value_short ds : Forall (λ c, digit c = true) ds → ds ≠ [] →
  0 ≤ ustr_value ds ∧ zlen (decimal (ustr_value ds)) ≤ zlen ds.
Proof.
  intros Hd Hne. set (l := (λ c, c - 48) <$> ds).
  assert (ds = repr_digits l) as E.
  { unfold l, repr_digits. rewrite <-list_fmap_compose. clear. induction ds as [|c ds IH]; [done|].
    cbn. f_equal; [lia|done]. }
  assert (Forall digit_ok l) as Hl.
  { unfold l. apply Forall_fmap. eapply Forall_impl; [exact Hd|]. intros c Hc.
    cbv beta in Hc. unfold digit in Hc. bprop in Hc. unfold digit_ok. cbv beta delta [compose]. lia. }
  assert (l ≠ []) as Hne' by (unfold l; by destruct ds).
  rewrite E, ustr_value_digits. split; [by apply int_of_bound|].
  pose proof (decimal_short l Hl Hne') as H. unfold repr_digits, zlen in *. by rewrite length_fmap.
Qed.

Section Loads.
Context (parse_float : ustr → float).

Lemma scan_dumps_int z r : zlen (decimal (Z.abs z)) ≤ MAX_STR_DIGITS → ended r →
  is_Some (scan_int (dumps_int z ++ r)) ∧
  scan_number parse_float (dumps_int z ++ r) = Ok (JInt z, r).
Proof.
  intros Hz Hr. unfold dumps_int. rewrite <-app_assoc.
  destruct (decimal_head (Z.abs z) ltac:(lia)) as [H1 H2].
  pose proof (scan_int_digits (z <? 0) _ r (decimal_ok (Z.abs z) ltac:(lia)) H1 H2
    (ended_no_digit r Hr)) as E.
  unfold scan_number. rewrite E. split; [done|]. cbn [fmap option_fmap option_map].
  assert (scan_frac r = ([], r)) as ->.
  { destruct r as [|c r]; [done|]. unfold scan_frac. apply ended_digit in Hr as (_ & Hc & _).
    by rewrite starts_ne. }
  rewrite scan_exp_ended by done. unfold parse_int. rewrite raise_if_pass.
  - cbn [mbind result_bind]. rewrite ustr_value_digits.
    destruct (decimal_spec (Z.abs z) ltac:(lia)) as (_ & -> & _).
    destruct (Z.ltb_spec z 0); [rewrite bool_decide_false by done|rewrite bool_decide_true by done].
    + by replace (- Z.abs z) with z by lia.
    + by replace (Z.abs z) with z by lia.
  - unfold zlen in *. unfold repr_digits. rewrite length_fmap. apply Z.ltb_ge. lia.
Qed.

Lemma scan_repr_float negative f r : FloatRepr.ok f →
  (FloatRepr.frac f ≠ [] ∨ FloatRepr.exponent f ≠ 0) → ended r →
  is_Some (scan_int (repr_float (Finite negative f) ++ r)) ∧
  scan_number parse_float (repr_float (Finite negative f) ++ r) =
    Ok (JFloat (parse_float (repr_float (Finite negative f))), r).
Proof.
  intros (Hd & Hne & Hz) Hf Hr. apply Forall_app in Hd as [Hw Hfr].
  destruct (exponent_front (FloatRepr.exponent f) r Hr) as [He1 He2].
  cbn [repr_float]. set (ft := match FloatRepr.frac f with [] => [] | ds => 46 :: repr_digits ds end).
  assert (ft = match FloatRepr.frac f with [] => [] | _ => 46 :: repr_digits (FloatRepr.frac f) end)
    as Eft by (unfold ft; by destruct (FloatRepr.frac f)).
  rewrite <-!app_assoc.
  assert (no_digit (ft ++ repr_exponent (FloatRepr.exponent f) ++ r)) as Hnd.
  { rewrite Eft. by destruct (FloatRepr.frac f). }
  assert (FloatRepr.whole f = [0] ∨ head (FloatRepr.whole f) ≠ Some 0) as Hz' by tauto.
  pose proof (scan_int_digits negative _ _ Hw Hne Hz' Hnd) as E.
  unfold scan_number. rewrite E. split; [done|].
  pose proof (scan_frac_app (FloatRepr.frac f) _ Hfr He1 He2) as Ef. rewrite <-Eft in Ef. rewrite Ef.
  rewrite scan_exp_app by done.
  destruct ft as [|c ft'].
  - assert (FloatRepr.exponent f ≠ 0) as Hx by (destruct Hf as [Hf|]; [by destruct (FloatRepr.frac f)|done]).
    destruct (repr_exponent_form _ Hx) as (sign & ds & -> & _). done.
  - done.
Qed.

(** ** Values *)
Context (object_pairs_hook : list (ustr * Json) → result (dict ustr Json)).
Context (parse_constant : result Json).
Context (Hhook : ∀ d, dict_ok d → object_pairs_hook d = Ok d).
#[local] Abbreviation scan_value := (scan_value parse_float object_pairs_hook parse_constant).
#[local] Abbreviation scan_items := (scan_items parse_float object_pairs_hook parse_constant).
#[local] Abbreviation scan_members := (scan_members parse_float object_pairs_hook parse_constant).
#[local] Abbreviation loads := (loads parse_float object_pairs_hook parse_constant).

(** A value [loads] can produce: finite floats that [float] reads back, integers
    that [int] reads. *)
Fixpoint loadable (v : Json) : Prop :=
  match v with
  | JNull | JBool _ => True
  | JStr s => text_ok s
  | JInt z => zlen (decimal (Z.abs z)) ≤ MAX_STR_DIGITS
  | JFloat (Finite n f) => FloatRepr.ok f ∧ (FloatRepr.frac f ≠ [] ∨ FloatRepr.exponent f ≠ 0) ∧
      parse_float (repr_float (Finite n f)) = Finite n f
  | JFloat (NonFinite _) => False
  | JArr l => JsonFacts.all loadable l
  | JObj d => dict_ok d ∧
      JsonFacts.all (λ p : ustr * Json, let (k, v) := p in text_ok k ∧ loadable v) d
  end.

(** The fuel that reading takes. *)
Fixpoint needed (l : list nat) : nat := match l with [] => 0 | n :: l => S (Nat.max n (needed l)) end.
Fixpoint need (v : Json) : nat :=
  match v with
  | JArr l => S (needed (List.map need l))
  | JObj d => S (needed (List.map (λ p : ustr * Json, let (_, v) := p in need v) d))
  | _ => 1
  end.

Lemma number_value fuel s : is_Some (scan_int s) →
  scan_value (S fuel) s = scan_number parse_float s.
Proof.
  intros [x Hx]. destruct s as [|c r]; [done|].
  assert (c = 45 ∨ digit c = true) as Hc.
  { unfold scan_int in Hx. destruct (Z.eqb_spec c 45) as [->|Hne]; [by left|]. right.
    rewrite starts_ne in Hx by done. unfold scan_natural in Hx.
    destruct (Z.eqb_spec c 48) as [->|]; [done|]. by destruct (digit c). }
  assert (c = 45 ∨ 48 ≤ c ≤ 57) as Hc' by (unfold digit in Hc; destruct Hc; [by left|right; bprop; lia]).
  cbn [PyJson.scan_value]. rewrite (proj2 (Z.eqb_neq c 34)), (proj2 (Z.eqb_neq c 123)),
    (proj2 (Z.eqb_neq c 91)) by lia.
  assert (∀ t u, (∀ x, head t = Some x → x ≠ c) → t ≠ [] → after t (c :: u) = None) as Ha.
  { intros [|y t] u Ht Hne; [done|]. cbn. by rewrite (proj2 (Z.eqb_neq _ _) (Ht y eq_refl)). }
  rewrite !Ha, Hx; [done|..]; try done; cbn; intros ? [= <-]; unfold byte_value; cbn; lia.
Qed.

Lemma dumps_front v : loadable v → ∃ c t, dumps v = c :: t ∧ json_space c = false ∧ c ≠ 93.
Proof.
  intros Hv. assert (∀ s x y z, scan_int s = Some (x, y, z) →
    ∃ c t, s = c :: t ∧ json_space c = false ∧ c ≠ 93) as Hn.
  { intros [|c t] x y z H; [done|]. exists c, t. split; [done|]. unfold scan_int in H.
    destruct (Z.eqb_spec c 45) as [->|Hne]; [done|]. rewrite starts_ne in H by done.
    unfold scan_natural in H. destruct (Z.eqb_spec c 48) as [->|]; [done|].
    destruct (digit c) eqn:E; [|done]. unfold digit in E. unfold json_space. bprop. lia. }
  destruct v as [|[]|s|z|[n f|]|l|d]; cbn [dumps];
    try done; try (by eexists _, _).
  - destruct (scan_dumps_int z [] Hv I) as [[[[x y] w] Hx] _]. rewrite app_nil_r in Hx. by eapply Hn.
  - destruct Hv as (H1 & H2 & _). destruct (scan_repr_float n f [] H1 H2 I) as [[[[x y] w] Hx] _].
    rewrite app_nil_r in Hx. by eapply Hn.
Qed.

Lemma skip_front c t : json_space c = false → skip_space (c :: t) = c :: t.
Proof. intros H. cbn. by rewrite H. Qed.

Definition reads (v : Json) : Prop := loadable v → ∀ fuel r, (need v ≤ fuel)%nat → ended r →
  scan_value fuel (dumps v ++ r) = Ok (v, r).

Lemma scan_items_dumps l : Forall reads l → Forall loadable l → l ≠ [] →
  ∀ fuel r, (needed (List.map need l) ≤ fuel)%nat →
  scan_items fuel (comma (List.map dumps l) ++ 93 :: r) = Ok (l, r).
Proof.
  intros HP. induction HP as [|v l Hv HP IH]; intros Hl Hne fuel r Hf; [done|].
  apply Forall_cons in Hl as [Hlv Hl]. cbn [List.map needed] in Hf. destruct fuel as [|fuel]; [lia|].
  cbn [PyJson.scan_items]. destruct l as [|w l].
  - cbn [List.map comma]. rewrite (Hv Hlv) by (lia || by repeat constructor). done.
  - change (comma (List.map dumps (v :: w :: l))) with
      (dumps v ++ 44 :: comma (List.map dumps (w :: l))). rewrite <-app_assoc. cbn [app].
    rewrite (Hv Hlv) by (lia || by repeat constructor).
    cbn [mbind result_bind]. rewrite (skip_front 44) by done. cbn [starts Z.eqb Pos.eqb].
    apply Forall_cons in Hl as Hl'. destruct (dumps_front w (proj1 Hl')) as (c & t & E & Hc & _).
    assert (∃ t', comma (List.map dumps (w :: l)) ++ 93 :: r = c :: t') as [t' Et].
    { cbn [List.map comma]. rewrite E. destruct l; cbn [List.map comma app]; eauto. }
    rewrite Et, skip_front, <-Et by done. rewrite IH by (done || lia). done.
Qed.

Definition member_dumps (p : ustr * Json) : ustr := let (k, v) := p in dumps_str k ++ 58 :: dumps v.

Lemma member_front p : ∃ t, member_dumps p = 34 :: t.
Proof. destruct p as [k v]. by eexists. Qed.

Lemma scan_members_dumps d : Forall (λ p : ustr * Json, reads p.2) d →
  Forall (λ p : ustr * Json, text_ok p.1 ∧ loadable p.2) d → d ≠ [] →
  ∀ fuel r, (needed (List.map (λ p : ustr * Json, let (_, v) := p in need v) d) ≤ fuel)%nat →
  scan_members fuel (comma (List.map member_dumps d) ++ 125 :: r) = Ok (d, r).
Proof.
  intros HP. induction HP as [|[k v] d Hv HP IH]; intros Hd Hne fuel r Hf; [done|].
  apply Forall_cons in Hd as [[Hk Hlv] Hd]. cbn [List.map needed fst snd] in *.
  destruct fuel as [|fuel]; [lia|]. cbn [PyJson.scan_members].
  assert (∃ tail, comma (member_dumps (k, v) :: List.map member_dumps d) ++ 125 :: r =
      34 :: (k ≫= escape) ++ 34 :: 58 :: dumps v ++ tail ∧ ended tail ∧
      (tail = 125 :: r ∧ d = [] ∨
       d ≠ [] ∧ tail = 44 :: comma (List.map member_dumps d) ++ 125 :: r)) as (tail & -> & Htail & Hd').
  { destruct d as [|p d]; cbn [List.map comma member_dumps]; unfold dumps_str.
    - exists (125 :: r). split_and!; [|by repeat constructor|by left].
      rewrite <-!app_assoc. done.
    - eexists. split_and!; [|shelve|right; split; [done|reflexivity]].
      repeat rewrite <-?app_assoc, <-?app_comm_cons. done.
      Unshelve. by repeat constructor. }
  cbn [starts Z.eqb Pos.eqb]. rewrite scan_dumps_str by done. cbn [mbind result_bind].
  rewrite (skip_front 58) by done. cbn [starts Z.eqb Pos.eqb].
  destruct (dumps_front v Hlv) as (c & t & E & Hc & _).
  rewrite E, <-app_comm_cons, skip_front, app_comm_cons, <-E by done.
  rewrite (Hv Hlv) by (done || lia). cbn [mbind result_bind].
  destruct Hd' as [[-> ->]|[Hne' ->]]; [done|].
  rewrite (skip_front 44) by done. cbn [starts Z.eqb Pos.eqb].
  assert (∃ t', comma (List.map member_dumps d) ++ 125 :: r = 34 :: t') as [t' Et].
  { destruct d as [|p [|p' d]]; [done|..]; cbn [List.map comma];
      destruct (member_front p) as [u ->]; cbn [app]; eauto. }
  rewrite Et, skip_front, <-Et by done. rewrite IH by (done || lia). done.
Qed.

Lemma scan_dumps v : reads v.
Proof.
  induction v as [|b|s|z|f|l IH|d IH] using JsonFacts.json_ind'; intros Hv fuel r Hf Hr;
    (destruct fuel as [|fuel]; [cbn in Hf; lia|]).
  - done.
  - by destruct b.
  - cbn [dumps dumps_str app PyJson.scan_value Z.eqb Pos.eqb]. unfold dumps_str.
    rewrite <-!app_assoc. cbn [app Z.eqb Pos.eqb]. by rewrite scan_dumps_str.
  - destruct (scan_dumps_int z r Hv Hr) as [H1 H2]. cbn [dumps]. by rewrite number_value.
  - destruct f as [n f|]; [|done]. destruct Hv as (H1 & H2 & H3).
    destruct (scan_repr_float n f r H1 H2 Hr) as [H4 H5]. cbn [dumps].
    rewrite number_value by done. by rewrite H5, H3.
  - apply JsonFacts.all_Forall in Hv. cbn [dumps app PyJson.scan_value Z.eqb Pos.eqb].
    destruct l as [|v l]; [done|]. rewrite <-app_assoc. cbn [app need] in *.
    pose proof Hv as Hv'. apply Forall_cons in Hv' as [Hv' _].
    destruct (dumps_front v Hv') as (c & t & E & Hc & Hc').
    assert (∃ t', comma (List.map dumps (v :: l)) ++ 93 :: r = c :: t') as [t' Et].
    { cbn [List.map comma]. rewrite E. destruct l; cbn [List.map comma app]; eauto. }
    rewrite Et, skip_front, starts_ne, <-Et by done.
    by rewrite scan_items_dumps by (done || lia).
  - destruct Hv as [Hd Hv]. apply JsonFacts.all_Forall in Hv.
    change (dumps (JObj d)) with (123 :: comma (List.map member_dumps d) ++ [125]).
    cbn [app PyJson.scan_value Z.eqb Pos.eqb]. destruct d as [|p d].
    { cbn. by rewrite Hhook. }
    rewrite <-app_assoc. cbn [app need] in *.
    assert (∃ t', comma (List.map member_dumps (p :: d)) ++ 125 :: r = 34 :: t') as [t' Et].
    { destruct (member_front p) as [u E]. cbn [List.map comma]. rewrite E.
      destruct d; cbn [List.map comma app]; eauto. }
    rewrite Et, skip_front, starts_ne, <-Et by done.
    rewrite scan_members_dumps; [|done|..|done|lia].
    + cbn [mbind result_bind]. by rewrite Hhook.
    + eapply Forall_impl; [exact Hv|]. by intros [].
Qed.

(** ** The fuel of [loads] *)
Lemma needed_comma l : Forall (λ v, (need v ≤ length (dumps v))%nat) l →
  (needed (List.map need l) ≤ S (length (comma (List.map dumps l))))%nat.
Proof.
  induction 1 as [|v l Hv Hl IH]; [cbn; lia|]. cbn [List.map needed].
  destruct l as [|w l]; [cbn in *; lia|].
  change (comma (dumps v :: List.map dumps (w :: l))) with
    (dumps v ++ 44 :: comma (List.map dumps (w :: l))).
  rewrite length_app. cbn [length]. lia.
Qed.
Lemma needed_members d : Forall (λ p : ustr * Json, (need p.2 ≤ length (dumps p.2))%nat) d →
  (needed (List.map (λ p : ustr * Json, let (_, v) := p in need v) d) ≤
    S (length (comma (List.map member_dumps d))))%nat.
Proof.
  induction 1 as [|[k v] d Hv Hd IH]; [cbn; lia|]. cbn [List.map needed fst snd] in *.
  assert (need v ≤ length (member_dumps (k, v)))%nat as Hm.
  { cbn [member_dumps]. rewrite length_app. cbn [length]. lia. }
  destruct d as [|p d]; [cbn [List.map needed comma] in *; lia|].
  change (comma (member_dumps (k, v) :: List.map member_dumps (p :: d))) with
    (member_dumps (k, v) ++ 44 :: comma (List.map member_dumps (p :: d))).
  rewrite length_app. cbn [length]. lia.
Qed.
Lemma need_dumps v : loadable v → (need v ≤ length (dumps v))%nat.
Proof.
  induction v as [|b|s|z|f|l IH|d IH] using JsonFacts.json_ind'; intros Hv.
  1-5: destruct (dumps_front _ Hv) as (c & t & -> & _); cbn; lia.
  - cbn [need dumps length]. rewrite length_app. cbn [length]. cbn [loadable] in Hv.
    rewrite JsonFacts.all_Forall in Hv.
    pose proof (needed_comma l) as H. assert (needed (List.map need l) ≤
      S (length (comma (List.map dumps l))))%nat; [|lia]. apply H.
    rewrite Forall_forall in *. intros v Hin. by apply IH, Hv.
  - change (dumps (JObj d)) with (123 :: comma (List.map member_dumps d) ++ [125]).
    cbn [need length]. rewrite length_app. cbn [length]. destruct Hv as [_ Hv].
    rewrite JsonFacts.all_Forall in Hv.
    pose proof (needed_members d) as H. assert (needed (List.map (λ p : ustr * Json, let (_, v) := p in need v) d) ≤
      S (length (comma (List.map member_dumps d))))%nat; [|lia]. apply H.
    rewrite Forall_forall in *. intros [k v] Hin. apply IH; [done|]. by apply (Hv (k, v)).
Qed.

Lemma loads_dumps d : loadable (JObj d) → loads (dumps (JObj d)) = Ok (JObj d).
Proof.
  intros Hd. unfold PyJson.loads. pose proof (need_dumps _ Hd) as Hn.
  pose proof (scan_dumps (JObj d) Hd (S (length (dumps (JObj d)))) [] ltac:(lia) I) as H.
  rewrite app_nil_r in H. change (dumps (JObj d)) with (123 :: comma (List.map member_dumps d) ++ [125]) in *.
  rewrite (starts_ne 0xFEFF), skip_front by done. by rewrite H.
Qed.

(** ** What is read is well formed *)
Context (Hfloat : ∀ t n f, parse_float t = Finite n f → FloatRepr.ok f ∧
  (FloatRepr.frac f ≠ [] ∨ FloatRepr.exponent f ≠ 0) ∧
  parse_float (repr_float (Finite n f)) = Finite n f).
Context (Hpairs : ∀ l d, object_pairs_hook l = Ok d → d = l ∧ dict_ok d).
Context (Hconstant : ∀ v, parse_constant ≠ Ok v).

(** Every float of the value is finite. *)
Fixpoint finite (v : Json) : Prop :=
  match v with
  | JFloat (NonFinite _) => False
  | JArr l => JsonFacts.all finite l
  | JObj d => JsonFacts.all (λ p : ustr * Json, let (_, v) := p in finite v) d
  | _ => True
  end.
(** [loadable], but for floats beyond the range. *)
Definition readable (v : Json) : Prop := finite v → loadable v.

Lemma readable_arr l : Forall readable l → readable (JArr l).
Proof.
  intros Hl Hf. cbn in *. rewrite JsonFacts.all_Forall in *. rewrite Forall_forall in *.
  intros v Hv. by apply Hl, Hf.
Qed.
Lemma readable_obj d : dict_ok d → Forall (λ p : ustr * Json, text_ok p.1 ∧ readable p.2) d →
  readable (JObj d).
Proof.
  intros Hd Hl Hf. split; [done|]. cbn in Hf. rewrite JsonFacts.all_Forall in *.
  rewrite Forall_forall in *. intros [k v] Hv. destruct (Hl _ Hv) as [H1 H2]. split; [done|].
  apply H2. by apply (Hf (k, v)).
Qed.

Lemma hex4_range a b c d u : hex4 a b c d = Ok u → 0 ≤ u < 65536.
Proof.
  assert (∀ x y, hex_value x = Some y → 0 ≤ y < 16) as Hx.
  { intros x y. unfold hex_value. repeat case_match; intros [= <-]; bprop; lia. }
  unfold hex4. destruct (hex_value a) eqn:E1, (hex_value b) eqn:E2, (hex_value c) eqn:E3,
    (hex_value d) eqn:E4; intros [= <-].
  apply Hx in E1, E2, E3, E4. lia.
Qed.

Lemma push_Ok c m t r : push c m = Ok (t, r) → ∃ t', m = Ok (t', r) ∧ t = c :: t'.
Proof. unfold push. intros ([t' r'] & -> & [= <- <-])%bind_Ok. eauto. Qed.

Lemma scan_string_ok n : ∀ s t r, (length s ≤ n)%nat → text_ok s →
  scan_string s = Ok (t, r) → text_ok t ∧ text_ok r.
Proof.
  induction n as [|n IH]; intros [|c s] t r Hn Hs H; try done; [cbn in Hn; lia|].
  assert (∀ c' s', char_ok c' → (length s' ≤ n)%nat → text_ok s' → push c' (scan_string s') = Ok (t, r) →
    text_ok t ∧ text_ok r) as Hp.
  { intros c' s' Hc Hl Hs' (t' & Ht & ->)%push_Ok. destruct (IH _ _ _ Hl Hs' Ht). split; [|done].
    by apply Forall_cons. }
  cbn [length] in Hn. apply Forall_cons in Hs as [Hc Hs]. cbn [scan_string] in H.
  destruct (c =? 34); [injection H as <- <-; by split; [constructor|]|].
  destruct (c =? 92); [|destruct (c <? 32); [done|by apply (Hp c s); [| lia|..]]].
  destruct s as [|e s]; [done|]. cbn [length] in Hn. apply Forall_cons in Hs as [_ Hs].
  destruct (e =? 117).
  - destruct s as [|h1 [|h2 [|h3 [|h4 s]]]]; try done. cbn [length] in Hn.
    repeat (apply Forall_cons in Hs as [_ Hs]). apply bind_Ok in H as (u & Hu & H).
    apply hex4_range in Hu.
    assert (char_ok u) as Hcu by (unfold char_ok; lia).
    assert (push u (scan_string s) = Ok (t, r) → text_ok t ∧ text_ok r) as Hps by (apply Hp; [done|lia|done]).
    destruct s as [|b [|e' [|l1 [|l2 [|l3 [|l4 s']]]]]]; try (by apply Hps).
    destruct (_ && _ && _ && _) eqn:E; [|by apply Hps].
    apply bind_Ok in H as (v & Hv & H).
    destruct ((0xDC00 <=? v) && (v <=? 0xDFFF)) eqn:E2; [|by apply Hps].
    cbn [length] in Hn. repeat (apply Forall_cons in Hs as [_ Hs]). bprop in E. bprop in E2.
    apply (Hp _ s') in H; [done|unfold char_ok; lia|lia|done].
  - destruct (unescape e) as [u|] eqn:E; [|done]. apply (Hp u s) in H; [done| |lia|done].
    unfold unescape in E. repeat case_match; simplify_eq; unfold char_ok; lia.
Qed.

Lemma skip_space_ok s : text_ok s → text_ok (skip_space s).
Proof.
  induction 1 as [|c s Hc Hs IH]; [constructor|]. cbn. destruct (json_space c); [done|].
  by apply Forall_cons.
Qed.
Lemma starts_ok c s r : text_ok s → starts c s = Some r → text_ok r.
Proof.
  destruct s as [|x s]; [done|]. intros [_ Hs]%Forall_cons. cbn. by destruct (x =? c); [intros [= <-]|].
Qed.
Lemma after_ok t s r : text_ok s → after t s = Some r → text_ok r.
Proof.
  revert s. induction t as [|x t IH]; intros s Hs; cbn; [by intros [= <-]|].
  destruct s as [|c s]; [done|]. apply Forall_cons in Hs as [_ Hs].
  destruct (x =? c); [by apply IH|done].
Qed.
Lemma span_digits_ok s ds r : text_ok s → span_digits s = (ds, r) →
  Forall (λ c, digit c = true) ds ∧ text_ok r.
Proof.
  revert ds. induction s as [|c s IH]; intros ds Hs H; cbn in H.
  { injection H as <- <-. by split; constructor. }
  apply Forall_cons in Hs as Hs'. destruct (digit c) eqn:Ec; [|injection H as <- <-; by split; [constructor|]].
  destruct (span_digits s) as [ds' r'] eqn:E. injection H as <- <-.
  destruct (IH ds') as [H1 H2]; [tauto|done|]. split; [by constructor|done].
Qed.

Lemma scan_natural_ok s ds r : text_ok s → scan_natural s = Some (ds, r) →
  (Forall (λ c, digit c = true) ds ∧ ds ≠ []) ∧ text_ok r.
Proof.
  destruct s as [|c u]; [done|]. intros Hu. unfold scan_natural. apply Forall_cons in Hu as Hu'.
  destruct (c =? 48); [intros [= <- <-]; split; [split; [by repeat constructor|done]|tauto]|].
  destruct (digit c) eqn:Ec; [|done]. intros [= E]. destruct (span_digits_ok _ _ _ Hu E) as [H1 H2].
  split; [split; [done|]|done]. cbn in E. rewrite Ec in E.
  destruct (span_digits u) as [a b]. cbv beta iota in E. by intros ->.
Qed.

Lemma scan_int_ok s sign ds r : text_ok s → scan_int s = Some (sign, ds, r) →
  (Forall (λ c, digit c = true) ds ∧ ds ≠ []) ∧ text_ok r.
Proof.
  intros Hs. unfold scan_int. destruct (starts 45 s) as [u|] eqn:E.
  - apply (starts_ok _ _ _ Hs) in E. destruct (scan_natural u) as [[a b]|] eqn:E2; [|done].
    intros [= <- <- <-]. by apply scan_natural_ok in E2.
  - destruct (scan_natural s) as [[a b]|] eqn:E2; [|done]. intros [= <- <- <-].
    by apply scan_natural_ok in E2.
Qed.

Lemma scan_frac_ok s f r : text_ok s → scan_frac s = (f, r) → text_ok r.
Proof.
  intros Hs. unfold scan_frac. destruct (starts 46 s) as [u|] eqn:E; [|by intros [= <- <-]].
  apply (starts_ok _ _ _ Hs) in E. destruct (span_digits u) as [[|d l] w] eqn:E2;
    intros [= <- <-]; [done|]. exact (proj2 (span_digits_ok _ _ _ E E2)).
Qed.

Lemma scan_exp_ok s x r : text_ok s → scan_exp s = (x, r) → text_ok r.
Proof.
  intros Hs. unfold scan_exp. destruct s as [|e u]; [by intros [= <- <-]|].
  apply Forall_cons in Hs as Hu. destruct Hu as [_ Hu].
  destruct (_ || _); [|by intros [= <- <-]].
  destruct (match u with [] => _ | _ => _ end) as [sg w] eqn:E.
  assert (text_ok w) as Hw.
  { destruct u as [|c u]; [by injection E as <- <-|]. apply Forall_cons in Hu as [Hc Hu].
    destruct ((c =? 43) || (c =? 45)); injection E as <- <-; [done|by apply Forall_cons]. }
  destruct (span_digits w) as [[|d l] w'] eqn:E2; intros [= <- <-]; [done|].
  exact (proj2 (span_digits_ok _ _ _ Hw E2)).
Qed.

Lemma scan_number_ok s v r : text_ok s → scan_number parse_float s = Ok (v, r) →
  readable v ∧ text_ok r.
Proof.
  intros Hs H. unfold scan_number in H. destruct (scan_int s) as [[[sign ds] r1]|] eqn:Ei; [|done].
  destruct (scan_int_ok _ _ _ _ Hs Ei) as [[Hds Hne] Hr1].
  destruct (scan_frac r1) as [frac r2] eqn:Ef. destruct (scan_exp r2) as [ex r3] eqn:Ee.
  pose proof (scan_frac_ok _ _ _ Hr1 Ef) as Hr2. pose proof (scan_exp_ok _ _ _ Hr2 Ee) as Hr3.
  assert (∀ t, mret (JFloat (parse_float t), r3) = Ok (v, r) → readable v ∧ text_ok r) as Hfl.
  { intros t [= <- <-]. split; [|done]. intros Hfin. cbn in Hfin.
    destruct (parse_float t) as [n f|] eqn:E; [|done]. by destruct (Hfloat _ _ _ E) as (? & ? & ?). }
  destruct frac as [|]; [destruct ex as [|]|]; [|by eapply Hfl..].
  apply bind_Ok in H as (x & Hx & H). injection H as <- <-. split; [|done].
  unfold parse_int in Hx. apply bind_Ok in Hx as ([] & G & Hx). injection Hx as <-.
  apply raise_if_Ok in G. bprop in G. intros _. cbn [loadable].
  destruct (ustr_value_short ds Hds Hne) as [H1 H2].
  case_bool_decide; rewrite ?Z.abs_opp, Z.abs_eq by done; lia.
Qed.

Lemma scan_ok fuel :
  (∀ s v r, text_ok s → scan_value fuel s = Ok (v, r) → readable v ∧ text_ok r) ∧
  (∀ s l r, text_ok s → scan_items fuel s = Ok (l, r) → Forall readable l ∧ text_ok r) ∧
  (∀ s l r, text_ok s → scan_members fuel s = Ok (l, r) →
     Forall (λ p : ustr * Json, text_ok p.1 ∧ readable p.2) l ∧ text_ok r).
Proof.
  induction fuel as [|fuel (IHv & IHi & IHm)]; [done|]. split_and!.
  - intros [|c s] v r Hs H; [done|]. cbn [PyJson.scan_value] in H.
    apply Forall_cons in Hs as Hs'. destruct Hs' as [_ Hs'].
    assert (text_ok (skip_space s)) as Hsk by (by apply skip_space_ok).
    destruct (c =? 34).
    { apply bind_Ok in H as ([t u] & Ht & H). injection H as <- <-.
      destruct (scan_string_ok _ _ _ _ (le_n _) Hs' Ht). split; [by intros _|done]. }
    destruct (c =? 123).
    { destruct (starts 125 (skip_space s)) as [u|] eqn:E.
      - apply bind_Ok in H as (d & Hd & H). injection H as <- <-. apply Hpairs in Hd as [-> Hd].
        split; [by apply readable_obj|]. by eapply starts_ok.
      - apply bind_Ok in H as ([l u] & Hl & H). apply bind_Ok in H as (d & Hd & H).
        injection H as <- <-. apply Hpairs in Hd as [-> Hd]. destruct (IHm _ _ _ Hsk Hl).
        split; [by apply readable_obj|done]. }
    destruct (c =? 91).
    { destruct (starts 93 (skip_space s)) as [u|] eqn:E.
      - injection H as <- <-. split; [by intros _|]. by eapply starts_ok.
      - apply bind_Ok in H as ([l u] & Hl & H). injection H as <- <-. destruct (IHi _ _ _ Hsk Hl).
        split; [by apply readable_arr|done]. }
    assert (∀ t w x, after t (c :: s) = Some w → loadable x → Ok (x, w) = Ok (v, r) →
      readable v ∧ text_ok r) as Hlit.
    { intros t w x Ha Hx [= <- <-]. split; [by intros _|exact (after_ok _ _ _ Hs Ha)]. }
    match type of H with match ?x with _ => _ end = _ => destruct x eqn:E1 end; [by apply (Hlit _ _ JNull E1 I)|].
    match type of H with match ?x with _ => _ end = _ => destruct x eqn:E2 end; [by apply (Hlit _ _ (JBool true) E2 I)|].
    match type of H with match ?x with _ => _ end = _ => destruct x eqn:E3 end; [by apply (Hlit _ _ (JBool false) E3 I)|].
    match type of H with match ?x with _ => _ end = _ => destruct x end;
      [by apply scan_number_ok in H|].
    match type of H with match ?x with _ => _ end = _ => destruct x end; [|done]. apply bind_Ok in H as (x & Hx & _).
    by apply Hconstant in Hx.
  - intros s l r Hs H. cbn [PyJson.scan_items] in H. apply bind_Ok in H as ([v u] & Hv & H).
    destruct (IHv _ _ _ Hs Hv) as [H1 H2]. apply skip_space_ok in H2.
    destruct (starts 93 (skip_space u)) as [w|] eqn:E1.
    { injection H as <- <-. split; [by constructor|by eapply starts_ok]. }
    destruct (starts 44 (skip_space u)) as [w|] eqn:E2; [|done].
    apply bind_Ok in H as ([l' w'] & Hl & H). injection H as <- <-.
    apply (starts_ok _ _ _ H2), skip_space_ok in E2. destruct (IHi _ _ _ E2 Hl).
    split; [by constructor|done].
  - intros s l r Hs H. cbn [PyJson.scan_members] in H.
    destruct (starts 34 s) as [u|] eqn:E0; [|done]. apply (starts_ok _ _ _ Hs) in E0.
    apply bind_Ok in H as ([k u1] & Hk & H).
    destruct (scan_string_ok _ _ _ _ (le_n _) E0 Hk) as [Hk1 Hk2]. apply skip_space_ok in Hk2.
    destruct (starts 58 (skip_space u1)) as [u2|] eqn:E1; [|done].
    apply (starts_ok _ _ _ Hk2), skip_space_ok in E1. apply bind_Ok in H as ([v u3] & Hv & H).
    destruct (IHv _ _ _ E1 Hv) as [H1 H2]. apply skip_space_ok in H2.
    destruct (starts 125 (skip_space u3)) as [w|] eqn:E2.
    { injection H as <- <-. split; [by repeat constructor|by eapply starts_ok]. }
    destruct (starts 44 (skip_space u3)) as [w|] eqn:E3; [|done].
    apply bind_Ok in H as ([l' w'] & Hl & H). injection H as <- <-.
    apply (starts_ok _ _ _ H2), skip_space_ok in E3. destruct (IHm _ _ _ E3 Hl).
    split; [by repeat constructor|done].
Qed.

Lemma loads_ok s v : text_ok s → loads s = Ok v → readable v.
Proof.
  intros Hs H. unfold PyJson.loads in H. destruct (bool_decide _); [done|].
  apply bind_Ok in H as ([w r] & Hw & H).
  apply (proj1 (scan_ok _)) in Hw; [|by apply skip_space_ok].
  destruct (skip_space r); [injection H as <-; tauto|done].
Qed.
End Loads.

Lemma decode_units_ok n : ∀ l s, (length l ≤ n)%nat → Forall (λ z, 0 ≤ z < 256) l →
  decode_units l = Some s → text_ok s.
Proof.
  induction n as [|n IH]; intros [|a l] s Hn Hl H; cbn in Hn; try lia;
    try (injection H as <-; constructor).
  apply Forall_cons in Hl as [Ha Hl].
  assert (∀ c l' , char_ok c → (length l' ≤ n)%nat → Forall (λ z, 0 ≤ z < 256) l' →
    cons c <$> decode_units l' = Some s → text_ok s) as Hk.
  { intros c l' Hc Hn' Hl' (s' & Hs & ->)%fmap_Some. constructor; [done|]. by apply (IH l'). }
  cbn [decode_units] in H. destruct (a <? 0x80) eqn:E0.
  { apply (Hk _ l) in H; [done| |lia|done]. unfold char_ok. lia. }
  destruct l as [|b l]; [done|]. apply Forall_cons in Hl as [Hb Hl]. cbn [length] in Hn.
  unfold continuation in H. destruct (_ || _) eqn:E1; [done|]. bprop in E1.
  destruct (a <? 0xE0) eqn:E2.
  { apply (Hk _ l) in H; [done| |lia|done]. unfold char_ok. bprop. lia. }
  destruct l as [|c l]; [done|]. apply Forall_cons in Hl as [Hc Hl]. cbn [length] in Hn.
  destruct (negb _) eqn:E3; [done|]. bprop in E3. destruct (a <? 0xF0) eqn:E4.
  { destruct (_ || _) eqn:E5; [done|]. apply orb_false_iff in E5 as [E5 _].
    apply (Hk _ l) in H; [done| |lia|done]. unfold char_ok. bprop. lia. }
  destruct l as [|d l]; [done|]. apply Forall_cons in Hl as [Hd Hl]. cbn [length] in Hn.
  destruct (_ || _ || _) eqn:E6; [done|]. bprop in E6.
  apply (Hk _ l) in H; [done| |lia|done]. unfold char_ok. lia.
Qed.

Lemma decode_utf8_ok b s : decode_utf8 b = Some s → text_ok s.
Proof.
  apply (decode_units_ok _ _ _ (le_n _)). apply Forall_fmap, Forall_forall. intros c _.
  apply KeyMaterialFacts.byte_value_range.
Qed.
