(* ===== verification/Profiler.v ===== *)
(** * Request profiling

    The JSON half of [gateway/profiler.py] and its [ProfileExecutor]: the bounds
    checked before parsing, the profile of each endpoint, the rewriting of the body
    for dispatch, and the scratch reservations around both.  A body whose parsing
    takes a worker process is a value here: what the process does to the function
    it runs (an answer, a timeout, a crash) is an argument. *)
From S2P Require Export PyJson IngressState.
From Stdlib Require Import Ascii.
#[local] Open Scope Z_scope.

Definition DEFAULT_BODY_BYTES : Z := 32 * 1024 * 1024.
Definition MAX_JSON_DEPTH : Z := 64.
Definition MAX_JSON_ELEMENTS : Z := 100000.
Definition MAX_JSON_STRING_BYTES : Z := 8 * 1024 * 1024.
Definition MAX_TOOLS : Z := 128.
Definition SCRATCH_BYTES_GLOBAL : Z := 128 * 1024 * 1024.
Definition SCRATCH_BYTES_PER_KEY : Z := 64 * 1024 * 1024.

(** [_ProfileResult] *)
Module ProfileResult.
Record t := mk {
  model_alias : ustr; endpoint : EndpointKind; modality : Modality; stream : bool;
  input_tokens_max : Z; output_tokens_max : Z; reasoning_tokens_max : Z; tools_count : Z;
  forced_tool_required : bool; response_schema_present : bool; history_turns : Z;
}.
End ProfileResult.
Abbreviation ProfileResult := ProfileResult.t.

(** [_reject] *)
Definition reject {A} (code : string) : result A := Err (ValueError code).

(** ** Bounds before parsing *)

(** [_pairs_without_duplicates] *)
Definition add_pair (result : dict ustr Json) (pair : ustr * Json) : Prelude.result (dict ustr Json) :=
  let '(key, value) := pair in
  raise_if (dmem key result) (ValueError "duplicate_json_key");;
  mret (dset key value result).
Definition pairs_without_duplicates (pairs : list (ustr * Json)) : result (dict ustr Json) :=
  fold_result add_pair [] pairs.

Definition code_of (c : ascii) : Z := byte_value c.
Definition json_whitespace (c : Z) : bool := (c =? 32) || (c =? 9) || (c =? 13) || (c =? 10).
Definition json_delimiter (c : Z) : bool :=
  json_whitespace c || (c =? 44) || (c =? 93) || (c =? 125) || (c =? 58).

(** The string loop, [scanned] bytes past its opening quote: the bytes from the
    closing quote on, or none. *)
Fixpoint prescan_string (escaped : bool) (scanned : Z) (rest : bytes) : result bytes :=
  match rest with
  | [] => mret []
  | current :: tail =>
      if (code_of current =? 34) && negb escaped then mret rest
      else
        let escaped := (code_of current =? 92) && negb escaped in
        raise_if (MAX_JSON_STRING_BYTES <? scanned + 1) (ValueError "json_string_limit");;
        prescan_string escaped (scanned + 1) tail
  end.

(** The loop over the bytes of a scalar. *)
Fixpoint prescan_scalar (rest : bytes) : bytes :=
  match rest with
  | c :: tail => if json_delimiter (code_of c) then rest else prescan_scalar tail
  | [] => []
  end.

(** [_prescan_json_limits], with [body[index:]] for the index. *)
Fixpoint prescan_loop (fuel : nat) (rest : bytes) (depth elements : Z) : result unit :=
  match rest with
  | [] => mret tt
  | byte :: tail =>
      match fuel with
      | O => Err AssertionError
      | S fuel =>
          let c := code_of byte in
          if json_whitespace c || (c =? 44) || (c =? 58) then prescan_loop fuel tail depth elements
          else
            '(rest, depth, elements) ←
              (if (c =? 123) || (c =? 91) then
                 raise_if (MAX_JSON_DEPTH <? depth + 1) (ValueError "json_depth_limit");;
                 mret (tail, depth + 1, elements + 1)
               else if (c =? 125) || (c =? 93) then mret (tail, depth - 1, elements)
               else if c =? 34 then
                 closing ← prescan_string false 0 tail;
                 mret (drop 1 closing, depth, elements + 1)
               else mret (prescan_scalar rest, depth, elements + 1));
            raise_if (MAX_JSON_ELEMENTS <? elements) (ValueError "json_element_limit");;
            prescan_loop fuel rest depth elements
      end
  end.
Definition prescan_json_limits (body : bytes) : result unit :=
  prescan_loop (length body) body 0 0.

(** ** The parsed tree *)

(** [len(value.encode("utf-8"))] *)
Definition utf8_length (s : ustr) : result Z := b ← encode_utf8 s; mret (zlen b).
Definition check_string (s : ustr) : result unit :=
  n ← utf8_length s; raise_if (MAX_JSON_STRING_BYTES <? n) (ValueError "json_string_limit").

(** The number of values in a tree: the turns of the loop. *)
Fixpoint tree_size (v : Json) : nat :=
  match v with
  | JArr l => S (list_sum (List.map tree_size l))
  | JObj d => S (list_sum (List.map (λ p : ustr * Json, let (_, v) := p in tree_size v) d))
  | _ => 1
  end.

(** The loop of [_validate_tree]; the stack grows at its front. *)
Fixpoint validate_stack (fuel : nat) (stack : list (Json * Z)) (elements : Z) : result unit :=
  match stack with
  | [] => mret tt
  | (value, depth) :: stack =>
      match fuel with
      | O => Err AssertionError
      | S fuel =>
          let elements := elements + 1 in
          raise_if (MAX_JSON_ELEMENTS <? elements) (ValueError "json_element_limit");;
          raise_if (MAX_JSON_DEPTH <? depth) (ValueError "json_depth_limit");;
          match value with
          | JStr s => check_string s;; validate_stack fuel stack elements
          | JObj d =>
              '(stack, elements) ← fold_result (λ '(stack, elements) '(key, item),
                  check_string key;;
                  raise_if (MAX_JSON_ELEMENTS <? elements + 1) (ValueError "json_element_limit");;
                  mret ((item, depth + 1) :: stack, elements + 1)) (stack, elements) d;
              validate_stack fuel stack elements
          | JArr l =>
              validate_stack fuel (rev ((λ item, (item, depth + 1)) <$> l) ++ stack) elements
          | _ => validate_stack fuel stack elements
          end
      end
  end.
Definition validate_tree (root : Json) : result unit :=
  validate_stack (tree_size root) [(root, 1)] 0.

Section Parse.
(** [float(text)] *)
Context (parse_float : ustr → float).

Definition json_loads (text : ustr) : result Json :=
  loads parse_float pairs_without_duplicates (reject "invalid_json_number") text.

(** [_parse_json] *)
Definition parse_json (body : bytes) : result (dict ustr Json) :=
  decoded ← match decode_utf8 body with Some s => Ok s | None => reject "malformed_json" end;
  value ← match json_loads decoded with
          | Err JSONDecodeError => reject "malformed_json"
          | r => r
          end;
  match value with
  | JObj d => validate_tree value;; mret d
  | _ => reject "json_object_required"
  end.

(** ** Profiles *)
Definition jfield (k : string) (data : dict ustr Json) : option Json := dget (ascii_text k) data.
(** [data.get(k)] *)
Definition jnullable (k : string) (data : dict ustr Json) : Json := default JNull (jfield k data).

(** [_positive_int] *)
Definition positive_int (value : Json) (code : string) (zero : bool) : result Z :=
  match value with
  | JInt n => if n <? (if zero then 0 else 1) then reject code else Ok n
  | _ => reject code
  end.

(** [_model] *)
Definition model (data : dict ustr Json) : result ustr :=
  match jnullable "model" data with
  | JStr s => if (1 <=? zlen s) && (zlen s <=? 160) then Ok s else reject "invalid_model"
  | _ => reject "invalid_model"
  end.

(** [_stream] *)
Definition stream_of (data : dict ustr Json) : result bool :=
  match default (JBool false) (jfield "stream" data) with
  | JBool b => Ok b
  | _ => reject "invalid_stream"
  end.

(** [_tools] *)
Definition tools_of (data : dict ustr Json) : result (Z * bool) :=
  match default (JArr []) (jfield "tools" data), default (JArr []) (jfield "functions" data) with
  | JArr tools, JArr functions =>
      let count := zlen tools + zlen functions in
      raise_if (MAX_TOOLS <? count) (ValueError "tool_limit");;
      let forced :=
        match default (jnullable "function_call" data) (jfield "tool_choice" data) with
        | JObj _ => true
        | JStr s => negb (bool_decide (s ∈ ascii_text <$> [""; "auto"; "none"]))
        | _ => false
        end in
      mret (count, forced)
  | _, _ => reject "invalid_tools"
  end.

(** [_schema] *)
Definition schema_of (data : dict ustr Json) : result bool :=
  match jnullable "response_format" data with
  | JNull => Ok false
  | JObj d => Ok (match jnullable "type" d with
                  | JStr s => bool_decide (s = ascii_text "json_schema") | _ => false end ||
                  dmem (ascii_text "json_schema") d)
  | _ => reject "invalid_response_format"
  end.

(** [_reasoning] *)
Definition reasoning_of (data : dict ustr Json) (output_tokens : Z) : result Z :=
  let default_budget :=
    match jnullable "reasoning_effort" data with JNull => 0 | _ => output_tokens end in
  match jnullable "max_reasoning_tokens" data with
  | JNull =>
      match jnullable "reasoning" data with
      | JNull => Ok default_budget
      | JObj reasoning =>
          match jnullable "max_tokens" reasoning with
          | JNull => Ok default_budget
          | nested => positive_int nested "invalid_reasoning_budget" true
          end
      | _ => reject "invalid_reasoning_budget"
      end
  | direct => positive_int direct "invalid_reasoning_budget" true
  end.

(** One part of a message's content: the modality it adds, if any. *)
Definition part_modality (part : Json) : result (option Modality) :=
  match part with
  | JObj part =>
      match jnullable "type" part with
      | JStr t =>
          if bool_decide (t = ascii_text "text") then
            match jnullable "text" part with
            | JStr _ => Ok None | _ => reject "invalid_message_content" end
          else if bool_decide (t = ascii_text "image_url") then
            match jnullable "image_url" part with
            | JStr _ | JObj _ => Ok (Some Modality.IMAGE)
            | _ => reject "invalid_message_content" end
          else if bool_decide (t = ascii_text "input_audio") then
            match jnullable "input_audio" part with
            | JObj _ => Ok (Some Modality.AUDIO_TRANSCRIPTION)
            | _ => reject "invalid_message_content" end
          else reject "unsupported_message_modality"
      | _ => reject "unsupported_message_modality"
      end
  | _ => reject "invalid_message_content"
  end.
(** A set of modalities: a list without repetition. *)
Definition set_add (m : Modality) (l : list Modality) : list Modality :=
  if bool_decide (m ∈ l) then l else l ++ [m].
Definition add_part (nontext : list Modality) (part : Json) : result (list Modality) :=
  added ← part_modality part;
  mret (match added with Some m => set_add m nontext | None => nontext end).
Definition add_message (nontext : list Modality) (message : Json) : result (list Modality) :=
  match message with
  | JObj message =>
      match jnullable "content" message with
      | JNull | JStr _ => Ok nontext
      | JArr content => fold_result add_part nontext content
      | _ => reject "invalid_message_content"
      end
  | _ => reject "invalid_messages"
  end.

(** [_chat_modality] *)
Definition chat_modality (messages : list Json) : result Modality :=
  nontext ← fold_result add_message [] messages;
  raise_if (1 <? zlen nontext) (ValueError "mixed_chat_modalities");;
  mret (default Modality.TEXT (head nontext)).

Definition is_history (message : Json) : bool :=
  match message with
  | JObj message =>
      match jnullable "role" message with
      | JStr role => bool_decide (role ∈ ascii_text <$> ["assistant"; "tool"; "function"])
      | _ => false
      end
  | _ => false
  end.

(** [EndpointKind(name)] *)
Definition endpoint_kind (name : string) : result EndpointKind :=
  match List.find (λ p : string * EndpointKind, bool_decide (p.1 = name))
    [("chat", CHAT); ("text", TEXT); ("embeddings", EMBEDDINGS); ("rerank", RERANK);
     ("audio_speech", AUDIO_SPEECH); ("audio_transcription", AUDIO_TRANSCRIPTION);
     ("image", IMAGE)] with
  | Some p => Ok p.2
  | None => Err (ValueError "is not a valid EndpointKind")
  end.

(** [_profile_json] *)
Definition profile_json (endpoint_name : string) (body : bytes) : result ProfileResult :=
  data ← parse_json body;
  alias ← model data;
  endpoint ← endpoint_kind endpoint_name;
  stream ← stream_of data;
  let result modality output_tokens reasoning_tokens tools response_schema history_turns :=
    ProfileResult.mk alias endpoint modality stream (zlen body) output_tokens reasoning_tokens
      tools.1 tools.2 response_schema history_turns in
  match endpoint with
  | CHAT =>
      match jnullable "messages" data with
      | JArr messages =>
          let selected := default (jnullable "max_tokens" data) (jfield "max_completion_tokens" data) in
          output_tokens ← positive_int selected "missing_output_budget" false;
          reasoning_tokens ← reasoning_of data output_tokens;
          tools ← tools_of data;
          response_schema ← schema_of data;
          modality ← chat_modality messages;
          mret (result modality output_tokens reasoning_tokens tools response_schema
                  (zlen (List.filter is_history messages)))
      | _ => reject "invalid_messages"
      end
  | TEXT =>
      raise_if (negb (dmem (ascii_text "prompt") data)) (ValueError "invalid_prompt");;
      output_tokens ← positive_int (jnullable "max_tokens" data) "missing_output_budget" false;
      reasoning_tokens ← reasoning_of data output_tokens;
      mret (result Modality.TEXT output_tokens reasoning_tokens (0, false) false 0)
  | EMBEDDINGS =>
      raise_if (negb (dmem (ascii_text "input") data)) (ValueError "invalid_embedding_input");;
      raise_if stream (ValueError "stream_not_supported");;
      mret (result Modality.EMBEDDING 0 0 (0, false) false 0)
  | RERANK =>
      raise_if (negb (dmem (ascii_text "query") data) ||
                match jnullable "documents" data with JArr _ => false | _ => true end)
        (ValueError "invalid_rerank_input");;
      raise_if stream (ValueError "stream_not_supported");;
      mret (result Modality.RERANK 0 0 (0, false) false 0)
  | AUDIO_SPEECH =>
      raise_if (match jnullable "input" data with JStr _ => false | _ => true end)
        (ValueError "invalid_audio_input");;
      mret (result Modality.AUDIO_SPEECH 0 0 (0, false) false 0)
  | IMAGE =>
      raise_if (match jnullable "prompt" data with JStr _ => false | _ => true end)
        (ValueError "invalid_image_input");;
      mret (result Modality.IMAGE 0 0 (0, false) false 0)
  | AUDIO_TRANSCRIPTION => reject "unsupported_json_endpoint"
  end.

(** ** Rewriting *)
Definition remove_prefix (prefix s : string) : string :=
  if String.prefix prefix s
  then String.substring (String.length prefix) (String.length s - String.length prefix) s else s.

(** [_rewrite_json] *)
Definition rewrite_json (body : bytes) (prepared : PreparedDispatch)
    (known_litellm_params : list string) : result bytes :=
  data ← parse_json body;
  let data := foldl (λ data field,
    if bool_decide (field = "model") then data else ddel (ascii_text field) data)
    data known_litellm_params in
  let data := dset (ascii_text "model") (JStr (ascii_text (PreparedDispatch.hidden_alias prepared)))
                data in
  let field := ascii_text (remove_prefix "json." (PreparedDispatch.fence_locator prepared)) in
  metadata ← match default JNull (dget field data) with
             | JNull => Ok []
             | JObj existing => Ok existing
             | _ => reject "invalid_metadata"
             end;
  guard ← match dget (ascii_text "llmmaxxing_guard") (PreparedDispatch.trusted_metadata prepared) with
          | Some guard => Ok guard | None => Err (KeyError "llmmaxxing_guard") end;
  let metadata := dset (ascii_text "llmmaxxing_guard") guard metadata in
  let data := dset field (JObj metadata) data in
  rewritten ← encode_utf8 (dumps (JObj data));
  raise_if (DEFAULT_BODY_BYTES <? zlen rewritten) (ValueError "rewritten_body_too_large");;
  mret rewritten.
End Parse.
