(* ===== verification/ProfilerFacts.v ===== *)
(** * Facts about profiling

    The hook of the program's parser keeps the pairs it is given; what is parsed can
    be written and read back; dictionaries edited by the rewriting stay so. *)
From S2P Require Export Profiler PyJsonFacts.
From S2P Require Import ModelFacts AdapterProps.
From Stdlib Require Import Ascii.
#[local] Open Scope Z_scope.

(** ** The hook *)
Lemma pairs_from l : ∀ acc d,
  fold_result add_pair acc l = Ok d → dict_ok acc → d = acc ++ l ∧ dict_ok d.
Proof.
  induction l as [|[k v] l IH]; intros acc d H Hacc; cbn in H.
  - injection H as <-. by rewrite app_nil_r.
  - apply bind_Ok in H as (acc' & H1 & H). apply bind_Ok in H1 as ([] & G & H1).
    injection H1 as <-. apply raise_if_Ok, dmem_false, dget_None in G.
    pose proof (dict_ok_dset k v acc Hacc) as Hd. rewrite dset_new in H, Hd by done.
    destruct (IH _ _ H Hd) as [-> ?]. split; [by rewrite <-app_assoc|done].
Qed.
Lemma pairs_Ok l d : pairs_without_duplicates l = Ok d → d = l ∧ dict_ok d.
Proof. intros H. by apply (pairs_from l [] d H), dict_ok_nil. Qed.

Lemma pairs_into l : ∀ acc, dict_ok (acc ++ l) →
  fold_result add_pair acc l = Ok (acc ++ l).
Proof.
  induction l as [|[k v] l IH]; intros acc Hd; cbn; [by rewrite app_nil_r|].
  assert (k ∉ dkeys acc) as Hk.
  { unfold dict_ok, dkeys in *. rewrite fmap_app in Hd. apply NoDup_app in Hd as (_ & Hd & _).
    intros Hin. apply (Hd k Hin). left. }
  rewrite (proj2 (dmem_false k acc)) by by apply dget_None. cbn [raise_if mbind result_bind].
  rewrite dset_new by done. cbn. rewrite IH by by rewrite <-app_assoc. by rewrite <-app_assoc.
Qed.
Lemma pairs_of_dict d : dict_ok d → pairs_without_duplicates d = Ok d.
Proof. intros Hd. by apply (pairs_into d []). Qed.

Lemma reject_not_Ok {A} code (a : A) : reject code ≠ Ok a.
Proof. done. Qed.

(** ** What is parsed *)
Definition float_law (parse_float : ustr → float) : Prop :=
  ∀ t n f, parse_float t = Finite n f → FloatRepr.ok f ∧
    (FloatRepr.frac f ≠ [] ∨ FloatRepr.exponent f ≠ 0) ∧
    parse_float (repr_float (Finite n f)) = Finite n f.

Section Parse.
Context (parse_float : ustr → float) (Hfloat : float_law parse_float).
#[local] Abbreviation loadable := (loadable parse_float).

Lemma parsed_loadable body d : parse_json parse_float body = Ok d →
  ∃ text, decode_utf8 body = Some text ∧ json_loads parse_float text = Ok (JObj d) ∧
    validate_tree (JObj d) = Ok tt ∧ (finite (JObj d) → loadable (JObj d)) ∧ dict_ok d.
Proof.
  intros H. unfold parse_json in H. destruct (decode_utf8 body) as [text|] eqn:Et; [|done].
  cbn [mbind result_bind] in H. apply bind_Ok in H as (v & Hv & H). exists text. split; [done|].
  assert (json_loads parse_float text = Ok v) as Hl
    by (destruct (json_loads parse_float text) as [w|[]]; done).
  destruct v as [| | | | | |d']; try done. apply bind_Ok in H as ([] & Ht & H). injection H as <-.
  split; [done|]. split; [done|]. apply decode_utf8_ok in Et. unfold json_loads in Hl.
  split.
  - exact (loads_ok parse_float _ _ Hfloat pairs_Ok (reject_not_Ok "invalid_json_number") text (JObj d') Et Hl).
  - unfold loads in Hl. destruct (bool_decide _); [done|]. apply bind_Ok in Hl as ([w r] & Hw & Hl).
    destruct (skip_space r); [|done]. injection Hl as ->. cbn [scan_value] in Hw.
    destruct (skip_space text) as [|c u]; [done|]. destruct (c =? 34).
    { by apply bind_Ok in Hw as ([? ?] & _ & [=]). }
    destruct (c =? 123).
    { destruct (starts 125 (skip_space u)).
      - apply bind_Ok in Hw as (x & Hx & Hw). injection Hw as ->. by apply pairs_Ok in Hx as [_ ?].
      - apply bind_Ok in Hw as ([? ?] & _ & Hw). apply bind_Ok in Hw as (x & Hx & Hw).
        injection Hw as ->. by apply pairs_Ok in Hx as [_ ?]. }
    destruct (c =? 91).
    { destruct (starts 93 (skip_space u)); [done|]. by apply bind_Ok in Hw as ([? ?] & _ & [=]). }
    repeat (match type of Hw with match ?x with _ => _ end = _ => destruct x; [done|] end).
    match type of Hw with match ?x with _ => _ end = _ => destruct x end.
    + unfold scan_number in Hw. destruct (scan_int _) as [[[? ?] ?]|]; [|done].
      destruct (scan_frac _) as [fr ?]. destruct (scan_exp _) as [ex ?].
      destruct fr, ex; try done. apply bind_Ok in Hw as (x & Hx & [= -> _]).
      unfold parse_int in Hx. by apply bind_Ok in Hx as (_ & _ & [=]).
    + match type of Hw with match ?x with _ => _ end = _ => destruct x end; done.
Qed.

(** ** Edits *)
Lemma loadable_obj d : loadable (JObj d) ↔
  dict_ok d ∧ Forall (λ p : ustr * Json, text_ok p.1 ∧ loadable p.2) d.
Proof.
  cbn [PyJsonFacts.loadable]. rewrite JsonFacts.all_Forall.
  split; intros [Hd H]; (split; [done|]); (eapply Forall_impl; [exact H|]); by intros [].
Qed.
Lemma finite_obj d : finite (JObj d) ↔ Forall (λ p : ustr * Json, finite p.2) d.
Proof.
  cbn [finite]. rewrite JsonFacts.all_Forall.
  split; intros H; (eapply Forall_impl; [exact H|]); by intros [].
Qed.

Lemma loadable_ddel k d : loadable (JObj d) → loadable (JObj (ddel k d)).
Proof.
  rewrite !loadable_obj. intros [Hd H]. split; [by apply dict_ok_ddel|].
  rewrite Forall_forall in *. intros p Hp%elem_of_ddel. by apply H.
Qed.
Lemma elem_of_dset (p : ustr * Json) k v d : p ∈ dset k v d → p = (k, v) ∨ p ∈ d.
Proof.
  induction d as [|[k' v'] d IH]; cbn.
  - intros ->%list_elem_of_singleton. by left.
  - destruct (decide (k = k')) as [->|Hne]; rewrite !elem_of_cons; [tauto|]. intuition.
Qed.
Lemma loadable_dset k v d : text_ok k → loadable v → loadable (JObj d) → loadable (JObj (dset k v d)).
Proof.
  intros Hk Hv. rewrite !loadable_obj. intros [Hd H]. split; [by apply dict_ok_dset|].
  rewrite Forall_forall in *. by intros p [->|Hp]%elem_of_dset; [|by apply H].
Qed.
Lemma loadable_dget k v d : loadable (JObj d) → dget k d = Some v → loadable v.
Proof.
  rewrite loadable_obj. intros [_ H] Hv%dget_elem_of. rewrite Forall_forall in H. by apply (H (k, v)).
Qed.

(** The known parameters are taken out of the body. *)
Definition strip_known (known : list string) (data : dict ustr Json) : dict ustr Json :=
  foldl (λ data field, if bool_decide (field = "model") then data else ddel (ascii_text field) data)
    data known.

Lemma strip_loadable known : ∀ data, loadable (JObj data) → loadable (JObj (strip_known known data)).
Proof.
  induction known as [|f known IH]; intros data Hd; [done|]. cbn. apply IH.
  case_bool_decide; [done|by apply loadable_ddel].
Qed.
Lemma strip_dict_ok known : ∀ data, dict_ok data → dict_ok (strip_known known data).
Proof.
  induction known as [|f known IH]; intros data Hd; [done|]. cbn. apply IH.
  case_bool_decide; [done|by apply dict_ok_ddel].
Qed.

(** The parameters a request may not set. *)
Definition reserved (known : list string) (k : ustr) : bool :=
  bool_decide (k ∈ ascii_text <$> known).

Lemma strip_dget known k : k ≠ ascii_text "model" → ∀ data, dict_ok data →
  dget k (strip_known known data) = if reserved known k then None else dget k data.
Proof.
  intros Hk. unfold reserved. induction known as [|f known IH]; intros data Hd; [done|].
  change (strip_known (f :: known) data) with (strip_known known
    (if bool_decide (f = "model") then data else ddel (ascii_text f) data)). cbn [fmap list_fmap].
  rewrite IH by (destruct (bool_decide (f = _)); [done|by apply dict_ok_ddel]).
  destruct (decide (k = ascii_text f)) as [->|Hne].
  - rewrite (bool_decide_true (ascii_text f ∈ ascii_text f :: (ascii_text <$> known)))
      by (apply elem_of_cons; by left).
    rewrite (bool_decide_false (f = "model")) by congruence.
    destruct (bool_decide _); [done|]. by apply dget_ddel_eq.
  - assert (bool_decide (k ∈ ascii_text f :: (ascii_text <$> known)) =
      bool_decide (k ∈ ascii_text <$> known)) as ->.
    { apply bool_decide_ext. rewrite elem_of_cons. tauto. }
    destruct (bool_decide (k ∈ _)); [done|].
    destruct (bool_decide _); [done|]. by apply dget_ddel_ne.
Qed.
End Parse.

(** ** What is sent upstream *)

(** The body sent: the alias, the guard's fence, and of the request's own fields
    those that are not reserved. *)
Record fenced (prepared : PreparedDispatch) (known : list string) (field : ustr)
    (data sent : dict ustr Json) : Prop := {
  fenced_model : dget (ascii_text "model") sent =
    Some (JStr (ascii_text (PreparedDispatch.hidden_alias prepared)));
  fenced_guard : ∃ metadata, dget field sent = Some (JObj metadata) ∧
    dget (ascii_text "llmmaxxing_guard") metadata =
      dget (ascii_text "llmmaxxing_guard") (PreparedDispatch.trusted_metadata prepared) ∧
    is_Some (dget (ascii_text "llmmaxxing_guard") metadata) ∧
    ∀ k, k ≠ ascii_text "llmmaxxing_guard" → dget k metadata =
      match if reserved known field then None else dget field data with
      | Some (JObj client) => dget k client | _ => None end;
  fenced_rest : ∀ k, k ≠ ascii_text "model" → k ≠ field →
    dget k sent = if reserved known k then None else dget k data;
}.

(** What the guard's metadata has to be: strings and integers that are written and
    read back. *)
Definition guard_ok (parse_float : ustr → float) (prepared : PreparedDispatch) : Prop :=
  ∀ guard, dget (ascii_text "llmmaxxing_guard") (PreparedDispatch.trusted_metadata prepared) =
    Some guard → loadable parse_float guard.

Lemma rewrite_json_sent parse_float body prepared known out : float_law parse_float →
  PreparedDispatch.fence_locator prepared = "json.metadata" →
  rewrite_json parse_float body prepared known = Ok out →
  ∃ data sent, parse_json parse_float body = Ok data ∧ encode_utf8 (dumps (JObj sent)) = Ok out ∧
    zlen out ≤ DEFAULT_BODY_BYTES ∧ fenced prepared known (ascii_text "metadata") data sent ∧
    (guard_ok parse_float prepared → finite (JObj data) → loadable parse_float (JObj sent)).
Proof.
  intros Hfloat Hloc H. unfold rewrite_json in H. apply bind_Ok in H as (data & Hp & H).
  rewrite Hloc in H. change (remove_prefix "json." "json.metadata") with "metadata" in H.
  fold (strip_known known data) in H. set (field := ascii_text "metadata") in *.
  assert (field ≠ ascii_text "model") as Hfm by (by intros ?%ascii_text_inj).
  apply bind_Ok in H as (metadata & Hm & H). apply bind_Ok in H as (guard & Hg & H).
  apply bind_Ok in H as (rewritten & Hr & H). apply bind_Ok in H as ([] & G & H).
  injection H as <-. apply raise_if_Ok in G. bprop in G.
  destruct (dget (ascii_text "llmmaxxing_guard") _) as [g|] eqn:Eg; [|done]. injection Hg as ->.
  destruct (parsed_loadable parse_float Hfloat body data Hp) as (text & _ & _ & _ & Hload & Hdok).
  rewrite dget_dset_ne in Hm by congruence.
  rewrite strip_dget in Hm by done.
  eexists data, _. split; [done|]. split; [exact Hr|]. split; [lia|]. split; [split|].
  - rewrite dget_dset_ne by done. by rewrite dget_dset_eq.
  - eexists. rewrite dget_dset_eq. split; [done|]. rewrite dget_dset_eq, Eg. split_and!; [done|done|].
    intros k Hk. rewrite dget_dset_ne by congruence.
    destruct (if reserved known field then None else dget field data) as [[]|];
      cbn in Hm; try done; injection Hm as <-; done.
  - intros k Hk1 Hk2. rewrite !dget_dset_ne by congruence. by rewrite strip_dget.
  - intros Hgo Hfin. pose proof (strip_loadable parse_float known data (Hload Hfin)) as Hs.
    apply loadable_dset; [by apply text_ok_ascii| |].
    + apply loadable_dset; [by apply text_ok_ascii|by apply Hgo|].
      destruct (if reserved known field then None else dget field data) as [v|] eqn:Ev;
        cbn in Hm; [|injection Hm as <-; apply loadable_obj; split; [apply dict_ok_nil|constructor]].
      destruct (reserved known field); [done|].
      destruct v as [| | | | | |existing]; try done; injection Hm as <-.
      * apply loadable_obj. split; [apply dict_ok_nil|constructor].
      * by apply (loadable_dget parse_float field (JObj existing) data (Hload Hfin)).
    + apply loadable_dset; [by apply text_ok_ascii|by apply text_ok_ascii|done].
Qed.

(** ** Writing gives text *)
Lemma escape_ok c : char_ok c → text_ok (escape c).
Proof.
  intros Hc. destruct (decide (c ∈ escaped)) as [He|He].
  - assert (forallb (λ c, forallb (λ d, (0 <=? d) && (d <? 0x110000)) (escape c)) escaped = true)
      as Hall by (by vm_compute).
    pose proof (escaped_all _ _ Hall He) as H. cbn beta in H. by apply JsonFacts.text_okb_sound.
  - destruct (escape_other c Hc He) as (-> & _). constructor; [done|constructor].
Qed.
Lemma dumps_str_ok s : text_ok s → text_ok (dumps_str s).
Proof.
  intros Hs. unfold dumps_str. apply Forall_app. split; [by repeat constructor|].
  apply Forall_app. split; [|by repeat constructor].
  induction Hs as [|c s Hc Hs IH]; cbn; [constructor|]. apply Forall_app. split; [by apply escape_ok|done].
Qed.
Lemma repr_digits_ok ds : Forall digit_ok ds → text_ok (repr_digits ds).
Proof.
  intros Hd. apply Forall_fmap. eapply Forall_impl; [exact Hd|]. intros d H.
  unfold digit_ok in H. unfold char_ok. cbv beta delta [compose]. lia.
Qed.
Lemma comma_ok parts : Forall text_ok parts → text_ok (comma parts).
Proof.
  induction 1 as [|p parts Hp Hps IH]; [constructor|]. destruct parts as [|q parts]; [done|].
  change (comma (p :: q :: parts)) with (p ++ 44 :: comma (q :: parts)).
  apply Forall_app. split; [done|]. by constructor.
Qed.

Lemma dumps_text parse_float v : loadable parse_float v → text_ok (dumps v).
Proof.
  induction v as [|b|s|z|f|l IH|d IH] using JsonFacts.json_ind'; intros Hv.
  - by repeat constructor.
  - destruct b; by repeat constructor.
  - by apply dumps_str_ok.
  - cbn. unfold dumps_int. apply Forall_app. split; [destruct (z <? 0); by repeat constructor|].
    apply repr_digits_ok, decimal_ok. lia.
  - destruct f as [n f|]; [|done]. destruct Hv as ((Hd & _) & _). apply Forall_app in Hd as [Hw Hf].
    cbn. repeat (apply Forall_app; split).
    + destruct n; by repeat constructor.
    + by apply repr_digits_ok.
    + pose proof (repr_digits_ok _ Hf) as H. destruct (FloatRepr.frac f); [constructor|]. by constructor.
    + destruct (decide (FloatRepr.exponent f = 0)) as [->|He]; [constructor|].
      destruct (repr_exponent_form _ He) as (sg & ds & -> & Hs & _ & Hds).
      constructor; [done|]. constructor; [unfold char_ok; lia|by apply repr_digits_ok].
  - cbn [loadable] in Hv. rewrite JsonFacts.all_Forall in Hv. cbn [dumps]. constructor; [done|].
    apply Forall_app. split; [|by repeat constructor]. apply comma_ok.
    rewrite Forall_forall in IH. rewrite Forall_forall in Hv. rewrite Forall_forall.
    intros t Ht. apply list_elem_of_In, in_map_iff in Ht as (v & <- & Hin).
    apply list_elem_of_In in Hin. by apply IH, Hv.
  - apply loadable_obj in Hv as [_ Hv]. change (dumps (JObj d)) with
      (123 :: comma (List.map member_dumps d) ++ [125]). constructor; [done|].
    apply Forall_app. split; [|by repeat constructor]. apply comma_ok.
    rewrite Forall_forall in IH. rewrite Forall_forall in Hv. rewrite Forall_forall.
    intros t Ht. apply list_elem_of_In, in_map_iff in Ht as ([k v] & <- & Hin).
    apply list_elem_of_In in Hin. destruct (Hv _ Hin) as [Hk Hl]. cbn [member_dumps fst snd] in *.
    apply Forall_app. split; [by apply dumps_str_ok|]. constructor; [done|]. by apply (IH (k, v)).
Qed.
