(* ===== verification/Multipart.v ===== *)
(** * Multipart bodies

    The multipart half of [gateway/profiler.py]: the boundary, the parts, their
    profile and their rewriting.  The two regular expressions are matched by hand:
    neither has a choice that backtracking could revise.  Then the workers and the
    executor, with its scratch ([Executor]).  A content type is ASCII,
    as ingress requires. *)
From S2P Require Export Profiler.
From Stdlib Require Import Ascii.
#[local] Open Scope Z_scope.

Definition MAX_MULTIPART_PARTS : Z := 1000.
Definition MAX_MULTIPART_PART_HEADERS : Z := 16 * 1024.

(** [_MultipartPart] *)
Module MultipartPart.
Record t := mk { header_blob : bytes; name : bytes; content : bytes }.
End MultipartPart.
Abbreviation MultipartPart := MultipartPart.t.

(** ** Bytes *)
Definition CRLF : bytes := [byte_of 13; byte_of 10].
Definition QUOTE : ascii := byte_of 34.
(** [b.startswith(p)] *)
Fixpoint starts_bytes (p b : bytes) : bool :=
  match p, b with
  | [], _ => true
  | x :: p, y :: b => Ascii.eqb x y && starts_bytes p b
  | _ :: _, [] => false
  end.
(** [p in b] *)
Fixpoint contains_bytes (p b : bytes) : bool :=
  starts_bytes p b || match b with [] => false | _ :: b => contains_bytes p b end.
(** [b.split(sep)]; [skip] bytes of a separator already seen are left. *)
Fixpoint split_bytes (sep : bytes) (skip : nat) (b : bytes) : list bytes :=
  match b with
  | [] => [[]]
  | c :: b' =>
      match skip with
      | S skip => split_bytes sep skip b'
      | O =>
          if starts_bytes sep b then [] :: split_bytes sep (length sep - 1) b'
          else match split_bytes sep 0 b' with p :: ps => (c :: p) :: ps | [] => [[c]] end
      end
  end.
(** [b.partition(sep)]; [None] where there is no separator. *)
Fixpoint partition_bytes (sep b : bytes) : option (bytes * bytes) :=
  if starts_bytes sep b then Some ([], drop (length sep) b)
  else match b with
       | [] => None
       | c :: b => (λ p : bytes * bytes, (c :: p.1, p.2)) <$> partition_bytes sep b
       end.

(** ** The regular expressions *)

(** The first match of [at_] at the start or after a semicolon. *)
Fixpoint after_semicolons {A} (at_ : bytes → option A) (b : bytes) : option A :=
  match b with
  | [] => None
  | c :: b =>
      match (if Ascii.eqb c ";" then at_ b else None) with
      | Some x => Some x
      | None => after_semicolons at_ b
      end
  end.
Definition search {A} (at_ : bytes → option A) (b : bytes) : option A :=
  match at_ b with Some x => Some x | None => after_semicolons at_ b end.

(** The longest run of [class] at the front. *)
Fixpoint run_of (class : ascii → bool) (b : bytes) : bytes * bytes :=
  match b with
  | c :: b' => if class c then let '(r, t) := run_of class b' in (c :: r, t) else ([], b)
  | [] => ([], [])
  end.

Definition boundary_char (c : ascii) : bool :=
  in_range "0" "9" c || in_range "A" "Z" c || in_range "a" "z" c ||
  bool_decide (c ∈ text_bytes "'()+_,./:=?-").
Definition quoted_boundary_char (c : ascii) : bool := boundary_char c || Ascii.eqb c " ".

(** [\s*boundary=] and the quoted or the plain value. *)
Definition boundary_at (b : bytes) : option bytes :=
  let b := strip_left str_space b in
  if starts_bytes (text_bytes "boundary=") b then
    let v := drop 9 b in
    let quoted :=
      match v with
      | q :: v =>
          if Ascii.eqb q QUOTE then
            let '(r, t) := run_of quoted_boundary_char v in
            if (1 <=? zlen r) && (zlen r <=? 70) &&
               match t with q :: _ => Ascii.eqb q QUOTE | [] => false end
            then Some r else None
          else None
      | [] => None
      end in
    match quoted with
    | Some r => Some r
    | None =>
        let r := take 70 (run_of boundary_char v).1 in
        if bool_decide (r = []) then None else Some r
    end
  else None.

(** [_multipart_boundary] *)
Definition multipart_boundary (content_type : bytes) : result bytes :=
  match search boundary_at content_type with
  | Some value => Ok value
  | None => reject "multipart_boundary_missing"
  end.

(** The pattern of [_NAME] after its first group: spaces, then the quoted name. *)
Definition name_at (b : bytes) : option bytes :=
  let b := strip_left bytes_space b in
  if starts_bytes (text_bytes "name=" ++ [QUOTE]) b then
    let '(r, t) := run_of (λ c, negb (Ascii.eqb c QUOTE)) (drop 6 b) in
    if (1 <=? zlen r) && (zlen r <=? 128) &&
       match t with
       | _ :: [] => true
       | _ :: c :: t => Ascii.eqb c ";" || (Ascii.eqb c (byte_of 10) && bool_decide (t = []))
       | [] => false
       end
    then Some r else None
  else None.

(** ** Parts *)
Definition disposition_of (header_lines : list bytes) : option bytes :=
  (λ line, strip bytes_space
     (match partition_bytes (text_bytes ":") line with Some (_, v) => v | None => [] end)) <$>
  List.find (λ line, starts_bytes (text_bytes "content-disposition:") (bytes_lower line))
    header_lines.

Definition has_filename (b : bytes) : bool := contains_bytes (text_bytes "filename=") b.

(** The name of a part and its disposition, from its headers. *)
Definition part_name (header_blob : bytes) : result (bytes * bytes) :=
  raise_if (MAX_MULTIPART_PART_HEADERS <? zlen header_blob) (ValueError "multipart_header_limit");;
  let header_lines := split_bytes CRLF 0 header_blob in
  raise_if (32 <? zlen header_lines) (ValueError "multipart_header_limit");;
  match disposition_of header_lines with
  | Some disposition =>
      match search name_at disposition with
      | Some name =>
          raise_if (negb (is_ascii name)) (ValueError "multipart_name_invalid");;
          mret (name, disposition)
      | None => reject "multipart_name_missing"
      end
  | None => reject "multipart_name_missing"
  end.

(** A field that is not a file is text. *)
Definition check_content (disposition content : bytes) : result unit :=
  if has_filename disposition then mret tt
  else
    raise_if (MAX_JSON_STRING_BYTES <? zlen content) (ValueError "multipart_field_limit");;
    match decode_utf8 content with Some _ => mret tt | None => reject "multipart_field_encoding" end.

(** One turn of the loop of [_multipart_parts]. *)
Definition add_raw_part (parts : list MultipartPart) (raw_part : bytes) :
    result (list MultipartPart) :=
  raise_if (negb (starts_bytes CRLF raw_part) || negb (ends_with CRLF raw_part))
    (ValueError "malformed_multipart");;
  match partition_bytes (CRLF ++ CRLF) (drop 2 (take (length raw_part - 2) raw_part)) with
  | None => reject "multipart_header_limit"
  | Some (header_blob, content) =>
      '(name, disposition) ← part_name header_blob;
      raise_if (bool_decide (name ∈ MultipartPart.name <$> parts))
        (ValueError "duplicate_multipart_field");;
      check_content disposition content;;
      mret (parts ++ [MultipartPart.mk header_blob name content])
  end.

(** [_multipart_parts] *)
Definition multipart_parts (body content_type : bytes) : result (bytes * list MultipartPart) :=
  boundary ← multipart_boundary content_type;
  let delimiter := text_bytes "--" ++ boundary in
  let segments := split_bytes delimiter 0 body in
  let final := List.last segments [] in
  raise_if (negb (bool_decide (head segments = Some [])) ||
            negb (bool_decide (final ∈ [text_bytes "--"; text_bytes "--" ++ CRLF])))
    (ValueError "malformed_multipart");;
  let raw_parts := removelast (drop 1 segments) in
  raise_if (negb ((1 <=? zlen raw_parts) && (zlen raw_parts <=? MAX_MULTIPART_PARTS)))
    (ValueError "multipart_part_limit");;
  parts ← fold_result add_raw_part [] raw_parts;
  mret (boundary, parts).

(** [_profile_multipart] *)
Definition profile_multipart (endpoint_name : string) (body content_type : bytes) :
    result ProfileResult :=
  '(_, parts) ← multipart_parts body content_type;
  let values := List.filter (λ p, negb (has_filename (MultipartPart.header_blob p))) parts in
  alias ←
    match List.find (λ p, bool_decide (MultipartPart.name p = text_bytes "model")) values with
    | Some p => match decode_utf8 (MultipartPart.content p) with
                | Some alias => Ok alias | None => reject "invalid_model" end
    | None => Ok []
    end;
  raise_if (negb ((1 <=? zlen alias) && (zlen alias <=? 160)) ||
            negb (bool_decide (text_bytes "file" ∈ MultipartPart.name <$> parts)))
    (ValueError "invalid_audio_transcription");;
  endpoint ← endpoint_kind endpoint_name;
  match endpoint with
  | AUDIO_TRANSCRIPTION =>
      mret (ProfileResult.mk alias endpoint Modality.AUDIO_TRANSCRIPTION false (zlen body) 0 0 0
              false false 0)
  | _ => reject "unsupported_multipart_endpoint"
  end.

(** ** Rewriting *)

(** [json.dumps] with its ASCII escapes: what [dumps] writes, with the other
    characters, which only strings have, escaped. *)
Definition hex4_text (u : Z) : ustr :=
  ascii_text "\u" ++ (byte_value <$>
    [hex_char (u / 4096); hex_char (u / 256 mod 16); hex_char (u / 16 mod 16); hex_char (u mod 16)]).
Definition ascii_escape (c : Z) : ustr :=
  if (32 <=? c) && (c <=? 126) then [c]
  else if c <? 0x10000 then hex4_text c
  else hex4_text (0xD800 + (c - 0x10000) / 1024) ++ hex4_text (0xDC00 + (c - 0x10000) mod 1024).
Definition dumps_ascii (value : Json) : bytes := byte_of <$> (dumps value ≫= ascii_escape).

Definition fence_header (fence_field : string) : bytes :=
  text_bytes "Content-Disposition: form-data; name=" ++ QUOTE :: text_bytes fence_field ++ [QUOTE].

Section Rewrite.
Context (prepared : PreparedDispatch) (known_litellm_params : list string).

Definition model_field : string :=
  remove_prefix "multipart." (PreparedDispatch.model_locator prepared).
Definition fence_field : string :=
  remove_prefix "multipart." (PreparedDispatch.fence_locator prepared).
Definition fence_value : bytes :=
  dumps_ascii (JObj (PreparedDispatch.trusted_metadata prepared)).

(** One turn of the loop of [_rewrite_multipart]. *)
Definition rewrite_part (part : MultipartPart) : list MultipartPart :=
  let '(MultipartPart.mk header_blob name content) := part in
  if bool_decide (name = text_bytes model_field) then
    [MultipartPart.mk header_blob name (text_bytes (PreparedDispatch.hidden_alias prepared))]
  else if bool_decide (name = text_bytes fence_field) then
    [MultipartPart.mk header_blob name fence_value]
  else if bool_decide (name ∈ text_bytes <$> known_litellm_params) then []
  else [part].
Definition rewritten_parts (parts : list MultipartPart) : list MultipartPart :=
  (parts ≫= rewrite_part) ++
  if existsb (λ p, negb (bool_decide (MultipartPart.name p = text_bytes model_field)) &&
                   bool_decide (MultipartPart.name p = text_bytes fence_field)) parts then []
  else [MultipartPart.mk (fence_header fence_field) (text_bytes fence_field) fence_value].

Definition part_bytes (delimiter : bytes) (part : MultipartPart) : bytes :=
  (delimiter ++ CRLF) ++ (MultipartPart.header_blob part ++ CRLF ++ CRLF) ++
  (MultipartPart.content part ++ CRLF).
Definition assemble (delimiter : bytes) (parts : list MultipartPart) : bytes :=
  (parts ≫= part_bytes delimiter) ++ delimiter ++ text_bytes "--" ++ CRLF.

(** [_rewrite_multipart] *)
Definition rewrite_multipart (body content_type : bytes) : result bytes :=
  '(boundary, parts) ← multipart_parts body content_type;
  let output := assemble (text_bytes "--" ++ boundary) (rewritten_parts parts) in
  raise_if (DEFAULT_BODY_BYTES <? zlen output) (ValueError "rewritten_body_too_large");;
  mret output.
End Rewrite.

(** ** The two functions the workers run *)
Section Workers.
Context (parse_float : ustr → float).

(** [_profile_worker] *)
Definition profile_worker (endpoint_name : string) (body content_type : bytes) :
    result ProfileResult :=
  raise_if (DEFAULT_BODY_BYTES <? zlen body) (ValueError "body_too_large");;
  if bool_decide (media_type content_type = text_bytes "multipart/form-data")
  then profile_multipart endpoint_name body content_type
  else profile_json parse_float endpoint_name body.

(** [_rewrite_worker] *)
Definition rewrite_worker (body content_type : bytes) (prepared : PreparedDispatch)
    (known_litellm_params : list string) : result bytes :=
  prepared ← PreparedDispatch.validate prepared;
  if String.prefix "multipart." (PreparedDispatch.model_locator prepared)
  then rewrite_multipart prepared known_litellm_params body content_type
  else rewrite_json parse_float body prepared known_litellm_params.
End Workers.

(** ** The profile executor

    [ProfileExecutor] of [gateway/profiler.py]: the scratch reservations, the
    offloading of a worker function and the two requests made of it.  What the
    awaits let other tasks do, and what the process pool does with a function, are
    arguments. *)
(** [_ScratchReservation] *)
Module ScratchReservation.
Record t := mk { key_id : string; amount : Z; released : bool }.
End ScratchReservation.
Abbreviation ScratchReservation := ScratchReservation.t.

Module ProfileExecutor.
Record t := mk {
  scratch : Z; scratch_by_key : dict string Z; closed : bool;
  (* the reservations handed out *)
  reservations : list ScratchReservation }.
Definition init : t := mk 0 [] false [].
End ProfileExecutor.
Abbreviation ProfileExecutor := ProfileExecutor.t.

Module Executor.
Import ProfileExecutor.
Implicit Types s : ProfileExecutor.

(** [_reserve_scratch] *)
Definition reserve_scratch (key_id : string) (amount : Z) : M ProfileExecutor nat :=
  s ← get;
  let key_total := dget_or key_id 0 (scratch_by_key s) in
  if (amount <? 0) || (SCRATCH_BYTES_GLOBAL <? scratch s + amount) ||
     (SCRATCH_BYTES_PER_KEY <? key_total + amount)
  then raise (ProfileError 429 "scratch_limit")
  else
    modify (λ s, mk (scratch s + amount) (dset key_id (key_total + amount) (scratch_by_key s))
      (closed s) (reservations s ++ [ScratchReservation.mk key_id amount false]));;
    mret (length (reservations s)).

(** [_release_scratch] *)
Definition release_scratch (key_id : string) (amount : Z) : M ProfileExecutor unit :=
  s ← get;
  let key_total := dget_or key_id 0 (scratch_by_key s) in
  if (scratch s <? amount) || (key_total <? amount)
  then raise (RuntimeError "profile scratch reservation underflow")
  else
    let remaining := key_total - amount in
    modify (λ s, mk (scratch s - amount)
      (if remaining =? 0 then ddel key_id (scratch_by_key s)
       else dset key_id remaining (scratch_by_key s)) (closed s) (reservations s)).

(** [_ScratchReservation.release] *)
Definition release (i : nat) : M ProfileExecutor unit :=
  s ← get;
  match reservations s !! i with
  | None => mret tt
  | Some r =>
      if ScratchReservation.released r then mret tt
      else
        modify (λ s, mk (scratch s) (scratch_by_key s) (closed s)
          (<[i := ScratchReservation.mk (ScratchReservation.key_id r) (ScratchReservation.amount r)
             true]> (reservations s)));;
        release_scratch (ScratchReservation.key_id r) (ScratchReservation.amount r)
  end.

(** [aclose] *)
Definition aclose : M ProfileExecutor unit :=
  modify (λ s, mk (scratch s) (scratch_by_key s) true (reservations s)).

(** What other tasks do meanwhile. *)
Inductive op := Reserve (key_id : string) (amount : Z) | Release (i : nat) | Close.
Definition run_op (o : op) : M ProfileExecutor unit :=
  match o with
  | Reserve k n => reserve_scratch k n;; mret tt
  | Release i => release i
  | Close => aclose
  end.
Definition run_others (ops : list op) : M ProfileExecutor unit := λ s,
  (foldl (λ s o, (run_op o s).1) s ops, Ok tt).

(** [_await_completion]: a cancellation of the caller is kept until the offload ends. *)
Definition await_completion {S A} (cancelled : bool) (m : M S A) : M S A := λ st,
  let '(st, r) := m st in (st, if cancelled then Err CancelledError else r).

(** [str(error)] of a [ValueError]. *)
Definition error_text (e : exn) : string :=
  match e with
  | ValueError msg => msg
  | ProfileError _ code | IngressError _ code => code
  | _ => ""
  end.

(** What the process pool makes of a function within the wall-clock limit. *)
Inductive pool := Ran | TimedOut | Broken.

(** The inner [try] of [_run]: a timeout becomes a [ProfileError] there, which is a
    [ValueError] for the outer one. *)
Definition within_limit {A} (p : pool) (function : result A) : result A :=
  match p with
  | TimedOut => Err (ProfileError 503 "profile_worker_unavailable")
  | _ => function
  end.
(** [_run] *)
Definition run {A} (p : pool) (function : result A) : M ProfileExecutor A :=
  s ← get;
  if closed s then raise (ProfileError 503 "profile_workers_closed")
  else match p with
       | Broken => raise (ProfileError 503 "profile_worker_unavailable")
       | _ =>
           match within_limit p function with
           | Err e => if is_value_error e then raise (ProfileError 422 (error_text e)) else raise e
           | Ok a => mret a
           end
       end.

(** What happens at the awaits of a request: the worker slot (a cancellation while
    waiting), the read of the body, the prescan's thread and the worker, with the
    operations of other tasks before the worker starts and after it ends. *)
Module Awaits.
Record t := mk {
  slot : option exn; read : result bytes; read_cancelled : bool; prescan_cancelled : bool;
  before : list op; worker : pool; worker_cancelled : bool; after : list op }.
End Awaits.
Abbreviation Awaits := Awaits.t.

Section Requests.
Context (parse_float : ustr → float).

(** The body of [profile]'s [try]. *)
Definition profile_result (w : Awaits) (endpoint : CertifiedEndpoint) (content_type : bytes) :
    M ProfileExecutor ProfileResult :=
  match Awaits.slot w with
  | Some e => raise e
  | None =>
      raw ← await_completion (Awaits.read_cancelled w) (lift (Awaits.read w));
      (if bool_decide (CertifiedEndpoint.model_locator endpoint = "json.model") then
         await_completion (Awaits.prescan_cancelled w)
           (match prescan_json_limits raw with
            | Err e => if is_value_error e then raise (ProfileError 422 (error_text e)) else raise e
            | Ok _ => mret tt
            end)
       else mret tt);;
      run_others (Awaits.before w);;
      await_completion (Awaits.worker_cancelled w)
        (run (Awaits.worker w)
           (profile_worker parse_float (CertifiedEndpoint.name endpoint) raw content_type))
  end.

(** [route_groups.get(alias)], with the alias it is under. *)
Definition route_group (route_groups : dict string string) (alias : ustr) : option (string * string) :=
  List.find (λ p : string * string, bool_decide (ascii_text p.1 = alias)) route_groups.

(** [profile] *)
Definition profile (w : Awaits) (endpoint : CertifiedEndpoint) (body_size : Z)
    (content_type : bytes) (route_groups : dict string string) (deadline_ms : Z)
    (key_id : string) : M ProfileExecutor RequestProfile :=
  scratch ← reserve_scratch key_id body_size;
  result ← finally (profile_result w endpoint content_type)
             (run_others (Awaits.after w);; release scratch);
  match route_group route_groups (ProfileResult.model_alias result) with
  | None => raise (ProfileError 404 "unknown_model")
  | Some (alias, route_group_id) =>
      lift (RequestProfile.validate (RequestProfile.mk route_group_id alias
        (ProfileResult.endpoint result) (ProfileResult.modality result)
        (ProfileResult.stream result) (ProfileResult.input_tokens_max result)
        (ProfileResult.output_tokens_max result) (ProfileResult.reasoning_tokens_max result)
        (ProfileResult.tools_count result) (ProfileResult.forced_tool_required result)
        (ProfileResult.response_schema_present result) (ProfileResult.history_turns result)
        deadline_ms))
  end.

(** [rewrite] *)
Definition rewrite (w : Awaits) (body_size : Z) (content_type : bytes)
    (prepared : PreparedDispatch) (known_litellm_params : list string) (key_id : string) :
    M ProfileExecutor bytes :=
  scratch ← reserve_scratch key_id (Z.min (body_size * 2) (DEFAULT_BODY_BYTES * 2));
  finally
    (match Awaits.slot w with
     | Some e => raise e
     | None =>
         raw ← await_completion (Awaits.read_cancelled w) (lift (Awaits.read w));
         run_others (Awaits.before w);;
         await_completion (Awaits.worker_cancelled w)
           (run (Awaits.worker w)
              (rewrite_worker parse_float raw content_type prepared known_litellm_params))
     end)
    (run_others (Awaits.after w);; release scratch).
End Requests.
End Executor.
