(* ===== verification/MultipartProps.v ===== *)
(** * What a multipart body is rewritten to

    Facts about bodies (splitting undoes joining where no piece holds the separator, and
    the parts depend on the headers only through what is before the blank line), and
    then the rewritten body: it has the parts it was built from, by the very function
    that reads multipart bodies. *)
From S2P Require Export Multipart ProfilerFacts.
From S2P Require Import ModelFacts AdapterProps.
From Stdlib Require Import Ascii.
#[local] Open Scope Z_scope.

Implicit Types (sep b : bytes).

(** ** Occurrences *)
Lemma starts_bytes_spec p b : starts_bytes p b = true ↔ ∃ t, b = p ++ t.
Proof.
  revert b. induction p as [|x p IH]; intros b; cbn; [split; eauto|].
  destruct b as [|y b]; [split; [done|by intros [t ?]]|].
  rewrite andb_true_iff, IH, Ascii.eqb_eq. split.
  - intros [-> [t ->]]. by exists t.
  - intros [t [= -> ->]]. split; [done|by exists t].
Qed.
Lemma starts_bytes_app p t : starts_bytes p (p ++ t) = true.
Proof. apply starts_bytes_spec. by exists t. Qed.

Lemma contains_bytes_spec p b : contains_bytes p b = true ↔ ∃ x t, b = x ++ p ++ t.
Proof.
  induction b as [|c b IH]; cbn [contains_bytes].
  - rewrite orb_false_r, starts_bytes_spec. split.
    + intros [t Ht]. by exists [], t.
    + intros ([|] & t & Ht); [by exists t|done].
  - rewrite orb_true_iff, starts_bytes_spec, IH. split.
    + intros [[t Ht]|(x & t & ->)]; [by exists [], t|by exists (c :: x), t].
    + intros ([|y x] & t & Ht); [left; by exists t|right]. injection Ht as -> ->. by exists x, t.
Qed.
Lemma contains_bytes_false p b : contains_bytes p b = false ↔ ∀ x t, b ≠ x ++ p ++ t.
Proof.
  rewrite <-not_true_iff_false, contains_bytes_spec. split.
  - intros H x t ->. apply H. eauto.
  - intros H (x & t & ->). by apply (H x t).
Qed.
Lemma contains_bytes_sub p x b t : contains_bytes p (x ++ b ++ t) = false → contains_bytes p b = false.
Proof.
  rewrite !contains_bytes_false. intros H x' t' ->. apply (H (x ++ x') (t' ++ t)).
  by rewrite <-!app_assoc.
Qed.

(** A byte that the separator has not keeps occurrences on its sides. *)
Lemma starts_bytes_before p c x t : c ∉ p → starts_bytes p (x ++ c :: t) = true →
  starts_bytes p x = true.
Proof.
  revert x. induction p as [|q p IH]; intros x Hc H; [done|].
  apply not_elem_of_cons in Hc as [Hq Hc]. destruct x as [|y x]; cbn in *.
  - apply andb_true_iff in H as [H _]. by apply Ascii.eqb_eq in H.
  - apply andb_true_iff in H as [H1 H2]. rewrite H1. by apply IH.
Qed.
Lemma contains_bytes_around p c x t : c ∉ p → contains_bytes p x = false →
  contains_bytes p t = false → contains_bytes p (x ++ c :: t) = false.
Proof.
  intros Hc Hx Ht. induction x as [|d x IH]; cbn [app contains_bytes] in *.
  - rewrite orb_false_r in Hx. rewrite Ht, orb_false_r. destruct p as [|q p]; [done|]. cbn.
    apply not_elem_of_cons in Hc as [Hq _]. by rewrite (proj2 (Ascii.eqb_neq _ _)) by congruence.
  - apply orb_false_iff in Hx as [Hx1 Hx2]. rewrite IH, orb_false_r by done.
    apply not_true_iff_false. intros H. apply (starts_bytes_before p c (d :: x)) in H; congruence.
Qed.
Lemma contains_bytes_short p b : (length b < length p)%nat → contains_bytes p b = false.
Proof.
  intros Hl. apply contains_bytes_false. intros x t ->. rewrite !length_app in Hl. lia.
Qed.

(** ** Splitting *)
Lemma split_bytes_ne sep k b : split_bytes sep k b ≠ [].
Proof.
  revert k. induction b as [|c b IH]; intros [|k]; cbn [split_bytes]; try done.
  destruct (starts_bytes sep (c :: b)); [done|]. by destruct (split_bytes sep 0 b).
Qed.
Lemma split_head sep b : ∃ p ps t, split_bytes sep 0 b = p :: ps ∧ b = p ++ t.
Proof.
  induction b as [|c b (p & ps & t & E & Hb)]; cbn [split_bytes]; [by eexists [], [], []|].
  destruct (starts_bytes sep (c :: b)); [by eexists [], _, (c :: b)|].
  rewrite E. exists (c :: p), ps, t. split; [done|]. cbn. by f_equal.
Qed.
Lemma split_pieces sep b : sep ≠ [] → ∀ k p, p ∈ split_bytes sep k b → contains_bytes sep p = false.
Proof.
  intros Hs. assert (contains_bytes sep [] = false) as Hnil by (cbn; by destruct sep).
  induction b as [|c b IH]; intros k p Hp.
  - destruct k; by apply list_elem_of_singleton in Hp as ->.
  - destruct k as [|k]; cbn [split_bytes] in Hp; [|by eapply IH].
    destruct (starts_bytes sep (c :: b)) eqn:E.
    + apply elem_of_cons in Hp as [->|Hp]; [done|by eapply IH].
    + destruct (split_head sep b) as (p' & ps & t & E' & Hb). rewrite E' in Hp.
      apply elem_of_cons in Hp as [->|Hp]; [|apply (IH 0%nat); rewrite E'; by right].
      cbn [contains_bytes]. rewrite (IH 0%nat p') by (rewrite E'; by left). rewrite orb_false_r.
      apply not_true_iff_false. rewrite starts_bytes_spec. intros [u Hu].
      rewrite <-not_true_iff_false, starts_bytes_spec in E. apply E. exists (u ++ t).
      by rewrite app_assoc, <-Hu, Hb.
Qed.
Lemma split_skip sep p b : split_bytes sep (length p) (p ++ b) = split_bytes sep 0 b.
Proof. induction p as [|c p IH]; [done|]. exact IH. Qed.
Lemma split_sep sep b : sep ≠ [] → split_bytes sep 0 (sep ++ b) = [] :: split_bytes sep 0 b.
Proof.
  intros Hs. pose proof (starts_bytes_app sep b) as E. destruct sep as [|c sep]; [done|].
  cbn [app split_bytes]. cbn [app] in E. rewrite E.
  replace (length (c :: sep) - 1)%nat with (length sep) by (cbn; lia). by rewrite split_skip.
Qed.
Lemma split_piece sep p c b : sep ≠ [] → c ∉ sep → contains_bytes sep (p ++ [c]) = false →
  split_bytes sep 0 ((p ++ [c]) ++ sep ++ b) = (p ++ [c]) :: split_bytes sep 0 b.
Proof.
  intros Hs Hc. induction p as [|d p IH]; intros Hp; cbn [app].
  - assert (starts_bytes sep (c :: sep ++ b) = false) as E.
    { destruct sep as [|q u]; [done|]. cbn. apply not_elem_of_cons in Hc as [Hq _].
      by rewrite (proj2 (Ascii.eqb_neq _ _)) by congruence. }
    cbn [split_bytes]. rewrite E. by rewrite split_sep.
  - cbn [app contains_bytes] in Hp. apply orb_false_iff in Hp as [Hp1 Hp2].
    cbn [split_bytes]. rewrite IH by done.
    assert (starts_bytes sep (d :: (p ++ [c]) ++ sep ++ b) = false) as ->; [|done].
    apply not_true_iff_false. intros H. rewrite <-app_assoc in H. cbn [app] in H.
    apply (starts_bytes_before sep c (d :: p)) in H; [|done].
    apply starts_bytes_spec in H as [t Ht]. rewrite <-not_true_iff_false, starts_bytes_spec in Hp1.
    apply Hp1. exists (t ++ [c]). by rewrite app_comm_cons, Ht, app_assoc.
Qed.
Lemma split_none sep b : contains_bytes sep b = false → split_bytes sep 0 b = [b].
Proof.
  induction b as [|c b IH]; intros H; [done|]. cbn [contains_bytes split_bytes] in *.
  apply orb_false_iff in H as [H1 H2]. by rewrite H1, IH.
Qed.

(** ** Partitions *)
Lemma partition_other sep h c c' : ∀ b, sep ≠ [] →
  partition_bytes sep b = Some (h, c) → b = h ++ sep ++ c ∧
  partition_bytes sep (h ++ sep ++ c') = Some (h, c').
Proof.
  intros b Hs. revert h. induction b as [|x b IH]; intros h H; cbn [partition_bytes] in H.
  { destruct sep; [done|]. done. }
  destruct (starts_bytes sep (x :: b)) eqn:E.
  - injection H as <- <-. apply starts_bytes_spec in E as [t E]. rewrite E. cbn [app].
    rewrite drop_app_length. split; [done|]. pose proof (starts_bytes_app sep c') as Es.
    destruct sep as [|s sep]; [done|]. cbn [app partition_bytes] in *. rewrite Es.
    f_equal. f_equal. apply (drop_app_length (s :: sep)).
  - destruct (partition_bytes sep b) as [[h' c'']|] eqn:Ep; [|done]. injection H as <- ->.
    destruct (IH h' eq_refl) as [-> H]. split; [done|]. cbn [app partition_bytes]. rewrite H.
    assert (starts_bytes sep (x :: h' ++ sep ++ c') = false) as ->; [|done].
    apply not_true_iff_false. intros Ht. apply not_true_iff_false in E. apply E.
    apply starts_bytes_spec in Ht as [t Ht]. apply starts_bytes_spec.
    assert (take (length sep) (x :: h' ++ sep) = sep) as Hsep.
    { apply (f_equal (take (length sep))) in Ht. rewrite take_app_length in Ht.
      etransitivity; [|exact Ht]. change (x :: h' ++ sep ++ c') with ((x :: h') ++ sep ++ c').
      rewrite (app_assoc (x :: h') sep c'). symmetry. change (x :: h' ++ sep) with ((x :: h') ++ sep).
      apply take_app_le. rewrite length_app. lia. }
    assert (x :: h' ++ sep = sep ++ drop (length sep) (x :: h' ++ sep)) as Hd
      by (rewrite <-Hsep at 2; by rewrite take_drop).
    exists (drop (length sep) (x :: h' ++ sep) ++ c).
    replace (x :: h' ++ sep ++ c) with ((x :: h' ++ sep) ++ c) by (cbn; by rewrite <-app_assoc).
    rewrite Hd at 1. by rewrite <-app_assoc.
Qed.

(** ** What a multipart body is rewritten to *)

Definition LF : ascii := byte_of 10.
Definition raw_of (p : MultipartPart) : bytes :=
  CRLF ++ MultipartPart.header_blob p ++ (CRLF ++ CRLF) ++ MultipartPart.content p ++ CRLF.
Definition closing : bytes := text_bytes "--" ++ CRLF.

(** A part that reading accepts. *)
Record valid_part (p : MultipartPart) : Prop := {
  vp_split : partition_bytes (CRLF ++ CRLF)
    (MultipartPart.header_blob p ++ (CRLF ++ CRLF) ++ MultipartPart.content p) =
    Some (MultipartPart.header_blob p, MultipartPart.content p);
  vp_name : ∃ d, part_name (MultipartPart.header_blob p) = Ok (MultipartPart.name p, d) ∧
    check_content d (MultipartPart.content p) = Ok tt;
}.

(** ** One part *)
Lemma blank_line : CRLF ++ CRLF ≠ [].
Proof. done. Qed.
Lemma raw_of_middle p : drop 2 (take (length (raw_of p) - 2) (raw_of p)) =
  MultipartPart.header_blob p ++ (CRLF ++ CRLF) ++ MultipartPart.content p.
Proof.
  assert (raw_of p = (CRLF ++ MultipartPart.header_blob p ++ (CRLF ++ CRLF) ++
    MultipartPart.content p) ++ CRLF) as E by (unfold raw_of; by rewrite <-!app_assoc).
  rewrite E, length_app. cbn [length CRLF]. rewrite Nat.add_sub. rewrite take_app_length. done.
Qed.

Lemma add_raw_valid acc p : valid_part p → MultipartPart.name p ∉ MultipartPart.name <$> acc →
  add_raw_part acc (raw_of p) = Ok (acc ++ [p]).
Proof.
  intros [Hs (d & Hn & Hc)] Hin. unfold add_raw_part. rewrite raw_of_middle, Hs.
  assert (ends_with CRLF (raw_of p) = true) as ->.
  { unfold ends_with.
    assert (raw_of p = (CRLF ++ MultipartPart.header_blob p ++ (CRLF ++ CRLF) ++
      MultipartPart.content p) ++ CRLF) as -> by (unfold raw_of; by rewrite <-!app_assoc).
    rewrite length_app. cbn [length CRLF]. rewrite Nat.add_sub, drop_app_length.
    rewrite bool_decide_true by done. apply Nat.leb_le. lia. }
  cbn [starts_bytes raw_of CRLF app Ascii.eqb]. rewrite Hn. cbn [mbind result_bind].
  rewrite bool_decide_false by done. cbn. rewrite Hc. by destruct p.
Qed.

Lemma ends_with_spec suffix b : ends_with suffix b = true → ∃ x, b = x ++ suffix.
Proof.
  unfold ends_with. intros [H _]%andb_true_iff. bprop in H.
  exists (take (length b - length suffix) b). rewrite <-H at 2. by rewrite take_drop.
Qed.

Lemma add_raw_Ok acc raw acc' : add_raw_part acc raw = Ok acc' →
  ∃ p, acc' = acc ++ [p] ∧ raw = raw_of p ∧ valid_part p ∧
    MultipartPart.name p ∉ MultipartPart.name <$> acc.
Proof.
  unfold add_raw_part. intros H. apply bind_Ok in H as ([] & G & H). apply raise_if_Ok in G.
  apply orb_false_iff in G as [G1 G2]. apply negb_false_iff in G1, G2.
  destruct (partition_bytes _ _) as [[h c]|] eqn:Ep; [|done].
  apply bind_Ok in H as ([name d] & Hn & H). apply bind_Ok in H as ([] & G & H).
  apply bind_Ok in H as ([] & Hc & H). injection H as <-. apply raise_if_Ok in G. bprop in G.
  exists (MultipartPart.mk h name c). cbn [MultipartPart.name MultipartPart.content MultipartPart.header_blob].
  split; [done|].
  destruct (partition_other (CRLF ++ CRLF) _ _ c _ blank_line Ep) as [Em Ep'].
  split; [|split; [|done]].
  - apply ends_with_spec in G2 as [x ->]. apply starts_bytes_spec in G1 as [t Ht].
    rewrite length_app in Em. cbn [length CRLF] in Em. rewrite Nat.add_sub, take_app_length in Em.
    destruct x as [|a [|a' x]]; [by destruct h|by destruct h|]. cbn in Em, Ht.
    injection Ht as -> -> _. unfold raw_of. cbn [MultipartPart.content MultipartPart.header_blob].
    rewrite drop_0 in Em. rewrite Em. unfold CRLF. cbn [app]. by rewrite <-app_assoc.
  - split; cbn [MultipartPart.name MultipartPart.content MultipartPart.header_blob]; [done|eauto].
Qed.

Lemma add_raws_Ok raws : ∀ acc parts, fold_result add_raw_part acc raws = Ok parts →
  NoDup (MultipartPart.name <$> acc) →
  ∃ new, parts = acc ++ new ∧ raws = raw_of <$> new ∧ Forall valid_part new ∧
    NoDup (MultipartPart.name <$> parts).
Proof.
  induction raws as [|raw raws IH]; intros acc parts H Hacc; cbn in H.
  - injection H as <-. exists []. by rewrite app_nil_r.
  - apply bind_Ok in H as (acc' & H1 & H). destruct (add_raw_Ok _ _ _ H1) as (p & -> & -> & Hp & Hn).
    destruct (IH _ _ H) as (new & -> & -> & Hnew & Hnd).
    { rewrite fmap_app. apply NoDup_app. split_and!; [done| |apply NoDup_singleton].
      intros n Hin ->%list_elem_of_singleton. done. }
    exists (p :: new). split_and!; [by rewrite <-app_assoc|done|by constructor|done].
Qed.

Lemma add_raws_valid new : ∀ acc, Forall valid_part new →
  NoDup (MultipartPart.name <$> (acc ++ new)) →
  fold_result add_raw_part acc (raw_of <$> new) = Ok (acc ++ new).
Proof.
  induction new as [|p new IH]; intros acc Hv Hn; [by rewrite app_nil_r|].
  cbn [fmap list_fmap fold_result]. apply Forall_cons in Hv as [Hp Hv]. rewrite add_raw_valid; [|done|].
  - cbn [mbind result_bind]. rewrite IH; [by rewrite <-app_assoc|done|by rewrite <-app_assoc].
  - rewrite fmap_app in Hn. apply NoDup_app in Hn as (_ & Hn & _). intros Hin. apply (Hn _ Hin). left.
Qed.

(** ** The body *)
Lemma assemble_split d parts : d ≠ [] → LF ∉ d → contains_bytes d closing = false →
  Forall (λ p, contains_bytes d (raw_of p) = false) parts →
  split_bytes d 0 (assemble d parts) = [] :: (raw_of <$> parts) ++ [closing].
Proof.
  intros Hd Hlf Hc Hp. unfold assemble.
  assert (∀ l, Forall (λ p, contains_bytes d (raw_of p) = false) l →
    ∃ t, (l ≫= part_bytes d) ++ d ++ text_bytes "--" ++ CRLF = d ++ t ∧
      split_bytes d 0 t = (raw_of <$> l) ++ [closing]) as Hl.
  { clear Hp. induction 1 as [|p l Hp Hl (t & E & IH)].
    - exists closing. split; [done|]. by rewrite split_none.
    - exists (raw_of p ++ d ++ t). cbn [mbind list_bind]. rewrite <-app_assoc, E. split.
      + unfold part_bytes, raw_of. by rewrite <-!app_assoc.
      + assert (∃ x, raw_of p = x ++ [LF]) as [x Ex].
        { exists (CRLF ++ MultipartPart.header_blob p ++ (CRLF ++ CRLF) ++
            MultipartPart.content p ++ [byte_of 13]). unfold raw_of. by rewrite <-!app_assoc. }
        rewrite Ex in *. rewrite split_piece by done. rewrite IH. cbn [fmap list_fmap app].
        by rewrite Ex. }
  destruct (Hl parts Hp) as (t & -> & E). by rewrite split_sep, E.
Qed.

Lemma list_last_snoc {A} (l : list A) x y : List.last (l ++ [x]) y = x.
Proof. apply last_last. Qed.

(** What reading a body establishes. *)
Record read_as (delimiter : bytes) (parts : list MultipartPart) : Prop := {
  ra_some : parts ≠ [];
  ra_count : zlen parts ≤ MAX_MULTIPART_PARTS;
  ra_valid : Forall valid_part parts;
  ra_names : NoDup (MultipartPart.name <$> parts);
  ra_apart : Forall (λ p, contains_bytes delimiter (raw_of p) = false) parts;
}.

Lemma parts_Ok body ct boundary parts : multipart_parts body ct = Ok (boundary, parts) →
  multipart_boundary ct = Ok boundary ∧ read_as (text_bytes "--" ++ boundary) parts.
Proof.
  unfold multipart_parts. intros H. apply bind_Ok in H as (b & Hb & H).
  apply bind_Ok in H as ([] & G1 & H). apply bind_Ok in H as ([] & G2 & H).
  apply bind_Ok in H as (ps & Hp & H). injection H as <- <-. split; [done|].
  apply raise_if_Ok in G1, G2. apply negb_false_iff in G2. bprop in G2.
  destruct (add_raws_Ok _ [] _ Hp) as (new & -> & Hr & Hv & Hn); [constructor|]. cbn [app] in *.
  set (segments := split_bytes (text_bytes "--" ++ b) 0 body) in *.
  assert (zlen (removelast (drop 1 segments)) = zlen new) as El
    by (rewrite Hr; unfold zlen; by rewrite length_fmap).
  rewrite El in G2. split; try done.
  - intros ->. change (zlen (@nil MultipartPart)) with 0 in G2. lia.
  - lia.
  - apply Forall_forall. intros p Hin.
    apply (split_pieces (text_bytes "--" ++ b) body ltac:(done) 0).
    fold segments. assert (raw_of p ∈ removelast (drop 1 segments)) as Hin'.
    { rewrite Hr. apply list_elem_of_fmap. eauto. }
    destruct segments as [|s0 ss]; [by apply elem_of_nil in Hin'|]. right. cbn in Hin'.
    rewrite drop_0 in Hin'. destruct ss as [|s1 ss]; [by apply elem_of_nil in Hin'|].
    rewrite (app_removelast_last s1 (l := s1 :: ss)) by done. apply elem_of_app. by left.
Qed.

Lemma parts_of_assembled ct boundary parts : multipart_boundary ct = Ok boundary →
  let d := text_bytes "--" ++ boundary in
  LF ∉ d → contains_bytes d closing = false → read_as d parts →
  multipart_parts (assemble d parts) ct = Ok (boundary, parts).
Proof.
  intros Hb d Hlf Hc [R1 R2 R3 R4 R5]. unfold multipart_parts. rewrite Hb. cbn [mbind result_bind].
  fold d. rewrite assemble_split by done.
  change ([] :: (raw_of <$> parts) ++ [closing]) with (([] :: (raw_of <$> parts)) ++ [closing]).
  rewrite list_last_snoc. cbn [app head drop]. rewrite drop_0, removelast_last.
  rewrite bool_decide_true by done.
  rewrite bool_decide_true by (rewrite !elem_of_cons; right; by left). cbn [negb orb raise_if mbind result_bind].
  assert (zlen (raw_of <$> parts) = zlen parts) as -> by (unfold zlen; by rewrite length_fmap).
  assert ((1 <=? zlen parts) && (zlen parts <=? MAX_MULTIPART_PARTS) = true) as ->.
  { pose proof (zlen_pos parts R1). bprop. lia. }
  cbn [negb raise_if mbind result_bind]. by rewrite (add_raws_valid parts []).
Qed.

(** ** The boundary *)
Lemma run_of_class class b : Forall (λ c, class c = true) (run_of class b).1.
Proof.
  induction b as [|c b IH]; cbn; [constructor|]. destruct (class c) eqn:E; [|constructor].
  destruct (run_of class b). by constructor.
Qed.
Lemma boundary_at_class b r : boundary_at b = Some r →
  r ≠ [] ∧ Forall (λ c, quoted_boundary_char c = true) r.
Proof.
  unfold boundary_at. destruct (starts_bytes _ _); [|done]. set (v := drop 9 _). intros H.
  assert (∀ o, match o with Some r => Some r | None =>
      if bool_decide (take 70 (run_of boundary_char v).1 = []) then None
      else Some (take 70 (run_of boundary_char v).1) end = Some r →
    (o = Some r → r ≠ [] ∧ Forall (λ c, quoted_boundary_char c = true) r) →
    r ≠ [] ∧ Forall (λ c, quoted_boundary_char c = true) r) as Ho.
  { intros [x|] Hx Hr; [by injection Hx as ->; apply Hr|].
    case_bool_decide as E; [done|]. injection Hx as <-. split; [done|].
    apply Forall_take. eapply Forall_impl; [apply run_of_class|].
    intros c Hc. unfold quoted_boundary_char. cbv beta in Hc. by rewrite Hc. }
  eapply Ho; [exact H|]. clear H Ho. destruct v as [|q v]; [done|].
  destruct (Ascii.eqb q QUOTE); [|done]. pose proof (run_of_class quoted_boundary_char v) as Hc.
  destruct (run_of quoted_boundary_char v) as [x t]. destruct (_ && _) eqn:E; [|done].
  intros [= <-]. split; [|done]. intros ->. cbn in E. done.
Qed.
Lemma search_at {A} (at_ : bytes → option A) (P : A → Prop) :
  (∀ b x, at_ b = Some x → P x) → ∀ b x, search at_ b = Some x → P x.
Proof.
  intros Hat. assert (∀ b x, after_semicolons at_ b = Some x → P x) as Hs.
  { induction b as [|c b IH]; intros x; cbn; [done|].
    destruct (Ascii.eqb c ";"); [|apply IH]. destruct (at_ b) eqn:E; [|apply IH].
    intros [= <-]. by eapply Hat. }
  intros b x. unfold search. destruct (at_ b) eqn:E; [|apply Hs]. intros [= <-]. by eapply Hat.
Qed.

Lemma delimiter_plain ct boundary : multipart_boundary ct = Ok boundary →
  let d := text_bytes "--" ++ boundary in
  (LF ∉ d) ∧ (byte_of 13 ∉ d) ∧ contains_bytes d closing = false.
Proof.
  intros H d. unfold multipart_boundary in H.
  destruct (search boundary_at ct) as [v|] eqn:E; [|done]. injection H as ->.
  apply (search_at _ (λ r, r ≠ [] ∧ Forall (λ c, quoted_boundary_char c = true) r) boundary_at_class)
    in E as [Hne Hc].
  assert (∀ c, quoted_boundary_char c = false → c ∉ text_bytes "--" → c ∉ d) as Hd.
  { intros c Hq Hn [Hin|Hin]%elem_of_app; [done|]. rewrite Forall_forall in Hc.
    apply Hc in Hin. congruence. }
  assert (LF ∉ d) as H1 by (apply Hd; [by vm_compute|by apply (bool_decide_unpack _); vm_compute]).
  assert (byte_of 13 ∉ d) as H2 by (apply Hd; [by vm_compute|by apply (bool_decide_unpack _); vm_compute]).
  split_and!; [done..|]. unfold closing.
  change (text_bytes "--" ++ CRLF) with (text_bytes "--" ++ byte_of 13 :: [LF]).
  apply contains_bytes_around; [done|..]; apply contains_bytes_short; unfold d;
    rewrite length_app; destruct boundary; try done; cbn; lia.
Qed.

Ltac part_fields := cbn [MultipartPart.name MultipartPart.content MultipartPart.header_blob] in *.

(** ** Rewritten parts *)

(** A value that may be put in a part: text, within the limit, without the delimiter. *)
Definition insertable (d value : bytes) : Prop :=
  is_Some (decode_utf8 value) ∧ zlen value ≤ MAX_JSON_STRING_BYTES ∧ contains_bytes d value = false.

Lemma raw_apart d h n c : d ≠ [] → LF ∉ d → byte_of 13 ∉ d →
  contains_bytes d h = false → contains_bytes d c = false →
  contains_bytes d (raw_of (MultipartPart.mk h n c)) = false.
Proof.
  intros Hd H1 H2 Hh Hc. assert (contains_bytes d [] = false) as Hnil by (destruct d; done).
  unfold raw_of. cbn [MultipartPart.content MultipartPart.header_blob].
  assert (∀ t, contains_bytes d t = false → contains_bytes d (CRLF ++ t) = false) as Hcr.
  { intros t Ht. apply (contains_bytes_around d (byte_of 13) []); [done..|].
    by apply (contains_bytes_around d LF []). }
  assert (∀ x t, contains_bytes d x = false → contains_bytes d t = false →
    contains_bytes d (x ++ CRLF ++ t) = false) as Hmid.
  { intros x t Hx Ht. apply (contains_bytes_around d (byte_of 13)); [done..|].
    by apply (contains_bytes_around d LF []). }
  apply Hcr. rewrite <-app_assoc. apply Hmid; [done|]. apply Hcr.
  rewrite <-(app_nil_r CRLF). by apply Hmid.
Qed.

Lemma header_apart d p : contains_bytes d (raw_of p) = false →
  contains_bytes d (MultipartPart.header_blob p) = false.
Proof. unfold raw_of. apply contains_bytes_sub. Qed.

Lemma valid_content h n c c' : valid_part (MultipartPart.mk h n c) →
  is_Some (decode_utf8 c') → zlen c' ≤ MAX_JSON_STRING_BYTES → valid_part (MultipartPart.mk h n c').
Proof.
  intros [Hs (d & Hn & _)] [s Hd] Hl. split.
  - by destruct (partition_other (CRLF ++ CRLF) _ _ c' _ blank_line Hs).
  - exists d. split; [done|]. unfold check_content. destruct (has_filename d); [done|].
    rewrite raise_if_pass by by apply Z.ltb_ge. cbn [MultipartPart.content].
    cbn [mbind result_bind]. by rewrite Hd.
Qed.

Section Rewrite.
Context (prepared : PreparedDispatch) (known : list string).
#[local] Abbreviation model_name := (text_bytes (model_field prepared)).
#[local] Abbreviation fence_name := (text_bytes (fence_field prepared)).
#[local] Abbreviation alias := (text_bytes (PreparedDispatch.hidden_alias prepared)).
#[local] Abbreviation rewrite_part := (rewrite_part prepared known).
#[local] Abbreviation rewritten_parts := (rewritten_parts prepared known).
Context (Hdiffer : fence_field prepared ≠ model_field prepared).

Lemma text_bytes_inj s t : text_bytes s = text_bytes t → s = t.
Proof.
  intros H. rewrite <-(String.string_of_list_ascii_of_string s),
    <-(String.string_of_list_ascii_of_string t). unfold text_bytes in H. by rewrite H.
Qed.
Lemma names_differ : fence_name ≠ model_name.
Proof. by intros ?%text_bytes_inj. Qed.

Lemma rewrite_part_cases p q : q ∈ rewrite_part p →
  MultipartPart.name q = MultipartPart.name p ∧
  MultipartPart.header_blob q = MultipartPart.header_blob p ∧
  (MultipartPart.name p = model_name ∧ MultipartPart.content q = alias ∨
   MultipartPart.name p = fence_name ∧ MultipartPart.content q = fence_value prepared ∨
   (MultipartPart.name p ≠ model_name) ∧ (MultipartPart.name p ≠ fence_name) ∧
     (MultipartPart.name p ∉ text_bytes <$> known) ∧ q = p).
Proof.
  destruct p as [h n c]. unfold Multipart.rewrite_part. repeat case_bool_decide;
    rewrite ?list_elem_of_singleton, ?elem_of_nil; try done; intros ->; cbn; tauto.
Qed.

Lemma rewrite_part_name p : MultipartPart.name <$> rewrite_part p = [] ∨
  MultipartPart.name <$> rewrite_part p = [MultipartPart.name p].
Proof. destruct p as [h n c]. unfold Multipart.rewrite_part. repeat case_bool_decide; cbn; tauto. Qed.

Lemma rewritten_names parts : sublist (MultipartPart.name <$> (parts ≫= rewrite_part))
  (MultipartPart.name <$> parts).
Proof.
  induction parts as [|p parts IH]; [constructor|]. cbn [mbind list_bind fmap list_fmap].
  rewrite fmap_app. destruct (rewrite_part_name p) as [-> | ->]; cbn; by constructor.
Qed.

Lemma fence_seen parts :
  existsb (λ p, negb (bool_decide (MultipartPart.name p = model_name)) &&
    bool_decide (MultipartPart.name p = fence_name)) parts = true ↔
  fence_name ∈ MultipartPart.name <$> parts.
Proof.
  rewrite existsb_exists, list_elem_of_fmap. split.
  - intros (p & Hp%list_elem_of_In & H). bprop in H. destruct H as [_ H]. by exists p.
  - intros (p & Hp & Hin). exists p. split; [by apply list_elem_of_In|]. rewrite <-Hp.
    pose proof names_differ. by rewrite bool_decide_false, bool_decide_true.
Qed.

Lemma sent_names parts : NoDup (MultipartPart.name <$> parts) →
  NoDup (MultipartPart.name <$> rewritten_parts parts).
Proof.
  intros Hn. unfold Multipart.rewritten_parts. rewrite fmap_app.
  assert (NoDup (MultipartPart.name <$> (parts ≫= rewrite_part))) as Hn'
    by (eapply sublist_NoDup; [exact Hn|apply rewritten_names]).
  destruct (existsb _ parts) eqn:E; [cbn; by rewrite app_nil_r|]. apply NoDup_app.
  split_and!; [done| |apply NoDup_singleton]. intros n Hin ->%list_elem_of_singleton.
  cbn in Hin. apply not_true_iff_false in E. apply E, fence_seen.
  eapply elem_of_sublist; [exact Hin|apply rewritten_names].
Qed.

Lemma sent_parts parts q : q ∈ rewritten_parts parts →
  (∃ p, p ∈ parts ∧ q ∈ rewrite_part p) ∨
  q = MultipartPart.mk (fence_header (fence_field prepared)) fence_name (fence_value prepared).
Proof.
  unfold Multipart.rewritten_parts. rewrite elem_of_app, list_elem_of_bind.
  intros [(p & H1 & H2)|H]; [left; eauto|right]. destruct (existsb _ parts); [by apply elem_of_nil in H|].
  by apply list_elem_of_singleton in H.
Qed.

(** The fence is in the body, once, whether or not the request had such a part. *)
Lemma sent_fence parts : ∃ q, q ∈ rewritten_parts parts ∧
  MultipartPart.name q = fence_name ∧ MultipartPart.content q = fence_value prepared.
Proof.
  unfold Multipart.rewritten_parts. setoid_rewrite elem_of_app.
  destruct (existsb _ parts) eqn:E.
  - apply fence_seen, list_elem_of_fmap in E as ([h n c] & E & Hp). part_fields. subst n.
    exists (MultipartPart.mk h fence_name (fence_value prepared)). split; [|done]. left.
    apply list_elem_of_bind. eexists. split; [|exact Hp]. unfold Multipart.rewrite_part.
    rewrite bool_decide_false by apply names_differ. rewrite bool_decide_true by done. by left.
  - eexists. split; [right; by left|done].
Qed.

(** What is sent: the alias for the model, the trusted fence, and the other parts
    byte for byte, without those the request may not set. *)
Record fenced_parts (parts sent : list MultipartPart) : Prop := {
  fp_names : NoDup (MultipartPart.name <$> sent);
  fp_model : ∀ p, p ∈ sent → MultipartPart.name p = model_name → MultipartPart.content p = alias;
  fp_model_kept : model_name ∈ MultipartPart.name <$> parts →
    model_name ∈ MultipartPart.name <$> sent;
  fp_fence : ∃ p, p ∈ sent ∧ MultipartPart.name p = fence_name ∧
    MultipartPart.content p = fence_value prepared;
  fp_reserved : ∀ p, p ∈ sent → MultipartPart.name p ∈ text_bytes <$> known →
    MultipartPart.name p = model_name ∨ MultipartPart.name p = fence_name;
  fp_rest : ∀ p, MultipartPart.name p ≠ model_name → MultipartPart.name p ≠ fence_name →
    p ∈ sent ↔ (p ∈ parts ∧ (MultipartPart.name p ∉ text_bytes <$> known));
}.

Lemma rewritten_fenced parts : NoDup (MultipartPart.name <$> parts) →
  fenced_parts parts (rewritten_parts parts).
Proof.
  intros Hn. split.
  - by apply sent_names.
  - intros q [(p & Hp & Hq)| ->]%sent_parts Hm; [|by destruct names_differ].
    destruct (rewrite_part_cases p q Hq) as (E & _ & [[_ H]|[[E' _]|[E' _]]]); [done|..];
      pose proof names_differ; congruence.
  - intros ([h n c] & E & Hp)%list_elem_of_fmap. part_fields. subst n. apply list_elem_of_fmap.
    exists (MultipartPart.mk h model_name alias). split; [done|]. unfold Multipart.rewritten_parts.
    apply elem_of_app. left. apply list_elem_of_bind. eexists. split; [|exact Hp].
    unfold Multipart.rewrite_part. rewrite bool_decide_true by done. by left.
  - apply sent_fence.
  - intros q [(p & Hp & Hq)| ->]%sent_parts Hk; [|by right].
    destruct (rewrite_part_cases p q Hq) as (E & _ & [[E' _]|[[E' _]|(_ & _ & E' & _)]]);
      rewrite E in *; [by left|by right|done].
  - intros [h n c] H1 H2. part_fields. split.
    + intros [(p & Hp & Hq)|Hq]%sent_parts; [|by injection Hq].
      destruct (rewrite_part_cases p _ Hq) as (E & _ & [[E' _]|[[E' _]|(_ & _ & E' & E2)]]); part_fields;
        [congruence..|subst p; done].
    + intros [Hp Hk]. unfold Multipart.rewritten_parts. apply elem_of_app. left.
      apply list_elem_of_bind. exists (MultipartPart.mk h n c). split; [|done].
      unfold Multipart.rewrite_part. rewrite !bool_decide_false by done. by left.
Qed.

(** The rewritten parts can be read again. *)
Lemma rewritten_read d parts : d ≠ [] → LF ∉ d → byte_of 13 ∉ d →
  contains_bytes d (fence_header (fence_field prepared)) = false →
  valid_part (MultipartPart.mk (fence_header (fence_field prepared)) fence_name []) →
  insertable d alias → insertable d (fence_value prepared) →
  zlen (rewritten_parts parts) ≤ MAX_MULTIPART_PARTS →
  read_as d parts → read_as d (rewritten_parts parts).
Proof.
  intros Hd H1 H2 Hfh Hfv (A1 & A2 & A3) (F1 & F2 & F3) Hcount [R1 R2 R3 R4 R5].
  assert (∀ q, q ∈ rewritten_parts parts → valid_part q ∧ contains_bytes d (raw_of q) = false) as Hq.
  { rewrite Forall_forall in R3. rewrite Forall_forall in R5.
    intros q [(p & Hp & Hq)| ->]%sent_parts.
    - destruct p as [h n c]. pose proof (R3 _ Hp) as Hv. pose proof (header_apart d _ (R5 _ Hp)) as Hh.
      destruct q as [h' n' c']. destruct (rewrite_part_cases _ _ Hq) as (E1 & E2 & E). part_fields. subst.
      destruct E as [[_ ->]|[[_ ->]|(_ & _ & _ & E)]].
      + split; [by eapply valid_content|by apply raw_apart].
      + split; [by eapply valid_content|by apply raw_apart].
      + injection E as ->. split; [done|by apply R5].
    - split; [by eapply valid_content|by apply raw_apart]. }
  split; [|done|..].
  - destruct (sent_fence parts) as (q & Hq' & _). intros E. rewrite E in Hq'. by apply elem_of_nil in Hq'.
  - apply Forall_forall. intros q Hq'. by apply Hq.
  - by apply sent_names.
  - apply Forall_forall. intros q Hq'. by apply Hq.
Qed.
End Rewrite.
