(* ===== verification/ProfilerProps.v ===== *)
(** * Properties of profiling and rewriting

    What is sent upstream carries the alias and the guard's fence and nothing the
    request may not set, in JSON and in multipart bodies, and can be read back; the
    scratch of a request is always given back. *)
From S2P Require Export Multipart MultipartProps IngressFacts.
From S2P Require Import ModelFacts AdapterProps.
From Stdlib Require Import Ascii.
#[local] Open Scope Z_scope.

Module ScratchFacts.
Import ProfileExecutor.
Import Executor.
Implicit Types s : ProfileExecutor.

(** ** The invariant of the scratch *)
Definition weight (r : ScratchReservation) : Z :=
  if ScratchReservation.released r then 0 else ScratchReservation.amount r.
Definition weight_of (k : string) (r : ScratchReservation) : Z :=
  if bool_decide (ScratchReservation.key_id r = k) then weight r else 0.

Record inv s : Prop := {
  inv_ok : dict_ok (scratch_by_key s);
  inv_amounts : ∀ r, r ∈ reservations s → 0 ≤ ScratchReservation.amount r;
  inv_scratch : scratch s = lsum weight (reservations s);
  inv_by_key : ∀ k, dget_or k 0 (scratch_by_key s) = lsum (weight_of k) (reservations s);
  inv_global : scratch s ≤ SCRATCH_BYTES_GLOBAL;
  inv_key : ∀ k, dget_or k 0 (scratch_by_key s) ≤ SCRATCH_BYTES_PER_KEY;
}.

Lemma scratch_inv_init : inv init.
Proof. split; try done; [apply dict_ok_nil|by intros r ?%elem_of_nil]. Qed.

Definition reserved_state (k : string) (n : Z) s : ProfileExecutor :=
  mk (scratch s + n) (dset k (dget_or k 0 (scratch_by_key s) + n) (scratch_by_key s)) (closed s)
    (reservations s ++ [ScratchReservation.mk k n false]).

Lemma reserve_cases k n s : inv s →
  (reserve_scratch k n s = (s, Err (ProfileError 429 "scratch_limit"))) ∨
  (reserve_scratch k n s = (reserved_state k n s, Ok (length (reservations s))) ∧
   inv (reserved_state k n s)).
Proof.
  intros H. unfold reserve_scratch. IngressFacts.run. destruct (_ || _) eqn:E; [by left|right].
  split; [done|]. bprop in E. destruct E as [[E1 E2] E3]. destruct H.
  split; cbn.
  - by apply dict_ok_dset.
  - intros r [Hr| ->%list_elem_of_singleton]%elem_of_app; [by apply inv_amounts0|cbn; lia].
  - rewrite lsum_snoc. unfold weight at 2. cbn. lia.
  - intros k'. rewrite lsum_snoc, <-inv_by_key0. unfold dget_or at 1. rewrite dget_dset.
    unfold weight_of, weight. cbn. case_decide as Ek; [subst; rewrite bool_decide_true by done; cbn; lia|].
    rewrite bool_decide_false by done. unfold dget_or. lia.
  - lia.
  - intros k'. unfold dget_or at 1. rewrite dget_dset. case_decide; [cbn; lia|apply inv_key0].
Qed.

Lemma weight_nonneg s k r : inv s → r ∈ reservations s → 0 ≤ weight r ∧ 0 ≤ weight_of k r.
Proof.
  intros H Hr. pose proof (inv_amounts s H r Hr). unfold weight_of, weight.
  destruct (ScratchReservation.released r), (bool_decide _); lia.
Qed.

Definition released_state (i : nat) (r : ScratchReservation) s : ProfileExecutor :=
  let k := ScratchReservation.key_id r in let n := ScratchReservation.amount r in
  mk (scratch s - n) (put_count k (dget_or k 0 (scratch_by_key s) - n) (scratch_by_key s)) (closed s)
    (<[i := ScratchReservation.mk k n true]> (reservations s)).

Lemma release_spec i s r : inv s → reservations s !! i = Some r → ScratchReservation.released r = false →
  release i s = (released_state i r s, Ok tt) ∧ inv (released_state i r s).
Proof.
  intros H Hi Hr. unfold released_state. set (k := ScratchReservation.key_id r).
  set (n := ScratchReservation.amount r). pose proof (list_elem_of_lookup_2 _ _ _ Hi) as Hin.
  assert (n ≤ scratch s) as H1.
  { rewrite (inv_scratch s H). etrans; [|apply (lsum_elem weight _ i r); [|done]].
    - unfold weight. by rewrite Hr.
    - intros x Hx. by destruct (weight_nonneg s k x H Hx). }
  assert (n ≤ dget_or k 0 (scratch_by_key s)) as H2.
  { rewrite (inv_by_key s H). etrans; [|apply (lsum_elem (weight_of k) _ i r); [|done]].
    - unfold weight_of, weight. rewrite Hr, bool_decide_true by done. done.
    - intros x Hx. by destruct (weight_nonneg s k x H Hx). }
  pose proof (inv_amounts s H r Hin) as H3. fold n in H3.
  assert (∀ k', dget_or k' 0 (put_count k (dget_or k 0 (scratch_by_key s) - n) (scratch_by_key s)) =
    dget_or k' 0 (scratch_by_key s) - (if decide (k' = k) then n else 0)) as Hput.
  { intros k'. unfold put_count, dget_or at 1 3. destruct (Z.eqb_spec (dget_or k 0 (scratch_by_key s) - n) 0).
    - rewrite dget_ddel by apply H. repeat case_decide; subst; try done; unfold dget_or in *; cbn; try lia.
    - rewrite dget_dset. repeat case_decide; subst; try done; unfold dget_or in *; cbn; try lia. }
  split.
  - unfold release. IngressFacts.run. rewrite Hi, Hr. unfold release_scratch. IngressFacts.run.
    cbn [scratch scratch_by_key closed reservations]. fold k n.
    rewrite (proj2 (Z.ltb_ge _ _)), (proj2 (Z.ltb_ge _ _)) by done. done.
  - destruct H. split; cbn.
    + unfold put_count. destruct (_ =? 0); [by apply dict_ok_ddel|by apply dict_ok_dset].
    + intros x [->|Hx]%elem_of_insert_list; [done|by apply inv_amounts0].
    + rewrite (lsum_insert _ _ _ r) by done.
      assert (weight r = n) as -> by (unfold weight; by rewrite Hr). cbn [weight ScratchReservation.released].
      change (weight (ScratchReservation.mk k n true)) with 0. lia.
    + intros k'. rewrite Hput, inv_by_key0, (lsum_insert _ _ _ r) by done.
      assert (weight_of k' r = if decide (k' = k) then n else 0) as ->.
      { unfold weight_of, weight. rewrite Hr. fold k n. case_decide; case_bool_decide; congruence. }
      assert (weight_of k' (ScratchReservation.mk k n true) = 0) as ->
        by (unfold weight_of; by case_bool_decide). lia.
    + lia.
    + intros k'. rewrite Hput. specialize (inv_key0 k'). case_decide; lia.
Qed.

Lemma scratch_op_kept o s : inv s → inv (run_op o s).1 ∧ ∀ e, (run_op o s).2 ≠ Err (RuntimeError e).
Proof.
  intros H. destruct o as [k n|i|]; cbn [run_op].
  - IngressFacts.run. destruct (reserve_cases k n s H) as [->|[-> Hi]]; done.
  - destruct (reservations s !! i) as [r|] eqn:Hi.
    + destruct (ScratchReservation.released r) eqn:Hr.
      * unfold release. IngressFacts.run. by rewrite Hi, Hr.
      * destruct (release_spec i s r H Hi Hr) as [-> ?]. done.
    + unfold release. IngressFacts.run. by rewrite Hi.
  - unfold aclose. IngressFacts.run. split; [|done]. by destruct H.
Qed.

Lemma ops_inv ops : ∀ s, inv s → inv (foldl (λ s o, (run_op o s).1) s ops).
Proof.
  induction ops as [|o ops IH]; intros s Hs; [done|]. cbn. by apply IH, scratch_op_kept.
Qed.

(** ** A reservation that only its request releases *)
Definition foreign (i : nat) (o : op) : Prop := match o with Release j => j ≠ i | _ => True end.
Definition held (i : nat) (k : string) (n : Z) s : Prop :=
  reservations s !! i = Some (ScratchReservation.mk k n false).

Lemma run_op_held o s i k n : held i k n s → foreign i o → held i k n (run_op o s).1.
Proof.
  unfold held. intros Hh Hf. destruct o as [k' m|j|]; cbn [run_op foreign] in *.
  - unfold reserve_scratch. IngressFacts.run. destruct (_ || _); [done|]. cbn.
    apply lookup_app_l_Some. done.
  - unfold release. IngressFacts.run. destruct (reservations s !! j) as [r|]; [|done].
    destruct (ScratchReservation.released r); [done|]. unfold release_scratch. IngressFacts.run.
    cbn [scratch scratch_by_key closed reservations].
    destruct (_ || _); cbn; by rewrite list_lookup_insert_ne.
  - done.
Qed.

Lemma others_held ops i k n : ∀ s, inv s → held i k n s → (∀ o, o ∈ ops → foreign i o) →
  let s' := foldl (λ s o, (run_op o s).1) s ops in inv s' ∧ held i k n s'.
Proof.
  induction ops as [|o ops IH]; intros s Hs Hh Hf; [done|]. cbn. apply IH.
  - by apply scratch_op_kept.
  - apply run_op_held; [done|]. apply Hf. left.
  - intros o' Ho. apply Hf. by right.
Qed.

(** A computation that keeps the reservation held, whatever it returns. *)
Definition keeps_held {A} (i : nat) (k : string) (n : Z) (m : M ProfileExecutor A) : Prop :=
  ∀ s, inv s → held i k n s → inv (m s).1 ∧ held i k n (m s).1.

Lemma keeps_held_bind {A B} i k n (m : M ProfileExecutor A) (f : A → M ProfileExecutor B) :
  keeps_held i k n m → (∀ a, keeps_held i k n (f a)) → keeps_held i k n (m ≫= f).
Proof.
  intros Hm Hf s Hs Hh. IngressFacts.run. destruct (Hm s Hs Hh) as [H1 H2].
  destruct (m s) as [s1 [a|e]]; [by apply Hf|done].
Qed.
Lemma keeps_held_await {A} i k n c (m : M ProfileExecutor A) :
  keeps_held i k n m → keeps_held i k n (await_completion c m).
Proof.
  intros Hm s Hs Hh. unfold await_completion. destruct (Hm s Hs Hh). by destruct (m s).
Qed.
Lemma keeps_held_others i k n ops : (∀ o, o ∈ ops → foreign i o) → keeps_held i k n (run_others ops).
Proof. intros Hf s Hs Hh. by apply others_held. Qed.
Lemma keeps_held_run {A} i k n p (f : result A) : keeps_held i k n (run p f).
Proof.
  intros s Hs Hh. unfold run. IngressFacts.run. destruct (closed s); [done|].
  destruct p; unfold within_limit; try done. destruct f as [|e]; [done|]. by destruct (is_value_error e).
Qed.
Lemma keeps_held_lift {A} i k n (r : result A) : keeps_held i k n (lift r).
Proof. by intros s Hs Hh. Qed.

(** The end of a request: the reservation is given back. *)
Lemma finally_released {A} i k n ops (m : M ProfileExecutor A) s :
  keeps_held i k n m → (∀ o, o ∈ ops → foreign i o) → inv s → held i k n s →
  ∃ s', finally m (run_others ops;; release i) s = (s', (m s).2) ∧ inv s' ∧
    reservations s' !! i = Some (ScratchReservation.mk k n true).
Proof.
  intros Hm Hf Hs Hh. unfold finally. destruct (Hm s Hs Hh) as [H1 H2].
  destruct (m s) as [s1 r]. cbn [fst snd] in *.
  destruct (others_held ops i k n s1 H1 H2 Hf) as [H3 H4]. unfold run_others.
  IngressFacts.run. set (s2 := foldl _ s1 ops) in *.
  destruct (release_spec i s2 _ H3 H4 eq_refl) as [E H5]. rewrite E.
  eexists. split; [done|]. split; [done|]. cbn. rewrite list_lookup_insert_eq; [done|].
  by eapply lookup_lt_Some.
Qed.

Definition all_foreign (i : nat) (w : Awaits) : Prop :=
  (∀ o, o ∈ Awaits.before w → foreign i o) ∧ ∀ o, o ∈ Awaits.after w → foreign i o.

Lemma profile_result_keeps pf i k n w endpoint ct : all_foreign i w →
  keeps_held i k n (profile_result pf w endpoint ct).
Proof.
  intros [Hb _]. unfold profile_result. destruct (Awaits.slot w); [by intros s Hs Hh|].
  apply keeps_held_bind; [apply keeps_held_await, keeps_held_lift|intros raw].
  apply keeps_held_bind.
  - destruct (bool_decide _); [|by intros s Hs Hh]. apply keeps_held_await.
    destruct (prescan_json_limits raw) as [|e]; [by intros s Hs Hh|].
    destruct (is_value_error e); by intros s Hs Hh.
  - intros _. apply keeps_held_bind; [by apply keeps_held_others|intros _].
    apply keeps_held_await, keeps_held_run.
Qed.
End ScratchFacts.

(** ** What the two requests return *)
Module RequestFacts.
Import ProfileExecutor.
Import Executor.
Implicit Types s : ProfileExecutor.

Lemma bind_ran {S A B} (m : M S A) (f : A → M S B) st st1 r : m st = (st1, r) →
  (m ≫= f) st = match r with Ok a => f a st1 | Err e => (st1, Err e) end.
Proof. intros E. IngressFacts.run. rewrite E. by destruct r. Qed.
Lemma finally_Ok {S A} (m : M S A) c st st' a : finally m c st = (st', Ok a) →
  ∃ st1, m st = (st1, Ok a).
Proof.
  unfold finally. destruct (m st) as [st1 r]. destruct (c st1) as [st2 [u|e]]; intros [= <- ->]. by exists st1.
Qed.
Lemma await_Ok {S A} c (m : M S A) st st' a : await_completion c m st = (st', Ok a) →
  c = false ∧ m st = (st', Ok a).
Proof. unfold await_completion. destruct (m st) as [st1 r]. destruct c; [done|]. by intros [= <- ->]. Qed.
Lemma run_Ok {A} p (f : result A) s s' a : run p f s = (s', Ok a) →
  p = Ran ∧ f = Ok a ∧ s' = s ∧ closed s = false.
Proof.
  unfold run. IngressFacts.run. destruct (closed s); [done|]. unfold within_limit.
  destruct p; try done. destruct f as [b|e]; [|by destruct (is_value_error e)].
  by intros [= <- ->].
Qed.

Section Requests.
Context (parse_float : ustr → float).

Lemma rewrite_Ok w size ct prepared known k s s' out :
  rewrite parse_float w size ct prepared known k s = (s', Ok out) →
  ∃ raw, Awaits.read w = Ok raw ∧ rewrite_worker parse_float raw ct prepared known = Ok out.
Proof.
  unfold rewrite. intros (s1 & i & _ & H)%M_bind_Ok. apply finally_Ok in H as [s2 H].
  destruct (Awaits.slot w); [done|]. apply M_bind_Ok in H as (s3 & raw & H1 & H).
  apply await_Ok in H1 as [_ H1]. apply M_bind_Ok in H as (s4 & [] & _ & H).
  apply await_Ok in H as [_ (_ & H & _)%run_Ok]. exists raw. split; [|done].
  unfold lift in H1. by injection H1.
Qed.

Lemma profile_Ok w endpoint size ct groups deadline k s s' p :
  profile parse_float w endpoint size ct groups deadline k s = (s', Ok p) →
  ∃ raw result alias group, Awaits.read w = Ok raw ∧
    (CertifiedEndpoint.model_locator endpoint = "json.model" → prescan_json_limits raw = Ok tt) ∧
    profile_worker parse_float (CertifiedEndpoint.name endpoint) raw ct = Ok result ∧
    (alias, group) ∈ groups ∧ ascii_text alias = ProfileResult.model_alias result ∧
    RequestProfile.validate p = Ok p ∧
    p = RequestProfile.mk group alias
        (ProfileResult.endpoint result) (ProfileResult.modality result)
        (ProfileResult.stream result) (ProfileResult.input_tokens_max result)
        (ProfileResult.output_tokens_max result) (ProfileResult.reasoning_tokens_max result)
        (ProfileResult.tools_count result) (ProfileResult.forced_tool_required result)
        (ProfileResult.response_schema_present result) (ProfileResult.history_turns result)
        deadline.
Proof.
  unfold profile. intros (s1 & i & _ & H)%M_bind_Ok. apply M_bind_Ok in H as (s2 & result & Hr & H).
  apply finally_Ok in Hr as [s3 Hr]. unfold profile_result in Hr.
  destruct (Awaits.slot w); [done|]. apply M_bind_Ok in Hr as (s4 & raw & H1 & Hr).
  apply await_Ok in H1 as [_ H1]. apply M_bind_Ok in Hr as (s5 & [] & Hpre & Hr).
  apply M_bind_Ok in Hr as (s6 & [] & _ & Hr). apply await_Ok in Hr as [_ (_ & Hr & _)%run_Ok].
  unfold lift in H1. injection H1 as _ H1.
  destruct (route_group groups _) as [[alias group]|] eqn:Eg; [|done].
  unfold route_group in Eg. apply List.find_some in Eg as [Hin Eg%bool_decide_eq_true_1].
  exists raw, result, alias, group. split; [done|]. split.
  { intros El. rewrite bool_decide_true in Hpre by done. apply await_Ok in Hpre as [_ Hpre].
    destruct (prescan_json_limits raw) as [[]|e]; [done|]. by destruct (is_value_error e). }
  split; [done|]. split; [by apply list_elem_of_In|]. split; [done|].
  unfold lift in H. injection H as _ H. pose proof H as H'. unfold RequestProfile.validate in H'.
  apply bind_Ok in H' as ([] & _ & H'). injection H' as <-. split; done.
Qed.
End Requests.
End RequestFacts.

Module ProfilerTheorems.
Import Executor RequestFacts.

(** Whatever other tasks reserve and release, and however a request ends (refused,
    answered, failed, timed out, cancelled while it waits or works), profiling and
    rewriting give their scratch back: afterwards their reservation is released or was
    never taken, the scratch in use is the sum of the reservations not yet released, in
    total and per client key, and neither is above its limit. *)
Theorem scratch_returned parse_float ops w endpoint size ct groups deadline prepared known k :
  let s := foldl (λ s o, (run_op o s).1) ProfileExecutor.init ops in
  let i := length (ProfileExecutor.reservations s) in
  ScratchFacts.all_foreign i w →
  (let '(s', r) := profile parse_float w endpoint size ct groups deadline k s in
   ScratchFacts.inv s' ∧
   (r = Err (ProfileError 429 "scratch_limit") ∧ s' = s ∨
    ProfileExecutor.reservations s' !! i = Some (ScratchReservation.mk k size true))) ∧
  (let '(s', r) := rewrite parse_float w size ct prepared known k s in
   ScratchFacts.inv s' ∧
   (r = Err (ProfileError 429 "scratch_limit") ∧ s' = s ∨
    ProfileExecutor.reservations s' !! i =
      Some (ScratchReservation.mk k (Z.min (size * 2) (DEFAULT_BODY_BYTES * 2)) true))).
Proof.
  intros s i Hw. assert (ScratchFacts.inv s) as Hs.
  { apply ScratchFacts.ops_inv, ScratchFacts.scratch_inv_init. }
  assert (∀ n, ScratchFacts.held i k n (ScratchFacts.reserved_state k n s)) as Hheld.
  { intros n. unfold ScratchFacts.held, i. cbn. by rewrite lookup_app_r, Nat.sub_diag by lia. }
  split.
  - unfold profile.
    destruct (ScratchFacts.reserve_cases k size s Hs) as [E|[E Hr]]; rewrite (bind_ran _ _ _ _ _ E);
      [by split; [|left]|].
    destruct (ScratchFacts.finally_released i k size (Awaits.after w)
      (profile_result parse_float w endpoint ct) _
      (ScratchFacts.profile_result_keeps parse_float i k size w endpoint ct Hw) (proj2 Hw) Hr (Hheld size))
      as (s' & E' & H1 & H2). rewrite (bind_ran _ _ _ _ _ E').
    destruct (profile_result _ _ _ _ _).2 as [result|e]; [|by split; [|right]].
    destruct (route_group _ _) as [[alias group]|]; by split; [|right].
  - unfold rewrite. set (n := Z.min (size * 2) (DEFAULT_BODY_BYTES * 2)).
    destruct (ScratchFacts.reserve_cases k n s Hs) as [E|[E Hr]]; rewrite (bind_ran _ _ _ _ _ E);
      [by split; [|left]|].
    match goal with |- context [finally ?m _ _] => set (body := m) end.
    assert (ScratchFacts.keeps_held i k n body) as Hbody.
    { unfold body. destruct (Awaits.slot w); [by intros st Hst Hh|].
      apply ScratchFacts.keeps_held_bind;
        [apply ScratchFacts.keeps_held_await, ScratchFacts.keeps_held_lift|intros raw].
      apply ScratchFacts.keeps_held_bind; [by apply ScratchFacts.keeps_held_others, Hw|intros _].
      apply ScratchFacts.keeps_held_await, ScratchFacts.keeps_held_run. }
    destruct (ScratchFacts.finally_released i k n (Awaits.after w) body _ Hbody (proj2 Hw) Hr (Hheld n))
      as (s' & E' & H1 & H2). cbv beta iota. fold i. rewrite E'.
    destruct (body _).2; by split; [|right].
Qed.

(** C8. What [rewrite] returns for a multipart endpoint is read by the program's own
    reader, under the same boundary, as: the request's parts with the certified hidden
    alias as the content of the model and the trusted fence as the content of one fence
    part, added when the request had none, without the fields a request may not set, and
    every other part byte for byte; no name occurs twice. The alias and the fence have to
    be without the client's delimiter, and the parts within the limit. *)
Theorem rewritten_multipart_fenced parse_float w size ct prepared known k s s' out boundary :
  PreparedDispatch.model_locator prepared = "multipart.model" →
  PreparedDispatch.fence_locator prepared = "multipart.metadata" →
  multipart_boundary ct = Ok boundary →
  insertable (text_bytes "--" ++ boundary) (text_bytes (PreparedDispatch.hidden_alias prepared)) →
  insertable (text_bytes "--" ++ boundary) (fence_value prepared) →
  rewrite parse_float w size ct prepared known k s = (s', Ok out) →
  ∃ raw parts, Awaits.read w = Ok raw ∧ multipart_parts raw ct = Ok (boundary, parts) ∧
    zlen out ≤ DEFAULT_BODY_BYTES ∧
    fenced_parts prepared known parts (rewritten_parts prepared known parts) ∧
    (zlen (rewritten_parts prepared known parts) ≤ MAX_MULTIPART_PARTS →
     multipart_parts out ct = Ok (boundary, rewritten_parts prepared known parts)).
Proof.
  intros Hm Hf Hb Ha Hv (raw & Hraw & H)%rewrite_Ok. unfold rewrite_worker in H.
  apply bind_Ok in H as (p & Hp & H). unfold PreparedDispatch.validate in Hp.
  apply bind_Ok in Hp as ([] & _ & Hp). injection Hp as <-. rewrite Hm in H.
  change (String.prefix "multipart." "multipart.model") with true in H. cbv iota in H.
  unfold rewrite_multipart in H. apply bind_Ok in H as ([b parts] & Hparts & H).
  apply bind_Ok in H as ([] & G & H). injection H as <-. apply raise_if_Ok, Z.ltb_ge in G.
  destruct (parts_Ok _ _ _ _ Hparts) as [Hb' Hread]. assert (b = boundary) as -> by congruence.
  destruct (delimiter_plain _ _ Hb) as (D1 & D2 & D3).
  assert (fence_field prepared = "metadata") as Eff by (unfold fence_field; by rewrite Hf).
  assert (model_field prepared = "model") as Emf by (unfold model_field; by rewrite Hm).
  assert (fence_field prepared ≠ model_field prepared) as Hne by (by rewrite Eff, Emf).
  exists raw, parts. split; [done|]. split; [done|]. split; [exact G|].
  split; [apply rewritten_fenced; [done|apply Hread]|]. intros Hcount.
  apply parts_of_assembled; [done..|].
  apply rewritten_read; try done; rewrite Eff.
  - apply contains_bytes_false. intros x t E.
    assert (contains_bytes (text_bytes "--") (fence_header "metadata") = true) as Hc; [|by vm_compute in Hc].
    apply contains_bytes_spec. exists x, (boundary ++ t). by rewrite E, <-app_assoc.
  - split; [by vm_compute|]. eexists. split; by vm_compute.
Qed.
End ProfilerTheorems.

(** ** Witnesses *)
Module ProfilerSamples.
Import Executor.
(** A conversion that knows one number. *)
Definition one_half (_ : ustr) : float := Finite false (FloatRepr.mk [0] [5] 0).
Lemma one_half_law : float_law one_half.
Proof.
  intros t n f [= <- <-]. split_and!; [|by left|done].
  split_and!; [|done|by left]. by repeat constructor.
Qed.

(** Text with single quotes for double ones. *)
Definition quoted (s : string) : bytes :=
  (λ c, if Ascii.eqb c "'" then QUOTE else c) <$> text_bytes s.
Definition json_prepared : PreparedDispatch :=
  match deployment_generation AdapterSamples.sha AdapterSamples.row AdapterSamples.contract with
  | Ok g =>
      match prepare_dispatch AdapterSamples.sha AdapterSamples.contract "chat" AdapterSamples.row g
              (GuardManifest.backend_manifest AdapterSamples.manifest) with
      | Ok p => p
      | Err _ => PreparedDispatch.mk "" "" "" "" "" [] "" "" "" "" []
      end
  | Err _ => PreparedDispatch.mk "" "" "" "" "" [] "" "" "" "" []
  end.
Definition multipart_prepared : PreparedDispatch :=
  let p := json_prepared in
  PreparedDispatch.mk (PreparedDispatch.endpoint p) (PreparedDispatch.method p)
    (PreparedDispatch.path p) "multipart.model" "multipart.metadata"
    (PreparedDispatch.execution_normalizers p) (PreparedDispatch.hidden_alias p)
    (PreparedDispatch.expected_deployment_id p) (PreparedDispatch.generation_id p)
    (PreparedDispatch.backend_manifest p) (PreparedDispatch.trusted_metadata p).
Definition awaits (raw : bytes) : Awaits := Awaits.mk None (Ok raw) false false [] Ran false [].

(** A request that forges a fence and sets a reserved field. *)
Definition json_body : bytes := quoted
  "{'model': 'gpt', 'temperature': 0.5, 'metadata': {'user': 7, 'llmmaxxing_guard': null}, 'api_key': 'x'}".
Definition json_rewritten : ProfileExecutor * result bytes :=
  rewrite one_half (awaits json_body) (zlen json_body) (text_bytes "application/json") json_prepared
    ["model"; "api_key"] "k" ProfileExecutor.init.
Definition rewritten_text (r : ProfileExecutor * result bytes) : bytes :=
  match r.2 with Ok out => out | Err _ => [] end.
Lemma json_rewritten_Ok : json_rewritten = (json_rewritten.1, Ok (rewritten_text json_rewritten)).
Proof. by vm_compute. Qed.

Definition lines (l : list bytes) : bytes := l ≫= λ b, b ++ CRLF.
Definition multipart_body : bytes := lines
  [text_bytes "--sep"; quoted "Content-Disposition: form-data; name='model'"; []; text_bytes "whisper";
   text_bytes "--sep"; quoted "Content-Disposition: form-data; name='api_key'"; []; text_bytes "x";
   text_bytes "--sep"; quoted "Content-Disposition: form-data; name='file'; filename='a.wav'";
   text_bytes "Content-Type: audio/wav"; []; text_bytes "RIFF"; text_bytes "--sep--"].
Definition multipart_type : bytes := text_bytes "multipart/form-data; boundary=sep".
Definition sample_parts : list MultipartPart :=
  match multipart_parts multipart_body multipart_type with Ok (_, parts) => parts | Err _ => [] end.
Lemma alias_insertable : insertable (text_bytes "--" ++ text_bytes "sep")
  (text_bytes (PreparedDispatch.hidden_alias multipart_prepared)).
Proof. split; [eexists; by vm_compute|split; by vm_compute]. Qed.
Lemma fence_insertable : insertable (text_bytes "--" ++ text_bytes "sep")
  (fence_value multipart_prepared).
Proof. split; [eexists; by vm_compute|split; by vm_compute]. Qed.
Definition multipart_rewritten : ProfileExecutor * result bytes :=
  rewrite one_half (awaits multipart_body) (zlen multipart_body) multipart_type multipart_prepared
    ["model"; "api_key"] "k" ProfileExecutor.init.
Lemma multipart_rewritten_Ok :
  multipart_rewritten = (multipart_rewritten.1, Ok (rewritten_text multipart_rewritten)).
Proof. by vm_compute. Qed.
(** The facts the witnesses need, each evaluated once. *)
Lemma json_locators : PreparedDispatch.model_locator json_prepared = "json.model" ∧
  PreparedDispatch.fence_locator json_prepared = "json.metadata".
Proof. by vm_compute. Qed.
Lemma json_alias : ascii_text (PreparedDispatch.hidden_alias json_prepared) = ascii_text "lmx/gpt".
Proof. by vm_compute. Qed.
Lemma api_key_reserved : reserved ["model"; "api_key"] (ascii_text "api_key") = true.
Proof. by vm_compute. Qed.
Lemma multipart_locators : PreparedDispatch.model_locator multipart_prepared = "multipart.model" ∧
  PreparedDispatch.fence_locator multipart_prepared = "multipart.metadata" ∧
  multipart_boundary multipart_type = Ok (text_bytes "sep").
Proof. by vm_compute. Qed.
Lemma multipart_body_parts : multipart_parts multipart_body multipart_type = Ok (text_bytes "sep", sample_parts).
Proof. by vm_compute. Qed.
Definition sent_parts : list MultipartPart := [
  MultipartPart.mk (quoted "Content-Disposition: form-data; name='model'") (text_bytes "model")
    (text_bytes "lmx/gpt");
  MultipartPart.mk (lines [quoted "Content-Disposition: form-data; name='file'; filename='a.wav'"] ++
      text_bytes "Content-Type: audio/wav")
    (text_bytes "file") (text_bytes "RIFF");
  MultipartPart.mk (fence_header "metadata") (text_bytes "metadata") (fence_value multipart_prepared)].
Lemma sample_rewritten : rewritten_parts multipart_prepared ["model"; "api_key"] sample_parts = sent_parts.
Proof. by vm_compute. Qed.
Lemma sent_count : zlen sent_parts ≤ MAX_MULTIPART_PARTS.
Proof. by vm_compute. Qed.
Lemma sample_read raw parts :
  Awaits.read (awaits multipart_body) = Ok raw →
  multipart_parts raw multipart_type = Ok (text_bytes "sep", parts) →
  (zlen (rewritten_parts multipart_prepared ["model"; "api_key"] parts) ≤ MAX_MULTIPART_PARTS →
   multipart_parts (rewritten_text multipart_rewritten) multipart_type =
     Ok (text_bytes "sep", rewritten_parts multipart_prepared ["model"; "api_key"] parts)) →
  multipart_parts (rewritten_text multipart_rewritten) multipart_type =
    Ok (text_bytes "sep", sent_parts).
Proof.
  intros Hraw Hp H. injection Hraw as <-. rewrite multipart_body_parts in Hp. injection Hp as <-.
  rewrite sample_rewritten in H. apply H, sent_count.
Qed.
End ProfilerSamples.

Lemma scratch_returned_witness :
  ScratchFacts.inv (Executor.profile ProfilerSamples.one_half
    (ProfilerSamples.awaits ProfilerSamples.json_body) AdapterSamples.endpoint 104
    (text_bytes "application/json") [("gpt", "group")] 1000 "k" ProfileExecutor.init).1.
Proof.
  pose proof (ProfilerTheorems.scratch_returned ProfilerSamples.one_half []
    (ProfilerSamples.awaits ProfilerSamples.json_body) AdapterSamples.endpoint 104
    (text_bytes "application/json") [("gpt", "group")] 1000 ProfilerSamples.json_prepared [] "k") as H.
  cbv zeta in H. destruct H as [H _]; [by split; intros o ?%elem_of_nil|].
  change (ScratchFacts.inv (let '(s', _) := Executor.profile ProfilerSamples.one_half
    (ProfilerSamples.awaits ProfilerSamples.json_body) AdapterSamples.endpoint 104
    (text_bytes "application/json") [("gpt", "group")] 1000 "k" (foldl
      (λ s o, (Executor.run_op o s).1) ProfileExecutor.init []) in s')).
  revert H. match goal with |- (let '(_, _) := ?e in _) → _ => destruct e end. by intros [? _].
Defined.


Lemma rewritten_multipart_fenced_witness :
  multipart_parts (ProfilerSamples.rewritten_text ProfilerSamples.multipart_rewritten)
    ProfilerSamples.multipart_type = Ok (text_bytes "sep", ProfilerSamples.sent_parts).
Proof.
  destruct ProfilerSamples.multipart_locators as (Hm & Hf & Hb).
  destruct (ProfilerTheorems.rewritten_multipart_fenced ProfilerSamples.one_half
    (ProfilerSamples.awaits ProfilerSamples.multipart_body) (zlen ProfilerSamples.multipart_body)
    ProfilerSamples.multipart_type ProfilerSamples.multipart_prepared ["model"; "api_key"] "k"
    ProfileExecutor.init ProfilerSamples.multipart_rewritten.1
    (ProfilerSamples.rewritten_text ProfilerSamples.multipart_rewritten) (text_bytes "sep")
    Hm Hf Hb ProfilerSamples.alias_insertable ProfilerSamples.fence_insertable
    ProfilerSamples.multipart_rewritten_Ok) as (raw & parts & Hraw & Hp & _ & _ & H).
  exact (ProfilerSamples.sample_read raw parts Hraw Hp H).
Defined.

(** ** Two divergences *)

(** A worker that exceeds its wall-clock limit is meant to be answered with status 503;
    the error raised for it is a [ValueError], which the outer handler turns into 422. *)
Lemma timeout_is_unprocessable {A} (f : result A) s : ProfileExecutor.closed s = false →
  Executor.run Executor.TimedOut f s =
    (s, Err (ProfileError 422 "profile_worker_unavailable")).
Proof. intros H. unfold Executor.run. IngressFacts.run. by rewrite H. Qed.

(** A number beyond the range of a float is accepted, and written as a literal that the
    same parser refuses. *)
Definition beyond_range (_ : ustr) : float := NonFinite (Infinity false).
Example overflow_is_not_json :
  let out := rewrite_json beyond_range
    (ProfilerSamples.quoted "{'model': 'gpt', 'temperature': 1e999}")
    ProfilerSamples.json_prepared [] in
  match out with
  | Ok bytes => parse_json beyond_range bytes = Err (ValueError "invalid_json_number")
  | Err _ => False
  end.
Proof. by vm_compute. Qed.
