(* ===== verification/ModelDump.v ===== *)
(** * The JSON dumps of the bundle's models

    [model_dump(mode="json")] of the models of [core/models.py]: an object of the
    fields in the order of the class, an enumeration as its value, a tuple as an array,
    [None] as [null]. *)
From S2P Require Export Wire.

(** ** The values of the vocabularies *)
Definition trigger_value (t : RouteTrigger) : string :=
  match t with
  | RouteTrigger.PRIMARY => "primary"
  | RouteTrigger.CAPACITY_SPILL => "capacity_spill"
  | RouteTrigger.FAILURE_FALLBACK => "failure_fallback"
  | RouteTrigger.QUOTA_FALLBACK => "quota_fallback"
  | RouteTrigger.MANUAL_EMERGENCY => "manual_emergency"
  | RouteTrigger.SHADOW => "shadow"
  end.
Definition strategy_value (s : RouteStrategy) : string :=
  match s with ORDERED_CAPACITY => "ordered_capacity" end.
Definition endpoint_value (e : EndpointKind) : string :=
  match e with
  | CHAT => "chat" | TEXT => "text" | EMBEDDINGS => "embeddings" | RERANK => "rerank"
  | AUDIO_SPEECH => "audio_speech" | AUDIO_TRANSCRIPTION => "audio_transcription"
  | IMAGE => "image"
  end.
Definition modality_value (m : Modality) : string :=
  match m with
  | Modality.CHAT => "chat" | Modality.TEXT => "text" | Modality.RESPONSES => "responses"
  | Modality.MESSAGES => "messages" | Modality.EMBEDDING => "embedding"
  | Modality.RERANK => "rerank" | Modality.AUDIO_SPEECH => "audio_speech"
  | Modality.AUDIO_TRANSCRIPTION => "audio_transcription"
  | Modality.AUDIO_TRANSLATION => "audio_translation" | Modality.IMAGE => "image"
  end.
Definition quota_status_value (s : QuotaDimensionStatus) : string :=
  match s with
  | QuotaDimensionStatus.KNOWN => "known" | QuotaDimensionStatus.UNKNOWN => "unknown"
  | QuotaDimensionStatus.ATTESTED_ABSENT => "attested_absent"
  end.
Definition feature_value (f : RequiredFeature) : string :=
  match f with
  | RequiredFeature.ORDERED_CAPACITY => "ordered_capacity"
  | RequiredFeature.WEIGHTED_FAIR_QUEUE => "weighted_fair_queue"
  | RequiredFeature.EXPIRY_DENY_OVERLAY => "expiry_deny_overlay"
  | RequiredFeature.EMERGENCY_LEG_ACTIVATION => "emergency_leg_activation"
  | RequiredFeature.SHADOW_LEGS => "shadow_legs"
  | RequiredFeature.CREDENTIAL_GENERATION_FENCE => "credential_generation_fence"
  end.
Definition key_state_value (s : KeyLifecycleState) : string :=
  match s with
  | KeyLifecycleState.DRAFT => "draft" | KeyLifecycleState.ENABLED => "enabled"
  | KeyLifecycleState.SUSPENDED => "suspended" | KeyLifecycleState.REVOKED => "revoked"
  end.
Definition verifier_status_value (s : CredentialVerifierStatus) : string :=
  match s with
  | CredentialVerifierStatus.ACTIVE => "active" | CredentialVerifierStatus.RETIRING => "retiring"
  | CredentialVerifierStatus.RETIRED => "retired" | CredentialVerifierStatus.EXPIRED => "expired"
  end.

(** ** The models *)
Module Dump.
Definition jarr {A} (f : A → Json) (l : list A) : Json := JArr (f <$> l).

Definition quota_dimension (q : QuotaDimension) : Json :=
  jobj [("status", jstr (quota_status_value (QuotaDimension.status q)));
        ("value", jopt JInt (QuotaDimension.value q))].

Definition provider_account (a : ProviderAccount) : Json :=
  jobj [("account_id", jstr (ProviderAccount.account_id a));
        ("display_name", jstr (ProviderAccount.display_name a));
        ("connection", jstr (ProviderAccount.connection a));
        ("provider_token", jstr (ProviderAccount.provider_token a));
        ("binding_ref", jstr (ProviderAccount.binding_ref a));
        ("credential_fingerprint", jopt jstr (ProviderAccount.credential_fingerprint a));
        ("credential_epoch", jopt JInt (ProviderAccount.credential_epoch a));
        ("parallel_limit", quota_dimension (ProviderAccount.parallel_limit a));
        ("local_parallel_ceiling", JInt (ProviderAccount.local_parallel_ceiling a));
        ("rpm_limit", quota_dimension (ProviderAccount.rpm_limit a));
        ("rpm_window_seconds", JInt (ProviderAccount.rpm_window_seconds a));
        ("tpm_limit", quota_dimension (ProviderAccount.tpm_limit a));
        ("tpm_window_seconds", JInt (ProviderAccount.tpm_window_seconds a));
        ("monthly_quota_units", quota_dimension (ProviderAccount.monthly_quota_units a));
        ("quota_units_per_attempt", JInt (ProviderAccount.quota_units_per_attempt a));
        ("monthly_reset_at_ms", jopt JInt (ProviderAccount.monthly_reset_at_ms a));
        ("state", jopt (λ s, jstr (AccountState.value s)) (ProviderAccount.state a))].

Definition leg_capabilities (c : LegCapabilities) : Json :=
  jobj [("endpoints", jarr (λ e, jstr (endpoint_value e)) (LegCapabilities.endpoints c));
        ("modalities", jarr (λ m, jstr (modality_value m)) (LegCapabilities.modalities c));
        ("context_tokens", JInt (LegCapabilities.context_tokens c));
        ("tools", JBool (LegCapabilities.tools c));
        ("forced_tool", JBool (LegCapabilities.forced_tool c));
        ("response_schema", JBool (LegCapabilities.response_schema c));
        ("streaming", JBool (LegCapabilities.streaming c));
        ("reasoning", JBool (LegCapabilities.reasoning c));
        ("history_continuation", JBool (LegCapabilities.history_continuation c));
        ("shadow", JBool (LegCapabilities.shadow c))].

Definition triggers (l : list RouteTrigger) : Json := jarr (λ t, jstr (trigger_value t)) l.

Definition authorized_leg (l : AuthorizedLeg) : Json :=
  jobj [("leg_id", jstr (AuthorizedLeg.leg_id l));
        ("account_id", jstr (AuthorizedLeg.account_id l));
        ("generation_id", jstr (AuthorizedLeg.generation_id l));
        ("order", JInt (AuthorizedLeg.order l));
        ("allowed_triggers", triggers (AuthorizedLeg.allowed_triggers l));
        ("capabilities", leg_capabilities (AuthorizedLeg.capabilities l))].

Definition route_leg_fields (l : RouteLeg) : list (string * Json) :=
  [("leg_id", jstr (RouteLeg.leg_id l));
   ("order", JInt (RouteLeg.order l));
   ("triggers", triggers (RouteLeg.triggers l));
   ("account_id", jstr (RouteLeg.account_id l));
   ("generation_id", jstr (RouteLeg.generation_id l));
   ("capabilities", leg_capabilities (RouteLeg.capabilities l))].
Definition route_leg (l : RouteLeg) : Json := jobj (route_leg_fields l).

Definition route_group (g : RouteGroupRevision) : Json :=
  jobj [("route_group_id", jstr (RouteGroupRevision.route_group_id g));
        ("name", jstr (RouteGroupRevision.name g));
        ("strategy", jstr (strategy_value (RouteGroupRevision.strategy g)));
        ("legs", jarr route_leg (RouteGroupRevision.legs g))].

Definition key_policy (p : KeyPolicyRevision) : Json :=
  jobj [("policy_id", jstr (KeyPolicyRevision.policy_id p));
        ("name", jstr (KeyPolicyRevision.name p));
        ("route_group_ids", jarr jstr (KeyPolicyRevision.route_group_ids p));
        ("authorized_legs", jarr authorized_leg (KeyPolicyRevision.authorized_legs p));
        ("queue_tier", JInt (KeyPolicyRevision.queue_tier p));
        ("queue_weight", JInt (KeyPolicyRevision.queue_weight p));
        ("max_concurrency", JInt (KeyPolicyRevision.max_concurrency p));
        ("max_waiters", JInt (KeyPolicyRevision.max_waiters p));
        ("deadline_ms", JInt (KeyPolicyRevision.deadline_ms p))].

Definition credential_verifier (v : ClientCredentialVerifier.t) : Json :=
  jobj [("generation", JInt (ClientCredentialVerifier.generation v));
        ("verifier_hex", jstr (ClientCredentialVerifier.verifier_hex v));
        ("pepper_version", jstr (ClientCredentialVerifier.pepper_version v));
        ("not_before_s", JInt (ClientCredentialVerifier.not_before_s v));
        ("not_after_s", JInt (ClientCredentialVerifier.not_after_s v));
        ("status", jstr (verifier_status_value (ClientCredentialVerifier.status v)))].

Definition legacy_verifier (v : LegacyClientCredentialVerifier.t) : Json :=
  jobj [("generation", JInt (LegacyClientCredentialVerifier.generation v));
        ("fingerprint_hex", jstr (LegacyClientCredentialVerifier.fingerprint_hex v));
        ("pepper_version", jstr (LegacyClientCredentialVerifier.pepper_version v));
        ("not_before_s", JInt (LegacyClientCredentialVerifier.not_before_s v));
        ("not_after_s", JInt (LegacyClientCredentialVerifier.not_after_s v));
        ("status", jstr (verifier_status_value (LegacyClientCredentialVerifier.status v)))].

Definition key_record (r : ClientKeyRecord) : Json :=
  jobj [("key_id", jstr (ClientKeyRecord.key_id r));
        ("policy_id", jstr (ClientKeyRecord.policy_id r));
        ("state", jstr (key_state_value (ClientKeyRecord.state r)));
        ("issued_at_s", JInt (ClientKeyRecord.issued_at_s r));
        ("expires_at_s", JInt (ClientKeyRecord.expires_at_s r));
        ("time_high_water_s", JInt (ClientKeyRecord.time_high_water_s r));
        ("generation_high_water", JInt (ClientKeyRecord.generation_high_water r));
        ("credential_verifiers", jarr credential_verifier (ClientKeyRecord.credential_verifiers r));
        ("legacy_verifiers", jarr legacy_verifier (ClientKeyRecord.legacy_verifiers r))].

Definition bundle (b : PolicyBundleV1) : Json :=
  jobj [("schema_version", JInt (PolicyBundleV1.schema_version b));
        ("generation", JInt (PolicyBundleV1.generation b));
        ("min_reader", jstr (PolicyBundleV1.min_reader b));
        ("required_features", jarr (λ f, jstr (feature_value f)) (PolicyBundleV1.required_features b));
        ("keys", jarr key_record (PolicyBundleV1.keys b));
        ("policies", jarr key_policy (PolicyBundleV1.policies b));
        ("accounts", jarr provider_account (PolicyBundleV1.accounts b));
        ("route_groups", jarr route_group (PolicyBundleV1.route_groups b));
        ("backend_manifest_hash", jstr (PolicyBundleV1.backend_manifest_hash b))].
End Dump.

(** What [canonical_bundle_bytes] dumps: the bundle validated again. *)
Definition validated_bundle_dump (b : PolicyBundleV1) : result Json :=
  b ← PolicyBundleV1.validate b; mret (Dump.bundle b).
Definition bundle_bytes (b : PolicyBundleV1) : result bytes :=
  canonical_bundle_bytes validated_bundle_dump b.
