(* ===== verification/Config.v ===== *)
(** * The configuration compiler

    [config/schema.py] and [config/compile.py]: what an operator writes (new policy
    revisions with macros for their queue settings, selectors over account labels and
    clones of applied policies), and its compilation into a bundle of exact identifiers.
    Each model is a Record in a Module of its name with its field constraints and
    validators.  The JSON Schema that Pydantic generates is not modelled.  Python
    iterates over sets of accounts; the model iterates over them in list order, which
    decides only which of several errors is the one raised. *)
From S2P Require Export ModelDump.
From Stdlib Require Import Ascii.

(** [^[a-z][tail]{0,63}$] *)
Definition lower_class : charclass := in_range "a" "z".
Definition is_slug (tail : charclass) (s : string) : bool :=
  match String.list_ascii_of_string s with
  | [] => false
  | c :: cs => lower_class c && forallb tail cs && (Z.of_nat (length cs) <=? 63)
  end.
Definition slug_class : charclass := λ c,
  lower_class c || in_range "0" "9" c || Ascii.eqb c "_" || Ascii.eqb c "-".
(** [_MACRO_NAME], [_LABEL_NAME], [_NAME] and [_LABEL_VALUE] *)
Definition is_macro_name : string → bool := is_slug slug_class.
Definition is_label_name : string → bool := is_slug (λ c, slug_class c || Ascii.eqb c ".").
Definition is_name (s : string) : bool := bounded (Some 1) (Some 120) (str_len s).

(** [_ACCOUNT_SELECTOR] *)
Definition selector_ok (selector : dict string string) : bool :=
  bounded (Some 1) (Some 16) (zlen selector) &&
  forallb (λ p : string * string, is_label_name p.1 && is_name p.2) selector.

Definition SOURCE_DOMAIN : bytes := literal_bytes "llmmaxxing.authoring.v1" ++ [byte_of 0].

(** A field that may be [None]. *)
Definition if_given {A} (f : A → bool) (o : option A) : bool :=
  match o with Some x => f x | None => true end.

(** Queue settings, by the field's name. *)
Module QueueField.
Inductive t := queue_tier | queue_weight | max_concurrency | max_waiters | deadline_ms.
Definition ok (field : t) (value : Z) : bool :=
  match field with
  | queue_tier => 0 <=? value
  | queue_weight => bounded (Some 1) (Some 64) value
  | max_concurrency => 1 <=? value
  | max_waiters => 0 <=? value
  | deadline_ms => bounded (Some 1) (Some 9000000) value
  end.
End QueueField.
Abbreviation QueueField := QueueField.t.
(** [_QUEUE_FIELDS] of [config/compile.py] *)
Definition QUEUE_FIELDS : list QueueField :=
  [QueueField.queue_tier; QueueField.queue_weight; QueueField.max_concurrency;
   QueueField.max_waiters; QueueField.deadline_ms].

Module PolicyMacro.
Record t := mk {
  queue_tier : Z;
  queue_weight : Z;
  max_concurrency : Z;
  max_waiters : Z;
  deadline_ms : Z;
}.
(** [getattr(macro, field)] *)
Definition getattr (m : t) (field : QueueField) : Z :=
  match field with
  | QueueField.queue_tier => queue_tier m
  | QueueField.queue_weight => queue_weight m
  | QueueField.max_concurrency => max_concurrency m
  | QueueField.max_waiters => max_waiters m
  | QueueField.deadline_ms => deadline_ms m
  end.
Definition fields_ok (m : t) : bool :=
  forallb (λ f, QueueField.ok f (getattr m f)) QUEUE_FIELDS.
Definition dump (m : t) : Json :=
  jobj [("queue_tier", JInt (queue_tier m)); ("queue_weight", JInt (queue_weight m));
        ("max_concurrency", JInt (max_concurrency m)); ("max_waiters", JInt (max_waiters m));
        ("deadline_ms", JInt (deadline_ms m))].
End PolicyMacro.
Abbreviation PolicyMacro := PolicyMacro.t.

Module AuthoringPolicy.
Record t := mk {
  policy_id : string;
  name : option string;
  clone_from_policy_id : option string;
  rebind_shared : bool;
  macro : option string;
  route_group_ids : option (list string);
  account_ids : option (list string);
  account_selector : option (dict string string);
  allowed_triggers : option (list RouteTrigger);
  queue_tier : option Z;
  queue_weight : option Z;
  max_concurrency : option Z;
  max_waiters : option Z;
  deadline_ms : option Z;
}.
Definition getattr (p : t) (field : QueueField) : option Z :=
  match field with
  | QueueField.queue_tier => queue_tier p
  | QueueField.queue_weight => queue_weight p
  | QueueField.max_concurrency => max_concurrency p
  | QueueField.max_waiters => max_waiters p
  | QueueField.deadline_ms => deadline_ms p
  end.

Definition fields_ok (p : t) : bool :=
  is_ok (typed_id_new PolicyRevisionId (policy_id p)) &&
  if_given is_name (name p) &&
  if_given (λ i, is_ok (typed_id_new PolicyRevisionId i)) (clone_from_policy_id p) &&
  if_given is_macro_name (macro p) &&
  if_given (λ l, (1 <=? zlen l) && forallb (λ i, is_ok (typed_id_new RouteGroupId i)) l)
    (route_group_ids p) &&
  if_given (λ l, (1 <=? zlen l) && forallb (λ i, is_ok (typed_id_new AccountId i)) l)
    (account_ids p) &&
  if_given selector_ok (account_selector p) &&
  if_given (λ l, 1 <=? zlen l) (allowed_triggers p) &&
  forallb (λ f, if_given (QueueField.ok f) (getattr p f)) QUEUE_FIELDS.

(** [_nonempty_unique_tuple] *)
Definition nonempty_unique_tuple {A} `{EqDecision A} (value : option (list A)) : result unit :=
  match value with
  | None => mret tt
  | Some l =>
      raise_if (bool_decide (l = [])) (ValueError "explicit authoring membership cannot be empty");;
      raise_if (has_duplicates l) (ValueError "duplicate authoring membership value")
  end.

(** [_authoring_mode_is_unambiguous] *)
Definition authoring_mode_is_unambiguous (p : t) : result unit :=
  raise_if (bool_decide (is_Some (account_ids p)) && bool_decide (is_Some (account_selector p)))
    (ValueError "use either exact account_ids or account_selector, never both");;
  raise_if (negb (bool_decide (is_Some (clone_from_policy_id p))) &&
            negb (bool_decide (is_Some (account_ids p))) &&
            negb (bool_decide (is_Some (account_selector p))))
    (ValueError "a direct policy requires account_ids or account_selector");;
  raise_if (rebind_shared p && negb (bool_decide (is_Some (clone_from_policy_id p))))
    (ValueError "rebind_shared requires clone_from_policy_id");;
  raise_if (bool_decide (clone_from_policy_id p = Some (policy_id p)))
    (ValueError "a policy revision cannot clone itself").

Definition validate (p : t) : result t :=
  raise_if (negb (fields_ok p)) field_error;;
  nonempty_unique_tuple (route_group_ids p);;
  nonempty_unique_tuple (account_ids p);;
  nonempty_unique_tuple (allowed_triggers p);;
  authoring_mode_is_unambiguous p;;
  mret p.

Definition dump (p : t) : Json :=
  jobj [("policy_id", jstr (policy_id p)); ("name", jopt jstr (name p));
        ("clone_from_policy_id", jopt jstr (clone_from_policy_id p));
        ("rebind_shared", JBool (rebind_shared p)); ("macro", jopt jstr (macro p));
        ("route_group_ids", jopt (Dump.jarr jstr) (route_group_ids p));
        ("account_ids", jopt (Dump.jarr jstr) (account_ids p));
        ("account_selector", jopt (λ d, jobj ((λ q, (q.1, jstr q.2)) <$> d)) (account_selector p));
        ("allowed_triggers", jopt Dump.triggers (allowed_triggers p));
        ("queue_tier", jopt JInt (queue_tier p)); ("queue_weight", jopt JInt (queue_weight p));
        ("max_concurrency", jopt JInt (max_concurrency p));
        ("max_waiters", jopt JInt (max_waiters p)); ("deadline_ms", jopt JInt (deadline_ms p))].
End AuthoringPolicy.
Abbreviation AuthoringPolicy := AuthoringPolicy.t.

Module AuthoringConfigV1.
Record t := mk {
  schema_version : Z;
  macros : dict string PolicyMacro;
  policies : list AuthoringPolicy;
}.
(** [_policy_ids_are_unique] *)
Definition policy_ids_are_unique (c : t) : result unit :=
  raise_if (has_duplicates (AuthoringPolicy.policy_id <$> policies c))
    (ValueError "duplicate authoring policy_id").
(** [_macros_exist] *)
Definition macros_exist (c : t) : result unit :=
  raise_if (existsb (λ p, negb (if_given (λ m, dmem m (macros c)) (AuthoringPolicy.macro p))) (policies c))
    (ValueError "unknown authoring macro(s)").

Definition validate (c : t) : result t :=
  raise_if (negb ((schema_version c =? 1) &&
    forallb (λ p : string * PolicyMacro, is_macro_name p.1 && PolicyMacro.fields_ok p.2) (macros c) &&
    (1 <=? zlen (policies c)))) field_error;;
  policies' ← validate_all AuthoringPolicy.validate (policies c);
  policy_ids_are_unique (mk (schema_version c) (macros c) policies');;
  macros_exist (mk (schema_version c) (macros c) policies');;
  mret (mk (schema_version c) (macros c) policies').

Definition dump (c : t) : Json :=
  jobj [("schema_version", JInt (schema_version c));
        ("macros", jobj ((λ q, (q.1, PolicyMacro.dump q.2)) <$> macros c));
        ("policies", Dump.jarr AuthoringPolicy.dump (policies c))].
End AuthoringConfigV1.
Abbreviation AuthoringConfigV1 := AuthoringConfigV1.t.

Definition authoring_fingerprint (sha256 : bytes → bytes) (config : AuthoringConfigV1) :
    result string :=
  validated ← AuthoringConfigV1.validate config;
  canonical ← canonical_json_bytes (AuthoringConfigV1.dump validated);
  content_hash sha256 canonical SOURCE_DOMAIN.

(** ** [config/compile.py] *)
(** The labels discovery found; the snapshot is read, never kept. *)
Module DiscoverySnapshot.
Record t := mk { labels : dict string (dict string string) }.
End DiscoverySnapshot.
Abbreviation DiscoverySnapshot := DiscoverySnapshot.t.

Module Compile.
(** [_pick]: [macro] is the macro's value of the field, and absent for a field that is
    not one of [_QUEUE_FIELDS]. *)
Definition pick {A} (explicit macro inherited : option A) (field : string) : result A :=
  match explicit, macro, inherited with
  | Some x, _, _ => Ok x
  | None, Some x, _ => Ok x
  | None, None, Some x => Ok x
  | None, None, None => Err (ValueError (String.append "direct policy requires " field))
  end.

(** [all(account_labels.get(key) == value for key, value in selector.items())] *)
Definition selects (selector : dict string string) (account_labels : dict string string) : bool :=
  forallb (λ p : string * string, bool_decide (dget p.1 account_labels = Some p.2)) selector.

(** [_selected_accounts] *)
Definition selected_accounts (spec : AuthoringPolicy) (source : option KeyPolicyRevision)
    (labels : dict string (dict string string)) : result (list string) :=
  selected ← match AuthoringPolicy.account_ids spec, AuthoringPolicy.account_selector spec, source with
    | Some ids, _, _ => mret ids
    | None, Some selector, _ =>
        let matched := dkeys (List.filter (λ p : string * dict string string, selects selector p.2) labels) in
        raise_if (bool_decide (matched = []))
          (ValueError "account selector matched no accounts");;
        mret matched
    | None, None, Some source =>
        mret (remove_dups (AuthorizedLeg.account_id <$> KeyPolicyRevision.authorized_legs source))
    | None, None, None => Err (ValueError "direct policy requires account_ids or account_selector")
    end;
  mret (sorted_by id str_leb selected).

(** The triggers a clone inherits. *)
Definition inherited_triggers (source : KeyPolicyRevision) : list RouteTrigger :=
  sorted_by trigger_value str_leb
    (remove_dups (KeyPolicyRevision.authorized_legs source ≫= AuthorizedLeg.allowed_triggers)).

Definition authorization_changed (spec : AuthoringPolicy) : bool :=
  bool_decide (is_Some (AuthoringPolicy.route_group_ids spec)) ||
  bool_decide (is_Some (AuthoringPolicy.account_ids spec)) ||
  bool_decide (is_Some (AuthoringPolicy.account_selector spec)) ||
  bool_decide (is_Some (AuthoringPolicy.allowed_triggers spec)).

(** An account that a policy may grant. *)
Definition check_account (accounts : list ProviderAccount) (account_id : string) : result unit :=
  match List.find (λ a, bool_decide (ProviderAccount.account_id a = account_id)) accounts with
  | None => Err (ValueError "policy grants unknown account")
  | Some a =>
      raise_if (negb (bool_decide (ProviderAccount.state a = Some AccountState.ACTIVE)))
        (ValueError "policy grants non-active account")
  end.

(** The body of the loop over the legs of a group. *)
Definition project_leg (allowed_accounts : list string) (allowed_triggers : list RouteTrigger)
    (leg : RouteLeg) : result (list AuthorizedLeg) :=
  let triggers := List.filter (λ t, bool_decide (t ∈ allowed_triggers)) (RouteLeg.triggers leg) in
  if bool_decide (RouteLeg.account_id leg ∈ allowed_accounts) && negb (bool_decide (triggers = []))
  then
    authorized ← AuthorizedLeg.validate
      (AuthorizedLeg.mk (RouteLeg.leg_id leg) (RouteLeg.account_id leg) (RouteLeg.generation_id leg)
         (RouteLeg.order leg) triggers (RouteLeg.capabilities leg));
    mret [authorized]
  else mret [].

Definition index_groups (base : PolicyBundleV1) : dict string RouteGroupRevision :=
  dict_of ((λ g, (RouteGroupRevision.route_group_id g, g)) <$> PolicyBundleV1.route_groups base).

Definition project_group (groups : dict string RouteGroupRevision) (allowed_accounts : list string)
    (allowed_triggers : list RouteTrigger) (group_id : string) : result (list AuthorizedLeg) :=
  match dget group_id groups with
  | None => Err (ValueError "policy grants unknown route group")
  | Some g =>
      legs ← validate_all (project_leg allowed_accounts allowed_triggers) (RouteGroupRevision.legs g);
      mret (concat legs)
  end.

(** The legs a policy is given when its authorization is written or changed. *)
Definition projected_legs (spec : AuthoringPolicy) (source : option KeyPolicyRevision)
    (labels : dict string (dict string string)) (base : PolicyBundleV1)
    (route_group_ids : list string) : result (list AuthorizedLeg) :=
  allowed_accounts ← selected_accounts spec source labels;
  allowed_triggers ← pick (AuthoringPolicy.allowed_triggers spec) None
    (inherited_triggers <$> source) "allowed_triggers";
  validate_all (check_account (PolicyBundleV1.accounts base)) allowed_accounts;;
  legs ← validate_all (project_group (index_groups base) allowed_accounts allowed_triggers) route_group_ids;
  raise_if (bool_decide (concat legs = [])) (ValueError "policy has no usable route");;
  mret (concat legs).

Definition policy_field (p : KeyPolicyRevision) (field : QueueField) : Z :=
  match field with
  | QueueField.queue_tier => KeyPolicyRevision.queue_tier p
  | QueueField.queue_weight => KeyPolicyRevision.queue_weight p
  | QueueField.max_concurrency => KeyPolicyRevision.max_concurrency p
  | QueueField.max_waiters => KeyPolicyRevision.max_waiters p
  | QueueField.deadline_ms => KeyPolicyRevision.deadline_ms p
  end.

(** [_materialize_policy] *)
Definition materialize_policy (spec : AuthoringPolicy) (source : option KeyPolicyRevision)
    (macro : option PolicyMacro) (labels : dict string (dict string string)) (base : PolicyBundleV1) :
    result KeyPolicyRevision :=
  groups ← pick (AuthoringPolicy.route_group_ids spec) None
    (KeyPolicyRevision.route_group_ids <$> source) "route_group_ids";
  let route_group_ids := sorted_by id str_leb groups in
  authorized_legs ← match source with
    | Some source =>
        if authorization_changed spec then projected_legs spec (Some source) labels base route_group_ids
        else mret (KeyPolicyRevision.authorized_legs source)
    | None => projected_legs spec None labels base route_group_ids
    end;
  name ← pick (AuthoringPolicy.name spec) None (KeyPolicyRevision.name <$> source) "name";
  let queue (field : QueueField) (text : string) :=
    pick (AuthoringPolicy.getattr spec field) ((λ m, PolicyMacro.getattr m field) <$> macro)
      ((λ p, policy_field p field) <$> source) text in
  queue_tier ← queue QueueField.queue_tier "queue_tier";
  queue_weight ← queue QueueField.queue_weight "queue_weight";
  max_concurrency ← queue QueueField.max_concurrency "max_concurrency";
  max_waiters ← queue QueueField.max_waiters "max_waiters";
  deadline_ms ← queue QueueField.deadline_ms "deadline_ms";
  KeyPolicyRevision.validate
    (KeyPolicyRevision.mk (AuthoringPolicy.policy_id spec) name route_group_ids authorized_legs
       queue_tier queue_weight max_concurrency max_waiters deadline_ms).

(** [_validate_runtime_routes] *)
Definition check_runtime_account (accounts : dict string ProviderAccount) (l : AuthorizedLeg) : result unit :=
  match dget (AuthorizedLeg.account_id l) accounts with
  | None => Err (ValueError "policy grants unknown account")
  | Some a =>
      raise_if (negb (bool_decide (ProviderAccount.state a = Some AccountState.ACTIVE)))
        (ValueError "policy grants non-active account")
  end.
Definition check_runtime_group (groups : dict string RouteGroupRevision) (covered : list string)
    (group_id : string) : result unit :=
  raise_if (negb (dmem group_id groups)) (ValueError "policy grants unknown route group");;
  raise_if (negb (bool_decide (group_id ∈ covered)))
    (ValueError "policy has no usable route for route group").
Definition covered_group (leg_groups : dict string string) (l : AuthorizedLeg) : result string :=
  match dget (AuthorizedLeg.leg_id l) leg_groups with
  | Some g => Ok g
  | None => Err (KeyError "leg_groups")
  end.
Definition validate_runtime_routes (policy : KeyPolicyRevision) (base : PolicyBundleV1) : result unit :=
  let accounts := dict_of ((λ a, (ProviderAccount.account_id a, a)) <$> PolicyBundleV1.accounts base) in
  let leg_groups := PolicyBundleV1.leg_groups (PolicyBundleV1.route_groups base) in
  validate_all (check_runtime_account accounts) (KeyPolicyRevision.authorized_legs policy);;
  covered ← validate_all (covered_group leg_groups) (KeyPolicyRevision.authorized_legs policy);
  validate_all (check_runtime_group (index_groups base) covered) (KeyPolicyRevision.route_group_ids policy);;
  mret tt.

(** What the loop over the written policies has gathered. *)
Record additions := {
  added : list KeyPolicyRevision;
  rebinds : dict string string;
}.

(** A shared rebind moves every key of the cloned policy to the new one. *)
Definition rebind_keys (base : PolicyBundleV1) (spec : AuthoringPolicy) (rebinds : dict string string) :
    result (dict string string) :=
  if AuthoringPolicy.rebind_shared spec then
    match AuthoringPolicy.clone_from_policy_id spec with
    | None => Err AssertionError
    | Some source =>
        raise_if (dmem source rebinds) (ValueError "multiple shared rebinds from policy");;
        raise_if (negb (existsb (λ k, bool_decide (ClientKeyRecord.policy_id k = source))
                          (PolicyBundleV1.keys base)))
          (ValueError "shared rebind source policy has no keys");;
        mret (dset source (AuthoringPolicy.policy_id spec) rebinds)
    end
  else mret rebinds.

Definition index_policies (base : PolicyBundleV1) : dict string KeyPolicyRevision :=
  dict_of ((λ p, (KeyPolicyRevision.policy_id p, p)) <$> PolicyBundleV1.policies base).

Definition clone_source (base : PolicyBundleV1) (spec : AuthoringPolicy) :
    result (option KeyPolicyRevision) :=
  match AuthoringPolicy.clone_from_policy_id spec with
  | None => mret None
  | Some i =>
      match dget i (index_policies base) with
      | None => Err (ValueError "unknown clone source policy")
      | Some p => mret (Some p)
      end
  end.

(** The body of the loop over the written policies. *)
Definition add_policy (config : AuthoringConfigV1) (labels : dict string (dict string string))
    (base : PolicyBundleV1) (so_far : additions) (spec : AuthoringPolicy) : result additions :=
  source ← clone_source base spec;
  let macro := AuthoringPolicy.macro spec ≫= λ m, dget m (AuthoringConfigV1.macros config) in
  materialized ← materialize_policy spec source macro labels base;
  validate_runtime_routes materialized base;;
  rebinds' ← rebind_keys base spec (rebinds so_far);
  mret {| added := added so_far ++ [materialized]; rebinds := rebinds' |}.

Definition rebound (rebinds : dict string string) (k : ClientKeyRecord) : ClientKeyRecord :=
  k{{ ClientKeyRecord.policy_id :=
        dget_or (ClientKeyRecord.policy_id k) (ClientKeyRecord.policy_id k) rebinds }}.

(** [compile_authoring] *)
Definition compile_authoring (config : AuthoringConfigV1) (discovery : DiscoverySnapshot)
    (base : PolicyBundleV1) : result PolicyBundleV1 :=
  config ← AuthoringConfigV1.validate config;
  base ← PolicyBundleV1.validate base;
  let labels := DiscoverySnapshot.labels discovery in
  raise_if (existsb (λ i, negb (bool_decide (i ∈ ProviderAccount.account_id <$> PolicyBundleV1.accounts base)))
              (dkeys labels))
    (ValueError "discovery contains account IDs absent from the applied bundle");;
  raise_if (existsb (λ s, dmem (AuthoringPolicy.policy_id s) (index_policies base))
              (AuthoringConfigV1.policies config))
    (ValueError "immutable policy revision ID already exists");;
  result ← fold_result (add_policy config labels base) {| added := []; rebinds := [] |}
    (AuthoringConfigV1.policies config);
  PolicyBundleV1.validate
    (PolicyBundleV1.mk (PolicyBundleV1.schema_version base) (PolicyBundleV1.generation base + 1)
       (PolicyBundleV1.min_reader base) (PolicyBundleV1.required_features base)
       (sorted_by ClientKeyRecord.key_id str_leb (rebound (rebinds result) <$> PolicyBundleV1.keys base))
       (sorted_by KeyPolicyRevision.policy_id str_leb (PolicyBundleV1.policies base ++ added result))
       (sorted_by ProviderAccount.account_id str_leb (PolicyBundleV1.accounts base))
       (sorted_by RouteGroupRevision.route_group_id str_leb (PolicyBundleV1.route_groups base))
       (PolicyBundleV1.backend_manifest_hash base)).
End Compile.
