(* ===== verification/ConfigProps.v ===== *)
(** * What the configuration compiler may and may not do

    The policies it adds grant no more than what was written or cloned allows, on legs
    and accounts of the base; nothing else of the base changes. *)
From S2P Require Export Config KeyLifecycle.
From Stdlib Require Import Ascii.
#[local] Open Scope Z_scope.

(** ** Validation returns what it validated *)
Module ValidationFacts.
Lemma route_leg_validated l l' : RouteLeg.validate l = Ok l' → l' = l.
Proof. unfold RouteLeg.validate. intros H. inv_ok H. done. Qed.
Lemma authorized_leg_validated l l' : AuthorizedLeg.validate l = Ok l' → l' = l.
Proof. by intros [-> _]%LegFacts.leg_validate_Ok. Qed.
Lemma key_validated r r' : ClientKeyRecord.validate r = Ok r' → r' = r.
Proof. apply KeyLifecycleFacts.key_validate_id. Qed.

Lemma validate_all_perm {A} (f : A → result A) l m :
  Forall (λ x, f x = Ok x) l → l ≡ₚ m → validate_all f m = Ok m.
Proof. intros H Hp. apply validate_all_id. by rewrite <-Hp. Qed.

Lemma group_validated g g' : RouteGroupRevision.validate g = Ok g' → RouteGroupRevision.validate g' = Ok g'.
Proof.
  unfold RouteGroupRevision.validate. intros H. inv_ok H.
  apply (validate_all_same _ _ _ route_leg_validated) in G0 as [-> Hl].
  subst g'. destruct g as [i n s legs]; cbn in *.
  assert (RouteLeg.sorted_legs legs ≡ₚ legs) as Hp by apply sorted_by_perm.
  rewrite raise_if_pass.
  2: { rewrite orb_false_iff in G |- *. destruct G as [-> G]. split; [done|].
    apply bool_decide_eq_false in G. apply bool_decide_eq_false. intros E. apply G.
    change (RouteLeg.sorted_legs legs = []) in E. rewrite E in Hp. by apply Permutation_nil_l in Hp. }
  rewrite (validate_all_perm _ _ _ Hl) by done. cbn.
  rewrite raise_if_pass by (bprop; by rewrite Hp). do 2 f_equal.
  apply sorted_by_id, sorted_by_sorted, pair_leb_order; apply _.
Qed.

Lemma policy_validated p p' : KeyPolicyRevision.validate p = Ok p' → KeyPolicyRevision.validate p' = Ok p'.
Proof.
  unfold KeyPolicyRevision.validate. intros H. inv_ok H.
  apply (validate_all_same _ _ _ authorized_leg_validated) in G2 as [-> Hl].
  subst p'. destruct p as [i n gs legs ? ? ? ? ?]; cbn in *.
  assert (AuthorizedLeg.sorted_legs legs ≡ₚ legs) as Hp by apply sorted_by_perm.
  rewrite raise_if_pass.
  2: { rewrite !orb_false_iff in G |- *. destruct G as [[-> ->] G]. split; [done|].
    apply bool_decide_eq_false in G. apply bool_decide_eq_false. intros E. apply G.
    change (AuthorizedLeg.sorted_legs legs = []) in E. rewrite E in Hp. by apply Permutation_nil_l in Hp. }
  rewrite !raise_if_pass by done.
  rewrite (validate_all_perm _ _ _ Hl) by done. cbn.
  rewrite raise_if_pass by (bprop; by rewrite Hp). do 2 f_equal.
  apply sorted_by_id, sorted_by_sorted, pair_leb_order; apply _.
Qed.

Lemma account_validated a a' : ProviderAccount.validate a = Ok a' → ProviderAccount.validate a' = Ok a'.
Proof. by intros (_ & _ & _ & _ & H)%account_validation_conservative. Qed.

(** What a validated bundle holds is valid as it is. *)
Record valid_parts (b : PolicyBundleV1) : Prop := {
  vp_keys : Forall (λ k, ClientKeyRecord.validate k = Ok k) (PolicyBundleV1.keys b);
  vp_policies : Forall (λ p, KeyPolicyRevision.validate p = Ok p) (PolicyBundleV1.policies b);
  vp_accounts : Forall (λ a, ProviderAccount.validate a = Ok a) (PolicyBundleV1.accounts b);
  vp_groups : Forall (λ g, RouteGroupRevision.validate g = Ok g) (PolicyBundleV1.route_groups b);
  vp_exact : PolicyBundleV1.exact_membership b = Ok tt;
}.

Lemma all_validated {A} (f : A → result A) l l' : (∀ x y, f x = Ok y → f y = Ok y) →
  validate_all f l = Ok l' → Forall (λ x, f x = Ok x) l'.
Proof. intros Hf. rewrite validate_all_Ok. induction 1; constructor; eauto. Qed.

Lemma bundle_validated b b' : PolicyBundleV1.validate b = Ok b' → valid_parts b'.
Proof.
  intros H. pose proof (BundleFacts.validate_exact _ _ H) as Hex.
  unfold PolicyBundleV1.validate in H. inv_ok H. subst b'.
  split; cbn; [| | | |done].
  - eapply all_validated; [|done]. intros k k' Hk. by rewrite <-(key_validated _ _ Hk) in Hk.
  - eapply all_validated; [apply policy_validated|done].
  - eapply all_validated; [apply account_validated|done].
  - eapply all_validated; [apply group_validated|done].
Qed.
End ValidationFacts.

Lemma Forall2_impl_r {A B} (P Q : A → B → Prop) l k :
  Forall2 P l k → (∀ x y, y ∈ k → P x y → Q x y) → Forall2 Q l k.
Proof. induction 1; intros Hpq; constructor; set_solver. Qed.

(** ** What a written policy may be given *)
Module CompileFacts.
Import Compile ValidationFacts.
Implicit Types (spec : AuthoringPolicy) (source : option KeyPolicyRevision).

(** The accounts a written policy chooses: those it names, those whose labels its
    selector matches, or those of the policy it clones. *)
Definition account_choice spec source (labels : dict string (dict string string)) (i : string) : Prop :=
  match AuthoringPolicy.account_ids spec, AuthoringPolicy.account_selector spec with
  | Some ids, _ => i ∈ ids
  | None, Some selector => ∃ found, (i, found) ∈ labels ∧
      ∀ k v, (k, v) ∈ selector → dget k found = Some v
  | None, None => ∃ q l, source = Some q ∧ l ∈ KeyPolicyRevision.authorized_legs q ∧
      AuthorizedLeg.account_id l = i
  end.
Definition trigger_choice spec source (t : RouteTrigger) : Prop :=
  match AuthoringPolicy.allowed_triggers spec with
  | Some ts => t ∈ ts
  | None => ∃ q l, source = Some q ∧ l ∈ KeyPolicyRevision.authorized_legs q ∧
      t ∈ AuthorizedLeg.allowed_triggers l
  end.
Definition group_choice spec source (gs : list string) : Prop :=
  match AuthoringPolicy.route_group_ids spec with
  | Some ids => gs ≡ₚ ids
  | None => ∃ q, source = Some q ∧ gs ≡ₚ KeyPolicyRevision.route_group_ids q
  end.

Lemma pick_Ok {A} (explicit macro inherited : option A) f x : pick explicit macro inherited f = Ok x →
  explicit = Some x ∨ explicit = None ∧ (macro = Some x ∨ macro = None ∧ inherited = Some x).
Proof. destruct explicit, macro, inherited; cbn; intros [= <-]; auto. Qed.

Lemma selected_Ok spec source labels ids i :
  selected_accounts spec source labels = Ok ids → i ∈ ids → account_choice spec source labels i.
Proof.
  unfold selected_accounts, account_choice. intros H Hi. apply bind_Ok in H as (sel & H & E).
  injection E as <-. rewrite elem_of_sorted_by in Hi.
  destruct (AuthoringPolicy.account_ids spec) as [l|]; [by injection H as <-|].
  destruct (AuthoringPolicy.account_selector spec) as [s|].
  - inv_ok H. subst sel. apply list_elem_of_fmap in Hi as ([j found] & -> & Hi).
    apply list_elem_of_In, filter_In in Hi as [Hi Hs]. exists found.
    split; [by apply list_elem_of_In|]. intros k v Hkv%list_elem_of_In.
    unfold selects in Hs. rewrite forallb_forall in Hs. specialize (Hs _ Hkv). by bprop in Hs.
  - destruct source as [q|]; [|done]. injection H as <-.
    apply elem_of_remove_dups, list_elem_of_fmap in Hi as (l & -> & Hl). by exists q, l.
Qed.

Lemma project_leg_Ok accounts triggers r ls l : project_leg accounts triggers r = Ok ls → l ∈ ls →
  AuthorizedLeg.account_id l ∈ accounts ∧ AuthorizedLeg.allowed_triggers l ⊆ triggers.
Proof.
  unfold project_leg. case_bool_decide as Ha; cbn [andb].
  2: { intros [= <-]. by intros ?%elem_of_nil. }
  destruct (negb _); [|intros [= <-]; by intros ?%elem_of_nil].
  intros H Hl. inv_ok H. subst ls. apply authorized_leg_validated in G as ->.
  apply list_elem_of_singleton in Hl as ->. cbn. split; [done|].
  intros t Ht%list_elem_of_In. apply filter_In in Ht as [_ Ht]. by bprop in Ht.
Qed.

Lemma project_group_Ok groups accounts triggers i ls l :
  project_group groups accounts triggers i = Ok ls → l ∈ ls →
  AuthorizedLeg.account_id l ∈ accounts ∧ AuthorizedLeg.allowed_triggers l ⊆ triggers.
Proof.
  unfold project_group. destruct (dget i groups) as [g|]; [|done]. intros H Hl. inv_ok H. subst ls.
  apply list_elem_of_In, in_concat in Hl as (m & Hm%list_elem_of_In & Hl%list_elem_of_In).
  destruct (BundleFacts.validate_all_elem_r _ _ _ _ G Hm) as (r & Hr & _). by eapply project_leg_Ok.
Qed.

Lemma projected_Ok spec source labels base gs legs l :
  projected_legs spec source labels base gs = Ok legs → l ∈ legs →
  account_choice spec source labels (AuthorizedLeg.account_id l) ∧
  ∀ t, t ∈ AuthorizedLeg.allowed_triggers l → trigger_choice spec source t.
Proof.
  unfold projected_legs. intros H Hl. apply bind_Ok in H as (accounts & Ha & H).
  apply bind_Ok in H as (triggers & Ht & H). apply bind_Ok in H as (us & _ & H).
  apply bind_Ok in H as (parts & Hp & H). inv_ok H. subst legs.
  apply list_elem_of_In, in_concat in Hl as (m & Hm%list_elem_of_In & Hl%list_elem_of_In).
  destruct (BundleFacts.validate_all_elem_r _ _ _ _ Hp Hm) as (i & Hi & _).
  destruct (project_group_Ok _ _ _ _ _ _ Hi Hl) as [H1 H2]. split; [by eapply selected_Ok|].
  intros t Hin. apply H2 in Hin. unfold trigger_choice.
  apply pick_Ok in Ht as [->|[-> [[=]|[_ Ht]]]]; [done|]. destruct source as [q|]; [|done].
  injection Ht as <-. unfold inherited_triggers in Hin.
  rewrite elem_of_sorted_by, elem_of_remove_dups, list_elem_of_bind in Hin.
  destruct Hin as (l' & Hin & Hl'). by exists q, l'.
Qed.

(** A policy compiled from [spec], but for the legs of the base it stands on. *)
Record materialized_from spec source (macro : option PolicyMacro)
    (labels : dict string (dict string string)) (p : KeyPolicyRevision) : Prop := {
  mf_id : KeyPolicyRevision.policy_id p = AuthoringPolicy.policy_id spec;
  mf_valid : KeyPolicyRevision.validate p = Ok p;
  mf_groups : group_choice spec source (KeyPolicyRevision.route_group_ids p);
  mf_legs : ∀ l, l ∈ KeyPolicyRevision.authorized_legs p →
    account_choice spec source labels (AuthorizedLeg.account_id l) ∧
    ∀ t, t ∈ AuthorizedLeg.allowed_triggers l → trigger_choice spec source t;
  mf_queue : ∀ f, ∃ text, pick (AuthoringPolicy.getattr spec f)
      ((λ m, PolicyMacro.getattr m f) <$> macro) ((λ q, policy_field q f) <$> source) text =
    Ok (policy_field p f);
}.

Lemma unchanged_choice spec q labels l : authorization_changed spec = false →
  l ∈ KeyPolicyRevision.authorized_legs q →
  account_choice spec (Some q) labels (AuthorizedLeg.account_id l) ∧
  ∀ t, t ∈ AuthorizedLeg.allowed_triggers l → trigger_choice spec (Some q) t.
Proof.
  unfold authorization_changed, account_choice, trigger_choice.
  destruct (AuthoringPolicy.route_group_ids spec), (AuthoringPolicy.account_ids spec),
    (AuthoringPolicy.account_selector spec), (AuthoringPolicy.allowed_triggers spec);
    try (intros H; vm_compute in H; discriminate H). intros _ Hl. split; [by exists q, l|].
  intros t Ht. by exists q, l.
Qed.

Lemma materialize_Ok spec source macro labels base p :
  materialize_policy spec source macro labels base = Ok p → materialized_from spec source macro labels p.
Proof.
  unfold materialize_policy. intros H. apply bind_Ok in H as (gs & Hg & H). cbv zeta in H.
  apply bind_Ok in H as (legs & Hlegs & H). apply bind_Ok in H as (name & _ & H).
  apply bind_Ok in H as (v1 & Q1 & H). apply bind_Ok in H as (v2 & Q2 & H).
  apply bind_Ok in H as (v3 & Q3 & H). apply bind_Ok in H as (v4 & Q4 & H).
  apply bind_Ok in H as (v5 & Q5 & H). pose proof (policy_validated _ _ H) as Hv.
  unfold KeyPolicyRevision.validate in H. inv_ok H. subst p. cbn in Hv |- *.
  apply (validate_all_same _ _ _ authorized_leg_validated) in G2 as [-> _].
  split; cbn; [done|exact Hv| | |].
  - unfold group_choice. pose proof (sorted_by_perm id str_leb gs) as Hp.
    apply pick_Ok in Hg as [->|[-> [[=]|[_ Hg]]]]; [done|]. destruct source as [q|]; [|done].
    injection Hg as Hg. exists q. split; [done|]. by rewrite Hg.
  - intros l Hl. apply elem_of_sorted_by in Hl.
    destruct source as [q|]; [|by eapply projected_Ok].
    destruct (authorization_changed spec) eqn:E; [by eapply projected_Ok|].
    injection Hlegs as <-. by apply unchanged_choice.
  - intros []; eexists; eassumption.
Qed.

(** ** The legs of a compiled policy run on active accounts of the base *)
Lemma runtime_routes_Ok p base l : validate_runtime_routes p base = Ok tt →
  l ∈ KeyPolicyRevision.authorized_legs p →
  ∃ a, a ∈ PolicyBundleV1.accounts base ∧ ProviderAccount.account_id a = AuthorizedLeg.account_id l ∧
    ProviderAccount.state a = Some AccountState.ACTIVE.
Proof.
  unfold validate_runtime_routes. intros H Hl. apply bind_Ok in H as (us & H & _).
  destruct (BundleFacts.validate_all_elem _ _ _ _ H Hl) as ([] & Hc & _).
  unfold check_runtime_account in Hc. destruct (dget _ _) as [a|] eqn:E; [|done].
  apply raise_if_Ok in Hc. bprop in Hc. apply dget_dict_of, list_elem_of_fmap in E as (a' & [= Ei ->] & Ha).
  by exists a'.
Qed.

(** ** The loop *)
Section Loop.
Context (config : AuthoringConfigV1) (labels : dict string (dict string string)) (base : PolicyBundleV1).

Definition macro_of spec : option PolicyMacro :=
  AuthoringPolicy.macro spec ≫= λ m, dget m (AuthoringConfigV1.macros config).
Definition compiled_from spec (p : KeyPolicyRevision) : Prop :=
  ∃ source, clone_source base spec = Ok source ∧
    materialized_from spec source (macro_of spec) labels p ∧
    validate_runtime_routes p base = Ok tt.
Definition rebinding spec (old new : string) : Prop :=
  AuthoringPolicy.rebind_shared spec = true ∧ AuthoringPolicy.clone_from_policy_id spec = Some old ∧
  AuthoringPolicy.policy_id spec = new.

Lemma rebind_keys_Ok spec r r' : rebind_keys base spec r = Ok r' → ∀ old new,
  dget old r' = Some new ↔ dget old r = Some new ∨ rebinding spec old new.
Proof.
  unfold rebind_keys, rebinding. destruct (AuthoringPolicy.rebind_shared spec).
  2: { intros [= ->] old new. naive_solver. }
  destruct (AuthoringPolicy.clone_from_policy_id spec) as [i|]; [|done]. intros H. inv_ok H. subst r'.
  intros old new. rewrite dget_dset. apply dmem_false in G. case_decide as E; [subst i|naive_solver].
  rewrite G. naive_solver.
Qed.

Lemma add_policy_Ok s spec s' : add_policy config labels base s spec = Ok s' →
  ∃ p, added s' = added s ++ [p] ∧ compiled_from spec p ∧
    ∀ old new, dget old (rebinds s') = Some new ↔ dget old (rebinds s) = Some new ∨ rebinding spec old new.
Proof.
  unfold add_policy. intros H. apply bind_Ok in H as (source & Hs & H). cbv zeta in H.
  apply bind_Ok in H as (p & Hp & H). apply bind_Ok in H as ([] & Hr & H).
  apply bind_Ok in H as (r & Hb & H). injection H as <-. exists p. cbn. split; [done|].
  split; [|by eapply rebind_keys_Ok]. exists source. split; [done|]. split; [|done].
  by eapply materialize_Ok.
Qed.

Lemma fold_add specs s s' : fold_result (add_policy config labels base) s specs = Ok s' →
  ∃ ps, added s' = added s ++ ps ∧ Forall2 compiled_from specs ps ∧
    ∀ old new, dget old (rebinds s') = Some new ↔
      dget old (rebinds s) = Some new ∨ ∃ spec, spec ∈ specs ∧ rebinding spec old new.
Proof.
  revert s. induction specs as [|spec specs IH]; intros s; cbn.
  { intros [= <-]. exists []. rewrite app_nil_r. split_and!; [done|constructor|].
    intros old new. split; [by left|]. intros [?|(? & []%elem_of_nil & _)]; done. }
  intros H. apply bind_Ok in H as (s1 & H1 & H). apply add_policy_Ok in H1 as (p & E1 & Hp & R1).
  apply IH in H as (ps & E & Hps & R). exists (p :: ps). rewrite E, E1, <-app_assoc.
  split_and!; [done|by constructor|]. intros old new. rewrite R, R1. set_solver.
Qed.
End Loop.
End CompileFacts.

(** ** The compiled bundle *)
Module CompiledBundle.
Import Compile ValidationFacts CompileFacts.

Lemma policy_spec_validated p p' : AuthoringPolicy.validate p = Ok p' → p' = p.
Proof. unfold AuthoringPolicy.validate. intros H. inv_ok H. done. Qed.
Lemma config_validated c c' : AuthoringConfigV1.validate c = Ok c' → c' = c.
Proof.
  unfold AuthoringConfigV1.validate. intros H. inv_ok H.
  apply (validate_all_same _ _ _ policy_spec_validated) in G0 as [-> _]. subst. by destruct c.
Qed.

Lemma elem_of_dkeys_dict_of {K V} `{EqDecision K} k (l : list (K * V)) : k ∈ dkeys (dict_of l) ↔ k ∈ l.*1.
Proof.
  induction l as [|p l IH] using rev_ind; [done|].
  rewrite dict_of_app, elem_of_dkeys_dset, fmap_app, elem_of_app, IH. cbn [fmap list_fmap].
  rewrite list_elem_of_singleton. tauto.
Qed.

Lemma dmem_index_policies base i : dmem i (index_policies base) = true ↔
  ∃ p, p ∈ PolicyBundleV1.policies base ∧ KeyPolicyRevision.policy_id p = i.
Proof.
  unfold index_policies. rewrite dmem_true. split.
  - intros H%dget_is_Some. destruct H as [p Hp]. apply dget_dict_of, list_elem_of_fmap in Hp as (p' & [= -> ->] & Hp).
    by exists p'.
  - intros (p & Hp & <-). apply elem_of_dkeys_dict_of. rewrite <-list_fmap_compose.
    by apply (list_elem_of_fmap_2 KeyPolicyRevision.policy_id).
Qed.

(** The bundle before its last validation. *)
Definition assembled (base : PolicyBundleV1) (result : additions) : PolicyBundleV1 :=
  PolicyBundleV1.mk (PolicyBundleV1.schema_version base) (PolicyBundleV1.generation base + 1)
    (PolicyBundleV1.min_reader base) (PolicyBundleV1.required_features base)
    (sorted_by ClientKeyRecord.key_id str_leb (rebound (rebinds result) <$> PolicyBundleV1.keys base))
    (sorted_by KeyPolicyRevision.policy_id str_leb (PolicyBundleV1.policies base ++ added result))
    (sorted_by ProviderAccount.account_id str_leb (PolicyBundleV1.accounts base))
    (sorted_by RouteGroupRevision.route_group_id str_leb (PolicyBundleV1.route_groups base))
    (PolicyBundleV1.backend_manifest_hash base).

Lemma validated_same {A} (f : A → result A) l l' : Forall (λ x, f x = Ok x) l →
  validate_all f l = Ok l' → l' = l.
Proof. intros Hl H. rewrite (validate_all_id _ _ Hl) in H. by injection H. Qed.

(** Validation changes nothing of what is assembled. *)
Lemma assembled_valid base result target : valid_parts base →
  Forall (λ p, KeyPolicyRevision.validate p = Ok p) (added result) →
  PolicyBundleV1.validate (assembled base result) = Ok target → target = assembled base result.
Proof.
  intros [_ Hp Ha Hg _] Hadd H. unfold PolicyBundleV1.validate in H. inv_ok H. subst target.
  unfold assembled in *. cbn [PolicyBundleV1.keys PolicyBundleV1.policies PolicyBundleV1.accounts
    PolicyBundleV1.route_groups] in *.
  apply (validate_all_same _ _ _ key_validated) in G0 as [-> _].
  apply validated_same in G1 as ->; [|rewrite sorted_by_perm; by apply Forall_app].
  apply validated_same in G2 as ->; [|by rewrite sorted_by_perm].
  apply validated_same in G3 as ->; [|by rewrite sorted_by_perm].
  done.
Qed.

Record compiled (config : AuthoringConfigV1) (discovery : DiscoverySnapshot)
    (base target : PolicyBundleV1) (written : list KeyPolicyRevision) (moves : dict string string) : Prop := {
  cp_target : target = assembled base {| added := written; rebinds := moves |};
  cp_written : Forall2 (compiled_from config (DiscoverySnapshot.labels discovery) base)
    (AuthoringConfigV1.policies config) written;
  cp_moves : ∀ old new, dget old moves = Some new ↔
    ∃ spec, spec ∈ AuthoringConfigV1.policies config ∧ rebinding spec old new;
  cp_fresh : ∀ spec p, spec ∈ AuthoringConfigV1.policies config → p ∈ PolicyBundleV1.policies base →
    KeyPolicyRevision.policy_id p ≠ AuthoringPolicy.policy_id spec;
  cp_valid : valid_parts target;
}.

Lemma compile_Ok config discovery base target :
  compile_authoring config discovery base = Ok target →
  ∃ base' written moves, PolicyBundleV1.validate base = Ok base' ∧
    compiled config discovery base' target written moves.
Proof.
  unfold compile_authoring. intros H. apply bind_Ok in H as (c & Hc & H).
  apply config_validated in Hc as ->. apply bind_Ok in H as (base' & Hb & H). cbv zeta in H.
  apply bind_Ok in H as ([] & _ & H). apply bind_Ok in H as ([] & Hnew & H).
  apply bind_Ok in H as ([written moves] & Hf & H). exists base', written, moves. split; [done|].
  apply fold_add in Hf as (ps & E & Hps & Hm). cbn in E, Hm. subst ps.
  pose proof (bundle_validated _ _ Hb) as Vb. pose proof (bundle_validated _ _ H) as Vt.
  apply assembled_valid in H; [|done|].
  2: { cbn. apply Forall_forall. intros p Hp. apply list_elem_of_lookup in Hp as [i Hi].
    destruct (Forall2_lookup_r _ _ _ _ _ Hps Hi) as (spec & _ & source & _ & M & _). by apply M. }
  split; [done..| | |done].
  - intros old new. rewrite Hm. naive_solver.
  - intros spec p Hs Hp E. apply raise_if_Ok in Hnew. rewrite existsb_false in Hnew.
    specialize (Hnew spec Hs). apply not_true_iff_false in Hnew. apply Hnew, dmem_index_policies.
    by exists p.
Qed.

Lemma target_policies base result : PolicyBundleV1.policies (assembled base result) ≡ₚ
  PolicyBundleV1.policies base ++ added result.
Proof. cbn. apply sorted_by_perm. Qed.
Lemma target_keys base result : PolicyBundleV1.keys (assembled base result) ≡ₚ
  rebound (rebinds result) <$> PolicyBundleV1.keys base.
Proof. cbn. apply sorted_by_perm. Qed.
Lemma target_groups base result : PolicyBundleV1.route_groups (assembled base result) ≡ₚ
  PolicyBundleV1.route_groups base.
Proof. cbn. apply sorted_by_perm. Qed.
Lemma target_accounts base result : PolicyBundleV1.accounts (assembled base result) ≡ₚ
  PolicyBundleV1.accounts base.
Proof. cbn. apply sorted_by_perm. Qed.

Lemma exact_policy_leg b p l : PolicyBundleV1.exact_membership b = Ok tt →
  p ∈ PolicyBundleV1.policies b → l ∈ KeyPolicyRevision.authorized_legs p →
  ∃ gid, gid ∈ KeyPolicyRevision.route_group_ids p ∧
    BundleFacts.grants_exactly (PolicyBundleV1.route_groups b) gid l.
Proof.
  intros Hm Hp Hl. unfold PolicyBundleV1.exact_membership in Hm. inv_ok Hm. bprop.
  destruct (BundleFacts.validate_all_elem _ _ _ _ G8 Hp) as ([] & Hc & _).
  unfold PolicyBundleV1.check_policy in Hc. inv_ok Hc.
  destruct (BundleFacts.validate_all_elem _ _ _ _ G10 Hl) as (gid & Hg & _).
  apply BundleFacts.check_authorized_leg_Ok in Hg as (_ & Hin & Hex); [|done]. by exists gid.
Qed.

Lemma exact_key_ids b : PolicyBundleV1.exact_membership b = Ok tt →
  NoDup (ClientKeyRecord.key_id <$> PolicyBundleV1.keys b).
Proof. unfold PolicyBundleV1.exact_membership. intros Hm. inv_ok Hm. by bprop. Qed.

Lemma grants_exactly_perm groups groups' gid l : groups ≡ₚ groups' →
  BundleFacts.grants_exactly groups gid l → BundleFacts.grants_exactly groups' gid l.
Proof.
  intros Hp (g & r & Hg & H). exists g, r. split; [by rewrite <-Hp|done].
Qed.
End CompiledBundle.

(** ** Rebinding keys *)
Module RebindFacts.
Import ClientKeyRecord Compile.
Implicit Types (k r : ClientKeyRecord).

Lemma rebound_id moves k : key_id (rebound moves k) = key_id k.
Proof. by destruct k. Qed.
Lemma rebound_same moves k : dget (policy_id k) moves = None → rebound moves k = k.
Proof. intros H. unfold rebound, dget_or. rewrite H. by destruct k. Qed.
Lemma rebound_policy moves k : policy_id (rebound moves k) = default (policy_id k) (dget (policy_id k) moves).
Proof. by destruct k. Qed.

(** The record of a key moved to another policy is accepted as a revision exactly when
    the key is not terminal and its rotation overlap is within the limit. *)
Lemma moved_delta k n : let r := k{{ policy_id := n }} in
  validate k = Ok k → validate r = Ok r → n ≠ policy_id k →
  validate_key_record_delta k r (Some (PolicyReassignment.mk (policy_id k) n)) = Ok tt ↔
  terminal k = false ∧ check_overlap k = Ok tt.
Proof.
  intros r Hk Hr Hn. unfold validate_key_record_delta. rewrite Hk, Hr. cbn [mbind result_bind].
  assert (key_id r = key_id k ∧ issued_at_s r = issued_at_s k ∧ time_high_water_s r = time_high_water_s k ∧
    expires_at_s r = expires_at_s k ∧ generation_high_water r = generation_high_water k ∧
    by_generation r = by_generation k ∧ check_overlap r = check_overlap k ∧ policy_id r = n)
    as (E1 & E2 & E3 & E4 & E5 & E6 & E7 & E8) by (by destruct k).
  assert (r ≠ k) as Hne by congruence.
  rewrite E1, E2, E3, E4, E5, E6, E7. rewrite raise_if_pass by (by rewrite bool_decide_true).
  rewrite raise_if_pass by (by rewrite Z.eqb_refl).
  destruct (terminal k); [rewrite bool_decide_false by done; by split; [|intros [? _]]|].
  rewrite !raise_if_pass by (apply Z.ltb_irrefl).
  unfold check_reassignment. rewrite E8. rewrite bool_decide_false by done. cbn [negb].
  cbn [PolicyReassignment.expected_policy_id PolicyReassignment.target_policy_id].
  rewrite !bool_decide_true by done. cbn [negb raise_if mbind result_bind]. rewrite Z.ltb_irrefl.
  cbn [raise_if mbind result_bind].
  assert (validate_all (check_existing (by_generation k)) (by_generation k) =
    Ok ((λ _, tt) <$> by_generation k)) as ->.
  { apply validate_all_Ok, Forall2_fmap_r, Forall_Forall2_diag, Forall_forall. intros [g v] Hv.
    apply elem_of_dget in Hv; [|apply dict_ok_dict_of]. unfold check_existing. cbn [fst snd]. rewrite Hv.
    apply KeyLifecycleFacts.validate_existing_verifier_Ok, KeyLifecycleFacts.key_contracts_refl. }
  cbn [mbind result_bind].
  assert (validate_all (check_new k r (by_generation k)) (by_generation k) =
    Ok ((λ _, tt) <$> by_generation k)) as ->.
  { apply validate_all_Ok, Forall2_fmap_r, Forall_Forall2_diag, Forall_forall. intros [g v] Hv.
    unfold check_new. cbn [fst snd].
    by rewrite (proj2 (dmem_true g (by_generation k)) (list_elem_of_fmap_2 fst _ _ Hv)). }
  cbn [mbind result_bind].
  assert (existsb (λ g, negb (dmem g (by_generation k))) (dkeys (by_generation k)) = false) as ->.
  { apply existsb_false. intros g Hg. by rewrite (proj2 (dmem_true _ _) Hg). }
  cbn [raise_if mbind result_bind]. destruct (check_overlap k); naive_solver.
Qed.

Lemma exact_reassignment before after r k :
  NoDup (key_id <$> before) → NoDup (key_id <$> after) → r ∈ after → k ∈ before → key_id k = key_id r →
  dget (key_id r) (exact_policy_reassignments before after) =
    if bool_decide (policy_id r = policy_id k) then None
    else Some (PolicyReassignment.mk (policy_id k) (policy_id r)).
Proof.
  intros Hb Ha Hr Hk Hid. unfold exact_policy_reassignments.
  set (f := λ r : ClientKeyRecord, _). set (items := omap f after).
  assert (dict_ok items) as Hok.
  { unfold dict_ok, dkeys, items. eapply sublist_NoDup; [exact Ha|].
    apply (omap_key_sublist f key_id fst). intros x [i y] Hx. unfold f in Hx.
    destruct (dget _ _); [|done]. cbn in Hx. case_bool_decide; [done|]. by injection Hx as <- _. }
  rewrite (dict_of_id _ Hok).
  assert (f r = if bool_decide (policy_id r = policy_id k) then None
    else Some (key_id r, PolicyReassignment.mk (policy_id k) (policy_id r))) as Hf.
  { unfold f. rewrite <-Hid, (KeyLifecycleFacts.dget_key_index _ _ Hb Hk). done. }
  case_bool_decide as E.
  - apply dget_None. intros ([i y] & Ei & (x & Hin & Hx)%list_elem_of_omap)%list_elem_of_fmap.
    cbn in Ei. subst i. assert (x = r) as ->; [|congruence].
    eapply (NoDup_key_inj key_id); [done..|]. unfold f in Hx.
    destruct (dget _ _); [|done]. cbn in Hx. case_bool_decide; [done|]. by injection Hx as <- _.
  - apply elem_of_dget; [done|]. apply list_elem_of_omap. by exists r.
Qed.

(** The whole set of keys. *)
Lemma rebound_set_delta before after moves :
  NoDup (key_id <$> before) → after ≡ₚ rebound moves <$> before →
  Forall (λ k, validate k = Ok k) before → Forall (λ k, validate k = Ok k) after →
  (∀ k n, k ∈ before → dget (policy_id k) moves = Some n → n ≠ policy_id k) →
  validate_key_record_set_delta before after (Some (exact_policy_reassignments before after)) = Ok tt ↔
  ∀ k, k ∈ before → is_Some (dget (policy_id k) moves) → terminal k = false ∧ check_overlap k = Ok tt.
Proof.
  intros Hb Hp Vb Va Hmove.
  assert (key_id <$> after ≡ₚ key_id <$> before) as Hids.
  { rewrite Hp, <-list_fmap_compose. apply Permutation_refl', list_fmap_ext. intros i k _. apply rebound_id. }
  assert (NoDup (key_id <$> after)) as Ha by (by rewrite Hids).
  rewrite Forall_forall in Vb. rewrite Forall_forall in Va.
  assert (∀ k, k ∈ before → rebound moves k ∈ after) as Hin.
  { intros k Hk. rewrite Hp. by apply list_elem_of_fmap_2. }
  assert (∀ k, k ∈ before → check_key_delta (key_index before) (exact_policy_reassignments before after)
      (key_id k, rebound moves k) = Ok tt ↔
    (is_Some (dget (policy_id k) moves) → terminal k = false ∧ check_overlap k = Ok tt)) as Hone.
  { intros k Hk. unfold check_key_delta. cbn [fst snd].
    rewrite (KeyLifecycleFacts.dget_key_index _ _ Hb Hk).
    rewrite <-(rebound_id moves k), (exact_reassignment before after (rebound moves k) k) by (rewrite ?rebound_id; auto).
    destruct (dget (policy_id k) moves) as [n|] eqn:E.
    - pose proof (Hmove _ _ Hk E) as Hn.
      assert (rebound moves k = k{{ policy_id := n }}) as Er by (unfold rebound, dget_or; by rewrite E).
      assert (policy_id (rebound moves k) = n) as Ep by (by rewrite rebound_policy, E).
      rewrite Ep, (bool_decide_false (n = _)) by done.
      rewrite bool_decide_false by (intros Ek; apply Hn; by rewrite <-Ep, <-Ek).
      rewrite Er. rewrite moved_delta; [|by apply Vb|rewrite <-Er; by apply Va, Hin|done]. naive_solver.
    - rewrite (rebound_same _ _ E), bool_decide_true by done. split; [|done]. intros _ [? [=]]. }
  unfold validate_key_record_set_delta.
  assert (existsb (λ i, negb (dmem i (key_index after))) (dkeys (key_index before)) = false) as ->.
  { apply existsb_false. intros i Hi. apply negb_false_iff, dmem_true.
    rewrite (KeyLifecycleFacts.key_index_items _ Ha), (KeyLifecycleFacts.key_index_items _ Hb) in *.
    unfold dkeys in *. rewrite <-list_fmap_compose in *. by rewrite Hids. }
  cbn [raise_if mbind result_bind from_option]. split.
  - intros H k Hk. apply bind_Ok in H as (us & H & _). apply Hone; [done|].
    destruct (BundleFacts.validate_all_elem _ _ _ (key_id k, rebound moves k) H) as ([] & Hc & _); [|done].
    rewrite (KeyLifecycleFacts.key_index_items _ Ha). apply list_elem_of_fmap. exists (rebound moves k).
    by rewrite rebound_id; auto.
  - intros H. apply bind_Ok. exists ((λ _, tt) <$> key_index after). split; [|done].
    apply validate_all_Ok, Forall2_fmap_r, Forall_Forall2_diag, Forall_forall. intros [i r] Hr.
    rewrite (KeyLifecycleFacts.key_index_items _ Ha) in Hr.
    apply list_elem_of_fmap in Hr as (r' & [= -> ->] & Hr'). rewrite Hp in Hr'.
    apply list_elem_of_fmap in Hr' as (k & -> & Hk). rewrite rebound_id. apply Hone; auto.
Qed.
End RebindFacts.

Module CompileTheorems.
Import Compile ValidationFacts CompileFacts CompiledBundle.

(** C28. Compiling adds policies of least authority.  A compiled bundle has the policies
    of the base, unchanged, and one policy for each written one, in order.  A leg of
    such a policy is, in one of the policy's route groups, a leg of the base of the same
    identity and capabilities, with triggers of that leg only; its account is an ACTIVE
    account of the base, one the source names, or whose discovered labels have every
    value of the selector, or, when the source chooses no account, one of the policy it
    clones; and its triggers are among those written, or those of the policy cloned.
    Its queue settings are those written, else the macro's, else those cloned. *)
Theorem compile_least_authority config discovery base target :
  compile_authoring config discovery base = Ok target →
  ∃ base' written, PolicyBundleV1.validate base = Ok base' ∧
    PolicyBundleV1.policies target ≡ₚ PolicyBundleV1.policies base' ++ written ∧
    Forall2 (λ spec p, ∃ source, clone_source base' spec = Ok source ∧
      materialized_from spec source (macro_of config spec) (DiscoverySnapshot.labels discovery) p ∧
      ∀ l, l ∈ KeyPolicyRevision.authorized_legs p →
        (∃ gid, gid ∈ KeyPolicyRevision.route_group_ids p ∧
           BundleFacts.grants_exactly (PolicyBundleV1.route_groups base') gid l) ∧
        ∃ a, a ∈ PolicyBundleV1.accounts base' ∧
          ProviderAccount.account_id a = AuthorizedLeg.account_id l ∧
          ProviderAccount.state a = Some AccountState.ACTIVE)
      (AuthoringConfigV1.policies config) written.
Proof.
  intros H. destruct (compile_Ok _ _ _ _ H) as (base' & written & moves & Hb & C).
  pose proof (cp_target _ _ _ _ _ _ C) as Ht. exists base', written. split; [done|].
  assert (PolicyBundleV1.policies target ≡ₚ PolicyBundleV1.policies base' ++ written) as Hp
    by (rewrite Ht; apply target_policies).
  split; [exact Hp|]. eapply Forall2_impl_r; [apply (cp_written _ _ _ _ _ _ C)|].
  intros spec p Hin (source & Hs & M & R). exists source. split; [done|]. split; [done|].
  intros l Hl. split; [|by eapply runtime_routes_Ok].
  destruct (exact_policy_leg target p l) as (gid & Hg & Hx); [apply (cp_valid _ _ _ _ _ _ C)| |done|].
  - rewrite Hp. apply elem_of_app. by right.
  - exists gid. split; [done|]. eapply grants_exactly_perm; [|exact Hx]. rewrite Ht. apply target_groups.
Qed.

(** C32. Compiling changes nothing else.  A compiled bundle is the next generation of the
    base, with its accounts, route groups, features and manifest; its keys are the base's
    but for the policy of those bound to a policy that a written policy clones and
    rebinds, which is then the written one.  The set of keys is an accepted revision of
    the base's, as every later step requires, exactly when no key so moved is terminal
    or has an overlong rotation overlap. *)
Theorem compile_preserves config discovery base target base' :
  compile_authoring config discovery base = Ok target → PolicyBundleV1.validate base = Ok base' →
  PolicyBundleV1.generation target = PolicyBundleV1.generation base' + 1 ∧
  PolicyBundleV1.accounts target ≡ₚ PolicyBundleV1.accounts base' ∧
  PolicyBundleV1.route_groups target ≡ₚ PolicyBundleV1.route_groups base' ∧
  PolicyBundleV1.required_features target = PolicyBundleV1.required_features base' ∧
  PolicyBundleV1.min_reader target = PolicyBundleV1.min_reader base' ∧
  PolicyBundleV1.backend_manifest_hash target = PolicyBundleV1.backend_manifest_hash base' ∧
  ∃ moves,
    (∀ old new, dget old moves = Some new ↔
       ∃ spec, spec ∈ AuthoringConfigV1.policies config ∧ rebinding spec old new) ∧
    PolicyBundleV1.keys target ≡ₚ rebound moves <$> PolicyBundleV1.keys base' ∧
    (validate_key_record_set_delta (PolicyBundleV1.keys base') (PolicyBundleV1.keys target)
       (Some (exact_policy_reassignments (PolicyBundleV1.keys base') (PolicyBundleV1.keys target))) = Ok tt ↔
     ∀ k, k ∈ PolicyBundleV1.keys base' → is_Some (dget (ClientKeyRecord.policy_id k) moves) →
       ClientKeyRecord.terminal k = false ∧ check_overlap k = Ok tt).
Proof.
  intros H Hb. destruct (compile_Ok _ _ _ _ H) as (base1 & written & moves & Hb1 & C).
  assert (base1 = base') as -> by congruence. destruct C as [Ht Hw Hm Hf Hv].
  pose proof (bundle_validated _ _ Hb) as Vb.
  assert (PolicyBundleV1.keys target ≡ₚ rebound moves <$> PolicyBundleV1.keys base') as Hk
    by (rewrite Ht; apply (target_keys base' {| added := written; rebinds := moves |})).
  split_and!; [by rewrite Ht|rewrite Ht; apply target_accounts|rewrite Ht; apply target_groups|by rewrite Ht..|].
  exists moves. split; [exact Hm|]. split; [exact Hk|]. apply RebindFacts.rebound_set_delta.
  - apply exact_key_ids, Vb.
  - exact Hk.
  - apply Vb.
  - apply Hv.
  - intros k n Hin (spec & Hs & _ & Hc & <-)%Hm E.
    rewrite Forall2_lookup in Hw. apply list_elem_of_lookup in Hs as [i Hi]. specialize (Hw i).
    rewrite Hi in Hw. inversion Hw as [? p (source & Hsrc & _ & _) E1 E2|]; subst.
    unfold clone_source in Hsrc. rewrite Hc in Hsrc.
    destruct (dget _ (index_policies base')) as [q|] eqn:Eq; [|done].
    assert (spec ∈ AuthoringConfigV1.policies config) as Hs by (by eapply list_elem_of_lookup_2).
    apply dget_dict_of, list_elem_of_fmap in Eq as (q' & [= Ei ->] & Hq).
    apply (Hf spec q' Hs Hq). congruence.
Qed.
End CompileTheorems.

(** ** Witnesses *)
Module ConfigSamples.
Import Compile.
Definition policy (c : string) : string := String.append "pol_" (Samples.uuid c).
Definition blank (i : string) : AuthoringPolicy :=
  AuthoringPolicy.mk i None None false None None None None None None None None None None.
(** A clone of the policy in force that takes its keys over at half the weight, and a
    new policy for the accounts with a label, whose queue settings are a macro's. *)
Definition config : AuthoringConfigV1 := AuthoringConfigV1.mk 1
  [("slow", PolicyMacro.mk 2 1 1 4 30000)]
  [(blank (policy "2")){{ AuthoringPolicy.clone_from_policy_id := Some Samples.policy }}
     {{ AuthoringPolicy.rebind_shared := true }}{{ AuthoringPolicy.queue_weight := Some 4 }};
   (blank (policy "3")){{ AuthoringPolicy.name := Some "batch" }}
     {{ AuthoringPolicy.macro := Some "slow" }}
     {{ AuthoringPolicy.route_group_ids := Some [Samples.group] }}
     {{ AuthoringPolicy.account_selector := Some [("region", "eu")] }}
     {{ AuthoringPolicy.allowed_triggers := Some [RouteTrigger.PRIMARY] }}].
Definition discovery : DiscoverySnapshot :=
  DiscoverySnapshot.mk [(Samples.account "1", [("region", "eu"); ("tier", "gold")])].
Definition with_keys (keys : list ClientKeyRecord) : PolicyBundleV1 :=
  Samples.bundle{{ PolicyBundleV1.keys := keys }}.
Definition compiled (base : PolicyBundleV1) : PolicyBundleV1 :=
  match compile_authoring config discovery base with Ok b => b | Err _ => base end.
Definition validated (base : PolicyBundleV1) : PolicyBundleV1 :=
  match PolicyBundleV1.validate base with Ok b => b | Err _ => base end.
Lemma compiled_Ok : compile_authoring config discovery Samples.bundle = Ok (compiled Samples.bundle).
Proof. by vm_compute. Qed.
Lemma validated_Ok : PolicyBundleV1.validate Samples.bundle = Ok (validated Samples.bundle).
Proof. by vm_compute. Qed.
Lemma compiled_policies : KeyPolicyRevision.policy_id <$> PolicyBundleV1.policies (compiled Samples.bundle) =
  [Samples.policy; policy "2"; policy "3"].
Proof. by vm_compute. Qed.
Lemma compiled_keys :
  ClientKeyRecord.policy_id <$> PolicyBundleV1.keys (compiled Samples.bundle) = [policy "2"].
Proof. by vm_compute. Qed.
Lemma keys_live : ∀ k, k ∈ PolicyBundleV1.keys (validated Samples.bundle) →
  ClientKeyRecord.terminal k = false ∧ check_overlap k = Ok tt.
Proof. intros k Hk. apply list_elem_of_singleton in Hk as ->. by vm_compute. Qed.

(** A revoked key is a tombstone that stays in every later bundle, bound to its policy. *)
Definition tombstone : ClientKeyRecord :=
  ClientKeyRecord.mk (String.append Samples.zeros "2") Samples.policy KeyLifecycleState.REVOKED 1000 100000
    2000 1 [Samples.first_verifier CredentialVerifierStatus.RETIRED 2000] [].
(** A shared rebind moves it too, and what is compiled is then refused as a revision. *)
Example tombstone_blocks_rebind :
  let base := with_keys [Samples.key_before; tombstone] in
  (ClientKeyRecord.policy_id <$> PolicyBundleV1.keys (compiled base)) = [policy "2"; policy "2"] ∧
  validate_key_record_set_delta (PolicyBundleV1.keys base) (PolicyBundleV1.keys (compiled base))
    (Some (exact_policy_reassignments (PolicyBundleV1.keys base) (PolicyBundleV1.keys (compiled base)))) =
  Err (ValueError "terminal key identity cannot resurrect or change").
Proof. by vm_compute. Qed.
End ConfigSamples.

Lemma compile_least_authority_witness :
  (KeyPolicyRevision.policy_id <$> PolicyBundleV1.policies (ConfigSamples.compiled Samples.bundle)) =
    [Samples.policy; ConfigSamples.policy "2"; ConfigSamples.policy "3"] ∧
  ∃ base' written, PolicyBundleV1.validate Samples.bundle = Ok base' ∧
    PolicyBundleV1.policies (ConfigSamples.compiled Samples.bundle) ≡ₚ
      PolicyBundleV1.policies base' ++ written.
Proof.
  split; [exact ConfigSamples.compiled_policies|].
  destruct (CompileTheorems.compile_least_authority ConfigSamples.config ConfigSamples.discovery
    Samples.bundle (ConfigSamples.compiled Samples.bundle) ConfigSamples.compiled_Ok)
    as (base' & written & Hb & Hp & _).
  exists base', written. split; [exact Hb|exact Hp].
Defined.

Lemma compile_preserves_witness :
  (ClientKeyRecord.policy_id <$> PolicyBundleV1.keys (ConfigSamples.compiled Samples.bundle)) =
    [ConfigSamples.policy "2"] ∧
  validate_key_record_set_delta (PolicyBundleV1.keys (ConfigSamples.validated Samples.bundle))
    (PolicyBundleV1.keys (ConfigSamples.compiled Samples.bundle))
    (Some (exact_policy_reassignments (PolicyBundleV1.keys (ConfigSamples.validated Samples.bundle))
       (PolicyBundleV1.keys (ConfigSamples.compiled Samples.bundle)))) = Ok tt.
Proof.
  split; [exact ConfigSamples.compiled_keys|].
  destruct (CompileTheorems.compile_preserves ConfigSamples.config ConfigSamples.discovery
    Samples.bundle (ConfigSamples.compiled Samples.bundle) (ConfigSamples.validated Samples.bundle)
    ConfigSamples.compiled_Ok ConfigSamples.validated_Ok)
    as (_ & _ & _ & _ & _ & _ & moves & _ & _ & H).
  apply H. intros k Hk _. exact (ConfigSamples.keys_live k Hk).
Defined.
