(* ===== verification/Impact.v ===== *)
(** * Impact plans and signed activations

    [config/plan.py]: the reviewable plan of a change, its fences over the applied base
    and the check that they still hold; [config/signing.py]: the envelope of a plan, its
    signature and the verification of one.  Python's sets of identities are lists
    without duplicates, sorted where the code sorts them.  An activation envelope of
    [config/signing.py] has the fields and the validation of the wire's
    [ActivationEnvelope], and its [_parse_canonical] is the one of the wire,
    [Wire.parse_canonical]. *)
From S2P Require Export ModelDump KeyLifecycle Adapter.
From Stdlib Require Import Ascii.
#[local] Open Scope Z_scope.

(** [_SOURCE_DOMAIN], [_SECURITY_DOMAIN], [_KEY_SET_DOMAIN] and [_IMPACT_DOMAIN] *)
Definition nul_terminated (s : string) : bytes := literal_bytes s ++ [byte_of 0].
Definition PLAN_SOURCE_DOMAIN : bytes := nul_terminated "llmmaxxing.source-fingerprint.v1".
Definition SECURITY_DOMAIN : bytes := nul_terminated "llmmaxxing.security-fence.v1".
Definition KEY_SET_DOMAIN : bytes := nul_terminated "llmmaxxing.key-set-fence.v1".
Definition IMPACT_DOMAIN : bytes := nul_terminated "llmmaxxing.impact.v1".

Module ExpectedKeyBinding.
Record t := mk { key_id : string; policy_id : string; generation_high_water : Z }.
#[global] Instance eq_dec : EqDecision t.
Proof. solve_decision. Defined.
Definition fields_ok (b : t) : bool :=
  is_hex32 (key_id b) && is_id PolicyRevisionId (policy_id b) && (1 <=? generation_high_water b).
Definition dump (b : t) : Json :=
  jobj [("key_id", jstr (key_id b)); ("policy_id", jstr (policy_id b));
        ("generation_high_water", JInt (generation_high_water b))].
End ExpectedKeyBinding.
Abbreviation ExpectedKeyBinding := ExpectedKeyBinding.t.

Module SemanticDiff.
Record t := mk {
  changed_key_ids : list string;
  changed_policy_ids : list string;
  changed_account_ids : list string;
  changed_route_group_ids : list string;
  changed_leg_ids : list string;
  backend_manifest_changed : bool;
  min_reader_changed : bool;
  required_features_changed : bool;
}.
#[global] Instance eq_dec : EqDecision t.
Proof. solve_decision. Defined.
Definition fields_ok (d : t) : bool :=
  forallb (is_id PolicyRevisionId) (changed_policy_ids d) &&
  forallb (is_id AccountId) (changed_account_ids d) &&
  forallb (is_id RouteGroupId) (changed_route_group_ids d) &&
  forallb (is_id RouteLegId) (changed_leg_ids d).
Definition dump (d : t) : Json :=
  jobj [("changed_key_ids", Dump.jarr jstr (changed_key_ids d));
        ("changed_policy_ids", Dump.jarr jstr (changed_policy_ids d));
        ("changed_account_ids", Dump.jarr jstr (changed_account_ids d));
        ("changed_route_group_ids", Dump.jarr jstr (changed_route_group_ids d));
        ("changed_leg_ids", Dump.jarr jstr (changed_leg_ids d));
        ("backend_manifest_changed", JBool (backend_manifest_changed d));
        ("min_reader_changed", JBool (min_reader_changed d));
        ("required_features_changed", JBool (required_features_changed d))].
End SemanticDiff.
Abbreviation SemanticDiff := SemanticDiff.t.

Module ImpactPlan.
Record t := mk {
  schema_version : Z;
  base_generation : Z;
  base_bundle_hash : string;
  base_source_fingerprint : string;
  source_fingerprint : string;
  security_fence : string;
  key_set_fence : string;
  expected_key_bindings : list ExpectedKeyBinding;
  target_generation : Z;
  target_content_hash : string;
  diff : SemanticDiff;
  affected_key_ids : list string;
  impact_hash : string;
}.
#[global] Instance eq_dec : EqDecision t.
Proof. solve_decision. Defined.
Definition fields_ok (p : t) : bool :=
  (schema_version p =? 1) && (1 <=? base_generation p) && is_id BundleHash (base_bundle_hash p) &&
  is_hex64 (base_source_fingerprint p) && is_hex64 (source_fingerprint p) &&
  is_hex64 (security_fence p) && is_hex64 (key_set_fence p) &&
  forallb ExpectedKeyBinding.fields_ok (expected_key_bindings p) &&
  (1 <=? target_generation p) && is_id BundleHash (target_content_hash p) &&
  SemanticDiff.fields_ok (diff p) && is_hex64 (impact_hash p).
(** [_ordered_exact_sets] *)
Definition ordered_exact_sets (p : t) : result unit :=
  raise_if (has_duplicates (expected_key_bindings p))
    (ValueError "duplicate expected_key_bindings in impact plan");;
  raise_if (existsb has_duplicates
      [affected_key_ids p; SemanticDiff.changed_key_ids (diff p);
       SemanticDiff.changed_policy_ids (diff p); SemanticDiff.changed_account_ids (diff p);
       SemanticDiff.changed_route_group_ids (diff p); SemanticDiff.changed_leg_ids (diff p)])
    (ValueError "duplicate identity in impact plan").
Definition validate (p : t) : result t :=
  raise_if (negb (fields_ok p)) validation_error;;
  ordered_exact_sets p;;
  mret p.
End ImpactPlan.
Abbreviation ImpactPlan := ImpactPlan.t.

(** [left.get(i) != right.get(i)] of two dictionaries of dumps *)
Definition opt_eqb (v w : option Json) : bool :=
  match v, w with
  | Some v, Some w => py_eqb v w
  | None, None => true
  | _, _ => false
  end.

Module Planning.
(** [_changed_ids] *)
Definition changed_ids {A} (before after : list A) (identity : A → string) (dump : A → Json) : list string :=
  let left := dict_of ((λ x, (identity x, dump x)) <$> before) in
  let right := dict_of ((λ x, (identity x, dump x)) <$> after) in
  sorted_by id str_leb
    (List.filter (λ i, negb (opt_eqb (dget i left) (dget i right)))
       (remove_dups (dkeys left ++ dkeys right))).

(** [_semantic_diff] *)
Definition semantic_diff (base target : PolicyBundleV1) : SemanticDiff :=
  SemanticDiff.mk
    (changed_ids (PolicyBundleV1.keys base) (PolicyBundleV1.keys target)
       ClientKeyRecord.key_id Dump.key_record)
    (changed_ids (PolicyBundleV1.policies base) (PolicyBundleV1.policies target)
       KeyPolicyRevision.policy_id Dump.key_policy)
    (changed_ids (PolicyBundleV1.accounts base) (PolicyBundleV1.accounts target)
       ProviderAccount.account_id Dump.provider_account)
    (changed_ids (PolicyBundleV1.route_groups base) (PolicyBundleV1.route_groups target)
       RouteGroupRevision.route_group_id Dump.route_group)
    (changed_ids (PolicyBundleV1.all_legs (PolicyBundleV1.route_groups base))
       (PolicyBundleV1.all_legs (PolicyBundleV1.route_groups target)) RouteLeg.leg_id Dump.route_leg)
    (negb (bool_decide (PolicyBundleV1.backend_manifest_hash base =
                        PolicyBundleV1.backend_manifest_hash target)))
    (negb (bool_decide (PolicyBundleV1.min_reader base = PolicyBundleV1.min_reader target)))
    (negb (bool_decide (PolicyBundleV1.required_features base ⊆ PolicyBundleV1.required_features target) &&
           bool_decide (PolicyBundleV1.required_features target ⊆ PolicyBundleV1.required_features base))).

Definition index {A} (identity : A → string) (l : list A) : dict string A :=
  dict_of ((λ x, (identity x, x)) <$> l).
(** [d[k]] *)
Definition item {A} (k : string) (d : dict string A) : result A :=
  match dget k d with Some x => Ok x | None => Err (KeyError k) end.

(** A leg of a group as the policy grants it. *)
Definition effective_leg (authorized : dict string AuthorizedLeg) (accounts : dict string ProviderAccount)
    (leg : RouteLeg) : result (list Json) :=
  match dget (RouteLeg.leg_id leg) authorized with
  | None => mret []
  | Some granted =>
      account ← item (AuthorizedLeg.account_id granted) accounts;
      let projected := dset "capabilities" (Dump.leg_capabilities (AuthorizedLeg.capabilities granted))
        (dset "triggers" (Dump.triggers (AuthorizedLeg.allowed_triggers granted))
           (Dump.route_leg_fields leg)) in
      mret [jobj [("leg", jobj projected); ("account", Dump.provider_account account)]]
  end.
Definition effective_group (groups : dict string RouteGroupRevision)
    (authorized : dict string AuthorizedLeg) (accounts : dict string ProviderAccount)
    (group_id : string) : result Json :=
  group ← item group_id groups;
  legs ← validate_all (effective_leg authorized accounts) (RouteGroupRevision.legs group);
  mret (jobj [("route_group_id", jstr (RouteGroupRevision.route_group_id group));
              ("name", jstr (RouteGroupRevision.name group));
              ("strategy", jstr (strategy_value (RouteGroupRevision.strategy group)));
              ("legs", JArr (concat legs))]).

(** [_effective_key_projection] *)
Definition effective_key_projection (b : PolicyBundleV1) (key_id : string) : result (option Json) :=
  match dget key_id (index ClientKeyRecord.key_id (PolicyBundleV1.keys b)) with
  | None => mret None
  | Some key =>
      policy ← item (ClientKeyRecord.policy_id key)
        (index KeyPolicyRevision.policy_id (PolicyBundleV1.policies b));
      groups ← validate_all
        (effective_group (index RouteGroupRevision.route_group_id (PolicyBundleV1.route_groups b))
           (index AuthorizedLeg.leg_id (KeyPolicyRevision.authorized_legs policy))
           (index ProviderAccount.account_id (PolicyBundleV1.accounts b)))
        (KeyPolicyRevision.route_group_ids policy);
      mret (Some (jobj [("key", Dump.key_record key); ("policy", Dump.key_policy policy);
                        ("route_groups", JArr groups)]))
  end.

(** [_affected_keys] *)
Definition key_affected (base target : PolicyBundleV1) (key_id : string) : result (list string) :=
  before ← effective_key_projection base key_id;
  after ← effective_key_projection target key_id;
  mret (if opt_eqb before after then [] else [key_id]).
Definition affected_keys (base target : PolicyBundleV1) (diff : SemanticDiff) : result (list string) :=
  let key_ids := remove_dups (ClientKeyRecord.key_id <$>
                   (PolicyBundleV1.keys base ++ PolicyBundleV1.keys target)) in
  if SemanticDiff.backend_manifest_changed diff || SemanticDiff.min_reader_changed diff ||
     SemanticDiff.required_features_changed diff
  then mret (sorted_by id str_leb key_ids)
  else
    affected ← validate_all (key_affected base target) key_ids;
    mret (sorted_by id str_leb (concat affected)).

(** [_key_bindings] *)
Definition key_bindings (b : PolicyBundleV1) : list ExpectedKeyBinding :=
  (λ k, ExpectedKeyBinding.mk (ClientKeyRecord.key_id k) (ClientKeyRecord.policy_id k)
          (ClientKeyRecord.generation_high_water k)) <$>
    sorted_by ClientKeyRecord.key_id str_leb (PolicyBundleV1.keys b).

Section Hashes.
Context (sha256 : bytes → bytes).

(** [_hash_json] *)
Definition hash_json (value : Json) (domain : bytes) : result string :=
  b ← canonical_json_bytes value; content_hash sha256 b domain.

(** [_source_fingerprint]: the dumps are sorted by their [policy_id]. *)
Definition source_document (b : PolicyBundleV1) : Json :=
  jobj [("schema_version", JInt (PolicyBundleV1.schema_version b));
        ("min_reader", jstr (PolicyBundleV1.min_reader b));
        ("required_features", Dump.jarr jstr
           (sorted_by id str_leb (feature_value <$> PolicyBundleV1.required_features b)));
        ("policies", Dump.jarr Dump.key_policy
           (sorted_by KeyPolicyRevision.policy_id str_leb (PolicyBundleV1.policies b)))].
Definition source_fingerprint (b : PolicyBundleV1) : result string :=
  hash_json (source_document b) PLAN_SOURCE_DOMAIN.

(** [_security_fence] *)
Definition security_document (b : PolicyBundleV1) : Json :=
  jobj [("keys", Dump.jarr Dump.key_record
           (sorted_by ClientKeyRecord.key_id str_leb (PolicyBundleV1.keys b)));
        ("accounts", Dump.jarr Dump.provider_account
           (sorted_by ProviderAccount.account_id str_leb (PolicyBundleV1.accounts b)))].
Definition security_fence (b : PolicyBundleV1) : result string :=
  hash_json (security_document b) SECURITY_DOMAIN.

(** [_key_set_fence] *)
Definition key_set_fence (b : PolicyBundleV1) : result string :=
  hash_json (Dump.jarr ExpectedKeyBinding.dump (key_bindings b)) KEY_SET_DOMAIN.

(** [bundle_hash(canonical_bundle_bytes(b))] *)
Definition hash_of_bundle (b : PolicyBundleV1) : result string :=
  payload ← bundle_bytes b; bundle_hash sha256 payload.

(** The document whose digest is the plan's [impact_hash]: every other field. *)
Definition impact_document (p : ImpactPlan) : Json :=
  jobj [("schema_version", JInt (ImpactPlan.schema_version p));
        ("base_generation", JInt (ImpactPlan.base_generation p));
        ("base_bundle_hash", jstr (ImpactPlan.base_bundle_hash p));
        ("base_source_fingerprint", jstr (ImpactPlan.base_source_fingerprint p));
        ("source_fingerprint", jstr (ImpactPlan.source_fingerprint p));
        ("security_fence", jstr (ImpactPlan.security_fence p));
        ("key_set_fence", jstr (ImpactPlan.key_set_fence p));
        ("expected_key_bindings", Dump.jarr ExpectedKeyBinding.dump (ImpactPlan.expected_key_bindings p));
        ("target_generation", JInt (ImpactPlan.target_generation p));
        ("target_content_hash", jstr (ImpactPlan.target_content_hash p));
        ("diff", SemanticDiff.dump (ImpactPlan.diff p));
        ("affected_key_ids", Dump.jarr jstr (ImpactPlan.affected_key_ids p))].

(** [exact_policy_reassignments] and the check of the key set, as every step makes it *)
Definition key_set_revision (base target : PolicyBundleV1) : result unit :=
  validate_key_record_set_delta (PolicyBundleV1.keys base) (PolicyBundleV1.keys target)
    (Some (exact_policy_reassignments (PolicyBundleV1.keys base) (PolicyBundleV1.keys target))).

Definition plan_change (base target : PolicyBundleV1) (given_fingerprint : option string) :
    result ImpactPlan :=
  base ← PolicyBundleV1.validate base;
  target ← PolicyBundleV1.validate target;
  raise_if (PolicyBundleV1.generation target <=? PolicyBundleV1.generation base)
    (ValueError "target generation must be strictly greater than applied base generation");;
  key_set_revision base target;;
  let diff := semantic_diff base target in
  target_source ← match given_fingerprint with
    | Some s => if bool_decide (s = "") then source_fingerprint target else mret s
    | None => source_fingerprint target
    end;
  base_hash ← hash_of_bundle base;
  base_source ← source_fingerprint base;
  security ← security_fence base;
  key_set ← key_set_fence base;
  target_hash ← hash_of_bundle target;
  affected ← affected_keys base target diff;
  let plan impact := ImpactPlan.mk 1 (PolicyBundleV1.generation base) base_hash base_source
    target_source security key_set (key_bindings base) (PolicyBundleV1.generation target) target_hash
    diff affected impact in
  impact ← hash_json (impact_document (plan "")) IMPACT_DOMAIN;
  ImpactPlan.validate (plan impact).

(** [ImpactPlan.verify_against] *)
Definition verify_against (p : ImpactPlan) (current : PolicyBundleV1)
    (fresh_fingerprint : option string) : result unit :=
  match fresh_fingerprint with
  | None => Err (StalePreview "fresh source fingerprint is required to verify an impact plan")
  | Some fresh =>
      current ← PolicyBundleV1.validate current;
      raise_if (negb (PolicyBundleV1.generation current =? ImpactPlan.base_generation p))
        (StalePreview "base bundle generation changed");;
      hash ← hash_of_bundle current;
      raise_if (negb (bool_decide (hash = ImpactPlan.base_bundle_hash p)))
        (StalePreview "base bundle content changed");;
      source ← source_fingerprint current;
      raise_if (negb (bool_decide (source = ImpactPlan.base_source_fingerprint p)))
        (StalePreview "base authoring source changed");;
      security ← security_fence current;
      raise_if (negb (bool_decide (security = ImpactPlan.security_fence p)))
        (StalePreview "security fence changed");;
      key_set ← key_set_fence current;
      raise_if (negb (bool_decide (key_set = ImpactPlan.key_set_fence p)))
        (StalePreview "key set fence changed");;
      raise_if (negb (bool_decide (key_bindings current = ImpactPlan.expected_key_bindings p)))
        (StalePreview "exact key bindings changed");;
      raise_if (negb (bool_decide (fresh = ImpactPlan.source_fingerprint p)))
        (StalePreview "source fingerprint changed")
  end.

(** ** [config/signing.py] *)

(** [ActivationEnvelope.from_plan] *)
Definition from_plan (p : ImpactPlan) (trust_epoch : Z) (signer_key_id : string) :
    result ActivationEnvelope :=
  ActivationEnvelope.validate
    (ActivationEnvelope.mk trust_epoch signer_key_id (ImpactPlan.base_generation p)
       (ImpactPlan.base_bundle_hash p) (ImpactPlan.target_generation p)
       (ImpactPlan.target_content_hash p) (ImpactPlan.source_fingerprint p)
       (ImpactPlan.security_fence p) (ImpactPlan.key_set_fence p) (ImpactPlan.impact_hash p)).
End Hashes.
End Planning.

Module SignedActivation.
Record t := mk { payload : bytes; signature : bytes; trust_epoch : Z; signer_key_id : string }.
End SignedActivation.
Abbreviation SignedActivation := SignedActivation.t.

Module Signing.
Section Signatures.
Context `{Ed25519} `{Pydantic}.
Context (sha256 : bytes → bytes) (loads : bytes → result Json).

Definition check_base (envelope : ActivationEnvelope) (base_bundle : option PolicyBundleV1)
    (target_bundle : PolicyBundleV1) : result unit :=
  match base_bundle with
  | None =>
      raise_if (negb (ActivationEnvelope.base_generation envelope =? 0) ||
                negb (bool_decide (ActivationEnvelope.base_bundle_hash envelope =
                                   GENESIS_BASE_BUNDLE_HASH)))
        (ValueError "genesis activation requires an explicit absent base")
  | Some base =>
      base ← PolicyBundleV1.validate base;
      Planning.key_set_revision base target_bundle;;
      (if negb (ActivationEnvelope.base_generation envelope =? PolicyBundleV1.generation base)
       then Err (ValueError "activation envelope does not match exact base bundle")
       else
         hash ← Planning.hash_of_bundle sha256 base;
         raise_if (negb (bool_decide (ActivationEnvelope.base_bundle_hash envelope = hash)))
           (ValueError "activation envelope does not match exact base bundle"))
  end.

Definition sign_activation (envelope : ActivationEnvelope) (key : private_key)
    (base_bundle : option PolicyBundleV1) (target_bundle : PolicyBundleV1) : result SignedActivation :=
  envelope ← ActivationEnvelope.validate envelope;
  target ← PolicyBundleV1.validate target_bundle;
  check_base envelope base_bundle target;;
  (if negb (ActivationEnvelope.target_generation envelope =? PolicyBundleV1.generation target)
   then Err (ValueError "activation envelope does not match exact target bundle")
   else
     hash ← Planning.hash_of_bundle sha256 target;
     raise_if (negb (bool_decide (ActivationEnvelope.target_content_hash envelope = hash)))
       (ValueError "activation envelope does not match exact target bundle"));;
  payload ← canonical_json_bytes (ActivationEnvelope.dump envelope);
  mret (SignedActivation.mk payload (sign key payload) (ActivationEnvelope.trust_epoch envelope)
          (ActivationEnvelope.signer_key_id envelope)).

(** What an activation is verified with: a trust set, or one key with what the caller
    expects. *)
Inductive Trust :=
| TrustSet (epochs : dict Z (dict string public_key))
| RawKey (key : public_key) (expected_trust_epoch : option Z) (expected_signer_key_id : option string).

Definition trusted_key (trust : Trust) (envelope : ActivationEnvelope) : result public_key :=
  match trust with
  | TrustSet epochs =>
      match dget (ActivationEnvelope.trust_epoch envelope) epochs with
      | None => Err UnknownTrustEpoch
      | Some epoch =>
          match dget (ActivationEnvelope.signer_key_id envelope) epoch with
          | None => Err UnknownSigningKey
          | Some key => Ok key
          end
      end
  | RawKey key expected_trust_epoch expected_signer_key_id =>
      match expected_trust_epoch with
      | None => Err UnknownTrustEpoch
      | Some epoch =>
          raise_if (negb (ActivationEnvelope.trust_epoch envelope =? epoch)) UnknownTrustEpoch;;
          match expected_signer_key_id with
          | None => Err UnknownSigningKey
          | Some signer =>
              raise_if (negb (bool_decide (ActivationEnvelope.signer_key_id envelope = signer)))
                UnknownSigningKey;;
              mret key
          end
      end
  end.

Definition verify_activation (payload signature : bytes) (trust : Trust) : result ActivationEnvelope :=
  envelope ← parse_canonical loads payload;
  key ← trusted_key trust envelope;
  raise_if (negb (verify key signature payload))
    (SignatureVerificationError "invalid activation signature");;
  mret envelope.
End Signatures.
End Signing.
