(* ===== verification/ImpactProps.v ===== *)
(** * What an impact plan shows and fences

    The dumps of the models determine them, so that what a plan compares and hashes is
    the state itself. *)
From S2P Require Import RoutingProps ActivationSamples.
From S2P Require Export Impact AdapterProps ConfigProps.
From Stdlib Require Import Ascii.
#[local] Open Scope Z_scope.

(** ** Dumps that determine what they dump *)
Module DumpFacts.
Import JsonFacts.

(** Two values of the same dump are the same, whether the dumps are compared as JSON
    values or by Python's equality. *)
Class ExactDump {A} (dump : A → Json) : Prop := {
  dump_json_ok : ∀ a, json_ok (dump a);
  dump_inj : ∀ a b, same_json (dump a) (dump b) → a = b;
  dump_eqb : ∀ a b, py_eqb (dump a) (dump b) = true → a = b;
}.
(** A dump that is never [null]. *)
Class NonNull {A} (dump : A → Json) : Prop := dump_non_null : ∀ a, dump a ≠ JNull.

#[export] Instance jstr_non_null : NonNull jstr.
Proof. done. Qed.
#[export] Instance jint_non_null : NonNull JInt.
Proof. done. Qed.

#[export] Instance jstr_exact : ExactDump jstr.
Proof.
  split.
  - intros s. apply text_ok_ascii.
  - intros s t H. by apply ascii_text_inj.
  - intros s t H. apply bool_decide_eq_true in H. by apply ascii_text_inj.
Qed.

Lemma number_eqb_same p q : FloatRepr.ok p.2 → FloatRepr.ok q.2 → number_eqb p q = true → same_number p q.
Proof.
  intros Hp Hq. unfold number_eqb, same_number. pose proof (zero_mantissa _ Hp) as Zp.
  pose proof (zero_mantissa _ Hq) as Zq. destruct (is_zero p.2) eqn:E1, (is_zero q.2) eqn:E2; cbn; try done.
  - intros _. unfold same_value. rewrite (proj1 Zp), (proj1 Zq) by done. by split; [|left].
  - rewrite !andb_true_iff, Bool.eqb_true_iff, bool_decide_eq_true, Z.eqb_eq. intros [[Hs H1] H2].
    split; [by apply same_value_significant|by right].
Qed.

#[export] Instance jint_exact : ExactDump JInt.
Proof.
  split; [done|apply same_int|]. intros a b H. apply same_int.
  apply (number_eqb_same (a <? 0, FloatRepr.mk (decimal (Z.abs a)) [] 0)
           (b <? 0, FloatRepr.mk (decimal (Z.abs b)) [] 0)); [apply decimal_repr_ok..|exact H].
Qed.
#[export] Instance jbool_exact : ExactDump JBool.
Proof. split; [done|by intros a b H|]. intros [] []; try done; intros H; vm_compute in H; discriminate H. Qed.

Lemma null_alone v : same_json v JNull ∨ same_json JNull v ∨ py_eqb v JNull = true ∨ py_eqb JNull v = true →
  v = JNull.
Proof. destruct v as [| | | |[]| |]; cbn; naive_solver. Qed.

#[export] Instance jopt_exact {A} (f : A → Json) : ExactDump f → NonNull f → ExactDump (jopt f).
Proof.
  intros Hf Hn. split.
  - intros [a|]; [apply Hf|done].
  - intros [a|] [b|] H; cbn [jopt] in H; [f_equal; by apply Hf| | |done].
    + destruct (Hn a). by apply null_alone; left.
    + destruct (Hn b). by apply null_alone; right; left.
  - intros [a|] [b|] H; cbn [jopt] in H; [f_equal; by apply (dump_eqb (dump := f))| | |done].
    + destruct (Hn a). by apply null_alone; right; right; left.
    + destruct (Hn b). by apply null_alone; right; right; right.
Qed.

#[export] Instance jarr_exact {A} (f : A → Json) : ExactDump f → ExactDump (Dump.jarr f).
Proof.
  intros Hf. split.
  - intros l. cbn. rewrite all_Forall. apply Forall_fmap, Forall_true. intros a. apply Hf.
  - intros l m H. cbn in H. rewrite all2_Forall2, Forall2_fmap in H.
    apply list_eq_Forall2. eapply Forall2_impl; [exact H|]. intros a b. apply Hf.
  - intros l m H. apply py_eqb_arr in H. rewrite Forall2_fmap in H.
    apply list_eq_Forall2. eapply Forall2_impl; [exact H|]. intros a b. apply (dump_eqb (dump := f)).
Qed.

(** A vocabulary is dumped as its values. *)
Class Vocabulary {A} (value : A → string) : Prop := vocabulary_inj : ∀ a b, value a = value b → a = b.
Lemma value_exact {A} (value : A → string) : Vocabulary value → ExactDump (λ a, jstr (value a)).
Proof.
  intros Hi. split; [intros a; apply jstr_exact| |]; intros a b H; apply Hi.
  - by apply (dump_inj (dump := jstr)).
  - by apply (dump_eqb (dump := jstr)).
Qed.
#[export] Instance value_non_null {A} (value : A → string) : NonNull (λ a, jstr (value a)).
Proof. done. Qed.

Ltac vocabulary := let x := fresh in let y := fresh in let H := fresh in
  intros x y H; destruct x, y; first [reflexivity | discriminate H].
#[export] Instance trigger_inj : Vocabulary trigger_value.
Proof. vocabulary. Qed.
#[export] Instance strategy_inj : Vocabulary strategy_value.
Proof. vocabulary. Qed.
#[export] Instance endpoint_inj : Vocabulary endpoint_value.
Proof. vocabulary. Qed.
#[export] Instance modality_inj : Vocabulary modality_value.
Proof. vocabulary. Qed.
#[export] Instance quota_status_inj : Vocabulary quota_status_value.
Proof. vocabulary. Qed.
#[export] Instance feature_inj : Vocabulary feature_value.
Proof. vocabulary. Qed.
#[export] Instance key_state_inj : Vocabulary key_state_value.
Proof. vocabulary. Qed.
#[export] Instance verifier_status_inj : Vocabulary verifier_status_value.
Proof. vocabulary. Qed.
#[export] Instance account_state_inj : Vocabulary AccountState.value.
Proof. vocabulary. Qed.
#[export] Hint Extern 1 (ExactDump (λ _, jstr _)) => eapply value_exact : typeclass_instances.

(** ** Objects *)
Lemma text_inj : Inj (=) (=) ascii_text.
Proof. intros s t. apply ascii_text_inj. Qed.

Lemma jobj_dict (l : list (string * Json)) : NoDup l.*1 →
  dict_ok ((λ p : string * Json, (ascii_text p.1, p.2)) <$> l).
Proof.
  intros H. unfold dict_ok, dkeys. rewrite <-list_fmap_compose.
  change (NoDup ((ascii_text ∘ fst) <$> l)). rewrite list_fmap_compose. by apply NoDup_fmap_2; [apply text_inj|].
Qed.
Lemma jobj_ok l : NoDup l.*1 → Forall (λ p, json_ok p.2) l → json_ok (jobj l).
Proof.
  intros Hn Hl. split; [by apply jobj_dict|]. rewrite all_Forall. apply Forall_fmap.
  eapply Forall_impl; [exact Hl|]. intros [k v] Hv. split; [apply text_ok_ascii|exact Hv].
Qed.
(** Objects of the same fields are compared field by field. *)
Lemma jobj_fields (R : Json → Json → Prop) l m : l.*1 = m.*1 → NoDup l.*1 →
  Forall (λ p : ustr * Json, ∃ w, dget p.1 ((λ p : string * Json, (ascii_text p.1, p.2)) <$> m) = Some w ∧ R p.2 w)
    ((λ p : string * Json, (ascii_text p.1, p.2)) <$> l) →
  Forall2 R l.*2 m.*2.
Proof.
  intros Hk Hn H. assert (NoDup m.*1) as Hm by (by rewrite <-Hk).
  pose proof (jobj_dict m Hm) as Hd. apply Forall2_fmap, Forall2_lookup. intros i.
  assert (l.*1 !! i = m.*1 !! i) as Hi by (by rewrite Hk). rewrite !list_lookup_fmap in Hi.
  destruct (l !! i) as [[k v]|] eqn:El, (m !! i) as [[k' w]|] eqn:Em; try done; constructor.
  injection Hi as <-. cbn. rewrite Forall_fmap, Forall_forall in H.
  destruct (H (k, v)) as (w' & Hw & HR); [by eapply list_elem_of_lookup_2|]. cbn [fst snd] in Hw, HR.
  assert (dget (ascii_text k) ((λ p : string * Json, (ascii_text p.1, p.2)) <$> m) = Some w) as Hw2.
  { apply elem_of_dget; [done|]. apply list_elem_of_fmap. exists (k, w). split; [done|].
    by eapply list_elem_of_lookup_2. }
  congruence.
Qed.
Lemma jobj_same l m : l.*1 = m.*1 → NoDup l.*1 → same_json (jobj l) (jobj m) → Forall2 same_json l.*2 m.*2.
Proof.
  intros Hk Hn [_ H]. rewrite all_Forall in H. apply jobj_fields; [done..|].
  eapply Forall_impl; [exact H|]. by intros [k v].
Qed.
Lemma jobj_eqb l m : l.*1 = m.*1 → NoDup l.*1 → py_eqb (jobj l) (jobj m) = true →
  Forall2 (λ v w, py_eqb v w = true) l.*2 m.*2.
Proof. intros Hk Hn [_ H]%py_eqb_obj. by apply jobj_fields. Qed.

(** A record is dumped as the object of its fields. *)
Ltac distinct_keys := apply (bool_decide_unpack _); vm_compute; exact I.
Ltac field_equal E :=
  lazymatch type of E with
  | same_json (jstr ?s) (jstr ?t) => apply (dump_inj (dump := jstr) s t) in E; try apply vocabulary_inj in E
  | same_json (?f ?x) (?f ?y) => apply (dump_inj (dump := f) x y) in E
  | py_eqb (jstr ?s) (jstr ?t) = true => apply (dump_eqb (dump := jstr) s t) in E; try apply vocabulary_inj in E
  | py_eqb (?f ?x) (?f ?y) = true => apply (dump_eqb (dump := f) x y) in E
  end.
Ltac fields_equal H :=
  repeat (let E := fresh "E" in apply Forall2_cons in H as [E H]; field_equal E).
Ltac record_dump d :=
  split;
  [ intros ?; unfold d; apply jobj_ok; [distinct_keys|repeat (apply Forall_cons_2; [cbn [snd]; apply dump_json_ok|]); apply Forall_nil_2]
  | let H := fresh in intros ?a ?b H; unfold d in H; apply jobj_same in H; [|reflexivity|distinct_keys];
    cbn [fmap list_fmap fst snd] in H; fields_equal H; destruct a, b; simpl in *; subst; reflexivity
  | let H := fresh in intros ?a ?b H; unfold d in H; apply jobj_eqb in H; [|reflexivity|distinct_keys];
    cbn [fmap list_fmap fst snd] in H; fields_equal H; destruct a, b; simpl in *; subst; reflexivity ].

#[export] Instance quota_exact : ExactDump Dump.quota_dimension.
Proof. record_dump Dump.quota_dimension. Qed.
#[export] Instance account_exact : ExactDump Dump.provider_account.
Proof. record_dump Dump.provider_account. Qed.
#[export] Instance capabilities_exact : ExactDump Dump.leg_capabilities.
Proof. record_dump Dump.leg_capabilities. Qed.
#[export] Instance triggers_exact : ExactDump Dump.triggers.
Proof. apply jarr_exact, _. Qed.
#[export] Instance authorized_leg_exact : ExactDump Dump.authorized_leg.
Proof. record_dump Dump.authorized_leg. Qed.
#[export] Instance route_leg_exact : ExactDump Dump.route_leg.
Proof.
  split.
  - intros a. unfold Dump.route_leg, Dump.route_leg_fields. apply jobj_ok; [distinct_keys|].
    repeat (apply Forall_cons_2; [cbn [snd]; apply dump_json_ok|]); apply Forall_nil_2.
  - intros a b H. unfold Dump.route_leg, Dump.route_leg_fields in H.
    apply jobj_same in H; [|reflexivity|distinct_keys]. cbn [fmap list_fmap fst snd] in H.
    fields_equal H. destruct a, b; simpl in *; subst; reflexivity.
  - intros a b H. unfold Dump.route_leg, Dump.route_leg_fields in H.
    apply jobj_eqb in H; [|reflexivity|distinct_keys]. cbn [fmap list_fmap fst snd] in H.
    fields_equal H. destruct a, b; simpl in *; subst; reflexivity.
Qed.
#[export] Instance route_group_exact : ExactDump Dump.route_group.
Proof. record_dump Dump.route_group. Qed.
#[export] Instance features_exact : ExactDump (λ f, jstr (feature_value f)).
Proof. apply value_exact, _. Qed.
#[export] Instance key_policy_exact : ExactDump Dump.key_policy.
Proof. record_dump Dump.key_policy. Qed.
#[export] Instance credential_verifier_exact : ExactDump Dump.credential_verifier.
Proof. record_dump Dump.credential_verifier. Qed.
#[export] Instance legacy_verifier_exact : ExactDump Dump.legacy_verifier.
Proof. record_dump Dump.legacy_verifier. Qed.
#[export] Instance key_record_exact : ExactDump Dump.key_record.
Proof. record_dump Dump.key_record. Qed.
#[export] Instance key_binding_exact : ExactDump ExpectedKeyBinding.dump.
Proof. record_dump ExpectedKeyBinding.dump. Qed.
End DumpFacts.

(** ** The order of arrays *)
Module OrderFacts.
Import JsonFacts.

(** The same document but for the order of its arrays. *)
Inductive reordered : Json → Json → Prop :=
| reordered_same v : reordered v v
| reordered_array l m m' : Forall2 reordered l m' → m' ≡ₚ m → reordered (JArr l) (JArr m)
| reordered_object d e : Forall2 (λ p q : ustr * Json, p.1 = q.1 ∧ reordered p.2 q.2) d e →
    reordered (JObj d) (JObj e).

Lemma sorted_with_perm {A K} (key : A → result K) leb l l' : sorted_with key leb l = Ok l' → l ≡ₚ l'.
Proof.
  unfold sorted_with. intros H. apply bind_Ok in H as (keyed & Hk & H). injection H as <-.
  apply sequence_map in Hk.
  assert (l = keyed.*2) as E.
  { induction Hk as [|x [k y] l keyed Hx _ IH]; [done|]. cbn. apply bind_Ok in Hx as (k' & _ & Hx).
    injection Hx as _ ->. by f_equal. }
  rewrite E. by rewrite sorted_by_perm.
Qed.

Lemma sort_reordered v : ∀ f w, sort_collections v f = Ok w → reordered v w.
Proof.
  induction v as [|b|s|z|x|l IH|d IH] using json_ind'; intros f w H;
    try (injection H as <-; apply reordered_same).
  - cbn [sort_collections] in H. apply bind_Ok in H as (normalized & Hn & H).
    apply bind_Ok in H as (l' & Hl & H). injection H as <-. apply sequence_map in Hn.
    apply reordered_array with normalized.
    + clear Hl. induction Hn as [|v u l normalized Hv _ IHn]; [constructor|].
      apply Forall_cons in IH as [Hf IH]. constructor; [by eapply Hf|by apply IHn].
    + destruct (bool_decide _); by eapply sorted_with_perm.
  - cbn [sort_collections] in H. apply bind_Ok in H as (items & Hi & H). injection H as <-.
    change (sort_member <$> List.map _ d) with
      (List.map sort_member (List.map (λ p : ustr * Json, let (k, v) := p in (k, sort_collections v (Some k))) d)) in Hi.
    rewrite List.map_map in Hi. apply sequence_map in Hi.
    apply reordered_object. induction Hi as [|[k v] [k' u] d items Hv _ IHi]; [constructor|].
    apply Forall_cons in IH as [Hf IH]. constructor; [|by apply IHi].
    unfold sort_member in Hv. cbn [fst snd] in Hv. apply bind_Ok in Hv as (u' & Hu & Hv).
    injection Hv as <- <-. split; [done|]. by eapply Hf.
Qed.

Lemma reordered_ok v : ∀ w, reordered v w → json_ok v → json_ok w.
Proof.
  induction v as [|b|s|z|x|l IH|d IH] using json_ind'; intros w H Hok; inversion H; subst; try done.
  - cbn [json_ok] in *. rewrite all_Forall in *.
    match goal with Hp : _ ≡ₚ _ |- _ => rewrite <-Hp; clear Hp end.
    match goal with Hl : Forall2 reordered _ _ |- _ => rename Hl into Hm end. clear H.
    induction Hm as [|v u l k Hu _ IHm]; [done|].
    apply Forall_cons in IH as [Hf IH]. apply Forall_cons in Hok as [Hv Hok].
    constructor; [by apply Hf|by apply IHm].
  - destruct Hok as [Hd Hok]. match goal with Hl : Forall2 _ _ _ |- _ => rename Hl into Hm end.
    split.
    + unfold dict_ok, dkeys in *. assert (e.*1 = d.*1) as ->; [|done].
      clear -Hm. induction Hm as [|p q d e [E _] _ IHm]; [done|]. cbn. by rewrite E, IHm.
    + rewrite all_Forall in *. clear Hd H. induction Hm as [|[k v] [k' u] d e [E Hu] _ IHm]; [done|].
      apply Forall_cons in IH as [Hf IH]. apply Forall_cons in Hok as [[Hk Hv] Hok]. cbn in *. subst k'.
      constructor; [split; [done|by apply Hf]|by apply IHm].
Qed.
End OrderFacts.

(** ** The digests of a plan *)
Module PlanFacts.
Import JsonFacts DumpFacts OrderFacts Planning.

Section Digests.
Context (sha256 : bytes → bytes).
Definition collision : Prop := ∃ m n, m ≠ n ∧ sha256 m = sha256 n.

Lemma content_hash_Ok payload domain h : content_hash sha256 payload domain = Ok h →
  h = hex (sha256 (domain ++ payload)).
Proof. unfold content_hash. intros H. apply bind_Ok in H as ([] & _ & H). by injection H. Qed.
Lemma content_hash_inj p q domain h : content_hash sha256 p domain = Ok h →
  content_hash sha256 q domain = Ok h → p = q ∨ collision.
Proof.
  intros ->%content_hash_Ok H%content_hash_Ok. apply KeyMaterialFacts.hex_inj in H.
  destruct (decide (p = q)) as [|Hne]; [by left|right]. exists (domain ++ p), (domain ++ q).
  split; [|done]. intros E. by apply (inj (app domain)) in E.
Qed.

Lemma hash_json_inj v w domain h : json_ok v → json_ok w →
  hash_json sha256 v domain = Ok h → hash_json sha256 w domain = Ok h → same_json v w ∨ collision.
Proof.
  intros Hv Hw H1 H2. apply bind_Ok in H1 as (b & B1 & H1). apply bind_Ok in H2 as (c & B2 & H2).
  destruct (content_hash_inj _ _ _ _ H1 H2) as [<-|]; [left|by right]. by eapply canonical_same.
Qed.

(** What the fences of a plan compare, but for the digests. *)
Record same_reviewed (b c : PolicyBundleV1) : Prop := {
  sr_generation : PolicyBundleV1.generation b = PolicyBundleV1.generation c;
  sr_reader : PolicyBundleV1.min_reader b = PolicyBundleV1.min_reader c;
  sr_features : ∀ f, f ∈ PolicyBundleV1.required_features b ↔ f ∈ PolicyBundleV1.required_features c;
  sr_keys : PolicyBundleV1.keys b ≡ₚ PolicyBundleV1.keys c;
  sr_accounts : PolicyBundleV1.accounts b ≡ₚ PolicyBundleV1.accounts c;
  sr_policies : PolicyBundleV1.policies b ≡ₚ PolicyBundleV1.policies c;
  sr_document : ∃ d e, reordered (Dump.bundle b) d ∧ reordered (Dump.bundle c) e ∧ same_json d e;
}.

Lemma sorted_same {A} (key : A → string) l m : sorted_by key str_leb l = sorted_by key str_leb m → l ≡ₚ m.
Proof. intros H. by rewrite <-(sorted_by_perm key str_leb l), H, sorted_by_perm. Qed.

Lemma source_document_ok b : json_ok (source_document b).
Proof.
  unfold source_document. apply jobj_ok; [distinct_keys|].
  repeat (apply Forall_cons_2; [cbn [snd]; apply dump_json_ok|]); apply Forall_nil_2.
Qed.
Lemma security_document_ok b : json_ok (security_document b).
Proof.
  unfold security_document. apply jobj_ok; [distinct_keys|].
  repeat (apply Forall_cons_2; [cbn [snd]; apply dump_json_ok|]); apply Forall_nil_2.
Qed.

Lemma source_document_same b c : same_json (source_document b) (source_document c) →
  PolicyBundleV1.min_reader b = PolicyBundleV1.min_reader c ∧
  (∀ f, f ∈ PolicyBundleV1.required_features b ↔ f ∈ PolicyBundleV1.required_features c) ∧
  PolicyBundleV1.policies b ≡ₚ PolicyBundleV1.policies c.
Proof.
  unfold source_document. intros H. apply jobj_same in H; [|reflexivity|distinct_keys].
  cbn [fmap list_fmap fst snd] in H. fields_equal H. split; [done|]. split; [|by eapply sorted_same].
  apply sorted_same in E1. intros f.
  assert (∀ l : list RequiredFeature, f ∈ l ↔ feature_value f ∈ (feature_value <$> l : list string)) as Hf.
  { intros l. rewrite list_elem_of_fmap. split; [by intros Hl; exists f|].
    by intros (g & <-%vocabulary_inj & Hg). }
  rewrite Hf, E1, <-Hf. done.
Qed.
Lemma security_document_same b c : same_json (security_document b) (security_document c) →
  PolicyBundleV1.keys b ≡ₚ PolicyBundleV1.keys c ∧ PolicyBundleV1.accounts b ≡ₚ PolicyBundleV1.accounts c.
Proof.
  unfold security_document. intros H. apply jobj_same in H; [|reflexivity|distinct_keys].
  cbn [fmap list_fmap fst snd] in H. fields_equal H. split; by eapply sorted_same.
Qed.

Lemma bundle_dump_ok b : json_ok (Dump.bundle b).
Proof.
  unfold Dump.bundle. apply jobj_ok; [distinct_keys|].
  repeat (apply Forall_cons_2; [cbn [snd]; apply dump_json_ok|]); apply Forall_nil_2.
Qed.

Lemma from_digest_Ok cls d h : from_digest cls d = Ok h → h = String.append (id_prefix cls) d.
Proof. unfold from_digest, typed_id_new. destruct (fullmatch _ _); [|done]. by intros [= <-]. Qed.
Lemma bundle_hash_inj p q h : bundle_hash sha256 p = Ok h → bundle_hash sha256 q = Ok h → p = q ∨ collision.
Proof.
  intros H1 H2. apply bind_Ok in H1 as (d & D1 & H1). apply bind_Ok in H2 as (e & D2 & H2).
  apply from_digest_Ok in H1 as ->. apply from_digest_Ok in H2 as E.
  apply (f_equal String.list_ascii_of_string) in E. rewrite !list_ascii_append in E.
  apply (inj (app _)) in E. apply list_ascii_inj in E as <-. by eapply content_hash_inj.
Qed.

(** Validation of a bundle returns it as it will be returned again. *)
Lemma validate_all_nil {A B} (f : A → result B) l l' : validate_all f l = Ok l' → bool_decide (l' = []) = bool_decide (l = []).
Proof. intros H%validate_all_Ok. by destruct H. Qed.
Lemma bundle_validated_again b b' : PolicyBundleV1.validate b = Ok b' → PolicyBundleV1.validate b' = Ok b'.
Proof.
  intros H. destruct (ValidationFacts.bundle_validated _ _ H) as [V1 V2 V3 V4 V5].
  unfold PolicyBundleV1.validate in H |- *. apply bind_Ok in H as ([] & G & H).
  apply bind_Ok in H as (ks & K & H). apply bind_Ok in H as (ps & P & H).
  apply bind_Ok in H as (accounts & A & H). apply bind_Ok in H as (gs & R & H).
  apply bind_Ok in H as (reader & M & H). apply bind_Ok in H as ([] & F & H).
  cbv zeta in H. apply bind_Ok in H as ([] & _ & H). destruct b as [sv g mr rf k p a r bm].
  assert (b' = PolicyBundleV1.mk sv g mr rf ks ps accounts gs bm) as -> by (by injection H as <-).
  clear H. cbn [PolicyBundleV1.keys PolicyBundleV1.policies PolicyBundleV1.accounts PolicyBundleV1.route_groups
    PolicyBundleV1.schema_version PolicyBundleV1.generation PolicyBundleV1.backend_manifest_hash
    PolicyBundleV1.min_reader PolicyBundleV1.required_features] in *.
  rewrite (validate_all_nil _ _ _ K), (validate_all_nil _ _ _ P), (validate_all_nil _ _ _ A),
    (validate_all_nil _ _ _ R), G.
  rewrite (validate_all_id _ _ V1), (validate_all_id _ _ V2), (validate_all_id _ _ V3), (validate_all_id _ _ V4).
  cbn [mbind result_bind]. rewrite M, F. cbn [mbind result_bind]. cbv zeta.
  match goal with |- context [PolicyBundleV1.exact_membership ?x] =>
    change (PolicyBundleV1.exact_membership x = Ok tt) in V5; rewrite V5 end.
  done.
Qed.

(** The same hash of two bundles as validation left them. *)
Lemma hash_of_bundle_inj b c b' c' h : PolicyBundleV1.validate b = Ok b' → PolicyBundleV1.validate c = Ok c' →
  hash_of_bundle sha256 b = Ok h → hash_of_bundle sha256 c = Ok h →
  (∃ d e, reordered (Dump.bundle b') d ∧ reordered (Dump.bundle c') e ∧ same_json d e) ∨ collision.
Proof.
  intros Hb Hc H1 H2. unfold hash_of_bundle, bundle_bytes, canonical_bundle_bytes, validated_bundle_dump in *.
  rewrite Hb in H1. rewrite Hc in H2. cbn [mbind result_bind mret result_ret] in H1, H2.
  apply bind_Ok in H1 as (p & P1 & H1). apply bind_Ok in H2 as (q & P2 & H2).
  apply bind_Ok in P1 as (d & D1 & P1). apply bind_Ok in P2 as (e & D2 & P2).
  destruct (bundle_hash_inj _ _ _ H1 H2) as [<-|]; [left|by right].
  apply sort_reordered in D1, D2. exists d, e. split; [done|]. split; [done|].
  eapply canonical_same; [| |exact P1|exact P2]; eapply reordered_ok; eauto using bundle_dump_ok.
Qed.

(** What a plan holds. *)
Record planned (base target : PolicyBundleV1) (plan : ImpactPlan) : Prop := {
  pl_base : ∃ b t, PolicyBundleV1.validate base = Ok b ∧ PolicyBundleV1.validate target = Ok t ∧
    ImpactPlan.base_generation plan = PolicyBundleV1.generation b ∧
    ImpactPlan.target_generation plan = PolicyBundleV1.generation t ∧
    PolicyBundleV1.generation b < PolicyBundleV1.generation t ∧ key_set_revision b t = Ok tt ∧
    hash_of_bundle sha256 b = Ok (ImpactPlan.base_bundle_hash plan) ∧
    hash_of_bundle sha256 t = Ok (ImpactPlan.target_content_hash plan) ∧
    source_fingerprint sha256 b = Ok (ImpactPlan.base_source_fingerprint plan) ∧
    security_fence sha256 b = Ok (ImpactPlan.security_fence plan) ∧
    key_set_fence sha256 b = Ok (ImpactPlan.key_set_fence plan) ∧
    key_bindings b = ImpactPlan.expected_key_bindings plan ∧
    affected_keys b t (semantic_diff b t) = Ok (ImpactPlan.affected_key_ids plan);
  pl_impact : ∃ p, ImpactPlan.base_generation p = ImpactPlan.base_generation plan ∧
    ImpactPlan.target_generation p = ImpactPlan.target_generation plan ∧
    is_ok (canonical_json_bytes (impact_document p)) = true;
}.
Lemma plan_Ok base target given plan : plan_change sha256 base target given = Ok plan → planned base target plan.
Proof.
  unfold plan_change. intros H. apply bind_Ok in H as (b & Hb & H). apply bind_Ok in H as (t & Ht & H).
  apply bind_Ok in H as ([] & Hg & H). apply raise_if_Ok, Z.leb_gt in Hg.
  apply bind_Ok in H as ([] & Hk & H). cbv zeta in H. apply bind_Ok in H as (src & _ & H).
  apply bind_Ok in H as (h1 & H1 & H). apply bind_Ok in H as (h2 & H2 & H).
  apply bind_Ok in H as (h3 & H3 & H). apply bind_Ok in H as (h4 & H4 & H).
  apply bind_Ok in H as (h5 & H5 & H). apply bind_Ok in H as (aff & Ha & H).
  apply bind_Ok in H as (imp & Hi & H). unfold ImpactPlan.validate in H.
  apply bind_Ok in H as ([] & _ & H). apply bind_Ok in H as ([] & _ & H). injection H as <-.
  split; [by exists b, t|]. apply bind_Ok in Hi as (bytes & Hi & _).
  eexists. split; [|split; [|by rewrite Hi]]; done.
Qed.
End Digests.
End PlanFacts.

(** ** What a key can reach *)
Module AuthorityFacts.
Import JsonFacts DumpFacts Planning.

(** A leg of a group as the policy grants it. *)
Definition granted_leg (leg : RouteLeg) (granted : AuthorizedLeg) (account : ProviderAccount) : Json :=
  jobj [("leg", jobj [("leg_id", jstr (RouteLeg.leg_id leg)); ("order", JInt (RouteLeg.order leg));
     ("triggers", Dump.triggers (AuthorizedLeg.allowed_triggers granted));
     ("account_id", jstr (RouteLeg.account_id leg)); ("generation_id", jstr (RouteLeg.generation_id leg));
     ("capabilities", Dump.leg_capabilities (AuthorizedLeg.capabilities granted))]);
   ("account", Dump.provider_account account)].

Section Group.
Context (authorized : dict string AuthorizedLeg).
Implicit Types (g h : RouteGroupRevision) (accounts : dict string ProviderAccount).

Lemma effective_leg_Ok accounts leg l : effective_leg authorized accounts leg = Ok l →
  l = [] ∧ dget (RouteLeg.leg_id leg) authorized = None ∨
  ∃ granted account, dget (RouteLeg.leg_id leg) authorized = Some granted ∧
    l = [granted_leg leg granted account].
Proof.
  unfold effective_leg. destruct (dget _ authorized) as [granted|]; [|intros [= <-]; by left].
  intros H. right. apply bind_Ok in H as (account & _ & H). injection H as <-.
  by exists granted, account.
Qed.

Lemma granted_leg_id leg granted account leg' granted' account' :
  py_eqb (granted_leg leg granted account) (granted_leg leg' granted' account') = true →
  RouteLeg.leg_id leg = RouteLeg.leg_id leg'.
Proof.
  intros H. apply jobj_eqb in H; [|reflexivity|distinct_keys]. cbn [fmap list_fmap fst snd] in H.
  apply Forall2_cons in H as [H _]. apply jobj_eqb in H; [|reflexivity|distinct_keys].
  cbn [fmap list_fmap fst snd] in H. apply Forall2_cons in H as [H _]. by field_equal H.
Qed.

(** The id that an effective leg shows. *)
Definition shown_id (x : Json) : option ustr :=
  match x with JObj ((_, JObj ((_, JStr i) :: _)) :: _) => Some i | _ => None end.
Lemma shown_granted leg granted account :
  shown_id (granted_leg leg granted account) = Some (ascii_text (RouteLeg.leg_id leg)).
Proof. done. Qed.

Lemma effective_legs_show accounts legs ls i : validate_all (effective_leg authorized accounts) legs = Ok ls →
  is_Some (dget i authorized) →
  i ∈ RouteLeg.leg_id <$> legs ↔ ∃ x, x ∈ concat ls ∧ shown_id x = Some (ascii_text i).
Proof.
  intros H Hi. rewrite list_elem_of_fmap. split.
  - intros (leg & -> & Hl). destruct (BundleFacts.validate_all_elem _ _ _ _ H Hl) as (l & He & Hin).
    apply effective_leg_Ok in He as [[_ E]|(granted & account & _ & ->)].
    { rewrite E in Hi. by destruct Hi. }
    exists (granted_leg leg granted account). split; [|done].
    apply list_elem_of_In, in_concat. exists [granted_leg leg granted account].
    split; [by apply list_elem_of_In|by left].
  - intros (x & (l & Hl%list_elem_of_In & Hx%list_elem_of_In)%list_elem_of_In%in_concat & Eid).
    destruct (BundleFacts.validate_all_elem_r _ _ _ _ H Hl) as (leg & He & Hleg).
    apply effective_leg_Ok in He as [[-> _]|(granted & account & _ & ->)]; [by apply elem_of_nil in Hx|].
    apply list_elem_of_singleton in Hx as ->. rewrite shown_granted in Eid. injection Eid as Eid.
    exists leg. split; [by apply ascii_text_inj|done].
Qed.

(** Every effective leg is a granted leg. *)
Lemma effective_legs_granted accounts legs ls x : validate_all (effective_leg authorized accounts) legs = Ok ls →
  x ∈ concat ls → ∃ leg granted account, x = granted_leg leg granted account.
Proof.
  intros H (l & Hl%list_elem_of_In & Hx%list_elem_of_In)%list_elem_of_In%in_concat.
  destruct (BundleFacts.validate_all_elem_r _ _ _ _ H Hl) as (leg & He & _).
  apply effective_leg_Ok in He as [[-> _]|(granted & account & _ & ->)]; [by apply elem_of_nil in Hx|].
  apply list_elem_of_singleton in Hx as ->. by exists leg, granted, account.
Qed.

(** Groups with the same effective legs have the same authorized legs. *)
Lemma effective_group_same accounts accounts' groups groups' gid x y i :
  effective_group groups authorized accounts gid = Ok x →
  effective_group groups' authorized accounts' gid = Ok y →
  py_eqb x y = true → is_Some (dget i authorized) →
  ∃ g h, dget gid groups = Some g ∧ dget gid groups' = Some h ∧
    (i ∈ RouteLeg.leg_id <$> RouteGroupRevision.legs g ↔ i ∈ RouteLeg.leg_id <$> RouteGroupRevision.legs h).
Proof.
  unfold effective_group, item. destruct (dget gid groups) as [g|]; [|done].
  destruct (dget gid groups') as [h|]; [|done]. cbn [mbind result_bind]. intros H1 H2 H Hi.
  apply bind_Ok in H1 as (ls & H1 & E1). apply bind_Ok in H2 as (ms & H2 & E2).
  injection E1 as <-. injection E2 as <-. apply jobj_eqb in H; [|reflexivity|distinct_keys].
  cbn [fmap list_fmap fst snd] in H. do 3 (apply Forall2_cons in H as [_ H]).
  apply Forall2_cons in H as [H _]. apply py_eqb_arr in H.
  exists g, h. split; [done|]. split; [done|].
  rewrite (effective_legs_show _ _ _ _ H1 Hi), (effective_legs_show _ _ _ _ H2 Hi).
  split; intros (z & [k Hz]%list_elem_of_lookup & Ez).
  - destruct (Forall2_lookup_l _ _ _ _ _ H Hz) as (w & Hw & Hzw). exists w.
    split; [by eapply list_elem_of_lookup_2|]. rewrite <-Ez. symmetry.
    destruct (effective_legs_granted _ _ _ z H1) as (l1 & g1 & a1 & ->); [by eapply list_elem_of_lookup_2|].
    destruct (effective_legs_granted _ _ _ w H2) as (l2 & g2 & a2 & ->); [by eapply list_elem_of_lookup_2|].
    by rewrite !shown_granted, (granted_leg_id _ _ _ _ _ _ Hzw).
  - destruct (Forall2_lookup_r _ _ _ _ _ H Hz) as (w & Hw & Hzw). exists w.
    split; [by eapply list_elem_of_lookup_2|]. rewrite <-Ez.
    destruct (effective_legs_granted _ _ _ z H2) as (l1 & g1 & a1 & ->); [by eapply list_elem_of_lookup_2|].
    destruct (effective_legs_granted _ _ _ w H1) as (l2 & g2 & a2 & ->); [by eapply list_elem_of_lookup_2|].
    by rewrite !shown_granted, (granted_leg_id _ _ _ _ _ _ Hzw).
Qed.
End Group.

(** ** What a key is authorized for, in two bundles *)
Implicit Types (b c : PolicyBundleV1).
Definition keys_of b := index ClientKeyRecord.key_id (PolicyBundleV1.keys b).
Definition policies_of b := index KeyPolicyRevision.policy_id (PolicyBundleV1.policies b).
Definition groups_of b := index RouteGroupRevision.route_group_id (PolicyBundleV1.route_groups b).

Inductive same_authority b c (k : string) : Prop :=
| no_key : dget k (keys_of b) = None → dget k (keys_of c) = None → same_authority b c k
| same_key key policy :
    dget k (keys_of b) = Some key → dget k (keys_of c) = Some key →
    dget (ClientKeyRecord.policy_id key) (policies_of b) = Some policy →
    dget (ClientKeyRecord.policy_id key) (policies_of c) = Some policy →
    (∀ gid l, gid ∈ KeyPolicyRevision.route_group_ids policy →
       l ∈ KeyPolicyRevision.authorized_legs policy →
       ∃ g h, dget gid (groups_of b) = Some g ∧ dget gid (groups_of c) = Some h ∧
         (AuthorizedLeg.leg_id l ∈ RouteLeg.leg_id <$> RouteGroupRevision.legs g ↔
          AuthorizedLeg.leg_id l ∈ RouteLeg.leg_id <$> RouteGroupRevision.legs h)) →
    same_authority b c k.

Lemma projection_same b c k v w : effective_key_projection b k = Ok v →
  effective_key_projection c k = Ok w → opt_eqb v w = true → same_authority b c k.
Proof.
  unfold effective_key_projection. fold (keys_of b) (keys_of c) (policies_of b) (policies_of c)
    (groups_of b) (groups_of c). intros H1 H2 H.
  destruct (dget k (keys_of b)) as [key|] eqn:K1, (dget k (keys_of c)) as [key'|] eqn:K2.
  - apply bind_Ok in H1 as (p & P1 & H1). apply bind_Ok in H1 as (gs & G1 & E1).
    apply bind_Ok in H2 as (q & P2 & H2). apply bind_Ok in H2 as (hs & G2 & E2).
    injection E1 as <-. injection E2 as <-. cbn [opt_eqb] in H.
    apply jobj_eqb in H; [|reflexivity|distinct_keys]. cbn [fmap list_fmap fst snd] in H.
    apply Forall2_cons in H as [Hkey H]. apply Forall2_cons in H as [Hpol H].
    apply Forall2_cons in H as [H _]. apply py_eqb_arr in H.
    apply (dump_eqb (dump := Dump.key_record)) in Hkey as <-.
    apply (dump_eqb (dump := Dump.key_policy)) in Hpol as <-.
    unfold item in P1, P2. destruct (dget _ (policies_of b)) as [p'|] eqn:Q1; [|done]. injection P1 as ->.
    destruct (dget _ (policies_of c)) as [q'|] eqn:Q2; [|done]. injection P2 as ->.
    eapply same_key; [done..|]. intros gid l Hg Hl. rewrite validate_all_Ok in G1, G2.
    apply list_elem_of_lookup in Hg as [i Hi].
    destruct (Forall2_lookup_l _ _ _ _ _ G1 Hi) as (x & X1 & X2).
    destruct (Forall2_lookup_l _ _ _ _ _ G2 Hi) as (y & Y1 & Y2).
    pose proof (Forall2_lookup_lr _ _ _ _ _ _ H X1 Y1) as Hxy.
    eapply effective_group_same; [exact X2|exact Y2|exact Hxy|].
    apply dget_is_Some. unfold index. apply CompiledBundle.elem_of_dkeys_dict_of.
    rewrite <-list_fmap_compose. by apply (list_elem_of_fmap_2 AuthorizedLeg.leg_id).
  - injection H2 as <-. apply bind_Ok in H1 as (p & _ & H1). apply bind_Ok in H1 as (gs & _ & E1).
    by injection E1 as <-.
  - injection H1 as <-. apply bind_Ok in H2 as (p & _ & H2). apply bind_Ok in H2 as (gs & _ & E2).
    by injection E2 as <-.
  - by apply no_key.
Qed.

Lemma unaffected_same b c diff affected k : affected_keys b c diff = Ok affected → k ∉ affected →
  same_authority b c k.
Proof.
  unfold affected_keys. set (ids := remove_dups _). intros H Hk.
  assert (k ∉ ids → same_authority b c k) as Habsent.
  { intros Hn. unfold ids in Hn. rewrite elem_of_remove_dups, fmap_app, elem_of_app in Hn.
    apply no_key; apply dget_None; unfold keys_of, index;
      rewrite CompiledBundle.elem_of_dkeys_dict_of, <-list_fmap_compose;
      intros Hin; apply Hn; [left|right]; exact Hin. }
  destruct (_ || _).
  { injection H as <-. apply Habsent. intros Hin. apply Hk. by apply elem_of_sorted_by. }
  apply bind_Ok in H as (parts & H & E). injection E as <-.
  destruct (decide (k ∈ ids)) as [Hin|]; [|by apply Habsent].
  destruct (BundleFacts.validate_all_elem _ _ _ _ H Hin) as (part & Hp & Hpart).
  unfold key_affected in Hp. apply bind_Ok in Hp as (v & V & Hp). apply bind_Ok in Hp as (w & W & Hp).
  injection Hp as <-. eapply projection_same; [exact V|exact W|].
  destruct (opt_eqb v w); [done|]. destruct Hk. apply elem_of_sorted_by, list_elem_of_In, in_concat.
  exists [k]. split; [by apply list_elem_of_In|by left].
Qed.

(** ** The route engine of each bundle *)
Section Engine.
Context (bundle_digest : PolicyBundleV1 → string).
Context (Hdigest : ∀ b, is_ok (typed_id_new BundleHash (bundle_digest b)) = true).
Import RouteEngine.

(** An answer but for the bundle it names. *)
Definition unversioned (r : result RequestAuthorizationCeiling) : result RequestAuthorizationCeiling :=
  c ← r; mret (c{{ RequestAuthorizationCeiling.bundle_generation := 0 }}
                {{ RequestAuthorizationCeiling.bundle_hash := "" }}).

Lemma validate_unversioned k cg p rg legs qt qw mc mw dl g h g' h' :
  1 ≤ g → 1 ≤ g' → is_ok (typed_id_new BundleHash h) = true → is_ok (typed_id_new BundleHash h') = true →
  unversioned (RequestAuthorizationCeiling.validate
    (RequestAuthorizationCeiling.mk k cg p g h rg legs qt qw mc mw dl)) =
  unversioned (RequestAuthorizationCeiling.validate
    (RequestAuthorizationCeiling.mk k cg p g' h' rg legs qt qw mc mw dl)).
Proof.
  intros Hg Hg' Hh Hh'. unfold RequestAuthorizationCeiling.validate.
  unfold RequestAuthorizationCeiling.scalars_ok.
  cbn [RequestAuthorizationCeiling.key_id RequestAuthorizationCeiling.credential_generation
    RequestAuthorizationCeiling.policy_id RequestAuthorizationCeiling.bundle_generation
    RequestAuthorizationCeiling.bundle_hash RequestAuthorizationCeiling.route_group_id
    RequestAuthorizationCeiling.authorized_legs RequestAuthorizationCeiling.queue_tier
    RequestAuthorizationCeiling.queue_weight RequestAuthorizationCeiling.max_concurrency
    RequestAuthorizationCeiling.max_waiters RequestAuthorizationCeiling.deadline_ms].
  rewrite (proj2 (Z.leb_le 1 g) Hg), (proj2 (Z.leb_le 1 g') Hg'), Hh, Hh'.
  destruct (raise_if _ field_error) as [[]|e]; [|done]. cbn [mbind result_bind].
  destruct (validate_all _ legs) as [ls|e]; [|done]. cbn [mbind result_bind].
  by destruct (raise_if _ _) as [[]|e].
Qed.

Lemma activate_Ok b e : activate bundle_digest b = Ok e → ∃ b', PolicyBundleV1.validate b = Ok b' ∧
  bundle e = b' ∧ 1 ≤ PolicyBundleV1.generation b' ∧ bundle_hash e = bundle_digest b' ∧
  keys e = keys_of b' ∧ policies e = policies_of b' ∧ groups e = groups_of b'.
Proof.
  unfold activate. intros H. apply bind_Ok in H as (b' & Hb & H). injection H as <-.
  exists b'. split; [done|]. split; [done|]. split; [|done].
  unfold PolicyBundleV1.validate in Hb. inv_ok Hb. subst b'.
  rewrite !orb_false_iff, negb_false_iff, !andb_true_iff, Z.leb_le in G. cbn. tauto.
Qed.

Lemma authorize_same b c e1 e2 client profile :
  activate bundle_digest b = Ok e1 → activate bundle_digest c = Ok e2 →
  (∀ b' c', PolicyBundleV1.validate b = Ok b' → PolicyBundleV1.validate c = Ok c' →
    same_authority b' c' (AuthenticatedClient.key_id client)) →
  unversioned (authorize e1 client profile) = unversioned (authorize e2 client profile).
Proof.
  intros (b' & Hb & B1 & B2 & B3 & B4 & B5 & B6)%activate_Ok
    (c' & Hc & C1 & C2 & C3 & C4 & C5 & C6)%activate_Ok Hsame.
  unfold authorize. rewrite B1, B3, B4, B5, C1, C3, C4, C5.
  destruct (Hsame b' c' Hb Hc) as [-> ->|key policy -> -> P1 P2 Hg]; [done|].
  destruct (bool_decide (ClientKeyRecord.policy_id key = AuthenticatedClient.policy_id client)) eqn:Ep.
  2: { by rewrite !orb_true_r. }
  apply bool_decide_eq_true in Ep. rewrite <-Ep, P1, P2. destruct (raise_if _ _) as [[]|x]; [|done].
  cbn [mbind result_bind].
  assert (group_legs e1 policy profile = group_legs e2 policy profile) as ->.
  { unfold group_legs. rewrite B6, C6.
    destruct (decide (RequestProfile.route_group_id profile ∈ KeyPolicyRevision.route_group_ids policy))
      as [Hin|Hn].
    2: { rewrite (bool_decide_false _ Hn). cbn [negb].
      by destruct (dget _ (groups_of b')), (dget _ (groups_of c')). }
    rewrite (bool_decide_true _ Hin). cbn [negb].
    destruct (KeyPolicyRevision.authorized_legs policy) as [|l0 legs] eqn:El.
    { by destruct (dget _ (groups_of b')), (dget _ (groups_of c')). }
    destruct (Hg _ l0 Hin) as (g & h & Eg & Eh & _); [by left|]. rewrite Eg, Eh.
    apply filter_ext_in. intros l Hl%list_elem_of_In. apply bool_decide_ext.
    destruct (Hg _ l Hin Hl) as (g' & h' & Eg' & Eh' & Hiff).
    assert (g' = g ∧ h' = h) as [<- <-] by (split; congruence). exact Hiff. }
  by apply validate_unversioned.
Qed.
End Engine.
End AuthorityFacts.

(** ** Signing what was planned *)
Module SigningFacts.
Import JsonFacts DumpFacts PlanFacts Planning Signing.

Lemma encodable_ascii_text s : encodable (ascii_text s) = true.
Proof.
  unfold encodable, ascii_text. apply forallb_forall. intros c Hc%list_elem_of_In.
  apply list_elem_of_fmap in Hc as (a & -> & _). pose proof (KeyMaterialFacts.byte_value_range a).
  unfold is_surrogate. apply negb_true_iff, andb_false_iff. left. apply Z.leb_gt. lia.
Qed.
Lemma serialize_text s : ∃ b, serialize_str (ascii_text s) = Ok b.
Proof.
  eexists. apply serialize_str_Ok; [apply text_ok_ascii|]. split; [apply encodable_ascii_text|done].
Qed.
Lemma serialize_jstr s : is_ok (serialize (jstr s)) = true.
Proof. destruct (serialize_text s) as [b Hb]. unfold jstr. cbn [serialize]. by rewrite Hb. Qed.
Lemma serialize_jint z : is_ok (serialize (JInt z)) = true ↔ - MAX_SAFE_INTEGER ≤ z ≤ MAX_SAFE_INTEGER.
Proof.
  cbn [serialize]. destruct ((_ <=? _) && _) eqn:E; cbn; bprop in E; split; try done; intros; lia.
Qed.

Lemma choose_all {A B} (P : A → B → Prop) l : Forall (λ x, ∃ y, P x y) l → ∃ k, Forall2 P l k.
Proof.
  induction 1 as [|x l [y Hy] _ [k Hk]]; [by exists []|]. exists (y :: k). by constructor.
Qed.
Lemma serialize_jobj l : Forall (λ p, is_ok (serialize p.2) = true) l → is_ok (serialize (jobj l)) = true.
Proof.
  intros Hl. unfold jobj. set (d := _ <$> l).
  destruct (choose_all (λ p b, member_text p = Ok b) (items_of d)) as [parts Hp].
  { rewrite items_perm. unfold d. apply Forall_fmap. eapply Forall_impl; [exact Hl|]. intros [k v] Hv.
    destruct (serialize_text k) as [a Ha]. cbn [snd] in Hv.
    destruct (serialize v) as [b|] eqn:Ev; [|done]. exists (a ++ ":"%char :: b).
    apply member_Ok. by exists a, b. }
  assert (serialize (JObj d) = Ok (literal_bytes "{" ++ join_comma parts ++ literal_bytes "}")) as ->; [|done].
  apply serialize_obj. split; [|by exists parts]. apply forallb_forall. intros k Hk%list_elem_of_In.
  unfold d, dkeys in Hk. rewrite <-list_fmap_compose in Hk. apply list_elem_of_fmap in Hk as (p & -> & _).
  apply encodable_ascii_text.
Qed.
Lemma serialize_field l k v : is_ok (serialize (jobj l)) = true → (k, v) ∈ l → is_ok (serialize v) = true.
Proof.
  intros H Hin. unfold jobj in H. destruct (serialize _) as [b|] eqn:E; [|done]. clear H.
  apply serialize_obj in E as (_ & parts & Hp & _).
  assert ((ascii_text k, v) ∈ items_of ((λ p : string * Json, (ascii_text p.1, p.2)) <$> l)) as Hi.
  { rewrite items_perm. by apply (list_elem_of_fmap_2 (λ p : string * Json, (ascii_text p.1, p.2)) l (k, v)). }
  apply list_elem_of_lookup in Hi as [i Hi].
  destruct (Forall2_lookup_l _ _ _ _ _ Hp Hi) as (c & _ & (k' & v' & _ & Hv & _)%member_Ok).
  cbn [snd] in Hv. by rewrite Hv.
Qed.

(** *** The envelope is read back *)
Definition ascii_only (f : charclass) : Prop := ∀ c, f c = true → byte_value c < 128.
Lemma range_ascii lo hi c : in_range lo hi c = true → byte_value c ≤ byte_value hi.
Proof. unfold in_range, byte_value. rewrite andb_true_iff, !N.leb_le. lia. Qed.
Lemma hex_ascii : ascii_only hex_class.
Proof.
  intros c H. unfold hex_class in H. apply orb_true_iff in H as [H|H]; apply range_ascii in H.
  - change (byte_value "9") with 57 in H. lia.
  - change (byte_value "f") with 102 in H. lia.
Qed.
Lemma pepper_ascii : ascii_only pepper_tail_class.
Proof.
  intros c H. unfold pepper_tail_class, alnum_class in H. rewrite !orb_true_iff, !Ascii.eqb_eq in H.
  destruct H as [[[[[H|H]|H]|H]|H]|H]; [apply range_ascii in H..|by subst|by subst|by subst].
  - change (byte_value "Z") with 90 in H. lia.
  - change (byte_value "z") with 122 in H. lia.
  - change (byte_value "9") with 57 in H. lia.
Qed.
Lemma hash_pattern_ascii : Forall ascii_only (id_pattern BundleHash).
Proof.
  unfold id_pattern, body_pattern, HEX64_PATTERN. apply Forall_app. split.
  - repeat constructor; intros c H; apply Ascii.eqb_eq in H; by subst.
  - apply Forall_replicate, hex_ascii.
Qed.
Lemma match_ascii p cs : Forall ascii_only p → match_classes p cs = true →
  forallb (λ c, (0 <=? c) && (c <? 128)) (byte_value <$> cs) = true.
Proof.
  intros Hp. revert cs. induction Hp as [|f p Hf _ IH]; intros [|c cs]; try done.
  cbn [match_classes]. rewrite andb_true_iff. intros [Hc Hm]. specialize (Hf c Hc).
  pose proof (KeyMaterialFacts.byte_value_range c). cbn [fmap list_fmap forallb].
  rewrite (IH cs Hm), andb_true_r. apply andb_true_iff. lia.
Qed.
Lemma as_str_ascii s : forallb (λ c, (0 <=? c) && (c <? 128)) (ascii_text s) = true → as_str (jstr s) = Some s.
Proof.
  intros H. unfold as_str, jstr, ascii_of_text. rewrite H. f_equal. unfold ascii_text.
  rewrite <-list_fmap_compose.
  assert (byte_of ∘ byte_value <$> String.list_ascii_of_string s = String.list_ascii_of_string s) as ->.
  { rewrite <-(list_fmap_id (String.list_ascii_of_string s)) at 2. apply list_fmap_ext. intros i c _.
    apply KeyMaterialFacts.byte_of_value. }
  apply String.string_of_list_ascii_of_string.
Qed.
Lemma hex64_read s : is_hex64 s = true → str_field (jstr s) = Ok s.
Proof.
  intros H. unfold str_field. rewrite as_str_ascii; [done|]. eapply match_ascii; [|exact H].
  apply Forall_replicate, hex_ascii.
Qed.
Lemma hash_read s : is_id BundleHash s = true → str_field (jstr s) = Ok s.
Proof.
  intros H. unfold str_field. rewrite as_str_ascii; [done|].
  eapply match_ascii; [apply hash_pattern_ascii|exact H].
Qed.
Lemma key_id_read s : is_key_id s = true → str_field (jstr s) = Ok s.
Proof.
  intros H. unfold str_field. rewrite as_str_ascii; [done|]. unfold is_key_id, is_pepper_version in H.
  unfold ascii_text. destruct (String.list_ascii_of_string s) as [|c cs]; [done|].
  rewrite !andb_true_iff in H. destruct H as [[Hc Hcs] _].
  apply (match_ascii (replicate (length (c :: cs)) pepper_tail_class)).
  { apply Forall_replicate, pepper_ascii. }
  cbn [length replicate match_classes]. apply andb_true_iff. split.
  { unfold pepper_tail_class. by rewrite Hc. }
  clear Hc. induction cs as [|d cs IH]; [done|]. cbn [forallb] in Hcs. apply andb_true_iff in Hcs as [Hd Hcs].
  cbn [length replicate match_classes]. by rewrite Hd, IH.
Qed.

Section Signatures.
Context `{E : Ed25519} `{P : Pydantic}.

Definition envelope_fields (e : ActivationEnvelope) : dict ustr Json :=
  match ActivationEnvelope.dump e with JObj d => d | _ => [] end.
Lemma envelope_field e k v : (ascii_text k, v) ∈ envelope_fields e → dget (ascii_text k) (envelope_fields e) = Some v.
Proof.
  apply elem_of_dget. change (dict_ok (envelope_fields e)) with (NoDup (ascii_text <$> ActivationEnvelope.field_names)).
  apply NoDup_fmap_2; [apply text_inj|distinct_keys].
Qed.
Ltac in_fields := unfold envelope_fields, ActivationEnvelope.dump, jobj; cbn [fmap list_fmap fst snd];
  repeat first [apply list_elem_of_here | apply list_elem_of_further].

Lemma model_validate_dump e : ActivationEnvelope.validate e = Ok e →
  ActivationEnvelope.model_validate (ActivationEnvelope.dump e) = Ok e.
Proof.
  intros H. assert (ActivationEnvelope.fields_ok e = true) as Hf.
  { unfold ActivationEnvelope.validate in H. apply bind_Ok in H as ([] & G & _).
    apply raise_if_Ok in G. by apply negb_false_iff in G. }
  unfold ActivationEnvelope.fields_ok in Hf. rewrite !andb_true_iff in Hf.
  destruct Hf as ((((((_ & H1) & _) & H2) & _) & H3) & Hx).
  cbn [forallb] in Hx. rewrite !andb_true_iff in Hx. destruct Hx as (H4 & H5 & H6 & H7 & _).
  unfold ActivationEnvelope.model_validate.
  assert (fields_of ActivationEnvelope.field_names (ActivationEnvelope.dump e) =
    Ok (envelope_fields e)) as -> by (by destruct e).
  cbn [mbind result_bind]. unfold field_or, field.
  rewrite (envelope_field e "schema_version" (JInt 1)) by in_fields.
  rewrite (envelope_field e "trust_epoch" (JInt (ActivationEnvelope.trust_epoch e))) by in_fields.
  rewrite (envelope_field e "base_generation" (JInt (ActivationEnvelope.base_generation e))) by in_fields.
  rewrite (envelope_field e "target_generation" (JInt (ActivationEnvelope.target_generation e))) by in_fields.
  rewrite (envelope_field e "signer_key_id" (jstr (ActivationEnvelope.signer_key_id e))) by in_fields.
  rewrite (envelope_field e "base_bundle_hash" (jstr (ActivationEnvelope.base_bundle_hash e))) by in_fields.
  rewrite (envelope_field e "target_content_hash" (jstr (ActivationEnvelope.target_content_hash e))) by in_fields.
  rewrite (envelope_field e "source_fingerprint" (jstr (ActivationEnvelope.source_fingerprint e))) by in_fields.
  rewrite (envelope_field e "security_fence" (jstr (ActivationEnvelope.security_fence e))) by in_fields.
  rewrite (envelope_field e "key_set_fence" (jstr (ActivationEnvelope.key_set_fence e))) by in_fields.
  rewrite (envelope_field e "impact_hash" (jstr (ActivationEnvelope.impact_hash e))) by in_fields.
  cbv zeta.
  cbn [mbind result_bind ActivationEnvelope.literal_one].
  rewrite !as_int_int. cbn [or_invalid mbind result_bind].
  rewrite (key_id_read _ H1). cbn [mbind result_bind]. rewrite (hash_read _ H2). cbn [mbind result_bind].
  rewrite (hash_read _ H3). cbn [mbind result_bind]. rewrite (hex64_read _ H4). cbn [mbind result_bind].
  rewrite (hex64_read _ H5). cbn [mbind result_bind]. rewrite (hex64_read _ H6). cbn [mbind result_bind].
  rewrite (hex64_read _ H7). cbn [mbind result_bind]. by destruct e.
Qed.
End Signatures.
End SigningFacts.

Module PlanTheorems.
Import DumpFacts PlanFacts Planning AuthorityFacts SigningFacts Signing.

(** C30. A plan holds for the state it was made from, and for no other.  It verifies
    against its own base with the source fingerprint it carries; and when it verifies
    against a bundle, that bundle, once validated, is the base: the same generation,
    reader and features, the same keys, accounts and policies, and the same whole document
    up to the order of arrays, or SHA-256 has a collision.  Without a fresh fingerprint it
    never verifies. *)
Theorem plan_fences_exact sha256 base target given plan :
  plan_change sha256 base target given = Ok plan →
  verify_against sha256 plan base (Some (ImpactPlan.source_fingerprint plan)) = Ok tt ∧
  (∀ current, is_ok (verify_against sha256 plan current None) = false) ∧
  ∀ current fresh, verify_against sha256 plan current (Some fresh) = Ok tt →
    fresh = ImpactPlan.source_fingerprint plan ∧
    ∃ base' current', PolicyBundleV1.validate base = Ok base' ∧
      PolicyBundleV1.validate current = Ok current' ∧
      (same_reviewed current' base' ∨ collision sha256).
Proof.
  intros (b & t & Hb & _ & G & _ & _ & _ & H1 & _ & H2 & H3 & H4 & H5 & _)%plan_Ok%pl_base.
  split; [|split; [done|]].
  - unfold verify_against. rewrite Hb. cbn [mbind result_bind]. rewrite G, Z.eqb_refl.
    rewrite H1, H2, H3, H4, H5. cbn [raise_if negb mbind result_bind].
    by rewrite !bool_decide_true by done.
  - intros current fresh H. unfold verify_against in H. apply bind_Ok in H as (c & Hc & H).
    apply bind_Ok in H as ([] & Gc & H). apply bind_Ok in H as (h1 & C1 & H).
    apply bind_Ok in H as ([] & E1 & H). apply bind_Ok in H as (h2 & C2 & H).
    apply bind_Ok in H as ([] & E2 & H). apply bind_Ok in H as (h3 & C3 & H).
    apply bind_Ok in H as ([] & E3 & H). apply bind_Ok in H as (h4 & C4 & H).
    apply bind_Ok in H as ([] & E4 & H). apply bind_Ok in H as ([] & _ & H).
    apply raise_if_Ok in Gc, E1, E2, E3, H. bprop. subst h1 h2 h3.
    split; [done|]. exists b, c. split; [done|]. split; [done|].
    destruct (hash_json_inj _ _ _ _ _ (source_document_ok _) (source_document_ok _) C2 H2)
      as [(R1 & R2 & R3)%source_document_same|]; [|by right].
    destruct (hash_json_inj _ _ _ _ _ (security_document_ok _) (security_document_ok _) C3 H3)
      as [(R4 & R5)%security_document_same|]; [|by right].
    destruct (hash_of_bundle_inj sha256 c b _ _ _ (bundle_validated_again _ _ Hc)
      (bundle_validated_again _ _ Hb) C1 H1) as [R6|]; [left|by right].
    split; [congruence|done..].
Qed.

(** C29. A plan misses no key.  For a key that a plan does not list as affected, the route
    engine on the target bundle answers every authorization of every client of that key
    as the engine on the base does, refusals included; only the bundle that a ceiling
    names differs. *)
Theorem unaffected_keys_keep_authority sha256 bundle_digest base target given plan e1 e2 client profile :
  (∀ b, is_ok (typed_id_new BundleHash (bundle_digest b)) = true) →
  plan_change sha256 base target given = Ok plan →
  RouteEngine.activate bundle_digest base = Ok e1 → RouteEngine.activate bundle_digest target = Ok e2 →
  AuthenticatedClient.key_id client ∉ ImpactPlan.affected_key_ids plan →
  unversioned (RouteEngine.authorize e1 client profile) =
  unversioned (RouteEngine.authorize e2 client profile).
Proof.
  intros Hd (b & t & Hb & Ht & _ & _ & _ & _ & _ & _ & _ & _ & _ & _ & Ha)%plan_Ok%pl_base H1 H2 Hk.
  apply (authorize_same bundle_digest Hd base target e1 e2 client profile H1 H2). intros b' c' Hb' Hc'.
  assert (b' = b) as -> by congruence. assert (c' = t) as -> by congruence.
  by eapply unaffected_same.
Qed.

(** C31. What was planned can be signed, and what was signed verifies.  The envelope of a
    plan is signed for exactly the base and the target planned, and the signed bytes are
    its canonical document; a verifier whose JSON parser reads that document back and whose
    trust set has the signer's public key in the envelope's epoch accepts the signature
    and returns that envelope. *)
Theorem planned_activation_verifies `{E : Ed25519} `{P : Pydantic} sha256 loads base target given plan
    trust_epoch signer envelope key :
  plan_change sha256 base target given = Ok plan →
  from_plan plan trust_epoch signer = Ok envelope → trust_epoch ≤ MAX_SAFE_INTEGER →
  ∃ signed, sign_activation sha256 envelope key (Some base) target = Ok signed ∧
    canonical_json_bytes (ActivationEnvelope.dump envelope) = Ok (SignedActivation.payload signed) ∧
    ∀ epochs keys, loads (SignedActivation.payload signed) = Ok (ActivationEnvelope.dump envelope) →
      dget trust_epoch epochs = Some keys → dget signer keys = Some (public_of key) →
      verify_activation loads (SignedActivation.payload signed) (SignedActivation.signature signed)
        (TrustSet epochs) = Ok envelope.
Proof.
  intros Hp Hf Hsafe. destruct (plan_Ok _ _ _ _ _ Hp) as
    [(b & t & Hb & Ht & G1 & G2 & Hlt & Hk & H1 & H2 & _) (p & Gp1 & Gp2 & Hi)].
  unfold from_plan in Hf. pose proof Hf as He. unfold ActivationEnvelope.validate in Hf.
  apply bind_Ok in Hf as ([] & Hok & Hf). apply bind_Ok in Hf as ([] & _ & Hf). injection Hf as <-.
  set (e := ActivationEnvelope.mk _ _ _ _ _ _ _ _ _ _) in *.
  assert (- MAX_SAFE_INTEGER ≤ ImpactPlan.base_generation plan ≤ MAX_SAFE_INTEGER) as Sb.
  { apply serialize_jint. rewrite <-Gp1. eapply (serialize_field _ "base_generation"); [exact Hi|].
    repeat first [apply list_elem_of_here | apply list_elem_of_further]. }
  assert (- MAX_SAFE_INTEGER ≤ ImpactPlan.target_generation plan ≤ MAX_SAFE_INTEGER) as St.
  { apply serialize_jint. rewrite <-Gp2. eapply (serialize_field _ "target_generation"); [exact Hi|].
    repeat first [apply list_elem_of_here | apply list_elem_of_further]. }
  assert (- MAX_SAFE_INTEGER ≤ trust_epoch ≤ MAX_SAFE_INTEGER) as Se.
  { split; [|done]. apply raise_if_Ok, negb_false_iff in Hok. unfold ActivationEnvelope.fields_ok in Hok.
    rewrite !andb_true_iff, Z.leb_le in Hok. destruct Hok as ((((((Hok & _) & _) & _) & _) & _) & _).
    change (ActivationEnvelope.trust_epoch e) with trust_epoch in Hok.
    change MAX_SAFE_INTEGER with 9007199254740991. lia. }
  destruct (canonical_json_bytes (ActivationEnvelope.dump e)) as [payload|x] eqn:Ec.
  2: { exfalso. assert (is_ok (serialize (ActivationEnvelope.dump e)) = true) as Hs;
      [|unfold canonical_json_bytes in Ec; by rewrite Ec in Hs].
    apply serialize_jobj. repeat (apply Forall_cons_2; [cbn [snd]; first
      [apply serialize_jstr | by apply serialize_jint]|]); apply Forall_nil_2. }
  exists (SignedActivation.mk payload (sign key payload) trust_epoch signer). split; [|split; [done|]].
  - unfold sign_activation. rewrite He, Ht. cbn [mbind result_bind]. unfold check_base. rewrite Hb.
    cbn [mbind result_bind]. rewrite Hk. cbn [mbind result_bind].
    change (ActivationEnvelope.base_generation e) with (ImpactPlan.base_generation plan).
    change (ActivationEnvelope.target_generation e) with (ImpactPlan.target_generation plan).
    change (ActivationEnvelope.base_bundle_hash e) with (ImpactPlan.base_bundle_hash plan).
    change (ActivationEnvelope.target_content_hash e) with (ImpactPlan.target_content_hash plan).
    rewrite G1, G2, !Z.eqb_refl, H1, H2. cbn [negb mbind result_bind].
    rewrite !bool_decide_true by done. cbn [negb raise_if mbind result_bind]. by rewrite Ec.
  - intros epochs keys Hl Hep Hkey. unfold verify_activation, parse_canonical, decode_envelope. cbn [SignedActivation.payload] in *.
    rewrite Hl, (model_validate_dump e He). cbn [mbind result_bind]. rewrite Ec. cbn [mbind result_bind].
    rewrite bool_decide_true by done. cbn [negb raise_if mbind result_bind mret result_ret].
    unfold trusted_key. change (ActivationEnvelope.trust_epoch e) with trust_epoch.
    change (ActivationEnvelope.signer_key_id e) with signer. rewrite Hep, Hkey. cbn [mbind result_bind].
    cbn [SignedActivation.signature]. by rewrite verify_sign.
Qed.
End PlanTheorems.

(** ** Witnesses *)
#[local] Existing Instance ActivationSamples.toy_keys.
#[local] Existing Instance ActivationSamples.exact_pydantic.
Module ImpactSamples.
Import Planning.
Abbreviation sha := ActivationSamples.sha256.
(** A new policy, which no key is bound to, and the shared rebind of [ConfigSamples]. *)
Definition addition : PolicyBundleV1 :=
  match Compile.compile_authoring (ConfigSamples.config{{ AuthoringConfigV1.policies ::= tail }})
    ConfigSamples.discovery Samples.bundle with Ok b => b | Err _ => Samples.bundle end.
Definition rebinding : PolicyBundleV1 := ConfigSamples.compiled Samples.bundle.
Definition blank : ImpactPlan :=
  ImpactPlan.mk 1 0 "" "" "" "" "" [] 0 "" (SemanticDiff.mk [] [] [] [] [] false false false) [] "".
Definition plan (target : PolicyBundleV1) : ImpactPlan :=
  match plan_change sha Samples.bundle target None with Ok p => p | Err _ => blank end.
Lemma addition_planned : plan_change sha Samples.bundle addition None = Ok (plan addition).
Proof. by vm_compute. Qed.
Lemma rebinding_planned : plan_change sha Samples.bundle rebinding None = Ok (plan rebinding).
Proof. by vm_compute. Qed.
Lemma addition_affects : ImpactPlan.affected_key_ids (plan addition) = [].
Proof. by vm_compute. Qed.
Lemma rebinding_affects : ImpactPlan.affected_key_ids (plan rebinding) = [Samples.key].
Proof. by vm_compute. Qed.
(** The same plan is stale once the key's record has moved on. *)
Example stale_after_rotation :
  verify_against sha (plan addition) (ConfigSamples.with_keys [Samples.key_rotated])
    (Some (ImpactPlan.source_fingerprint (plan addition))) =
  Err (StalePreview "base bundle content changed").
Proof. by vm_compute. Qed.

Definition engine (b : PolicyBundleV1) : RouteEngine :=
  match RouteEngine.activate RoutingSamples.digest b with
  | Ok e => e
  | Err _ => RoutingSamples.engine
  end.
Lemma base_engine : RouteEngine.activate RoutingSamples.digest Samples.bundle = Ok (engine Samples.bundle).
Proof. by vm_compute. Qed.
Lemma addition_engine : RouteEngine.activate RoutingSamples.digest addition = Ok (engine addition).
Proof. by vm_compute. Qed.
Lemma digest_valid b : is_ok (typed_id_new BundleHash (RoutingSamples.digest b)) = true.
Proof. by vm_compute. Qed.
Lemma base_authorized : is_ok (AuthorityFacts.unversioned (RouteEngine.authorize (engine Samples.bundle)
  RoutingSamples.client RoutingSamples.profile)) = true.
Proof. by vm_compute. Qed.

Definition envelope : ActivationEnvelope :=
  match from_plan (plan addition) 3 "signer" with
  | Ok e => e
  | Err _ => ActivationEnvelope.mk 1 "" 0 "" 0 "" "" "" "" ""
  end.
Lemma envelope_made : from_plan (plan addition) 3 "signer" = Ok envelope.
Proof. by vm_compute. Qed.
Definition loads (_ : bytes) : result Json := Ok (ActivationEnvelope.dump envelope).
Definition signing_key : private_key := 5.
Definition trust : dict Z (dict string public_key) := [(3, [("signer", public_of signing_key)])].
End ImpactSamples.

Lemma plan_fences_exact_witness :
  Planning.verify_against ImpactSamples.sha (ImpactSamples.plan ImpactSamples.addition) Samples.bundle
    (Some (ImpactPlan.source_fingerprint (ImpactSamples.plan ImpactSamples.addition))) = Ok tt.
Proof.
  exact (proj1 (PlanTheorems.plan_fences_exact ImpactSamples.sha Samples.bundle ImpactSamples.addition None
    (ImpactSamples.plan ImpactSamples.addition) ImpactSamples.addition_planned)).
Defined.

Lemma unaffected_keys_keep_authority_witness :
  ImpactPlan.affected_key_ids (ImpactSamples.plan ImpactSamples.rebinding) = [Samples.key] ∧
  is_ok (AuthorityFacts.unversioned (RouteEngine.authorize (ImpactSamples.engine ImpactSamples.addition)
    RoutingSamples.client RoutingSamples.profile)) = true.
Proof.
  split; [exact ImpactSamples.rebinding_affects|].
  rewrite <-(PlanTheorems.unaffected_keys_keep_authority ImpactSamples.sha RoutingSamples.digest
    Samples.bundle ImpactSamples.addition None (ImpactSamples.plan ImpactSamples.addition)
    (ImpactSamples.engine Samples.bundle) (ImpactSamples.engine ImpactSamples.addition)
    RoutingSamples.client RoutingSamples.profile ImpactSamples.digest_valid
    ImpactSamples.addition_planned ImpactSamples.base_engine ImpactSamples.addition_engine).
  - exact ImpactSamples.base_authorized.
  - rewrite ImpactSamples.addition_affects. apply not_elem_of_nil.
Defined.

Lemma planned_activation_verifies_witness :
  ∃ signed, Signing.sign_activation ImpactSamples.sha ImpactSamples.envelope ImpactSamples.signing_key (Some Samples.bundle)
      ImpactSamples.addition = Ok signed ∧
    Signing.verify_activation ImpactSamples.loads (SignedActivation.payload signed)
      (SignedActivation.signature signed) (Signing.TrustSet ImpactSamples.trust) = Ok ImpactSamples.envelope.
Proof.
  destruct (PlanTheorems.planned_activation_verifies ImpactSamples.sha ImpactSamples.loads
    Samples.bundle ImpactSamples.addition None (ImpactSamples.plan ImpactSamples.addition) 3 "signer"
    ImpactSamples.envelope ImpactSamples.signing_key ImpactSamples.addition_planned ImpactSamples.envelope_made ltac:(done))
    as (signed & Hs & _ & H).
  exists signed. split; [exact Hs|].
  exact (H ImpactSamples.trust [("signer", public_of ImpactSamples.signing_key)] eq_refl eq_refl eq_refl).
Defined.
