(* ===== verification/Streaming.v ===== *)
(** * Attempt permits and the streaming relay

    [gateway/streaming.py].  The pool of attempt permits is a state machine whose steps
    are what a task does between two suspensions: no body of the pool suspends while it
    holds the condition's lock, so the lock is never contended.  The relay is a function
    of what its awaits give: every chunk of the upstream iterator, every answer of the
    ASGI server, and which of the operation, the disconnection of the client and a
    cancellation of the task comes first.  The HTTP client itself is the environment. *)
From S2P Require Export Ingress.
From Stdlib Require Import Ascii.
#[local] Open Scope Z_scope.

Definition HTTP_POOL_CONNECTIONS : Z := 160.
Definition ATTEMPT_PERMITS : Z := 144.
Definition FOREGROUND_PERMITS : Z := 128.
Definition RECOVERY_PERMITS : Z := 8.
Definition DISCOVERY_QUALIFICATION_PERMITS : Z := 8.
Definition RAW_CHUNK_BYTES : Z := 64 * 1024.
Definition MAX_PRESTART_ERROR_BYTES : Z := 128 * 1024.

(** ** Attempt permits *)
Module PermitClass.
Inductive t := FOREGROUND | RECOVERY | DISCOVERY | QUALIFICATION.
End PermitClass.
Abbreviation PermitClass := PermitClass.t.

(** The names of the partitions, and a number for each. *)
Inductive Partition := Foreground | Recovery | DiscoveryQualification.
#[export] Instance Partition_eq_dec : EqDecision Partition.
Proof. solve_decision. Defined.
Definition partitions : list Partition := [Foreground; Recovery; DiscoveryQualification].

Module Counts.
Record t := mk { foreground : Z; recovery : Z; discovery_qualification : Z }.
Definition count (p : Partition) (c : t) : Z :=
  match p with
  | Foreground => foreground c
  | Recovery => recovery c
  | DiscoveryQualification => discovery_qualification c
  end.
Definition add (p : Partition) (n : Z) (c : t) : t :=
  match p with
  | Foreground => mk (foreground c + n) (recovery c) (discovery_qualification c)
  | Recovery => mk (foreground c) (recovery c + n) (discovery_qualification c)
  | DiscoveryQualification => mk (foreground c) (recovery c) (discovery_qualification c + n)
  end.
Definition total (c : t) : Z := foreground c + recovery c + discovery_qualification c.
End Counts.
Abbreviation Counts := Counts.t.

(** [_LIMITS] *)
Definition LIMITS : Counts :=
  Counts.mk FOREGROUND_PERMITS RECOVERY_PERMITS DISCOVERY_QUALIFICATION_PERMITS.
Definition limit (p : Partition) : Z := Counts.count p LIMITS.

Module AttemptPermit.
Record t := mk { partition : Partition; shadow : bool; released : bool }.
End AttemptPermit.
Abbreviation AttemptPermit := AttemptPermit.t.

(** A task suspended in [acquire]: its future is set once it is notified. *)
Inductive WaitStage := Waiting (notified : bool) | Left.
#[export] Instance WaitStage_eq_dec : EqDecision WaitStage.
Proof. solve_decision. Defined.
Module Acquiring.
Record t := mk { partition : Partition; stage : WaitStage }.
End Acquiring.
Abbreviation Acquiring := Acquiring.t.

Module AttemptPermitPool.
Record t := mk {
  active : Counts;
  waiters : Counts;
  permits : list AttemptPermit;    (* handed out, in order *)
  tasks : list Acquiring;          (* the calls of [acquire] that had to wait *)
}.
(** [__init__] *)
Definition init : result t :=
  raise_if (negb (Counts.total LIMITS =? ATTEMPT_PERMITS))
    (RuntimeError "attempt permit partitions do not sum to 144");;
  mret (mk (Counts.mk 0 0 0) (Counts.mk 0 0 0) [] []).
End AttemptPermitPool.
Abbreviation AttemptPermitPool := AttemptPermitPool.t.

Module Permits.
Import AttemptPermitPool.
Implicit Types s : AttemptPermitPool.

(** [_partition] *)
Definition partition_of (kind : PermitClass) : Partition :=
  match kind with
  | PermitClass.FOREGROUND => Foreground
  | PermitClass.RECOVERY => Recovery
  | PermitClass.DISCOVERY | PermitClass.QUALIFICATION => DiscoveryQualification
  end.

Definition add_active (p : Partition) (n : Z) : M AttemptPermitPool unit :=
  modify (λ s, mk (Counts.add p n (active s)) (waiters s) (permits s) (tasks s)).
Definition add_waiters (p : Partition) (n : Z) : M AttemptPermitPool unit :=
  modify (λ s, mk (active s) (Counts.add p n (waiters s)) (permits s) (tasks s)).
Definition set_permits (f : list AttemptPermit → list AttemptPermit) : M AttemptPermitPool unit :=
  modify (λ s, mk (active s) (waiters s) (f (permits s)) (tasks s)).
Definition set_tasks (f : list Acquiring → list Acquiring) : M AttemptPermitPool unit :=
  modify (λ s, mk (active s) (waiters s) (permits s) (f (tasks s))).

(** [AttemptPermit(self, partition, shadow=...)]: its index in [permits] *)
Definition new_permit (p : Partition) (shadow : bool) : M AttemptPermitPool nat :=
  s ← get;
  set_permits (λ l, l ++ [AttemptPermit.mk p shadow false]);;
  mret (length (permits s)).

(** One test of [acquire]'s [while], and what follows it when the loop ends: the permit,
    or [None] when the task waits (again). *)
Definition pass (p : Partition) : M AttemptPermitPool (option nat) :=
  s ← get;
  if limit p <=? Counts.count p (active s) then mret None
  else
    add_active p 1;;
    add_waiters p (-1);;
    permit ← new_permit p false;
    mret (Some permit).

(** [acquire], up to its first suspension *)
Definition acquire (kind : PermitClass) : M AttemptPermitPool (option nat) :=
  let p := partition_of kind in
  add_waiters p 1;;
  granted ← pass p;
  match granted with
  | Some permit => mret (Some permit)
  | None => set_tasks (λ l, l ++ [Acquiring.mk p (Waiting false)]);; mret None
  end.

(** A task that was notified runs. *)
Definition resume (i : nat) : M AttemptPermitPool (option nat) :=
  s ← get;
  match tasks s !! i with
  | Some (Acquiring.mk p (Waiting true)) =>
      granted ← pass p;
      set_tasks (λ l, <[i := Acquiring.mk p (match granted with Some _ => Left | None => Waiting false end)]> l);;
      mret granted
  | _ => mret None
  end.

(** A task that waits is cancelled, notified or not: the [finally] runs. *)
Definition cancel (i : nat) : M AttemptPermitPool (option nat) :=
  s ← get;
  match tasks s !! i with
  | Some (Acquiring.mk p (Waiting _)) =>
      add_waiters p (-1);;
      set_tasks (λ l, <[i := Acquiring.mk p Left]> l);;
      raise CancelledError
  | _ => mret None
  end.

(** [try_shadow] *)
Definition try_shadow : M AttemptPermitPool (option nat) :=
  s ← get;
  if negb (Counts.foreground (waiters s) =? 0) ||
     (FOREGROUND_PERMITS <=? Counts.foreground (active s)) then mret None
  else
    add_active Foreground 1;;
    permit ← new_permit Foreground true;
    mret (Some permit).

(** [notify_all] *)
Definition notify (t : Acquiring) : Acquiring :=
  match Acquiring.stage t with
  | Waiting _ => Acquiring.mk (Acquiring.partition t) (Waiting true)
  | Left => t
  end.
(** [_release] *)
Definition release_partition (p : Partition) : M AttemptPermitPool unit :=
  s ← get;
  if Counts.count p (active s) <? 1 then raise (RuntimeError "attempt permit underflow")
  else
    add_active p (-1);;
    set_tasks (fmap notify).
(** [AttemptPermit.release] *)
Definition release (i : nat) : M AttemptPermitPool unit :=
  s ← get;
  match permits s !! i with
  | None => mret tt
  | Some permit =>
      if AttemptPermit.released permit then mret tt
      else
        set_permits (λ l, <[i := AttemptPermit.mk (AttemptPermit.partition permit)
                                   (AttemptPermit.shadow permit) true]> l);;
        release_partition (AttemptPermit.partition permit)
  end.

(** [snapshot], with [total_active] and [total_waiters] *)
Definition snapshot s : Counts * Counts := (active s, waiters s).
Definition total_active s : Z := Counts.total (active s).
Definition total_waiters s : Z := Counts.total (waiters s).

(** A condition variable may wake a task spuriously ([Condition.wait] of a cancelled task
    passes its notification on). *)
Definition wake (i : nat) : M AttemptPermitPool unit :=
  set_tasks (λ l, match l !! i with Some t => <[i := notify t]> l | None => l end).

(** What the tasks of the process do, in any order. *)
Inductive op :=
| Acquire (kind : PermitClass)
| Wake (i : nat)
| Resume (i : nat)
| Cancel (i : nat)
| TryShadow
| Release (i : nat).
Definition run_op (o : op) : M AttemptPermitPool (option nat) :=
  match o with
  | Acquire kind => acquire kind
  | Wake i => wake i;; mret None
  | Resume i => resume i
  | Cancel i => cancel i
  | TryShadow => try_shadow
  | Release i => release i;; mret None
  end.
Fixpoint run (ops : list op) s : AttemptPermitPool :=
  match ops with [] => s | o :: ops => run ops (run_op o s).1 end.
End Permits.

(** ** The process's HTTP client *)
Module HTTPClientConfig.
Record t := mk {
  origin : string;
  max_connections : Z;
  max_keepalive_connections : Z;
  trust_env : bool;
  follow_redirects : bool;
  verify_tls : bool;
  retries : Z;
  (* in milliseconds *)
  connect_timeout : Z;
  write_timeout : Z;
  read_inactivity_timeout : Z;
  pool_timeout : Z;
}.
End HTTPClientConfig.
Abbreviation HTTPClientConfig := HTTPClientConfig.t.

Module ProcessHTTPClient.
Record t := mk { config : HTTPClientConfig; closed : bool }.

(** [__init__] *)
Definition init (origin : string)
    (connect_timeout write_timeout read_inactivity_timeout pool_timeout : Z) : result t :=
  raise_if (negb (String.prefix "http://" origin || String.prefix "https://" origin) ||
            ends_with (text_bytes "/") (text_bytes origin))
    (ValueError "LiteLLM origin must be an absolute URL without a trailing slash");;
  raise_if (existsb (λ v, v <=? 0) [connect_timeout; write_timeout; read_inactivity_timeout; pool_timeout])
    (ValueError "HTTP timeouts must be positive");;
  mret (mk (HTTPClientConfig.mk origin HTTP_POOL_CONNECTIONS HTTP_POOL_CONNECTIONS false false true 0
              connect_timeout write_timeout read_inactivity_timeout pool_timeout) false).

Definition client_count (c : t) : Z := if closed c then 0 else 1.

(** [send]: what is asked of the client, whose answer is [upstream]. *)
Definition send {R} (upstream : string → string → result R) (method path : string) (c : t) : result R :=
  raise_if (closed c) (RuntimeError "process HTTP client is closed");;
  raise_if (negb (String.prefix "/v1/" path) ||
            existsb (λ ch, Ascii.eqb ch "?" || Ascii.eqb ch "#") (String.list_ascii_of_string path))
    (ValueError "upstream path is outside the certified route table");;
  upstream method path.

Definition aclose (c : t) : t := mk (config c) true.
End ProcessHTTPClient.
Abbreviation ProcessHTTPClient := ProcessHTTPClient.t.

(** ** What a response is relayed with *)

(** The status line and the raw headers of a response of the client; its body is what the
    iterator gives. *)
Module Response.
Record t := mk { status_code : Z; raw : list header }.
End Response.
Abbreviation Response := Response.t.

Definition HOP_HEADERS : list bytes := text_bytes <$>
  ["connection"; "keep-alive"; "proxy-authenticate"; "proxy-authorization"; "te"; "trailer";
   "transfer-encoding"; "upgrade"].

(** The tokens of every [Connection] header. *)
Definition connection_tokens (raw : list header) : list bytes :=
  h ← List.filter (λ h : header, bool_decide (bytes_lower h.1 = text_bytes "connection")) raw;
  (λ token, bytes_lower (strip bytes_space token)) <$> split_byte "," h.2.

Definition response_headers (response : Response) : list header :=
  let tokens := connection_tokens (Response.raw response) in
  (λ h : header, (bytes_lower h.1, h.2)) <$>
    List.filter (λ h : header,
      negb (bool_decide (bytes_lower h.1 ∈ HOP_HEADERS)) &&
      negb (bool_decide (bytes_lower h.1 ∈ tokens)) &&
      negb (bool_decide (bytes_lower h.1 = text_bytes "content-length"))) (Response.raw response).

(** The messages the ASGI server accepts. *)
Inductive message :=
| StartMessage (status : Z) (headers : list header)
| BodyMessage (body : bytes) (more_body : bool).

(** A [ResponseStart] and what it and the relay have had accepted; [first_byte] counts
    the calls of [on_first_byte]. *)
Module Relay.
Record t := mk { started : bool; messages : list message; first_byte : Z }.
Definition init : t := mk false [] 0.
End Relay.
Abbreviation Relay := Relay.t.

Module Stream.
Import Relay.
Implicit Types st : Relay.

(** The server's answer to a message: it takes it, or raises. *)
Definition send (m : message) (answer : result unit) : M Relay unit :=
  match answer with
  | Ok _ => modify (λ st, mk (started st) (messages st ++ [m]) (first_byte st))
  | Err e => raise e
  end.

(** ** [ResponseStart.send] *)

(** What happens to one call: a cancellation while it awaits the lock; the cancellations
    that arrive while the shielded operation runs; and how that operation ends. *)
Module Sending.
Record t := mk { lock_cancelled : bool; interruptions : nat; answer : result unit }.
End Sending.
Abbreviation Sending := Sending.t.

Fixpoint shielded (m : message) (answer : result unit) (interruptions : nat) (cancelled : bool) :
    M Relay unit :=
  match interruptions with
  | S n => shielded m answer n true
  | O =>
      match answer with
      | Err e => raise (if cancelled then CancelledError else e)
      | Ok _ =>
          send m answer;;
          modify (λ st, mk true (messages st) (first_byte st));;
          if cancelled then raise CancelledError else mret tt
      end
  end.

Definition response_start (w : Sending) (status : Z) (headers : list header) : M Relay unit :=
  if Sending.lock_cancelled w then raise CancelledError
  else
    st ← get;
    if started st then raise ResponseAlreadyStarted
    else shielded (StartMessage status headers) (Sending.answer w) (Sending.interruptions w) false.

(** ** Awaiting with an eye on the client *)

(** What comes first: the operation, the disconnection of the client (also when the
    operation is done at the same time), or a cancellation of the task. *)
Inductive race := Completed | Disconnected | TaskCancelled.

(** [_await_or_disconnect]: in the last two cases the operation is cancelled and awaited,
    and what it did stays done. *)
Definition await_or_disconnect {A} (first : race) (operation : M Relay A) : M Relay A :=
  match first with
  | Completed => operation
  | Disconnected => catch (λ _, true) (operation;; mret tt) (λ _, mret tt);; raise DownstreamDisconnected
  | TaskCancelled => catch (λ _, true) (operation;; mret tt) (λ _, mret tt);; raise CancelledError
  end.

(** [except CancelledError: raise], [except DownstreamDisconnected: raise] and
    [except Exception] (a [CancelledError] is none) *)
Definition downstream_failure {A} (m : M Relay A) (msg : string) : M Relay A :=
  catch (λ e, negb (bool_decide (e = CancelledError)) && negb (bool_decide (e = DownstreamDisconnected)))
    m (λ _, raise (DownstreamStreamError msg)).

(** [_next_with_timeout], of what [anext] gives or raises within the time *)
Definition next_with_timeout (next : result bytes) : result (option bytes) :=
  match next with
  | Ok chunk => Ok (Some chunk)
  | Err StopAsyncIteration => Ok None
  | Err (TimeoutError _) => Err (UpstreamStreamError "upstream stream stalled")
  | Err (HTTPError _) | Err (OSError _) => Err (UpstreamStreamError "upstream stream failed")
  | Err e => Err e
  end.

(** [if chunk and not first_observed: ...]: whether the first byte has been seen; the
    callback, if there is one, may raise. *)
Definition observe (on_first_byte : option (result unit)) (chunk : bytes) (first_observed : bool) :
    M Relay bool :=
  if negb (bool_decide (chunk = [])) && negb first_observed then
    match on_first_byte with
    | None => mret true
    | Some r =>
        modify (λ st, mk (started st) (messages st) (first_byte st + 1));;
        lift r;;
        mret true
    end
  else mret first_observed.

(** ** [relay_raw_response] *)

(** One turn of the loop. *)
Module Turn.
Record t := mk { next_race : race; next : result bytes; send_race : race; answer : result unit }.
End Turn.
Abbreviation Turn := Turn.t.
(** The turn in which the iterator gives no more chunks, and the last message. *)
Module Ending.
Record t := mk { next_race : race; raised : exn; final_race : race; answer : result unit }.
End Ending.
Abbreviation Ending := Ending.t.

Section Relaying.
Context (on_first_byte : option (result unit)).

Definition finish (ending : Ending) (sent : Z) : M Relay Z :=
  downstream_failure
    (await_or_disconnect (Ending.final_race ending) (send (BodyMessage [] false) (Ending.answer ending)))
    "downstream stream finalization failed";;
  mret sent.

Fixpoint relay_loop (turns : list Turn) (ending : Ending) (first_observed : bool) (sent : Z) :
    M Relay Z :=
  match turns with
  | [] =>
      chunk ← await_or_disconnect (Ending.next_race ending)
                (lift (next_with_timeout (Err (Ending.raised ending))));
      finish ending sent
  | turn :: turns =>
      chunk ← await_or_disconnect (Turn.next_race turn) (lift (next_with_timeout (Turn.next turn)));
      match chunk with
      | None => finish ending sent
      | Some chunk =>
          first_observed ← observe on_first_byte chunk first_observed;
          downstream_failure
            (await_or_disconnect (Turn.send_race turn) (send (BodyMessage chunk true) (Turn.answer turn)))
            "downstream stream failed";;
          relay_loop turns ending first_observed (sent + zlen chunk)
      end
  end.

Definition relay_raw_response (response : Response) (start_race : race) (start : Sending)
    (turns : list Turn) (ending : Ending) : M Relay Z :=
  downstream_failure
    (await_or_disconnect start_race
       (response_start start (Response.status_code response) (response_headers response)))
    "downstream rejected response headers";;
  relay_loop turns ending false 0.

(** ** [read_prestart_error] and [drain_raw_response] *)
Fixpoint prestart_loop (nexts : list (result bytes)) (ending : exn) (first_observed : bool)
    (body : bytes) : M Relay bytes :=
  match nexts with
  | [] => lift (next_with_timeout (Err ending));; mret body
  | next :: nexts =>
      chunk ← lift (next_with_timeout next);
      match chunk with
      | None => mret body
      | Some chunk =>
          first_observed ← observe on_first_byte chunk first_observed;
          if MAX_PRESTART_ERROR_BYTES <? zlen body + zlen chunk
          then raise (UpstreamStreamError "upstream error envelope exceeds the bounded classifier input")
          else prestart_loop nexts ending first_observed (body ++ chunk)
      end
  end.
Definition read_prestart_error (nexts : list (result bytes)) (ending : exn) : M Relay bytes :=
  prestart_loop nexts ending false [].

Fixpoint drain_loop (nexts : list (result bytes)) (ending : exn) (first_observed : bool)
    (total : Z) : M Relay Z :=
  match nexts with
  | [] => lift (next_with_timeout (Err ending));; mret total
  | next :: nexts =>
      chunk ← lift (next_with_timeout next);
      match chunk with
      | None => mret total
      | Some chunk =>
          first_observed ← observe on_first_byte chunk first_observed;
          drain_loop nexts ending first_observed (total + zlen chunk)
      end
  end.
Definition drain_raw_response (nexts : list (result bytes)) (ending : exn) : M Relay Z :=
  drain_loop nexts ending false 0.
End Relaying.

(** ** [relay_buffered_response] *)

(** [body[offset : offset + RAW_CHUNK_BYTES]], for the offsets of the range *)
Definition slice (body : bytes) (offset : Z) : bytes :=
  take (Z.to_nat RAW_CHUNK_BYTES) (drop (Z.to_nat offset) body).
Definition offsets (n : Z) : list Z :=
  (λ k, Z.of_nat k * RAW_CHUNK_BYTES) <$> seq 0 (Z.to_nat ((n + RAW_CHUNK_BYTES - 1) / RAW_CHUNK_BYTES)).

(** The server's answer to the chunk at an offset, and to the last message. *)
Definition relay_buffered_response (response : Response) (body : bytes) (start : Sending)
    (answers : Z → result unit) (last : result unit) : M Relay unit :=
  catch (λ e, negb (bool_decide (e = CancelledError)))
    (response_start start (Response.status_code response) (response_headers response);;
     for_each (λ offset, send (BodyMessage (slice body offset) true) (answers offset))
       (offsets (zlen body));;
     send (BodyMessage [] false) last)
    (λ _, raise (DownstreamStreamError "downstream buffered response failed")).
End Stream.
