(* ===== verification/StreamingProps.v ===== *)
(** * What attempt permits and the relay guarantee

    The permits of every partition are those held, within its limit, whatever the tasks
    do, and no waiting task misses its wake-up; what a client receives of a response is
    what the upstream sent, begun once and completed only when it was complete. *)
From S2P Require Export Streaming IngressFacts.
From Stdlib Require Import Ascii.
#[local] Open Scope Z_scope.

(** ** The pool *)
Module PermitFacts.
Import AttemptPermitPool Permits.
Implicit Types s : AttemptPermitPool.

Definition held (p : Partition) (m : AttemptPermit) : Z :=
  if bool_decide (AttemptPermit.partition m = p) && negb (AttemptPermit.released m) then 1 else 0.
Definition waiting (p : Partition) (t : Acquiring) : Z :=
  if bool_decide (Acquiring.partition t = p) && negb (bool_decide (Acquiring.stage t = Left)) then 1 else 0.

Lemma held_nonneg p m : 0 ≤ held p m.
Proof. unfold held. by destruct (_ && _). Qed.
Lemma waiting_nonneg p t : 0 ≤ waiting p t.
Proof. unfold waiting. by destruct (_ && _). Qed.
Lemma waiting_task p q b : waiting p (Acquiring.mk q (Waiting b)) = if bool_decide (q = p) then 1 else 0.
Proof. unfold waiting. cbn. by rewrite andb_true_r. Qed.
Lemma left_task p q : waiting p (Acquiring.mk q Left) = 0.
Proof. unfold waiting. cbn. by rewrite andb_false_r. Qed.
Lemma held_permit p q shadow : held p (AttemptPermit.mk q shadow false) = if bool_decide (q = p) then 1 else 0.
Proof. unfold held. cbn. by rewrite andb_true_r. Qed.
Lemma released_permit p q shadow : held p (AttemptPermit.mk q shadow true) = 0.
Proof. unfold held. cbn. by rewrite andb_false_r. Qed.
Lemma notify_waiting p t : waiting p (notify t) = waiting p t.
Proof. by destruct t as [q []]. Qed.
Lemma lsum_notify p l : lsum (waiting p) (notify <$> l) = lsum (waiting p) l.
Proof. induction l as [|t l IH]; [done|]. rewrite fmap_cons. cbn [lsum]. by rewrite IH, notify_waiting. Qed.
Lemma count_add p q n c : Counts.count p (Counts.add q n c) = Counts.count p c + (if bool_decide (q = p) then n else 0).
Proof. case_bool_decide as E; [subst; by destruct p|]. destruct p, q; cbn; by rewrite ?Z.add_0_r. Qed.

(** A task that waits and was not notified has a full partition before it. *)
Record permit_inv s : Prop := {
  pi_active p : Counts.count p (active s) = lsum (held p) (permits s);
  pi_limit p : Counts.count p (active s) ≤ limit p;
  pi_waiters p : Counts.count p (waiters s) = lsum (waiting p) (tasks s);
  pi_notified p : Acquiring.mk p (Waiting false) ∈ tasks s → limit p ≤ Counts.count p (active s);
}.

Lemma permit_inv_init : permit_inv (mk (Counts.mk 0 0 0) (Counts.mk 0 0 0) [] []).
Proof. split; intros []; cbn; try done; by intros ?%elem_of_nil. Qed.

(** [m] keeps the invariant and raises nothing but a cancellation. *)
Definition permits_kept {A} (m : M AttemptPermitPool A) : Prop := ∀ s, permit_inv s →
  permit_inv (m s).1 ∧ ∀ e, (m s).2 = Err e → e = CancelledError.

#[local] Arguments Counts.add : simpl never.
#[local] Arguments Counts.count : simpl never.
Ltac step_pool := cbv [mbind M_bind get modify raise mret M_ret set_tasks set_permits add_active add_waiters new_permit].

Lemma acquire_kept kind : permits_kept (acquire kind).
Proof.
  intros s [Ha Hl Hw Hn]. unfold acquire, pass. step_pool. set (q := partition_of kind). cbn [active].
  destruct (Z.leb_spec (limit q) (Counts.count q (active s))) as [Hf|Hf]; cbn; (split; [|done]).
  - split; cbn; intros p.
    + apply Ha.
    + apply Hl.
    + rewrite count_add, lsum_snoc, Hw. by rewrite waiting_task.
    + intros [H|H%list_elem_of_singleton]%elem_of_app; [by apply Hn|]. by injection H as ->.
  - split; cbn; intros p.
    + rewrite count_add, lsum_snoc, Ha. by rewrite held_permit.
    + rewrite count_add. specialize (Hl p). case_bool_decide; subst; lia.
    + rewrite !count_add, <-Hw. repeat case_bool_decide; lia.
    + intros H%Hn. rewrite count_add. case_bool_decide; lia.
Qed.

Lemma wake_kept i : permits_kept (wake i).
Proof.
  intros s [Ha Hl Hw Hn]. unfold wake. step_pool. cbn. split; [|done].
  destruct (tasks s !! i) as [t|] eqn:Hi; split; cbn; intros p; try done; try apply Ha; try apply Hl; try apply Hw; try apply Hn.
  - rewrite (lsum_insert _ _ _ _ _ Hi), notify_waiting, Hw. lia.
  - intros [H|H]%elem_of_insert_list; [|by apply Hn]. by destruct t as [q []].
Qed.

Lemma resume_kept i : permits_kept (resume i).
Proof.
  intros s [Ha Hl Hw Hn]. unfold resume, pass. step_pool.
  destruct (tasks s !! i) as [[q [[|]|]]|] eqn:Hi; [|split; [by split|done]..].
  destruct (Z.leb_spec (limit q) (Counts.count q (active s))) as [Hf|Hf]; cbn; (split; [|done]).
  - split; cbn; intros p; try apply Ha; try apply Hl.
    + rewrite (lsum_insert _ _ _ _ _ Hi), Hw. rewrite !waiting_task. lia.
    + intros [H|H]%elem_of_insert_list; [|by apply Hn]. by injection H as ->.
  - split; cbn; intros p.
    + rewrite count_add, lsum_snoc, Ha. by rewrite held_permit.
    + rewrite count_add. specialize (Hl p). case_bool_decide; subst; lia.
    + rewrite count_add, (lsum_insert _ _ _ _ _ Hi), Hw. rewrite waiting_task, left_task.
      case_bool_decide; lia.
    + intros [H|H%Hn]%elem_of_insert_list; [done|]. rewrite count_add. case_bool_decide; lia.
Qed.

Lemma cancel_kept i : permits_kept (cancel i).
Proof.
  intros s [Ha Hl Hw Hn]. unfold cancel. step_pool.
  destruct (tasks s !! i) as [[q [b|]]|] eqn:Hi; [|split; [by split|done]..].
  cbn. split; [|by intros e [= <-]]. split; cbn; intros p; try apply Ha; try apply Hl.
  - rewrite count_add, (lsum_insert _ _ _ _ _ Hi), Hw. rewrite waiting_task, left_task.
    case_bool_decide; lia.
  - intros [H|H%Hn]%elem_of_insert_list; done.
Qed.

Lemma try_shadow_kept : permits_kept try_shadow.
Proof.
  intros s [Ha Hl Hw Hn]. unfold try_shadow. step_pool.
  destruct (_ || _) eqn:E; [split; [by split|done]|]. bprop in E. destruct E as [E1 E2].
  change (Counts.count Foreground (active s) < limit Foreground) in E2. cbn. split; [|done]. split; cbn; intros p.
  - rewrite count_add, lsum_snoc, Ha. by rewrite held_permit.
  - rewrite count_add. specialize (Hl p). case_bool_decide; subst; lia.
  - apply Hw.
  - intros H%Hn. rewrite count_add. case_bool_decide; lia.
Qed.

Lemma permit_release_kept i : permits_kept (release i).
Proof.
  intros s [Ha Hl Hw Hn]. unfold release, release_partition. step_pool.
  destruct (permits s !! i) as [[q sh r]|] eqn:Hi; [|split; [by split|done]].
  destruct r; [split; [by split|done]|]. cbn.
  assert (1 ≤ Counts.count q (active s)) as H1.
  { rewrite Ha. pose proof (lsum_elem (held q) _ _ _ (λ x _, held_nonneg q x) Hi) as H.
    by rewrite held_permit, bool_decide_true in H. }
  rewrite (proj2 (Z.ltb_ge _ _) H1). cbn. split; [|done]. split; cbn; intros p.
  - rewrite count_add, (lsum_insert _ _ _ _ _ Hi), Ha. rewrite held_permit, released_permit.
    case_bool_decide; lia.
  - rewrite count_add. specialize (Hl p). case_bool_decide; lia.
  - by rewrite lsum_notify, Hw.
  - intros ([q' []] & H & _)%list_elem_of_fmap; done.
Qed.

Lemma permit_op_kept o : permits_kept (run_op o).
Proof.
  assert (∀ m : M AttemptPermitPool unit, permits_kept m → permits_kept (m;; mret (@None nat))) as Hu.
  { intros m Hm s Hs. destruct (Hm s Hs) as [H1 H2]. unfold mbind, M_bind.
    destruct (m s) as [s' [u|e]]; [by split|]. split; [done|]. intros e' [= <-]. by apply H2. }
  destruct o as [kind|i|i|i| |i]; cbn [run_op].
  - apply acquire_kept.
  - apply Hu, wake_kept.
  - apply resume_kept.
  - apply cancel_kept.
  - apply try_shadow_kept.
  - apply Hu, permit_release_kept.
Qed.
Lemma permit_run_inv ops s : permit_inv s → permit_inv (run ops s).
Proof. revert s. induction ops as [|o ops IH]; intros s H; [done|]. apply IH, permit_op_kept, H. Qed.
End PermitFacts.

(** ** The relay *)
Module StreamFacts.
Import Relay Stream.
Implicit Types st : Relay.

(** What the iterator gives before it stops, and what it stops with. *)
Fixpoint upstream (turns : list Turn) (ending : Ending) : list bytes * exn :=
  match turns with
  | [] => ([], Ending.raised ending)
  | turn :: turns =>
      match Turn.next turn with
      | Ok chunk => (chunk :: (upstream turns ending).1, (upstream turns ending).2)
      | Err e => ([], e)
      end
  end.

(** The messages [ms] were accepted, and nothing else changed. *)
Definition wrote (ms : list message) st st' : Prop :=
  messages st' = messages st ++ ms ∧ started st' = started st ∧ first_byte st' = first_byte st.
(** [m] either has the message accepted or does not, and returns only if it has. *)
Definition delivers (msg : message) {A} (m : M Relay A) : Prop := ∀ st st' r, m st = (st', r) →
  ∃ delivered : bool, wrote (if delivered then [msg] else []) st st' ∧ ∀ a, r = Ok a → delivered = true.

Lemma wrote_nil st : wrote [] st st.
Proof. split; [by rewrite app_nil_r|done]. Qed.

Lemma send_delivers msg answer : delivers msg (send msg answer).
Proof.
  intros st st' r. destruct answer as [u|e]; intros [= <- <-].
  - by exists true.
  - exists false. split; [apply wrote_nil|done].
Qed.
Lemma catch_delivers {A} msg caught (m : M Relay A) (handler : exn → exn) :
  delivers msg m → delivers msg (catch caught m (λ e, raise (handler e))).
Proof.
  intros Hm st st' r H. unfold catch in H. destruct (m st) as [s1 [a|e]] eqn:E.
  - injection H as <- <-. by eapply Hm.
  - destruct (Hm _ _ _ E) as (d & Hd & _). destruct (caught e); injection H as <- <-; by exists d.
Qed.
(** An operation that loses the race: what it did, and an exception. *)
Lemma lost_race {A} (m : M Relay A) e st st' r :
  (catch (λ _, true) (m;; mret tt) (λ _, mret tt);; raise (A := A) e) st = (st', r) →
  ∃ r', m st = (st', r') ∧ r = Err e.
Proof.
  cbv [mbind M_bind catch mret M_ret raise]. destruct (m st) as [s1 [a|x]]; intros [= <- <-]; by eauto.
Qed.
Lemma await_or_disconnect_ran {A} race (m : M Relay A) st st' r :
  await_or_disconnect race m st = (st', r) →
  ∃ r', m st = (st', r') ∧ ∀ a, r = Ok a → race = Completed ∧ r' = Ok a.
Proof.
  destruct race; cbn [await_or_disconnect]; [by eauto|..];
    intros (r' & Hr & ->)%lost_race; by exists r'.
Qed.
Lemma await_result {A} race (x : result A) st st' r :
  await_or_disconnect race (lift x) st = (st', r) → st' = st ∧ ∀ a, r = Ok a → x = Ok a.
Proof.
  intros (r' & H & Hr)%await_or_disconnect_ran. unfold lift in H. assert (st = st' ∧ x = r') as [-> ->]
    by (by injection H). split; [done|]. intros a Ha. by apply Hr.
Qed.
Lemma await_delivers {A} msg race (m : M Relay A) : delivers msg m → delivers msg (await_or_disconnect race m).
Proof.
  intros Hm st st' r (r' & H & Hr)%await_or_disconnect_ran.
  destruct (Hm _ _ _ H) as (d & Hd & Ho). exists d. split; [done|]. intros a Ha. by eapply Ho, Hr.
Qed.
Lemma body_delivers race msg answer text :
  delivers msg (downstream_failure (await_or_disconnect race (send msg answer)) text).
Proof. apply (catch_delivers _ _ _ (λ _, _)), await_delivers, send_delivers. Qed.

(** The start is recorded exactly when it was sent. *)
Lemma shielded_start msg answer interruptions cancelled st st' r :
  shielded msg answer interruptions cancelled st = (st', r) →
  (st' = st ∧ ∀ a, r ≠ Ok a) ∨ st' = mk true (messages st ++ [msg]) (first_byte st).
Proof.
  revert cancelled. induction interruptions as [|n IH]; intros cancelled H; [|by eapply IH].
  destruct answer as [u|e]; cbv [shielded send modify raise mbind M_bind mret M_ret] in H.
  - right. cbn in H. destruct cancelled; by injection H as <- <-.
  - left. injection H as <- <-. by split.
Qed.
Lemma relay_started race w status headers text st st' r :
  downstream_failure (await_or_disconnect race (response_start w status headers)) text st = (st', r) →
  (st' = st ∧ ∀ a, r ≠ Ok a) ∨
  started st = false ∧ st' = mk true (messages st ++ [StartMessage status headers]) (first_byte st).
Proof.
  assert (∀ r, response_start w status headers st = (st', r) →
    (st' = st ∧ ∀ a, r ≠ Ok a) ∨
    started st = false ∧ st' = mk true (messages st ++ [StartMessage status headers]) (first_byte st)) as Hs.
  { intros r'. unfold response_start. destruct (Sending.lock_cancelled w).
    { intros [= <- <-]. by left. }
    cbv [get mbind M_bind raise]. destruct (started st) eqn:Es.
    - intros [= <- <-]. by left.
    - intros [H|H]%shielded_start; [by left|by right]. }
  unfold downstream_failure, catch. destruct (await_or_disconnect _ _ st) as [s1 r1] eqn:E.
  apply await_or_disconnect_ran in E as (r' & E & Hr). destruct r1 as [a|e].
  - intros [= <- <-]. destruct (Hr a eq_refl) as [_ ->]. destruct (Hs _ E) as [[-> Hn]|H]; [|by right].
    by destruct (Hn a).
  - intros H. assert (st' = s1 ∧ ∀ a, r ≠ Ok a) as [-> Hn].
    { destruct (_ && _); injection H as <- <-; by split. }
    destruct (Hs _ E) as [[-> _]|H']; [by left|by right].
Qed.

Section Callback.
Context (on_first_byte : option (result unit)).

Lemma observe_calls chunk fo st st' r : observe on_first_byte chunk fo st = (st', r) →
  messages st' = messages st ∧ started st' = started st ∧
  first_byte st' = first_byte st +
    (if bool_decide (is_Some on_first_byte) && negb (bool_decide (chunk = [])) && negb fo then 1 else 0) ∧
  ∀ fo', r = Ok fo' → fo' = negb (bool_decide (chunk = [])) || fo.
Proof.
  unfold observe. destruct (bool_decide (chunk = [])) eqn:Ec, fo; cbn;
    rewrite ?andb_false_r, ?Z.add_0_r; try by intros [= <- <-]; split_and!; [..|by intros ? [= <-]].
  destruct on_first_byte as [[u|e]|]; cbv [modify mbind M_bind lift mret M_ret]; cbn; intros [= <- <-];
    cbn; rewrite ?Z.add_0_r; split_and!; try done; by intros ? [= <-].
Qed.

(** What a part of the relay has sent: the bodies, and the last message. *)
Definition last_message : message := BodyMessage [] false.
Definition relayed (source : list bytes * exn) (fo : bool) (sent : Z) st st' (r : result Z) : Prop :=
  ∃ bodies (finished : bool),
    messages st' = messages st ++ ((λ b, BodyMessage b true) <$> bodies) ++ (if finished then [last_message] else []) ∧
    started st' = started st ∧ bodies `prefix_of` source.1 ∧
    (finished = true → bodies = source.1 ∧ source.2 = StopAsyncIteration) ∧
    (∀ n, r = Ok n → finished = true ∧ n = sent + zlen (concat bodies)) ∧
    first_byte st ≤ first_byte st' ≤ first_byte st + (if fo then 0 else 1) ∧
    (fo = false → is_Some on_first_byte → concat bodies ≠ [] → first_byte st' = first_byte st + 1).

Lemma next_stop next : next_with_timeout next = Ok None → next = Err StopAsyncIteration.
Proof. by destruct next as [c|[]]. Qed.
Lemma next_chunk next c : next_with_timeout next = Ok (Some c) → next = Ok c.
Proof. destruct next as [c'|[]]; cbn; try done. by intros [= ->]. Qed.

Ltac counted fo := first [done | apply prefix_nil | destruct fo; lia].
(** Nothing sent, and an exception. *)
Lemma relayed_none source fo sent st e : relayed source fo sent st st (Err e).
Proof.
  exists [], false. cbn. rewrite app_nil_r. split_and!; counted fo.
Qed.
Lemma finish_relayed ending fo sent st st' r :
  finish ending sent st = (st', r) → relayed ([], StopAsyncIteration) fo sent st st' r.
Proof.
  unfold finish. intros [(s1 & u & E & H)|(e & E & ->)]%M_bind_cases.
  - apply (body_delivers _ _ _ _ _ _ _) in E as (d & (Hm & Hs & Hf) & Hd). specialize (Hd u eq_refl). subst d.
    injection H as <- <-. exists [], true. cbn. rewrite Hm, Hf. split_and!; try counted fo.
    intros n [= <-]. split; [done|]. unfold zlen. cbn. lia.
  - apply (body_delivers _ _ _ _ _ _ _) in E as (d & (Hm & Hs & Hf) & _).
    exists [], d. cbn. rewrite Hf. split_and!; counted fo.
Qed.

(** The first byte has been seen once a chunk that is not empty has. *)
Definition seen (chunk : bytes) (fo : bool) : bool := negb (bool_decide (chunk = [])) || fo.
Definition observed (chunk : bytes) (fo : bool) st st' : Prop :=
  messages st' = messages st ∧ started st' = started st ∧
  first_byte st' = first_byte st +
    (if bool_decide (is_Some on_first_byte) && negb (bool_decide (chunk = [])) && negb fo then 1 else 0).

Lemma relayed_stopped chunk source fo sent st s1 st' e (delivered : bool) :
  observed chunk fo st s1 → wrote (if delivered then [BodyMessage chunk true] else []) s1 st' →
  relayed (chunk :: source.1, source.2) fo sent st st' (Err e).
Proof.
  intros (O1 & O2 & O3) (W1 & W2 & W3). rewrite O1 in W1. rewrite O2 in W2. rewrite O3 in W3.
  exists (if delivered then [chunk] else []), false. cbn [fst snd]. rewrite app_nil_r, W1, W3. split_and!; try done.
  - by destruct delivered.
  - destruct delivered; [|apply prefix_nil]. apply prefix_cons, prefix_nil.
  - destruct (_ && _); lia.
  - destruct fo; [rewrite andb_false_r|destruct (_ && _)]; lia.
  - intros -> Hs Hn. rewrite (bool_decide_true (is_Some _)), (bool_decide_false (chunk = [])) by
      (first [done | intros ->; by destruct delivered]). done.
Qed.
Lemma relayed_cons chunk source fo sent st s1 s2 st' r :
  observed chunk fo st s1 → wrote [BodyMessage chunk true] s1 s2 →
  relayed source (seen chunk fo) (sent + zlen chunk) s2 st' r →
  relayed (chunk :: source.1, source.2) fo sent st st' r.
Proof.
  intros (O1 & O2 & O3) (W1 & W2 & W3) (bodies & fin & Hm & Hs & Hp & Hf & Hr & Hc & Hc1).
  rewrite O1 in W1. rewrite O2 in W2. rewrite O3 in W3. rewrite W3 in Hc, Hc1. unfold seen in Hc, Hc1.
  exists (chunk :: bodies), fin. cbn [fst snd]. split_and!.
  - rewrite Hm, W1, <-!app_assoc. done.
  - congruence.
  - by apply prefix_cons.
  - intros H. destruct (Hf H) as [-> ?]. done.
  - intros n Hn. destruct (Hr n Hn) as [-> ->]. split; [done|]. cbn. unfold zlen. rewrite length_app. lia.
  - destruct (_ && _); lia.
  - destruct (bool_decide (is_Some on_first_byte)), (bool_decide (chunk = [])), fo; cbn in *; lia.
  - intros -> Hsome Hn. rewrite (bool_decide_true (is_Some _)) in * by done.
    destruct (bool_decide (chunk = [])) eqn:Ec; bprop in Ec; cbn in *.
    + subst chunk. specialize (Hc1 eq_refl Hsome Hn). lia.
    + lia.
Qed.

Lemma relay_loop_relayed turns ending fo sent st st' r :
  relay_loop on_first_byte turns ending fo sent st = (st', r) →
  relayed (upstream turns ending) fo sent st st' r.
Proof.
  revert fo sent st. induction turns as [|turn turns IH]; intros fo sent st; cbn [relay_loop upstream].
  - intros [(s1 & c & E & H)|(e & E & ->)]%M_bind_cases.
    + apply await_result in E as [-> Hc]. specialize (Hc c eq_refl).
      destruct c as [c|]; [by apply next_chunk in Hc|]. apply next_stop in Hc as [= ->].
      by apply finish_relayed with (fo := fo) in H.
    + apply await_result in E as [-> _]. apply relayed_none.
  - intros [(s1 & c & E & H)|(e & E & ->)]%M_bind_cases.
    2: { apply await_result in E as [-> _]. apply relayed_none. }
    apply await_result in E as [-> Hc]. specialize (Hc c eq_refl).
    destruct c as [chunk|].
    2: { apply next_stop in Hc as ->. by apply finish_relayed with (fo := fo) in H. }
    apply next_chunk in Hc as ->. cbn [fst snd].
    apply M_bind_cases in H as [(s2 & fo' & E & H)|(e & E & ->)]; apply observe_calls in E as (O1 & O2 & O3 & O4).
    2: { apply (relayed_stopped _ _ _ _ _ st' _ _ false); [done|apply wrote_nil]. }
    rewrite (O4 fo' eq_refl) in *. assert (observed chunk fo st s2) as O by done.
    apply M_bind_cases in H as [(s3 & u & E & H)|(e & E & ->)]; apply body_delivers in E as (d & W & Hd).
    2: { by eapply relayed_stopped. }
    rewrite (Hd u eq_refl) in W. eapply relayed_cons; [done..|]. by apply IH.
Qed.

(** Nothing gets in the way: no disconnection, cancellation or failure. *)
Definition calm_turn (turn : Turn) : bool :=
  match Turn.next_race turn, Turn.next turn, Turn.send_race turn, Turn.answer turn with
  | Completed, Ok _, Completed, Ok _ => true
  | _, _, _, _ => false
  end.
Definition calm_ending (ending : Ending) : bool :=
  match Ending.next_race ending, Ending.raised ending, Ending.final_race ending, Ending.answer ending with
  | Completed, StopAsyncIteration, Completed, Ok _ => true
  | _, _, _, _ => false
  end.
Definition quiet_callback : bool :=
  match on_first_byte with Some (Err _) => false | _ => true end.

Lemma observe_quiet chunk fo st : quiet_callback = true →
  ∃ st', observe on_first_byte chunk fo st = (st', Ok (seen chunk fo)).
Proof.
  unfold quiet_callback, observe, seen. intros H. destruct (bool_decide (chunk = [])), fo; cbn; try (eexists; reflexivity).
  destruct on_first_byte as [[u|e]|]; try done; eexists; reflexivity.
Qed.
Lemma relay_loop_calm turns ending fo sent st : quiet_callback = true →
  forallb calm_turn turns = true → calm_ending ending = true →
  ∃ st', relay_loop on_first_byte turns ending fo sent st =
         (st', Ok (sent + zlen (concat (upstream turns ending).1))).
Proof.
  intros Hq Ht He. revert fo sent st Ht. induction turns as [|turn turns IH]; intros fo sent st Ht.
  - destruct ending as [[] [] [] [u|e]]; try done. cbn. eexists. unfold zlen. cbn. by rewrite Z.add_0_r.
  - cbn [forallb] in Ht. apply andb_true_iff in Ht as [Hc Ht].
    destruct turn as [[] [chunk|e] [] [u|e']]; try done. cbn [relay_loop upstream].
    destruct (observe_quiet chunk fo st Hq) as [s1 E].
    destruct (IH (seen chunk fo) (sent + zlen chunk)
      (mk (started s1) (messages s1 ++ [BodyMessage chunk true]) (first_byte s1)) Ht) as [st' E'].
    exists st'. apply M_bind_Ok. exists st, (Some chunk). split; [done|].
    apply M_bind_Ok. exists s1, (seen chunk fo). split; [exact E|].
    apply M_bind_Ok.
    exists (mk (started s1) (messages s1 ++ [BodyMessage chunk true]) (first_byte s1)), tt. split; [by destruct u|].
    rewrite E'. cbn. unfold zlen. by rewrite length_app, Nat2Z.inj_add, Z.add_assoc.
Qed.
End Callback.

(** ** Headers *)
(** A header a response is relayed with: not hop-by-hop, not the length, and not named by
    a [Connection] header. *)
Definition forwarded (response : Response) (name value : bytes) : Prop :=
  ∃ n, (n, value) ∈ Response.raw response ∧ name = bytes_lower n ∧ (¬ name ∈ HOP_HEADERS) ∧
    name ≠ text_bytes "content-length" ∧
    ∀ c v token, (c, v) ∈ Response.raw response → bytes_lower c = text_bytes "connection" →
      token ∈ split_byte "," v → name ≠ bytes_lower (strip bytes_space token).

Lemma elem_of_connection_tokens raw token : token ∈ connection_tokens raw ↔
  ∃ c v t, (c, v) ∈ raw ∧ bytes_lower c = text_bytes "connection" ∧ t ∈ split_byte "," v ∧
    token = bytes_lower (strip bytes_space t).
Proof.
  unfold connection_tokens. rewrite list_elem_of_bind. split.
  - intros ([c v] & (t & -> & Ht)%list_elem_of_fmap & H). rewrite list_elem_of_In, filter_In, <-list_elem_of_In in H.
    destruct H as [H Hc%bool_decide_eq_true]. by exists c, v, t.
  - intros (c & v & t & H & Hc & Ht & ->). exists (c, v). split; [apply list_elem_of_fmap; by exists t|].
    rewrite list_elem_of_In, filter_In, <-list_elem_of_In. split; [done|]. by apply bool_decide_eq_true.
Qed.
Lemma response_headers_exact response name value :
  (name, value) ∈ response_headers response ↔ forwarded response name value.
Proof.
  unfold response_headers, forwarded. rewrite list_elem_of_fmap. split.
  - intros ([n v] & [= -> ->] & H). rewrite list_elem_of_In, filter_In, <-list_elem_of_In in H.
    destruct H as [H Hb]. bprop in Hb. destruct Hb as [[Hh Ht] Hl]. exists n. cbn [fst snd] in *. split_and!; try done.
    intros c v' token Hc Hn Hto Heq. apply Ht, elem_of_connection_tokens. by exists c, v', token.
  - intros (n & H & -> & Hh & Hl & Ht). exists (n, value). split; [done|].
    rewrite list_elem_of_In, filter_In, <-list_elem_of_In. split; [done|]. bprop. cbn [fst]. split_and!; try done.
    intros (c & v & t & Hc & Hn & Hto & Heq)%elem_of_connection_tokens. by eapply Ht.
Qed.
End StreamFacts.

(** ** Bodies read before the start, and buffered responses *)
Module BufferFacts.
Import Relay Stream StreamFacts.

Fixpoint received (nexts : list (result bytes)) (ending : exn) : list bytes * exn :=
  match nexts with
  | [] => ([], ending)
  | Ok chunk :: nexts => (chunk :: (received nexts ending).1, (received nexts ending).2)
  | Err e :: _ => ([], e)
  end.

Lemma observe_messages cb chunk fo st st' r : observe cb chunk fo st = (st', r) →
  messages st' = messages st ∧ started st' = started st.
Proof. intros (H1 & H2 & _)%observe_calls. done. Qed.

Lemma lift_Ok {S A} (x : result A) (st st' : S) a : lift x st = (st', Ok a) → st' = st ∧ x = Ok a.
Proof. unfold lift. intros H. by injection H as <- ->. Qed.
(** An error body is read whole, and is never longer than the classifier takes. *)
Lemma prestart_Ok cb nexts ending fo body st st' b : zlen body <= MAX_PRESTART_ERROR_BYTES →
  prestart_loop cb nexts ending fo body st = (st', Ok b) →
  messages st' = messages st ∧ started st' = started st ∧
  b = body ++ concat (received nexts ending).1 ∧ (received nexts ending).2 = StopAsyncIteration ∧
  zlen b <= MAX_PRESTART_ERROR_BYTES.
Proof.
  revert fo body st. induction nexts as [|next nexts IH]; intros fo body st Hb; cbn [prestart_loop].
  - intros (s1 & c & [-> E]%lift_Ok & H)%M_bind_Ok. injection H as <- <-.
    destruct c as [c|]; [by apply next_chunk in E|]. apply next_stop in E as [= ->]. cbn. by rewrite app_nil_r.
  - intros (s1 & c & [-> E]%lift_Ok & H)%M_bind_Ok. destruct c as [chunk|].
    + apply next_chunk in E as ->. apply M_bind_Ok in H as (s2 & fo' & [O1 O2]%observe_messages & H).
      destruct (Z.ltb_spec MAX_PRESTART_ERROR_BYTES (zlen body + zlen chunk)) as [|Hl]; [done|].
      apply IH in H as (H1 & H2 & -> & H3 & H4); [|unfold zlen in *; rewrite length_app; lia].
      cbn. rewrite <-app_assoc. split_and!; [congruence..|done|done|]. by rewrite app_assoc.
    + apply next_stop in E as ->. injection H as <- <-. cbn. by rewrite app_nil_r.
Qed.

(** The slices of a body are the body. *)
Lemma concat_slices (body : bytes) (k n : nat) : (0 < k)%nat → (length body ≤ n * k)%nat →
  concat ((λ i, take k (drop (i * k) body)) <$> seq 0 n) = body.
Proof.
  intros Hk. revert body. induction n as [|n IH]; intros body Hn; [destruct body; [done|cbn in Hn; lia]|].
  cbn [seq fmap list_fmap concat]. rewrite drop_0, <-fmap_S_seq, <-list_fmap_compose.
  rewrite <-(take_drop k body) at 2. f_equal. rewrite <-(IH (drop k body)) at 1 by (rewrite length_drop; lia).
  f_equal. apply list_fmap_ext. intros _ i _. cbn. by rewrite drop_drop.
Qed.
Lemma slices_whole body : concat (slice body <$> offsets (zlen body)) = body.
Proof.
  unfold offsets. rewrite <-list_fmap_compose.
  etransitivity; [|apply (concat_slices body (Z.to_nat RAW_CHUNK_BYTES)
    (Z.to_nat ((zlen body + RAW_CHUNK_BYTES - 1) / RAW_CHUNK_BYTES)))].
  - f_equal. apply list_fmap_ext. intros _ i _. unfold compose, slice.
    by rewrite (Z2Nat.inj_mul (Z.of_nat i) _ (Nat2Z.is_nonneg i)), Nat2Z.id.
  - unfold RAW_CHUNK_BYTES. lia.
  - apply Nat2Z.inj_le. unfold zlen, RAW_CHUNK_BYTES in *. rewrite Nat2Z.inj_mul, !Z2Nat.id; [|lia|apply Z.div_pos; lia].
    pose proof (Z.div_mod (Z.of_nat (length body) + 64 * 1024 - 1) (64 * 1024)).
    pose proof (Z.mod_pos_bound (Z.of_nat (length body) + 64 * 1024 - 1) (64 * 1024)). lia.
Qed.
Lemma send_each body answers l st st' u :
  for_each (λ offset, send (BodyMessage (slice body offset) true) (answers offset)) l st = (st', Ok u) →
  messages st' = messages st ++ ((λ b, BodyMessage b true) <$> (slice body <$> l)).
Proof.
  revert st. induction l as [|o l IH]; intros st; cbn [for_each].
  - intros [= <- <-]. cbn. by rewrite app_nil_r.
  - intros (s1 & [] & E & H)%M_bind_Ok. apply send_delivers in E as (d & (Hm & _) & Hd).
    rewrite (Hd tt eq_refl) in Hm. rewrite (IH _ H), Hm, <-app_assoc. done.
Qed.
(** An upstream error that was read is relayed whole, in pieces of bounded length. *)
Lemma error_relayed_whole cb nexts ending response start answers last body st s1 s2 :
  read_prestart_error cb nexts ending st = (s1, Ok body) →
  relay_buffered_response response body start answers last s1 = (s2, Ok tt) →
  ∃ bodies, messages s2 = messages st ++
      StartMessage (Response.status_code response) (response_headers response) ::
      ((λ b, BodyMessage b true) <$> bodies) ++ [BodyMessage [] false] ∧
    concat bodies = concat (received nexts ending).1 ∧
    (received nexts ending).2 = StopAsyncIteration ∧
    ∀ b, b ∈ bodies → zlen b <= RAW_CHUNK_BYTES.
Proof.
  intros (H1 & _ & -> & H2 & _)%prestart_Ok; [|done]. cbn [app]. set (body := concat _).
  unfold relay_buffered_response, catch.
  match goal with |- (match ?x with _ => _ end = _) → _ => destruct x as [s3 [u|e]] eqn:E end;
    [intros [= -> ->]|by destruct (negb _)]. exists (slice body <$> offsets (zlen body)).
  apply M_bind_Ok in E as (s4 & [] & E1 & E). apply M_bind_Ok in E as (s5 & [] & E2 & E3).
  assert (∃ r, downstream_failure (await_or_disconnect Completed (response_start start
    (Response.status_code response) (response_headers response))) "" s1 = (s4, r) ∧ r = Ok tt) as (r & E' & ->).
  { exists (Ok tt). split; [|done]. unfold downstream_failure, catch. cbn [await_or_disconnect]. by rewrite E1. }
  apply relay_started in E' as [[_ Hn]|[_ ->]]; [by destruct (Hn tt)|].
  apply send_each in E2. apply send_delivers in E3 as (d & (Hm & _) & Hd). rewrite (Hd tt eq_refl) in Hm.
  split_and!; [|apply slices_whole|done|].
  - rewrite Hm, E2, H1. cbn. by rewrite <-!app_assoc.
  - intros b (o & -> & _)%list_elem_of_fmap. unfold slice, zlen. rewrite length_take.
    unfold RAW_CHUNK_BYTES. lia.
Qed.
End BufferFacts.

(** ** Theorems *)
Module StreamingTheorems.
Import AttemptPermitPool Permits PermitFacts Relay Stream StreamFacts.

(** C25. The partitions of the permit pool are never lent.  Whatever the tasks of the
    process do and in whatever order (acquiring, being notified, spuriously woken, resumed
    or cancelled, borrowing for shadow traffic, releasing once or several times), each
    partition counts exactly the permits held of it, within its own limit and 144 in all,
    and as many waiters as tasks wait.  A task that waits without having been notified
    waits for a full partition, so no wake-up is lost; no operation raises but for a
    cancellation; a task gets a permit at once exactly when its own partition has one
    free, and shadow traffic exactly when a foreground permit is idle and nobody waits
    for one. *)
Theorem permits_partitioned ops :
  ∃ s0, AttemptPermitPool.init = Ok s0 ∧ let s := Permits.run ops s0 in
  (∀ p, 0 ≤ Counts.count p (active s) ≤ limit p ∧
        Counts.count p (active s) = lsum (held p) (permits s) ∧
        Counts.count p (waiters s) = lsum (waiting p) (tasks s)) ∧
  total_active s ≤ ATTEMPT_PERMITS ∧
  (∀ i p, tasks s !! i = Some (Acquiring.mk p (Waiting false)) → Counts.count p (active s) = limit p) ∧
  (∀ o e, (run_op o s).2 = Err e → e = CancelledError) ∧
  (∀ kind, (acquire kind s).2 = Ok None ↔ Counts.count (partition_of kind) (active s) = limit (partition_of kind)) ∧
  ((try_shadow s).2 = Ok None ↔
     Counts.count Foreground (active s) = limit Foreground ∨ 0 < lsum (waiting Foreground) (tasks s)).
Proof.
  eexists. split; [reflexivity|]. intros s.
  assert (permit_inv s) as H by apply permit_run_inv, permit_inv_init. pose proof H as [Ha Hl Hw Hn].
  assert (∀ p, 0 ≤ Counts.count p (active s)) as H0 by (intros p; rewrite Ha; apply lsum_nonneg; intros; apply held_nonneg).
  split_and!.
  - intros p. by split_and!.
  - pose proof (Hl Foreground). pose proof (Hl Recovery). pose proof (Hl DiscoveryQualification).
    unfold total_active, Counts.total. unfold limit in *. cbn in *. unfold ATTEMPT_PERMITS,
      FOREGROUND_PERMITS, RECOVERY_PERMITS, DISCOVERY_QUALIFICATION_PERMITS in *. lia.
  - intros i p Hi%list_elem_of_lookup_2%Hn. specialize (Hl p). lia.
  - intros o. apply (permit_op_kept o s H).
  - intros kind. specialize (Hl (partition_of kind)). unfold acquire, pass. step_pool. cbn [active].
    destruct (Z.leb_spec (limit (partition_of kind)) (Counts.count (partition_of kind) (active s))); cbn.
    + split; [lia|done].
    + split; [done|lia].
  - pose proof (Hl Foreground) as Hf. pose proof (lsum_nonneg (waiting Foreground) (tasks s) ltac:(intros; apply waiting_nonneg)).
    rewrite <-Hw in *. unfold try_shadow. step_pool.
    change (Counts.foreground (waiters s)) with (Counts.count Foreground (waiters s)).
    change (Counts.foreground (active s)) with (Counts.count Foreground (active s)).
    change FOREGROUND_PERMITS with (limit Foreground). destruct (_ || _) eqn:E; bprop in E.
    + split; [intros _; lia|done].
    + split; [done|]. lia.
Qed.

(** C24. A response is relayed byte for byte, and never completed when it was cut short.
    However the relay ends, it has sent nothing, or the start, once and first, and then the
    chunks of the upstream in order, none missing between; the last message, by which the
    server knows the response is complete, is sent only when the upstream ended by itself
    and every chunk was delivered before.  Only then does the relay return, with the number
    of bytes.  The first byte is announced at most once, before any byte is delivered.  The
    headers are those of the response that are not hop-by-hop, not named by a Connection
    header and not the length.  Undisturbed, the relay completes. *)
Theorem relay_byte_exact on_first_byte response race start turns ending st r :
  relay_raw_response on_first_byte response race start turns ending Relay.init = (st, r) →
  let source := upstream turns ending in
  ((messages st = [] ∧ started st = false ∧ ∀ n, r ≠ Ok n) ∨
   ∃ bodies (finished : bool),
     messages st = StartMessage (Response.status_code response) (response_headers response) ::
       ((λ b, BodyMessage b true) <$> bodies) ++ (if finished then [BodyMessage [] false] else []) ∧
     started st = true ∧ bodies `prefix_of` source.1 ∧
     (finished = true → bodies = source.1 ∧ source.2 = StopAsyncIteration) ∧
     (∀ n, r = Ok n → finished = true ∧ n = zlen (concat bodies)) ∧
     0 ≤ first_byte st ≤ 1 ∧ (is_Some on_first_byte → concat bodies ≠ [] → first_byte st = 1)) ∧
  (∀ name value, (name, value) ∈ response_headers response ↔ forwarded response name value) ∧
  (race = Completed → start = Sending.mk false 0 (Ok tt) → quiet_callback on_first_byte = true →
   forallb calm_turn turns = true → calm_ending ending = true → r = Ok (zlen (concat source.1))).
Proof.
  intros H source. split; [|split; [apply response_headers_exact|]].
  - apply M_bind_cases in H as [(s1 & u & E & H)|(e & E & ->)]; apply relay_started in E as [[-> Hn]|[_ E]].
    + by destruct (Hn u).
    + right. subst s1. apply relay_loop_relayed in H as (bodies & fin & Hm & Hs & Hp & Hf & Hr & Hc & Hc1).
      exists bodies, fin. cbn in Hm, Hs, Hc, Hc1. split_and!; try done; [lia..|auto].
    + by left.
    + right. subst st. exists [], false. cbn. split_and!; try done. apply prefix_nil.
  - intros -> -> Hq Ht He. apply M_bind_cases in H as [(s1 & u & E & H)|(e & E & ->)]; [|done].
    destruct (relay_loop_calm on_first_byte turns ending false 0 s1 Hq Ht He) as [st' H'].
    rewrite H' in H. by injection H as _ <-.
Qed.
End StreamingTheorems.

(** ** Witnesses *)
Module StreamingSamples.
Import Relay Stream.
Definition response : Response := Response.mk 200
  [(text_bytes "Content-Type", text_bytes "text/event-stream"); (text_bytes "Content-Length", text_bytes "9");
   (text_bytes "Connection", text_bytes "close, X-Trace"); (text_bytes "X-Trace", text_bytes "1")].
Definition chunk (first : race) (s : string) : Turn :=
  Turn.mk Completed (Ok (text_bytes s)) first (Ok tt).
(** The client leaves while the second of three chunks is sent. *)
Definition turns : list Turn := [chunk Completed "one"; chunk Disconnected "two"; chunk Completed "six"].
Definition ending : Ending := Ending.mk Completed StopAsyncIteration Completed (Ok tt).
Definition cut : Relay := Relay.mk true
  [StartMessage 200 [(text_bytes "content-type", text_bytes "text/event-stream")];
   BodyMessage (text_bytes "one") true; BodyMessage (text_bytes "two") true] 1.
Lemma relay_cut : relay_raw_response (Some (Ok tt)) response Completed (Sending.mk false 0 (Ok tt)) turns
  ending Relay.init = (cut, Err DownstreamDisconnected).
Proof. by vm_compute. Qed.

(** An eighth recovery permit leaves none; the ninth task waits until one is released,
    and foreground permits are no help to it. *)
Example recovery_waits :
  let s := Permits.run (repeat (Permits.Acquire PermitClass.RECOVERY) 9 ++ [Permits.Release 3; Permits.Resume 0])
    (AttemptPermitPool.mk (Counts.mk 0 0 0) (Counts.mk 0 0 0) [] []) in
  Permits.snapshot s = (Counts.mk 0 8 0, Counts.mk 0 0 0) ∧
  AttemptPermitPool.tasks s = [Acquiring.mk Recovery Left] ∧ length (AttemptPermitPool.permits s) = 9%nat.
Proof. by vm_compute. Qed.
End StreamingSamples.

Lemma relay_byte_exact_witness :
  ∃ bodies (finished : bool),
    Relay.messages StreamingSamples.cut =
      StartMessage 200 (response_headers StreamingSamples.response) ::
      ((λ b, BodyMessage b true) <$> bodies) ++ (if finished then [BodyMessage [] false] else []) ∧
    bodies `prefix_of` (StreamFacts.upstream StreamingSamples.turns StreamingSamples.ending).1.
Proof.
  destruct (StreamingTheorems.relay_byte_exact _ _ _ _ _ _ _ _ StreamingSamples.relay_cut)
    as ([(_ & H & _)|(bodies & finished & Hm & _ & Hp & _)] & _); [done|].
  by exists bodies, finished.
Defined.
